(* ===== verification/_CoqProject ===== *)
-Q . S2P
Prelude.v
Crc.v
Sha256.v
FlashLayout.v
OtaCodec.v
OtaCodecFacts.v
OtaSemver.v
OtaManifest.v
OtaPlatform.v
Ota.v
OtaTrace.v
OtaInvariant.v
OtaSim.v
OtaSafety.v
OtaFrame.v
OtaHistory.v
OtaJournal.v
Permissions.v
DeviceSecurity.v
DeviceSecurityFacts.v
DeviceSecurityProtocol.v
DeviceSecurityBoot.v
DeviceSecuritySim.v
NearbyProtocol.v
NearbyFacts.v
RepeatWire.v
RepeatWireFacts.v
RepeatSource.v
ChannelRepeat.v
ChannelRepeatFacts.v
AdvertRepeat.v
AdvertRepeatFacts.v
StorageRetry.v
MeshConfig.v
MeshConfigFacts.v
RadioPolicy.v
RadioPolicyFacts.v
RadioGate.v
RadioGateFacts.v
CompanionText.v
CompanionTextFacts.v
LengthFrame.v
LengthFrameFacts.v
CompanionJson.v
CompanionJsonFacts.v
CompanionProtocol.v
CompanionProtocolFacts.v
FlatJson.v
BleAction.v
BleActionFacts.v
ActionReplay.v
ActionReplayFacts.v
ActionRuntime.v
ActionRuntimeFacts.v
ControlJson.v
ControlJsonFacts.v
BleSession.v
SessionTrace.v
SessionRun.v
SessionFacts.v
SessionPairing.v
SessionSim.v
Pack.v
PackFacts.v
CoreState.v
Replacement.v
PackBoot.v
CoreStateFacts.v
PackBootFacts.v
PackBootSafe.v
PackBootSim.v
Clock.v
ClockCalendar.v
ClockFacts.v
Focus.v
FocusFacts.v
MainJson.v
ClockStore.v
ClockStoreFacts.v
