(* ===== verification/Prelude.v ===== *)
(** * Kitsu firmware: verification library

    A shallow embedding of the security and radio core of the Kitsu firmware
    (src/src/, C++17 for the ESP32-S3) with the properties that make it correct.
    This file is the root: its comment documents the whole library, its body is
    the prelude the other files share.

    ** The program and what is modelled

    Kitsu is a pocket companion on a Heltec V3 board.  A phone talks to it over
    an encrypted and bonded BLE link, other devices over LoRa.  The parts below
    are modelled; each bullet names the library files and the C++ they follow.

    - Firmware updates over BLE (kitsu_ble_ota.h/.cpp).  [OtaCodec]: manifest,
      request, hexadecimal, base64url, version and decimal parsers.  [Crc],
      [Sha256]: the journal checksum and the streaming hash.  [OtaPlatform]: the
      virtual platform interface as a class, its ESP32 adapter over the ESP-IDF
      calls, and an instance that logs every call.  [Ota]: class KitsuBleOta,
      one definition per member function, statement by statement.
    - The flash layout the updater relies on (kitsu_flash_layout.h/.cpp):
      [FlashLayout].
    - Roles and authorization (kitsu_controller_permissions.h/.cpp): [Permissions].
    - The device identity and the table of paired controllers
      (kitsu_device_security.h/.cpp): [DeviceSecurity], class KitsuDeviceSecurity over
      its storage and cryptography interfaces.
    - Nearby-pet packets (kitsu_nearby_protocol.h/.cpp): [NearbyProtocol].
    - Repeat evidence: [RepeatWire] (kitsu_repeat_wire.h/.cpp), [RepeatSource] and
      [ChannelRepeat] (kitsu_channel_repeat_tracker.h/.cpp), [AdvertRepeat]
      (kitsu_advert_repeat_tracker.h/.cpp).
    - The radio: [MeshConfig] (kitsu_mesh_config.h/.cpp: settings, their record and
      store, the session gate), [RadioPolicy] (kitsu_tx_turnaround.h,
      kitsu_rx_rearm_policy.h, kitsu_radio_irq_poll.h) and [RadioGate] (class
      GatedCustomSX1262Wrapper of kitsu_mesh_transport.cpp).
    - Deferred writes (kitsu_storage_retry.h/.cpp): [StorageRetry].
    - The phone protocol (kitsu_companion_protocol.h/.cpp): [CompanionText] (numbers,
      base64url, UTF-8), [CompanionJson] (the JSON syntax check), [LengthFrame] (the
      frame assembler), [CompanionProtocol] (envelopes, transcript proofs, keys).
    - The BLE session (kitsu_ble_session.h/.cpp): [ControlJson] (its control frames)
      and [BleSession], class KitsuBleSession: handshake, pairing, authenticated
      requests, closing and back-off.
    - Actions of the phone (kitsu_ble_action.h/.cpp): [FlatJson] (string tokens, shared
      with the session), [BleAction] (decoder, digest, receipt), [ActionReplay] (the
      replay ledger); [ActionRuntime], the handler applyAction of main.cpp.
    - The companion: [Pack], class CompanionPack (companion_pack.h/.cpp: the pack
      partition, its validation, clips and their timeline); [CoreState], the core
      record of main.cpp; [Replacement] (companion_replacement_intent.h/.cpp,
      kitsu_legacy_connectivity_retirement.h/.cpp: the flasher's transaction record and
      the clean-up of the partition it is in); [PackBoot], the part of setup() of
      main.cpp that keeps, replaces or blocks the companion.
    - Wall time (kitsu_clock.h/.cpp): [Clock], class KitsuClock, the calendar and texts
      it uses and the one-button editor; [ClockStore], how main.cpp stores it, sets it
      from the phone, the network and the editor, and applies it; [MainJson], the
      request bodies and record templates of main.cpp this needs.
    - The focus timer (kitsu_focus_session.h/.cpp): [Focus], class FocusSession.

    They interact as in the program: [Ota] uses [OtaCodec], [Sha256], [Crc] and
    the layout constants through the [OtaPlatform] interface; [DeviceSecurity]
    stores the roles of [Permissions]; the trackers share [RepeatWire] and
    [RepeatSource]; [RadioGate] decides with the gate of [MeshConfig] and sends
    with the turnaround of [RadioPolicy].  [BleSession] verifies envelopes and proofs
    with [CompanionProtocol], asks [Permissions] and [BleAction] before it calls its
    delegate (interface [BleOperationDelegate]), and keeps controllers in
    [DeviceSecurity]; [ActionRuntime] is one such operation and keeps its ledger with
    [ActionReplay], [ClockStore.syncClock] another.

    ** How the code is represented

    A [w]-bit unsigned integer is a [Z] in range, its wrap-around written with
    [u8] to [u64], a signed cast with [s32]; bytes are [list Z]; a pointer that
    may be null is an [option]; an enumeration cast from an untrusted byte stays
    that byte.  A class is a record of its members with one setter per
    assignment; members that change state are computations of the state monad
    [M] below over (members * world), in statement order, early returns as
    branches.  Interfaces and library calls are classes over an abstract world;
    what is assumed of them are the laws of a second class ([KeyedStore],
    [TimedHw], [ReliableStore], ...), each discharged by a simulated instance on
    which the witnesses run.  [wp] and the tactic [wp_step] run a computation
    symbolically.

    Loops that do not recurse on data carry fuel: reading an image in chunks
    uses [Ota.hashFuel], one more than the number of chunks; the turnaround uses
    [RadioPolicyFacts.turnaroundFuel], one iteration per clock tick of its
    timeout, and [turnaround_balanced] proves it enough; the fuel of
    [RadioGate.startSendRaw] is arbitrary, because what it may start does not
    depend on the loop ending; the member and string loops of the parsers consume a
    byte per turn and carry the length of their input; the control parser recurses
    on the room left for members.  [Pack.payloadFuel] is the number of 512-byte chunks
    of a pack, [Replacement.verifyChunks] that of the retired partition.

    ** What is proved

    - Updater ([OtaTrace], [OtaInvariant], [OtaSafety], [OtaFrame], [OtaHistory],
      [OtaJournal]).  An invariant relates the members to the log of platform
      calls over every run: image bytes are written only after a verified
      signature; a slot is selected for boot only when it hashed to the signed
      digest; only the inactive slot is touched; a new image is confirmed only if
      it is the one the journal describes and only after thirty healthy seconds;
      restarts wait; the journal read back is the journal written.
    - Codecs ([OtaCodecFacts], [OtaSemver], [OtaManifest], [NearbyFacts],
      [RepeatWireFacts], [MeshConfigFacts], [DeviceSecurityFacts]): each decoder
      accepts exactly what its reference encoder produces; damage is detected;
      the streaming hash is SHA-256.
    - Controller table ([DeviceSecurityProtocol], [DeviceSecurityBoot]): the
      two-slot protocol commits, revokes without trace and boots the newest
      record, also when a write fails.
    - Permissions: the registry is closed and a caretaker stays below the owner.
    - Trackers ([ChannelRepeatFacts], [AdvertRepeatFacts]): copies are counted
      for the right transmission, lifecycles are neither lost nor duplicated, and
      the advert tracker refines a five-state lifecycle.
    - Radio ([RadioPolicyFacts], [RadioGateFacts]): every turnaround ends,
      balanced; nothing is transmitted without authorization, and with the
      session gate closed the number of transmissions is bounded by approvals
      and the reply rate.
    - Phone protocol ([CompanionTextFacts], [CompanionJsonFacts], [LengthFrameFacts],
      [CompanionProtocolFacts], [ControlJsonFacts]): the codecs are exact, a split
      frame is reassembled, an envelope is read back by the receiver with the key and
      sequence number it was made for and by nobody else, no two transcripts share a
      MAC input.
    - BLE session ([SessionTrace], [SessionRun], [SessionFacts], [SessionPairing], on
      the runs of [SessionSim]): over any sequence of calls, with
      the rest of the program acting in between, the members are consistent; an
      operation sees only verified, authorized requests, in order; whoever is
      authenticated proved the root of a stored controller; a controller is added
      only after confirmation on the device; three failed proofs lock the handshake
      for thirty seconds; a closing link is dropped.
    - Actions ([BleActionFacts], [ActionReplayFacts], [ActionRuntimeFacts]): an
      accepted command can be replayed and its digest binds it; the ledger stays
      well formed; over restarts and power losses a command has its effect at most
      once.
    - Storage: saved settings are what the next start loads; retries keep their
      backoff.
    - The companion ([PackFacts], [CoreStateFacts], [PackBootFacts], [PackBootSafe], on the device of [PackBootSim]): an accepted pack plays every
      clip by its reference timeline, never reads outside its partition and never
      fails at run time; the core record is read back as written; the stored companion
      is replaced only by exactly the pack of a committed transaction, and a committed
      replacement survives any number of failed writes and power losses and is finished
      by the first start that meets none.  Power loss is part of the laws of
      [PackBootFacts]: after it no call changes anything and what it returns is
      arbitrary.
    - Wall time ([ClockCalendar], [ClockFacts], [ClockStoreFacts]): the calendar
      arithmetic counts days as leap years do; texts round-trip; the clock of wrapping
      32-bit samples behaves as one of unbounded time; a trusted reading is the last
      setting plus the time passed; the editor commits what it shows.  A change of the
      clock that stands is what a restart finds, one that is refused leaves the clock
      and the next snapshot's number as they were; it is refused when a millisecond
      passes before its snapshot is taken.
    - The focus timer ([FocusFacts]): it refines a timer of unbounded time over any
      calls, and a session ends once, at its time, however rarely it is ticked.

    ** Not modelled

    Of the application shell main.cpp only applyAction, the core record, the start of
    the companion and the keeping of the clock are modelled (not its serial commands, nor
    how it stores the focus record); the rest, the display, input and assets are I/O.  BLE
    GATT, Wi-Fi, TLS and the ESP32 adapters are calls into ESP-IDF and NimBLE.  The rest of kitsu_mesh_transport.cpp drives the vendored MeshCore stack
    (src/lib/MeshCore), which is left out with all third-party code.  Ed25519,
    AES-GCM, HMAC, HKDF and the hash behind channel digests are parameters.  Games,
    progression, dialogue and presentation have no bearing on the properties
    above.  The NVS clean-up before pairing, the encounter codec and the discovery
    journal are left out. *)

From stdpp Require Export prelude strings.
From Stdlib Require Export ZArith Lia.
From Stdlib Require Import Ascii.

Open Scope Z_scope.

(** ** Machine integers

    A [w]-bit unsigned C integer is a [Z] in [0 <= x < 2^w]; the wrap-around of
    an operation is written out with one of these functions. *)

Definition u8 (x : Z) : Z := x mod 2 ^ 8.
Definition u16 (x : Z) : Z := x mod 2 ^ 16.
Definition u32 (x : Z) : Z := x mod 2 ^ 32.
Definition u64 (x : Z) : Z := x mod 2 ^ 64.

(** [static_cast<int32_t>] of an unsigned 32-bit value. *)
Definition s32 (x : Z) : Z :=
  if u32 x <? 2 ^ 31 then u32 x else u32 x - 2 ^ 32.

Definition UINT16_MAX : Z := 65535.
Definition UINT32_MAX : Z := 4294967295.

Lemma u8_range x : 0 <= u8 x < 256.
Proof. unfold u8. apply Z.mod_pos_bound. lia. Qed.
Lemma u16_range x : 0 <= u16 x < 65536.
Proof. unfold u16. apply Z.mod_pos_bound. lia. Qed.
Lemma u32_range x : 0 <= u32 x < 4294967296.
Proof. unfold u32. apply Z.mod_pos_bound. lia. Qed.
Lemma u8_id x : 0 <= x < 256 -> u8 x = x.
Proof. intros. unfold u8. apply Z.mod_small. lia. Qed.
Lemma u16_id x : 0 <= x < 65536 -> u16 x = x.
Proof. intros. unfold u16. apply Z.mod_small. lia. Qed.
Lemma u32_id x : 0 <= x < 4294967296 -> u32 x = x.
Proof. intros. unfold u32. apply Z.mod_small. lia. Qed.
Lemma u64_id x : 0 <= x < 2 ^ 64 -> u64 x = x.
Proof. intros. unfold u64. apply Z.mod_small. lia. Qed.

(** Wrap-safe deadline test shared by the updater and the retry schedule:
    [static_cast<int32_t>(now - deadline) >= 0]. *)
Definition deadlineReached (now deadline : Z) : bool :=
  0 <=? s32 (now - deadline).

(** For two instants less than half the counter range apart the test is the
    comparison of the elapsed time with zero. *)
Lemma deadlineReached_spec now deadline :
  - 2 ^ 31 <= now - deadline < 2 ^ 31 ->
  deadlineReached (u32 now) (u32 deadline) = (deadline <=? now).
Proof.
  intros H. unfold deadlineReached, s32.
  assert (Hu : u32 (u32 now - u32 deadline) = (now - deadline) mod 2 ^ 32).
  { unfold u32. rewrite <- Zminus_mod. reflexivity. }
  rewrite Hu. destruct (Z.leb_spec deadline now).
  - rewrite Z.mod_small by lia. destruct (Z.ltb_spec (now - deadline) (2 ^ 31)); lia.
  - rewrite (Z.mod_eq (now - deadline)) by lia.
    replace ((now - deadline) / 2 ^ 32) with (-1)
      by (apply (Z.div_unique_pos _ _ _ (now - deadline + 2 ^ 32)); lia).
    destruct (Z.ltb_spec (now - deadline - 2 ^ 32 * -1) (2 ^ 31)); lia.
Qed.

(** ** Bit operations stay inside the width *)

Lemma bits_range n x :
  0 <= n -> 0 <= x -> (forall k, n <= k -> Z.testbit x k = false) -> 0 <= x < 2 ^ n.
Proof.
  intros Hn Hx Hb. split; [done|]. destruct (Z.lt_ge_cases x (2 ^ n)) as [?|Hge]; [done|].
  pose proof (Z.pow_pos_nonneg 2 n). assert (Hl : n <= Z.log2 x) by (apply Z.log2_le_pow2; lia).
  specialize (Hb _ Hl). by rewrite Z.bit_log2 in Hb by lia.
Qed.
Lemma range_bits n x k : 0 <= x < 2 ^ n -> n <= k -> Z.testbit x k = false.
Proof.
  intros Hx Hk. destruct (Z.lt_ge_cases n 0) as [Hn|Hn].
  { rewrite Z.pow_neg_r in Hx by done. lia. }
  rewrite <- (Z.mod_small x (2 ^ n)) by done. by apply Z.mod_pow2_bits_high.
Qed.
Lemma lxor_range n a b : 0 <= n -> 0 <= a < 2 ^ n -> 0 <= b < 2 ^ n -> 0 <= Z.lxor a b < 2 ^ n.
Proof.
  intros Hn Ha Hb. apply bits_range; [done|apply Z.lxor_nonneg; lia|].
  intros k Hk. by rewrite Z.lxor_spec, !(range_bits n) by done.
Qed.
Lemma land_range n a b : 0 <= n -> 0 <= a < 2 ^ n -> 0 <= b -> 0 <= Z.land a b < 2 ^ n.
Proof.
  intros Hn Ha Hb. apply bits_range; [done|apply Z.land_nonneg; lia|].
  intros k Hk. by rewrite Z.land_spec, (range_bits n) by done.
Qed.
Lemma shiftr_range n a k : 0 <= k -> 0 <= a < 2 ^ n -> 0 <= Z.shiftr a k < 2 ^ n.
Proof.
  intros Hk Ha. rewrite Z.shiftr_div_pow2 by done. pose proof (Z.pow_pos_nonneg 2 k).
  split; [apply Z.div_pos; lia|]. apply Z.div_lt_upper_bound; nia.
Qed.

(** ** Byte buffers

    A buffer is the list of its bytes, each a [Z]. *)

Definition isByte (b : Z) : Prop := 0 <= b < 256.
Definition bytesOk (l : list Z) : Prop := Forall isByte l.

Definition byte_at (l : list Z) (i : nat) : Z := default 0 (l !! i).
Definition slice (off len : nat) (l : list Z) : list Z := take len (drop off l).

(** [strnlen]/C string content: the bytes before the first NUL. *)
Fixpoint cstr (l : list Z) : list Z :=
  match l with
  | [] => []
  | b :: l' => if b =? 0 then [] else b :: cstr l'
  end.

(** [memcmp(a, b, n) == 0] and the constant-time comparison. *)
Fixpoint beq (a b : list Z) : bool :=
  match a, b with
  | [], [] => true
  | x :: a', y :: b' => (x =? y) && beq a' b'
  | _, _ => false
  end.

Lemma beq_eq a b : beq a b = true <-> a = b.
Proof.
  revert b. induction a as [|x a IH]; intros [|y b]; simpl; try (split; congruence).
  rewrite andb_true_iff, Z.eqb_eq, IH. split; [intros [-> ->]|intros [= -> ->]]; auto.
Qed.
Lemma beq_refl a : beq a a = true.
Proof. by apply beq_eq. Qed.
Lemma beq_neq a b : beq a b = false <-> a <> b.
Proof. rewrite <- beq_eq. destruct (beq a b); split; congruence. Qed.

(** Literal buffers are bytes by computation. *)
Lemma allByte_literal l : forallb (fun b => (0 <=? b) && (b <? 256)) l = true -> bytesOk l.
Proof.
  intros Hl. apply List.Forall_forall. rewrite forallb_forall in Hl. intros b Hb.
  specialize (Hl b Hb). unfold isByte. lia.
Qed.

(** An accumulator property that every byte preserves. *)
Lemma fold_left_bytes {A} (P : A -> Prop) (f : A -> Z -> A) l acc :
  (forall a b, P a -> isByte b -> P (f a b)) -> bytesOk l -> P acc -> P (fold_left f l acc).
Proof. intros Hf Hl. revert acc. induction Hl; simpl; auto. Qed.

Lemma fold_left_ext {A} (f g : A -> Z -> A) l acc :
  (forall a b, f a b = g a b) -> fold_left f l acc = fold_left g l acc.
Proof. intros Hfg. revert acc. induction l as [|b l IH]; intros acc; simpl; [done|]. by rewrite Hfg. Qed.

(** ASCII text as bytes. In [js] the apostrophe stands for the double quote, so
    that the JSON fragments of the protocol can be written as literals; none of
    them contains an apostrophe. *)
Definition bytes_of (s : string) : list Z :=
  map (fun c => Z.of_N (N_of_ascii c)) (String.list_ascii_of_string s).
Definition js (s : string) : list Z :=
  map (fun b => if b =? 39 then 34 else b) (bytes_of s).

(** ** Little-endian integers *)

Definition put16 (v : Z) : list Z := [u8 v; u8 (Z.shiftr v 8)].
Definition put32 (v : Z) : list Z :=
  [u8 v; u8 (Z.shiftr v 8); u8 (Z.shiftr v 16); u8 (Z.shiftr v 24)].
Definition get16 (l : list Z) : Z :=
  u16 (Z.lor (byte_at l 0) (Z.shiftl (byte_at l 1) 8)).
Definition get32 (l : list Z) : Z :=
  u32 (Z.lor (Z.lor (Z.lor (byte_at l 0) (Z.shiftl (byte_at l 1) 8))
                    (Z.shiftl (byte_at l 2) 16))
             (Z.shiftl (byte_at l 3) 24)).

(** Disjoint bit fields: [lor] is addition. *)
Lemma lor_shiftl_add a b n :
  0 <= n -> 0 <= a < 2 ^ n -> Z.lor a (Z.shiftl b n) = a + b * 2 ^ n.
Proof.
  intros Hn Ha. rewrite Z.shiftl_mul_pow2 by lia.
  rewrite <- Z.lxor_lor, <- Z.add_nocarry_lxor; auto;
    apply Z.bits_inj_0; intros k; rewrite Z.land_spec;
    destruct (Z.lt_ge_cases k 0) as [Hk|Hk];
    try (rewrite Z.testbit_neg_r by lia; reflexivity);
    (destruct (Z.lt_ge_cases k n) as [Hkn|Hkn];
     [ rewrite Z.mul_pow2_bits_low, andb_false_r by lia; reflexivity
     | replace a with (a mod 2 ^ n) by (apply Z.mod_small; lia);
       rewrite Z.mod_pow2_bits_high by lia; reflexivity ]).
Qed.

Lemma shiftr8_split v : 0 <= v -> v = v mod 256 + 256 * Z.shiftr v 8.
Proof.
  intros. rewrite Z.shiftr_div_pow2 by lia.
  pose proof (Z.div_mod v 256). change (2 ^ 8) with 256. lia.
Qed.

Lemma get16_put16 v rest : 0 <= v < 65536 -> get16 (put16 v ++ rest) = v.
Proof.
  intros H. unfold get16, put16, byte_at. simpl.
  assert (Hb := u8_range v).
  rewrite lor_shiftl_add by (simpl; lia).
  rewrite Z.shiftr_div_pow2 by lia.
  unfold u8, u16. change (2 ^ 8) with 256. change (2 ^ 16) with 65536.
  rewrite (Z.mod_small (v / 256)) by (split; [apply Z.div_pos|apply Z.div_lt_upper_bound]; lia).
  pose proof (Z.div_mod v 256). rewrite Z.mod_small; lia.
Qed.

Lemma lor4_add a b c d :
  isByte a -> isByte b -> isByte c ->
  Z.lor (Z.lor (Z.lor a (Z.shiftl b 8)) (Z.shiftl c 16)) (Z.shiftl d 24) =
  a + b * 256 + c * 65536 + d * 16777216.
Proof.
  unfold isByte. intros. rewrite (lor_shiftl_add a b 8) by lia.
  rewrite (lor_shiftl_add _ c 16) by lia.
  rewrite (lor_shiftl_add _ d 24) by lia. reflexivity.
Qed.

Lemma get32_put32 v rest : 0 <= v < 4294967296 -> get32 (put32 v ++ rest) = v.
Proof.
  intros H. unfold get32, put32, byte_at. simpl.
  rewrite lor4_add by apply u8_range.
  rewrite !Z.shiftr_div_pow2 by lia. unfold u8, u32.
  change (2 ^ 8) with 256. change (2 ^ 16) with 65536.
  change (2 ^ 24) with 16777216. change (2 ^ 32) with 4294967296.
  assert (E2 : v / 65536 = v / 256 / 256) by (rewrite Z.div_div; [reflexivity|lia..]).
  assert (E3 : v / 16777216 = v / 256 / 256 / 256)
    by (rewrite !Z.div_div; [reflexivity|lia..]).
  rewrite E2, E3.
  assert (v / 256 / 256 / 256 < 256) by (rewrite <- E3; apply Z.div_lt_upper_bound; lia).
  pose proof (Z.div_mod v 256). pose proof (Z.div_mod (v / 256) 256).
  pose proof (Z.div_mod (v / 256 / 256) 256).
  assert (0 <= v / 256 / 256 / 256) by (rewrite <- E3; apply Z.div_pos; lia).
  rewrite (Z.mod_small (v / 256 / 256 / 256)) by lia.
  rewrite Z.mod_small; lia.
Qed.

Lemma put16_get16 a b rest : isByte a -> isByte b -> put16 (get16 (a :: b :: rest)) = [a; b].
Proof.
  unfold isByte. intros Ha Hb. unfold get16, put16, byte_at. simpl.
  rewrite lor_shiftl_add, u16_id by lia. rewrite Z.shiftr_div_pow2 by lia.
  change (2 ^ 8) with 256. rewrite Z.div_add, Z.div_small by lia.
  unfold u8. change (2 ^ 8) with 256. rewrite Z.mod_add, !Z.mod_small by lia. by f_equal.
Qed.

Lemma put32_get32 a b c d rest : isByte a -> isByte b -> isByte c -> isByte d ->
  put32 (get32 (a :: b :: c :: d :: rest)) = [a; b; c; d].
Proof.
  intros Ha Hb Hc Hd. unfold get32, put32, byte_at. simpl. rewrite lor4_add by done.
  unfold isByte in *. rewrite u32_id by lia. rewrite !Z.shiftr_div_pow2 by lia.
  change (2 ^ 8) with 256. change (2 ^ 16) with 65536. change (2 ^ 24) with 16777216.
  unfold u8. change (2 ^ 8) with 256.
  f_equal; [|f_equal; [|f_equal; [|f_equal]]].
  - symmetry. apply (Z.mod_unique_pos _ _ (b + c * 256 + d * 65536)); lia.
  - rewrite <- (Z.div_unique_pos (a + b * 256 + c * 65536 + d * 16777216) 256
      (b + c * 256 + d * 65536) a) by lia.
    symmetry. apply (Z.mod_unique_pos _ _ (c + d * 256)); lia.
  - rewrite <- (Z.div_unique_pos (a + b * 256 + c * 65536 + d * 16777216) 65536
      (c + d * 256) (a + b * 256)) by lia.
    symmetry. apply (Z.mod_unique_pos _ _ d); lia.
  - rewrite <- (Z.div_unique_pos (a + b * 256 + c * 65536 + d * 16777216) 16777216
      d (a + b * 256 + c * 65536)) by lia.
    apply Z.mod_small. lia.
Qed.

(** Two fields packed in one integer, and back. *)
Lemma pack_range a b n k :
  0 <= n -> 0 <= k -> 0 <= a < 2 ^ n -> 0 <= b < 2 ^ k -> Z.lor a (Z.shiftl b n) < 2 ^ (n + k).
Proof.
  intros Hn Hk Ha Hb. rewrite lor_shiftl_add by done. rewrite Z.pow_add_r by done. nia.
Qed.

Lemma pack_low a b n : 0 <= n -> 0 <= a < 2 ^ n ->
  Z.land (Z.lor a (Z.shiftl b n)) (Z.ones n) = a.
Proof.
  intros Hn Ha. rewrite Z.land_ones, lor_shiftl_add by done.
  rewrite Z.mod_add by lia. by apply Z.mod_small.
Qed.

Lemma pack_high a b n : 0 <= n -> 0 <= a < 2 ^ n ->
  Z.shiftr (Z.lor a (Z.shiftl b n)) n = b.
Proof.
  intros Hn Ha. rewrite lor_shiftl_add, Z.shiftr_div_pow2 by done.
  rewrite Z.div_add by lia. rewrite Z.div_small by done. lia.
Qed.

Lemma unpack_pack x n : 0 <= n -> 0 <= x ->
  Z.lor (Z.land x (Z.ones n)) (Z.shiftl (Z.shiftr x n) n) = x.
Proof.
  intros Hn Hx. rewrite Z.land_ones by done.
  rewrite lor_shiftl_add by (try done; apply Z.mod_pos_bound; lia).
  rewrite Z.shiftr_div_pow2 by done. pose proof (Z.div_mod x (2 ^ n)). lia.
Qed.

Lemma put16_length v : length (put16 v) = 2%nat. Proof. reflexivity. Qed.
Lemma put32_length v : length (put32 v) = 4%nat. Proof. reflexivity. Qed.

(** [get16]/[get32] look at a prefix only. *)
Lemma get32_take l n : (4 <= n)%nat -> get32 (take n l) = get32 l.
Proof.
  intros. unfold get32, byte_at. by rewrite !lookup_take_lt by lia.
Qed.
Lemma get16_take l n : (2 <= n)%nat -> get16 (take n l) = get16 l.
Proof.
  intros. unfold get16, byte_at. by rewrite !lookup_take_lt by lia.
Qed.

Lemma put16_ok v : bytesOk (put16 v).
Proof. repeat constructor; apply u8_range. Qed.
Lemma put32_ok v : bytesOk (put32 v).
Proof. repeat constructor; apply u8_range. Qed.

(** ** Slices of concatenations *)

Lemma slice_here (a b : list Z) n : length a = n -> slice 0 n (a ++ b) = a.
Proof. intros <-. unfold slice. rewrite drop_0. by rewrite take_app_length. Qed.
Lemma slice_all (a : list Z) n : length a = n -> slice 0 n a = a.
Proof. intros <-. unfold slice. rewrite drop_0. by rewrite firstn_all. Qed.
Lemma slice_skip (a b : list Z) off n :
  (length a <= off)%nat -> slice off n (a ++ b) = slice (off - length a) n b.
Proof. intros. unfold slice. by rewrite drop_app_ge. Qed.
Lemma slice_length (l : list Z) off n :
  (off + n <= length l)%nat -> length (slice off n l) = n.
Proof. intros. unfold slice. rewrite length_take, length_drop. lia. Qed.
Lemma slice_ok l off n : bytesOk l -> bytesOk (slice off n l).
Proof. intros. unfold slice. apply Forall_take, Forall_drop; auto. Qed.
Lemma byte_at_app_l (a b : list Z) i :
  (i < length a)%nat -> byte_at (a ++ b) i = byte_at a i.
Proof. intros. unfold byte_at. by rewrite lookup_app_l. Qed.
Lemma byte_at_app_r (a b : list Z) i :
  (length a <= i)%nat -> byte_at (a ++ b) i = byte_at b (i - length a).
Proof. intros. unfold byte_at. by rewrite lookup_app_r. Qed.
Lemma byte_at_ok l i : bytesOk l -> isByte (byte_at l i).
Proof.
  intros H. unfold byte_at. destruct (l !! i) eqn:E; simpl.
  - eapply Forall_lookup_1 in H; eauto.
  - unfold isByte. lia.
Qed.

Create Rewrite HintDb blen.
#[export] Hint Rewrite @length_app @length_replicate @length_take @length_drop
  put16_length put32_length @length_map : blen.

(** [blen] normalises lengths of concatenations and closes the arithmetic. *)
Ltac blen := autorewrite with blen; simpl length in *; simpl; try lia.

(** [slices] evaluates slices of a concatenation whose parts have known
    lengths, left to right. *)
Ltac slices :=
  repeat first
    [ rewrite slice_here by (blen; lia)
    | rewrite slice_skip by (blen; lia); autorewrite with blen ].

(** ** C strings *)

Lemma cstr_app_nul a rest : Forall (fun b => b <> 0) a -> cstr (a ++ 0 :: rest) = a.
Proof.
  induction 1 as [|b a Hb _ IH]; simpl; auto.
  destruct (Z.eqb_spec b 0); [contradiction|]. by rewrite IH.
Qed.
Lemma cstr_nonzero a : Forall (fun b => b <> 0) (cstr a).
Proof.
  induction a as [|b a IH]; simpl; [constructor|].
  destruct (Z.eqb_spec b 0); constructor; auto.
Qed.
Lemma cstr_length a : (length (cstr a) <= length a)%nat.
Proof. induction a as [|b a IH]; simpl; [lia|]. destruct (b =? 0); simpl; lia. Qed.
Lemma cstr_ok a : bytesOk a -> bytesOk (cstr a).
Proof.
  induction 1 as [|b a Hb _ IH]; simpl; [constructor|].
  destruct (b =? 0); constructor; auto.
Qed.

(** ** A state monad

    The stateful classes are modelled as computations over their private
    members and the outside world, in the order of the C++ statements. *)

Declare Scope kitsu_scope.
Delimit Scope kitsu_scope with kitsu.

Definition M (S A : Type) : Type := S -> A * S.
Definition ret {S A} (a : A) : M S A := fun s => (a, s).
Definition bind {S A B} (m : M S A) (k : A -> M S B) : M S B :=
  fun s => let '(a, s') := m s in k a s'.
Definition gets {S A} (f : S -> A) : M S A := fun s => (f s, s).
Definition modify {S} (f : S -> S) : M S unit := fun s => (tt, f s).

Notation "x <- m ;; k" := (bind m (fun x => k))
  (at level 100, m at next level, right associativity) : kitsu_scope.
Notation "m ;;; k" := (bind m (fun _ => k))
  (at level 100, right associativity) : kitsu_scope.
Definition when {S} (c : bool) (m : M S unit) : M S unit :=
  if c then m else ret tt.

(** [wp m Q s]: running [m] from [s] ends with a value and a state in [Q]. *)
Definition wp {S A} (m : M S A) (Q : A -> S -> Prop) (s : S) : Prop :=
  Q (fst (m s)) (snd (m s)).

Section WP.
Context {S : Type}.

Lemma wp_ret {A} (a : A) Q (s : S) : Q a s -> wp (ret a) Q s.
Proof. auto. Qed.
Lemma wp_bind {A B} (m : M S A) (k : A -> M S B) Q s :
  wp m (fun a s' => wp (k a) Q s') s -> wp (bind m k) Q s.
Proof. unfold wp, bind. destruct (m s); auto. Qed.
Lemma wp_gets {A} (f : S -> A) Q s : Q (f s) s -> wp (gets f) Q s.
Proof. auto. Qed.
Lemma wp_modify (f : S -> S) Q s : Q tt (f s) -> wp (modify f) Q s.
Proof. auto. Qed.
Lemma wp_if {A} (c : bool) (m1 m2 : M S A) Q s :
  (c = true -> wp m1 Q s) -> (c = false -> wp m2 Q s) ->
  wp (if c then m1 else m2) Q s.
Proof. destruct c; auto. Qed.
Lemma wp_mono {A} (m : M S A) (P Q : A -> S -> Prop) s :
  wp m P s -> (forall a s', P a s' -> Q a s') -> wp m Q s.
Proof. unfold wp. auto. Qed.
Lemma wp_elim {A} (m : M S A) Q s a s' : wp m Q s -> m s = (a, s') -> Q a s'.
Proof. unfold wp. intros H E. by rewrite E in H. Qed.
End WP.

(** ** What a computation leaves alone

    [steady R m]: every run of [m] relates the state before to the state after by
    the preorder [R]. *)
Definition steady {S A} (R : S -> S -> Prop) (m : M S A) : Prop := forall s, R s (snd (m s)).

Section Steady.
Context {S : Type} (R : S -> S -> Prop) `{PreOrder S R}.

Lemma steady_ret {A} (a : A) : steady R (ret a).
Proof. intros s. simpl. reflexivity. Qed.
Lemma steady_gets {A} (f : S -> A) : steady R (gets f).
Proof. intros s. simpl. reflexivity. Qed.
Lemma steady_bind {A B} (m : M S A) (k : A -> M S B) :
  steady R m -> (forall a, steady R (k a)) -> steady R (bind m k).
Proof.
  intros Hm Hk s. unfold bind. specialize (Hm s). destruct (m s) as [a s']. simpl in Hm.
  etransitivity; [exact Hm|apply Hk].
Qed.
Lemma steady_modify (f : S -> S) : (forall s, R s (f s)) -> steady R (modify f).
Proof. intros Hf s. apply Hf. Qed.
Lemma wp_steady {A} (m : M S A) (Q : A -> S -> Prop) s :
  steady R m -> (forall a s', R s s' -> Q a s') -> wp m Q s.
Proof. intros Hm HQ. apply HQ, Hm. Qed.
End Steady.

(** [steady] follows the structure of a computation; the lemmas about its calls
    are in the hint database of the same name. *)
Create HintDb steady.
#[export] Hint Resolve steady_ret steady_gets : steady.
Ltac steady :=
  intros; unfold when;
  repeat (cbv beta zeta; lazymatch goal with
  | |- steady _ (bind _ _) => apply steady_bind; [typeclasses eauto| |intros]
  | |- steady _ (ret _) => apply steady_ret; typeclasses eauto
  | |- steady _ (gets _) => apply steady_gets; typeclasses eauto
  | |- steady _ (match ?x with _ => _ end) => destruct x
  | |- steady _ _ => solve [auto with steady | eauto 4 with steady typeclass_instances]
  end).

(** [wp_step] runs one statement of a computation symbolically. *)
Ltac wp_step :=
  unfold when; lazymatch goal with
  | |- wp (ret _) _ _ => apply wp_ret
  | |- wp (bind _ _) _ _ => apply wp_bind
  | |- wp (gets _) _ _ => apply wp_gets
  | |- wp (modify _) _ _ => apply wp_modify
  | |- wp (if ?c then _ else _) _ _ =>
      let E := fresh "E" in apply wp_if; intros E
  | |- wp (match ?x with _ => _ end) _ _ => let E := fresh "E" in destruct x eqn:E
  end; cbv beta.
