(* ===== verification/Crc.v ===== *)
(** * CRC-32 (src/src/kitsu_ble_ota.cpp)

    The reflected CRC-32 of the update journal, with the facts the record
    codecs share. *)

From S2P Require Import Prelude.

Definition crcBit (value : Z) : Z :=
  Z.lxor (Z.shiftr value 1) (Z.land 0xedb88320 (u32 (0 - Z.land value 1))).

Definition crcByte (value b : Z) : Z :=
  Nat.iter 8 crcBit (Z.lxor value b).

(** [crc32Update(crc, data, length)], the form of companion_pack.cpp and
    companion_replacement_intent.cpp. *)
Definition crc32Update (crc : Z) (data : list Z) : Z := fold_left crcByte data crc.

Definition crc32 (input : list Z) : Z :=
  Z.lxor (fold_left crcByte input 0xffffffff) 0xffffffff.

Lemma crc32Update_app crc a b : crc32Update crc (a ++ b) = crc32Update (crc32Update crc a) b.
Proof. apply fold_left_app. Qed.
Lemma crc32_update l : Z.lxor (crc32Update 0xffffffff l) 0xffffffff = crc32 l.
Proof. reflexivity. Qed.

Example crc32_check : crc32 (bytes_of "123456789") = 0xcbf43926.
Proof. vm_compute. reflexivity. Qed.

Lemma crcBit_range v : 0 <= v < 2 ^ 32 -> 0 <= crcBit v < 2 ^ 32.
Proof.
  intros Hv. unfold crcBit. apply lxor_range; [lia|apply shiftr_range; lia|].
  apply land_range; [lia..|]. pose proof (u32_range (0 - Z.land v 1)). lia.
Qed.

Lemma crcByte_range v b : 0 <= v < 2 ^ 32 -> isByte b -> 0 <= crcByte v b < 2 ^ 32.
Proof.
  intros Hv Hb. unfold crcByte, isByte in *. apply Nat.iter_invariant; auto using crcBit_range.
  apply lxor_range; lia.
Qed.

Lemma crc32_range l : bytesOk l -> 0 <= crc32 l < 2 ^ 32.
Proof.
  intros Hl. unfold crc32. apply lxor_range; [lia| |lia].
  apply (fold_left_bytes (fun a => 0 <= a < 2 ^ 32)); [apply crcByte_range|done|lia].
Qed.
