(* ===== verification/Sha256.v ===== *)
(** * The firmware updater's SHA-256 (src/src/kitsu_ble_ota.cpp)

    [shaStart], [shaTransform], [shaUpdate] and [shaFinish] are translated with
    the 64-byte staging block and its fill level, the way the streaming code
    keeps them.  The reference definition [sha256] pads the whole message and
    folds the compression function over its blocks; the theorems show that the
    streaming code computes it, however the message is cut into updates. *)

From S2P Require Import Prelude.

(** ** Code *)

(** [struct Sha256Context]. *)
Record Sha256Context := mkSha {
  sha_state : list Z;
  totalBytes : Z;
  block : list Z;
  blockBytes : nat;
}.

(** [Sha256Context{}], also what [secureZero] leaves. *)
Definition shaZero : Sha256Context :=
  mkSha (replicate 8 0) 0 (replicate 64 0) 0.

Definition rotateRight (value bits : Z) : Z :=
  u32 (Z.lor (Z.shiftr value bits) (Z.shiftl value (32 - bits))).

Definition shaInitial : list Z :=
  [0x6a09e667; 0xbb67ae85; 0x3c6ef372; 0xa54ff53a;
   0x510e527f; 0x9b05688c; 0x1f83d9ab; 0x5be0cd19].

Definition shaStart : Sha256Context := mkSha shaInitial 0 (replicate 64 0) 0.

(** The table is written a source row of four words to a literal. *)
Definition rowWords (row : Z) : list Z :=
  map (fun k => Z.land (Z.shiftr row (32 * k)) 0xffffffff) [3; 2; 1; 0].

Definition shaConstants : list Z :=
  Eval vm_compute in flat_map rowWords
  [0x428a2f98_71374491_b5c0fbcf_e9b5dba5;
   0x3956c25b_59f111f1_923f82a4_ab1c5ed5;
   0xd807aa98_12835b01_243185be_550c7dc3;
   0x72be5d74_80deb1fe_9bdc06a7_c19bf174;
   0xe49b69c1_efbe4786_0fc19dc6_240ca1cc;
   0x2de92c6f_4a7484aa_5cb0a9dc_76f988da;
   0x983e5152_a831c66d_b00327c8_bf597fc7;
   0xc6e00bf3_d5a79147_06ca6351_14292967;
   0x27b70a85_2e1b2138_4d2c6dfc_53380d13;
   0x650a7354_766a0abb_81c2c92e_92722c85;
   0xa2bfe8a1_a81a664b_c24b8b70_c76c51a3;
   0xd192e819_d6990624_f40e3585_106aa070;
   0x19a4c116_1e376c08_2748774c_34b0bcb5;
   0x391c0cb3_4ed8aa4a_5b9cca4f_682e6ff3;
   0x748f82ee_78a5636f_84c87814_8cc70208;
   0x90befffa_a4506ceb_bef9a3f7_c67178f2].

(** Big-endian word [index] of the block. *)
Definition blockWord (blk : list Z) (index : nat) : Z :=
  let offset := (index * 4)%nat in
  Z.lor (Z.lor (Z.lor (Z.shiftl (byte_at blk offset) 24)
                      (Z.shiftl (byte_at blk (offset + 1)) 16))
               (Z.shiftl (byte_at blk (offset + 2)) 8))
        (byte_at blk (offset + 3)).

(** [schedule[index]] for [index >= 16], from the words before it. *)
Definition scheduleNext (w : list Z) : Z :=
  let index := length w in
  let first := byte_at w (index - 15) in
  let second := byte_at w (index - 2) in
  let sigma0 := Z.lxor (Z.lxor (rotateRight first 7) (rotateRight first 18))
                       (Z.shiftr first 3) in
  let sigma1 := Z.lxor (Z.lxor (rotateRight second 17) (rotateRight second 19))
                       (Z.shiftr second 10) in
  u32 (byte_at w (index - 16) + sigma0 + byte_at w (index - 7) + sigma1).

Fixpoint extendSchedule (n : nat) (w : list Z) : list Z :=
  match n with
  | O => w
  | S n' => extendSchedule n' (w ++ [scheduleNext w])
  end.

Definition schedule (blk : list Z) : list Z :=
  extendSchedule 48 (map (blockWord blk) (seq 0 16)).

(** One iteration of the compression loop on [(a, b, c, d, e, f, g, h)]. *)
Definition shaRound (v : list Z) (kw : Z * Z) : list Z :=
  let '(constant, word) := kw in
  let a := byte_at v 0 in let b := byte_at v 1 in
  let c := byte_at v 2 in let d := byte_at v 3 in
  let e := byte_at v 4 in let f := byte_at v 5 in
  let g := byte_at v 6 in let h := byte_at v 7 in
  let sum1 := Z.lxor (Z.lxor (rotateRight e 6) (rotateRight e 11)) (rotateRight e 25) in
  let choice := Z.lxor (Z.land e f) (Z.land (UINT32_MAX - e) g) in
  let temporary1 := u32 (h + sum1 + choice + constant + word) in
  let sum0 := Z.lxor (Z.lxor (rotateRight a 2) (rotateRight a 13)) (rotateRight a 22) in
  let majority := Z.lxor (Z.lxor (Z.land a b) (Z.land a c)) (Z.land b c) in
  let temporary2 := u32 (sum0 + majority) in
  [u32 (temporary1 + temporary2); a; b; c; u32 (d + temporary1); e; f; g].

Definition shaTransformState (state blk : list Z) : list Z :=
  zip_with (fun x y => u32 (x + y)) state
    (fold_left shaRound (zip shaConstants (schedule blk)) state).

Definition shaTransform (ctx : Sha256Context) (blk : list Z) : Sha256Context :=
  mkSha (shaTransformState (sha_state ctx) blk) (totalBytes ctx) (block ctx)
        (blockBytes ctx).

(** [memcpy(dst + off, src, |src|)]. *)
Definition splice (off : nat) (src dst : list Z) : list Z :=
  take off dst ++ src ++ drop (off + length src) dst.

(** The copy loop of [shaUpdate]; each turn consumes at least one byte. *)
Fixpoint shaUpdateLoop (fuel : nat) (ctx : Sha256Context) (input : list Z)
  : Sha256Context :=
  match fuel, input with
  | O, _ | _, [] => ctx
  | S fuel', _ =>
      let available := (64 - blockBytes ctx)%nat in
      let copied := if (length input <? available)%nat then length input else available in
      let ctx1 := mkSha (sha_state ctx) (totalBytes ctx)
                        (splice (blockBytes ctx) (take copied input) (block ctx))
                        (blockBytes ctx + copied) in
      let ctx2 := if (blockBytes ctx1 =? 64)%nat
                  then let t := shaTransform ctx1 (block ctx1) in
                       mkSha (sha_state t) (totalBytes t) (block t) 0
                  else ctx1 in
      shaUpdateLoop fuel' ctx2 (drop copied input)
  end.

Definition shaUpdate (ctx : Sha256Context) (input : list Z) : Sha256Context :=
  match input with
  | [] => ctx
  | _ => shaUpdateLoop (length input)
           (mkSha (sha_state ctx) (u64 (totalBytes ctx + Z.of_nat (length input)))
                  (block ctx) (blockBytes ctx)) input
  end.

Definition wordBytes (w : Z) : list Z :=
  [u8 (Z.shiftr w 24); u8 (Z.shiftr w 16); u8 (Z.shiftr w 8); u8 w].

(** [block[56 + index] = totalBits >> ((7 - index) * 8)]. *)
Definition lengthBytes (totalBits : Z) : list Z :=
  map (fun index => u8 (Z.shiftr totalBits ((7 - Z.of_nat index) * 8))) (seq 0 8).

(** The digest; the code then zeroes the context. *)
Definition shaFinish (ctx : Sha256Context) : list Z :=
  let totalBits := u64 (totalBytes ctx * 8) in
  let blk1 := splice (blockBytes ctx) [0x80] (block ctx) in
  let n1 := S (blockBytes ctx) in
  let '(st2, blk2, n2) :=
    if (56 <? n1)%nat
    then let blk := splice n1 (replicate (64 - n1) 0) blk1 in
         (shaTransformState (sha_state ctx) blk, blk, 0%nat)
    else (sha_state ctx, blk1, n1) in
  let blk3 := splice n2 (replicate (56 - n2) 0) blk2 in
  let blk4 := splice 56 (lengthBytes totalBits) blk3 in
  concat (map wordBytes (shaTransformState st2 blk4)).

(** ** Reference definition *)

(** Cut a message into 64-byte blocks, dropping an incomplete last one. *)
Fixpoint blocks (fuel : nat) (msg : list Z) : list (list Z) :=
  match fuel with
  | O => []
  | S fuel' => if (length msg <? 64)%nat then []
               else take 64 msg :: blocks fuel' (drop 64 msg)
  end.

Definition pad (msg : list Z) : list Z :=
  msg ++ [0x80] ++ replicate (Z.to_nat ((55 - Z.of_nat (length msg)) mod 64)) 0
      ++ lengthBytes (u64 (Z.of_nat (length msg) * 8)).

Definition sha256 (msg : list Z) : list Z :=
  concat (map wordBytes
    (fold_left shaTransformState (blocks (length (pad msg)) (pad msg)) shaInitial)).

Example sha256_abc :
  sha256 (bytes_of "abc") =
  [0xba; 0x78; 0x16; 0xbf; 0x8f; 0x01; 0xcf; 0xea; 0x41; 0x41; 0x40; 0xde; 0x5d;
   0xae; 0x22; 0x23; 0xb0; 0x03; 0x61; 0xa3; 0x96; 0x17; 0x7a; 0x9c; 0xb4; 0x10;
   0xff; 0x61; 0xf2; 0x00; 0x15; 0xad].
Proof. vm_compute. reflexivity. Qed.

(** ** Streaming is independent of the cutting *)

Definition shaWf (c : Sha256Context) : Prop :=
  length (block c) = 64%nat /\ (blockBytes c < 64)%nat.

(** The effect of one input byte, total length aside. *)
Definition shaByte (c : Sha256Context) (b : Z) : Sha256Context :=
  let blk := splice (blockBytes c) [b] (block c) in
  if (S (blockBytes c) =? 64)%nat
  then mkSha (shaTransformState (sha_state c) blk) (totalBytes c) blk 0
  else mkSha (sha_state c) (totalBytes c) blk (S (blockBytes c)).

Lemma splice_length off src dst :
  (off + length src <= length dst)%nat -> length (splice off src dst) = length dst.
Proof. intros. unfold splice. rewrite !length_app, length_take, length_drop. lia. Qed.

Lemma splice_cons off b src dst :
  (off + S (length src) <= length dst)%nat ->
  splice off (b :: src) dst = splice (S off) src (splice off [b] dst).
Proof.
  intros H. unfold splice. simpl.
  assert (L : length (take off dst) = off) by (rewrite length_take; lia).
  rewrite (take_app_ge _ _ (S off)), L by lia.
  replace (S off - off)%nat with 1%nat by lia. simpl. rewrite take_0, <- app_assoc.
  do 2 f_equal. simpl. f_equal. rewrite drop_app_ge, L by lia.
  replace (S (off + length src) - off)%nat with (S (length src)) by lia.
  simpl. rewrite drop_drop. f_equal. lia.
Qed.

Lemma splice_nil off dst : splice off [] dst = dst.
Proof. unfold splice. simpl. by rewrite Nat.add_0_r, take_drop. Qed.

Lemma splice_take off src dst :
  (off + length src <= length dst)%nat ->
  take (off + length src) (splice off src dst) = take off dst ++ src.
Proof.
  intros H. unfold splice. rewrite app_assoc.
  rewrite take_app_le by (rewrite length_app, length_take; lia).
  rewrite take_ge; auto. rewrite length_app, length_take. lia.
Qed.

Lemma shaByte_wf c b : shaWf c -> shaWf (shaByte c b).
Proof.
  intros [Hl Hn]. unfold shaByte, shaWf.
  destruct (Nat.eqb_spec (S (blockBytes c)) 64); simpl;
    rewrite splice_length by (simpl; lia); lia.
Qed.

Lemma fold_shaByte_wf input c : shaWf c -> shaWf (fold_left shaByte input c).
Proof.
  revert c. induction input; simpl; auto. intros. apply IHinput, shaByte_wf; auto.
Qed.

(** Copying a run that fits the block is copying its bytes one by one. *)
Lemma shaByte_run src c :
  shaWf c -> (blockBytes c + length src <= 64)%nat -> src <> [] ->
  fold_left shaByte src c =
  (let c1 := mkSha (sha_state c) (totalBytes c) (splice (blockBytes c) src (block c))
                   (blockBytes c + length src) in
   if (blockBytes c1 =? 64)%nat
   then mkSha (shaTransformState (sha_state c1) (block c1)) (totalBytes c1) (block c1) 0
   else c1).
Proof.
  revert c. induction src as [|b src IH]; intros c [Hl Hn] Hfit Hne; [congruence|].
  simpl in Hfit. cbn [fold_left].
  destruct src as [|b' src].
  - simpl. unfold shaByte. rewrite Nat.add_1_r. reflexivity.
  - assert (Hw := shaByte_wf c b (conj Hl Hn)). rewrite (IH (shaByte c b)); auto.
    + unfold shaByte. simpl in Hfit.
      destruct (Nat.eqb_spec (S (blockBytes c)) 64); [lia|].
      cbn [sha_state totalBytes block blockBytes].
      rewrite (splice_cons _ b (b' :: src)) by (simpl; lia).
      replace (S (blockBytes c) + length (b' :: src))%nat
        with (blockBytes c + length (b :: b' :: src))%nat by (simpl; lia).
      reflexivity.
    + unfold shaByte. simpl in Hfit.
      destruct (Nat.eqb_spec (S (blockBytes c)) 64); cbn [blockBytes]; simpl; lia.
Qed.

Lemma shaUpdateLoop_bytes fuel : forall c input,
  shaWf c -> (length input <= fuel)%nat ->
  shaUpdateLoop fuel c input = fold_left shaByte input c.
Proof.
  induction fuel as [|fuel IH]; intros c input Hwf Hlen.
  - destruct input; simpl in *; [reflexivity|lia].
  - destruct input as [|b input']; [reflexivity|].
    remember (b :: input') as input eqn:Ein.
    assert (Hne : (0 < length input)%nat) by (subst; simpl; lia).
    destruct Hwf as [Hl Hn]. assert (Hwf : shaWf c) by (split; auto).
    set (copied := if (length input <? 64 - blockBytes c)%nat
                   then length input else (64 - blockBytes c)%nat).
    assert (Hcop : (0 < copied /\ copied <= length input /\ blockBytes c + copied <= 64)%nat).
    { subst copied. destruct (Nat.ltb_spec (length input) (64 - blockBytes c)); lia. }
    assert (Htl : length (take copied input) = copied) by (rewrite length_take; lia).
    assert (Hrun := shaByte_run (take copied input) c Hwf).
    rewrite Htl in Hrun.
    specialize (Hrun ltac:(lia)).
    assert (take copied input <> []) as Hne'
      by (intros E; rewrite E in Htl; simpl in Htl; lia).
    specialize (Hrun Hne').
    assert (E : shaUpdateLoop (S fuel) c input =
                shaUpdateLoop fuel (fold_left shaByte (take copied input) c)
                              (drop copied input)).
    { rewrite Hrun. rewrite Ein at 1. cbn [shaUpdateLoop]. rewrite <- Ein.
      unfold shaTransform. reflexivity. }
    rewrite E, IH.
    + rewrite <- fold_left_app, take_drop. reflexivity.
    + apply fold_shaByte_wf; auto.
    + rewrite length_drop. lia.
Qed.

Definition setTotal (t : Z) (c : Sha256Context) : Sha256Context :=
  mkSha (sha_state c) t (block c) (blockBytes c).

Lemma fold_shaByte_total t input c :
  fold_left shaByte input (setTotal t c) = setTotal t (fold_left shaByte input c).
Proof.
  revert c. induction input as [|b input IH]; intros; simpl; auto.
  rewrite <- IH. f_equal. unfold shaByte, setTotal. simpl.
  destruct (_ =? _)%nat; reflexivity.
Qed.

Lemma fold_shaByte_totalBytes input c :
  totalBytes (fold_left shaByte input c) = totalBytes c.
Proof.
  revert c. induction input as [|b input IH]; intros; simpl; auto.
  rewrite IH. unfold shaByte. destruct (_ =? _)%nat; reflexivity.
Qed.

Lemma setTotal_id c t : totalBytes c = t -> setTotal t c = c.
Proof. destruct c. unfold setTotal. simpl. congruence. Qed.

(** The update as a byte fold plus the length bookkeeping. *)
Lemma shaUpdate_bytes c input :
  shaWf c -> 0 <= totalBytes c < 2 ^ 64 ->
  shaUpdate c input =
  setTotal (u64 (totalBytes c + Z.of_nat (length input))) (fold_left shaByte input c).
Proof.
  intros Hwf Ht. destruct input as [|b input'].
  - simpl. rewrite Z.add_0_r, u64_id by lia. symmetry. by apply setTotal_id.
  - unfold shaUpdate. rewrite shaUpdateLoop_bytes; auto.
    rewrite <- fold_shaByte_total. reflexivity.
Qed.

Lemma shaUpdate_wf c input :
  shaWf c -> 0 <= totalBytes c < 2 ^ 64 ->
  shaWf (shaUpdate c input) /\ 0 <= totalBytes (shaUpdate c input) < 2 ^ 64.
Proof.
  intros Hwf Ht. rewrite shaUpdate_bytes by auto. split.
  - destruct (fold_shaByte_wf input c Hwf). split; auto.
  - simpl. unfold u64. apply Z.mod_pos_bound. lia.
Qed.

Lemma shaUpdate_app c a b :
  shaWf c -> 0 <= totalBytes c < 2 ^ 64 ->
  shaUpdate (shaUpdate c a) b = shaUpdate c (a ++ b).
Proof.
  intros Hwf Ht. destruct (shaUpdate_wf c a Hwf Ht) as [Hwf' Ht'].
  rewrite (shaUpdate_bytes _ b), (shaUpdate_bytes _ (a ++ b)), (shaUpdate_bytes _ a) by auto.
  rewrite fold_shaByte_total, fold_left_app. unfold setTotal. simpl. f_equal.
  unfold u64. rewrite Zplus_mod_idemp_l, length_app, Nat2Z.inj_add. f_equal. lia.
Qed.

(** ** The streaming digest is the reference digest *)

Fixpoint chunks (k : nat) (l : list Z) : list (list Z) :=
  match k with
  | O => []
  | S k' => take 64 l :: chunks k' (drop 64 l)
  end.

Lemma blocks_chunks k : forall fuel l,
  length l = (64 * k)%nat -> (k <= fuel)%nat -> blocks fuel l = chunks k l.
Proof.
  induction k as [|k IH]; intros fuel l Hl Hf.
  - destruct fuel; simpl; auto.
    destruct (Nat.ltb_spec (length l) 64); [reflexivity|lia].
  - destruct fuel as [|fuel]; [lia|]. cbn [blocks chunks].
    destruct (Nat.ltb_spec (length l) 64); [lia|]. f_equal.
    apply IH; [rewrite length_drop|]; lia.
Qed.

Lemma chunks_snoc k : forall full blk,
  length full = (64 * k)%nat -> length blk = 64%nat ->
  chunks (S k) (full ++ blk) = chunks k full ++ [blk].
Proof.
  induction k as [|k IH]; intros full blk Hf Hb.
  - destruct full; [|simpl in Hf; lia]. cbn. by rewrite take_ge by lia.
  - remember (S k) as k'. cbn [chunks]. subst k'.
    rewrite take_app_le, drop_app_le by lia.
    rewrite IH by (rewrite ?length_drop; lia). reflexivity.
Qed.

(** The context holds [k] compressed blocks of [full] and the bytes [tail]. *)
Definition Holds (c : Sha256Context) (k : nat) (full tail : list Z) : Prop :=
  length full = (64 * k)%nat /\ length (block c) = 64%nat /\
  (length tail < 64)%nat /\ blockBytes c = length tail /\
  take (length tail) (block c) = tail /\
  sha_state c = fold_left shaTransformState (chunks k full) shaInitial.

Lemma splice_one_take n b blk :
  (n < length blk)%nat -> take (S n) (splice n [b] blk) = take n blk ++ [b].
Proof.
  intros. pose proof (splice_take n [b] blk) as E. simpl in E.
  rewrite Nat.add_1_r in E. apply E. lia.
Qed.

Lemma Holds_byte c k full tail b :
  Holds c k full tail ->
  exists k' full' tail',
    full' ++ tail' = full ++ tail ++ [b] /\ Holds (shaByte c b) k' full' tail'.
Proof.
  intros (Hf & Hl & Ht & Hn & Htk & Hs). unfold shaByte. rewrite Hn.
  assert (Htake := splice_one_take (length tail) b (block c) ltac:(lia)).
  rewrite Htk in Htake.
  assert (Hlen : length (splice (length tail) [b] (block c)) = 64%nat)
    by (rewrite splice_length; simpl; lia).
  destruct (Nat.eqb_spec (S (length tail)) 64) as [E64|N64].
  - exists (S k), (full ++ tail ++ [b]), []. split; [by rewrite app_nil_r|].
    assert (Hblk : splice (length tail) [b] (block c) = tail ++ [b]).
    { rewrite <- Htake. rewrite take_ge; auto. lia. }
    unfold Holds. cbn [sha_state block blockBytes]. rewrite Hblk, Hs.
    split_and!; auto.
    + rewrite !length_app. simpl. lia.
    + rewrite length_app. simpl. lia.
    + simpl. lia.
    + rewrite chunks_snoc; auto; [|rewrite length_app; simpl; lia].
      by rewrite fold_left_app.
  - exists k, full, (tail ++ [b]). split; auto.
    unfold Holds. simpl. rewrite length_app. simpl. rewrite Nat.add_1_r.
    split_and!; auto; lia.
Qed.

Lemma Holds_start : Holds shaStart 0 [] [].
Proof. unfold Holds. simpl. split_and!; auto; lia. Qed.

Lemma Holds_bytes msg : forall c k full tail,
  Holds c k full tail ->
  exists k' full' tail',
    full' ++ tail' = full ++ tail ++ msg /\ Holds (fold_left shaByte msg c) k' full' tail'.
Proof.
  induction msg as [|b msg IH]; intros c k full tail H; simpl.
  - exists k, full, tail. by rewrite app_nil_r.
  - destruct (Holds_byte c k full tail b H) as (k1 & f1 & t1 & E1 & H1).
    destruct (IH _ _ _ _ H1) as (k2 & f2 & t2 & E2 & H2).
    exists k2, f2, t2. split; auto.
    rewrite E2, (app_assoc f1), E1, <- !app_assoc. reflexivity.
Qed.

Lemma lengthBytes_length n : length (lengthBytes n) = 8%nat.
Proof. reflexivity. Qed.

Lemma pad_zeros k n :
  (n < 64)%nat ->
  Z.to_nat ((55 - Z.of_nat (64 * k + n)) mod 64) =
  if (56 <? S n)%nat then (119 - n)%nat else (55 - n)%nat.
Proof.
  intros Hn. destruct (Nat.ltb_spec 56 (S n)).
  - rewrite <- (Z.mod_unique_pos _ _ (- Z.of_nat k - 1) (119 - Z.of_nat n)); lia.
  - rewrite <- (Z.mod_unique_pos _ _ (- Z.of_nat k) (55 - Z.of_nat n)); lia.
Qed.

(** The last one or two blocks [shaFinish] builds are those of the padding. *)
Lemma shaFinish_spec c k full tail :
  Holds c k full tail ->
  totalBytes c = u64 (Z.of_nat (length (full ++ tail))) ->
  shaFinish c = sha256 (full ++ tail).
Proof.
  intros (Hf & Hl & Ht & Hn & Htk & Hs) Htot.
  unfold shaFinish, sha256, pad. rewrite Htot.
  replace (u64 (u64 (Z.of_nat (length (full ++ tail))) * 8))
    with (u64 (Z.of_nat (length (full ++ tail)) * 8))
    by (unfold u64; rewrite Zmult_mod_idemp_l; reflexivity).
  set (L := lengthBytes (u64 (Z.of_nat (length (full ++ tail)) * 8))).
  assert (HL : length L = 8%nat) by reflexivity.
  rewrite (length_app full tail), Hf, pad_zeros, Hn, <- !app_assoc by lia.
  assert (Htake := splice_one_take (length tail) 128 (block c) ltac:(lia)).
  rewrite Htk in Htake.
  set (blk1 := splice (length tail) [128] (block c)) in *.
  assert (Hl1 : length blk1 = 64%nat) by (subst blk1; rewrite splice_length; simpl; lia).
  assert (Hfin : forall n blk, (n <= 56)%nat -> length blk = 64%nat ->
    splice 56 L (splice n (replicate (56 - n) 0) blk) =
    take n blk ++ replicate (56 - n) 0 ++ L).
  { intros n blk Hn56 Hb.
    set (inner := splice n (replicate (56 - n) 0) blk).
    assert (Hi : length inner = 64%nat)
      by (subst inner; rewrite splice_length; rewrite ?length_replicate; lia).
    unfold splice at 1. rewrite HL, (drop_ge inner) by lia. rewrite app_nil_r, app_assoc.
    f_equal. subst inner.
    pose proof (splice_take n (replicate (56 - n) 0) blk) as E.
    rewrite length_replicate in E.
    replace (n + (56 - n))%nat with 56%nat in E by lia. apply E. lia. }
  destruct (Nat.ltb_spec 56 (S (length tail))) as [Hbig|Hsmall].
  - rewrite Hfin by (rewrite ?splice_length; rewrite ?length_replicate; lia).
    rewrite take_0, app_nil_l. change (56 - 0)%nat with 56%nat.
    assert (Hb1 : splice (S (length tail)) (replicate (64 - S (length tail)) 0) blk1 =
                  tail ++ [128] ++ replicate (63 - length tail) 0).
    { unfold splice. rewrite Htake, length_replicate, drop_ge by lia.
      rewrite app_nil_r, <- app_assoc.
      replace (64 - S (length tail))%nat with (63 - length tail)%nat by lia. reflexivity. }
    rewrite Hb1.
    replace (119 - length tail)%nat with ((63 - length tail) + 56)%nat by lia.
    rewrite replicate_add, <- !app_assoc.
    replace (full ++ tail ++ [128] ++ replicate (63 - length tail) 0 ++ replicate 56 0 ++ L)
      with ((full ++ (tail ++ [128] ++ replicate (63 - length tail) 0)) ++ (replicate 56 0 ++ L))
      by (rewrite <- !app_assoc; reflexivity).
    assert (Hlb1 : length (tail ++ [128] ++ replicate (63 - length tail) 0) = 64%nat)
      by (rewrite !length_app, length_replicate; simpl; lia).
    assert (Hlb2 : length (replicate 56 0 ++ L) = 64%nat)
      by (rewrite length_app, length_replicate, HL; lia).
    assert (Hlf : length (full ++ tail ++ [128] ++ replicate (63 - length tail) 0) =
                  (64 * S k)%nat) by (rewrite length_app, Hlb1; lia).
    rewrite (blocks_chunks (S (S k))) by (rewrite length_app, Hlf, Hlb2; lia).
    rewrite !chunks_snoc, !fold_left_app by auto.
    simpl fold_left. rewrite Hs. reflexivity.
  - rewrite Hfin by lia. rewrite Htake, <- app_assoc.
    replace (56 - S (length tail))%nat with (55 - length tail)%nat by lia.
    assert (Hlb : length (tail ++ [128] ++ replicate (55 - length tail) 0 ++ L) = 64%nat)
      by (rewrite !length_app, length_replicate, HL; simpl; lia).
    rewrite (blocks_chunks (S k)) by (rewrite length_app, Hf, Hlb; lia).
    rewrite chunks_snoc, fold_left_app by auto.
    simpl fold_left. rewrite Hs. reflexivity.
Qed.

(** The digest computed by feeding [parts] one after the other. *)
Definition shaStream (parts : list (list Z)) : list Z :=
  shaFinish (fold_left shaUpdate parts shaStart).

Lemma shaStart_wf : shaWf shaStart /\ 0 <= totalBytes shaStart < 2 ^ 64.
Proof. split; [split; simpl|simpl]; lia. Qed.

Lemma shaUpdate_parts parts : forall c,
  shaWf c -> 0 <= totalBytes c < 2 ^ 64 ->
  fold_left shaUpdate parts c = shaUpdate c (concat parts).
Proof.
  induction parts as [|p parts IH]; intros c Hwf Ht; simpl; auto.
  destruct (shaUpdate_wf c p Hwf Ht). by rewrite IH, shaUpdate_app.
Qed.

Lemma shaFinish_update msg : shaFinish (shaUpdate shaStart msg) = sha256 msg.
Proof.
  destruct shaStart_wf as [Hwf Ht].
  destruct (Holds_bytes msg shaStart 0 [] [] Holds_start) as (k & full & tail & E & H).
  simpl in E. subst msg. rewrite shaUpdate_bytes by auto.
  rewrite (shaFinish_spec _ k full tail); [reflexivity|exact H|].
  simpl. by rewrite Z.add_0_l.
Qed.

Lemma concat_word_length l : length (concat (map wordBytes l)) = (4 * length l)%nat.
Proof. induction l; simpl; auto. rewrite IHl. lia. Qed.

Lemma shaTransformState_length st blk :
  length st = 8%nat -> length (shaTransformState st blk) = 8%nat.
Proof.
  intros H. unfold shaTransformState. rewrite length_zip_with.
  assert (forall kws v, length v = 8%nat -> length (fold_left shaRound kws v) = 8%nat) as Hr.
  { induction kws as [|[k w] kws IH]; simpl; intros; auto. }
  rewrite Hr by auto. lia.
Qed.

Lemma fold_transform_length blks : forall st,
  length st = 8%nat -> length (fold_left shaTransformState blks st) = 8%nat.
Proof.
  induction blks; simpl; auto. intros. by apply IHblks, shaTransformState_length.
Qed.

Lemma sha256_length msg : length (sha256 msg) = 32%nat.
Proof. unfold sha256. by rewrite concat_word_length, fold_transform_length. Qed.

Lemma sha256_ok msg : bytesOk (sha256 msg).
Proof.
  unfold sha256. generalize (fold_left shaTransformState (blocks (length (pad msg)) (pad msg)) shaInitial).
  intros l. induction l; simpl; [constructor|].
  repeat (constructor; [apply u8_range|]). exact IHl.
Qed.

(** C34: the streaming SHA-256 of the updater computes the digest of the
    concatenated message, for every way of cutting the message into updates. *)
Theorem shaStream_reference parts : shaStream parts = sha256 (concat parts).
Proof.
  unfold shaStream. destruct shaStart_wf.
  rewrite shaUpdate_parts by auto. apply shaFinish_update.
Qed.
