(* ===== verification/FlashLayout.v ===== *)
(** * The fixed flash layout (src/src/kitsu_flash_layout.h, .cpp)

    The layout constants, the boot-time check that the partition table of the
    running board is exactly the expected one, and what that check establishes.
    The ESP-IDF partition iterator behind [FlashLayoutPlatform] is a parameter. *)

From S2P Require Import Prelude.

Definition kKitsuFlashBytes : Z := 0x800000.
Definition kKitsuNvsOffset : Z := 0x009000.
Definition kKitsuNvsBytes : Z := 0x040000.
Definition kKitsuOtaDataOffset : Z := 0x049000.
Definition kKitsuOtaDataBytes : Z := 0x002000.
Definition kKitsuApp0Offset : Z := 0x050000.
Definition kKitsuApp1Offset : Z := 0x350000.
Definition kKitsuAppPartitionBytes : Z := 0x300000.
Definition kKitsuSpiffsOffset : Z := 0x670000.
Definition kKitsuSpiffsBytes : Z := 0x140000.
Definition kKitsuConnectivityOffset : Z := 0x7b0000.
Definition kKitsuConnectivityBytes : Z := 0x040000.
Definition kKitsuCoredumpOffset : Z := 0x7f0000.
Definition kKitsuCoredumpBytes : Z := 0x010000.
Definition kKitsuExpectedPartitionCount : nat := 7.

(** [struct FlashPartitionRecord] and [struct ExpectedPartition]; the label is
    the C string held by the array. *)
Record FlashPartitionRecord := mkPart {
  part_label : string;
  part_type : Z;
  part_subtype : Z;
  part_address : Z;
  part_size : Z;
}.

#[export] Instance FlashPartitionRecord_eq_dec : EqDecision FlashPartitionRecord.
Proof. solve_decision. Defined.

Definition kExpected : list FlashPartitionRecord :=
  [ mkPart "nvs" 0x01 0x02 kKitsuNvsOffset kKitsuNvsBytes;
    mkPart "otadata" 0x01 0x00 kKitsuOtaDataOffset kKitsuOtaDataBytes;
    mkPart "app0" 0x00 0x10 kKitsuApp0Offset kKitsuAppPartitionBytes;
    mkPart "app1" 0x00 0x11 kKitsuApp1Offset kKitsuAppPartitionBytes;
    mkPart "spiffs" 0x01 0x82 kKitsuSpiffsOffset kKitsuSpiffsBytes;
    mkPart "kitsu_conn" 0x01 0x40 kKitsuConnectivityOffset kKitsuConnectivityBytes;
    mkPart "coredump" 0x01 0x03 kKitsuCoredumpOffset kKitsuCoredumpBytes ].

Definition matches (actual expected : FlashPartitionRecord) : bool :=
  String.eqb (part_label actual) (part_label expected) &&
  (part_type actual =? part_type expected) && (part_subtype actual =? part_subtype expected) &&
  (part_address actual =? part_address expected) && (part_size actual =? part_size expected).

Inductive FlashLayoutResult :=
| Ready
| PartitionCountMismatch
| PartitionReadFailed
| PartitionMismatch
| RunningPartitionUnavailable
| RunningPartitionMismatch.

(** [class FlashLayoutPlatform]: the partition table as the platform reports
    it; [None] is a call that returned [false]. *)
Class FlashLayoutPlatform := {
  partitionCount : nat;
  partitionAt : nat -> option FlashPartitionRecord;
  runningPartition : option FlashPartitionRecord;
}.

(** The inner loop: claim the first expected entry not [found] yet that
    matches; [None] is [matched == false]. *)
Fixpoint claim (found : list bool) (expected : list FlashPartitionRecord)
    (actual : FlashPartitionRecord) : option (list bool) :=
  match found, expected with
  | f :: fs, e :: es =>
      if negb f && matches actual e then Some (true :: fs)
      else fs' ← claim fs es actual; Some (f :: fs')
  | _, _ => None
  end.

(** The outer loop over the table; [inr] carries the final [found] flags. *)
Fixpoint claimAll `{FlashLayoutPlatform} (indices : list nat) (found : list bool)
  : FlashLayoutResult + list bool :=
  match indices with
  | [] => inr found
  | index :: rest =>
      match partitionAt index with
      | None => inl PartitionReadFailed
      | Some actual =>
          match claim found kExpected actual with
          | None => inl PartitionMismatch
          | Some found' => claimAll rest found'
          end
      end
  end.

Definition validateKitsuFlashLayout `{FlashLayoutPlatform} : FlashLayoutResult :=
  if negb (partitionCount =? kKitsuExpectedPartitionCount)%nat
  then PartitionCountMismatch
  else match claimAll (seq 0 kKitsuExpectedPartitionCount)
                      (replicate kKitsuExpectedPartitionCount false) with
       | inl err => err
       | inr _ =>
           match runningPartition with
           | None => RunningPartitionUnavailable
           | Some running =>
               if existsb (matches running)
                    (take 2 (drop 2 kExpected)) (* kExpected[2], kExpected[3] *)
               then Ready else RunningPartitionMismatch
           end
       end.

Definition flashLayoutResultName (result : FlashLayoutResult) : string :=
  match result with
  | Ready => "ready"
  | PartitionCountMismatch => "partition-count-mismatch"
  | PartitionReadFailed => "partition-read-failed"
  | PartitionMismatch => "partition-mismatch"
  | RunningPartitionUnavailable => "running-partition-unavailable"
  | RunningPartitionMismatch => "running-partition-mismatch"
  end.

(** ** The check accepts exactly the expected table *)

Lemma matches_eq a e : matches a e = true <-> a = e.
Proof.
  unfold matches. destruct a, e; simpl.
  rewrite !andb_true_iff, !Z.eqb_eq, String.eqb_eq.
  split; [intros [[[[]]]]|intros [=]]; by subst.
Qed.

(** The expected entries not claimed yet. *)
Fixpoint remaining (found : list bool) (expected : list FlashPartitionRecord)
  : list FlashPartitionRecord :=
  match found, expected with
  | f :: fs, e :: es => if f then remaining fs es else e :: remaining fs es
  | _, _ => []
  end.

Lemma claim_some found expected actual found' :
  claim found expected actual = Some found' ->
  remaining found expected ≡ₚ actual :: remaining found' expected.
Proof.
  revert expected found'. induction found as [|f fs IH]; intros [|e es] found' H; try done.
  simpl in H. destruct f; simpl in H.
  - destruct (claim fs es actual) eqn:E; simplify_eq/=. by apply IH.
  - destruct (matches actual e) eqn:Em; simplify_eq/=.
    + apply matches_eq in Em. by subst.
    + destruct (claim fs es actual) eqn:E; simplify_eq/=.
      rewrite (IH _ _ E). apply Permutation_swap.
Qed.

Lemma claim_none found expected actual :
  claim found expected actual = None -> actual ∉ remaining found expected.
Proof.
  revert expected. induction found as [|f fs IH]; intros [|e es] H; simpl in *;
    try apply not_elem_of_nil.
  destruct f; simpl in H.
  - apply IH. by destruct (claim fs es actual).
  - destruct (matches actual e) eqn:Em; [done|].
    rewrite not_elem_of_cons. split.
    + intros ->. assert (matches e e = true) by by apply matches_eq. congruence.
    + apply IH. by destruct (claim fs es actual).
Qed.

Section Layout.
Context `{FlashLayoutPlatform}.

(** The table entries [index .. ] as far as they can be read. *)
Definition tableIs (indices : list nat) (recs : list FlashPartitionRecord) : Prop :=
  map partitionAt indices = map Some recs.

Lemma claimAll_inr indices : forall found found',
  claimAll indices found = inr found' ->
  exists recs, tableIs indices recs /\
    remaining found kExpected ≡ₚ recs ++ remaining found' kExpected.
Proof.
  induction indices as [|i idxs IH]; intros found found' E; simpl in E; simplify_eq/=.
  - by exists [].
  - destruct (partitionAt i) as [actual|] eqn:Ei; [|done].
    destruct (claim found kExpected actual) as [f1|] eqn:Ec; [|done].
    destruct (IH _ _ E) as (recs & Ht & Hp). exists (actual :: recs). split.
    + unfold tableIs in *. simpl. congruence.
    + rewrite (claim_some _ _ _ _ Ec), Hp. done.
Qed.

Lemma claimAll_complete indices : forall found recs,
  tableIs indices recs -> remaining found kExpected ≡ₚ recs ->
  exists found', claimAll indices found = inr found'.
Proof.
  induction indices as [|i idxs IH]; intros found [|r rs] Ht Hp;
    unfold tableIs in Ht; simplify_eq/=; eauto.
  rewrite H0. destruct (claim found kExpected r) as [f1|] eqn:Ec.
  - apply (IH _ rs); auto. rewrite (claim_some _ _ _ _ Ec) in Hp.
    by apply Permutation_cons_inv in Hp.
  - exfalso. apply (claim_none _ _ _ Ec). rewrite Hp. left.
Qed.

Definition layoutIs (recs : list FlashPartitionRecord)
    (running : FlashPartitionRecord) : Prop :=
  partitionCount = kKitsuExpectedPartitionCount /\
  tableIs (seq 0 kKitsuExpectedPartitionCount) recs /\
  recs ≡ₚ kExpected /\
  runningPartition = Some running /\
  (running = mkPart "app0" 0 0x10 kKitsuApp0Offset kKitsuAppPartitionBytes \/
   running = mkPart "app1" 0 0x11 kKitsuApp1Offset kKitsuAppPartitionBytes).

Lemma running_app running :
  existsb (matches running) (take 2 (drop 2 kExpected)) = true <->
  running = mkPart "app0" 0 0x10 kKitsuApp0Offset kKitsuAppPartitionBytes \/
  running = mkPart "app1" 0 0x11 kKitsuApp1Offset kKitsuAppPartitionBytes.
Proof.
  simpl. rewrite orb_false_r, orb_true_iff, !matches_eq. done.
Qed.

Lemma validateKitsuFlashLayout_ready' :
  validateKitsuFlashLayout = Ready -> exists recs running, layoutIs recs running.
Proof.
  unfold validateKitsuFlashLayout, layoutIs.
  destruct (Nat.eqb_spec partitionCount kKitsuExpectedPartitionCount) as [Hc|]; [|done].
  simpl negb. cbv iota.
  destruct (claimAll _ _) as [err|found'] eqn:E.
  { intros ->. exfalso. clear Hc. revert E. generalize (replicate kKitsuExpectedPartitionCount false).
    induction (seq 0 kKitsuExpectedPartitionCount); intros f E; simpl in E; [done|].
    destruct (partitionAt a); [|done].
    destruct (claim f kExpected f0); [|done]. by apply IHl in E. }
  destruct runningPartition as [running|]; [|done].
  destruct (existsb _ _) eqn:Er; [|done]. intros _.
  destruct (claimAll_inr _ _ _ E) as (recs & Ht & Hp).
  exists recs, running. apply running_app in Er. split_and!; auto.
  assert (Hl : length recs = 7%nat).
  { unfold tableIs in Ht. apply (f_equal length) in Ht. by rewrite !length_map in Ht. }
  change (remaining (replicate kKitsuExpectedPartitionCount false) kExpected)
    with kExpected in Hp.
  assert (remaining found' kExpected = []) as Hr.
  { apply Permutation_length in Hp. rewrite length_app, Hl in Hp. simpl in Hp.
    apply nil_length_inv. lia. }
  by rewrite Hr, app_nil_r in Hp.
Qed.

(** The boot check answers Ready exactly when the table holds the seven
    expected partitions, in any order and each once, and the running image is
    one of the two application slots. *)
Theorem validateKitsuFlashLayout_ready :
  validateKitsuFlashLayout = Ready <-> exists recs running, layoutIs recs running.
Proof.
  split; [apply validateKitsuFlashLayout_ready'|].
  intros (recs & running & Hc & Ht & Hp & Hr & Ha).
  unfold validateKitsuFlashLayout. rewrite Hc. simpl negb. cbv iota.
    destruct (claimAll_complete (seq 0 kKitsuExpectedPartitionCount)
                (replicate kKitsuExpectedPartitionCount false) recs Ht) as [f' ->].
    { by rewrite Hp. }
    rewrite Hr. by apply running_app in Ha as ->.
Qed.
End Layout.

(** ** What the check establishes about the flash *)

(** [a] and [b] occupy disjoint address ranges. *)
Definition disjointParts (a b : FlashPartitionRecord) : bool :=
  (part_address a + part_size a <=? part_address b) ||
  (part_address b + part_size b <=? part_address a).

Definition insideFlash (a : FlashPartitionRecord) : bool :=
  (0 <=? part_address a) && (0 <? part_size a) &&
  (part_address a + part_size a <=? kKitsuFlashBytes).

Lemma expected_inside p : p ∈ kExpected -> insideFlash p = true.
Proof.
  intros Hp. assert (H : Forall (fun p => insideFlash p = true) kExpected)
    by (repeat constructor).
  rewrite Forall_forall in H. auto.
Qed.

Lemma expected_disjoint p q :
  p ∈ kExpected -> q ∈ kExpected -> p <> q -> disjointParts p q = true.
Proof.
  intros Hp Hq.
  assert (H : Forall (fun p => Forall (fun q =>
      bool_decide (p = q) || disjointParts p q = true) kExpected) kExpected)
    by (repeat constructor).
  rewrite Forall_forall in H. specialize (H p Hp). rewrite Forall_forall in H.
  specialize (H q Hq). intros Hne. by rewrite bool_decide_eq_false_2 in H.
Qed.

(** Once the layout check passed, the partitions of the board lie inside
    the 8 MiB flash and no two of them overlap. *)
Theorem validated_table_disjoint `{FlashLayoutPlatform} recs :
  validateKitsuFlashLayout = Ready ->
  tableIs (seq 0 kKitsuExpectedPartitionCount) recs ->
  Forall (fun p => insideFlash p = true) recs /\
  forall p q, p ∈ recs -> q ∈ recs -> p <> q -> disjointParts p q = true.
Proof.
  intros Hv Ht. apply validateKitsuFlashLayout_ready' in Hv
    as (recs' & running & _ & Ht' & Hp & _).
  assert (recs' = recs) as ->.
  { unfold tableIs in *. rewrite Ht' in Ht. by apply (inj (fmap Some)) in Ht. }
  split.
  - apply Forall_forall. intros p Hin. apply expected_inside. by rewrite <- Hp.
  - intros p q Hpi Hqi. apply expected_disjoint; by rewrite <- Hp.
Qed.

(** A board with the expected table, running from [app1]. *)
Definition expectedBoard : FlashLayoutPlatform := {|
  partitionCount := 7;
  partitionAt i := rev kExpected !! i;
  runningPartition := kExpected !! 3%nat;
|}.

Lemma validated_table_disjoint_witness :
  disjointParts (nth 0 (rev kExpected) (mkPart EmptyString 0 0 0 0))
                (nth 1 (rev kExpected) (mkPart EmptyString 0 0 0 0)) = true.
Proof.
  eapply (proj2 (@validated_table_disjoint expectedBoard (rev kExpected)
                   ltac:(reflexivity) ltac:(reflexivity))).
  - left.
  - right. left.
  - discriminate.
Defined.
