(* ===== verification/OtaCodec.v ===== *)
(** * Parsers and encoders of the firmware updater (src/src/kitsu_ble_ota.cpp)

    The anonymous-namespace helpers of the updater and [parseManifest].  The C
    code walks a fixed input with a [cursor]; here the cursor is the list of the
    bytes not read yet, [None] is a parser that returned [false]. *)

From S2P Require Import Prelude FlashLayout.

(** ** Constants (src/src/kitsu_ble_ota.h) *)

Definition kBleOtaAppPartitionBytes : Z := kKitsuAppPartitionBytes.
Definition kBleOtaJournalBytes : Z := 0x1000.
Definition kBleOtaMaximumImageBytes : Z := kBleOtaAppPartitionBytes - kBleOtaJournalBytes.
Definition kBleOtaChunkBytes : Z := 4096.
Definition kBleOtaCheckpointBytes : Z := 64 * 1024.
Definition kBleOtaHealthyConfirmationMs : Z := 30000.
Definition kBleOtaRebootDelayMs : Z := 750.
Definition kBleOtaRebootFallbackMs : Z := 5000.
Definition kBleOtaManifestMaximumBytes : nat := 1024.
Definition kBleOtaSignatureBytes : nat := 64.
Definition kBleOtaDigestBytes : nat := 32.
Definition kBleOtaVersionMaximumBytes : nat := 32.

(** ** Character classes and identifiers *)

Definition isDigit (value : Z) : bool := (48 <=? value) && (value <=? 57).

Definition asciiAlphaNumeric (value : Z) : bool :=
  isDigit value || (65 <=? value) && (value <=? 90) ||
  (97 <=? value) && (value <=? 122).

Definition validReleaseId (input : list Z) : bool :=
  match input with
  | [] => false
  | first :: rest =>
      (length input <=? 64)%nat && asciiAlphaNumeric first &&
      forallb (fun value => asciiAlphaNumeric value || (value =? 46) ||
                            (value =? 95) || (value =? 45)) rest
  end.

(** The inner loop of [validSemverIdentifiers]: the identifier up to the next
    ['.'], ['+'] or the end, whether it was all digits, and what follows. *)
Fixpoint scanIdentifier (input : list Z) (numeric : bool)
  : option (list Z * bool * list Z) :=
  match input with
  | [] => Some ([], numeric, [])
  | value :: rest =>
      if (value =? 46) || (value =? 43) then Some ([], numeric, input)
      else if negb (asciiAlphaNumeric value) && negb (value =? 45) then None
      else match scanIdentifier rest (if isDigit value then numeric else false) with
           | None => None
           | Some (ident, num, rest') => Some (value :: ident, num, rest')
           end
  end.

(** [Some rest] is [true] with the cursor left on [rest].  Each turn consumes a
    byte, so a fuel of [S (length input)] never runs out. *)
Fixpoint validSemverIdentifiers (fuel : nat) (prerelease : bool) (input : list Z)
  : option (list Z) :=
  match fuel, input with
  | O, _ | _, [] => None
  | S fuel', _ =>
      match scanIdentifier input true with
      | None => None
      | Some (ident, numeric, rest) =>
          if (length ident =? 0)%nat ||
             prerelease && numeric && (1 <? length ident)%nat && (byte_at ident 0 =? 48)
          then None
          else match rest with
               | [] => Some []
               | sep :: rest' =>
                   if sep =? 43 then Some rest
                   else match rest' with
                        | [] => None
                        | next :: _ =>
                            if (next =? 46) || (next =? 43) then None
                            else validSemverIdentifiers fuel' prerelease rest'
                        end
               end
      end
  end.

Definition semverComponentMax : Z := 0x7fffffffffffffff.

(** The digit loop of one version component. *)
Fixpoint componentDigits (input : list Z) (componentValue : Z) : option (list Z) :=
  match input with
  | value :: rest =>
      if isDigit value then
        let digit := value - 48 in
        if (semverComponentMax - digit) / 10 <? componentValue then None
        else componentDigits rest (componentValue * 10 + digit)
      else Some input
  | [] => Some []
  end.

Definition versionComponent (input : list Z) : option (list Z) :=
  rest ← componentDigits input 0;
  let consumed := (length input - length rest)%nat in
  if (consumed =? 0)%nat || (1 <? consumed)%nat && (byte_at input 0 =? 48)
  then None else Some rest.

Definition versionDot (input : list Z) : option (list Z) :=
  match input with
  | value :: rest => if value =? 46 then Some rest else None
  | [] => None
  end.

(** The optional ["-identifiers"] and ["+identifiers"] tails. *)
Definition versionTail (mark : Z) (prerelease : bool) (input : list Z)
  : option (list Z) :=
  match input with
  | value :: rest =>
      if value =? mark
      then validSemverIdentifiers (S (length rest)) prerelease rest
      else Some input
  | [] => Some []
  end.

Definition validSemver (input : list Z) : bool :=
  if (length input =? 0)%nat || (kBleOtaVersionMaximumBytes <? length input)%nat
  then false
  else match
    major ← versionComponent input; minor ← versionDot major;
    minorEnd ← versionComponent minor; patch ← versionDot minorEnd;
    core ← versionComponent patch;
    afterPre ← versionTail 45 true core;
    versionTail 43 false afterPre
  with
  | Some [] => true
  | _ => false
  end.

(** [validSemverString]: the argument is the content of a C string. *)
Definition validSemverString (input : option (list Z)) : bool :=
  match input with
  | None => false
  | Some s => (length s <=? kBleOtaVersionMaximumBytes)%nat && validSemver s
  end.

(** ** Decimal numbers, literals and quoted spans *)

Fixpoint decimalLoop (input : list Z) (value : Z) : option (Z * list Z) :=
  match input with
  | b :: rest =>
      if isDigit b then
        let value' := value * 10 + (b - 48) in
        if UINT32_MAX <? value' then None else decimalLoop rest value'
      else Some (value, input)
  | [] => Some (value, [])
  end.

Definition decimal (input : list Z) : option (Z * list Z) :=
  match decimalLoop input 0 with
  | None => None
  | Some (value, rest) =>
      let consumed := (length input - length rest)%nat in
      if (consumed =? 0)%nat || (1 <? consumed)%nat && (byte_at input 0 =? 48)
      then None else Some (value, rest)
  end.

Fixpoint literal (expected input : list Z) : option (list Z) :=
  match expected, input with
  | [], _ => Some input
  | e :: expected', b :: rest => if b =? e then literal expected' rest else None
  | _ :: _, [] => None
  end.

(** The span up to a double quote, which is left unread. *)
Fixpoint spanUntilQuote (input : list Z) : option (list Z * list Z) :=
  match input with
  | [] => None
  | value :: rest =>
      if value =? 34 then Some ([], input)
      else if (value <? 32) || (126 <? value) || (value =? 92) then None
      else match spanUntilQuote rest with
           | None => None
           | Some (span, rest') => Some (value :: span, rest')
           end
  end.

(** ** Base64url and lower-case hexadecimal *)

Definition base64Value (value : Z) : Z :=
  if (65 <=? value) && (value <=? 90) then value - 65
  else if (97 <=? value) && (value <=? 122) then value - 97 + 26
  else if isDigit value then value - 48 + 52
  else if value =? 45 then 62
  else if value =? 95 then 63
  else -1.

Definition b64First (a b : Z) : Z := u8 (Z.lor (Z.shiftl a 2) (Z.shiftr b 4)).
Definition b64Second (b c : Z) : Z := u8 (Z.lor (Z.shiftl b 4) (Z.shiftr c 2)).
Definition b64Third (c d : Z) : Z := u8 (Z.lor (Z.shiftl c 6) d).

(** The loop over complete groups of four, then the tail. *)
Fixpoint decodeGroups (input : list Z) : option (list Z) :=
  match input with
  | a0 :: b0 :: c0 :: d0 :: rest =>
      let a := base64Value a0 in let b := base64Value b0 in
      let c := base64Value c0 in let d := base64Value d0 in
      if (a <? 0) || (b <? 0) || (c <? 0) || (d <? 0) then None
      else out ← decodeGroups rest;
           Some (b64First a b :: b64Second b c :: b64Third c d :: out)
  | [a0; b0; c0] =>
      let a := base64Value a0 in let b := base64Value b0 in
      let c := base64Value c0 in
      if (a <? 0) || (b <? 0) || (c <? 0) || negb (Z.land c 3 =? 0) then None
      else Some [b64First a b; b64Second b c]
  | [a0; b0] =>
      let a := base64Value a0 in let b := base64Value b0 in
      if (a <? 0) || (b <? 0) || negb (Z.land b 15 =? 0) then None
      else Some [b64First a b]
  | [_] => None
  | [] => Some []
  end.

Definition decodedBytes (bytes : nat) : nat :=
  (bytes / 4 * 3 +
   (if bytes mod 4 =? 2 then 1 else if bytes mod 4 =? 3 then 2 else 0))%nat.

Definition decodeBase64Url (input : list Z) (outputCapacity : nat) : option (list Z) :=
  let bytes := length input in
  if (bytes =? 0)%nat || (bytes mod 4 =? 1)%nat then None
  else
    let decoded := decodedBytes bytes in
    if (outputCapacity <? decoded)%nat then None
    else out ← decodeGroups input;
         if (length out =? decoded)%nat then Some out else None.

Definition hexValue (value : Z) : Z :=
  if isDigit value then value - 48
  else if (97 <=? value) && (value <=? 102) then value - 97 + 10
  else -1.

Fixpoint decodeHexPairs (input : list Z) : option (list Z) :=
  match input with
  | h :: l :: rest =>
      let high := hexValue h in let low := hexValue l in
      if (high <? 0) || (low <? 0) then None
      else out ← decodeHexPairs rest; Some (u8 (Z.lor (Z.shiftl high 4) low) :: out)
  | _ => Some []
  end.

Definition decodeLowerHex (input : list Z) (outputBytes : nat) : option (list Z) :=
  if (length input =? outputBytes * 2)%nat then decodeHexPairs input else None.

Definition hexAlphabet : list Z := bytes_of "0123456789abcdef".

Fixpoint encodeLowerHex (input : list Z) : list Z :=
  match input with
  | [] => []
  | b :: rest => byte_at hexAlphabet (Z.to_nat (Z.shiftr b 4)) ::
                 byte_at hexAlphabet (Z.to_nat (Z.land b 15)) :: encodeLowerHex rest
  end.

(** ** Requests

    A payload is [None] when the pointer is null. *)

Definition idPrefix : list Z := js "{'update_id':'".
Definition idSuffix : list Z := js "'}".

Definition parseIdRequest (payload : option (list Z)) : option (list Z) :=
  match payload with
  | None => None
  | Some p =>
      if negb (length p =? length idPrefix + 64 + length idSuffix)%nat ||
         negb (beq (take (length idPrefix) p) idPrefix) ||
         negb (beq (drop (length p - length idSuffix) p) idSuffix)
      then None
      else decodeLowerHex (slice (length idPrefix) 64 p) kBleOtaDigestBytes
  end.

(** The encoded manifest and signature. *)
Definition parseBeginRequest (payload : option (list Z)) : option (list Z * list Z) :=
  c0 ← payload;
  c1 ← literal (js "{'manifest_b64':'") c0;
  '(manifest, c2) ← spanUntilQuote c1;
  c3 ← literal (js "','signature_b64':'") c2;
  '(signature, c4) ← spanUntilQuote c3;
  c5 ← literal (js "'}") c4;
  if (length c5 =? 0)%nat && negb (length manifest =? 0)%nat &&
     negb (length signature =? 0)%nat
  then Some (manifest, signature) else None.

(** Update id, offset and encoded data. *)
Definition parseWriteRequest (payload : option (list Z))
  : option (list Z * Z * list Z) :=
  c0 ← payload;
  c1 ← literal (js "{'update_id':'") c0;
  if (length c1 <? 64)%nat then None else
  updateId ← decodeLowerHex (take 64 c1) kBleOtaDigestBytes;
  c2 ← literal (js "','offset':") (drop 64 c1);
  '(offset, c3) ← decimal c2;
  c4 ← literal (js ",'data_b64':'") c3;
  '(encodedData, c5) ← spanUntilQuote c4;
  c6 ← literal (js "'}") c5;
  if (length c6 =? 0)%nat && negb (length encodedData =? 0)%nat
  then Some (updateId, offset, encodedData) else None.

(** ** The release manifest *)

Record ParsedManifest := mkManifest {
  releaseId : list Z;
  firmwareVersion : list Z;
  manifestImageBytes : Z;
  manifestImageSha256 : list Z;
}.

Definition manifest0 : list Z :=
  js "{'schema':'kitsu.ble-firmware.v1','release_id':'".
Definition manifest1 : list Z := js "','firmware_version':'".
Definition manifest2 : list Z :=
  js "','device_class':'heltec-wifi-lora-32-v3-esp32s3-8mb','image_format':'esp32s3-app','image_bytes':".
Definition manifest3 : list Z := js ",'image_sha256':'".
Definition manifest4 : list Z := js "','partition_bytes':".
Definition manifest5 : list Z := js ",'chunk_bytes':".
Definition manifest6 : list Z := js ",'rollback':true}".

Definition parseManifest (input : list Z) : option ParsedManifest :=
  if (length input =? 0)%nat || (kBleOtaManifestMaximumBytes <? length input)%nat
  then None else
  c1 ← literal manifest0 input;
  '(release, c2) ← spanUntilQuote c1;
  c3 ← literal manifest1 c2;
  '(version, c4) ← spanUntilQuote c3;
  c5 ← literal manifest2 c4;
  '(imageBytes, c6) ← decimal c5;
  c7 ← literal manifest3 c6;
  '(digest, c8) ← spanUntilQuote c7;
  c9 ← literal manifest4 c8;
  '(partitionBytes, c10) ← decimal c9;
  c11 ← literal manifest5 c10;
  '(chunkBytes, c12) ← decimal c11;
  c13 ← literal manifest6 c12;
  if negb (length c13 =? 0)%nat || negb (validReleaseId release) ||
     negb (validSemver version) then None else
  imageSha256 ← decodeLowerHex digest kBleOtaDigestBytes;
  if (imageBytes =? 0) || (kBleOtaMaximumImageBytes <? imageBytes) ||
     negb (partitionBytes =? kBleOtaAppPartitionBytes) ||
     negb (chunkBytes =? kBleOtaChunkBytes)
  then None
  else Some (mkManifest release version imageBytes imageSha256).
