(* ===== verification/OtaCodecFacts.v ===== *)
(** * The updater's parsers accept exactly the canonical encodings

    Reference encoders for decimal numbers, base64url and the JSON requests, the
    semantic-version grammar, and the theorems that each parser of [OtaCodec]
    inverts its encoder and accepts nothing else. *)

From S2P Require Import Prelude FlashLayout OtaCodec.

Create Rewrite HintDb canon.

(** ** Literals and spans *)

Lemma literal_spec e : forall l r, literal e l = Some r <-> l = e ++ r.
Proof.
  induction e as [|x e IH]; intros l r; simpl.
  - split; congruence.
  - destruct l as [|b l]; [split; discriminate|].
    destruct (Z.eqb_spec b x) as [->|Hne].
    + rewrite IH. split; congruence.
    + split; [discriminate|intros [= -> _]; contradiction].
Qed.

Lemma literal_app e r : literal e (e ++ r) = Some r.
Proof. by apply literal_spec. Qed.

Definition spanChar (b : Z) : Prop := 32 <= b <= 126 /\ b <> 34 /\ b <> 92.

(** What follows a span starts with the double quote. *)
Definition atQuote (r : list Z) : Prop := exists r', r = 34 :: r'.

Lemma spanUntilQuote_sound l : forall s r,
  spanUntilQuote l = Some (s, r) -> l = s ++ r /\ Forall spanChar s /\ atQuote r.
Proof.
  induction l as [|b l IH]; intros s r H; simpl in H; [discriminate|].
  destruct (Z.eqb_spec b 34) as [->|Hq].
  - simplify_eq. split_and!; [done|constructor|by exists l].
  - destruct (Z.ltb_spec b 32); [discriminate|].
    destruct (Z.ltb_spec 126 b); [discriminate|].
    destruct (Z.eqb_spec b 92); [discriminate|]. simpl in H.
    destruct (spanUntilQuote l) as [[s' r']|] eqn:E; [|discriminate]. simplify_eq.
    destruct (IH _ _ eq_refl) as (-> & Hs & Hr). split_and!; auto.
    constructor; auto. unfold spanChar. lia.
Qed.

Lemma spanUntilQuote_complete s : forall r,
  Forall spanChar s -> spanUntilQuote (s ++ 34 :: r) = Some (s, 34 :: r).
Proof.
  induction s as [|b s IH]; intros r H; [reflexivity|].
  inversion H as [|? ? [Hb [Hq Hs]] Hrest]; subst. simpl.
  destruct (Z.eqb_spec b 34); [lia|].
  destruct (Z.ltb_spec b 32); [lia|]. destruct (Z.ltb_spec 126 b); [lia|].
  destruct (Z.eqb_spec b 92); [lia|]. simpl. by rewrite IH.
Qed.

(** ** Decimal numbers *)

Fixpoint decDigitsF (fuel : nat) (n : Z) : list Z :=
  match fuel with
  | O => []
  | S fuel' => if n <? 10 then [48 + n]
               else decDigitsF fuel' (n / 10) ++ [48 + n mod 10]
  end.

(** The decimal notation of a 32-bit number, as [%lu] prints it. *)
Definition decDigits (n : Z) : list Z := decDigitsF 20 n.

Definition decValue (ds : list Z) : Z := fold_left (fun v b => v * 10 + (b - 48)) ds 0.

(** A non-empty digit string without superfluous leading zero. *)
Definition decCanonical (ds : list Z) : Prop :=
  ds <> [] /\ Forall (fun b => isDigit b = true) ds /\
  ((1 < length ds)%nat -> byte_at ds 0 <> 48).

Lemma isDigit_range b : isDigit b = true <-> 48 <= b <= 57.
Proof. unfold isDigit. rewrite andb_true_iff, !Z.leb_le. done. Qed.

Lemma decValue_snoc ds b : decValue (ds ++ [b]) = decValue ds * 10 + (b - 48).
Proof. unfold decValue. by rewrite fold_left_app. Qed.

Lemma fold_dec_mono ds : forall v w,
  Forall (fun b => isDigit b = true) ds -> 0 <= v ->
  fold_left (fun v b => v * 10 + (b - 48)) ds v = w -> v <= w.
Proof.
  induction ds as [|b ds IH]; intros v w H Hv E; simpl in E; [lia|].
  inversion H as [|? ? Hb Hds]; subst. apply isDigit_range in Hb.
  specialize (IH (v * 10 + (b - 48)) _ Hds ltac:(lia) eq_refl). lia.
Qed.

Lemma decValue_pos ds :
  Forall (fun b => isDigit b = true) ds -> ds <> [] -> byte_at ds 0 <> 48 -> 0 < decValue ds.
Proof.
  intros H Hne Hz. destruct ds as [|b ds]; [congruence|].
  inversion H as [|? ? Hb Hds]; subst. apply isDigit_range in Hb.
  change (byte_at (b :: ds) 0) with b in Hz. unfold decValue. simpl.
  pose proof (fold_dec_mono ds (0 * 10 + (b - 48)) _ Hds ltac:(lia) eq_refl). lia.
Qed.

Lemma nonnil_length (ds : list Z) : ds <> [] -> (0 < length ds)%nat.
Proof. destruct ds; simpl; [congruence|lia]. Qed.

Lemma decCanonical_snoc ds b :
  decCanonical (ds ++ [b]) -> ds <> [] -> decCanonical ds /\ byte_at ds 0 <> 48.
Proof.
  intros (_ & Hd & Hz) Hne. apply Forall_app in Hd as [Hd _].
  assert (Hl := nonnil_length ds Hne).
  assert (H0 : byte_at ds 0 <> 48).
  { rewrite <- (byte_at_app_l ds [b] 0) by lia.
    apply Hz. rewrite length_app. simpl. lia. }
  split; [|done]. split_and!; auto.
Qed.

Lemma decDigitsF_value f : forall ds,
  decCanonical ds -> (length ds <= f)%nat -> decDigitsF f (decValue ds) = ds.
Proof.
  induction f as [|f IH]; intros ds Hc Hl.
  - destruct ds; [by destruct Hc|simpl in Hl; lia].
  - destruct ds as [|b ds] using rev_ind; [by destruct Hc|]. clear IHds.
    assert (Hb : 48 <= b <= 57).
    { destruct Hc as (_ & Hd & _). apply Forall_app in Hd as [_ Hd].
      inversion Hd; subst. by apply isDigit_range. }
    rewrite decValue_snoc. cbn [decDigitsF].
    destruct (decide (ds = [])) as [->|Hne].
    + change (decValue []) with 0. rewrite Z.mul_0_l, Z.add_0_l.
      destruct (Z.ltb_spec (b - 48) 10); [|lia].
      simpl. f_equal. lia.
    + destruct (decCanonical_snoc _ _ Hc Hne) as [Hc' H0].
      assert (0 < decValue ds) by (apply decValue_pos; auto; apply Hc').
      destruct (Z.ltb_spec (decValue ds * 10 + (b - 48)) 10); [lia|].
      rewrite (Z.div_add_l _ 10) by lia. rewrite (Z.div_small (b - 48)) by lia.
      rewrite Z.add_0_r, IH; auto.
      * do 2 f_equal.
        replace (decValue ds * 10 + (b - 48)) with (b - 48 + decValue ds * 10) by lia.
        rewrite Z.mod_add by lia. rewrite Z.mod_small by lia. lia.
      * rewrite length_app in Hl. simpl in Hl. lia.
Qed.

Lemma decCanonical_one n : 0 <= n < 10 -> decCanonical [48 + n] /\ decValue [48 + n] = n.
Proof.
  intros Hn. split; [|unfold decValue; cbn [fold_left]; lia].
  split_and!; [done| |cbn [length]; lia].
  constructor; [apply isDigit_range; lia|constructor].
Qed.

Lemma decDigitsF_canonical f : forall n,
  0 <= n < 10 ^ Z.of_nat (S f) ->
  decCanonical (decDigitsF (S f) n) /\ decValue (decDigitsF (S f) n) = n.
Proof.
  induction f as [|f IH]; intros n Hn; cbn [decDigitsF];
    destruct (Z.ltb_spec n 10); try (apply decCanonical_one; lia).
  - change (10 ^ Z.of_nat 1) with 10 in Hn. lia.
  - change ((if n / 10 <? 10 then [48 + n / 10]
             else decDigitsF f (n / 10 / 10) ++ [48 + (n / 10) mod 10]))
      with (decDigitsF (S f) (n / 10)).
    rewrite Nat2Z.inj_succ, Z.pow_succ_r in Hn by lia.
    assert (Hq : 0 <= n / 10 < 10 ^ Z.of_nat (S f)).
    { split; [apply Z.div_pos|apply Z.div_lt_upper_bound]; lia. }
    destruct (IH _ Hq) as [(Hne & Hd & Hz) Hv].
    pose proof (Z.div_mod n 10). pose proof (Z.mod_pos_bound n 10).
    split; [|rewrite decValue_snoc, Hv; lia].
    remember (decDigitsF (S f) (n / 10)) as ds. split_and!.
    + by destruct ds.
    + apply Forall_app. split; [done|]. constructor; [apply isDigit_range; lia|constructor].
    + intros _. rewrite byte_at_app_l by (by apply nonnil_length).
      destruct ds as [|b [|b' ds]]; [congruence| |apply Hz; simpl; lia].
      change (byte_at [b] 0) with b. unfold decValue in Hv. cbn [fold_left] in Hv. lia.
Qed.

Lemma decValue_lower ds :
  decCanonical ds -> (1 < length ds)%nat -> 10 ^ (Z.of_nat (length ds) - 1) <= decValue ds.
Proof.
  induction ds as [|b ds IH] using rev_ind; intros Hc Hl; [simpl in Hl; lia|].
  rewrite length_app in *. simpl in *. rewrite decValue_snoc.
  assert (Hb : 48 <= b <= 57).
  { destruct Hc as (_ & Hd & _). apply Forall_app in Hd as [_ Hd].
    inversion Hd; subst. by apply isDigit_range. }
  assert (Hne : ds <> []) by (destruct ds; simpl in *; [lia|done]).
  destruct (decCanonical_snoc _ _ Hc Hne) as [Hc' H0].
  destruct (decide (1 < length ds)%nat).
  - specialize (IH Hc' ltac:(done)).
    replace (Z.of_nat (length ds + 1) - 1) with (Z.succ (Z.of_nat (length ds) - 1)) by lia.
    rewrite Z.pow_succ_r by lia. lia.
  - assert (0 < decValue ds) by (apply decValue_pos; auto; apply Hc').
    replace (Z.of_nat (length ds + 1) - 1) with 1 by (destruct ds; simpl in *; [congruence|lia]).
    lia.
Qed.

Lemma decCanonical_short ds :
  decCanonical ds -> decValue ds <= UINT32_MAX -> (length ds <= 20)%nat.
Proof.
  intros Hc Hv. destruct (decide (1 < length ds)%nat); [|lia].
  pose proof (decValue_lower ds Hc ltac:(done)) as Hlow.
  destruct (decide (length ds <= 20)%nat); [done|exfalso].
  assert (10 ^ 20 <= 10 ^ (Z.of_nat (length ds) - 1)) by (apply Z.pow_le_mono_r; lia).
  unfold UINT32_MAX in Hv. lia.
Qed.

Lemma decDigits_spec n :
  0 <= n <= UINT32_MAX -> decCanonical (decDigits n) /\ decValue (decDigits n) = n.
Proof.
  intros H. apply (decDigitsF_canonical 19). unfold UINT32_MAX in H.
  assert (4294967295 < 10 ^ Z.of_nat 20) by reflexivity. lia.
Qed.

Lemma decDigits_value ds :
  decCanonical ds -> decValue ds <= UINT32_MAX -> decDigits (decValue ds) = ds.
Proof. intros. by apply decDigitsF_value, decCanonical_short. Qed.

(** The bytes after a number do not continue it. *)
Definition noDigit (r : list Z) : Prop :=
  match r with [] => True | b :: _ => isDigit b = false end.

Lemma decimalLoop_spec l : forall v n r, 0 <= v ->
  (decimalLoop l v = Some (n, r) /\ v <= UINT32_MAX) <->
  exists ds, l = ds ++ r /\ Forall (fun b => isDigit b = true) ds /\ noDigit r /\
    n = fold_left (fun v b => v * 10 + (b - 48)) ds v /\ n <= UINT32_MAX.
Proof.
  induction l as [|b l IH]; intros v n r Hv; simpl.
  - split.
    + intros [[= <- <-] Hm]. exists []. by split_and!.
    + intros ([|] & E & _ & _ & -> & Hn); simplify_eq/=. by split.
  - destruct (isDigit b) eqn:Eb.
    + assert (Hb := proj1 (isDigit_range b) Eb).
      destruct (Z.ltb_spec UINT32_MAX (v * 10 + (b - 48))) as [Hbig|Hok].
      * split; [intros [[=] _]|]. intros ([|d ds] & E & Hd & Hnd & -> & Hn).
        { simplify_eq/=. simpl in Hnd. congruence. }
        simplify_eq/=. inversion Hd; subst.
        pose proof (fold_dec_mono ds (v * 10 + (d - 48)) _ ltac:(done) ltac:(lia) eq_refl). lia.
      * specialize (IH (v * 10 + (b - 48)) n r ltac:(lia)). split.
        { intros [E Hm]. destruct (proj1 IH (conj E Hok)) as (ds & -> & Hd & Hr & -> & Hn).
          exists (b :: ds). split_and!; auto. }
        intros ([|d ds] & E & Hd & Hnd & En & Hn); simplify_eq/=; [congruence|].
        inversion Hd; subst. split; [|lia]. apply IH. by exists ds.
    + split.
      * intros [[= <- <-] Hm]. exists []. by split_and!.
      * intros ([|d ds] & E & Hd & _ & -> & Hn); simplify_eq/=; [by split|].
        inversion Hd; subst. congruence.
Qed.

(** The decimal parser inverts the printer and accepts only its output. *)
Lemma decimal_spec l n r :
  decimal l = Some (n, r) <->
  l = decDigits n ++ r /\ noDigit r /\ 0 <= n <= UINT32_MAX.
Proof.
  unfold decimal. split.
  - destruct (decimalLoop l 0) as [[v rest]|] eqn:E; [|discriminate].
    assert (Hz : 0 <= UINT32_MAX) by done. assert (H00 : 0 <= 0) by done.
    destruct (proj1 (decimalLoop_spec l 0 v rest H00) (conj E Hz))
      as (ds & -> & Hd & Hr & Hv & Hn).
    rewrite length_app. replace (length ds + length rest - length rest)%nat with (length ds) by lia.
    intros H. destruct (Nat.eqb_spec (length ds) 0) as [|Hne]; [discriminate|].
    assert (Hnil : ds <> []) by (destruct ds; done).
    assert (Hc : decCanonical ds).
    { split_and!; auto. intros Hl. destruct (Nat.ltb_spec 1 (length ds)); [|lia].
      simpl in H. destruct (Z.eqb_spec (byte_at (ds ++ rest) 0) 48); [discriminate|].
      rewrite byte_at_app_l in n0 by lia. done. }
    assert (v = n /\ rest = r) as [-> ->].
    { destruct ((1 <? length ds)%nat && (byte_at (ds ++ rest) 0 =? 48)); simpl in H; by simplify_eq. }
    change (fold_left _ ds 0) with (decValue ds) in Hv. subst n.
    rewrite decDigits_value by auto. split_and!; auto.
    unfold decValue. apply (fold_dec_mono ds 0 _ Hd); auto; lia.
  - intros (-> & Hr & Hn). destruct (decDigits_spec n Hn) as [(Hne & Hd & Hz) Hv].
    assert (E : decimalLoop (decDigits n ++ r) 0 = Some (n, r)).
    { apply (decimalLoop_spec _ 0); [lia|]. exists (decDigits n). split_and!; auto. lia. }
    rewrite E, length_app.
    replace (length (decDigits n) + length r - length r)%nat with (length (decDigits n)) by lia.
    destruct (Nat.eqb_spec (length (decDigits n)) 0) as [H0|H0].
    { by apply nil_length_inv in H0. }
    destruct (Nat.ltb_spec 1 (length (decDigits n))); [|done].
    simpl. rewrite byte_at_app_l by lia.
    destruct (Z.eqb_spec (byte_at (decDigits n) 0) 48); [|done]. by apply Hz in e.
Qed.

(** ** Lower-case hexadecimal *)

(** Finite case analysis on small integers by evaluation. *)
Definition zrange (n : nat) : list Z := map Z.of_nat (seq 0 n).

Lemma zrange_in n z : 0 <= z < Z.of_nat n -> In z (zrange n).
Proof.
  intros H. unfold zrange. rewrite <- (Z2Nat.id z) by lia.
  apply in_map, in_seq. lia.
Qed.

Lemma zrange_forall n (p : Z -> bool) :
  forallb p (zrange n) = true -> forall z, 0 <= z < Z.of_nat n -> p z = true.
Proof. rewrite forallb_forall. intros H z Hz. by apply H, zrange_in. Qed.

Lemma zrange_forall2 n m (p : Z -> Z -> bool) :
  forallb (fun a => forallb (p a) (zrange m)) (zrange n) = true ->
  forall a b, 0 <= a < Z.of_nat n -> 0 <= b < Z.of_nat m -> p a b = true.
Proof.
  intros H a b Ha Hb. apply (zrange_forall m (p a)); auto.
  by apply (zrange_forall n (fun a => forallb (p a) (zrange m))).
Qed.

Definition hexChar (n : Z) : Z := byte_at hexAlphabet (Z.to_nat n).

Lemma hexValue_char n : 0 <= n < 16 -> hexValue (hexChar n) = n.
Proof.
  intros Hn. apply Z.eqb_eq.
  by apply (zrange_forall 16 (fun n => hexValue (hexChar n) =? n)).
Qed.

Lemma hexValue_range c : hexValue c < 0 \/ (0 <= hexValue c < 16 /\ c = hexChar (hexValue c)).
Proof.
  unfold hexValue, isDigit.
  destruct (Z.leb_spec 48 c), (Z.leb_spec c 57), (Z.leb_spec 97 c), (Z.leb_spec c 102);
    simpl; try lia; right; (split; [lia|]); unfold hexChar.
  - assert (H' : forall d, 0 <= d < Z.of_nat 10 -> (byte_at hexAlphabet (Z.to_nat d) =? 48 + d) = true)
      by by apply zrange_forall.
    specialize (H' (c - 48) ltac:(lia)). apply Z.eqb_eq in H'. lia.
  - assert (H' : forall d, 0 <= d < Z.of_nat 6 -> (byte_at hexAlphabet (Z.to_nat (d + 10)) =? 97 + d) = true)
      by by apply zrange_forall.
    specialize (H' (c - 97) ltac:(lia)). apply Z.eqb_eq in H'. lia.
Qed.

Lemma hexPair_byte b :
  isByte b -> u8 (Z.lor (Z.shiftl (Z.shiftr b 4) 4) (Z.land b 15)) = b /\
  0 <= Z.shiftr b 4 < 16 /\ 0 <= Z.land b 15 < 16.
Proof.
  intros Hb. assert (H : (u8 (Z.lor (Z.shiftl (Z.shiftr b 4) 4) (Z.land b 15)) =? b) &&
    (0 <=? Z.shiftr b 4) && (Z.shiftr b 4 <? 16) &&
    (0 <=? Z.land b 15) && (Z.land b 15 <? 16) = true).
  { apply (zrange_forall 256 (fun b => (u8 (Z.lor (Z.shiftl (Z.shiftr b 4) 4) (Z.land b 15)) =? b) &&
    (0 <=? Z.shiftr b 4) && (Z.shiftr b 4 <? 16) &&
    (0 <=? Z.land b 15) && (Z.land b 15 <? 16))); [by vm_compute|]. unfold isByte in Hb. lia. }
  rewrite !andb_true_iff, Z.eqb_eq, !Z.leb_le, !Z.ltb_lt in H. lia.
Qed.

Lemma hexPair_inv h l :
  0 <= h < 16 -> 0 <= l < 16 ->
  let b := u8 (Z.lor (Z.shiftl h 4) l) in
  isByte b /\ Z.shiftr b 4 = h /\ Z.land b 15 = l.
Proof.
  intros Hh Hl b. split; [apply u8_range|].
  assert (H : (Z.shiftr b 4 =? h) && (Z.land b 15 =? l) = true).
  { apply (zrange_forall2 16 16 (fun h l => let b := u8 (Z.lor (Z.shiftl h 4) l) in
      (Z.shiftr b 4 =? h) && (Z.land b 15 =? l))); [by vm_compute|lia..]. }
  by rewrite andb_true_iff, !Z.eqb_eq in H.
Qed.

Lemma encodeLowerHex_length b : length (encodeLowerHex b) = (2 * length b)%nat.
Proof. induction b; simpl; auto. rewrite IHb. lia. Qed.

Lemma decodeHexPairs_encode b : bytesOk b -> decodeHexPairs (encodeLowerHex b) = Some b.
Proof.
  induction 1 as [|x b Hx _ IH]; [done|].
  destruct (hexPair_byte x Hx) as (E & Hh & Hl).
  cbn [encodeLowerHex decodeHexPairs]. fold (hexChar (Z.shiftr x 4)) (hexChar (Z.land x 15)).
  rewrite !hexValue_char by lia.
  destruct (Z.ltb_spec (Z.shiftr x 4) 0), (Z.ltb_spec (Z.land x 15) 0); try lia.
  simpl orb. cbv iota. rewrite IH. simpl. by rewrite E.
Qed.

Lemma decodeHexPairs_sound n : forall s b,
  length s = (2 * n)%nat -> decodeHexPairs s = Some b ->
  s = encodeLowerHex b /\ bytesOk b /\ length b = n.
Proof.
  induction n as [|n IH]; intros s b Hl E.
  - destruct s; [|simpl in Hl; lia]. simplify_eq/=. split_and!; auto. constructor.
  - destruct s as [|h [|l s]]; simpl in Hl; try lia. cbn [decodeHexPairs] in E.
    destruct (Z.ltb_spec (hexValue h) 0); [done|].
    destruct (Z.ltb_spec (hexValue l) 0); [done|]. simpl in E.
    destruct (decodeHexPairs s) as [b'|] eqn:Es; simplify_eq/=.
    destruct (IH s b' ltac:(lia) Es) as (-> & Hb & Hlen).
    destruct (hexValue_range h) as [|[Hh Eh]]; [lia|].
    destruct (hexValue_range l) as [|[Hlr El]]; [lia|].
    destruct (hexPair_inv _ _ Hh Hlr) as (Hby & E1 & E2).
    split_and!; [|by constructor|lia].
    rewrite E1, E2. fold (hexChar (hexValue h)) (hexChar (hexValue l)). by rewrite <- Eh, <- El.
Qed.

Lemma decodeLowerHex_spec s n b :
  decodeLowerHex s n = Some b <-> s = encodeLowerHex b /\ bytesOk b /\ length b = n.
Proof.
  unfold decodeLowerHex. split.
  - destruct (Nat.eqb_spec (length s) (n * 2)); [|done].
    apply decodeHexPairs_sound. lia.
  - intros (-> & Hb & <-). rewrite encodeLowerHex_length.
    destruct (Nat.eqb_spec (2 * length b) (length b * 2)); [|lia].
    by apply decodeHexPairs_encode.
Qed.

Lemma encodeLowerHex_chars b : bytesOk b -> Forall spanChar (encodeLowerHex b).
Proof.
  assert (H : forall n, 0 <= n < 16 -> spanChar (hexChar n)).
  { intros n Hn. assert (E : (32 <=? hexChar n) && (hexChar n <=? 126) &&
      negb (hexChar n =? 34) && negb (hexChar n =? 92) = true).
    { by apply (zrange_forall 16 (fun n => (32 <=? hexChar n) && (hexChar n <=? 126) &&
      negb (hexChar n =? 34) && negb (hexChar n =? 92))). }
    rewrite !andb_true_iff, !negb_true_iff, !Z.eqb_neq, !Z.leb_le in E.
    unfold spanChar. lia. }
  induction 1 as [|x b Hx _ IH]; [constructor|].
  destruct (hexPair_byte x Hx) as (_ & ? & ?). simpl.
  constructor; [by apply H|]. constructor; [by apply H|done].
Qed.

(** ** Base64url *)

Definition b64Char (v : Z) : Z :=
  if v <? 26 then 65 + v else if v <? 52 then 97 + (v - 26)
  else if v <? 62 then 48 + (v - 52) else if v =? 62 then 45 else 95.

(** The unpadded base64url encoding of RFC 4648. *)
Fixpoint base64url (b : list Z) : list Z :=
  match b with
  | x :: y :: z :: rest =>
      b64Char (x / 4) :: b64Char (x mod 4 * 16 + y / 16) ::
      b64Char (y mod 16 * 4 + z / 64) :: b64Char (z mod 64) :: base64url rest
  | [x; y] => [b64Char (x / 4); b64Char (x mod 4 * 16 + y / 16); b64Char (y mod 16 * 4)]
  | [x] => [b64Char (x / 4); b64Char (x mod 4 * 16)]
  | [] => []
  end.

Lemma b64_char_value v : 0 <= v < 64 -> base64Value (b64Char v) = v.
Proof.
  intros Hv. apply Z.eqb_eq.
  by apply (zrange_forall 64 (fun v => base64Value (b64Char v) =? v)).
Qed.

Lemma base64Value_range c :
  base64Value c < 0 \/ (0 <= base64Value c < 64 /\ c = b64Char (base64Value c)).
Proof.
  unfold base64Value, isDigit, b64Char.
  destruct (Z.leb_spec 65 c), (Z.leb_spec c 90), (Z.leb_spec 97 c), (Z.leb_spec c 122),
    (Z.leb_spec 48 c), (Z.leb_spec c 57), (Z.eqb_spec c 45), (Z.eqb_spec c 95);
    simpl; try lia; right; (split; [lia|]);
    repeat match goal with |- context [?a <? ?b] => destruct (Z.ltb_spec a b) end;
    repeat match goal with |- context [?a =? ?b] => destruct (Z.eqb_spec a b) end; lia.
Qed.

(** The three output bytes of a group, arithmetically. *)
Lemma b64First_eq a b : 0 <= a < 64 -> 0 <= b < 64 -> b64First a b = a * 4 + b / 16.
Proof.
  intros Ha Hb. apply Z.eqb_eq.
  apply (zrange_forall2 64 64 (fun a b => b64First a b =? a * 4 + b / 16)); [by vm_compute|lia..].
Qed.
Lemma b64Second_eq b c : 0 <= b < 64 -> 0 <= c < 64 -> b64Second b c = b mod 16 * 16 + c / 4.
Proof.
  intros Hb Hc. apply Z.eqb_eq.
  apply (zrange_forall2 64 64 (fun b c => b64Second b c =? b mod 16 * 16 + c / 4));
    [by vm_compute|lia..].
Qed.
Lemma b64Third_eq c d : 0 <= c < 64 -> 0 <= d < 64 -> b64Third c d = c mod 4 * 64 + d.
Proof.
  intros Hc Hd. apply Z.eqb_eq.
  apply (zrange_forall2 64 64 (fun c d => b64Third c d =? c mod 4 * 64 + d));
    [by vm_compute|lia..].
Qed.
Lemma land3 c : Z.land c 3 = c mod 4.
Proof. change 3 with (Z.ones 2). by rewrite Z.land_ones. Qed.
Lemma land15 c : Z.land c 15 = c mod 16.
Proof. change 15 with (Z.ones 4). by rewrite Z.land_ones. Qed.

(** Quotients and remainders by constants are linear for [lia] from here on. *)
Local Ltac Zify.zify_post_hook ::= Z.to_euclidean_division_equations.

Lemma cons_congr (x y : Z) l l' : x = y -> l = l' -> x :: l = y :: l'.
Proof. congruence. Qed.

(** One sextet of an accepted group. *)
Ltac b64_sextet c :=
  let H := fresh "H" in let E := fresh "E" in
  destruct (base64Value_range c) as [H|[H E]]; [lia|].

Ltac b64_chars :=
  cbn [base64url]; repeat apply cons_congr; try done;
  match goal with
  | E : ?c = b64Char (base64Value ?c) |- ?c = b64Char _ =>
      etransitivity; [exact E|f_equal; lia]
  end.

Ltac b64_guards H :=
  repeat match type of H with
  | context [?a <? 0] => destruct (Z.ltb_spec a 0); [discriminate H|]; cbn [orb] in H
  end.

Lemma group_first x y : isByte x -> isByte y ->
  b64First (x / 4) (x mod 4 * 16 + y / 16) = x.
Proof. unfold isByte. intros. rewrite b64First_eq by lia. lia. Qed.
Lemma group_second x y z : isByte x -> isByte y -> isByte z ->
  b64Second (x mod 4 * 16 + y / 16) (y mod 16 * 4 + z / 64) = y.
Proof. unfold isByte. intros. rewrite b64Second_eq by lia. lia. Qed.
Lemma group_third y z : isByte y -> isByte z ->
  b64Third (y mod 16 * 4 + z / 64) (z mod 64) = z.
Proof. unfold isByte. intros. rewrite b64Third_eq by lia. lia. Qed.

Lemma decodeGroups_encode n : forall b,
  (length b < n)%nat -> bytesOk b -> decodeGroups (base64url b) = Some b.
Proof.
  induction n as [|n IH]; intros b Hn Hb; [lia|].
  destruct b as [|x [|y [|z b]]]; [done|..].
  - inversion Hb as [|? ? Hx]; subst. unfold isByte in Hx. cbn [base64url decodeGroups].
    rewrite !b64_char_value by lia. rewrite land15.
    replace ((x mod 4 * 16) mod 16) with 0 by lia.
    destruct (Z.ltb_spec (x / 4) 0), (Z.ltb_spec (x mod 4 * 16) 0); try lia. simpl.
    do 2 f_equal. rewrite b64First_eq by lia. lia.
  - inversion Hb as [|? ? Hx Hb']; inversion Hb' as [|? ? Hy]; subst.
    unfold isByte in Hx, Hy. cbn [base64url decodeGroups].
    rewrite !b64_char_value by lia. rewrite land3.
    replace ((y mod 16 * 4) mod 4) with 0 by lia.
    destruct (Z.ltb_spec (x / 4) 0), (Z.ltb_spec (x mod 4 * 16 + y / 16) 0),
      (Z.ltb_spec (y mod 16 * 4) 0); try lia. simpl.
    rewrite b64First_eq, b64Second_eq by lia. do 2 f_equal; [lia|]. f_equal. lia.
  - inversion Hb as [|? ? Hx Hb1]; inversion Hb1 as [|? ? Hy Hb2];
      inversion Hb2 as [|? ? Hz Hb3]; subst. cbn [base64url decodeGroups].
    assert (Hx' := Hx). assert (Hy' := Hy). assert (Hz' := Hz).
    unfold isByte in Hx', Hy', Hz'.
    rewrite !b64_char_value by lia.
    rewrite group_first, group_second, group_third by done.
    rewrite IH by (simpl in Hn; auto; lia).
    destruct (Z.ltb_spec (x / 4) 0), (Z.ltb_spec (x mod 4 * 16 + y / 16) 0),
      (Z.ltb_spec (y mod 16 * 4 + z / 64) 0), (Z.ltb_spec (z mod 64) 0); try lia. done.
Qed.

Lemma decodeGroups_sound n : forall s b,
  (length s < n)%nat -> decodeGroups s = Some b -> s = base64url b /\ bytesOk b.
Proof.
  induction n as [|n IH]; intros s b Hn E; [lia|].
  destruct s as [|a [|b0 [|c [|d s]]]]; cbn [decodeGroups] in E; try discriminate.
  - simplify_eq. split; [done|constructor].
  - b64_guards E. rewrite land15 in E. destruct (Z.eqb_spec (base64Value b0 mod 16) 0); [|done].
    simplify_eq/=. b64_sextet a. b64_sextet b0. rewrite b64First_eq by lia.
    split; [|constructor; [unfold isByte; lia|constructor]]. b64_chars.
  - b64_guards E. rewrite land3 in E. destruct (Z.eqb_spec (base64Value c mod 4) 0); [|done].
    simplify_eq/=. b64_sextet a. b64_sextet b0. b64_sextet c.
    rewrite b64First_eq, b64Second_eq by lia.
    split; [|repeat constructor; unfold isByte; lia]. b64_chars.
  - b64_guards E. destruct (decodeGroups s) as [out|] eqn:Es; simplify_eq/=.
    destruct (IH s out ltac:(lia) Es) as [-> Hok].
    b64_sextet a. b64_sextet b0. b64_sextet c. b64_sextet d.
    rewrite b64First_eq, b64Second_eq, b64Third_eq by lia.
    split; [|repeat (constructor; [unfold isByte; lia|]); done]. b64_chars.
Qed.

Lemma base64url_length n : forall b, (length b < n)%nat ->
  decodedBytes (length (base64url b)) = length b /\
  (length (base64url b) mod 4)%nat <> 1%nat.
Proof.
  induction n as [|n IH]; intros b Hn; [lia|].
  destruct b as [|x [|y [|z b]]]; try (split; [reflexivity|discriminate]).
  destruct (IH b ltac:(simpl in Hn; lia)) as [E Ne].
  change (length (base64url (x :: y :: z :: b))) with (4 + length (base64url b))%nat.
  unfold decodedBytes in *.
  replace ((4 + length (base64url b)) / 4)%nat with (1 + length (base64url b) / 4)%nat
    by (rewrite (Nat.div_add_l 1 4) by lia; done).
  replace ((4 + length (base64url b)) mod 4)%nat with (length (base64url b) mod 4)%nat
    by (rewrite (Nat.Div0.add_mod 4), Nat.Div0.mod_same, Nat.add_0_l, Nat.Div0.mod_mod; done).
  simpl length. split; [lia|done].
Qed.

Lemma base64url_nonempty b : b <> [] -> base64url b <> [].
Proof. destruct b as [|x [|y [|z b]]]; done. Qed.

(** Base64url decoding accepts exactly the canonical unpadded encodings of
    the non-empty byte strings that fit the output buffer. *)
Theorem decodeBase64Url_canonical s cap b :
  decodeBase64Url s cap = Some b <->
  s = base64url b /\ bytesOk b /\ b <> [] /\ (length b <= cap)%nat.
Proof.
  unfold decodeBase64Url. split.
  - destruct (Nat.eqb_spec (length s) 0) as [|Hs]; [done|].
    destruct (Nat.eqb_spec (length s mod 4) 1); [done|]. simpl.
    destruct (Nat.ltb_spec cap (decodedBytes (length s))); [done|].
    destruct (decodeGroups s) as [out|] eqn:E; [|done]. simpl.
    destruct (Nat.eqb_spec (length out) (decodedBytes (length s))) as [El|]; [|done].
    intros [= <-].
    destruct (decodeGroups_sound (S (length s)) s out ltac:(lia) E) as [-> Hok].
    split_and!; auto; [|lia]. by intros ->.
  - intros (-> & Hok & Hne & Hcap).
    destruct (base64url_length (S (length b)) b ltac:(lia)) as [El Hm].
    destruct (Nat.eqb_spec (length (base64url b)) 0) as [E|].
    { exfalso. by apply (base64url_nonempty b Hne), nil_length_inv. }
    destruct (Nat.eqb_spec (length (base64url b) mod 4) 1); [done|]. simpl.
    rewrite El. destruct (Nat.ltb_spec cap (length b)); [lia|].
    rewrite (decodeGroups_encode (S (length b))) by (auto; lia). simpl.
    by rewrite Nat.eqb_refl.
Qed.
