(* ===== verification/OtaSemver.v ===== *)
(** * Semantic versions accepted by the updater

    The version grammar (three bounded numbers without leading zeros, optional
    dotted pre-release and build identifiers, at most 32 bytes) and the theorem
    that [validSemver] decides it. *)

From S2P Require Import Prelude FlashLayout OtaCodec OtaCodecFacts.

Definition identifierChar (b : Z) : bool := asciiAlphaNumeric b || (b =? 45).

Definition coreNumber (s : list Z) : Prop :=
  decCanonical s /\ decValue s <= semverComponentMax.

Definition buildIdentifier (s : list Z) : Prop :=
  s <> [] /\ Forall (fun b => identifierChar b = true) s.

(** A numeric pre-release identifier has no leading zero. *)
Definition preIdentifier (s : list Z) : Prop :=
  buildIdentifier s /\ (Forall (fun b => isDigit b = true) s -> decCanonical s).

Definition identifierOk (prerelease : bool) : list Z -> Prop :=
  if prerelease then preIdentifier else buildIdentifier.

Fixpoint dotted (ids : list (list Z)) : list Z :=
  match ids with
  | [] => []
  | [i] => i
  | i :: rest => i ++ 46 :: dotted rest
  end.

Definition versionSuffix (mark : Z) (ok : list Z -> Prop) (s : list Z) : Prop :=
  s = [] \/ exists ids, ids <> [] /\ Forall ok ids /\ s = mark :: dotted ids.

Definition Semver (s : list Z) : Prop :=
  (length s <= kBleOtaVersionMaximumBytes)%nat /\
  exists major minor patch pre build,
    s = major ++ 46 :: minor ++ 46 :: patch ++ pre ++ build /\
    coreNumber major /\ coreNumber minor /\ coreNumber patch /\
    versionSuffix 45 preIdentifier pre /\ versionSuffix 43 buildIdentifier build.

(** ** Identifiers *)

Definition atSeparator (r : list Z) : Prop :=
  match r with [] => True | b :: _ => b = 46 \/ b = 43 end.
Definition atBuild (r : list Z) : Prop :=
  match r with [] => True | b :: _ => b = 43 end.

Lemma scanIdentifier_sound l : forall num id n' r,
  scanIdentifier l num = Some (id, n', r) ->
  l = id ++ r /\ Forall (fun b => identifierChar b = true) id /\ atSeparator r /\
  n' = num && forallb isDigit id.
Proof.
  induction l as [|b l IH]; intros num id n' r H; simpl in H.
  - simplify_eq. split_and!; try done. simpl. by rewrite andb_true_r.
  - destruct (Z.eqb_spec b 46) as [->|]; [|destruct (Z.eqb_spec b 43) as [->|]]; simpl in H.
    1,2: simplify_eq; simpl; rewrite andb_true_r; split_and!; auto.
    destruct (negb (asciiAlphaNumeric b) && negb (b =? 45)) eqn:Eb; [done|].
    destruct (scanIdentifier l (if isDigit b then num else false)) as [[[id' n1] r']|] eqn:E;
      [|done]. simplify_eq.
    destruct (IH _ _ _ _ E) as (-> & Hid & Hr & ->). split_and!; auto.
    + constructor; auto. unfold identifierChar.
      destruct (asciiAlphaNumeric b), (b =? 45); done.
    + simpl. destruct (isDigit b); simpl; [done|by rewrite andb_false_r].
Qed.

Lemma identifierChar_not_sep b : identifierChar b = true -> b <> 46 /\ b <> 43.
Proof. intros H. split; intros ->; discriminate. Qed.

Lemma scanIdentifier_complete id : forall num r,
  Forall (fun b => identifierChar b = true) id -> atSeparator r ->
  scanIdentifier (id ++ r) num = Some (id, num && forallb isDigit id, r).
Proof.
  induction id as [|b id IH]; intros num r H Hr; simpl.
  - destruct r as [|c r]; simpl; [by rewrite andb_true_r|].
    destruct Hr as [-> | ->]; simpl; by rewrite andb_true_r.
  - inversion H as [|? ? Hb Hid]; subst. destruct (identifierChar_not_sep b Hb).
    destruct (Z.eqb_spec b 46); [done|]. destruct (Z.eqb_spec b 43); [done|]. simpl.
    unfold identifierChar in Hb.
    destruct (negb (asciiAlphaNumeric b) && negb (b =? 45)) eqn:Eb.
    { destruct (asciiAlphaNumeric b), (b =? 45); done. }
    rewrite IH by done. destruct (isDigit b); simpl; [done|by rewrite andb_false_r].
Qed.

Lemma forallb_digits s : forallb isDigit s = true <-> Forall (fun b => isDigit b = true) s.
Proof. rewrite forallb_forall, List.Forall_forall. done. Qed.

(** The guard of the loop is exactly [identifierOk]. *)
Lemma identifier_guard prerelease id :
  Forall (fun b => identifierChar b = true) id ->
  ((length id =? 0)%nat || prerelease && forallb isDigit id &&
     (1 <? length id)%nat && (byte_at id 0 =? 48)) = false <->
  identifierOk prerelease id.
Proof.
  intros Hid. unfold identifierOk, preIdentifier, buildIdentifier.
  destruct (Nat.eqb_spec (length id) 0) as [E|E].
  { apply nil_length_inv in E. subst. simpl. destruct prerelease; split; try done; tauto. }
  assert (id <> []) by (intros ->; done). simpl. destruct prerelease; simpl; [|tauto].
  destruct (forallb isDigit id) eqn:Ed.
  - apply forallb_digits in Ed. simpl.
    destruct (Nat.ltb_spec 1 (length id)); simpl.
    + destruct (Z.eqb_spec (byte_at id 0) 48); split; intros H'; try discriminate H'.
      * destruct H' as [_ Hc]. destruct (Hc Ed) as (_ & _ & Hz). by exfalso; apply Hz.
      * split; [done|]. intros _. by split_and!.
      * done.
    + split; [|done]. intros _. split; [done|]. intros _. split_and!; auto. lia.
  - split; [|done]. intros _. split; [done|]. intros Hd.
    apply forallb_digits in Hd. congruence.
Qed.

Lemma validSemverIdentifiers_sound f : forall pre l r,
  validSemverIdentifiers f pre l = Some r ->
  exists ids, ids <> [] /\ Forall (identifierOk pre) ids /\ l = dotted ids ++ r /\ atBuild r.
Proof.
  induction f as [|f IH]; intros pre l r H; [done|].
  destruct l as [|b0 l0]; [done|]. remember (b0 :: l0) as l.
  rewrite Heql in H at 1. cbn [validSemverIdentifiers] in H. rewrite <- Heql in H.
  destruct (scanIdentifier l true) as [[[id n'] rest]|] eqn:E; [|done].
  destruct (scanIdentifier_sound _ _ _ _ _ E) as (El & Hid & Hr & ->).
  rewrite andb_true_l in H.
  destruct (_ || _) eqn:Eg; [done|]. apply (identifier_guard pre id Hid) in Eg.
  destruct rest as [|sep rest].
  - simplify_eq. exists [id]. split_and!; auto.
  - destruct (Z.eqb_spec sep 43) as [->|Hsep].
    + simplify_eq. exists [id]. split_and!; [done|by constructor|done|done].
    + destruct Hr as [->|]; [|done].
      destruct rest as [|next rest]; [done|].
      destruct ((next =? 46) || (next =? 43)); [done|].
      destruct (IH _ _ _ H) as (ids & Hne & Hids & Hl & Hb).
      exists (id :: ids). split_and!; auto. rewrite El, Hl.
      destruct ids; [done|]. simpl. by rewrite <- app_assoc.
Qed.

Lemma identifierOk_build pre id : identifierOk pre id -> buildIdentifier id.
Proof. destruct pre; [by intros []|done]. Qed.

Lemma validSemverIdentifiers_complete pre r ids : forall f,
  ids <> [] -> Forall (identifierOk pre) ids -> atBuild r -> (length ids <= f)%nat ->
  validSemverIdentifiers f pre (dotted ids ++ r) = Some r.
Proof.
  intros f. revert ids. induction f as [|f IH]; intros ids Hne Hids Hr Hf.
  { destruct ids; [done|simpl in Hf; lia]. }
  destruct ids as [|id ids]; [done|]. inversion Hids as [|? ? Hid Hrest]; subst.
  destruct (identifierOk_build _ _ Hid) as [Hnn Hchars].
  assert (Hguard := proj2 (identifier_guard pre id Hchars) Hid).
  set (tail := match ids with [] => r | _ => 46 :: dotted ids ++ r end).
  assert (El : dotted (id :: ids) ++ r = id ++ tail).
  { subst tail. destruct ids; simpl; [done|]. by rewrite <- app_assoc. }
  assert (Hsep : atSeparator tail).
  { subst tail. destruct ids; [|by left]. destruct r; [done|]. by right. }
  rewrite El. destruct id as [|b0 id0]; [done|].
  change ((b0 :: id0) ++ tail) with (b0 :: (id0 ++ tail)). cbn [validSemverIdentifiers].
  change (b0 :: (id0 ++ tail)) with ((b0 :: id0) ++ tail).
  rewrite scanIdentifier_complete by done. rewrite andb_true_l, Hguard.
  subst tail. destruct ids as [|id1 ids].
  - destruct r as [|c r]; [done|]. simpl in Hr. by subst.
  - change (46 =? 43) with false. cbv iota.
    inversion Hrest as [|? ? Hid1 _]; subst.
    destruct (identifierOk_build _ _ Hid1) as [Hnn1 Hchars1].
    assert (exists c l', dotted (id1 :: ids) ++ r = c :: l' /\ identifierChar c = true)
      as (c & l' & Ec & Hc).
    { destruct id1 as [|c id1]; [done|]. inversion Hchars1; subst.
      exists c. destruct ids; simpl; eauto. }
    rewrite Ec. destruct (identifierChar_not_sep c Hc).
    destruct (Z.eqb_spec c 46); [done|]. destruct (Z.eqb_spec c 43); [done|]. simpl.
    rewrite <- Ec. apply IH; auto. simpl in Hf |- *. lia.
Qed.

Lemma dotted_length pre ids :
  Forall (identifierOk pre) ids -> (length ids <= S (length (dotted ids)))%nat.
Proof.
  induction 1 as [|id ids Hid _ IH]; simpl; [lia|].
  destruct (identifierOk_build _ _ Hid) as [Hnn _].
  destruct ids; [simpl; lia|]. rewrite length_app. simpl in *. lia.
Qed.

(** ** Version components *)

Lemma component_guard v d :
  0 <= d <= 9 -> 0 <= v ->
  ((semverComponentMax - d) / 10 <? v) = (semverComponentMax <? v * 10 + d).
Proof.
  intros Hd Hv. assert (E := Z.div_mod (semverComponentMax - d) 10 ltac:(lia)).
  assert (0 <= (semverComponentMax - d) mod 10 < 10) by (apply Z.mod_pos_bound; lia).
  destruct (Z.ltb_spec ((semverComponentMax - d) / 10) v),
    (Z.ltb_spec semverComponentMax (v * 10 + d)); lia.
Qed.

Lemma componentDigits_spec l : forall v r, 0 <= v ->
  (componentDigits l v = Some r /\ v <= semverComponentMax) <->
  exists ds, l = ds ++ r /\ Forall (fun b => isDigit b = true) ds /\ noDigit r /\
    fold_left (fun v b => v * 10 + (b - 48)) ds v <= semverComponentMax.
Proof.
  induction l as [|b l IH]; intros v r Hv; simpl.
  - split.
    + intros [[= <-] Hm]. exists []. by split_and!.
    + intros ([|] & E & _ & _ & Hn); simplify_eq/=. done.
  - destruct (isDigit b) eqn:Eb.
    + assert (Hb := proj1 (isDigit_range b) Eb). rewrite component_guard by lia.
      destruct (Z.ltb_spec semverComponentMax (v * 10 + (b - 48))) as [Hbig|Hok].
      * split; [intros [[=] _]|]. intros ([|d ds] & E & Hd & Hnd & Hn).
        { simplify_eq/=. congruence. }
        simplify_eq/=. inversion Hd; subst.
        pose proof (fold_dec_mono ds (v * 10 + (d - 48)) _ ltac:(done) ltac:(lia) eq_refl). lia.
      * specialize (IH (v * 10 + (b - 48)) r ltac:(lia)). split.
        { intros [E Hm]. destruct (proj1 IH (conj E Hok)) as (ds & -> & Hd & Hr & Hn).
          exists (b :: ds). split_and!; auto. }
        intros ([|d ds] & E & Hd & Hnd & Hn); simplify_eq/=; [congruence|].
        inversion Hd; subst. split; [|lia]. apply IH. by exists ds.
    + split.
      * intros [[= <-] Hm]. exists []. by split_and!.
      * intros ([|d ds] & E & Hd & _ & Hn); simplify_eq/=; [done|].
        inversion Hd; subst. congruence.
Qed.

Lemma versionComponent_spec l r :
  versionComponent l = Some r <->
  exists ds, l = ds ++ r /\ coreNumber ds /\ noDigit r.
Proof.
  unfold versionComponent, coreNumber. split.
  - destruct (componentDigits l 0) as [rest|] eqn:E; [|done]. simpl.
    assert (Hz : 0 <= semverComponentMax) by done. assert (H00 : 0 <= 0) by done.
    destruct (proj1 (componentDigits_spec l 0 rest H00) (conj E Hz)) as (ds & -> & Hd & Hr & Hn).
    rewrite length_app. replace (length ds + length rest - length rest)%nat with (length ds) by lia.
    destruct (Nat.eqb_spec (length ds) 0) as [|Hne]; [done|]. simpl. intros H.
    assert (Hc : decCanonical ds).
    { split_and!; auto; [by intros ->|]. intros Hl.
      destruct (Nat.ltb_spec 1 (length ds)); [|lia]. simpl in H.
      rewrite byte_at_app_l in H by lia.
      by destruct (Z.eqb_spec (byte_at ds 0) 48). }
    assert (rest = r) as -> by (destruct (_ && _); by simplify_eq). by exists ds.
  - intros (ds & -> & [Hc Hv] & Hr). destruct Hc as (Hne & Hd & Hz).
    assert (E : componentDigits (ds ++ r) 0 = Some r).
    { apply (componentDigits_spec _ 0 r ltac:(lia)). by exists ds. }
    rewrite E. simpl. rewrite length_app.
    replace (length ds + length r - length r)%nat with (length ds) by lia.
    assert (Hl := nonnil_length ds Hne).
    destruct (Nat.eqb_spec (length ds) 0); [lia|]. simpl.
    destruct (Nat.ltb_spec 1 (length ds)); [|done]. simpl.
    rewrite byte_at_app_l by lia. destruct (Z.eqb_spec (byte_at ds 0) 48); [|done].
    by apply Hz in e.
Qed.

Lemma versionDot_spec l r : versionDot l = Some r <-> l = 46 :: r.
Proof.
  destruct l as [|b l]; simpl; [done|].
  destruct (Z.eqb_spec b 46) as [->|]; split; congruence.
Qed.

Lemma versionTail_sound mark pre l r :
  versionTail mark pre l = Some r ->
  (atBuild r \/ r = l) /\
  exists s, l = s ++ r /\ versionSuffix mark (identifierOk pre) s /\
    (s = [] -> match r with [] => True | b :: _ => b <> mark end).
Proof.
  destruct l as [|b l]; cbn [versionTail]; intros H.
  - simplify_eq. split; [by right|]. exists []. split_and!; [done|by left|done].
  - destruct (Z.eqb_spec b mark) as [->|Hne].
    + destruct (validSemverIdentifiers_sound _ _ _ _ H) as (ids & Hn & Hids & -> & Hb).
      split; [by left|]. exists (mark :: dotted ids). split_and!; [done| |done].
      right. by exists ids.
    + simplify_eq. split; [by right|]. exists []. split_and!; [done|by left|done].
Qed.

Lemma versionTail_complete mark pre s r :
  versionSuffix mark (identifierOk pre) s -> atBuild r ->
  match r with [] => True | b :: _ => s = [] -> b <> mark end ->
  versionTail mark pre (s ++ r) = Some r.
Proof.
  intros [->|(ids & Hne & Hids & ->)] Hb Hm.
  - destruct r as [|b r]; [done|]. cbn [app versionTail].
    destruct (Z.eqb_spec b mark) as [E|]; [by apply Hm in E|done].
  - cbn [app versionTail]. rewrite Z.eqb_refl.
    apply validSemverIdentifiers_complete; auto.
    pose proof (dotted_length pre ids Hids). rewrite length_app. lia.
Qed.

Lemma versionSuffix_head mark ok s :
  versionSuffix mark ok s -> match s with [] => True | b :: _ => b = mark end.
Proof. by intros [->|(ids & _ & _ & ->)]. Qed.

Lemma validSemver_sound s : validSemver s = true -> Semver s.
Proof.
  unfold validSemver, Semver. intros H.
  destruct (Nat.eqb_spec (length s) 0); [done|].
  destruct (Nat.ltb_spec kBleOtaVersionMaximumBytes (length s)); [done|]. simpl in H.
  split; [done|].
  destruct (versionComponent s) as [r1|] eqn:E1; [|done]. simpl in H.
  destruct (versionDot r1) as [r2|] eqn:E2; [|done]. simpl in H.
  destruct (versionComponent r2) as [r3|] eqn:E3; [|done]. simpl in H.
  destruct (versionDot r3) as [r4|] eqn:E4; [|done]. simpl in H.
  destruct (versionComponent r4) as [r5|] eqn:E5; [|done]. simpl in H.
  destruct (versionTail 45 true r5) as [r6|] eqn:E6; [|done]. simpl in H.
  destruct (versionTail 43 false r6) as [r7|] eqn:E7; [|done].
  destruct r7; [|done].
  apply versionComponent_spec in E1 as (a & -> & Ha & _), E3 as (b & -> & Hb & _),
    E5 as (c & -> & Hc & _). apply versionDot_spec in E2 as ->, E4 as ->.
  apply versionTail_sound in E6 as (_ & pre & -> & Hpre & _), E7 as (_ & bld & -> & Hbld & _).
  exists a, b, c, pre, bld. rewrite app_nil_r. done.
Qed.

Lemma validSemver_complete s : Semver s -> validSemver s = true.
Proof.
  intros [Hl (a & b & c & pre & bld & -> & Ha & Hb & Hc & Hpre & Hbld)].
  unfold validSemver.
  destruct (Nat.eqb_spec (length (a ++ 46 :: b ++ 46 :: c ++ pre ++ bld)) 0) as [E|_].
  { apply nil_length_inv in E. by destruct a. }
  destruct (Nat.ltb_spec kBleOtaVersionMaximumBytes (length (a ++ 46 :: b ++ 46 :: c ++ pre ++ bld)));
    [lia|]. simpl.
  assert (Hb43 := versionSuffix_head _ _ _ Hbld). assert (Hp45 := versionSuffix_head _ _ _ Hpre).
  rewrite (proj2 (versionComponent_spec _ (46 :: b ++ 46 :: c ++ pre ++ bld))) by by exists a.
  simpl. rewrite (proj2 (versionComponent_spec _ (46 :: c ++ pre ++ bld))) by by exists b.
  simpl. rewrite (proj2 (versionComponent_spec _ (pre ++ bld))).
  2:{ exists c. split_and!; auto. destruct pre as [|x pre]; simpl in *; [|by subst].
      destruct bld; simpl in *; by subst. }
  simpl. rewrite (versionTail_complete 45 true pre bld Hpre).
  - simpl. rewrite <- (app_nil_r bld). by rewrite versionTail_complete.
  - done.
  - destruct bld; [done|]. simpl in Hb43. by subst.
Qed.

(** The version check accepts exactly the grammar: three numbers below
    2^63 without leading zeros, then optional pre-release and build parts of
    non-empty dotted identifiers, in at most 32 bytes. *)
Theorem validSemver_grammar s : validSemver s = true <-> Semver s.
Proof. split; [apply validSemver_sound|apply validSemver_complete]. Qed.

(** Every byte of an accepted version is a plain JSON string character. *)
Lemma dotted_forall (P : Z -> Prop) ids :
  P 46 -> Forall (Forall P) ids -> Forall P (dotted ids).
Proof.
  intros H46. induction 1 as [|id ids Hid _ IH]; simpl; [constructor|].
  destruct ids; [done|]. apply Forall_app. split; [done|]. by constructor.
Qed.

Lemma identifierChar_span b : identifierChar b = true -> spanChar b.
Proof.
  unfold identifierChar, asciiAlphaNumeric, isDigit, spanChar.
  rewrite !orb_true_iff, !andb_true_iff, !Z.leb_le, Z.eqb_eq. lia.
Qed.

Lemma coreNumber_chars s : coreNumber s -> Forall spanChar s.
Proof.
  intros [(_ & Hd & _) _]. eapply Forall_impl; [exact Hd|].
  intros b Hb. apply isDigit_range in Hb. unfold spanChar. lia.
Qed.

Lemma versionSuffix_chars mark pre s :
  spanChar mark -> versionSuffix mark (identifierOk pre) s -> Forall spanChar s.
Proof.
  intros Hm [->|(ids & _ & Hids & ->)]; [constructor|]. constructor; [done|].
  apply dotted_forall; [by unfold spanChar|].
  eapply Forall_impl; [exact Hids|]. intros id Hid.
  destruct (identifierOk_build _ _ Hid) as [_ Hc].
  eapply Forall_impl; [exact Hc|]. apply identifierChar_span.
Qed.

Lemma validSemver_chars s : validSemver s = true -> Forall spanChar s.
Proof.
  intros H. apply validSemver_sound in H
    as (_ & a & b & c & pre & bld & -> & Ha & Hb & Hc & Hpre & Hbld).
  assert (spanChar 46) by by unfold spanChar.
  apply Forall_app; split; [by apply coreNumber_chars|]. constructor; [done|].
  apply Forall_app; split; [by apply coreNumber_chars|]. constructor; [done|].
  apply Forall_app; split; [by apply coreNumber_chars|].
  apply Forall_app; split.
  - by apply (versionSuffix_chars 45 true).
  - by apply (versionSuffix_chars 43 false).
Qed.
