(* ===== verification/OtaManifest.v ===== *)
(** * Canonical manifests and requests

    Reference renderings of the release manifest and of the three request
    payloads, and the theorems that the parsers accept exactly these bytes. *)

From S2P Require Import Prelude FlashLayout OtaCodec OtaCodecFacts OtaSemver.

(** The canonical JSON text of a manifest. *)
Definition renderManifest (m : ParsedManifest) : list Z :=
  manifest0 ++ releaseId m ++ manifest1 ++ firmwareVersion m ++ manifest2 ++
  decDigits (manifestImageBytes m) ++ manifest3 ++ encodeLowerHex (manifestImageSha256 m) ++
  manifest4 ++ decDigits kBleOtaAppPartitionBytes ++
  manifest5 ++ decDigits kBleOtaChunkBytes ++ manifest6.

Definition manifestOk (m : ParsedManifest) : Prop :=
  validReleaseId (releaseId m) = true /\ validSemver (firmwareVersion m) = true /\
  0 < manifestImageBytes m <= kBleOtaMaximumImageBytes /\
  bytesOk (manifestImageSha256 m) /\ length (manifestImageSha256 m) = kBleOtaDigestBytes.

Lemma validReleaseId_chars s : validReleaseId s = true -> Forall spanChar s.
Proof.
  destruct s as [|b s]; [done|]. unfold validReleaseId.
  rewrite !andb_true_iff, forallb_forall. intros [[_ Hb] Hs].
  assert (Hc : forall x, asciiAlphaNumeric x = true -> spanChar x).
  { intros x Hx. apply identifierChar_span. unfold identifierChar. by rewrite Hx. }
  constructor; [by apply Hc|]. apply List.Forall_forall. intros x Hx.
  specialize (Hs x Hx). rewrite !orb_true_iff, !Z.eqb_eq in Hs.
  destruct Hs as [[[Hs|Hs]|Hs]|Hs]; [by apply Hc|unfold spanChar; lia..].
Qed.

Lemma validReleaseId_length s : validReleaseId s = true -> (length s <= 64)%nat.
Proof.
  destruct s as [|b s]; [done|]. unfold validReleaseId.
  rewrite !andb_true_iff, Nat.leb_le. tauto.
Qed.

Lemma validSemver_length s : validSemver s = true -> (length s <= 32)%nat.
Proof. intros H. by apply validSemver_sound in H as [Hl _]. Qed.

Lemma decDigits_length n : 0 <= n <= UINT32_MAX -> (length (decDigits n) <= 20)%nat.
Proof.
  intros H. destruct (decDigits_spec n H) as [Hc Hv]. apply decCanonical_short; [done|lia].
Qed.

Lemma manifestOk_bytes m : manifestOk m -> 0 <= manifestImageBytes m <= UINT32_MAX.
Proof.
  intros (_ & _ & H & _). unfold UINT32_MAX.
  assert (kBleOtaMaximumImageBytes < 4294967295) by done. lia.
Qed.

Lemma renderManifest_length m :
  manifestOk m -> (0 < length (renderManifest m) <= kBleOtaManifestMaximumBytes)%nat.
Proof.
  intros Hm. assert (Hb := manifestOk_bytes m Hm). destruct Hm as (Hr & Hv & _ & _ & Hl).
  apply validReleaseId_length in Hr. apply validSemver_length in Hv.
  assert (Hd := decDigits_length _ Hb). unfold renderManifest.
  rewrite !length_app, encodeLowerHex_length, Hl.
  change (length (decDigits kBleOtaAppPartitionBytes)) with 7%nat.
  change (length (decDigits kBleOtaChunkBytes)) with 4%nat.
  change (length manifest0) with 48%nat. change (length manifest1) with 22%nat.
  change (length manifest2) with 97%nat. change (length manifest3) with 17%nat.
  change (length manifest4) with 20%nat. change (length manifest5) with 15%nat.
  change (length manifest6) with 17%nat.
  unfold kBleOtaManifestMaximumBytes, kBleOtaDigestBytes. lia.
Qed.

(** Rewriting rules that run the parsers over a rendered text. *)
Lemma span_literal q lit rest s :
  lit = 34 :: q -> Forall spanChar s ->
  spanUntilQuote (s ++ lit ++ rest) = Some (s, lit ++ rest).
Proof. intros -> Hs. by apply spanUntilQuote_complete. Qed.

Lemma decimal_literal n c q lit rest :
  lit = c :: q -> isDigit c = false -> 0 <= n <= UINT32_MAX ->
  decimal (decDigits n ++ lit ++ rest) = Some (n, lit ++ rest).
Proof. intros -> Hc Hn. by apply decimal_spec. Qed.

Lemma parseManifest_complete m : manifestOk m -> parseManifest (renderManifest m) = Some m.
Proof.
  intros Hm. assert (Hlen := renderManifest_length m Hm). assert (Hb := manifestOk_bytes m Hm).
  destruct Hm as (Hr & Hv & Hi & Hok & Hl).
  unfold parseManifest.
  destruct (Nat.eqb_spec (length (renderManifest m)) 0); [lia|].
  destruct (Nat.ltb_spec kBleOtaManifestMaximumBytes (length (renderManifest m))); [lia|].
  simpl orb. cbv iota. unfold renderManifest.
  rewrite literal_app. cbn [mbind option_bind].
  rewrite (span_literal (tl manifest1)) by (done || by apply validReleaseId_chars).
  cbn [mbind option_bind]. rewrite literal_app. cbn [mbind option_bind].
  rewrite (span_literal (tl manifest2)) by (done || by apply validSemver_chars).
  cbn [mbind option_bind]. rewrite literal_app. cbn [mbind option_bind].
  rewrite (decimal_literal _ 44 (tl manifest3)) by done.
  cbn [mbind option_bind]. rewrite literal_app. cbn [mbind option_bind].
  rewrite (span_literal (tl manifest4)) by (done || by apply encodeLowerHex_chars).
  cbn [mbind option_bind]. rewrite literal_app. cbn [mbind option_bind].
  rewrite (decimal_literal _ 44 (tl manifest5)) by done.
  cbn [mbind option_bind]. rewrite literal_app. cbn [mbind option_bind].
  rewrite <- (app_nil_r manifest6) at 1.
  rewrite (decimal_literal _ 44 (tl manifest6)) by done.
  cbn [mbind option_bind]. rewrite literal_app. cbn [mbind option_bind].
  rewrite Hr, Hv. simpl orb. cbv iota.
  rewrite (proj2 (decodeLowerHex_spec _ _ (manifestImageSha256 m))) by done.
  cbn [mbind option_bind].
  destruct (Z.eqb_spec (manifestImageBytes m) 0); [lia|].
  destruct (Z.ltb_spec kBleOtaMaximumImageBytes (manifestImageBytes m)); [lia|].
  simpl. by destruct m.
Qed.

Lemma parseManifest_sound s m : parseManifest s = Some m -> s = renderManifest m /\ manifestOk m.
Proof.
  unfold parseManifest. intros H.
  destruct (_ || _) in H; [done|].
  destruct (literal manifest0 s) as [c1|] eqn:E1; [|done]. cbn [mbind option_bind] in H.
  destruct (spanUntilQuote c1) as [[rel c2]|] eqn:E2; [|done]. cbn [mbind option_bind] in H.
  destruct (literal manifest1 c2) as [c3|] eqn:E3; [|done]. cbn [mbind option_bind] in H.
  destruct (spanUntilQuote c3) as [[ver c4]|] eqn:E4; [|done]. cbn [mbind option_bind] in H.
  destruct (literal manifest2 c4) as [c5|] eqn:E5; [|done]. cbn [mbind option_bind] in H.
  destruct (decimal c5) as [[img c6]|] eqn:E6; [|done]. cbn [mbind option_bind] in H.
  destruct (literal manifest3 c6) as [c7|] eqn:E7; [|done]. cbn [mbind option_bind] in H.
  destruct (spanUntilQuote c7) as [[dig c8]|] eqn:E8; [|done]. cbn [mbind option_bind] in H.
  destruct (literal manifest4 c8) as [c9|] eqn:E9; [|done]. cbn [mbind option_bind] in H.
  destruct (decimal c9) as [[prt c10]|] eqn:E10; [|done]. cbn [mbind option_bind] in H.
  destruct (literal manifest5 c10) as [c11|] eqn:E11; [|done]. cbn [mbind option_bind] in H.
  destruct (decimal c11) as [[chk c12]|] eqn:E12; [|done]. cbn [mbind option_bind] in H.
  destruct (literal manifest6 c12) as [c13|] eqn:E13; [|done]. cbn [mbind option_bind] in H.
  destruct (Nat.eqb_spec (length c13) 0) as [Hnil|]; [|done].
  apply nil_length_inv in Hnil. subst c13. simpl in H.
  destruct (validReleaseId rel) eqn:Hrel; [|done]. destruct (validSemver ver) eqn:Hver; [|done].
  simpl in H. destruct (decodeLowerHex dig kBleOtaDigestBytes) as [sha|] eqn:Esha; [|done].
  cbn [mbind option_bind] in H.
  destruct (Z.eqb_spec img 0); [done|].
  destruct (Z.ltb_spec kBleOtaMaximumImageBytes img); [done|].
  destruct (Z.eqb_spec prt kBleOtaAppPartitionBytes) as [->|]; [|done].
  destruct (Z.eqb_spec chk kBleOtaChunkBytes) as [->|]; [|done]. simpl in H. simplify_eq.
  apply literal_spec in E1 as ->, E3 as ->, E5 as ->, E7 as ->, E9 as ->, E11 as ->, E13 as ->.
  apply spanUntilQuote_sound in E2 as (-> & _ & _), E4 as (-> & _ & _), E8 as (-> & _ & _).
  apply decimal_spec in E6 as (-> & _ & Himg), E10 as (-> & _ & _), E12 as (-> & _ & _).
  apply decodeLowerHex_spec in Esha as (-> & Hsha & Hlen).
  unfold renderManifest, manifestOk. cbn [releaseId firmwareVersion manifestImageBytes
    manifestImageSha256]. rewrite app_nil_r. split; [done|]. split_and!; auto; lia.
Qed.

(** A manifest is accepted exactly when its bytes are the canonical text of
    a well-formed manifest for this board: distinct accepted byte strings carry
    distinct manifests, and no field may be reordered, padded or re-spelled. *)
Theorem parseManifest_canonical s m :
  parseManifest s = Some m <-> s = renderManifest m /\ manifestOk m.
Proof.
  split; [apply parseManifest_sound|]. intros [-> Hm]. by apply parseManifest_complete.
Qed.

(** ** Requests *)

Definition renderIdRequest (updateId : list Z) : list Z :=
  idPrefix ++ encodeLowerHex updateId ++ idSuffix.

Definition renderWriteRequest (updateId : list Z) (offset : Z) (data : list Z) : list Z :=
  js "{'update_id':'" ++ encodeLowerHex updateId ++ js "','offset':" ++ decDigits offset ++
  js ",'data_b64':'" ++ base64url data ++ js "'}".

Definition digestOk (d : list Z) : Prop := bytesOk d /\ length d = kBleOtaDigestBytes.

Lemma b64Char_span v : 0 <= v < 64 -> spanChar (b64Char v).
Proof.
  intros Hv. assert (E : (32 <=? b64Char v) && (b64Char v <=? 126) &&
    negb (b64Char v =? 34) && negb (b64Char v =? 92) = true).
  { by apply (zrange_forall 64 (fun v => (32 <=? b64Char v) && (b64Char v <=? 126) &&
    negb (b64Char v =? 34) && negb (b64Char v =? 92))). }
  rewrite !andb_true_iff, !negb_true_iff, !Z.eqb_neq, !Z.leb_le in E. unfold spanChar. lia.
Qed.

Local Ltac Zify.zify_post_hook ::= Z.to_euclidean_division_equations.

Lemma base64url_chars n : forall b,
  (length b < n)%nat -> bytesOk b -> Forall spanChar (base64url b).
Proof.
  induction n as [|n IH]; intros b Hn Hb; [lia|].
  destruct b as [|x [|y [|z b]]]; [constructor| | |];
    repeat match goal with H : bytesOk (_ :: _) |- _ => inversion H; clear H; subst end;
    repeat match goal with
    | H : isByte ?v |- _ => unfold isByte in H; assert (0 <= v < 256) by exact H; clear H
    | H : Forall isByte (_ :: _) |- _ => inversion H; clear H; subst end;
    cbn [base64url]; repeat (constructor; [apply b64Char_span; lia|]); try constructor.
  apply IH; [simpl in Hn; lia|done].
Qed.

(** The reboot, finish and abort requests are accepted exactly in their
    canonical form, with the 32-byte update id in lower-case hexadecimal. *)
Theorem parseIdRequest_canonical p id :
  parseIdRequest (Some p) = Some id <-> p = renderIdRequest id /\ digestOk id.
Proof.
  unfold parseIdRequest, renderIdRequest, digestOk. split.
  - destruct (Nat.eqb_spec (length p) (length idPrefix + 64 + length idSuffix)) as [Hl|]; [|done].
    cbn [negb orb].
    destruct (beq (take (length idPrefix) p) idPrefix) eqn:E1; [|intros H; discriminate H].
    destruct (beq (drop (length p - length idSuffix) p) idSuffix) eqn:E2; [|intros H; discriminate H].
    apply beq_eq in E1, E2. cbn [negb orb]. intros H.
    apply decodeLowerHex_spec in H as (Eh & Hok & Hlen). split; [|done].
    rewrite <- (take_drop (length idPrefix) p) at 1. rewrite E1. f_equal.
    rewrite <- Eh, <- E2, Hl. unfold slice.
    replace (length idPrefix + 64 + length idSuffix - length idSuffix)%nat
      with (length idPrefix + 64)%nat by lia.
    rewrite <- drop_drop. by rewrite take_drop.
  - intros (-> & Hok & Hlen).
    assert (Hh : length (encodeLowerHex id) = 64%nat)
      by (rewrite encodeLowerHex_length, Hlen; done).
    rewrite !length_app, Hh.
    replace (length idPrefix + (64 + length idSuffix))%nat
      with (length idPrefix + 64 + length idSuffix)%nat by lia.
    rewrite Nat.eqb_refl. cbn [negb orb].
    rewrite take_app_length, beq_refl.
    replace (length idPrefix + 64 + length idSuffix - length idSuffix)%nat
      with (length (idPrefix ++ encodeLowerHex id)) by (rewrite length_app, Hh; lia).
    rewrite app_assoc, drop_app_length, beq_refl. cbn [negb orb].
    rewrite <- app_assoc, slice_skip, Nat.sub_diag, slice_here by (done || lia).
    by apply decodeLowerHex_spec.
Qed.

Lemma parseWriteRequest_render id off data :
  digestOk id -> 0 <= off <= UINT32_MAX -> bytesOk data -> data <> [] ->
  parseWriteRequest (Some (renderWriteRequest id off data)) = Some (id, off, base64url data).
Proof.
  intros [Hok Hlen] Hoff Hd Hne. unfold parseWriteRequest, renderWriteRequest.
  assert (Hh : length (encodeLowerHex id) = 64%nat)
    by (rewrite encodeLowerHex_length, Hlen; done).
  cbn [mbind option_bind]. rewrite literal_app. cbn [mbind option_bind].
  rewrite length_app, Hh.
  match goal with |- context [(?a <? 64)%nat] => destruct (Nat.ltb_spec a 64); [lia|] end.
  rewrite <- Hh, take_app_length, drop_app_length.
  rewrite (proj2 (decodeLowerHex_spec _ _ id)) by done.
  cbn [mbind option_bind]. rewrite literal_app. cbn [mbind option_bind].
  rewrite (decimal_literal _ 44 (tl (js ",'data_b64':'"))) by done.
  cbn [mbind option_bind]. rewrite literal_app. cbn [mbind option_bind].
  rewrite <- (app_nil_r (js "'}")) at 1.
  rewrite (span_literal (tl (js "'}"))) by (done || (apply (base64url_chars (S (length data))); [lia|done])).
  cbn [mbind option_bind]. rewrite literal_app. cbn [mbind option_bind].
  destruct (Nat.eqb_spec (length (base64url data)) 0) as [E|]; [|done].
  by apply nil_length_inv, base64url_nonempty in E.
Qed.

Lemma parseWriteRequest_sound p id off encoded cap data :
  parseWriteRequest (Some p) = Some (id, off, encoded) ->
  decodeBase64Url encoded cap = Some data ->
  p = renderWriteRequest id off data /\ digestOk id /\ 0 <= off <= UINT32_MAX /\
  bytesOk data /\ data <> [] /\ (length data <= cap)%nat.
Proof.
  unfold parseWriteRequest. cbn [mbind option_bind]. intros H Hdata.
  destruct (literal (js "{'update_id':'") p) as [c1|] eqn:E1; [|done].
  cbn [mbind option_bind] in H. destruct (Nat.ltb_spec (length c1) 64); [done|].
  destruct (decodeLowerHex (take 64 c1) kBleOtaDigestBytes) as [id'|] eqn:Eid; [|done].
  cbn [mbind option_bind] in H.
  destruct (literal (js "','offset':") (drop 64 c1)) as [c2|] eqn:E2; [|done].
  cbn [mbind option_bind] in H.
  destruct (decimal c2) as [[off' c3]|] eqn:E3; [|done]. cbn [mbind option_bind] in H.
  destruct (literal (js ",'data_b64':'") c3) as [c4|] eqn:E4; [|done].
  cbn [mbind option_bind] in H.
  destruct (spanUntilQuote c4) as [[enc c5]|] eqn:E5; [|done]. cbn [mbind option_bind] in H.
  destruct (literal (js "'}") c5) as [c6|] eqn:E6; [|done]. cbn [mbind option_bind] in H.
  destruct (Nat.eqb_spec (length c6) 0) as [Hn|]; [|done]. apply nil_length_inv in Hn. subst c6.
  destruct (length enc =? 0)%nat; [done|]. simpl in H. simplify_eq.
  apply literal_spec in E1 as ->, E2 as E2', E4 as ->, E6 as ->.
  apply decimal_spec in E3 as (-> & _ & Hoff). apply spanUntilQuote_sound in E5 as (-> & _ & _).
  apply decodeLowerHex_spec in Eid as (Ehex & Hok & Hlen).
  apply decodeBase64Url_canonical in Hdata as (-> & Hd & Hne & Hcap).
  split; [|done].
  unfold renderWriteRequest. f_equal. rewrite <- Ehex. rewrite app_nil_r in E2'.
  rewrite <- E2'. by rewrite take_drop.
Qed.

(** A write request with its data decoded is accepted exactly in its
    canonical form, and then yields the id, the offset and the data it renders. *)
Theorem parseWriteRequest_canonical p cap id off data :
  (exists encoded, parseWriteRequest (Some p) = Some (id, off, encoded) /\
                   decodeBase64Url encoded cap = Some data) <->
  p = renderWriteRequest id off data /\ digestOk id /\ 0 <= off <= UINT32_MAX /\
  bytesOk data /\ data <> [] /\ (length data <= cap)%nat.
Proof.
  split.
  - intros (enc & H & Hd). by eapply parseWriteRequest_sound.
  - intros (-> & Hid & Hoff & Hok & Hne & Hcap). exists (base64url data). split.
    + by apply parseWriteRequest_render.
    + by apply decodeBase64Url_canonical.
Qed.
