(* ===== verification/OtaPlatform.v ===== *)
(** * The updater's platform boundary (src/src/kitsu_ble_ota.h, .cpp)

    [BleOtaPlatform] is the virtual interface the update machine is written
    against.  Three instances are given: the production adapter over the ESP-IDF
    calls (a parameter), a wrapper that logs every call, which is what the
    safety theorems observe, and the laws an honest flash obeys. *)

From S2P Require Import Prelude FlashLayout OtaCodec.

Open Scope kitsu_scope.

(** [struct BleOtaPartition]. *)
Record BleOtaPartition := mkOtaPart {
  op_label : string;
  op_address : Z;
  op_size : Z;
  op_subtype : Z;
}.

#[export] Instance BleOtaPartition_eq_dec : EqDecision BleOtaPartition.
Proof. solve_decision. Defined.

Definition noPartition : BleOtaPartition := mkOtaPart EmptyString 0 0 0xff.

Inductive BleOtaBootState := BootUnknown | BootNew | BootPendingVerify | BootValid
  | BootInvalid | BootAborted.

#[export] Instance BleOtaBootState_eq_dec : EqDecision BleOtaBootState.
Proof. solve_decision. Defined.

(** [class BleOtaPlatform]: every call may change the outside world [W]. *)
Class BleOtaPlatform (W : Type) := {
  resolvePartitions : M W (option (BleOtaPartition * BleOtaPartition));
  readPartition : BleOtaPartition -> Z -> nat -> M W (option (list Z));
  erasePartition : BleOtaPartition -> Z -> Z -> M W bool;
  writePartition : BleOtaPartition -> Z -> list Z -> M W bool;
  verifyEspApplication : BleOtaPartition -> Z -> M W bool;
  verifyEd25519 : list Z -> list Z -> list Z -> M W bool;
  bootState : BleOtaPartition -> M W BleOtaBootState;
  setBootPartition : BleOtaPartition -> M W bool;
  markRunningValid : M W bool;
  rollbackRunningAndRestart : M W bool;
  restart : M W unit;
}.

(** ** Logging wrapper *)

Inductive OtaEvent :=
| EvResolve (result : option (BleOtaPartition * BleOtaPartition))
| EvRead (p : BleOtaPartition) (off : Z) (n : nat) (result : option (list Z))
| EvErase (p : BleOtaPartition) (off n : Z) (ok : bool)
| EvWrite (p : BleOtaPartition) (off : Z) (bytes : list Z) (ok : bool)
| EvVerifyApp (p : BleOtaPartition) (n : Z) (ok : bool)
| EvVerifySig (key message signature : list Z) (ok : bool)
| EvBootState (p : BleOtaPartition) (st : BleOtaBootState)
| EvSetBoot (p : BleOtaPartition) (ok : bool)
| EvMarkValid (ok : bool)
| EvRollback (ok : bool)
| EvRestart.

(** The same platform with the calls it served, most recent last. *)
Definition logged {W A} (m : M W A) (ev : A -> OtaEvent) : M (W * list OtaEvent) A :=
  fun s => let '(a, w') := m (fst s) in (a, (w', snd s ++ [ev a])).

#[export] Instance LoggedPlatform {W} `{BleOtaPlatform W} : BleOtaPlatform (W * list OtaEvent) := {|
  resolvePartitions := logged resolvePartitions EvResolve;
  readPartition p off n := logged (readPartition p off n) (EvRead p off n);
  erasePartition p off n := logged (erasePartition p off n) (EvErase p off n);
  writePartition p off b := logged (writePartition p off b) (EvWrite p off b);
  verifyEspApplication p n := logged (verifyEspApplication p n) (EvVerifyApp p n);
  verifyEd25519 k m s := logged (verifyEd25519 k m s) (EvVerifySig k m s);
  bootState p := logged (bootState p) (EvBootState p);
  setBootPartition p := logged (setBootPartition p) (EvSetBoot p);
  markRunningValid := logged markRunningValid EvMarkValid;
  rollbackRunningAndRestart := logged rollbackRunningAndRestart EvRollback;
  restart := logged restart (fun _ => EvRestart);
|}.

(** ** The production adapter

    [EspIdf] are the ESP-IDF partition, image and OTA-selection calls used by
    [Esp32KitsuBleOtaPlatform], and the vendored Ed25519 verifier. *)

Record EspPartition := mkEspPart {
  ep_type : Z;
  ep_label : string;
  ep_subtype : Z;
  ep_address : Z;
  ep_size : Z;
}.

#[export] Instance EspPartition_eq_dec : EqDecision EspPartition.
Proof. solve_decision. Defined.

Inductive EspImageState := ESP_OTA_IMG_NEW | ESP_OTA_IMG_PENDING_VERIFY
  | ESP_OTA_IMG_VALID | ESP_OTA_IMG_INVALID | ESP_OTA_IMG_ABORTED
  | ESP_OTA_IMG_UNDEFINED.

Class EspIdf (W : Type) := {
  esp_ota_get_running_partition : M W (option EspPartition);
  esp_ota_get_next_update_partition : option EspPartition -> M W (option EspPartition);
  esp_partition_read : EspPartition -> Z -> nat -> M W (option (list Z));
  esp_partition_erase_range : EspPartition -> Z -> Z -> M W bool;
  esp_partition_write : EspPartition -> Z -> list Z -> M W bool;
  (* the length in the metadata of a successfully verified image *)
  esp_image_verify : Z -> Z -> M W (option Z);
  ed25519_verify : list Z -> list Z -> list Z -> M W bool;
  esp_ota_get_state_partition : EspPartition -> M W (option EspImageState);
  esp_ota_set_boot_partition : EspPartition -> M W bool;
  esp_ota_mark_app_valid_cancel_rollback : M W bool;
  esp_ota_mark_app_invalid_rollback_and_reboot : M W bool;
  esp_restart : M W unit;
}.

(** The world of the adapter: its two cached partition pointers. *)
Record Esp32World (W : Type) := mkEsp32 {
  runningNative_ : option EspPartition;
  inactiveNative_ : option EspPartition;
  idfWorld : W;
}.
Arguments mkEsp32 {W}.
Arguments runningNative_ {W}.
Arguments inactiveNative_ {W}.
Arguments idfWorld {W}.

Section Esp32.
Context {W : Type} `{EspIdf W}.

Definition idf {A} (m : M W A) : M (Esp32World W) A :=
  fun e => let '(a, w') := m (idfWorld e) in
           (a, mkEsp32 (runningNative_ e) (inactiveNative_ e) w').

Definition samePart (part : EspPartition) (p : BleOtaPartition) : bool :=
  (op_address p =? ep_address part) && (op_size p =? ep_size part) &&
  (op_subtype p =? ep_subtype part).

Definition native (p : BleOtaPartition) (e : Esp32World W) : option EspPartition :=
  match runningNative_ e with
  | Some part => if samePart part p then Some part else
      match inactiveNative_ e with
      | Some part' => if samePart part' p then Some part' else None
      | None => None
      end
  | None =>
      match inactiveNative_ e with
      | Some part' => if samePart part' p then Some part' else None
      | None => None
      end
  end.

(** The exact two-slot layout test of [resolvePartitions]. *)
Definition exactSlots (r i : EspPartition) : bool :=
  let slot0 p := String.eqb (ep_label p) "app0" && (ep_subtype p =? 0x10) &&
                 (ep_address p =? kKitsuApp0Offset) in
  let slot1 p := String.eqb (ep_label p) "app1" && (ep_subtype p =? 0x11) &&
                 (ep_address p =? kKitsuApp1Offset) in
  slot0 r && slot1 i || slot1 r && slot0 i.

(** The 16-byte label copy with its forced terminator. *)
Definition labelCopy (s : string) : string := String.substring 0 15 s.

Definition toOta (p : EspPartition) : BleOtaPartition :=
  mkOtaPart (labelCopy (ep_label p)) (ep_address p) (ep_size p) (ep_subtype p).

Definition esp32_resolvePartitions
  : M (Esp32World W) (option (BleOtaPartition * BleOtaPartition)) :=
  runningPart <- idf esp_ota_get_running_partition ;;
  inactivePart <- idf (esp_ota_get_next_update_partition runningPart) ;;
  match runningPart, inactivePart with
  | Some r, Some i =>
      if bool_decide (r = i) || negb (ep_type r =? 0) || negb (ep_type i =? 0) ||
         negb (ep_size r =? kBleOtaAppPartitionBytes) ||
         negb (ep_size i =? kBleOtaAppPartitionBytes) || negb (exactSlots r i)
      then ret None
      else modify (fun e => mkEsp32 (Some r) (Some i) (idfWorld e)) ;;;
           ret (Some (toOta r, toOta i))
  | _, _ => ret None
  end.

Definition esp32_readPartition (p : BleOtaPartition) (off : Z) (n : nat)
  : M (Esp32World W) (option (list Z)) :=
  part <- gets (native p) ;;
  match part with
  | Some part =>
      if (off <=? ep_size part) && (Z.of_nat n <=? ep_size part - off)
      then idf (esp_partition_read part off n) else ret None
  | None => ret None
  end.

Definition esp32_erasePartition (p : BleOtaPartition) (off n : Z)
  : M (Esp32World W) bool :=
  part <- gets (native p) ;;
  match part with
  | Some part =>
      if (off mod kBleOtaJournalBytes =? 0) && (n mod kBleOtaJournalBytes =? 0) &&
         (off <=? ep_size part) && (n <=? ep_size part - off)
      then idf (esp_partition_erase_range part off n) else ret false
  | None => ret false
  end.

Definition esp32_writePartition (p : BleOtaPartition) (off : Z) (input : list Z)
  : M (Esp32World W) bool :=
  part <- gets (native p) ;;
  match part with
  | Some part =>
      if negb (length input =? 0)%nat && (off <=? ep_size part) &&
         (Z.of_nat (length input) <=? ep_size part - off)
      then idf (esp_partition_write part off input) else ret false
  | None => ret false
  end.

Definition esp32_verifyEspApplication (p : BleOtaPartition) (imageBytes : Z)
  : M (Esp32World W) bool :=
  part <- gets (native p) ;;
  match part with
  | Some part =>
      if (imageBytes =? 0) || (kBleOtaMaximumImageBytes <? imageBytes) then ret false
      else imageLen <- idf (esp_image_verify (ep_address part) imageBytes) ;;
           ret (match imageLen with Some len => len =? imageBytes | None => false end)
  | None => ret false
  end.

Definition esp32_verifyEd25519 (publicKey message signature : list Z)
  : M (Esp32World W) bool :=
  if (length message =? 0)%nat then ret false
  else idf (ed25519_verify signature message publicKey).

Definition esp32_bootState (p : BleOtaPartition) : M (Esp32World W) BleOtaBootState :=
  part <- gets (native p) ;;
  match part with
  | None => ret BootUnknown
  | Some part =>
      st <- idf (esp_ota_get_state_partition part) ;;
      ret (match st with
           | Some ESP_OTA_IMG_NEW => BootNew
           | Some ESP_OTA_IMG_PENDING_VERIFY => BootPendingVerify
           | Some ESP_OTA_IMG_VALID => BootValid
           | Some ESP_OTA_IMG_INVALID => BootInvalid
           | Some ESP_OTA_IMG_ABORTED => BootAborted
           | Some ESP_OTA_IMG_UNDEFINED | None => BootUnknown
           end)
  end.

Definition esp32_setBootPartition (p : BleOtaPartition) : M (Esp32World W) bool :=
  part <- gets (native p) ;;
  match part with
  | Some part => idf (esp_ota_set_boot_partition part)
  | None => ret false
  end.

#[export] Instance Esp32KitsuBleOtaPlatform : BleOtaPlatform (Esp32World W) := {|
  resolvePartitions := esp32_resolvePartitions;
  readPartition := esp32_readPartition;
  erasePartition := esp32_erasePartition;
  writePartition := esp32_writePartition;
  verifyEspApplication := esp32_verifyEspApplication;
  verifyEd25519 := esp32_verifyEd25519;
  bootState := esp32_bootState;
  setBootPartition := esp32_setBootPartition;
  markRunningValid := idf esp_ota_mark_app_valid_cancel_rollback;
  rollbackRunningAndRestart := idf esp_ota_mark_app_invalid_rollback_and_reboot;
  restart := idf esp_restart;
|}.
End Esp32.
