(* ===== verification/Ota.v ===== *)
(** * The BLE firmware updater (src/src/kitsu_ble_ota.cpp, class KitsuBleOta)

    The private members of the class are the record [Ota]; every member function
    is a computation over [Ota] and the platform world, in statement order.
    Scratch buffers ([manifestScratch_], [chunkScratch_], [ioScratch_], local
    arrays) are the values they hold while in use; a [char] array is the C string
    it holds; a null error pointer is [None]. *)

From S2P Require Import Prelude Crc Sha256 FlashLayout OtaCodec OtaManifest OtaPlatform.
From S2P Require Import OtaCodecFacts.

Open Scope kitsu_scope.

Inductive BleOtaState := Idle | Receiving | ReadyToReboot | PendingVerify
  | Confirmed | RolledBack | Failed.

#[export] Instance BleOtaState_eq_dec : EqDecision BleOtaState.
Proof. solve_decision. Defined.

(** The data members of [KitsuBleOta]; [platform_] says the pointer is set. *)
Record Ota := mkOta {
  platform_ : bool;
  running_ : BleOtaPartition;
  inactive_ : BleOtaPartition;
  state_ : BleOtaState;
  begun_ : bool;
  manifestLoaded_ : bool;
  resumed_ : bool;
  updateIdValid_ : bool;
  rebootScheduled_ : bool;
  confirmationArmed_ : bool;
  prefixHashReady_ : bool;
  journalHeaderReady_ : bool;
  updateId_ : list Z;
  expectedImageSha256_ : list Z;
  runningVersion_ : list Z;
  targetVersion_ : list Z;
  imageBytes_ : Z;
  nextOffset_ : Z;
  persistedOffset_ : Z;
  erasedThrough_ : Z;
  journalSequence_ : Z;
  journalNextSlot_ : Z;
  healthySince_ : Z;
  rebootAt_ : Z;
  rebootFallbackAt_ : Z;
  error_ : option string;
  prefixHash_ : Sha256Context;
}.

(** Member assignment. *)
Definition set_platform_ (v : bool) (o : Ota) : Ota :=
  mkOta v (running_ o) (inactive_ o) (state_ o) (begun_ o) (manifestLoaded_ o)
    (resumed_ o) (updateIdValid_ o) (rebootScheduled_ o) (confirmationArmed_ o)
    (prefixHashReady_ o) (journalHeaderReady_ o) (updateId_ o) (expectedImageSha256_
    o) (runningVersion_ o) (targetVersion_ o) (imageBytes_ o) (nextOffset_ o)
    (persistedOffset_ o) (erasedThrough_ o) (journalSequence_ o) (journalNextSlot_ o)
    (healthySince_ o) (rebootAt_ o) (rebootFallbackAt_ o) (error_ o) (prefixHash_ o).
Definition set_running_ (v : BleOtaPartition) (o : Ota) : Ota :=
  mkOta (platform_ o) v (inactive_ o) (state_ o) (begun_ o) (manifestLoaded_ o)
    (resumed_ o) (updateIdValid_ o) (rebootScheduled_ o) (confirmationArmed_ o)
    (prefixHashReady_ o) (journalHeaderReady_ o) (updateId_ o) (expectedImageSha256_
    o) (runningVersion_ o) (targetVersion_ o) (imageBytes_ o) (nextOffset_ o)
    (persistedOffset_ o) (erasedThrough_ o) (journalSequence_ o) (journalNextSlot_ o)
    (healthySince_ o) (rebootAt_ o) (rebootFallbackAt_ o) (error_ o) (prefixHash_ o).
Definition set_inactive_ (v : BleOtaPartition) (o : Ota) : Ota :=
  mkOta (platform_ o) (running_ o) v (state_ o) (begun_ o) (manifestLoaded_ o)
    (resumed_ o) (updateIdValid_ o) (rebootScheduled_ o) (confirmationArmed_ o)
    (prefixHashReady_ o) (journalHeaderReady_ o) (updateId_ o) (expectedImageSha256_
    o) (runningVersion_ o) (targetVersion_ o) (imageBytes_ o) (nextOffset_ o)
    (persistedOffset_ o) (erasedThrough_ o) (journalSequence_ o) (journalNextSlot_ o)
    (healthySince_ o) (rebootAt_ o) (rebootFallbackAt_ o) (error_ o) (prefixHash_ o).
Definition set_state_ (v : BleOtaState) (o : Ota) : Ota :=
  mkOta (platform_ o) (running_ o) (inactive_ o) v (begun_ o) (manifestLoaded_ o)
    (resumed_ o) (updateIdValid_ o) (rebootScheduled_ o) (confirmationArmed_ o)
    (prefixHashReady_ o) (journalHeaderReady_ o) (updateId_ o) (expectedImageSha256_
    o) (runningVersion_ o) (targetVersion_ o) (imageBytes_ o) (nextOffset_ o)
    (persistedOffset_ o) (erasedThrough_ o) (journalSequence_ o) (journalNextSlot_ o)
    (healthySince_ o) (rebootAt_ o) (rebootFallbackAt_ o) (error_ o) (prefixHash_ o).
Definition set_begun_ (v : bool) (o : Ota) : Ota :=
  mkOta (platform_ o) (running_ o) (inactive_ o) (state_ o) v (manifestLoaded_ o)
    (resumed_ o) (updateIdValid_ o) (rebootScheduled_ o) (confirmationArmed_ o)
    (prefixHashReady_ o) (journalHeaderReady_ o) (updateId_ o) (expectedImageSha256_
    o) (runningVersion_ o) (targetVersion_ o) (imageBytes_ o) (nextOffset_ o)
    (persistedOffset_ o) (erasedThrough_ o) (journalSequence_ o) (journalNextSlot_ o)
    (healthySince_ o) (rebootAt_ o) (rebootFallbackAt_ o) (error_ o) (prefixHash_ o).
Definition set_manifestLoaded_ (v : bool) (o : Ota) : Ota :=
  mkOta (platform_ o) (running_ o) (inactive_ o) (state_ o) (begun_ o) v (resumed_ o)
    (updateIdValid_ o) (rebootScheduled_ o) (confirmationArmed_ o) (prefixHashReady_
    o) (journalHeaderReady_ o) (updateId_ o) (expectedImageSha256_ o) (runningVersion_
    o) (targetVersion_ o) (imageBytes_ o) (nextOffset_ o) (persistedOffset_ o)
    (erasedThrough_ o) (journalSequence_ o) (journalNextSlot_ o) (healthySince_ o)
    (rebootAt_ o) (rebootFallbackAt_ o) (error_ o) (prefixHash_ o).
Definition set_resumed_ (v : bool) (o : Ota) : Ota :=
  mkOta (platform_ o) (running_ o) (inactive_ o) (state_ o) (begun_ o)
    (manifestLoaded_ o) v (updateIdValid_ o) (rebootScheduled_ o) (confirmationArmed_
    o) (prefixHashReady_ o) (journalHeaderReady_ o) (updateId_ o)
    (expectedImageSha256_ o) (runningVersion_ o) (targetVersion_ o) (imageBytes_ o)
    (nextOffset_ o) (persistedOffset_ o) (erasedThrough_ o) (journalSequence_ o)
    (journalNextSlot_ o) (healthySince_ o) (rebootAt_ o) (rebootFallbackAt_ o) (error_
    o) (prefixHash_ o).
Definition set_updateIdValid_ (v : bool) (o : Ota) : Ota :=
  mkOta (platform_ o) (running_ o) (inactive_ o) (state_ o) (begun_ o)
    (manifestLoaded_ o) (resumed_ o) v (rebootScheduled_ o) (confirmationArmed_ o)
    (prefixHashReady_ o) (journalHeaderReady_ o) (updateId_ o) (expectedImageSha256_
    o) (runningVersion_ o) (targetVersion_ o) (imageBytes_ o) (nextOffset_ o)
    (persistedOffset_ o) (erasedThrough_ o) (journalSequence_ o) (journalNextSlot_ o)
    (healthySince_ o) (rebootAt_ o) (rebootFallbackAt_ o) (error_ o) (prefixHash_ o).
Definition set_rebootScheduled_ (v : bool) (o : Ota) : Ota :=
  mkOta (platform_ o) (running_ o) (inactive_ o) (state_ o) (begun_ o)
    (manifestLoaded_ o) (resumed_ o) (updateIdValid_ o) v (confirmationArmed_ o)
    (prefixHashReady_ o) (journalHeaderReady_ o) (updateId_ o) (expectedImageSha256_
    o) (runningVersion_ o) (targetVersion_ o) (imageBytes_ o) (nextOffset_ o)
    (persistedOffset_ o) (erasedThrough_ o) (journalSequence_ o) (journalNextSlot_ o)
    (healthySince_ o) (rebootAt_ o) (rebootFallbackAt_ o) (error_ o) (prefixHash_ o).
Definition set_confirmationArmed_ (v : bool) (o : Ota) : Ota :=
  mkOta (platform_ o) (running_ o) (inactive_ o) (state_ o) (begun_ o)
    (manifestLoaded_ o) (resumed_ o) (updateIdValid_ o) (rebootScheduled_ o) v
    (prefixHashReady_ o) (journalHeaderReady_ o) (updateId_ o) (expectedImageSha256_
    o) (runningVersion_ o) (targetVersion_ o) (imageBytes_ o) (nextOffset_ o)
    (persistedOffset_ o) (erasedThrough_ o) (journalSequence_ o) (journalNextSlot_ o)
    (healthySince_ o) (rebootAt_ o) (rebootFallbackAt_ o) (error_ o) (prefixHash_ o).
Definition set_prefixHashReady_ (v : bool) (o : Ota) : Ota :=
  mkOta (platform_ o) (running_ o) (inactive_ o) (state_ o) (begun_ o)
    (manifestLoaded_ o) (resumed_ o) (updateIdValid_ o) (rebootScheduled_ o)
    (confirmationArmed_ o) v (journalHeaderReady_ o) (updateId_ o)
    (expectedImageSha256_ o) (runningVersion_ o) (targetVersion_ o) (imageBytes_ o)
    (nextOffset_ o) (persistedOffset_ o) (erasedThrough_ o) (journalSequence_ o)
    (journalNextSlot_ o) (healthySince_ o) (rebootAt_ o) (rebootFallbackAt_ o) (error_
    o) (prefixHash_ o).
Definition set_journalHeaderReady_ (v : bool) (o : Ota) : Ota :=
  mkOta (platform_ o) (running_ o) (inactive_ o) (state_ o) (begun_ o)
    (manifestLoaded_ o) (resumed_ o) (updateIdValid_ o) (rebootScheduled_ o)
    (confirmationArmed_ o) (prefixHashReady_ o) v (updateId_ o) (expectedImageSha256_
    o) (runningVersion_ o) (targetVersion_ o) (imageBytes_ o) (nextOffset_ o)
    (persistedOffset_ o) (erasedThrough_ o) (journalSequence_ o) (journalNextSlot_ o)
    (healthySince_ o) (rebootAt_ o) (rebootFallbackAt_ o) (error_ o) (prefixHash_ o).
Definition set_updateId_ (v : list Z) (o : Ota) : Ota :=
  mkOta (platform_ o) (running_ o) (inactive_ o) (state_ o) (begun_ o)
    (manifestLoaded_ o) (resumed_ o) (updateIdValid_ o) (rebootScheduled_ o)
    (confirmationArmed_ o) (prefixHashReady_ o) (journalHeaderReady_ o) v
    (expectedImageSha256_ o) (runningVersion_ o) (targetVersion_ o) (imageBytes_ o)
    (nextOffset_ o) (persistedOffset_ o) (erasedThrough_ o) (journalSequence_ o)
    (journalNextSlot_ o) (healthySince_ o) (rebootAt_ o) (rebootFallbackAt_ o) (error_
    o) (prefixHash_ o).
Definition set_expectedImageSha256_ (v : list Z) (o : Ota) : Ota :=
  mkOta (platform_ o) (running_ o) (inactive_ o) (state_ o) (begun_ o)
    (manifestLoaded_ o) (resumed_ o) (updateIdValid_ o) (rebootScheduled_ o)
    (confirmationArmed_ o) (prefixHashReady_ o) (journalHeaderReady_ o) (updateId_ o)
    v (runningVersion_ o) (targetVersion_ o) (imageBytes_ o) (nextOffset_ o)
    (persistedOffset_ o) (erasedThrough_ o) (journalSequence_ o) (journalNextSlot_ o)
    (healthySince_ o) (rebootAt_ o) (rebootFallbackAt_ o) (error_ o) (prefixHash_ o).
Definition set_runningVersion_ (v : list Z) (o : Ota) : Ota :=
  mkOta (platform_ o) (running_ o) (inactive_ o) (state_ o) (begun_ o)
    (manifestLoaded_ o) (resumed_ o) (updateIdValid_ o) (rebootScheduled_ o)
    (confirmationArmed_ o) (prefixHashReady_ o) (journalHeaderReady_ o) (updateId_ o)
    (expectedImageSha256_ o) v (targetVersion_ o) (imageBytes_ o) (nextOffset_ o)
    (persistedOffset_ o) (erasedThrough_ o) (journalSequence_ o) (journalNextSlot_ o)
    (healthySince_ o) (rebootAt_ o) (rebootFallbackAt_ o) (error_ o) (prefixHash_ o).
Definition set_targetVersion_ (v : list Z) (o : Ota) : Ota :=
  mkOta (platform_ o) (running_ o) (inactive_ o) (state_ o) (begun_ o)
    (manifestLoaded_ o) (resumed_ o) (updateIdValid_ o) (rebootScheduled_ o)
    (confirmationArmed_ o) (prefixHashReady_ o) (journalHeaderReady_ o) (updateId_ o)
    (expectedImageSha256_ o) (runningVersion_ o) v (imageBytes_ o) (nextOffset_ o)
    (persistedOffset_ o) (erasedThrough_ o) (journalSequence_ o) (journalNextSlot_ o)
    (healthySince_ o) (rebootAt_ o) (rebootFallbackAt_ o) (error_ o) (prefixHash_ o).
Definition set_imageBytes_ (v : Z) (o : Ota) : Ota :=
  mkOta (platform_ o) (running_ o) (inactive_ o) (state_ o) (begun_ o)
    (manifestLoaded_ o) (resumed_ o) (updateIdValid_ o) (rebootScheduled_ o)
    (confirmationArmed_ o) (prefixHashReady_ o) (journalHeaderReady_ o) (updateId_ o)
    (expectedImageSha256_ o) (runningVersion_ o) (targetVersion_ o) v (nextOffset_ o)
    (persistedOffset_ o) (erasedThrough_ o) (journalSequence_ o) (journalNextSlot_ o)
    (healthySince_ o) (rebootAt_ o) (rebootFallbackAt_ o) (error_ o) (prefixHash_ o).
Definition set_nextOffset_ (v : Z) (o : Ota) : Ota :=
  mkOta (platform_ o) (running_ o) (inactive_ o) (state_ o) (begun_ o)
    (manifestLoaded_ o) (resumed_ o) (updateIdValid_ o) (rebootScheduled_ o)
    (confirmationArmed_ o) (prefixHashReady_ o) (journalHeaderReady_ o) (updateId_ o)
    (expectedImageSha256_ o) (runningVersion_ o) (targetVersion_ o) (imageBytes_ o) v
    (persistedOffset_ o) (erasedThrough_ o) (journalSequence_ o) (journalNextSlot_ o)
    (healthySince_ o) (rebootAt_ o) (rebootFallbackAt_ o) (error_ o) (prefixHash_ o).
Definition set_persistedOffset_ (v : Z) (o : Ota) : Ota :=
  mkOta (platform_ o) (running_ o) (inactive_ o) (state_ o) (begun_ o)
    (manifestLoaded_ o) (resumed_ o) (updateIdValid_ o) (rebootScheduled_ o)
    (confirmationArmed_ o) (prefixHashReady_ o) (journalHeaderReady_ o) (updateId_ o)
    (expectedImageSha256_ o) (runningVersion_ o) (targetVersion_ o) (imageBytes_ o)
    (nextOffset_ o) v (erasedThrough_ o) (journalSequence_ o) (journalNextSlot_ o)
    (healthySince_ o) (rebootAt_ o) (rebootFallbackAt_ o) (error_ o) (prefixHash_ o).
Definition set_erasedThrough_ (v : Z) (o : Ota) : Ota :=
  mkOta (platform_ o) (running_ o) (inactive_ o) (state_ o) (begun_ o)
    (manifestLoaded_ o) (resumed_ o) (updateIdValid_ o) (rebootScheduled_ o)
    (confirmationArmed_ o) (prefixHashReady_ o) (journalHeaderReady_ o) (updateId_ o)
    (expectedImageSha256_ o) (runningVersion_ o) (targetVersion_ o) (imageBytes_ o)
    (nextOffset_ o) (persistedOffset_ o) v (journalSequence_ o) (journalNextSlot_ o)
    (healthySince_ o) (rebootAt_ o) (rebootFallbackAt_ o) (error_ o) (prefixHash_ o).
Definition set_journalSequence_ (v : Z) (o : Ota) : Ota :=
  mkOta (platform_ o) (running_ o) (inactive_ o) (state_ o) (begun_ o)
    (manifestLoaded_ o) (resumed_ o) (updateIdValid_ o) (rebootScheduled_ o)
    (confirmationArmed_ o) (prefixHashReady_ o) (journalHeaderReady_ o) (updateId_ o)
    (expectedImageSha256_ o) (runningVersion_ o) (targetVersion_ o) (imageBytes_ o)
    (nextOffset_ o) (persistedOffset_ o) (erasedThrough_ o) v (journalNextSlot_ o)
    (healthySince_ o) (rebootAt_ o) (rebootFallbackAt_ o) (error_ o) (prefixHash_ o).
Definition set_journalNextSlot_ (v : Z) (o : Ota) : Ota :=
  mkOta (platform_ o) (running_ o) (inactive_ o) (state_ o) (begun_ o)
    (manifestLoaded_ o) (resumed_ o) (updateIdValid_ o) (rebootScheduled_ o)
    (confirmationArmed_ o) (prefixHashReady_ o) (journalHeaderReady_ o) (updateId_ o)
    (expectedImageSha256_ o) (runningVersion_ o) (targetVersion_ o) (imageBytes_ o)
    (nextOffset_ o) (persistedOffset_ o) (erasedThrough_ o) (journalSequence_ o) v
    (healthySince_ o) (rebootAt_ o) (rebootFallbackAt_ o) (error_ o) (prefixHash_ o).
Definition set_healthySince_ (v : Z) (o : Ota) : Ota :=
  mkOta (platform_ o) (running_ o) (inactive_ o) (state_ o) (begun_ o)
    (manifestLoaded_ o) (resumed_ o) (updateIdValid_ o) (rebootScheduled_ o)
    (confirmationArmed_ o) (prefixHashReady_ o) (journalHeaderReady_ o) (updateId_ o)
    (expectedImageSha256_ o) (runningVersion_ o) (targetVersion_ o) (imageBytes_ o)
    (nextOffset_ o) (persistedOffset_ o) (erasedThrough_ o) (journalSequence_ o)
    (journalNextSlot_ o) v (rebootAt_ o) (rebootFallbackAt_ o) (error_ o) (prefixHash_
    o).
Definition set_rebootAt_ (v : Z) (o : Ota) : Ota :=
  mkOta (platform_ o) (running_ o) (inactive_ o) (state_ o) (begun_ o)
    (manifestLoaded_ o) (resumed_ o) (updateIdValid_ o) (rebootScheduled_ o)
    (confirmationArmed_ o) (prefixHashReady_ o) (journalHeaderReady_ o) (updateId_ o)
    (expectedImageSha256_ o) (runningVersion_ o) (targetVersion_ o) (imageBytes_ o)
    (nextOffset_ o) (persistedOffset_ o) (erasedThrough_ o) (journalSequence_ o)
    (journalNextSlot_ o) (healthySince_ o) v (rebootFallbackAt_ o) (error_ o)
    (prefixHash_ o).
Definition set_rebootFallbackAt_ (v : Z) (o : Ota) : Ota :=
  mkOta (platform_ o) (running_ o) (inactive_ o) (state_ o) (begun_ o)
    (manifestLoaded_ o) (resumed_ o) (updateIdValid_ o) (rebootScheduled_ o)
    (confirmationArmed_ o) (prefixHashReady_ o) (journalHeaderReady_ o) (updateId_ o)
    (expectedImageSha256_ o) (runningVersion_ o) (targetVersion_ o) (imageBytes_ o)
    (nextOffset_ o) (persistedOffset_ o) (erasedThrough_ o) (journalSequence_ o)
    (journalNextSlot_ o) (healthySince_ o) (rebootAt_ o) v (error_ o) (prefixHash_ o).
Definition set_error_ (v : option string) (o : Ota) : Ota :=
  mkOta (platform_ o) (running_ o) (inactive_ o) (state_ o) (begun_ o)
    (manifestLoaded_ o) (resumed_ o) (updateIdValid_ o) (rebootScheduled_ o)
    (confirmationArmed_ o) (prefixHashReady_ o) (journalHeaderReady_ o) (updateId_ o)
    (expectedImageSha256_ o) (runningVersion_ o) (targetVersion_ o) (imageBytes_ o)
    (nextOffset_ o) (persistedOffset_ o) (erasedThrough_ o) (journalSequence_ o)
    (journalNextSlot_ o) (healthySince_ o) (rebootAt_ o) (rebootFallbackAt_ o) v
    (prefixHash_ o).
Definition set_prefixHash_ (v : Sha256Context) (o : Ota) : Ota :=
  mkOta (platform_ o) (running_ o) (inactive_ o) (state_ o) (begun_ o)
    (manifestLoaded_ o) (resumed_ o) (updateIdValid_ o) (rebootScheduled_ o)
    (confirmationArmed_ o) (prefixHashReady_ o) (journalHeaderReady_ o) (updateId_ o)
    (expectedImageSha256_ o) (runningVersion_ o) (targetVersion_ o) (imageBytes_ o)
    (nextOffset_ o) (persistedOffset_ o) (erasedThrough_ o) (journalSequence_ o)
    (journalNextSlot_ o) (healthySince_ o) (rebootAt_ o) (rebootFallbackAt_ o) (error_
    o) v.

(** [struct BleOtaStatus] and [status()]. *)
Record BleOtaStatus := mkStatus {
  st_state : BleOtaState;
  st_begun : bool;
  st_updateIdValid : bool;
  st_resumed : bool;
  st_rebootScheduled : bool;
  st_updateId : list Z;
  st_imageBytes : Z;
  st_nextOffset : Z;
  st_runningVersion : list Z;
  st_error : option string;
}.

Definition status (o : Ota) : BleOtaStatus :=
  mkStatus (state_ o) (begun_ o) (updateIdValid_ o) (resumed_ o) (rebootScheduled_ o)
    (updateId_ o) (imageBytes_ o) (nextOffset_ o) (runningVersion_ o) (error_ o).

Definition zeroDigest : list Z := replicate kBleOtaDigestBytes 0.

(** A freshly constructed object. *)
Definition ota0 : Ota :=
  mkOta false noPartition noPartition Idle false false false false false false false
    false zeroDigest zeroDigest [] [] 0 0 0 0 0 0 0 0 0 None shaZero.

(** ** Constants and helpers *)

Definition kJournalOffset : Z := kBleOtaMaximumImageBytes.
Definition kJournalHeaderBytes : nat := 128.
Definition kJournalCheckpointBytes : nat := 16.
Definition kJournalCheckpointCapacity : nat := (4096 - 128) / 16.
Definition kJournalReceiving : Z := 1.
Definition kJournalReady : Z := 2.
Definition kJournalAborted : Z := 3.
Definition kJournalVersion : Z := 1.

Definition kUpdateAuthority : list Z :=
  [0x24; 0x00; 0x11; 0xf1; 0x49; 0xe9; 0xcf; 0xb9; 0xfb; 0x87; 0xfa; 0xb4; 0xd9; 0xca; 0x45; 0x73;
   0xc1; 0xc7; 0xff; 0xb3; 0x87; 0x17; 0x76; 0x58; 0x00; 0x05; 0xec; 0x41; 0xae; 0xe5; 0x13; 0x82].

(** Accumulating the differences of all bytes and testing for zero. *)
Definition constantTimeEqual (left right : list Z) : bool :=
  fold_left Z.lor (zip_with Z.lxor left right) 0 =? 0.

Definition allBytes (input : list Z) (expected : Z) : bool :=
  fold_left Z.lor (map (fun b => Z.lxor b expected) input) 0 =? 0.

Definition stateName (state : BleOtaState) : string :=
  match state with
  | Idle => "idle"
  | Receiving => "receiving"
  | ReadyToReboot => "ready_to_reboot"
  | PendingVerify => "pending_verify"
  | Confirmed => "confirmed"
  | RolledBack => "rolled_back"
  | Failed => "failed"
  end.

(** ** Journal records *)

Definition magicHeader : list Z := bytes_of "KOTA".
Definition magicRecord : list Z := bytes_of "KOTC".

(** Bytes 0..123 of the header and its checksum. *)
Definition encodeHeaderBody (subtype : Z) (m : ParsedManifest) (updateId : list Z) : list Z :=
  magicHeader ++ [kJournalVersion; subtype; 0; 0] ++ put32 (manifestImageBytes m) ++
  put32 kBleOtaChunkBytes ++ updateId ++ manifestImageSha256 m ++ firmwareVersion m ++
  replicate (44 - length (firmwareVersion m)) 0.

Definition encodeHeader (subtype : Z) (m : ParsedManifest) (updateId : list Z) : list Z :=
  let body := encodeHeaderBody subtype m updateId in body ++ put32 (crc32 body).

Definition encodeRecord (sequence journalState nextOffset : Z) : list Z :=
  let body := magicRecord ++ put16 sequence ++ [journalState; 0] ++ put32 nextOffset in
  body ++ put32 (crc32 body).

(** What [readJournal] returns through its reference parameters. *)
Record JournalView := mkView {
  jv_present : bool;
  jv_state : Z;
  jv_offset : Z;
  jv_sequence : Z;
  jv_nextSlot : Z;
  jv_updateId : list Z;
  jv_imageSha256 : list Z;
  jv_imageBytes : Z;
  jv_targetVersion : list Z;
}.

Definition emptyView (imageBytes : Z) : JournalView :=
  mkView false 0 0 0 0 zeroDigest zeroDigest imageBytes [].

(** The header checks; [inl] is an early [return true] with the given view,
    [inr] the image length of an accepted header. *)
Definition decodeHeader (subtype : Z) (header : list Z) : JournalView + Z :=
  if allBytes header 0xff then inl (emptyView 0)
  else if negb (beq (slice 0 4 header) magicHeader) ||
          negb (byte_at header 4 =? kJournalVersion) ||
          negb (byte_at header 5 =? subtype) ||
          negb (byte_at header 6 =? 0) || negb (byte_at header 7 =? 0) ||
          negb (get32 (drop 12 header) =? kBleOtaChunkBytes) ||
          negb (get32 (drop 124 header) =? crc32 (take 124 header))
  then inl (emptyView 0)
  else
    let imageBytes := get32 (drop 8 header) in
    if (imageBytes =? 0) || (kBleOtaMaximumImageBytes <? imageBytes) ||
       negb (validSemver (cstr (slice 80 33 header))) ||
       negb (byte_at header 112 =? 0)
    then inl (emptyView imageBytes)
    else inr imageBytes.

(** The loop variables of the checkpoint scan. *)
Record Scan := mkScan {
  sc_found : bool;
  sc_state : Z;
  sc_offset : Z;
  sc_sequence : Z;
  sc_lastOccupied : Z;
}.

Definition scan0 : Scan := mkScan false 0 0 0 0.

(** The validity test of one 16-byte record. *)
Definition recordValid (imageBytes : Z) (record : list Z) : bool :=
  let candidateState := byte_at record 6 in
  let candidateOffset := get32 (drop 8 record) in
  let stateValid := (candidateState =? kJournalReceiving) ||
    (candidateState =? kJournalReady) || (candidateState =? kJournalAborted) in
  let offsetValid := (candidateOffset <=? imageBytes) &&
    (negb (candidateState =? kJournalReady) || (candidateOffset =? imageBytes)) &&
    (negb (candidateState =? kJournalReceiving) || (candidateOffset =? 0) ||
     (candidateOffset mod kBleOtaCheckpointBytes =? 0)) in
  beq (slice 0 4 record) magicRecord && (byte_at record 7 =? 0) && stateValid &&
  offsetValid && (get32 (drop 12 record) =? crc32 (take 12 record)).

(** One turn of the checkpoint scan. *)
Definition scanRecord (imageBytes : Z) (sc : Scan) (slot : Z) (record : list Z) : Scan :=
  if allBytes record 0xff then sc
  else
    let sc := mkScan (sc_found sc) (sc_state sc) (sc_offset sc) (sc_sequence sc)
                     (u16 (slot + 1)) in
    if negb (recordValid imageBytes record) then sc
    else
      let candidateSequence := get16 (drop 4 record) in
      if (candidateSequence =? 0) ||
         sc_found sc && (candidateSequence <=? sc_sequence sc) then sc
      else mkScan true (byte_at record 6) (get32 (drop 8 record)) candidateSequence
                  (sc_lastOccupied sc).

(** ** The machine *)

Section Machine.
Context {W : Type} `{BleOtaPlatform W}.

Definition S : Type := (Ota * W)%type.

Definition self {A} (f : Ota -> A) : M S A := gets (fun s => f (fst s)).
Definition upd (f : Ota -> Ota) : M S unit := modify (fun s => (f (fst s), snd s)).
Definition plat {A} (m : M W A) : M S A :=
  fun s => let '(a, w') := m (snd s) in (a, (fst s, w')).

Definition fail (error : string) (terminal : bool) : M S bool :=
  upd (set_error_ (Some error)) ;;;
  when terminal (upd (set_state_ Failed)) ;;;
  ret false.

Definition rollback (error : string) : M S bool :=
  upd (set_state_ Failed) ;;;
  upd (set_error_ (Some error)) ;;;
  upd (set_confirmationArmed_ false) ;;;
  bound <- self platform_ ;;
  ok <- (if bound then plat rollbackRunningAndRestart else ret false) ;;
  when (negb ok) (upd (set_error_ (Some "rollback_failed"))) ;;;
  ret false.

(** The checkpoint loop of [readJournal]; [None] is a failed read. *)
Fixpoint readCheckpoints (partition : BleOtaPartition) (imageBytes : Z)
    (slots : list nat) (sc : Scan) : M S (option Scan) :=
  match slots with
  | [] => ret (Some sc)
  | slot :: rest =>
      record <- plat (readPartition partition
                  (kJournalOffset + Z.of_nat (kJournalHeaderBytes + slot * kJournalCheckpointBytes))
                  kJournalCheckpointBytes) ;;
      match record with
      | None => ret None
      | Some record =>
          readCheckpoints partition imageBytes rest
            (scanRecord imageBytes sc (Z.of_nat slot) record)
      end
  end.

Definition readJournal (partition : BleOtaPartition) : M S (option JournalView) :=
  header <- plat (readPartition partition kJournalOffset kJournalHeaderBytes) ;;
  match header with
  | None => ret None
  | Some header =>
      match decodeHeader (op_subtype partition) header with
      | inl view => ret (Some view)
      | inr imageBytes =>
          sc <- readCheckpoints partition imageBytes
                  (seq 0 kJournalCheckpointCapacity) scan0 ;;
          ret (match sc with
               | None => None
               | Some sc =>
                   Some (mkView (sc_found sc) (sc_state sc) (sc_offset sc)
                           (sc_sequence sc) (sc_lastOccupied sc)
                           (slice 16 32 header) (slice 48 32 header) imageBytes
                           (cstr (slice 80 33 header)))
               end)
      end
  end.

(** The streaming hash of [[0, bytes)] of a partition in 4096-byte reads. *)
Fixpoint hashLoop (fuel : nat) (partition : BleOtaPartition) (offset bytes : Z)
    (ctx : Sha256Context) : M S (option Sha256Context) :=
  match fuel with
  | O => ret (Some ctx)
  | Datatypes.S fuel' =>
      if offset <? bytes then
        let readBytes := Z.to_nat (Z.min (bytes - offset) kBleOtaChunkBytes) in
        data <- plat (readPartition partition offset readBytes) ;;
        match data with
        | None => ret None
        | Some data => hashLoop fuel' partition (offset + Z.of_nat readBytes) bytes
                         (shaUpdate ctx data)
        end
      else ret (Some ctx)
  end.

Definition hashFuel (bytes : Z) : nat := Datatypes.S (Z.to_nat (bytes / kBleOtaChunkBytes)).

Definition rebuildPrefixHash : M S bool :=
  upd (set_prefixHash_ shaStart) ;;;
  inactive <- self inactive_ ;;
  nextOffset <- self nextOffset_ ;;
  ctx <- hashLoop (hashFuel nextOffset) inactive 0 nextOffset shaStart ;;
  match ctx with
  | None =>
      upd (set_prefixHash_ shaZero) ;;;
      upd (set_prefixHashReady_ false) ;;;
      ret false
  | Some ctx =>
      upd (set_prefixHash_ ctx) ;;;
      upd (set_prefixHashReady_ true) ;;;
      ret true
  end.

(** The digest of the first [bytes] bytes; [None] is a failed read. *)
Definition hashPartition (partition : BleOtaPartition) (bytes : Z)
  : M S (option (list Z)) :=
  ctx <- hashLoop (hashFuel bytes) partition 0 bytes shaStart ;;
  ret (match ctx with None => None | Some ctx => Some (shaFinish ctx) end).

Definition digestIs (digest : option (list Z)) (expected : list Z) : bool :=
  match digest with None => false | Some d => constantTimeEqual d expected end.

(** Readback comparison in 256-byte pieces. *)
Fixpoint compareLoop (fuel : nat) (partition : BleOtaPartition) (offset : Z)
    (expected : list Z) : M S bool :=
  match fuel, expected with
  | O, _ | _, [] => ret true
  | Datatypes.S fuel', _ =>
      let bytes := Nat.min (length expected) 256 in
      data <- plat (readPartition partition offset bytes) ;;
      match data with
      | None => ret false
      | Some data =>
          if beq data (take bytes expected)
          then compareLoop fuel' partition (offset + Z.of_nat bytes) (drop bytes expected)
          else ret false
      end
  end.

Definition comparePartition (offset : Z) (expected : list Z) : M S bool :=
  inactive <- self inactive_ ;;
  compareLoop (length expected) inactive offset expected.

Definition clearForIdle : M S bool :=
  upd (fun o => set_state_ Idle (set_manifestLoaded_ false (set_resumed_ false
    (set_updateIdValid_ false (set_rebootScheduled_ false (set_confirmationArmed_ false
    (set_prefixHashReady_ false (set_journalHeaderReady_ false (set_imageBytes_ 0
    (set_nextOffset_ 0 (set_persistedOffset_ 0 (set_erasedThrough_ 0
    (set_journalSequence_ 0 (set_journalNextSlot_ 0 (set_healthySince_ 0
    (set_rebootAt_ 0 (set_rebootFallbackAt_ 0 (set_error_ None
    (set_updateId_ zeroDigest (set_expectedImageSha256_ zeroDigest
    (set_targetVersion_ [] (set_prefixHash_ shaZero o)))))))))))))))))))))) ;;;
  ret true.

(** [writePartition] followed by an exact readback. *)
Definition writeVerified (partition : BleOtaPartition) (offset : Z) (bytes : list Z)
  : M S bool :=
  written <- plat (writePartition partition offset bytes) ;;
  if negb written then ret false else
  data <- plat (readPartition partition offset (length bytes)) ;;
  ret (match data with None => false | Some data => beq bytes data end).

Definition writeJournalHeader (manifest : ParsedManifest) (updateId : list Z) : M S bool :=
  inactive <- self inactive_ ;;
  writeVerified inactive kJournalOffset
    (encodeHeader (op_subtype inactive) manifest updateId).

Definition appendCheckpoint (journalState nextOffset : Z) : M S bool :=
  headerReady <- self journalHeaderReady_ ;;
  nextSlot <- self journalNextSlot_ ;;
  current <- self journalSequence_ ;;
  imageBytes <- self imageBytes_ ;;
  if negb headerReady || (Z.of_nat kJournalCheckpointCapacity <=? nextSlot) ||
     (current =? UINT16_MAX) || (imageBytes <? nextOffset)
  then ret false
  else
    let sequence := u16 (current + 1) in
    inactive <- self inactive_ ;;
    verified <- writeVerified inactive
      (kJournalOffset + Z.of_nat kJournalHeaderBytes +
       nextSlot * Z.of_nat kJournalCheckpointBytes)
      (encodeRecord sequence journalState nextOffset) ;;
    if negb verified then ret false
    else
      upd (set_journalSequence_ sequence) ;;;
      upd (set_journalNextSlot_ (nextSlot + 1)) ;;;
      upd (set_persistedOffset_ nextOffset) ;;;
      ret true.

Definition bindPendingRunningImage : M S bool :=
  o <- self id ;;
  valid <- (if beq (targetVersion_ o) (runningVersion_ o) && (nextOffset_ o =? imageBytes_ o)
            then digest <- hashPartition (running_ o) (imageBytes_ o) ;;
                 if digestIs digest (expectedImageSha256_ o)
                 then plat (verifyEspApplication (running_ o) (imageBytes_ o))
                 else ret false
            else ret false) ;;
  if negb valid then rollback "image_invalid" else ret true.

(** The block of member assignments repeated by [loadExistingState]. *)
Definition adoptJournal (v : JournalView) : M S unit :=
  upd (fun o => set_updateId_ (jv_updateId v) (set_expectedImageSha256_ (jv_imageSha256 v)
    (set_targetVersion_ (jv_targetVersion v) (set_updateIdValid_ true
    (set_imageBytes_ (jv_imageBytes v) (set_nextOffset_ (jv_offset v)
    (set_persistedOffset_ (jv_offset v) (set_journalSequence_ (jv_sequence v)
    (set_journalNextSlot_ (jv_nextSlot v) (set_journalHeaderReady_ true o)))))))))).

Definition viewIs (v : JournalView) (journalState : Z) : bool :=
  jv_present v && (jv_state v =? journalState).

Definition loadExistingState : M S bool :=
  runningPart <- self running_ ;;
  inactivePart <- self inactive_ ;;
  runningView <- readJournal runningPart ;;
  match runningView with
  | None => ret false
  | Some rv =>
    inactiveView <- readJournal inactivePart ;;
    match inactiveView with
    | None => ret false
    | Some iv =>
      runningBoot <- plat (bootState runningPart) ;;
      if bool_decide (runningBoot = BootPendingVerify) && negb (viewIs rv kJournalReady)
      then rollback "image_invalid"
      else
      inactiveBoot <- (if viewIs iv kJournalReady then plat (bootState inactivePart)
                       else ret BootUnknown) ;;
      let inactiveRolledBack := bool_decide (inactiveBoot = BootInvalid) ||
                                bool_decide (inactiveBoot = BootAborted) in
      if viewIs rv kJournalReady &&
         (bool_decide (runningBoot = BootPendingVerify) ||
          bool_decide (runningBoot = BootValid) && negb inactiveRolledBack)
      then
        adoptJournal rv ;;;
        if bool_decide (runningBoot = BootPendingVerify)
        then upd (set_state_ PendingVerify) ;;;
             ok <- bindPendingRunningImage ;;
             ret ok
        else upd (set_state_ Confirmed) ;;; ret true
      else if viewIs iv kJournalReceiving
      then
        adoptJournal iv ;;;
        upd (set_state_ Receiving) ;;;
        upd (set_resumed_ true) ;;;
        upd (set_error_ (Some "begin_required")) ;;;
        upd (set_erasedThrough_ (jv_offset iv)) ;;;
        rebuildPrefixHash
      else if viewIs iv kJournalReady
      then
        adoptJournal iv ;;;
        upd (set_resumed_ true) ;;;
        upd (set_error_ (Some "begin_required")) ;;;
        upd (set_state_ (if inactiveRolledBack then RolledBack else ReadyToReboot)) ;;;
        ret true
      else clearForIdle
    end
  end.

(** The two admissible slot assignments of [begin]. *)
Definition slotsOk (r i : BleOtaPartition) : bool :=
  let slot0 p := String.eqb (op_label p) "app0" && (op_subtype p =? 0x10) &&
                 (op_address p =? kKitsuApp0Offset) in
  let slot1 p := String.eqb (op_label p) "app1" && (op_subtype p =? 0x11) &&
                 (op_address p =? kKitsuApp1Offset) in
  (op_size r =? kBleOtaAppPartitionBytes) && (op_size i =? kBleOtaAppPartitionBytes) &&
  negb (op_address r =? op_address i) && (slot0 r && slot1 i || slot1 r && slot0 i).

Definition begin (runningVersion : option (list Z)) : M S bool :=
  begun <- self begun_ ;;
  if begun || negb (validSemverString runningVersion) then ret false
  else
    upd (set_platform_ true) ;;;
    upd (set_runningVersion_ (default [] runningVersion)) ;;;
    slots <- plat resolvePartitions ;;
    match slots with
    | None => upd (set_platform_ false) ;;; ret false
    | Some (r, i) =>
        upd (set_running_ r) ;;;
        upd (set_inactive_ i) ;;;
        if negb (slotsOk r i) then upd (set_platform_ false) ;;; ret false
        else
          upd (set_begun_ true) ;;;
          loaded <- loadExistingState ;;
          if negb loaded then
            o <- self id ;;
            when (negb (bool_decide (state_ o = Failed)) || bool_decide (error_ o = None))
              (upd (set_state_ Failed) ;;; upd (set_error_ (Some "flash_read_failed"))) ;;;
            ret false
          else ret true
    end.

Definition prepareNewUpdate (manifest : ParsedManifest) (updateId : list Z) : M S bool :=
  upd (set_rebootScheduled_ false) ;;;
  upd (set_rebootAt_ 0) ;;;
  upd (set_rebootFallbackAt_ 0) ;;;
  runningPart <- self running_ ;;
  selected <- plat (setBootPartition runningPart) ;;
  if negb selected then fail "boot_select_failed" true else
  inactivePart <- self inactive_ ;;
  erased <- plat (erasePartition inactivePart kJournalOffset kBleOtaJournalBytes) ;;
  if negb erased then fail "flash_erase_failed" true else
  upd (set_journalSequence_ 0) ;;;
  upd (set_journalNextSlot_ 0) ;;;
  upd (set_journalHeaderReady_ false) ;;;
  headerOk <- writeJournalHeader manifest updateId ;;
  if negb headerOk then fail "journal_failed" true else
  upd (fun o => set_journalHeaderReady_ true (set_updateId_ updateId
    (set_expectedImageSha256_ (manifestImageSha256 manifest)
    (set_targetVersion_ (firmwareVersion manifest) (set_updateIdValid_ true
    (set_imageBytes_ (manifestImageBytes manifest) (set_nextOffset_ 0
    (set_persistedOffset_ 0 (set_erasedThrough_ 0 o))))))))) ;;;
  appended <- appendCheckpoint kJournalReceiving 0 ;;
  if negb appended then fail "journal_failed" true else
  upd (fun o => set_prefixHash_ shaStart (set_prefixHashReady_ true
    (set_manifestLoaded_ true (set_resumed_ false (set_state_ Receiving
    (set_error_ None o)))))) ;;;
  ret true.

Definition bindResumedManifest (manifest : ParsedManifest) (updateId : list Z) : M S bool :=
  o <- self id ;;
  if negb (updateIdValid_ o) || negb (constantTimeEqual (updateId_ o) updateId) ||
     negb (manifestImageBytes manifest =? imageBytes_ o) ||
     negb (constantTimeEqual (manifestImageSha256 manifest) (expectedImageSha256_ o)) ||
     negb (beq (firmwareVersion manifest) (targetVersion_ o))
  then ret false
  else
    upd (fun o => set_manifestLoaded_ true (set_resumed_ true (set_error_ None o))) ;;;
    if bool_decide (state_ o = Receiving) && negb (prefixHashReady_ o)
    then rebuildPrefixHash else ret true.

(** ** Receipts

    A response buffer is its capacity, [None] for the null pointer; the result
    is the encoded receipt, [None] when the code returns [false] with
    [responseBytes = 0]. *)

Definition receiptBool (b : bool) : list Z := bytes_of (if b then "true" else "false").

Definition quoted (s : list Z) : list Z := 34 :: s ++ [34].

(** [receiptError]: the error the receipt names. *)
Definition receiptError (o : Ota) (ok : bool) : option string :=
  if ok then (if bool_decide (state_ o = Failed) then error_ o else None)
  else Some (default "internal_error" (error_ o)).

Definition receiptText (o : Ota) (ok replayed scheduled : bool) : list Z :=
  js "{'ok':" ++ receiptBool ok ++ js ",'protocol':1,'state':'" ++
  bytes_of (stateName (state_ o)) ++ js "','update_id':" ++
  (if updateIdValid_ o then quoted (encodeLowerHex (updateId_ o)) else bytes_of "null") ++
  js ",'firmware_version':'" ++ runningVersion_ o ++ js "','image_bytes':" ++
  decDigits (imageBytes_ o) ++ js ",'next_offset':" ++ decDigits (nextOffset_ o) ++
  js ",'chunk_bytes':4096,'resumed':" ++ receiptBool (resumed_ o) ++
  js ",'replayed':" ++ receiptBool replayed ++ js ",'scheduled':" ++ receiptBool scheduled ++
  js ",'error':" ++
  (match receiptError o ok with
   | Some e => quoted (bytes_of e)
   | None => bytes_of "null"
   end) ++ js "}".

Definition encodeReceipt (ok replayed scheduled : bool) (response : option nat)
  : M S (option (list Z)) :=
  o <- self id ;;
  ret (match response with
       | None => None
       | Some responseCapacity =>
           if (responseCapacity =? 0)%nat then None
           else if match receiptError o ok with
                   | Some e => (61 <? length (bytes_of e))%nat
                   | None => false
                   end then None
           else
             let text := receiptText o ok replayed scheduled in
             if (length text <? responseCapacity)%nat then Some text else None
       end).

(** [fail(error, terminal); return encodeReceipt(false, false, false, ...)]. *)
Definition refuse (error : string) (terminal : bool) (response : option nat)
  : M S (option (list Z)) :=
  _ <- fail error terminal ;; encodeReceipt false false false response.

(** ** Requests *)

Definition handleStatus (payload : option (list Z)) (response : option nat)
  : M S (option (list Z)) :=
  if negb (beq (default [] payload) (bytes_of "{}")) then
    refuse "malformed_request" false response
  else
    o <- self id ;;
    when (negb (bool_decide (state_ o = Failed))) (upd (set_error_ None)) ;;;
    encodeReceipt true false (rebootScheduled_ o) response.

(** The parsing prefix of [handleBegin]: the manifest bytes, the signature and
    the parsed manifest. *)
Definition decodeBegin (payload : option (list Z))
  : option (list Z * list Z * ParsedManifest) :=
  '(manifestEncoded, signatureEncoded) ← parseBeginRequest payload;
  manifestScratch ← decodeBase64Url manifestEncoded kBleOtaManifestMaximumBytes;
  signature ← decodeBase64Url signatureEncoded kBleOtaSignatureBytes;
  if negb (length signature =? kBleOtaSignatureBytes)%nat then None else
  manifest ← parseManifest manifestScratch;
  Some (manifestScratch, signature, manifest).

(** The state switch of [handleBegin] after the signature check. *)
Definition dispatchBegin (manifest : ParsedManifest) (updateId : list Z) : M S bool :=
  o <- self id ;;
  match state_ o with
  | Idle | Confirmed | RolledBack => prepareNewUpdate manifest updateId
  | Receiving | ReadyToReboot =>
      if negb (updateIdValid_ o) || negb (constantTimeEqual (updateId_ o) updateId)
      then fail "update_conflict" false
      else
        bound <- bindResumedManifest manifest updateId ;;
        if negb bound then fail "update_conflict" false else ret true
  | Failed =>
      if updateIdValid_ o && negb (constantTimeEqual (updateId_ o) updateId)
      then fail "update_conflict" false
      else fail "invalid_state" false
  | PendingVerify => fail "invalid_state" false
  end.

Definition handleBegin (payload : option (list Z)) (response : option nat)
  : M S (option (list Z)) :=
  match decodeBegin payload with
  | None => refuse "malformed_request" false response
  | Some (manifestScratch, signature, manifest) =>
      signed <- plat (verifyEd25519 kUpdateAuthority manifestScratch signature) ;;
      if negb signed then refuse "invalid_signature" false response
      else
        let updateId := shaFinish (shaUpdate shaStart manifestScratch) in
        accepted <- dispatchBegin manifest updateId ;;
        encodeReceipt accepted false false response
  end.

(** The parsing prefix of [handleWrite]. *)
Definition decodeWrite (payload : option (list Z)) : option (list Z * Z * list Z) :=
  '(requestId, offset, encodedData) ← parseWriteRequest payload;
  chunk ← decodeBase64Url encodedData (Z.to_nat kBleOtaChunkBytes);
  Some (requestId, offset, chunk).

(** [(chunkEnd + 4095) & ~4095] in 32 bits. *)
Definition eraseEndOf (chunkEnd : Z) : Z :=
  Z.land (u32 (chunkEnd + kBleOtaJournalBytes - 1)) (u32 (Z.lnot (kBleOtaJournalBytes - 1))).

(** The block that erases the sectors the next chunk needs. *)
Definition eraseAhead (chunkEnd : Z) : M S bool :=
  o <- self id ;;
  if erasedThrough_ o <? chunkEnd then
    let eraseEnd := eraseEndOf chunkEnd in
    if (kBleOtaMaximumImageBytes <? eraseEnd) ||
       negb (erasedThrough_ o mod kBleOtaJournalBytes =? 0)
    then ret false
    else
      erased <- plat (erasePartition (inactive_ o) (erasedThrough_ o)
                        (u32 (eraseEnd - erasedThrough_ o))) ;;
      if negb erased then ret false
      else upd (set_erasedThrough_ eraseEnd) ;;; ret true
  else ret true.

(** The sequential branch of [handleWrite], [offset = nextOffset_]. *)
Definition writeNext (offset : Z) (chunk : list Z) (response : option nat)
  : M S (option (list Z)) :=
  let chunkBytes := Z.of_nat (length chunk) in
  erased <- eraseAhead (u32 (offset + chunkBytes)) ;;
  if negb erased then refuse "flash_erase_failed" true response else
  inactivePart <- self inactive_ ;;
  written <- plat (writePartition inactivePart offset chunk) ;;
  if negb written then refuse "flash_write_failed" true response else
  same <- comparePartition offset chunk ;;
  if negb same then refuse "flash_read_failed" true response else
  upd (fun o => set_prefixHash_ (shaUpdate (prefixHash_ o) chunk) o) ;;;
  upd (fun o => set_nextOffset_ (u32 (nextOffset_ o + chunkBytes)) o) ;;;
  o <- self id ;;
  let durableOffset := nextOffset_ o - nextOffset_ o mod kBleOtaCheckpointBytes in
  appended <- (if persistedOffset_ o <? durableOffset
               then appendCheckpoint kJournalReceiving durableOffset else ret true) ;;
  if negb appended then refuse "journal_failed" true response else
  upd (set_error_ None) ;;;
  encodeReceipt true false false response.

Definition handleWrite (payload : option (list Z)) (response : option nat)
  : M S (option (list Z)) :=
  match decodeWrite payload with
  | None => refuse "malformed_request" false response
  | Some (requestId, offset, chunk) =>
      o <- self id ;;
      let chunkBytes := Z.of_nat (length chunk) in
      if negb (bool_decide (state_ o = Receiving)) then
        refuse "invalid_state" false response
      else if negb (manifestLoaded_ o) then refuse "begin_required" false response
      else if negb (constantTimeEqual requestId (updateId_ o)) then
        refuse "invalid_update_id" false response
      else if negb (negb (chunkBytes =? 0) && (chunkBytes <=? kBleOtaChunkBytes) &&
                    (offset <=? imageBytes_ o) && (chunkBytes <=? imageBytes_ o - offset)) then
        refuse (if (chunkBytes =? 0) || (kBleOtaChunkBytes <? chunkBytes)
                then "chunk_size_invalid" else "offset_invalid") false response
      else if offset <? nextOffset_ o then
        same <- (if nextOffset_ o <? u32 (offset + chunkBytes) then ret false
                 else comparePartition offset chunk) ;;
        if negb same then refuse "chunk_mismatch" false response
        else upd (set_error_ None) ;;; encodeReceipt true true false response
      else if negb (offset =? nextOffset_ o) then refuse "offset_invalid" false response
      else if negb (prefixHashReady_ o) then refuse "internal_error" true response
      else writeNext offset chunk response
  end.

(** [setBootPartition(inactive_)] with its error text and receipt. *)
Definition selectInactive (response : option nat) : M S (option (list Z)) :=
  inactivePart <- self inactive_ ;;
  selected <- plat (setBootPartition inactivePart) ;;
  upd (set_error_ (if selected then None else Some "boot_select_failed")) ;;;
  encodeReceipt selected false false response.

(** The two image digests of [handleFinish]: streamed, then read back. *)
Definition imageHashesMatch : M S bool :=
  o <- self id ;;
  let streamedOk := prefixHashReady_ o &&
    constantTimeEqual (shaFinish (prefixHash_ o)) (expectedImageSha256_ o) in
  when (prefixHashReady_ o) (upd (set_prefixHash_ shaZero)) ;;;
  upd (set_prefixHashReady_ false) ;;;
  if streamedOk then
    readback <- hashPartition (inactive_ o) (imageBytes_ o) ;;
    ret (digestIs readback (expectedImageSha256_ o))
  else ret false.

Definition handleFinish (payload : option (list Z)) (response : option nat)
  : M S (option (list Z)) :=
  match parseIdRequest payload with
  | None => refuse "malformed_request" false response
  | Some requestId =>
      o <- self id ;;
      if negb (updateIdValid_ o) || negb (constantTimeEqual requestId (updateId_ o)) then
        refuse "invalid_update_id" false response
      else if negb (manifestLoaded_ o) then refuse "begin_required" false response
      else if bool_decide (state_ o = ReadyToReboot) then selectInactive response
      else if negb (bool_decide (state_ o = Receiving)) then
        refuse "invalid_state" false response
      else if negb (nextOffset_ o =? imageBytes_ o) then
        refuse "incomplete_image" false response
      else
        hashesOk <- imageHashesMatch ;;
        if negb hashesOk then refuse "image_hash_mismatch" true response else
        bootable <- plat (verifyEspApplication (inactive_ o) (imageBytes_ o)) ;;
        if negb bootable then refuse "image_invalid" true response else
        appended <- appendCheckpoint kJournalReady (imageBytes_ o) ;;
        if negb appended then refuse "journal_failed" true response else
        upd (set_state_ ReadyToReboot) ;;;
        selectInactive response
  end.

Definition handleReboot (payload : option (list Z)) (response : option nat)
  : M S (option (list Z)) :=
  match parseIdRequest payload with
  | None => refuse "malformed_request" false response
  | Some requestId =>
      o <- self id ;;
      if negb (updateIdValid_ o && constantTimeEqual requestId (updateId_ o)) then
        refuse "invalid_update_id" false response
      else if negb (bool_decide (state_ o = ReadyToReboot)) then
        refuse "reboot_not_ready" false response
      else
        selected <- plat (setBootPartition (inactive_ o)) ;;
        if negb selected then refuse "boot_select_failed" false response else
        upd (set_rebootScheduled_ true) ;;;
        upd (set_rebootAt_ 0) ;;;
        upd (set_error_ None) ;;;
        encodeReceipt true false true response
  end.

Definition handleAbort (payload : option (list Z)) (response : option nat)
  : M S (option (list Z)) :=
  match parseIdRequest payload with
  | None => refuse "malformed_request" false response
  | Some requestId =>
      o <- self id ;;
      if bool_decide (state_ o = PendingVerify) || bool_decide (state_ o = Confirmed) then
        refuse "invalid_state" false response
      else if updateIdValid_ o && negb (constantTimeEqual requestId (updateId_ o)) then
        refuse "invalid_update_id" false response
      else
        upd (set_rebootScheduled_ false) ;;;
        upd (set_rebootAt_ 0) ;;;
        upd (set_rebootFallbackAt_ 0) ;;;
        selected <- plat (setBootPartition (running_ o)) ;;
        if negb selected then refuse "boot_select_failed" true response else
        settled <- (if journalHeaderReady_ o then
                      appended <- appendCheckpoint kJournalAborted (nextOffset_ o) ;;
                      if appended then ret true
                      else plat (erasePartition (inactive_ o) kJournalOffset
                                   kBleOtaJournalBytes)
                    else ret true) ;;
        if negb settled then refuse "journal_failed" true response else
        _ <- clearForIdle ;;
        encodeReceipt true false false response
  end.

Definition handleRequest (operation : option string) (payload : option (list Z))
    (response : option nat) : M S (option (list Z)) :=
  begun <- self begun_ ;;
  match (if begun then operation else None) with
  | None => refuse "not_begun" false response
  | Some op =>
      if String.eqb op "firmware.update.status" then handleStatus payload response
      else if String.eqb op "firmware.update.begin" then handleBegin payload response
      else if String.eqb op "firmware.update.write" then handleWrite payload response
      else if String.eqb op "firmware.update.finish" then handleFinish payload response
      else if String.eqb op "firmware.update.reboot" then handleReboot payload response
      else if String.eqb op "firmware.update.abort" then handleAbort payload response
      else refuse "malformed_request" false response
  end.

(** ** The main loop *)

Definition finishCriticalInitialization (healthy : bool) (nowMillis : Z) : M S bool :=
  o <- self id ;;
  if negb (begun_ o) then ret false
  else if negb (bool_decide (state_ o = PendingVerify)) then ret healthy
  else if negb healthy then rollback "rollback_failed"
  else
    upd (set_confirmationArmed_ true) ;;;
    upd (set_healthySince_ nowMillis) ;;;
    ret true.

(** The reboot block of [loop]; [true] when the board restarts. *)
Definition loopReboot (nowMillis : Z) (transmitIdle : bool) : M S bool :=
  scheduled <- self rebootScheduled_ ;;
  if scheduled then
    at0 <- self rebootAt_ ;;
    when (at0 =? 0)
      (upd (set_rebootAt_ (u32 (nowMillis + kBleOtaRebootDelayMs))) ;;;
       upd (set_rebootFallbackAt_ (u32 (nowMillis + kBleOtaRebootFallbackMs)))) ;;;
    o <- self id ;;
    if deadlineReached nowMillis (rebootAt_ o) &&
       (transmitIdle || deadlineReached nowMillis (rebootFallbackAt_ o))
    then
      upd (set_rebootScheduled_ false) ;;;
      plat restart ;;;
      ret true
    else ret false
  else ret false.

(** The confirmation block of [loop]. *)
Definition loopConfirm (nowMillis : Z) (criticalHealth : bool) : M S unit :=
  o <- self id ;;
  if negb (bool_decide (state_ o = PendingVerify)) || negb (confirmationArmed_ o) then ret tt
  else if negb criticalHealth then _ <- rollback "rollback_failed" ;; ret tt
  else if u32 (nowMillis - healthySince_ o) <? kBleOtaHealthyConfirmationMs then ret tt
  else
    marked <- plat markRunningValid ;;
    if negb marked then _ <- rollback "rollback_failed" ;; ret tt
    else
      upd (set_state_ Confirmed) ;;;
      upd (set_confirmationArmed_ false) ;;;
      upd (set_error_ None).

Definition loop (nowMillis : Z) (criticalHealth transmitIdle : bool) : M S unit :=
  begun <- self begun_ ;;
  if negb begun then ret tt
  else
    restarted <- loopReboot nowMillis transmitIdle ;;
    if restarted then ret tt else loopConfirm nowMillis criticalHealth.
End Machine.
