(* ===== verification/OtaTrace.v ===== *)
(** * Runs of the updater and what their event log proves

    The operations the rest of the firmware may call ([Op]), their execution
    over the logging platform, the evidence a log can hold for an update, and
    the rules by which the platform calls are executed symbolically. *)

From S2P Require Import Prelude Sha256 FlashLayout OtaCodec OtaManifest OtaPlatform Ota.
From S2P Require Import OtaCodecFacts.

Open Scope kitsu_scope.

(** [readPartition] fills the whole caller buffer or fails. *)
Class ReadsFill (W : Type) `{BleOtaPlatform W} : Prop :=
  reads_fill : forall p off n w d w',
    readPartition p off n w = (Some d, w') -> length d = n /\ bytesOk d.

(** ** Operations of the public interface *)

Inductive Op :=
| OpBegin (runningVersion : option (list Z))
| OpRequest (operation : option string) (payload : option (list Z)) (response : option nat)
| OpCritical (healthy : bool) (nowMillis : Z)
| OpLoop (nowMillis : Z) (criticalHealth transmitIdle : bool).

Definition runOp {W} `{BleOtaPlatform W} (op : Op) : M (S (W := W)) unit :=
  match op with
  | OpBegin v => _ <- begin v ;; ret tt
  | OpRequest operation payload response => _ <- handleRequest operation payload response ;; ret tt
  | OpCritical healthy now => _ <- finishCriticalInitialization healthy now ;; ret tt
  | OpLoop now health idle => loop now health idle
  end.

Fixpoint runOps {W} `{BleOtaPlatform W} (ops : list Op) : M (S (W := W)) unit :=
  match ops with
  | [] => ret tt
  | op :: rest => runOp op ;;; runOps rest
  end.

(** The state after [ops] on a fresh updater, with the calls it made. *)
Definition runFrom {W} `{BleOtaPlatform W} (w : W) (ops : list Op)
  : Ota * (W * list OtaEvent) :=
  snd (runOps ops (ota0, (w, []))).

Definition trace {W} `{BleOtaPlatform W} (w : W) (ops : list Op) : list OtaEvent :=
  snd (snd (runFrom w ops)).

(** ** Evidence *)

(** Every event of [log] is allowed by what precedes it. *)
Definition lawful (ok : list OtaEvent -> OtaEvent -> Prop) (log : list OtaEvent) : Prop :=
  forall before e after, log = before ++ e :: after -> ok before e.

(** A manifest accepted under the update authority, whose digest is [updateId]. *)
Definition signedFor (log : list OtaEvent) (updateId : list Z) (m : ParsedManifest) : Prop :=
  exists message signature,
    EvVerifySig kUpdateAuthority message signature true ∈ log /\
    parseManifest message = Some m /\ updateId = sha256 message.

(** The reads of [0, bytes) of a slot returned data with this SHA-256. *)
Definition readChunks (p : BleOtaPartition) (parts : list (Z * nat * list Z)) : list OtaEvent :=
  map (fun '(off, n, d) => EvRead p off n (Some d)) parts.

Fixpoint covers (from to : Z) (parts : list (Z * nat * list Z)) : Prop :=
  match parts with
  | [] => from = to
  | (off, n, d) :: rest =>
      off = from /\ length d = n /\ from + Z.of_nat n <= to /\ covers (from + Z.of_nat n) to rest
  end.

Definition readBack (log : list OtaEvent) (p : BleOtaPartition) (bytes : Z)
    (digest : list Z) : Prop :=
  exists before parts after,
    log = before ++ readChunks p parts ++ after /\ covers 0 bytes parts /\
    digest = sha256 (concat (map snd parts)).

(** The journal of a slot as [readJournal] computes it from its sector. *)
Definition scanAll (imageBytes : Z) (records : list (list Z)) : Scan :=
  fst (fold_left (fun '(sc, slot) record => (scanRecord imageBytes sc slot record, slot + 1))
         records (scan0, 0)).

Definition journalView (subtype : Z) (header : list Z) (records : list (list Z)) : JournalView :=
  match decodeHeader subtype header with
  | inl view => view
  | inr imageBytes =>
      let sc := scanAll imageBytes records in
      mkView (sc_found sc) (sc_state sc) (sc_offset sc) (sc_sequence sc) (sc_lastOccupied sc)
        (slice 16 32 header) (slice 48 32 header) imageBytes (cstr (slice 80 33 header))
  end.

(** The log holds a read of a slot's journal that yields [v]. *)
Definition journalRead (log : list OtaEvent) (p : BleOtaPartition) (v : JournalView) : Prop :=
  exists header records,
    EvRead p kJournalOffset kJournalHeaderBytes (Some header) ∈ log /\
    (forall slot record, records !! slot = Some record ->
       EvRead p (kJournalOffset + Z.of_nat (kJournalHeaderBytes + slot * kJournalCheckpointBytes))
         kJournalCheckpointBytes (Some record) ∈ log) /\
    v = journalView (op_subtype p) header records.

(** A slot may be booted: its journal was found Ready, or in this session a
    signed manifest named it, its content was read back with the manifest's
    digest and the boot loader's image check passed. *)
Definition bootable (log : list OtaEvent) (p : BleOtaPartition) : Prop :=
  (exists v, journalRead log p v /\ jv_present v = true /\ jv_state v = kJournalReady) \/
  (exists updateId m, signedFor log updateId m /\
     readBack log p (manifestImageBytes m) (manifestImageSha256 m) /\
     EvVerifyApp p (manifestImageBytes m) true ∈ log).

(** A pending running image is bound to its own Ready journal, which names the
    running version and the digest its slot reads back with. *)
Definition pendingBound (log : list OtaEvent) (running : BleOtaPartition)
    (runningVersion : list Z) : Prop :=
  exists v, journalRead log running v /\ jv_present v = true /\ jv_state v = kJournalReady /\
    EvBootState running BootPendingVerify ∈ log /\
    jv_targetVersion v = runningVersion /\
    readBack log running (jv_imageBytes v) (jv_imageSha256 v) /\
    EvVerifyApp running (jv_imageBytes v) true ∈ log.

(** ** Logs grow *)

Lemma lawful_nil ok : lawful ok [].
Proof. intros b e a E. destruct b; discriminate. Qed.

Lemma lawful_snoc ok log e : lawful ok log -> ok log e -> lawful ok (log ++ [e]).
Proof.
  intros Hl He b e' a E. destruct (decide (a = [])) as [->|Ha].
  - apply app_inj_tail in E as [-> ->]. exact He.
  - destruct (exists_last Ha) as (a' & x & ->).
    rewrite app_comm_cons, app_assoc in E. apply app_inj_tail in E as [E _].
    by apply (Hl b e' a').
Qed.

Lemma lawful_app ok log new :
  lawful ok log -> (forall b e a, new = b ++ e :: a -> ok (log ++ b) e) -> lawful ok (log ++ new).
Proof.
  revert log. induction new as [|e new IH]; intros log Hl Hn.
  - by rewrite app_nil_r.
  - replace (log ++ e :: new) with ((log ++ [e]) ++ new) by (by rewrite <- app_assoc).
    apply IH.
    + apply lawful_snoc; auto. rewrite <- (app_nil_r log). by apply (Hn [] e new).
    + intros b e' a ->. rewrite <- app_assoc. by apply (Hn (e :: b) e' a).
Qed.

Lemma lawful_elem ok log e : lawful ok log -> e ∈ log -> exists before, ok before e.
Proof. intros Hl (b & a & ->)%list_elem_of_split. exists b. by apply (Hl b e a). Qed.

Lemma lawful_mono (ok ok' : list OtaEvent -> OtaEvent -> Prop) log :
  (forall b e, ok b e -> ok' b e) -> lawful ok log -> lawful ok' log.
Proof. intros Hi Hl b e a E. apply Hi. by apply (Hl b e a). Qed.

Lemma signedFor_mono l l' id m : signedFor l id m -> signedFor (l ++ l') id m.
Proof. intros (s & g & He & Hp & Hi). exists s, g. rewrite elem_of_app. auto. Qed.
Lemma readBack_mono l l' p n d : readBack l p n d -> readBack (l ++ l') p n d.
Proof.
  intros (b & ps & a & -> & H). exists b, ps, (a ++ l'). rewrite <- !app_assoc. auto.
Qed.
Lemma journalRead_mono l l' p v : journalRead l p v -> journalRead (l ++ l') p v.
Proof.
  intros (h & rs & Hh & Hr & ->). exists h, rs. split; [|split]; auto.
  - rewrite elem_of_app. auto.
  - intros. rewrite elem_of_app. eauto.
Qed.
Lemma elem_mono {A} (l l' : list A) e : e ∈ l -> e ∈ l ++ l'.
Proof. rewrite elem_of_app. auto. Qed.
Lemma bootable_mono l l' p : bootable l p -> bootable (l ++ l') p.
Proof.
  intros [(v & H & Hv)|(i & m & Hs & Hr & He)].
  - left. exists v. split; auto. by apply journalRead_mono.
  - right. exists i, m. split; [by apply signedFor_mono|].
    split; [by apply readBack_mono|by apply elem_mono].
Qed.
Lemma pendingBound_mono l l' p v : pendingBound l p v -> pendingBound (l ++ l') p v.
Proof.
  intros (w & Hj & H1 & H2 & Hb & H3 & Hr & He). exists w.
  split; [by apply journalRead_mono|]. do 2 (split; auto).
  split; [by apply elem_mono|]. split; auto.
  split; [by apply readBack_mono|by apply elem_mono].
Qed.

Create HintDb trace.
#[export] Hint Resolve signedFor_mono readBack_mono journalRead_mono bootable_mono
  pendingBound_mono elem_mono : trace.

(** ** Symbolic execution over the logging platform *)

Section Rules.
Context {W : Type} `{BleOtaPlatform W}.
Implicit Types (o : Ota) (w : W) (log : list OtaEvent).

Lemma wp_self {A} (f : Ota -> A) (Q : A -> Ota * (W * list OtaEvent) -> Prop) o x :
  Q (f o) (o, x) -> wp (self f) Q (o, x).
Proof. auto. Qed.
Lemma wp_upd (f : Ota -> Ota) (Q : unit -> Ota * (W * list OtaEvent) -> Prop) o x :
  Q tt (f o, x) -> wp (upd f) Q (o, x).
Proof. auto. Qed.

Lemma wp_logged {A} (m : M W A) ev (Q : A -> Ota * (W * list OtaEvent) -> Prop) o w log :
  (forall a w', m w = (a, w') -> Q a (o, (w', log ++ [ev a]))) ->
  wp (plat (logged m ev)) Q (o, (w, log)).
Proof. intros HQ. unfold wp, plat, logged. simpl. destruct (m w). simpl. apply HQ. reflexivity. Qed.

Definition wp_read p off n := wp_logged (readPartition p off n) (EvRead p off n).
Definition wp_erase p off n := wp_logged (erasePartition p off n) (EvErase p off n).
Definition wp_write p off b := wp_logged (writePartition p off b) (EvWrite p off b).
Definition wp_app p n := wp_logged (verifyEspApplication p n) (EvVerifyApp p n).
Definition wp_sig k m s := wp_logged (verifyEd25519 k m s) (EvVerifySig k m s).
Definition wp_boot p := wp_logged (bootState p) (EvBootState p).
Definition wp_setboot p := wp_logged (setBootPartition p) (EvSetBoot p).
Definition wp_mark := wp_logged markRunningValid EvMarkValid.
Definition wp_roll := wp_logged rollbackRunningAndRestart EvRollback.
Definition wp_resolve := wp_logged resolvePartitions EvResolve.
Definition wp_restart := wp_logged restart (fun _ => EvRestart).
End Rules.

(** [ota_step] runs one statement; platform calls introduce their result. *)
Ltac ota_step :=
  lazymatch goal with
  | |- wp (self _) _ _ => apply wp_self
  | |- wp (upd _) _ _ => apply wp_upd
  | |- wp (plat (readPartition _ _ _)) _ _ => apply wp_read; intros ? ? ?
  | |- wp (plat (erasePartition _ _ _)) _ _ => apply wp_erase; intros ? ? ?
  | |- wp (plat (writePartition _ _ _)) _ _ => apply wp_write; intros ? ? ?
  | |- wp (plat (verifyEspApplication _ _)) _ _ => apply wp_app; intros ? ? ?
  | |- wp (plat (verifyEd25519 _ _ _)) _ _ => apply wp_sig; intros ? ? ?
  | |- wp (plat (bootState _)) _ _ => apply wp_boot; intros ? ? ?
  | |- wp (plat (setBootPartition _)) _ _ => apply wp_setboot; intros ? ? ?
  | |- wp (plat markRunningValid) _ _ => apply wp_mark; intros ? ? ?
  | |- wp (plat rollbackRunningAndRestart) _ _ => apply wp_roll; intros ? ? ?
  | |- wp (plat resolvePartitions) _ _ => apply wp_resolve; intros ? ? ?
  | |- wp (plat restart) _ _ => apply wp_restart; intros ? ? ?
  | |- _ => wp_step
  end; cbv beta.

(** [ota_run] runs statements up to the next branch or member call. *)
Ltac ota_run :=
  repeat lazymatch goal with
  | |- wp (match _ with _ => _ end) _ _ => fail
  | |- wp (when _ _) _ _ => fail
  | |- wp _ _ _ => ota_step
  end.
