(* ===== verification/OtaInvariant.v ===== *)
(** * The invariant of the updater

    [Inv o log] relates the private members to the calls made so far: ranges of
    the counters, what each state says about the evidence in the log, and that
    every flash, boot-selection and confirmation call was allowed by what came
    before it.  Every member function preserves it. *)

From S2P Require Import Prelude Sha256 FlashLayout OtaCodec OtaManifest OtaPlatform Ota.
From S2P Require Import OtaCodecFacts OtaTrace.

Open Scope kitsu_scope.

(** The allowed calls, for running slot [r], inactive slot [i] and version [v]. *)
Definition okEvent (r i : BleOtaPartition) (v : list Z) (before : list OtaEvent)
    (e : OtaEvent) : Prop :=
  match e with
  | EvErase p off n _ =>
      p = i /\ n = kBleOtaJournalBytes /\ off mod kBleOtaJournalBytes = 0 /\
      (off = kJournalOffset \/
       0 <= off /\ off + n <= kBleOtaMaximumImageBytes /\
       exists id m, signedFor before id m)
  | EvWrite p off bytes _ =>
      p = i /\
      (kJournalOffset <= off /\
         off + Z.of_nat (length bytes) <= kBleOtaAppPartitionBytes \/
       0 <= off /\ 0 < Z.of_nat (length bytes) <= kBleOtaChunkBytes /\
       exists id m, signedFor before id m /\
         off + Z.of_nat (length bytes) <= manifestImageBytes m)
  | EvSetBoot p _ => p = r \/ p = i /\ bootable before i
  | EvMarkValid _ => pendingBound before r v
  | _ => True
  end.

Definition isResolve (e : OtaEvent) : Prop :=
  match e with EvResolve _ => True | _ => False end.

(** The manifest fields the machine holds come from a signed manifest. *)
Definition manifestSigned (o : Ota) (log : list OtaEvent) : Prop :=
  exists m, signedFor log (updateId_ o) m /\ manifestImageBytes m = imageBytes_ o /\
    manifestImageSha256 m = expectedImageSha256_ o /\ firmwareVersion m = targetVersion_ o.

Record Ranges (o : Ota) : Prop := {
  rg_image : 0 <= imageBytes_ o <= kBleOtaMaximumImageBytes;
  rg_next : 0 <= nextOffset_ o <= imageBytes_ o;
  rg_persisted : 0 <= persistedOffset_ o <= nextOffset_ o;
  rg_erased : 0 <= erasedThrough_ o <= kBleOtaMaximumImageBytes;
  rg_slot : 0 <= journalNextSlot_ o <= Z.of_nat kJournalCheckpointCapacity;
  rg_sequence : 0 <= journalSequence_ o <= UINT16_MAX;
  rg_id : length (updateId_ o) = kBleOtaDigestBytes /\ bytesOk (updateId_ o);
  rg_sha : length (expectedImageSha256_ o) = kBleOtaDigestBytes /\
           bytesOk (expectedImageSha256_ o);
}.

Record Inv (o : Ota) (log : list OtaEvent) : Prop := {
  inv_ranges : Ranges o;
  inv_erase : state_ o = Receiving -> nextOffset_ o <= erasedThrough_ o;
  inv_fresh : begun_ o = false ->
    Forall isResolve log /\ state_ o = Idle /\ manifestLoaded_ o = false /\
    confirmationArmed_ o = false;
  inv_slots : begun_ o = true -> slotsOk (running_ o) (inactive_ o) = true;
  inv_loaded : manifestLoaded_ o = true -> manifestSigned o log;
  inv_loadedState : manifestLoaded_ o = true ->
    state_ o = Receiving \/ state_ o = ReadyToReboot \/ state_ o = Failed;
  inv_ready : state_ o = ReadyToReboot -> bootable log (inactive_ o);
  inv_pending : state_ o = PendingVerify -> pendingBound log (running_ o) (runningVersion_ o);
  inv_armed : confirmationArmed_ o = true -> state_ o = PendingVerify;
  inv_lawful : lawful (okEvent (running_ o) (inactive_ o) (runningVersion_ o)) log;
}.

(** A postcondition on the members and the log, whatever the platform's world. *)
Definition post {W A} (P : A -> Ota -> list OtaEvent -> Prop)
  : A -> Ota * (W * list OtaEvent) -> Prop :=
  fun a s => P a (fst s) (snd (snd s)).

Lemma wp_post {W A} (m : M (Ota * (W * list OtaEvent)) A) P Q s :
  wp m (post P) s ->
  (forall a o' w' log', P a o' log' -> Q a (o', (w', log'))) -> wp m Q s.
Proof.
  unfold wp, post. destruct (m s) as [a [o' [w' log']]]. simpl. auto.
Qed.
Lemma post_intro {W A} (P : A -> Ota -> list OtaEvent -> Prop) a o (w : W) log :
  P a o log -> post P a (o, (w, log)).
Proof. auto. Qed.

(** [ota_call L] runs a member function by its lemma [L]; [ota_done] reaches
    the postcondition. *)
Ltac ota_call L := eapply wp_post; [apply L|cbv beta; intros ? ? ? ?].
Ltac ota_done := apply post_intro; cbv beta.

Lemma manifestSigned_mono o l l' : manifestSigned o l -> manifestSigned o (l ++ l').
Proof. intros (m & H & E). exists m. split; auto with trace. Qed.

#[export] Hint Resolve manifestSigned_mono : trace.

(** An allowed call keeps the invariant. *)
Lemma Inv_event o log e :
  begun_ o = true -> Inv o log ->
  okEvent (running_ o) (inactive_ o) (runningVersion_ o) log e -> Inv o (log ++ [e]).
Proof.
  intros Hb [] He. constructor; auto using lawful_snoc with trace; congruence.
Qed.

(** ** Byte comparisons *)

Lemma fold_lor_zero l : Forall (fun b => 0 <= b) l -> forall acc, 0 <= acc ->
  (fold_left Z.lor l acc =? 0) = (acc =? 0) && forallb (fun b => b =? 0) l.
Proof.
  induction 1 as [|b l Hb _ IH]; intros acc Ha; simpl; [by rewrite andb_true_r|].
  rewrite IH by (apply Z.lor_nonneg; auto).
  destruct (Z.eqb_spec (Z.lor acc b) 0) as [E|E].
  - apply Z.lor_eq_0_iff in E as [-> ->]. reflexivity.
  - destruct (Z.eqb_spec acc 0), (Z.eqb_spec b 0); simpl; auto; subst; by destruct E.
Qed.

Lemma lxor_byte x y : isByte x -> isByte y -> 0 <= Z.lxor x y.
Proof. intros [] []. apply Z.lxor_nonneg. lia. Qed.

Lemma constantTimeEqual_spec a : forall b, length a = length b -> bytesOk a -> bytesOk b ->
  constantTimeEqual a b = true <-> a = b.
Proof.
  intros b Hl Ha Hb. unfold constantTimeEqual.
  assert (Hf : Forall (fun c => 0 <= c) (zip_with Z.lxor a b)).
  { clear Hl. revert b Hb. induction Ha as [|x a Hx _ IH]; intros b Hb; simpl; auto.
    destruct Hb; simpl; constructor; auto using lxor_byte. }
  rewrite fold_lor_zero by (auto; lia). simpl. clear Hf.
  revert b Hl Hb. induction Ha as [|x a Hx _ IH]; intros [|y b] Hl Hb; try discriminate;
    simpl; [split; auto|]. inversion Hb; subst.
  rewrite andb_true_iff, IH, Z.eqb_eq, Z.lxor_eq_0_iff by (simpl in Hl; auto).
  split; [intros [-> ->]|intros [= -> ->]]; auto.
Qed.

Lemma allBytes_spec l v : bytesOk l -> isByte v ->
  allBytes l v = true <-> Forall (fun b => b = v) l.
Proof.
  intros Hl Hv. unfold allBytes. rewrite fold_lor_zero; [|induction Hl; simpl; constructor;
    auto using lxor_byte|lia]. simpl.
  induction Hl as [|b l Hb _ IH]; simpl; [split; auto|].
  rewrite andb_true_iff, IH, Z.eqb_eq, Z.lxor_eq_0_iff, Forall_cons. reflexivity.
Qed.

(** ** Quiet extensions of the log *)

(** Calls that only read or check. *)
Definition harmless (e : OtaEvent) : Prop :=
  match e with
  | EvErase _ _ _ _ | EvWrite _ _ _ _ | EvSetBoot _ _ | EvMarkValid _
  | EvRollback _ | EvRestart => False
  | _ => True
  end.

Definition quiet (log log' : list OtaEvent) : Prop :=
  exists new, log' = log ++ new /\ Forall harmless new.

Lemma quiet_refl log : quiet log log.
Proof. exists []. by rewrite app_nil_r. Qed.
Lemma quiet_snoc log log' e : quiet log log' -> harmless e -> quiet log (log' ++ [e]).
Proof.
  intros (new & -> & Hn) He. exists (new ++ [e]). rewrite <- app_assoc. split; auto.
  apply Forall_app; auto.
Qed.
Lemma quiet_trans a b c : quiet a b -> quiet b c -> quiet a c.
Proof.
  intros (n1 & -> & H1) (n2 & -> & H2). exists (n1 ++ n2). rewrite app_assoc. split; auto.
  by apply Forall_app.
Qed.

Lemma Inv_quiet o log log' : begun_ o = true -> Inv o log -> quiet log log' -> Inv o log'.
Proof.
  intros Hb Hi (new & -> & Hn). revert log Hi. induction Hn as [|e new He _ IH]; intros log Hi.
  - by rewrite app_nil_r.
  - replace (log ++ e :: new) with ((log ++ [e]) ++ new) by (by rewrite <- app_assoc).
    apply IH, Inv_event; auto. by destruct e.
Qed.

Create HintDb quiet.
#[export] Hint Resolve quiet_refl quiet_snoc : quiet.
#[export] Hint Extern 1 (harmless _) => exact I : quiet.

(** ** The journal *)

Lemma scanAll_snoc n rs r :
  scanAll n (rs ++ [r]) = scanRecord n (scanAll n rs) (Z.of_nat (length rs)) r.
Proof.
  unfold scanAll.
  assert (H : forall rs sc k, snd (fold_left (fun '(sc, slot) record =>
    (scanRecord n sc slot record, slot + 1)) rs (sc, k)) = k + Z.of_nat (length rs)).
  { clear rs. induction rs as [|x rs IH]; intros sc k; simpl; [lia|]. rewrite IH. lia. }
  rewrite fold_left_app. specialize (H rs scan0 0). simpl.
  destruct (fold_left _ rs (scan0, 0)) as [sc k]. simpl in *. by rewrite H.
Qed.

Definition scanOk (imageBytes : Z) (sc : Scan) : Prop :=
  0 <= sc_offset sc <= imageBytes /\ 0 <= sc_sequence sc <= UINT16_MAX /\
  0 <= sc_lastOccupied sc /\
  (sc_found sc = true -> sc_state sc = kJournalReady -> sc_offset sc = imageBytes) /\
  (sc_found sc = true -> sc_state sc = kJournalReceiving ->
     sc_offset sc mod kBleOtaJournalBytes = 0).

Lemma get32_range l : 0 <= get32 l <= UINT32_MAX.
Proof. unfold get32. pose proof (u32_range (Z.lor (Z.lor (Z.lor (byte_at l 0)
  (Z.shiftl (byte_at l 1) 8)) (Z.shiftl (byte_at l 2) 16)) (Z.shiftl (byte_at l 3) 24))).
  unfold UINT32_MAX. lia. Qed.
Lemma get16_range l : 0 <= get16 l <= UINT16_MAX.
Proof. unfold get16. pose proof (u16_range (Z.lor (byte_at l 0) (Z.shiftl (byte_at l 1) 8))).
  unfold UINT16_MAX. lia. Qed.

Lemma recordValid_offset n r : recordValid n r = true ->
  get32 (drop 8 r) <= n /\
  (byte_at r 6 = kJournalReady -> get32 (drop 8 r) = n) /\
  (byte_at r 6 = kJournalReceiving -> get32 (drop 8 r) mod kBleOtaJournalBytes = 0).
Proof.
  unfold recordValid. intros H. apply andb_true_iff in H as [H _].
  apply andb_true_iff in H as [_ H]. apply andb_true_iff in H as [H H3].
  apply andb_true_iff in H as [H1 H2]. apply Z.leb_le in H1. split; [auto|]. split; intros E.
  - rewrite E in H2. simpl in H2. by apply Z.eqb_eq in H2.
  - rewrite E in H3. simpl in H3. unfold kBleOtaJournalBytes, kBleOtaCheckpointBytes in *.
    apply orb_true_iff in H3 as [H3|H3]; apply Z.eqb_eq in H3; [by rewrite H3|].
    apply Z.mod_divide in H3 as [k ->]; [|lia].
    replace (k * (64 * 1024)) with (k * 16 * 4096) by lia. apply Z.mod_mul. lia.
Qed.

Lemma scanRecord_ok n sc slot r : 0 <= n -> scanOk n sc -> scanOk n (scanRecord n sc slot r).
Proof.
  intros Hn (H1 & H2 & H3 & H4 & H5). unfold scanRecord, scanOk.
  pose proof (u16_range (slot + 1)).
  repeat case_match; simpl; repeat split; auto; try lia;
    match goal with H : negb (recordValid _ _) = false |- _ =>
      apply negb_false_iff, recordValid_offset in H as (? & ? & ?) end;
    pose proof (get32_range (drop 8 r)); pose proof (get16_range (drop 4 r)); auto; lia.
Qed.

Lemma scanAll_ok n rs : 0 <= n -> scanOk n (scanAll n rs).
Proof.
  intros Hn. induction rs as [|r rs IH] using rev_ind; [|rewrite scanAll_snoc; by apply scanRecord_ok].
  unfold scanAll, scanOk. simpl. unfold UINT16_MAX. repeat split; try lia; discriminate.
Qed.

Lemma scanAll_occupied n rs : (length rs <= kJournalCheckpointCapacity)%nat ->
  sc_lastOccupied (scanAll n rs) <= Z.of_nat (length rs).
Proof.
  unfold kJournalCheckpointCapacity.
  induction rs as [|r rs IH] using rev_ind; intros Hl; [simpl; lia|].
  rewrite length_app in *. simpl in Hl. rewrite scanAll_snoc.
  assert (Hu : u16 (Z.of_nat (length rs) + 1) = Z.of_nat (length rs) + 1)
    by (apply u16_id; simpl in Hl; lia).
  unfold scanRecord. repeat case_match; simpl; rewrite ?Hu; simpl in *; lia.
Qed.

(** What the reader guarantees about a present journal. *)
Record viewOk (v : JournalView) : Prop := {
  vk_bytes : 0 <= jv_imageBytes v <= kBleOtaMaximumImageBytes;
  vk_offset : 0 <= jv_offset v <= jv_imageBytes v;
  vk_slot : 0 <= jv_nextSlot v <= Z.of_nat kJournalCheckpointCapacity;
  vk_sequence : 0 <= jv_sequence v <= UINT16_MAX;
  vk_id : length (jv_updateId v) = kBleOtaDigestBytes /\ bytesOk (jv_updateId v);
  vk_sha : length (jv_imageSha256 v) = kBleOtaDigestBytes /\ bytesOk (jv_imageSha256 v);
  vk_ready : viewIs v kJournalReady = true -> jv_offset v = jv_imageBytes v;
  vk_receiving : viewIs v kJournalReceiving = true ->
    jv_offset v mod kBleOtaJournalBytes = 0;
}.

Lemma decodeHeader_inr subtype header n :
  decodeHeader subtype header = inr n -> 0 < n <= kBleOtaMaximumImageBytes.
Proof.
  unfold decodeHeader. intros E. repeat case_match; try discriminate. injection E as <-.
  match goal with H : _ || _ = false |- _ =>
    do 2 (apply orb_false_iff in H as [H _]); apply orb_false_iff in H as [H1 H2] end.
  apply Z.eqb_neq in H1. apply Z.ltb_ge in H2. pose proof (get32_range (drop 8 header)). lia.
Qed.

Lemma decodeHeader_inl subtype header v : decodeHeader subtype header = inl v ->
  jv_present v = false.
Proof.
  unfold decodeHeader. intros E. repeat case_match; try discriminate; by injection E as <-.
Qed.

Lemma zeroDigest_ok : length zeroDigest = kBleOtaDigestBytes /\ bytesOk zeroDigest.
Proof. split; [reflexivity|]. repeat constructor; unfold isByte; lia. Qed.

Lemma journalView_ok subtype header records v :
  length header = kJournalHeaderBytes -> bytesOk header ->
  (length records <= kJournalCheckpointCapacity)%nat ->
  v = journalView subtype header records -> jv_present v = true -> viewOk v.
Proof.
  intros Hl Hok Hr -> Hp. unfold journalView in *.
  destruct (decodeHeader subtype header) as [u|n] eqn:E.
  { apply decodeHeader_inl in E. congruence. }
  apply decodeHeader_inr in E. simpl in Hp.
  destruct (scanAll_ok n records) as (H1 & H2 & H3 & H4 & H5); [lia|].
  pose proof (scanAll_occupied n records Hr).
  unfold kJournalHeaderBytes in Hl.
  constructor; simpl; try lia.
  - split; [|by apply slice_ok]. rewrite slice_length; [reflexivity|lia].
  - split; [|by apply slice_ok]. rewrite slice_length; [reflexivity|lia].
  - unfold viewIs. simpl. intros [? ?%Z.eqb_eq]%andb_true_iff. auto.
  - unfold viewIs. simpl. intros [? ?%Z.eqb_eq]%andb_true_iff. auto.
Qed.

Section Members.
Context {W : Type} `{BP : BleOtaPlatform W} `{RF : !ReadsFill W}.
Implicit Types (o : Ota) (w : W) (log : list OtaEvent).

Lemma readCheckpoints_wp p n m : forall rs o w log,
  (forall slot record, rs !! slot = Some record ->
     EvRead p (kJournalOffset + Z.of_nat (kJournalHeaderBytes + slot * kJournalCheckpointBytes))
       kJournalCheckpointBytes (Some record) ∈ log) ->
  wp (readCheckpoints p n (seq (length rs) m) (scanAll n rs))
     (post (fun r o' log' => o' = o /\ quiet log log' /\
        forall sc, r = Some sc -> exists rs',
          (length rs' <= length rs + m)%nat /\ sc = scanAll n rs' /\
          (forall slot record, rs' !! slot = Some record ->
             EvRead p (kJournalOffset + Z.of_nat (kJournalHeaderBytes + slot * kJournalCheckpointBytes))
               kJournalCheckpointBytes (Some record) ∈ log')))
     (o, (w, log)).
Proof using RF.
  induction m as [|m IH]; intros rs o w log Hrs; cbn [readCheckpoints seq].
  - ota_step. ota_done. split; [done|]. split; [apply quiet_refl|].
    intros sc [= <-]. exists rs. rewrite Nat.add_0_r. auto.
  - ota_step. ota_step. destruct a as [record|].
    + rewrite <- scanAll_snoc.
      replace (Datatypes.S (length rs)) with (length (rs ++ [record])) by (rewrite length_app; simpl; lia).
      eapply wp_post; [apply IH|].
      * intros slot r Hl. apply elem_of_app.
        apply lookup_app_Some in Hl as [Hl|[Hge Hl]]; [left; eauto|right].
        apply list_lookup_singleton_Some in Hl as [Hs <-].
        assert (slot = length rs) as -> by lia. by constructor.
      * intros r o' w'' log' (-> & Hq & Hsc). ota_done. split; [done|]. split.
        { eapply quiet_trans; [|exact Hq]. auto with quiet. }
        intros sc Es. destruct (Hsc sc Es) as (rs' & Hl & ? & ?). exists rs'.
        rewrite length_app in Hl. simpl in Hl. split; [lia|auto].
    + ota_step. ota_done. split; [done|]. split; [auto with quiet|]. discriminate.
Qed.

Lemma readJournal_wp p o w log :
  wp (readJournal p)
     (post (fun r o' log' => o' = o /\ quiet log log' /\
        forall v, r = Some v -> journalRead log' p v /\ (jv_present v = true -> viewOk v)))
     (o, (w, log)).
Proof using RF.
  unfold readJournal. ota_step. ota_step.
  destruct a as [header|];
    [|ota_step; ota_done; split; [done|]; split; [auto with quiet|discriminate]].
  match goal with H : readPartition _ _ _ _ = _ |- _ => apply reads_fill in H as [Hl Hok] end.
  assert (Hin : EvRead p kJournalOffset kJournalHeaderBytes (Some header) ∈
                log ++ [EvRead p kJournalOffset kJournalHeaderBytes (Some header)])
    by (apply elem_of_app; right; by constructor).
  destruct (decodeHeader (op_subtype p) header) as [u|n] eqn:E.
  - ota_step. ota_done. split; [done|]. split; [auto with quiet|].
    intros v [= <-]. assert (Hv : u = journalView (op_subtype p) header [])
      by (unfold journalView; by rewrite E).
    split; [exists header, []; split; [auto|]; split; [done|auto]|].
    intros Hp. eapply journalView_ok; [exact Hl|exact Hok| |exact Hv|exact Hp]. simpl. lia.
  - ota_step. eapply wp_post.
    { apply (readCheckpoints_wp p n kJournalCheckpointCapacity [] o). done. }
    intros r o' w'' log' (-> & Hq & Hsc). ota_step. ota_done.
    split; [done|]. split; [eapply quiet_trans; [|exact Hq]; auto with quiet|].
    destruct r as [sc|]; [|discriminate]. intros v [= <-].
    destruct (Hsc sc eq_refl) as (rs & Hrl & -> & Hrs).
    match goal with |- context [journalRead _ p ?v] =>
      assert (Hv : v = journalView (op_subtype p) header rs)
        by (unfold journalView; by rewrite E) end.
    split.
    + exists header, rs. split; [|split; auto].
      destruct Hq as (new & -> & _). by apply elem_mono.
    + intros Hp. eapply journalView_ok; [exact Hl|exact Hok| |exact Hv|exact Hp]. exact Hrl.
Qed.

Lemma hashLoop_wp p bytes fuel : forall off ctx o w log,
  0 <= off <= bytes -> bytes - off <= kBleOtaChunkBytes * Z.of_nat fuel ->
  wp (hashLoop fuel p off bytes ctx)
     (post (fun r o' log' => o' = o /\ quiet log log' /\
        forall c, r = Some c -> exists parts,
          log' = log ++ readChunks p parts /\ covers off bytes parts /\
          c = fold_left shaUpdate (map snd parts) ctx))
     (o, (w, log)).
Proof using RF.
  unfold kBleOtaChunkBytes.
  induction fuel as [|fuel IH]; intros off ctx o w log Ho Hf; cbn [hashLoop].
  { ota_step. ota_done. split; [done|]. split; [auto with quiet|].
    intros c [= <-]. exists []. rewrite app_nil_r. repeat split; simpl; auto. lia. }
  destruct (Z.ltb_spec off bytes) as [Hlt|Hge].
  - ota_step. ota_step. destruct a as [d|];
      [|ota_step; ota_done; split; [done|]; split; [auto with quiet|discriminate]].
    match goal with H : readPartition _ _ _ _ = _ |- _ => apply reads_fill in H as [Hl _] end.
    unfold kBleOtaChunkBytes in *.
    remember (Z.to_nat (Z.min (bytes - off) 4096)) as n eqn:En.
    eapply wp_post; [apply IH; lia|]. intros r o' w'' log' (-> & Hq & Hc). ota_done.
    split; [done|]. split; [eapply quiet_trans; [|exact Hq]; auto with quiet|].
    intros c Ec. destruct (Hc c Ec) as (parts & -> & Hcov & ->).
    exists ((off, n, d) :: parts). split; [by rewrite <- app_assoc|].
    split; [|done]. simpl. repeat split; auto. lia.
  - ota_step. ota_done. split; [done|]. split; [auto with quiet|].
    intros c [= <-]. exists []. rewrite app_nil_r. repeat split; simpl; auto. lia.
Qed.

Lemma hashFuel_enough bytes :
  0 <= bytes -> bytes - 0 <= kBleOtaChunkBytes * Z.of_nat (hashFuel bytes).
Proof.
  intros Hb. unfold hashFuel, kBleOtaChunkBytes.
  pose proof (Z.div_mod bytes 4096). pose proof (Z.mod_pos_bound bytes 4096).
  pose proof (Z.div_pos bytes 4096). lia.
Qed.

Lemma hashPartition_wp p bytes o w log : 0 <= bytes ->
  wp (hashPartition p bytes)
     (post (fun r o' log' => o' = o /\ quiet log log' /\
        forall d, r = Some d -> readBack log' p bytes d /\ length d = kBleOtaDigestBytes /\
          bytesOk d))
     (o, (w, log)).
Proof using RF.
  intros Hb. unfold hashPartition. ota_step.
  eapply wp_post; [apply hashLoop_wp; [lia|by apply hashFuel_enough]|].
  intros r o' w' log' (-> & Hq & Hc). ota_step. ota_done. split; [done|]. split; [done|].
  destruct r as [c|]; [|discriminate]. intros d [= <-].
  destruct (Hc c eq_refl) as (parts & -> & Hcov & ->).
  destruct shaStart_wf. rewrite shaUpdate_parts, shaFinish_update by auto.
  split; [|split; [apply sha256_length|apply sha256_ok]].
  exists log, parts, []. by rewrite app_nil_r.
Qed.

Lemma compareLoop_wp p fuel : forall off expected o w log,
  wp (compareLoop fuel p off expected)
     (post (fun _ o' log' => o' = o /\ quiet log log')) (o, (w, log)).
Proof using.
  induction fuel as [|fuel IH]; intros off expected o w log; cbn [compareLoop].
  - ota_step. ota_done. auto with quiet.
  - destruct expected as [|b e]; [ota_step; ota_done; auto with quiet|].
    ota_step. ota_step. destruct a as [d|]; [|ota_step; ota_done; auto with quiet].
    ota_step; [|ota_step; ota_done; auto with quiet].
    eapply wp_post; [apply IH|]. intros ? o' ? ? (-> & Hq). ota_done. split; [done|].
    eapply quiet_trans; [|exact Hq]. auto with quiet.
Qed.

Lemma comparePartition_wp off expected o w log :
  wp (comparePartition off expected)
     (post (fun _ o' log' => o' = o /\ quiet log log')) (o, (w, log)).
Proof using. unfold comparePartition. ota_step. ota_step. apply compareLoop_wp. Qed.

Lemma writeVerified_wp p off bytes o w log :
  wp (writeVerified p off bytes)
     (post (fun _ o' log' => o' = o /\
        exists ok, quiet (log ++ [EvWrite p off bytes ok]) log'))
     (o, (w, log)).
Proof using.
  unfold writeVerified. ota_step. ota_step. ota_step.
  - ota_step. ota_done. split; [done|]. exists a. auto with quiet.
  - ota_step. ota_step. ota_step. ota_done. split; [done|]. exists a. auto with quiet.
Qed.
End Members.

(** ** Members the invariant does not mention *)

Definition core (o : Ota) :=
  (running_ o, inactive_ o, state_ o, begun_ o, manifestLoaded_ o, confirmationArmed_ o,
   (updateId_ o, expectedImageSha256_ o, runningVersion_ o, targetVersion_ o),
   (imageBytes_ o, nextOffset_ o, persistedOffset_ o, erasedThrough_ o),
   (journalSequence_ o, journalNextSlot_ o)).

Lemma Inv_core o o' log : core o = core o' -> Inv o log -> Inv o' log.
Proof.
  destruct o, o'. unfold core. simpl. intros [= -> -> -> -> -> -> -> -> -> -> -> -> -> -> -> ->].
  intros [[] ?]. split; [split|..]; assumption.
Qed.

(** ** What every member function preserves *)

Record good (o : Ota) (log : list OtaEvent) (o' : Ota) (log' : list OtaEvent) : Prop := {
  gd_inv : Inv o' log';
  gd_begun : begun_ o' = true;
  gd_running : running_ o' = running_ o;
  gd_inactive : inactive_ o' = inactive_ o;
  gd_version : runningVersion_ o' = runningVersion_ o;
  gd_log : log `prefix_of` log';
}.

Lemma good_refl o log : begun_ o = true -> Inv o log -> good o log o log.
Proof. constructor; auto. Qed.

Lemma good_trans o log o1 l1 o2 l2 :
  good o log o1 l1 -> good o1 l1 o2 l2 -> good o log o2 l2.
Proof.
  intros [] []. constructor; try congruence; auto. by etransitivity.
Qed.

Lemma good_core o log o1 l1 o2 : good o log o1 l1 -> core o1 = core o2 -> good o log o2 l1.
Proof.
  intros [] E. constructor; auto; try by eapply Inv_core.
  all: unfold core in E; injection E; intros; congruence.
Qed.

Lemma good_quiet o log o1 l1 l2 : good o log o1 l1 -> quiet l1 l2 -> good o log o1 l2.
Proof.
  intros [] Hq. constructor; auto. { by eapply Inv_quiet. }
  destruct Hq as (new & -> & _). etransitivity; [eauto|]. by apply prefix_app_r.
Qed.

Lemma good_event o log o1 l1 e : good o log o1 l1 ->
  okEvent (running_ o1) (inactive_ o1) (runningVersion_ o1) l1 e -> good o log o1 (l1 ++ [e]).
Proof.
  intros [] He. constructor; auto. { by apply Inv_event. }
  etransitivity; [eauto|]. by apply prefix_app_r.
Qed.

(** Leaving for the failed state is always allowed, unless armed. *)
Lemma good_failed o log o1 l1 o2 :
  good o log o1 l1 -> state_ o1 <> PendingVerify ->
  core o2 = core (set_state_ Failed o1) -> good o log o2 l1.
Proof.
  intros [Hi Hb ? ? ? ?] Hs E. eapply good_core; [|symmetry; exact E].
  constructor; auto. destruct Hi as [[] ? ? ? ? ? ? ? Ha ?].
  split; [split|..]; simpl in *; auto; try discriminate; try congruence.
  intros H. by apply Ha in H.
Qed.

Lemma prefix_grow (l l' : list OtaEvent) : l `prefix_of` l' -> exists new, l' = l ++ new.
Proof. intros [k ->]. eauto. Qed.

Section Preserve.
Context {W : Type} `{BP : BleOtaPlatform W} `{RF : !ReadsFill W}.
Implicit Types (o : Ota) (w : W) (log : list OtaEvent).

Lemma fail_wp e (terminal : bool) o w log o0 l0 :
  good o0 l0 o log -> (terminal = true -> state_ o <> PendingVerify) ->
  wp (fail e terminal) (post (fun r o' log' => r = false /\ good o0 l0 o' log')) (o, (w, log)).
Proof using.
  intros Hg Ht. unfold fail. do 3 ota_step. ota_step; do 2 ota_step; ota_done; split; auto.
  - eapply good_failed; [exact Hg|auto|reflexivity].
  - by eapply good_core.
Qed.

Lemma encodeReceipt_wp ok rp sc resp o w log o0 l0 :
  good o0 l0 o log ->
  wp (encodeReceipt ok rp sc resp) (post (fun _ o' log' => good o0 l0 o' log')) (o, (w, log)).
Proof using. intros Hg. unfold encodeReceipt. do 3 ota_step. ota_done. exact Hg. Qed.

Lemma refuse_wp e (terminal : bool) resp o w log o0 l0 :
  good o0 l0 o log -> (terminal = true -> state_ o <> PendingVerify) ->
  wp (refuse e terminal resp) (post (fun _ o' log' => good o0 l0 o' log')) (o, (w, log)).
Proof using.
  intros Hg Ht. unfold refuse. ota_step. eapply wp_post; [by apply fail_wp|].
  intros r o' w' log' (_ & Hg'). by apply encodeReceipt_wp.
Qed.

(** Rolling back is allowed wherever the machine could be but for its state. *)
Lemma rollback_wp_from ob e o w log o0 l0 :
  good o0 l0 ob log -> core (set_state_ Failed ob) = core (set_state_ Failed o) ->
  wp (rollback e) (post (fun r o' log' => r = false /\ good o0 l0 o' log' /\
                           state_ o' = Failed)) (o, (w, log)).
Proof using.
  intros Hg Hc. unfold rollback.
  assert (Hg' : forall err, good o0 l0 (set_confirmationArmed_ false (set_error_ err
                   (set_state_ Failed o))) log).
  { intros err. eapply (good_core _ _ (set_confirmationArmed_ false (set_state_ Failed ob))).
    2:{ unfold core in *. simpl in *. congruence. }
    destruct Hg as [Hi Hb ? ? ? ?]. constructor; auto.
    destruct Hi as [[] ? ? ? ? ? ? ? ? ?].
    split; [split|..]; simpl in *; auto; try discriminate; congruence. }
  repeat ota_step; ota_done; (split; [done|]; split; [|done]);
    try (eapply good_event; [|exact I]); eauto using good_core.
  all: eapply good_core; [apply (Hg' None)|reflexivity].
Qed.

Lemma rollback_wp e o w log o0 l0 :
  good o0 l0 o log ->
  wp (rollback e) (post (fun r o' log' => r = false /\ good o0 l0 o' log' /\
                           state_ o' = Failed)) (o, (w, log)).
Proof using. intros Hg. by apply (rollback_wp_from o). Qed.

Lemma clearForIdle_wp o w log o0 l0 :
  good o0 l0 o log ->
  wp clearForIdle (post (fun r o' log' => good o0 l0 o' log' /\ r = true)) (o, (w, log)).
Proof using.
  intros Hg. unfold clearForIdle. do 3 ota_step. ota_done. split; [|done].
  destruct Hg as [[[] ? Hf ? ? ? ? ? ? ?] Hb ? ? ? ?].
  constructor; simpl in *; auto.
  split; [split|..]; simpl; auto using zeroDigest_ok; try discriminate; try congruence;
    unfold kBleOtaMaximumImageBytes, kJournalCheckpointCapacity, UINT16_MAX in *; simpl; lia.
Qed.

Lemma encodeRecord_length sequence st off : length (encodeRecord sequence st off) = 16%nat.
Proof using. reflexivity. Qed.

(** Appending changes the three journal counters only. *)
Definition journalMoved (o o' : Ota) : Prop :=
  exists s k p, o' = set_persistedOffset_ p (set_journalNextSlot_ k (set_journalSequence_ s o)).

Lemma appendCheckpoint_wp st n o w log o0 l0 :
  good o0 l0 o log -> 0 <= n <= nextOffset_ o ->
  wp (appendCheckpoint st n)
     (post (fun _ o' log' => good o0 l0 o' log' /\ journalMoved o o')) (o, (w, log)).
Proof using.
  intros Hg Hn. unfold appendCheckpoint. do 8 ota_step.
  assert (Hsame : journalMoved o o)
    by (exists (journalSequence_ o), (journalNextSlot_ o), (persistedOffset_ o); by destruct o).
  ota_step; [ota_step; ota_done; auto|].
  rewrite !orb_false_iff, Z.leb_gt, Z.eqb_neq in E. destruct E as [[[_ Hslot] Hseq] _].
  destruct Hg as [Hi Hb Hr Hin Hv Hl] eqn:Eg. clear Eg.
  pose proof (rg_slot _ (inv_ranges _ _ Hi)) as Rs.
  pose proof (rg_sequence _ (inv_ranges _ _ Hi)) as Rq.
  do 3 ota_step. eapply wp_post; [apply writeVerified_wp|].
  intros ok o1 w1 l1 (-> & wok & Hq).
  assert (Hg1 : good o0 l0 o l1).
  { eapply good_quiet; [|exact Hq]. apply good_event; [done|]. cbn [okEvent]. split; [done|]. left.
    rewrite encodeRecord_length.
    unfold kJournalOffset, kJournalHeaderBytes, kJournalCheckpointBytes,
      kJournalCheckpointCapacity, kBleOtaMaximumImageBytes, kBleOtaJournalBytes in *.
    simpl in *. lia. }
  ota_step; [ota_step; ota_done; auto|].
  do 7 ota_step. ota_done. split; [|by eexists _, _, _].
  destruct Hg1 as [[[] ? ? ? ? ? ? ? ? ?] ? ? ? ? ?].
  constructor; auto. split; [split|..]; simpl in *; auto; try lia.
  pose proof (u16_range (journalSequence_ o + 1)). unfold UINT16_MAX. lia.
Qed.

Lemma encodeHeader_length sub m id :
  manifestOk m -> length id = 32%nat -> length (encodeHeader sub m id) = 128%nat.
Proof using.
  intros Hm Hid. destruct Hm as (_ & Hv & _ & _ & Hs). unfold kBleOtaDigestBytes in Hs.
  apply validSemver_length in Hv. unfold encodeHeader, encodeHeaderBody.
  rewrite !length_app, length_replicate, Hid, Hs. simpl. lia.
Qed.

Lemma rebuildPrefixHash_wp o w log o0 l0 :
  good o0 l0 o log ->
  wp rebuildPrefixHash
     (post (fun _ o' log' => good o0 l0 o' log' /\ core o = core o')) (o, (w, log)).
Proof using RF.
  intros Hg. unfold rebuildPrefixHash. ota_run.
  assert (Hn : 0 <= nextOffset_ o).
  { destruct Hg as [[[] _ _ _ _ _ _ _ _ _] _ _ _ _ _]. lia. }
  eapply wp_post; [apply hashLoop_wp; [simpl; lia|apply hashFuel_enough; simpl; lia]|].
  intros r o1 w1 l1 (-> & Hq & _).
  assert (Hg1 : good o0 l0 o l1) by (eapply good_quiet; eauto).
  destruct r; ota_run; ota_done; (split; [eapply good_core; [exact Hg1|]|]; reflexivity).
Qed.

(** The machine after [prepareNewUpdate] adopted a manifest. *)
Definition adopted (m : ParsedManifest) (id : list Z) (o : Ota) : Ota :=
  set_journalHeaderReady_ true (set_updateId_ id
    (set_expectedImageSha256_ (manifestImageSha256 m)
    (set_targetVersion_ (firmwareVersion m) (set_updateIdValid_ true
    (set_imageBytes_ (manifestImageBytes m) (set_nextOffset_ 0
    (set_persistedOffset_ 0 (set_erasedThrough_ 0 o)))))))).

Definition restful (st : BleOtaState) : Prop := st = Idle \/ st = Confirmed \/ st = RolledBack.

Lemma restful_inv o log : Inv o log -> restful (state_ o) ->
  manifestLoaded_ o = false /\ confirmationArmed_ o = false /\
  state_ o <> PendingVerify /\ state_ o <> Receiving /\ state_ o <> ReadyToReboot.
Proof using.
  intros [_ _ _ _ _ Hm _ _ Ha _] Hr.
  destruct (manifestLoaded_ o), (confirmationArmed_ o); destruct Hr as [E|[E|E]]; rewrite E in *;
    repeat split; auto; try discriminate;
    try (destruct (Hm eq_refl) as [?|[?|?]]; discriminate); discriminate (Ha eq_refl).
Qed.

Lemma good_adopted m id o log o0 l0 :
  good o0 l0 o log -> restful (state_ o) -> manifestOk m ->
  length id = kBleOtaDigestBytes -> bytesOk id ->
  good o0 l0 (adopted m id o) log.
Proof using.
  intros Hg Hs Hm Hl Hok. destruct (restful_inv _ _ (gd_inv _ _ _ _ Hg) Hs) as (E1 & E2 & N1 & N2 & N3).
  destruct Hm as (_ & _ & Hb & Hd & Hdl).
  destruct Hg as [[[] ? ? ? ? ? ? ? ? ?] ? ? ? ? ?]. constructor; auto.
  split; [split|..]; simpl in *; auto; try lia; try congruence.
Qed.

Lemma good_receiving o1 l1 o2 o0 l0 :
  good o0 l0 o1 l1 -> manifestSigned o1 l1 -> nextOffset_ o1 = erasedThrough_ o1 ->
  confirmationArmed_ o1 = false ->
  core o2 = core (set_manifestLoaded_ true (set_state_ Receiving o1)) -> good o0 l0 o2 l1.
Proof using.
  intros [[[] ? ? ? ? ? ? ? ? ?] ? ? ? ? ?] Hm Hn Ha E.
  eapply good_core; [|symmetry; exact E]. constructor; auto.
  split; [split|..]; simpl; auto; try discriminate; try congruence; lia.
Qed.

Lemma prepareNewUpdate_wp m id o w log o0 l0 :
  good o0 l0 o log -> restful (state_ o) -> manifestOk m -> signedFor log id m ->
  length id = kBleOtaDigestBytes -> bytesOk id ->
  wp (prepareNewUpdate m id) (post (fun _ o' log' => good o0 l0 o' log')) (o, (w, log)).
Proof using.
  intros Hg Hs Hm Hsig Hl Hok.
  destruct (restful_inv _ _ (gd_inv _ _ _ _ Hg) Hs) as (_ & Ha & Np & _).
  unfold prepareNewUpdate. ota_run.
  set (o1 := set_rebootFallbackAt_ 0 _).
  set (l1 := log ++ _).
  assert (Hg1 : good o0 l0 o1 l1).
  { apply good_event; [by eapply good_core|]. by left. }
  assert (Hs1 : signedFor l1 id m) by (unfold l1; auto with trace).
  clearbody l1. ota_step; [eapply wp_post; [by apply fail_wp|]; intros ? ? ? ? []; by ota_done|].
  ota_run. set (l2 := l1 ++ _).
  assert (Hg2 : good o0 l0 o1 l2).
  { apply good_event; [done|]. repeat split; auto; reflexivity. }
  assert (Hs2 : signedFor l2 id m) by (unfold l2; auto with trace).
  clearbody l2. ota_step; [eapply wp_post; [by apply fail_wp|]; intros ? ? ? ? []; by ota_done|].
  ota_run. set (o3 := set_journalHeaderReady_ false _).
  assert (Hg3 : good o0 l0 o3 l2).
  { destruct Hg2 as [[[] ? ? ? ? ? ? ? ? ?] ? ? ? ? ?]. constructor; auto.
    split; [split|..]; simpl in *; auto; unfold UINT16_MAX, kJournalCheckpointCapacity; simpl; lia. }
  unfold writeJournalHeader at 1. ota_run.
  eapply wp_post; [apply writeVerified_wp|]. intros ok o' w3 l3 (-> & wok & Hq).
  assert (Hg4 : good o0 l0 o3 l3).
  { eapply good_quiet; [|exact Hq]. apply good_event; [done|]. cbn [okEvent].
    split; [done|]. left. rewrite encodeHeader_length by auto. by split. }
  assert (Hs3 : signedFor l3 id m)
    by (destruct Hq as (? & -> & _); auto with trace).
  ota_step; [eapply wp_post; [by apply fail_wp|]; intros ? ? ? ? []; by ota_done|].
  ota_run. fold (adopted m id o3).
  assert (Hg5 : good o0 l0 (adopted m id o3) l3) by (by apply good_adopted).
  eapply wp_post; [apply appendCheckpoint_wp;
    [apply good_refl; apply Hg5|simpl; lia]|].
  intros r o4 w4 l4 (Hg6 & s & k & p & ->).
  assert (Hs4 : signedFor l4 id m)
    by (destruct (prefix_grow _ _ (gd_log _ _ _ _ Hg6)) as [? ->]; auto with trace).
  pose proof (good_trans _ _ _ _ _ _ Hg5 Hg6) as Hg7.
  ota_step; [eapply wp_post; [by apply fail_wp|]; intros ? ? ? ? []; by ota_done|].
  ota_run. ota_done.
  eapply good_receiving; [exact Hg7| |reflexivity|exact Ha|reflexivity].
  exists m. repeat split; auto.
Qed.

(** A call whose failure and success both keep the invariant. *)
Ltac by_fail := eapply wp_post; [eapply fail_wp; [eauto|try done; eauto]|intros ? ? ? ? []; by ota_done].

Lemma bindResumedManifest_wp m uid o w log o0 l0 :
  good o0 l0 o log -> state_ o = Receiving \/ state_ o = ReadyToReboot ->
  manifestOk m -> signedFor log uid m -> length uid = kBleOtaDigestBytes -> bytesOk uid ->
  wp (bindResumedManifest m uid)
     (post (fun _ o' log' => good o0 l0 o' log' /\ state_ o' = state_ o)) (o, (w, log)).
Proof using RF.
  intros Hg Hs Hm Hsig Hl Hok. unfold bindResumedManifest. ota_run.
  ota_step; [ota_run; ota_done; auto|]. cbv [id] in E.
  rewrite !orb_false_iff, !negb_false_iff in E. destruct E as [[[[_ E1] E2] E3] E4].
  pose proof Hg as [[Hrg ? ? ? ? ? ? ? ? ?] ? ? ? ? ?]. pose proof Hrg as [].
  destruct Hm as (_ & _ & _ & Hsok & Hsl).
  apply constantTimeEqual_spec in E1; [|intuition congruence..].
  apply constantTimeEqual_spec in E3; [|intuition congruence..].
  apply Z.eqb_eq in E2. apply beq_eq in E4.
  set (o1 := set_manifestLoaded_ true (set_resumed_ true (set_error_ None o))).
  assert (Hg1 : good o0 l0 o1 log).
  { constructor; auto. split; [split|..]; simpl; auto; try congruence.
    - intros _. exists m. simpl. rewrite E1. auto.
    - tauto. }
  ota_run. fold o1. ota_step; [|ota_run; ota_done; auto].
  eapply wp_post; [by apply rebuildPrefixHash_wp|]. intros ? ? ? ? [Hg2 Hc]. ota_done.
  split; auto. unfold core in Hc. injection Hc. simpl. congruence.
Qed.

Lemma dispatchBegin_wp m uid o w log o0 l0 :
  good o0 l0 o log -> manifestOk m -> signedFor log uid m ->
  length uid = kBleOtaDigestBytes -> bytesOk uid ->
  wp (dispatchBegin m uid) (post (fun _ o' log' => good o0 l0 o' log')) (o, (w, log)).
Proof using RF.
  intros Hg Hm Hsig Hl Hok. unfold dispatchBegin. ota_run.
  assert (Hresume : state_ o = Receiving \/ state_ o = ReadyToReboot ->
    wp (if negb (updateIdValid_ o) || negb (constantTimeEqual (updateId_ o) uid)
        then fail "update_conflict" false
        else bound <- bindResumedManifest m uid ;;
             if negb bound then fail "update_conflict" false else ret true)
       (post (fun _ o' log' => good o0 l0 o' log')) (o, (w, log))).
  { intros Hs. ota_step; [by_fail|]. ota_run.
    eapply wp_post; [apply (bindResumedManifest_wp m uid o w log o0 l0); auto|].
    intros r o1 w1 l1 [Hg1 E1].
    ota_step; [|ota_run; by ota_done]. by_fail. }
  change (id o) with o. destruct (state_ o) eqn:Es; auto;
    try (by_fail; fail);
    try (apply prepareNewUpdate_wp; auto; unfold restful; rewrite Es; tauto).
  ota_step; by_fail.
Qed.

Ltac by_refuse := apply refuse_wp; [eauto|try done; eauto].
Ltac by_receipt := ota_run; apply encodeReceipt_wp; eauto using good_core.

Lemma decodeBegin_manifest payload message sig m :
  decodeBegin payload = Some (message, sig, m) -> parseManifest message = Some m.
Proof using.
  unfold decodeBegin. intros E. repeat (simplify_option_eq || case_match); auto.
Qed.

Lemma handleBegin_wp payload resp o w log o0 l0 :
  good o0 l0 o log ->
  wp (handleBegin payload resp) (post (fun _ o' log' => good o0 l0 o' log')) (o, (w, log)).
Proof using RF.
  intros Hg. unfold handleBegin. destruct (decodeBegin payload) as [[[message sig] m]|] eqn:E;
    [|by_refuse].
  apply decodeBegin_manifest in E. pose proof (parseManifest_sound _ _ E) as [_ Hm].
  ota_run. assert (Hg1 : good o0 l0 o (log ++ [EvVerifySig kUpdateAuthority message sig a]))
    by (by apply good_event).
  ota_step; [by_refuse|]. apply negb_false_iff in E0 as ->. ota_run.
  rewrite shaFinish_update. eapply wp_post; [apply (dispatchBegin_wp m _ _ _ _ o0 l0); auto|].
  - exists message, sig. split; [|auto]. apply elem_of_app. right. by constructor.
  - apply sha256_length.
  - apply sha256_ok.
  - intros r o1 w1 l1 Hg2. by_receipt.
Qed.

Lemma handleStatus_wp payload resp o w log o0 l0 :
  good o0 l0 o log ->
  wp (handleStatus payload resp) (post (fun _ o' log' => good o0 l0 o' log')) (o, (w, log)).
Proof using.
  intros Hg. unfold handleStatus. ota_step; [by_refuse|]. ota_run. ota_step; by_receipt.
Qed.

(** Rounding up to the erase granularity. *)
Lemma eraseEndOf_spec c : 0 <= c <= kBleOtaMaximumImageBytes + kBleOtaChunkBytes ->
  c <= eraseEndOf c < c + kBleOtaJournalBytes /\ eraseEndOf c mod kBleOtaJournalBytes = 0.
Proof using.
  unfold eraseEndOf, kBleOtaMaximumImageBytes, kBleOtaAppPartitionBytes, kKitsuAppPartitionBytes,
    kBleOtaJournalBytes, kBleOtaChunkBytes. intros Hc.
  rewrite u32_id by lia.
  replace (u32 (Z.lnot (4096 - 1))) with (Z.ldiff (Z.ones 32) (Z.ones 12)) by reflexivity.
  replace (Z.land (c + 4096 - 1) (Z.ldiff (Z.ones 32) (Z.ones 12)))
    with (Z.ldiff (c + 4096 - 1) (Z.ones 12)).
  - rewrite Z.ldiff_ones_r, Z.shiftl_mul_pow2, Z.shiftr_div_pow2 by lia.
    change (2 ^ 12) with 4096. rewrite Z.mod_mul by lia.
    pose proof (Z.div_mod (c + 4096 - 1) 4096). pose proof (Z.mod_pos_bound (c + 4096 - 1) 4096). lia.
  - apply Z.bits_inj. intros k. rewrite Z.land_spec, !Z.ldiff_spec.
    destruct (Z.lt_ge_cases k 0); [by rewrite !Z.testbit_neg_r|].
    destruct (Z.lt_ge_cases k 32).
    + by rewrite (Z.ones_spec_low 32) by lia.
    + replace (Z.testbit (c + 4096 - 1) k) with false; [by rewrite !andb_false_l|].
      symmetry. rewrite <- (Z.mod_small (c + 4096 - 1) (2 ^ k)).
      * apply Z.mod_pow2_bits_high. lia.
      * pose proof (Z.pow_le_mono_r 2 32 k). lia.
Qed.

Lemma eraseAhead_wp m uid c o w log o0 l0 :
  good o0 l0 o log -> signedFor log uid m -> state_ o = Receiving ->
  0 <= c <= imageBytes_ o -> c <= nextOffset_ o + kBleOtaChunkBytes ->
  wp (eraseAhead c)
     (post (fun r o' log' => good o0 l0 o' log' /\ signedFor log' uid m /\
        (exists e, o' = set_erasedThrough_ e o /\ (r = true -> c <= e)))) (o, (w, log)).
Proof using.
  intros Hg Hsig Hs Hc Hn. unfold eraseAhead.
  pose proof (inv_ranges _ _ (gd_inv _ _ _ _ Hg)) as [Ri Rn _ Re _ _ _ _].
  pose proof (inv_erase _ _ (gd_inv _ _ _ _ Hg) Hs) as Hne.
  destruct (eraseEndOf_spec c) as [He Hm].
  { unfold kBleOtaChunkBytes, kBleOtaMaximumImageBytes in *. lia. }
  assert (Hsame : forall e, e = erasedThrough_ o -> o = set_erasedThrough_ e o)
    by (intros ? ->; by destruct o).
  ota_run. cbv [id]. ota_step;
    [|apply Z.ltb_ge in E; ota_run; ota_done; do 2 (split; [done|]);
      exists (erasedThrough_ o); split; [by apply Hsame|done]].
  apply Z.ltb_lt in E. ota_step;
    [ota_run; ota_done; do 2 (split; [done|]); exists (erasedThrough_ o); by split; [apply Hsame|]|].
  apply orb_false_iff in E0 as [E1 E2]. apply Z.ltb_ge in E1. apply negb_false_iff, Z.eqb_eq in E2.
  assert (Hdiv : eraseEndOf c - erasedThrough_ o = kBleOtaJournalBytes).
  { unfold kBleOtaJournalBytes, kBleOtaChunkBytes in *.
    apply Z.mod_divide in Hm as [k Hk]; [|lia]. apply Z.mod_divide in E2 as [j Hj]; [|lia]. lia. }
  rewrite Hdiv. change (u32 kBleOtaJournalBytes) with kBleOtaJournalBytes.
  ota_run. set (l1 := log ++ _).
  assert (Hg1 : good o0 l0 o l1).
  { apply good_event; [done|]. simpl. repeat split; auto. right. repeat split; try lia. eauto. }
  assert (Hs1 : signedFor l1 uid m) by (unfold l1; auto with trace).
  clearbody l1. ota_step;
    [ota_run; ota_done; do 2 (split; [done|]); exists (erasedThrough_ o); by split; [apply Hsame|]|].
  ota_run. ota_done. split; [|split; [done|eexists; split; [done|lia]]].
  destruct Hg1 as [[[] ? ? ? ? ? ? ? ? ?] ? ? ? ? ?]. constructor; auto.
  split; [split|..]; simpl; auto; intros; lia.
Qed.

(** The members after a verified chunk was programmed. *)
Lemma good_advance o1 l1 o2 k o0 l0 :
  good o0 l0 o1 l1 -> 0 <= k -> nextOffset_ o1 + k <= imageBytes_ o1 ->
  nextOffset_ o1 + k <= erasedThrough_ o1 ->
  core o2 = core (set_nextOffset_ (nextOffset_ o1 + k) o1) -> good o0 l0 o2 l1.
Proof using.
  intros [[[] ? ? ? ? ? ? ? ? ?] ? ? ? ? ?] Hk Hi He E.
  eapply good_core; [|symmetry; exact E]. constructor; auto.
  split; [split|..]; simpl; auto; lia.
Qed.

Lemma u32_image n : 0 <= n <= kBleOtaMaximumImageBytes -> u32 n = n.
Proof using.
  unfold kBleOtaMaximumImageBytes, kBleOtaAppPartitionBytes, kKitsuAppPartitionBytes,
    kBleOtaJournalBytes. intros. apply u32_id. lia.
Qed.

Lemma writeNext_wp off chunk resp o w log o0 l0 :
  good o0 l0 o log -> state_ o = Receiving -> manifestLoaded_ o = true ->
  off = nextOffset_ o -> 0 < Z.of_nat (length chunk) <= kBleOtaChunkBytes ->
  Z.of_nat (length chunk) <= imageBytes_ o - off ->
  wp (writeNext off chunk resp) (post (fun _ o' log' => good o0 l0 o' log')) (o, (w, log)).
Proof using.
  intros Hg Hs Hm -> Hl Hfit. unfold writeNext. set (k := Z.of_nat (length chunk)) in *.
  destruct (inv_loaded _ _ (gd_inv _ _ _ _ Hg) Hm) as (m & Hsig & Hmb & _).
  pose proof (inv_ranges _ _ (gd_inv _ _ _ _ Hg)) as [Ri Rn _ _ _ _ _ _].
  rewrite u32_image by lia.
  ota_step. eapply wp_post; [eapply (eraseAhead_wp m); eauto; lia|].
  intros r o1 w1 l1 (Hg1 & Hsig1 & e & -> & He).
  ota_step; [apply refuse_wp; [done|simpl; congruence]|].
  apply negb_false_iff in E as ->. specialize (He eq_refl).
  ota_run. set (l2 := l1 ++ _).
  assert (Hg2 : good o0 l0 (set_erasedThrough_ e o) l2).
  { apply good_event; [done|]. simpl. split; [done|]. right. fold k.
    repeat split; try lia. exists (updateId_ o), m. split; [done|lia]. }
  clearbody l2. ota_step; [apply refuse_wp; [done|simpl; congruence]|].
  ota_run. eapply wp_post; [apply comparePartition_wp|]. intros same o2 w2 l3 (-> & Hq).
  assert (Hg3 : good o0 l0 (set_erasedThrough_ e o) l3) by (by eapply good_quiet).
  ota_step; [apply refuse_wp; [done|simpl; congruence]|].
  ota_run. cbv [id]. set (o3 := set_nextOffset_ _ _).
  assert (En : nextOffset_ o3 = nextOffset_ o + k) by (simpl; apply u32_image; lia).
  assert (Hg4 : good o0 l0 o3 l3).
  { eapply (good_advance _ _ _ k); [exact Hg3|simpl; lia..|]. subst o3. unfold core. simpl.
    rewrite u32_image by lia. reflexivity. }
  assert (Hs3 : state_ o3 = Receiving) by exact Hs.
  clearbody o3. eapply (wp_post _ (fun _ o' log' => good o0 l0 o' log' /\ state_ o' = Receiving)).
  - ota_step; [|ota_run; ota_done; auto].
    pose proof (rg_next _ (inv_ranges _ _ (gd_inv _ _ _ _ Hg4))).
    pose proof (Z.mod_pos_bound (nextOffset_ o3) kBleOtaCheckpointBytes eq_refl).
    pose proof (Z.mod_le (nextOffset_ o3) kBleOtaCheckpointBytes).
    eapply wp_post; [apply appendCheckpoint_wp; [exact Hg4|unfold kBleOtaCheckpointBytes in *; lia]|].
    intros ? ? ? ? (? & ? & ? & ? & ->). ota_done. auto.
  - intros ok o4 w4 l4 [Hg5 Hs4].
    ota_step; [apply refuse_wp; [done|simpl; congruence]|]. by_receipt.
Qed.

Lemma handleWrite_wp payload resp o w log o0 l0 :
  good o0 l0 o log ->
  wp (handleWrite payload resp) (post (fun _ o' log' => good o0 l0 o' log')) (o, (w, log)).
Proof using.
  intros Hg. unfold handleWrite.
  destruct (decodeWrite payload) as [[[requestId off] chunk]|]; [|by_refuse].
  ota_run. cbv [id]. ota_step; [by_refuse|].
  apply negb_false_iff, bool_decide_eq_true in E.
  ota_step; [by_refuse|]. apply negb_false_iff in E0.
  ota_step; [by_refuse|]. ota_step; [by_refuse|].
  apply negb_false_iff in E2. rewrite !andb_true_iff, negb_true_iff, Z.eqb_neq, !Z.leb_le in E2.
  ota_step.
  - ota_run. eapply (wp_post _ (fun _ o' log' => good o0 l0 o' log')).
    + ota_step; [ota_run; by ota_done|].
      eapply wp_post; [apply comparePartition_wp|]. intros ? ? ? ? (-> & Hq). ota_done.
      by eapply good_quiet.
    + intros. ota_step; [by_refuse|]. by_receipt.
  - ota_step; [by_refuse|]. apply negb_false_iff, Z.eqb_eq in E4.
    ota_step; [apply refuse_wp; [done|congruence]|].
    apply writeNext_wp; auto; lia.
Qed.

Lemma selectInactive_wp resp o w log o0 l0 :
  good o0 l0 o log -> state_ o = ReadyToReboot ->
  wp (selectInactive resp) (post (fun _ o' log' => good o0 l0 o' log')) (o, (w, log)).
Proof using.
  intros Hg Hs. unfold selectInactive. ota_run. apply encodeReceipt_wp.
  apply (good_core _ _ o); [|reflexivity]. apply good_event; [done|]. simpl. right. split; [done|].
  apply (inv_ready _ _ (gd_inv _ _ _ _ Hg) Hs).
Qed.

Lemma digestIs_spec p n d e log : (forall x, d = Some x -> readBack log p n x /\
    length x = kBleOtaDigestBytes /\ bytesOk x) ->
  length e = kBleOtaDigestBytes -> bytesOk e -> digestIs d e = true -> readBack log p n e.
Proof using.
  intros Hd Hl He H. destruct d as [x|]; [|discriminate]. destruct (Hd x eq_refl) as (? & ? & ?).
  simpl in H. apply constantTimeEqual_spec in H; auto; congruence.
Qed.

Lemma imageHashesMatch_wp o w log o0 l0 :
  good o0 l0 o log ->
  wp imageHashesMatch
     (post (fun r o' log' => good o0 l0 o' log' /\ core o = core o' /\
        (r = true -> readBack log' (inactive_ o) (imageBytes_ o) (expectedImageSha256_ o))))
     (o, (w, log)).
Proof using RF.
  intros Hg. unfold imageHashesMatch. ota_run. cbv [id].
  pose proof (inv_ranges _ _ (gd_inv _ _ _ _ Hg)) as [Ri _ _ _ _ _ _ [Rl Rb]].
  eapply (wp_post _ (fun _ o' log' => log' = log /\ core o = core o')).
  { ota_step; ota_run; ota_done; auto. }
  intros [] o1 w1 l1 [-> Hc]. ota_run.
  assert (Hg1 : good o0 l0 (set_prefixHashReady_ false o1) log)
    by (eapply good_core; [exact Hg|exact Hc]).
  ota_step; [|ota_run; ota_done; split; [done|split; [exact Hc|discriminate]]].
  ota_run. eapply wp_post; [apply hashPartition_wp; lia|]. intros d o2 w2 l2 (-> & Hq & Hd).
  ota_run. ota_done. split; [by eapply good_quiet|]. split; [exact Hc|].
  by apply digestIs_spec.
Qed.

(** Entering [ReadyToReboot] needs the evidence. *)
Lemma good_ready o1 l1 o2 o0 l0 :
  good o0 l0 o1 l1 -> state_ o1 = Receiving -> bootable l1 (inactive_ o1) ->
  core o2 = core (set_state_ ReadyToReboot o1) -> good o0 l0 o2 l1.
Proof using.
  intros [[[] ? ? ? ? ? ? ? Ha ?] ? ? ? ? ?] Hs Hbt E.
  eapply good_core; [|symmetry; exact E]. constructor; auto.
  split; [split|..]; simpl; auto; try discriminate; try congruence.
  intros H. apply Ha in H. congruence.
Qed.

Lemma handleFinish_wp payload resp o w log o0 l0 :
  good o0 l0 o log ->
  wp (handleFinish payload resp) (post (fun _ o' log' => good o0 l0 o' log')) (o, (w, log)).
Proof using RF.
  intros Hg. unfold handleFinish. destruct (parseIdRequest payload) as [rid|]; [|by_refuse].
  ota_run. cbv [id]. ota_step; [by_refuse|]. ota_step; [by_refuse|].
  apply negb_false_iff in E0.
  ota_step; [apply bool_decide_eq_true in E1; by apply selectInactive_wp|].
  ota_step; [by_refuse|]. apply negb_false_iff, bool_decide_eq_true in E2.
  ota_step; [by_refuse|]. apply negb_false_iff, Z.eqb_eq in E3.
  destruct (inv_loaded _ _ (gd_inv _ _ _ _ Hg) E0) as (m & Hsig & Hmb & Hms & _).
  ota_run. eapply wp_post; [apply imageHashesMatch_wp; by apply good_refl; destruct Hg|].
  intros r o1 w1 l1 (Hg1 & Hc & Hrb).
  pose proof (good_trans _ _ _ _ _ _ Hg Hg1) as Hg1'.
  assert (Es1 : state_ o1 = Receiving) by (unfold core in Hc; injection Hc; congruence).
  assert (Ei : inactive_ o1 = inactive_ o) by (unfold core in Hc; injection Hc; congruence).
  assert (En : nextOffset_ o1 = imageBytes_ o) by (unfold core in Hc; injection Hc; congruence).
  assert (Hsig1 : signedFor l1 (updateId_ o) m)
    by (destruct (prefix_grow _ _ (gd_log _ _ _ _ Hg1)) as [? ->]; auto with trace).
  ota_step; [apply refuse_wp; [done|congruence]|]. apply negb_false_iff in E4 as ->.
  specialize (Hrb eq_refl). ota_run. set (l2 := l1 ++ _).
  assert (Hg2 : good o0 l0 o1 l2) by (by apply good_event).
  assert (Hrb2 : readBack l2 (inactive_ o) (imageBytes_ o) (expectedImageSha256_ o))
    by (unfold l2; auto with trace).
  assert (Hsig2 : signedFor l2 (updateId_ o) m) by (unfold l2; auto with trace).
  ota_step; [apply refuse_wp; [done|congruence]|]. apply negb_false_iff in E4 as ->.
  assert (Hbt : bootable l2 (inactive_ o)).
  { right. exists (updateId_ o), m. rewrite Hmb, Hms. split; [done|]. split; [done|].
    unfold l2. apply elem_of_app. right. by constructor. }
  clearbody l2. ota_run.
  pose proof (rg_image _ (inv_ranges _ _ (gd_inv _ _ _ _ Hg))).
  eapply wp_post; [apply appendCheckpoint_wp; [apply good_refl; apply Hg2|lia]|].
  intros r o3 w3 l3 (Hg3 & s & k & p & ->).
  pose proof (good_trans _ _ _ _ _ _ Hg2 Hg3) as Hg4.
  assert (Hbt3 : bootable l3 (inactive_ o))
    by (destruct (prefix_grow _ _ (gd_log _ _ _ _ Hg3)) as [? ->]; auto with trace).
  ota_step; [apply refuse_wp; [done|simpl; congruence]|]. ota_run.
  apply selectInactive_wp; [|done]. eapply good_ready; [exact Hg4|exact Es1| |reflexivity].
  simpl. by rewrite Ei.
Qed.

Lemma handleReboot_wp payload resp o w log o0 l0 :
  good o0 l0 o log ->
  wp (handleReboot payload resp) (post (fun _ o' log' => good o0 l0 o' log')) (o, (w, log)).
Proof using.
  intros Hg. unfold handleReboot. destruct (parseIdRequest payload) as [rid|]; [|by_refuse].
  ota_run. cbv [id]. ota_step; [by_refuse|]. ota_step; [by_refuse|].
  apply negb_false_iff, bool_decide_eq_true in E0. ota_run.
  set (l1 := log ++ _).
  assert (Hg1 : good o0 l0 o l1).
  { apply good_event; [done|]. simpl. right. split; [done|].
    apply (inv_ready _ _ (gd_inv _ _ _ _ Hg) E0). }
  clearbody l1. ota_step; [by_refuse|]. by_receipt.
Qed.

Lemma handleAbort_wp payload resp o w log o0 l0 :
  good o0 l0 o log ->
  wp (handleAbort payload resp) (post (fun _ o' log' => good o0 l0 o' log')) (o, (w, log)).
Proof using.
  intros Hg. unfold handleAbort. destruct (parseIdRequest payload) as [rid|]; [|by_refuse].
  ota_run. cbv [id]. ota_step; [by_refuse|].
  apply orb_false_iff in E as [E _]. apply bool_decide_eq_false in E.
  ota_step; [by_refuse|]. ota_run.
  set (o1 := set_rebootFallbackAt_ 0 _). set (l1 := log ++ _).
  assert (Hg1 : good o0 l0 o1 l1)
    by (apply good_event; [by eapply good_core|by left]).
  assert (Hs1 : state_ o1 <> PendingVerify) by exact E.
  assert (Ei : inactive_ o1 = inactive_ o) by done.
  assert (Ej : journalHeaderReady_ o1 = journalHeaderReady_ o) by done.
  assert (En : nextOffset_ o1 = nextOffset_ o) by done.
  clearbody o1 l1. ota_step; [apply refuse_wp; auto|]. rewrite <- Ej. clear Ej.
  ota_run. eapply (wp_post _ (fun _ o' log' => good o0 l0 o' log' /\ state_ o' <> PendingVerify)).
  - ota_step; [|ota_run; ota_done; auto]. ota_run.
    pose proof (rg_next _ (inv_ranges _ _ (gd_inv _ _ _ _ Hg1))).
    eapply wp_post; [apply appendCheckpoint_wp; [exact Hg1|lia]|].
    intros r o2 w2 l2 (Hg2 & s & k & p & ->).
    ota_step; [ota_run; ota_done; auto|]. ota_run. ota_done. split; [|done].
    apply good_event; [done|]. simpl. repeat split; auto.
  - intros r o2 w2 l2 [Hg2 Hs2]. ota_step; [apply refuse_wp; auto|]. ota_run.
    eapply wp_post; [by apply clearForIdle_wp|]. intros ? o3 w3 l3 [Hg3 _].
    by apply encodeReceipt_wp.
Qed.

Lemma handleRequest_wp operation payload resp o w log o0 l0 :
  good o0 l0 o log ->
  wp (handleRequest operation payload resp)
     (post (fun _ o' log' => good o0 l0 o' log')) (o, (w, log)).
Proof using RF.
  intros Hg. unfold handleRequest. ota_run. rewrite (gd_begun _ _ _ _ Hg).
  destruct operation as [op|]; [|by_refuse].
  repeat (ota_step; [first [by apply handleStatus_wp|by apply handleBegin_wp
    |by apply handleWrite_wp|by apply handleFinish_wp|by apply handleReboot_wp
    |by apply handleAbort_wp]|]).
  by_refuse.
Qed.

Definition adoptedView (v : JournalView) (o : Ota) : Ota :=
  set_updateId_ (jv_updateId v) (set_expectedImageSha256_ (jv_imageSha256 v)
    (set_targetVersion_ (jv_targetVersion v) (set_updateIdValid_ true
    (set_imageBytes_ (jv_imageBytes v) (set_nextOffset_ (jv_offset v)
    (set_persistedOffset_ (jv_offset v) (set_journalSequence_ (jv_sequence v)
    (set_journalNextSlot_ (jv_nextSlot v) (set_journalHeaderReady_ true o))))))))).

Lemma good_adoptedView v o log o0 l0 :
  good o0 l0 o log -> restful (state_ o) -> viewOk v -> good o0 l0 (adoptedView v o) log.
Proof using.
  intros Hg Hs []. destruct (restful_inv _ _ (gd_inv _ _ _ _ Hg) Hs) as (? & ? & ? & ? & ?).
  destruct Hg as [[[] ? ? ? ? ? ? ? ? ?] ? ? ? ? ?]. constructor; auto.
  split; [split|..]; simpl; auto; try congruence; lia.
Qed.

Lemma good_erased e o1 l1 o0 l0 :
  good o0 l0 o1 l1 -> 0 <= e <= kBleOtaMaximumImageBytes -> state_ o1 <> Receiving ->
  good o0 l0 (set_erasedThrough_ e o1) l1.
Proof using.
  intros [[[] ? ? ? ? ? ? ? ? ?] ? ? ? ? ?] He Hs. constructor; auto.
  split; [split|..]; simpl; auto. congruence.
Qed.

(** Entering one of the states the journal can put a fresh machine in. *)
Lemma good_enter st o1 l1 o2 o0 l0 :
  good o0 l0 o1 l1 -> restful (state_ o1) ->
  (st = Receiving -> nextOffset_ o1 <= erasedThrough_ o1) ->
  (st = ReadyToReboot -> bootable l1 (inactive_ o1)) ->
  (st = PendingVerify -> pendingBound l1 (running_ o1) (runningVersion_ o1)) ->
  core o2 = core (set_state_ st o1) -> good o0 l0 o2 l1.
Proof using.
  intros Hg Hs Hr Hb Hp E. destruct (restful_inv _ _ (gd_inv _ _ _ _ Hg) Hs) as (? & ? & ? & ? & ?).
  eapply good_core; [|symmetry; exact E].
  destruct Hg as [[[] ? ? ? ? ? ? ? ? ?] ? ? ? ? ?]. constructor; auto.
  split; [split|..]; simpl; auto; congruence.
Qed.

Lemma bindPending_wp v o w log o0 l0 :
  good o0 l0 o log -> restful (state_ o) -> viewOk v -> viewIs v kJournalReady = true ->
  journalRead log (running_ o) v -> EvBootState (running_ o) BootPendingVerify ∈ log ->
  wp bindPendingRunningImage
     (post (fun r o' log' => good o0 l0 o' log' /\ (r = false -> state_ o' <> PendingVerify)))
     (set_state_ PendingVerify (adoptedView v o), (w, log)).
Proof using RF.
  intros Hg Hs Hv Hready Hj Hb. unfold bindPendingRunningImage. ota_run. cbv [id].
  set (o1 := set_state_ PendingVerify (adoptedView v o)).
  pose proof (good_adoptedView v _ _ _ _ Hg Hs Hv) as Hga.
  eapply (wp_post _ (fun r o' log' => o' = o1 /\ quiet log log' /\
    (r = true -> pendingBound log' (running_ o) (runningVersion_ o)))).
  - ota_step; [|ota_run; ota_done; split; [done|]; split; [auto with quiet|discriminate]].
    apply andb_true_iff in E as [E1%beq_eq _].
    ota_run. eapply wp_post; [apply hashPartition_wp; apply Hv|].
    intros d o2 w2 l2 (-> & Hq & Hd).
    ota_step; [|ota_run; ota_done; split; [done|]; split; [auto with quiet|discriminate]].
    apply (digestIs_spec _ _ _ _ _ Hd) in E as Hrb; [|apply Hv..].
    ota_run. ota_done. split; [done|]. split; [auto with quiet|]. intros ->.
    apply andb_true_iff in Hready as [Hp Hst%Z.eqb_eq].
    destruct Hq as (new & -> & _). exists v.
    split; [auto with trace|]. do 2 (split; [done|]). split; [auto with trace|].
    split; [exact E1|]. split; [auto with trace|]. apply elem_of_app. right. by constructor.
  - intros r o2 w2 l2 (-> & Hq & Hr). ota_step.
    + eapply wp_post; [apply (rollback_wp_from (adoptedView v o) _ _ _ _ o0 l0)|].
      * by eapply good_quiet.
      * done.
      * intros ? ? ? ? (_ & ? & Hf). ota_done. split; [done|]. by rewrite Hf.
    + ota_run. ota_done. split; [|discriminate]. apply negb_false_iff in E as ->.
      eapply (good_enter PendingVerify (adoptedView v o)); try done.
      * by eapply good_quiet.
      * intros _. by apply Hr.
Qed.

Lemma viewIs_present v st : viewIs v st = true -> jv_present v = true /\ jv_state v = st.
Proof using. unfold viewIs. intros [? ?%Z.eqb_eq]%andb_true_iff. auto. Qed.

Lemma journalRead_quiet l l' p v : journalRead l p v -> quiet l l' -> journalRead l' p v.
Proof using. intros H (new & -> & _). auto with trace. Qed.

Lemma loadExistingState_wp o w log o0 l0 :
  good o0 l0 o log -> restful (state_ o) ->
  wp loadExistingState
     (post (fun r o' log' => good o0 l0 o' log' /\ (r = false -> state_ o' <> PendingVerify)))
     (o, (w, log)).
Proof using RF.
  intros Hg Hs. unfold loadExistingState. ota_run.
  assert (Hnp : state_ o <> PendingVerify)
    by (intros Hst; rewrite Hst in Hs; destruct Hs as [?|[?|?]]; discriminate).
  eapply wp_post; [apply readJournal_wp|]. intros rv o1 w1 l1 (-> & Hq1 & Hrv).
  assert (Hg1 : good o0 l0 o l1) by (by eapply good_quiet).
  destruct rv as [rv|]; [|ota_run; ota_done; auto]. destruct (Hrv rv eq_refl) as [Hrj Hrk].
  ota_run. eapply wp_post; [apply readJournal_wp|]. intros iv o2 w2 l2 (-> & Hq2 & Hiv).
  assert (Hg2 : good o0 l0 o l2) by (by eapply good_quiet).
  destruct iv as [iv|]; [|ota_run; ota_done; auto]. destruct (Hiv iv eq_refl) as [Hij Hik].
  ota_run. set (l3 := l2 ++ _).
  assert (Hg3 : good o0 l0 o l3) by (by apply good_event).
  assert (Hrj3 : journalRead l3 (running_ o) rv)
    by (eapply journalRead_quiet; [exact Hrj|]; unfold l3; auto with quiet).
  assert (Hij3 : journalRead l3 (inactive_ o) iv)
    by (eapply journalRead_quiet; [exact Hij|]; unfold l3; auto with quiet).
  assert (Hb3 : EvBootState (running_ o) a ∈ l3)
    by (unfold l3; apply elem_of_app; right; by constructor).
  clearbody l3. clear Hq1 Hq2 Hrj Hij Hrv Hiv Hg1 Hg2.
  ota_step.
  { eapply wp_post; [by apply rollback_wp|]. intros ? ? ? ? (_ & ? & Hf). ota_done.
    split; [done|]. by rewrite Hf. }
  ota_run. eapply (wp_post _ (fun _ o' log' => o' = o /\ quiet l3 log')).
  { ota_step; ota_run; ota_done; auto with quiet. }
  intros ib o3 w3 l4 (-> & Hq4).
  assert (Hg4 : good o0 l0 o l4) by (by eapply good_quiet).
  pose proof (journalRead_quiet _ _ _ _ Hij3 Hq4) as Hij4.
  pose proof (journalRead_quiet _ _ _ _ Hrj3 Hq4) as Hrj4.
  assert (Hb4 : EvBootState (running_ o) a ∈ l4)
    by (destruct Hq4 as (? & -> & _); by apply elem_mono).
  ota_step.
  - apply andb_true_iff in E0 as [Hr _]. destruct (viewIs_present _ _ Hr) as [Hp _].
    unfold adoptJournal. ota_run. fold (adoptedView rv o).
    ota_step.
    + apply bool_decide_eq_true in E0. subst a. ota_run.
      eapply wp_post; [by apply (bindPending_wp rv o _ _ o0 l0); auto|].
      intros. ota_run. by ota_done.
    + ota_run. ota_done. split; [|discriminate]. eapply (good_enter Confirmed (adoptedView rv o)); try done.
      apply good_adoptedView; auto.
  - ota_step; [|ota_step].
    + destruct (viewIs_present _ _ E1) as [Hp _]. specialize (Hik Hp).
      unfold adoptJournal. ota_run. fold (adoptedView iv o).
      eapply wp_post; [eapply (rebuildPrefixHash_wp _ _ _ o0 l0)|
        intros ? ? ? ? [? Hc]; ota_done; split; [done|intros _; injection Hc; simpl; congruence]].
      pose proof (good_adoptedView iv _ _ _ _ Hg4 Hs Hik) as Ha. destruct Hik.
      apply (good_enter Receiving (set_erasedThrough_ (jv_offset iv) (adoptedView iv o)));
        [|exact Hs|intros _; simpl; lia|discriminate|discriminate|unfold core; simpl; reflexivity].
      apply good_erased; [exact Ha|lia|]. simpl. intros Hrec. rewrite Hrec in Hs.
      destruct Hs as [?|[?|?]]; discriminate.
    + destruct (viewIs_present _ _ E2) as [Hp Hst]. specialize (Hik Hp).
      unfold adoptJournal. ota_run. fold (adoptedView iv o). ota_done. split; [|discriminate].
      match goal with |- good _ _ (set_state_ ?st _) _ =>
        apply (good_enter st (adoptedView iv o));
          [by apply good_adoptedView|exact Hs| | | |unfold core; simpl; reflexivity] end;
        case_match; try discriminate. intros _. left. exists iv. auto.
    + eapply wp_post; [by apply clearForIdle_wp|]. intros ? ? ? ? [? ->]. by ota_done.
Qed.

Lemma finishCritical_wp healthy now o w log o0 l0 :
  good o0 l0 o log ->
  wp (finishCriticalInitialization healthy now)
     (post (fun _ o' log' => good o0 l0 o' log')) (o, (w, log)).
Proof using.
  intros Hg. unfold finishCriticalInitialization. ota_run. cbv [id].
  ota_step; [ota_run; by ota_done|]. ota_step; [ota_run; by ota_done|].
  ota_step; [eapply wp_post; [by apply rollback_wp|]; intros ? ? ? ? (_ & ? & _); by ota_done|].
  apply negb_false_iff, bool_decide_eq_true in E0. ota_run. ota_done.
  destruct Hg as [[[] ? ? ? ? ? ? ? ? ?] ? ? ? ? ?]. constructor; auto.
  split; [split|..]; simpl; auto. congruence.
Qed.

Lemma loopReboot_wp now idle o w log o0 l0 :
  good o0 l0 o log ->
  wp (loopReboot now idle)
     (post (fun _ o' log' => good o0 l0 o' log' /\ core o = core o')) (o, (w, log)).
Proof using.
  intros Hg. unfold loopReboot. ota_run. ota_step; [|ota_run; by ota_done].
  ota_run. eapply (wp_post _ (fun _ o' log' => log' = log /\ core o = core o')).
  { ota_step; ota_run; ota_done; auto. }
  intros ? o1 w1 l1 [-> Hc]. ota_run.
  assert (Hg1 : good o0 l0 o1 log) by (by eapply good_core).
  ota_step; ota_run; ota_done; split; auto. apply good_event; [by eapply good_core|done].
Qed.

Lemma loopConfirm_wp now health o w log o0 l0 :
  good o0 l0 o log ->
  wp (loopConfirm now health) (post (fun _ o' log' => good o0 l0 o' log')) (o, (w, log)).
Proof using.
  intros Hg. unfold loopConfirm. ota_run. cbv [id].
  assert (Hroll : forall o1 l1, good o0 l0 o1 l1 -> forall w,
    wp (_ <- rollback "rollback_failed" ;; ret tt)
       (post (fun _ o' log' => good o0 l0 o' log')) (o1, (w, l1))).
  { intros o1 l1 Hg1 w1. ota_run. eapply wp_post; [by apply rollback_wp|].
    intros ? ? ? ? (_ & ? & _). ota_run. by ota_done. }
  ota_step; [ota_run; by ota_done|]. apply orb_false_iff in E as [E _].
  apply negb_false_iff, bool_decide_eq_true in E.
  ota_step; [by apply Hroll|]. ota_step; [ota_run; by ota_done|].
  ota_run. set (l1 := log ++ _).
  assert (Hg1 : good o0 l0 o l1)
    by (apply good_event; [done|]; apply (inv_pending _ _ (gd_inv _ _ _ _ Hg) E)).
  clearbody l1. ota_step; [by apply Hroll|]. ota_run. ota_done.
  destruct Hg1 as [[[] ? ? Hsl ? Hm ? ? ? ?] ? ? ? ? ?]. constructor; auto.
  split; [split|..]; simpl; auto; try congruence.
  intros Hml. destruct (Hm Hml) as [?|[?|?]]; congruence.
Qed.

Lemma loop_wp now health idle o w log o0 l0 :
  good o0 l0 o log ->
  wp (loop now health idle) (post (fun _ o' log' => good o0 l0 o' log')) (o, (w, log)).
Proof using.
  intros Hg. unfold loop. ota_run. rewrite (gd_begun _ _ _ _ Hg). simpl. ota_run.
  eapply wp_post; [by apply loopReboot_wp|]. intros ? o1 w1 l1 [Hg1 _].
  ota_step; [ota_run; by ota_done|by apply loopConfirm_wp].
Qed.
End Preserve.
