(* ===== verification/OtaSim.v ===== *)
(** * A simulated board for the updater

    A concrete platform the update machine can run on: NOR flash kept as its
    history of erases and programs, signature and image checks that answer as
    configured, and the requests of one small update.  The witnesses of the
    updater's theorems are runs on this board. *)

From S2P Require Import Prelude Sha256 FlashLayout OtaCodec OtaManifest OtaPlatform Ota.
From S2P Require Import OtaCodecFacts OtaTrace.

Open Scope kitsu_scope.

Inductive FlashOp :=
| FErase (address off n : Z)
| FProgram (address off : Z) (bytes : list Z).

(** Most recent first. *)
Record SimBoard := mkBoard {
  sim_flash : list FlashOp;
  sim_boot : Z -> BleOtaBootState;
  sim_signed : bool;
  sim_app : bool;
  sim_select : bool;
}.

Definition app0 : BleOtaPartition := mkOtaPart "app0" kKitsuApp0Offset kKitsuAppPartitionBytes 0x10.
Definition app1 : BleOtaPartition := mkOtaPart "app1" kKitsuApp1Offset kKitsuAppPartitionBytes 0x11.

(** The byte at [i] of the slot at [address]: programming clears bits. *)
Fixpoint simByte (flash : list FlashOp) (address i : Z) : Z :=
  match flash with
  | [] => 0xff
  | FErase a off n :: rest =>
      if (a =? address) && (off <=? i) && (i <? off + n) then 0xff
      else simByte rest address i
  | FProgram a off bytes :: rest =>
      if (a =? address) && (off <=? i) && (i <? off + Z.of_nat (length bytes))
      then u8 (Z.land (simByte rest address i) (byte_at bytes (Z.to_nat (i - off))))
      else simByte rest address i
  end.

Definition simRead (flash : list FlashOp) (address off : Z) (n : nat) : list Z :=
  map (fun k => u8 (simByte flash address (off + Z.of_nat k))) (seq 0 n).

Definition pushFlash (f : FlashOp) (b : SimBoard) : SimBoard :=
  mkBoard (f :: sim_flash b) (sim_boot b) (sim_signed b) (sim_app b) (sim_select b).

#[export] Instance SimPlatform : BleOtaPlatform SimBoard := {|
  resolvePartitions := ret (Some (app0, app1));
  readPartition p off n := gets (fun b => Some (simRead (sim_flash b) (op_address p) off n));
  erasePartition p off n := modify (pushFlash (FErase (op_address p) off n)) ;;; ret true;
  writePartition p off bytes := modify (pushFlash (FProgram (op_address p) off bytes)) ;;; ret true;
  verifyEspApplication p n := gets sim_app;
  verifyEd25519 k m s := gets sim_signed;
  bootState p := gets (fun b => sim_boot b (op_address p));
  setBootPartition p := gets sim_select;
  markRunningValid := ret true;
  rollbackRunningAndRestart := ret true;
  restart := ret tt;
|}.

#[export] Instance SimReadsFill : ReadsFill SimBoard.
Proof.
  intros p off n b d b' [= <- <-]. unfold simRead. split.
  - by rewrite length_map, length_seq.
  - unfold bytesOk. apply Forall_map, Forall_true. intros k. apply u8_range.
Qed.

(** ** One update *)

Definition demoImage : list Z := bytes_of "a small application image".

Definition demoManifest : ParsedManifest :=
  mkManifest (bytes_of "r1") (bytes_of "1.2.0") (Z.of_nat (length demoImage)) (sha256 demoImage).

Definition demoId : list Z := sha256 (renderManifest demoManifest).

Definition beginPayload (m : ParsedManifest) : list Z :=
  js "{'manifest_b64':'" ++ base64url (renderManifest m) ++ js "','signature_b64':'" ++
  base64url (replicate 64 7) ++ js "'}".

Definition request (op : string) (payload : list Z) : Op :=
  OpRequest (Some op) (Some payload) (Some 1024%nat).

(** Begin, write the image in one chunk, finish, reboot. *)
Definition demoUpdate : list Op :=
  [ OpBegin (Some (bytes_of "1.1.0"));
    request "firmware.update.begin" (beginPayload demoManifest);
    request "firmware.update.write" (renderWriteRequest demoId 0 demoImage);
    request "firmware.update.finish" (renderIdRequest demoId);
    request "firmware.update.reboot" (renderIdRequest demoId);
    OpLoop 1000 true true; OpLoop 2000 true true ].

Definition blankBoard : SimBoard := mkBoard [] (fun _ => BootValid) true true true.

(** The board after the reboot: the other slot runs, pending verification. *)
Definition pendingBoard : SimBoard :=
  mkBoard
    [ FProgram kKitsuApp0Offset kJournalOffset
        (encodeHeader 0x10 demoManifest demoId ++
         encodeRecord 1 kJournalReady (manifestImageBytes demoManifest));
      FProgram kKitsuApp0Offset 0 demoImage ]
    (fun _ => BootPendingVerify) true true true.

Definition demoConfirm : list Op :=
  [ OpBegin (Some (bytes_of "1.2.0")); OpCritical true 5000;
    OpLoop 20000 true true; OpLoop 35000 true true ].

Example demoUpdate_states :
  map (fun k => state_ (fst (runFrom blankBoard (take k demoUpdate)))) (seq 1 5) =
  [Idle; Receiving; Receiving; ReadyToReboot; ReadyToReboot] /\
  last (trace blankBoard demoUpdate) = Some EvRestart.
Proof. split; vm_compute; reflexivity. Qed.

Example demoConfirm_states :
  map (fun k => state_ (fst (runFrom pendingBoard (take k demoConfirm)))) (seq 1 4) =
  [PendingVerify; PendingVerify; PendingVerify; Confirmed].
Proof. vm_compute; reflexivity. Qed.
