(* ===== verification/OtaSafety.v ===== *)
(** * Safety of the updater

    The invariant holds after any sequence of calls on a fresh updater, and
    what follows for the slots it touches, the manifests it trusts, the image
    it selects for boot and the image it confirms. *)

From S2P Require Import Prelude Sha256 FlashLayout OtaCodec OtaManifest OtaPlatform Ota.
From S2P Require Import OtaCodecFacts OtaTrace OtaInvariant OtaSim.

Open Scope kitsu_scope.

Lemma lawful_resolves r i v log : Forall isResolve log -> lawful (okEvent r i v) log.
Proof.
  intros Hf b e a ->. apply Forall_app in Hf as [_ Hf]. inversion Hf; subst. by destruct e.
Qed.

Lemma Inv_initial : Inv ota0 [].
Proof.
  split; [split|..]; simpl; try discriminate; auto using zeroDigest_ok, lawful_nil;
    unfold kJournalCheckpointCapacity, UINT16_MAX, kBleOtaMaximumImageBytes,
      kBleOtaAppPartitionBytes, kKitsuAppPartitionBytes, kBleOtaJournalBytes; simpl; lia.
Qed.

Section Reach.
Context {W : Type} `{BP : BleOtaPlatform W} `{RF : !ReadsFill W}.
Implicit Types (o : Ota) (w : W) (log : list OtaEvent).

(** A machine that has not begun keeps the invariant whatever slots and
    version it holds. *)
Lemma Inv_unbegun o o' log :
  Inv o log -> begun_ o = false -> begun_ o' = false -> Forall isResolve log ->
  state_ o' = state_ o -> manifestLoaded_ o' = manifestLoaded_ o ->
  confirmationArmed_ o' = confirmationArmed_ o -> Ranges o' -> Inv o' log.
Proof using.
  intros [] Hb Hb' Hf E1 E2 E3 Hr. destruct (inv_fresh Hb) as (_ & F1 & F2 & F3).
  split; auto using lawful_resolves; try congruence. repeat split; congruence.
Qed.

Lemma begin_inv v o w log :
  Inv o log -> wp (begin v) (post (fun _ o' log' => Inv o' log')) (o, (w, log)).
Proof using RF.
  intros Hi. unfold begin. ota_run. ota_step; [ota_run; by ota_done|].
  apply orb_false_iff in E as [Hb _].
  destruct (inv_fresh _ _ Hi Hb) as (Hf & Hs & Hm & Ha).
  ota_run. set (l1 := log ++ _).
  assert (Hf1 : Forall isResolve l1) by (apply Forall_app; split; auto; repeat constructor).
  assert (Hrg : Ranges o) by apply Hi.
  assert (Hu : forall p r i ver, Inv (set_inactive_ i (set_running_ r
                 (set_runningVersion_ ver (set_platform_ p o)))) l1).
  { intros. assert (Hi1 : Inv o l1).
    { destruct Hi. split; auto using lawful_resolves; congruence. }
    apply (Inv_unbegun o); auto. destruct Hrg. by split. }
  destruct a as [[r i]|].
  - ota_run. ota_step; [ota_run; ota_done; eapply Inv_core; [|apply (Hu true r i)]; reflexivity|].
    apply negb_false_iff in E. ota_run. set (o1 := set_begun_ true _).
    assert (Hg : good o1 l1 o1 l1).
    { apply good_refl; [done|]. destruct Hrg.
      split; [split|..]; simpl; auto using lawful_resolves; try congruence. }
    eapply wp_post; [apply (loadExistingState_wp _ _ _ o1 l1); [done|by left]|].
    intros ok o2 w2 l2 [Hg2 Hnp]. ota_step; [|ota_run; ota_done; apply Hg2].
    ota_run. cbv [id].
    eapply (wp_post _ (fun _ o' log' => Inv o' log')); [|intros; ota_run; by ota_done].
    ota_step; [|ota_run; ota_done; apply Hg2]. ota_run. ota_done.
    eapply gd_inv, good_failed; [exact Hg2|apply Hnp; by apply negb_true_iff|reflexivity].
  - ota_run. ota_done. eapply Inv_core; [|apply (Hu true (running_ o) (inactive_ o) (default [] v))].
    unfold core. simpl. reflexivity.
Qed.

Lemma fail_unbegun e resp o w log :
  Inv o log -> wp (refuse e false resp) (post (fun _ o' log' => Inv o' log')) (o, (w, log)).
Proof using.
  intros Hi. apply (Inv_core o); [reflexivity|exact Hi].
Qed.

Lemma runOp_inv op o w log :
  Inv o log -> wp (runOp op) (post (fun _ o' log' => Inv o' log')) (o, (w, log)).
Proof using RF.
  intros Hi. destruct (begun_ o) eqn:Hb.
  - pose proof (good_refl o log Hb Hi) as Hg.
    destruct op; cbn [runOp]; ota_run.
    + eapply wp_post; [by apply begin_inv|]. intros. ota_run. by ota_done.
    + eapply wp_post; [by apply handleRequest_wp|]. intros ? ? ? ? Hr. ota_run. ota_done. exact (gd_inv _ _ _ _ Hr).
    + eapply wp_post; [by apply finishCritical_wp|]. intros ? ? ? ? Hr. ota_run. ota_done. exact (gd_inv _ _ _ _ Hr).
    + eapply wp_post; [by apply loop_wp|]. intros ? ? ? ? Hr. ota_done. exact (gd_inv _ _ _ _ Hr).
  - destruct op; cbn [runOp]; ota_run.
    + eapply wp_post; [by apply begin_inv|]. intros. ota_run. by ota_done.
    + unfold handleRequest. ota_run. rewrite Hb.
      eapply wp_post; [by apply fail_unbegun|]. intros. ota_run. by ota_done.
    + unfold finishCriticalInitialization. ota_run. cbv [id]. rewrite Hb. simpl.
      ota_run. by ota_done.
    + unfold loop. ota_run. rewrite Hb. simpl. ota_run. by ota_done.
Qed.

Lemma runOps_inv ops : forall o w log,
  Inv o log -> wp (runOps ops) (post (fun _ o' log' => Inv o' log')) (o, (w, log)).
Proof using RF.
  induction ops as [|op ops IH]; intros o w log Hi; cbn [runOps]; ota_run; [by ota_done|].
  eapply wp_post; [by apply runOp_inv|]. intros. by apply IH.
Qed.

Lemma runFrom_inv w ops : Inv (fst (runFrom w ops)) (trace w ops).
Proof using RF.
  unfold trace, runFrom. pose proof (runOps_inv ops ota0 w [] Inv_initial) as Hr.
  unfold wp, post in Hr. exact Hr.
Qed.
End Reach.


Lemma runFrom_begun `{BP : BleOtaPlatform W} `{RF : !ReadsFill W} w ops e :
  e ∈ trace w ops -> ~ isResolve e -> begun_ (fst (runFrom w ops)) = true.
Proof.
  intros He Hr. pose proof (runFrom_inv w ops) as Hi.
  destruct (begun_ (fst (runFrom w ops))) eqn:Hb; [done|].
  destruct (inv_fresh _ _ Hi Hb) as [Hf _]. rewrite Forall_forall in Hf. by destruct (Hr (Hf e He)).
Qed.

Lemma slotsOk_distinct r i : slotsOk r i = true -> i <> r.
Proof.
  unfold slotsOk. rewrite !andb_true_iff, negb_true_iff, Z.eqb_neq. intros [[_ Hn] _] ->. done.
Qed.

(** C4: whatever calls reach the updater, in any order and with any payloads,
    it erases and programs only the inactive application slot, never the running
    one, and only inside that slot; every erase is one aligned sector. *)
Theorem flash_confined `{BP : BleOtaPlatform W} `{RF : !ReadsFill W} w ops :
  let o := fst (runFrom w ops) in
  (forall p off n ok, EvErase p off n ok ∈ trace w ops ->
     p = inactive_ o /\ p <> running_ o /\ n = kBleOtaJournalBytes /\
     off mod kBleOtaJournalBytes = 0 /\ 0 <= off /\ off + n <= kBleOtaAppPartitionBytes) /\
  (forall p off bytes ok, EvWrite p off bytes ok ∈ trace w ops ->
     p = inactive_ o /\ p <> running_ o /\
     0 <= off /\ off + Z.of_nat (length bytes) <= kBleOtaAppPartitionBytes).
Proof.
  intros o. pose proof (runFrom_inv w ops) as Hi.
  assert (Hmax : kBleOtaAppPartitionBytes = kBleOtaMaximumImageBytes + kBleOtaJournalBytes /\
                 kJournalOffset = kBleOtaMaximumImageBytes /\ 0 <= kBleOtaMaximumImageBytes /\
                 0 < kBleOtaJournalBytes) by done.
  assert (Hd : forall e, e ∈ trace w ops -> ~ isResolve e -> inactive_ o <> running_ o).
  { intros e He Hr. apply slotsOk_distinct, (inv_slots _ _ Hi), (runFrom_begun w ops e He Hr). }
  split; intros p off x ok He;
    destruct (lawful_elem _ _ _ (inv_lawful _ _ Hi) He) as [before Hok]; simpl in Hok.
  - destruct Hok as (-> & -> & Hm & Hoff). specialize (Hd _ He (fun f => f)).
    repeat split; auto; destruct Hoff as [->|(? & ? & _)]; lia.
  - destruct Hok as (-> & Hoff). specialize (Hd _ He (fun f => f)).
    repeat split; auto; destruct Hoff as [?|(? & ? & ? & m & Hs & ?)]; try lia.
    destruct Hs as (message & sig & _ & Hp & _). apply parseManifest_sound in Hp as [_ Hm].
    destruct Hm as (_ & _ & ? & _). lia.
Qed.

Lemma flash_confined_witness :
  exists p off n ok, EvErase p off n ok ∈ trace blankBoard demoUpdate /\ p = app1 /\
    off + n <= kBleOtaAppPartitionBytes.
Proof.
  exists app1, 0, 4096, true.
  assert (He : EvErase app1 0 4096 true ∈ trace blankBoard demoUpdate).
  { apply (list_elem_of_lookup_2 _ 11%nat). vm_compute. reflexivity. }
  split; [exact He|].
  destruct (proj1 (flash_confined blankBoard demoUpdate) _ _ _ _ He) as (_ & _ & _ & _ & _ & Hb).
  split; [reflexivity|exact Hb].
Defined.


Lemma split_at {A} (l : list A) k e : l !! k = Some e -> l = take k l ++ e :: drop (Datatypes.S k) l.
Proof. intros Hk. symmetry. by apply take_drop_middle. Qed.




(** C3: the running image is marked valid only when the boot loader reported it
    as pending verification and its own slot holds a Ready journal whose version
    is the running version, whose digest is the SHA-256 the slot reads back with
    and whose length passed the boot loader's image check. *)
Theorem confirmation_bound `{BP : BleOtaPlatform W} `{RF : !ReadsFill W} w ops before ok after :
  trace w ops = before ++ EvMarkValid ok :: after ->
  pendingBound before (running_ (fst (runFrom w ops))) (runningVersion_ (fst (runFrom w ops))).
Proof. intros Et. exact (inv_lawful _ _ (runFrom_inv w ops) _ _ _ Et). Qed.

Lemma confirmation_bound_witness :
  pendingBound (take 254 (trace pendingBoard demoConfirm)) app0 (bytes_of "1.2.0").
Proof.
  assert (E : trace pendingBoard demoConfirm =
    take 254 (trace pendingBoard demoConfirm) ++ EvMarkValid true :: drop 255 (trace pendingBoard demoConfirm))
    by (apply split_at; vm_compute; reflexivity).
  assert (Er : running_ (fst (runFrom pendingBoard demoConfirm)) = app0) by (vm_compute; reflexivity).
  assert (Ev : runningVersion_ (fst (runFrom pendingBoard demoConfirm)) = bytes_of "1.2.0")
    by (vm_compute; reflexivity).
  rewrite <- Er, <- Ev. exact (confirmation_bound pendingBoard demoConfirm _ _ _ E).
Defined.

(** After any sequence of calls the counters of the machine are in range:
    the image fits the slot, the write offset never passes the image length, the
    durable offset never passes the write offset, the journal cursor stays inside
    the sector, and while receiving every programmed byte lies in erased flash. *)
Theorem updater_ranges `{BP : BleOtaPlatform W} `{RF : !ReadsFill W} w ops :
  let o := fst (runFrom w ops) in
  0 <= imageBytes_ o <= kBleOtaMaximumImageBytes /\ 0 <= nextOffset_ o <= imageBytes_ o /\
  0 <= persistedOffset_ o <= nextOffset_ o /\
  0 <= journalNextSlot_ o <= Z.of_nat kJournalCheckpointCapacity /\
  0 <= journalSequence_ o <= UINT16_MAX /\
  (state_ o = Receiving -> nextOffset_ o <= erasedThrough_ o).
Proof.
  cbv zeta. pose proof (runFrom_inv w ops) as [[] Her _ _ _ _ _ _ _ _]. do 4 (split; [lia|]). split; [lia|exact Her].
Qed.

Lemma updater_ranges_witness :
  0 <= nextOffset_ (fst (runFrom blankBoard demoUpdate)) <= imageBytes_ (fst (runFrom blankBoard demoUpdate)).
Proof. exact (proj1 (proj2 (updater_ranges blankBoard demoUpdate))). Defined.
