(* ===== verification/OtaFrame.v ===== *)
(** * What requests cannot do

    A predicate on the members that survives the assignments the request
    handlers make survives every request.  The predicates used later say what a
    request cannot reach: the pending-verification state, the confirmation
    timer, the reboot timer. *)

From S2P Require Import Prelude Sha256 FlashLayout OtaCodec OtaManifest OtaPlatform Ota.
From S2P Require Import OtaCodecFacts OtaTrace OtaInvariant.

Open Scope kitsu_scope.

(** [o'] differs from [o] only in members neither timer nor state depends on. *)
Definition timers (o : Ota) :=
  (begun_ o, state_ o, confirmationArmed_ o, healthySince_ o,
   (rebootScheduled_ o, rebootAt_ o, rebootFallbackAt_ o)).

(** Calls a request may make: neither confirmation, rollback nor restart. *)
Definition calm (e : OtaEvent) : Prop :=
  match e with EvMarkValid _ | EvRollback _ | EvRestart => False | _ => True end.

Definition extends (log log' : list OtaEvent) : Prop :=
  exists new, log' = log ++ new /\ Forall calm new.

Lemma extends_refl log : extends log log.
Proof. exists []. by rewrite app_nil_r. Qed.
Lemma extends_snoc log log' e : extends log log' -> calm e -> extends log (log' ++ [e]).
Proof.
  intros (new & -> & Hn) He. exists (new ++ [e]). rewrite <- app_assoc. split; auto.
  apply Forall_app; auto.
Qed.
Lemma extends_trans a b c : extends a b -> extends b c -> extends a c.
Proof.
  intros (n1 & -> & H1) (n2 & -> & H2). exists (n1 ++ n2). rewrite app_assoc. split; auto.
  by apply Forall_app.
Qed.
Lemma extends_quiet a b c : extends a b -> quiet b c -> extends a c.
Proof.
  intros He (new & -> & Hn). eapply extends_trans; [exact He|]. exists new. split; auto.
  eapply Forall_impl; [exact Hn|]. by intros [].
Qed.

Create HintDb ext.
#[export] Hint Resolve extends_refl extends_snoc : ext.
#[export] Hint Extern 1 (calm _) => exact I : ext.
#[export] Hint Extern 2 (extends _ ?l) =>
  match goal with H : quiet _ l |- _ => eapply extends_quiet; [|exact H] end : ext.

(** The assignments and calls a request may make, as closure conditions. *)
Record Closed (P : Ota -> list OtaEvent -> Prop) : Prop := {
  cl_same : forall o o' log log', timers o = timers o' -> extends log log' -> P o log -> P o' log';
  cl_state : forall o log st, state_ o <> PendingVerify -> st <> PendingVerify -> st <> Confirmed ->
    st <> RolledBack -> P o log -> P (set_state_ st o) log;
  cl_cancel : forall o log, P o log ->
    P (set_rebootFallbackAt_ 0 (set_rebootAt_ 0 (set_rebootScheduled_ false o))) log;
  cl_schedule : forall o log, state_ o = ReadyToReboot -> P o log ->
    P (set_rebootAt_ 0 (set_rebootScheduled_ true o)) log;
  cl_disarm : forall o log, state_ o <> PendingVerify -> P o log ->
    P (set_healthySince_ 0 (set_confirmationArmed_ false o)) log;
}.

(** The predicate and the fact that the machine is not pending verification. *)
Definition outside (P : Ota -> list OtaEvent -> Prop) (o : Ota) (log : list OtaEvent) : Prop :=
  P o log /\ state_ o <> PendingVerify.

Section Frame.
Context {W : Type} `{BP : BleOtaPlatform W}.
Context (P : Ota -> list OtaEvent -> Prop) (HP : Closed P).
Implicit Types (o : Ota) (w : W) (log : list OtaEvent).

Abbreviation keeps m := (forall o w log, outside P o log ->
  wp m (post (fun _ o' log' => outside P o' log')) (o, (w, log))).

Lemma outside_same o o' log log' :
  timers o = timers o' -> extends log log' -> outside P o log -> outside P o' log'.
Proof using HP.
  intros E Hx [H Hs]. split; [by apply (cl_same _ HP o _ log)|].
  unfold timers in E. injection E. intros. congruence.
Qed.

Lemma outside_state o o' log st : timers o' = timers (set_state_ st o) ->
  st <> PendingVerify -> st <> Confirmed -> st <> RolledBack ->
  outside P o log -> outside P o' log.
Proof using HP.
  intros E H1 H2 H3 [H Hs]. apply (outside_same (set_state_ st o) _ log); [done|apply extends_refl|].
  split; [by apply (cl_state _ HP)|done].
Qed.

(** [keep] closes a goal reached by frame assignments and calm calls;
    [leave st] one that also moved to state [st]. *)
Ltac keep := match goal with H : outside P ?o ?l |- outside P _ _ =>
  apply (outside_same o _ l); [reflexivity|eauto 8 with ext|exact H] end.
Ltac leave st := match goal with H : outside P ?o ?l |- outside P _ _ =>
  apply (outside_state o _ _ st); [reflexivity|discriminate..|exact H] end.

Lemma fail_keeps e t : keeps (fail e t).
Proof using HP.
  intros o w log H. unfold fail. ota_run. ota_step; ota_run; ota_done; [leave Failed|keep].
Qed.

Lemma refuse_keeps e t resp : keeps (refuse e t resp).
Proof using HP.
  intros o w log H. unfold refuse, encodeReceipt. ota_run.
  eapply wp_post; [by apply fail_keeps|]. intros. ota_run. by ota_done.
Qed.

Lemma receipt_keeps ok rp sc resp : keeps (encodeReceipt ok rp sc resp).
Proof using. intros o w log H. unfold encodeReceipt. ota_run. by ota_done. Qed.

Ltac refused := apply refuse_keeps; keep.
Ltac failed := apply fail_keeps; keep.
Ltac receipt := ota_run; apply receipt_keeps; keep.

Lemma appendCheckpoint_keeps st n : keeps (appendCheckpoint st n).
Proof using HP.
  intros o w log H. unfold appendCheckpoint. ota_run. ota_step; [ota_run; by ota_done|]. ota_run.
  eapply wp_post; [apply writeVerified_wp|]. intros r o1 w1 l1 (-> & wok & Hq).
  ota_step; ota_run; ota_done; keep.
Qed.

Lemma hashLoop_same p bytes fuel : forall off ctx o w log,
  wp (hashLoop fuel p off bytes ctx) (post (fun _ o' log' => o' = o /\ quiet log log'))
     (o, (w, log)).
Proof using.
  induction fuel as [|fuel IH]; intros off ctx o w log; cbn [hashLoop];
    [ota_run; ota_done; auto with quiet|].
  destruct (off <? bytes); [|ota_run; ota_done; auto with quiet].
  ota_run. destruct a as [d|]; [|ota_run; ota_done; auto with quiet].
  eapply wp_post; [apply IH|]. intros ? ? ? ? [-> Hq]. ota_done. split; [done|].
  eapply quiet_trans; [|exact Hq]. auto with quiet.
Qed.

Lemma rebuildPrefixHash_keeps : keeps rebuildPrefixHash.
Proof using HP.
  intros o w log H. unfold rebuildPrefixHash. ota_run. eapply wp_post; [apply hashLoop_same|].
  intros r o1 w1 l1 [-> Hq]. destruct r; ota_run; ota_done; keep.
Qed.

Lemma cancel_keeps o log : outside P o log ->
  outside P (set_rebootFallbackAt_ 0 (set_rebootAt_ 0 (set_rebootScheduled_ false o))) log.
Proof using HP. intros [H Hs]. split; [by apply (cl_cancel _ HP)|done]. Qed.

Lemma clearForIdle_keeps : keeps clearForIdle.
Proof using HP.
  intros o w log H. unfold clearForIdle. ota_run. ota_done.
  pose proof (cancel_keeps o log H) as [H1 Hs].
  apply (outside_state (set_healthySince_ 0 (set_confirmationArmed_ false
    (set_rebootFallbackAt_ 0 (set_rebootAt_ 0 (set_rebootScheduled_ false o))))) _ _ Idle); try done.
  split; [by apply (cl_disarm _ HP)|done].
Qed.

Lemma prepareNewUpdate_keeps m uid : keeps (prepareNewUpdate m uid).
Proof using HP.
  intros o w log H. unfold prepareNewUpdate, writeJournalHeader. ota_run.
  apply cancel_keeps in H. set (o1 := set_rebootFallbackAt_ 0 _) in *. clearbody o1.
  ota_step; [failed|]. ota_run. ota_step; [failed|]. ota_run.
  eapply wp_post; [apply writeVerified_wp|]. intros r o2 w2 l2 (-> & wok & Hq).
  ota_step; [failed|]. ota_run.
  eapply wp_post; [apply appendCheckpoint_keeps; keep|]. cbv beta. intros r3 o3 w3 l3 H3.
  ota_step; [failed|]. ota_run. ota_done. leave Receiving.
Qed.

Lemma bindResumedManifest_keeps m uid : keeps (bindResumedManifest m uid).
Proof using HP.
  intros o w log H. unfold bindResumedManifest. ota_run. ota_step; [ota_run; by ota_done|].
  ota_run. ota_step; [apply rebuildPrefixHash_keeps|ota_run; ota_done]; keep.
Qed.

Lemma dispatchBegin_keeps m uid : keeps (dispatchBegin m uid).
Proof using HP.
  intros o w log H. unfold dispatchBegin. ota_run.
  destruct (state_ (id o)); try (by apply prepareNewUpdate_keeps); try failed.
  all: ota_step; [failed|]; try failed.
  all: ota_run; eapply wp_post; [by apply bindResumedManifest_keeps|]; cbv beta; intros;
    ota_step; [failed|ota_run; by ota_done].
Qed.

Lemma handleBegin_keeps payload resp : keeps (handleBegin payload resp).
Proof using HP.
  intros o w log H. unfold handleBegin. destruct (decodeBegin payload) as [[[? ?] ?]|]; [|refused].
  ota_run. ota_step; [refused|]. ota_run.
  eapply wp_post; [apply dispatchBegin_keeps; keep|]. cbv beta. intros. receipt.
Qed.

Lemma handleStatus_keeps payload resp : keeps (handleStatus payload resp).
Proof using HP.
  intros o w log H. unfold handleStatus. ota_step; [refused|]. ota_run. ota_step; receipt.
Qed.

Lemma eraseAhead_keeps c : keeps (eraseAhead c).
Proof using HP.
  intros o w log H. unfold eraseAhead. ota_run. ota_step; [|ota_run; by ota_done].
  ota_step; [ota_run; by ota_done|]. ota_run. ota_step; ota_run; ota_done; keep.
Qed.

Lemma writeNext_keeps off chunk resp : keeps (writeNext off chunk resp).
Proof using HP.
  intros o w log H. unfold writeNext. ota_run.
  eapply wp_post; [by apply eraseAhead_keeps|]. cbv beta. intros r o1 w1 l1 H1.
  ota_step; [refused|]. ota_run. ota_step; [refused|]. ota_run.
  eapply wp_post; [apply comparePartition_wp|]. intros r2 o2 w2 l2 [-> Hq].
  ota_step; [refused|]. ota_run. set (o2 := set_nextOffset_ _ _).
  assert (H2 : outside P o2 l2) by keep. clearbody o2.
  eapply (wp_post _ (fun _ o' log' => outside P o' log')).
  - ota_step; [by apply appendCheckpoint_keeps|ota_run; by ota_done].
  - intros r3 o3 w3 l3 H3. ota_step; [refused|]. receipt.
Qed.

Lemma handleWrite_keeps payload resp : keeps (handleWrite payload resp).
Proof using HP.
  intros o w log H. unfold handleWrite. destruct (decodeWrite payload) as [[[? ?] ?]|]; [|refused].
  ota_run. do 4 (ota_step; [refused|]). ota_step.
  - ota_run. eapply (wp_post _ (fun _ o' log' => o' = o /\ quiet log log')).
    + ota_step; [ota_run; ota_done; auto with quiet|].
      eapply wp_post; [apply comparePartition_wp|]. intros ? ? ? ? [-> ?]. by ota_done.
    + intros ? ? ? ? [-> Hq]. ota_step; [refused|]. receipt.
  - do 2 (ota_step; [refused|]). by apply writeNext_keeps.
Qed.

Lemma selectInactive_keeps resp : keeps (selectInactive resp).
Proof using HP. intros o w log H. unfold selectInactive. receipt. Qed.

Lemma imageHashesMatch_keeps : keeps imageHashesMatch.
Proof using HP.
  intros o w log H. unfold imageHashesMatch. ota_run.
  eapply (wp_post _ (fun _ o' log' => timers o' = timers o /\ log' = log)).
  { ota_step; ota_run; by ota_done. }
  intros ? o1 w1 l1 [E ->]. assert (H1 : outside P (set_prefixHashReady_ false o1) log)
    by (apply (outside_same o _ log); auto with ext).
  ota_run. ota_step; [|ota_run; by ota_done]. unfold hashPartition. ota_run.
  eapply wp_post; [apply hashLoop_same|]. intros ? ? ? ? [-> Hq]. ota_run. ota_done. keep.
Qed.

Lemma handleFinish_keeps payload resp : keeps (handleFinish payload resp).
Proof using HP.
  intros o w log H. unfold handleFinish. destruct (parseIdRequest payload); [|refused].
  ota_run. do 2 (ota_step; [refused|]). ota_step; [by apply selectInactive_keeps|].
  do 2 (ota_step; [refused|]). ota_run.
  eapply wp_post; [by apply imageHashesMatch_keeps|]. cbv beta. intros r1 o1 w1 l1 H1.
  ota_step; [refused|]. ota_run. ota_step; [refused|]. ota_run.
  eapply wp_post; [apply appendCheckpoint_keeps; keep|]. cbv beta. intros r2 o2 w2 l2 H2.
  ota_step; [refused|]. ota_run. apply selectInactive_keeps. leave ReadyToReboot.
Qed.

Lemma handleReboot_keeps payload resp : keeps (handleReboot payload resp).
Proof using HP.
  intros o w log H. unfold handleReboot. destruct (parseIdRequest payload); [|refused].
  ota_run. ota_step; [refused|]. ota_step; [refused|].
  apply negb_false_iff, bool_decide_eq_true in E0. ota_run. ota_step; [refused|].
  ota_run. apply receipt_keeps.
  apply (outside_same (set_rebootAt_ 0 (set_rebootScheduled_ true o)) _ log); [done|auto with ext|].
  destruct H. split; [by apply (cl_schedule _ HP)|done].
Qed.

Lemma handleAbort_keeps payload resp : keeps (handleAbort payload resp).
Proof using HP.
  intros o w log H. unfold handleAbort. destruct (parseIdRequest payload); [|refused].
  ota_run. do 2 (ota_step; [refused|]). ota_run.
  pose proof (cancel_keeps o log H) as H1. set (o1 := set_rebootFallbackAt_ 0 _) in *.
  change (journalHeaderReady_ (id o)) with (journalHeaderReady_ o1).
  change (nextOffset_ (id o)) with (nextOffset_ o1).
  change (inactive_ (id o)) with (inactive_ o1).
  clearbody o1. ota_step; [refused|]. ota_run.
  eapply (wp_post _ (fun _ o' log' => outside P o' log')).
  - ota_step; [|ota_run; ota_done; keep]. ota_run.
    eapply wp_post; [apply appendCheckpoint_keeps; keep|]. cbv beta. intros.
    ota_step; ota_run; ota_done; keep.
  - intros r2 o2 w2 l2 H2. ota_step; [refused|]. ota_run.
    eapply wp_post; [by apply clearForIdle_keeps|]. cbv beta. intros. by apply receipt_keeps.
Qed.

Lemma handleRequest_keeps operation payload resp : keeps (handleRequest operation payload resp).
Proof using HP.
  intros o w log H. unfold handleRequest. ota_run.
  destruct (if begun_ o then operation else None) as [op|]; [|refused].
  repeat (ota_step; [first [by apply handleStatus_keeps|by apply handleBegin_keeps
    |by apply handleWrite_keeps|by apply handleFinish_keeps|by apply handleReboot_keeps
    |by apply handleAbort_keeps]|]).
  refused.
Qed.
End Frame.

(** While an image is pending verification every request but a status query and
    a signature check is refused: no member but the error text changes. *)
Section Pending.
Context {W : Type} `{BP : BleOtaPlatform W}.
Implicit Types (o : Ota) (w : W) (log : list OtaEvent).

Ltac refuse_only := unfold refuse, fail, encodeReceipt, when; ota_run; ota_done; (split; [by eexists|auto with ext]).

Lemma pending_refuses operation payload resp o w log :
  state_ o = PendingVerify ->
  wp (handleRequest operation payload resp)
     (post (fun _ o' log' => (exists e, o' = set_error_ e o) /\ extends log log')) (o, (w, log)).
Proof using.
  intros Hs. assert (Hne : forall st, st <> PendingVerify -> bool_decide (state_ o = st) = false)
    by (intros st Hst; apply bool_decide_eq_false; congruence).
  unfold handleRequest. ota_run.
  destruct (if begun_ o then operation else None) as [op|]; [|refuse_only].
  ota_step.
  { unfold handleStatus. ota_step; [refuse_only|]. ota_run. cbv [id]. rewrite Hne by done.
    simpl. unfold encodeReceipt. ota_run. ota_done. split; [by eexists|auto with ext]. }
  ota_step.
  { unfold handleBegin. destruct (decodeBegin payload) as [[[? ?] ?]|]; [|refuse_only].
    ota_run. ota_step; [refuse_only|]. unfold dispatchBegin. ota_run. cbv [id]. rewrite Hs.
    refuse_only. }
  ota_step.
  { unfold handleWrite. destruct (decodeWrite payload) as [[[? ?] ?]|]; [|refuse_only].
    ota_run. cbv [id]. rewrite Hne by done. simpl. refuse_only. }
  ota_step.
  { unfold handleFinish. destruct (parseIdRequest payload); [|refuse_only].
    ota_run. cbv [id]. do 2 (ota_step; [refuse_only|]). rewrite !Hne by done. simpl. refuse_only. }
  ota_step.
  { unfold handleReboot. destruct (parseIdRequest payload); [|refuse_only].
    ota_run. cbv [id]. ota_step; [refuse_only|]. rewrite !Hne by done. simpl. refuse_only. }
  ota_step; [|refuse_only].
  unfold handleAbort. destruct (parseIdRequest payload); [|refuse_only].
  ota_run. cbv [id]. rewrite bool_decide_eq_true_2 by done. simpl. refuse_only.
Qed.
End Pending.
