(* ===== verification/OtaHistory.v ===== *)
(** * Timing of confirmation and restart

    What the order and the instants of the calls say about the two irreversible
    actions of the main loop: marking the image valid and restarting. *)

From S2P Require Import Prelude Sha256 FlashLayout OtaCodec OtaManifest OtaPlatform Ota.
From S2P Require Import OtaCodecFacts OtaTrace OtaInvariant OtaFrame OtaSim.

Open Scope kitsu_scope.

(** A call that reports no critical failure. *)
Definition steady (op : Op) : Prop :=
  match op with
  | OpLoop _ health _ => health = true
  | OpCritical healthy _ => healthy = true
  | _ => True
  end.

(** Confirmation was armed at [t0] and everything since was steady. *)
Definition armedBy (hist : list Op) (t0 : Z) : Prop :=
  exists before since, hist = before ++ OpCritical true t0 :: since /\ Forall steady since.

(** A loop iteration at [t1] armed the reboot deadlines. *)
Definition timedBy (hist : list Op) (at0 fallback : Z) : Prop :=
  exists t1 health idle, OpLoop t1 health idle ∈ hist /\
    at0 = u32 (t1 + kBleOtaRebootDelayMs) /\ fallback = u32 (t1 + kBleOtaRebootFallbackMs).

(** A steady half-minute before a healthy loop iteration of [hist]. *)
Definition confirmedBy (hist : list Op) : Prop :=
  exists before now idle after t0,
    hist = before ++ OpLoop now true idle :: after /\ armedBy before t0 /\
    kBleOtaHealthyConfirmationMs <= u32 (now - t0).

(** A loop iteration past a deadline armed by an earlier iteration. *)
Definition restartedBy (hist : list Op) : Prop :=
  exists before now health idle after at0 fallback,
    hist = before ++ OpLoop now health idle :: after /\ timedBy before at0 fallback /\
    deadlineReached now at0 = true /\ (idle = true \/ deadlineReached now fallback = true).

Record Hist (hist : list Op) (o : Ota) (log : list OtaEvent) : Prop := {
  h_fresh : begun_ o = false ->
    state_ o = Idle /\ confirmationArmed_ o = false /\ rebootScheduled_ o = false;
  h_pending : state_ o = PendingVerify -> rebootScheduled_ o = false;
  h_armed : confirmationArmed_ o = true ->
    state_ o = PendingVerify /\ armedBy hist (healthySince_ o);
  h_timed : rebootScheduled_ o = true ->
    rebootAt_ o = 0 \/ timedBy hist (rebootAt_ o) (rebootFallbackAt_ o);
  h_marks : forall ok, EvMarkValid ok ∈ log -> confirmedBy hist;
  h_restarts : EvRestart ∈ log -> restartedBy hist;
}.

(** ** Histories grow *)

Lemma armedBy_snoc hist t0 op : armedBy hist t0 -> steady op -> armedBy (hist ++ [op]) t0.
Proof.
  intros (b & s & -> & Hs) Ho. exists b, (s ++ [op]). rewrite <- app_assoc. split; [done|].
  apply Forall_app. auto.
Qed.
Lemma timedBy_snoc hist a f op : timedBy hist a f -> timedBy (hist ++ [op]) a f.
Proof. intros (t & h & i & Hin & E). exists t, h, i. rewrite elem_of_app. auto. Qed.
Lemma confirmedBy_snoc hist op : confirmedBy hist -> confirmedBy (hist ++ [op]).
Proof.
  intros (b & n & i & a & t & -> & H). exists b, n, i, (a ++ [op]), t.
  by rewrite <- app_assoc.
Qed.
Lemma restartedBy_snoc hist op : restartedBy hist -> restartedBy (hist ++ [op]).
Proof.
  intros (b & n & h & i & a & x & y & -> & H). exists b, n, h, i, (a ++ [op]), x, y.
  by rewrite <- app_assoc.
Qed.

Create HintDb hist.
#[export] Hint Resolve armedBy_snoc timedBy_snoc confirmedBy_snoc restartedBy_snoc : hist.

Lemma calm_marks log log' ok : extends log log' -> EvMarkValid ok ∈ log' -> EvMarkValid ok ∈ log.
Proof.
  intros (new & -> & Hn) [?|Hin]%elem_of_app; [done|].
  rewrite Forall_forall in Hn. by apply Hn in Hin.
Qed.
Lemma calm_restarts log log' : extends log log' -> EvRestart ∈ log' -> EvRestart ∈ log.
Proof.
  intros (new & -> & Hn) [?|Hin]%elem_of_app; [done|].
  rewrite Forall_forall in Hn. by apply Hn in Hin.
Qed.

(** ** Requests *)

(** After [begin], outside verification, the history facts survive every
    request assignment. *)
Definition running (hist : list Op) (o : Ota) (log : list OtaEvent) : Prop :=
  begun_ o = true /\ Hist hist o log.

Lemma Hist_closed hist : Closed (running hist).
Proof.
  split.
  - intros o o' log log' E Hx [Hb []]. unfold timers in E. injection E as E1 E2 E3 E4 E5 E6 E7.
    split; [congruence|].
    split; rewrite <- ?E1, <- ?E2, <- ?E3, <- ?E4, <- ?E5, <- ?E6, <- ?E7;
      eauto using calm_marks, calm_restarts.
  - intros o log st H1 H2 H3 H4 [Hb []]. split; [done|]. split; simpl; auto; try congruence.
    intros Ha. destruct (h_armed0 Ha). congruence.
  - intros o log [Hb []]. split; [done|]. split; simpl; auto; congruence.
  - intros o log Hs [Hb []]. split; [done|]. split; simpl; auto; congruence.
  - intros o log Hs [Hb []]. split; [done|]. split; simpl; auto; congruence.
Qed.

(** A deadline set this instant has not been reached. *)
Lemma deadline_ahead now d : 0 < d < 2 ^ 31 -> deadlineReached now (u32 (now + d)) = false.
Proof.
  intros Hd. unfold deadlineReached, s32.
  replace (u32 (now - u32 (now + d))) with (2 ^ 32 - d).
  - destruct (Z.ltb_spec (2 ^ 32 - d) (2 ^ 31)); lia.
  - unfold u32. rewrite Zminus_mod_idemp_r. replace (now - (now + d)) with (- d) by lia.
    rewrite Z.mod_opp_l_nz; rewrite ?Z.mod_small; lia.
Qed.

Section Steps.
Context {W : Type} `{BP : BleOtaPlatform W} `{RF : !ReadsFill W}.
Implicit Types (o : Ota) (w : W) (log : list OtaEvent).

(** A longer history keeps the facts, if the machine is not armed or the new
    call is steady. *)
Lemma Hist_grow hist op o log :
  Hist hist o log -> (confirmationArmed_ o = true -> steady op) -> Hist (hist ++ [op]) o log.
Proof using.
  intros [] Hs. split; eauto with hist.
  - intros Ha. destruct (h_armed0 Ha). auto with hist.
  - intros Hr. destruct (h_timed0 Hr); auto with hist.
Qed.

Lemma request_hist hist operation payload resp o w log :
  Hist hist o log ->
  wp (handleRequest operation payload resp)
     (post (fun _ o' log' => Hist hist o' log')) (o, (w, log)).
Proof using.
  intros Hh. destruct (begun_ o) eqn:Hb.
  - destruct (decide (state_ o = PendingVerify)) as [Hp|Hp].
    + eapply wp_post; [by apply pending_refuses|]. intros ? ? ? ? [[e ->] Hx]. ota_done.
      eapply (cl_same _ (Hist_closed hist) o); [done|exact Hx|by split].
    + eapply wp_post; [apply (handleRequest_keeps _ (Hist_closed hist))|].
      * split; [by split|done].
      * intros ? ? ? ? [[_ ?] _]. by ota_done.
  - unfold handleRequest. ota_run. rewrite Hb. unfold refuse, fail, encodeReceipt, when.
    ota_run. ota_done. by destruct Hh.
Qed.

(** Loading the journals neither arms, schedules, confirms nor restarts. *)
Definition noAction (e : OtaEvent) : Prop :=
  match e with EvMarkValid _ | EvRestart => False | _ => True end.

Definition idleTimers (log : list OtaEvent) (o' : Ota) (log' : list OtaEvent) : Prop :=
  confirmationArmed_ o' = false /\ rebootScheduled_ o' = false /\ begun_ o' = true /\
  exists new, log' = log ++ new /\ Forall noAction new.

Lemma idle_quiet log0 o o' log log' : idleTimers log0 o log -> quiet log log' ->
  confirmationArmed_ o' = false -> rebootScheduled_ o' = false -> begun_ o' = true ->
  idleTimers log0 o' log'.
Proof using.
  intros (_ & _ & _ & new & -> & Hn) (new' & -> & Hn') H1 H2 H3.
  do 3 (split; [done|]). exists (new ++ new'). rewrite app_assoc. split; [done|].
  apply Forall_app. split; [done|]. eapply Forall_impl; [exact Hn'|]. by intros [].
Qed.

Lemma idle_event log0 o log e : idleTimers log0 o log -> noAction e ->
  idleTimers log0 o (log ++ [e]).
Proof using.
  intros (? & ? & ? & new & -> & Hn) He. do 3 (split; [done|]). exists (new ++ [e]).
  rewrite <- app_assoc. split; [done|]. apply Forall_app. auto.
Qed.

(** [idles] closes a goal reached by assignments and reads from an idle point. *)
Ltac idles := match goal with H : idleTimers ?l0 ?o ?l |- idleTimers ?l0 _ _ =>
  apply (idle_quiet l0 o _ l); [exact H|auto with quiet|apply H..] end.

Lemma rollback_idle log0 e o w log : idleTimers log0 o log ->
  wp (rollback e) (post (fun _ o' log' => idleTimers log0 o' log')) (o, (w, log)).
Proof using.
  intros H. unfold rollback. ota_run.
  set (o1 := set_confirmationArmed_ false _).
  assert (H1 : idleTimers log0 o1 log)
    by (apply (idle_quiet log0 o _ log); [exact H|auto with quiet|done|apply H..]).
  change (platform_ o1) with (platform_ o).
  clearbody o1. eapply (wp_post _ (fun _ o' log' => idleTimers log0 o' log')).
  - ota_step; ota_run; ota_done; [by apply idle_event|done].
  - intros ok o2 w2 l2 H2. ota_run. ota_step; ota_run; ota_done; idles.
Qed.

Lemma bindPending_idle log0 o w log : idleTimers log0 o log ->
  wp bindPendingRunningImage (post (fun _ o' log' => idleTimers log0 o' log')) (o, (w, log)).
Proof using.
  intros H. unfold bindPendingRunningImage. ota_run.
  eapply (wp_post _ (fun _ o' log' => idleTimers log0 o' log')).
  - ota_step; [|ota_run; by ota_done]. unfold hashPartition. ota_run.
    eapply wp_post; [apply hashLoop_same|]. intros ? ? ? ? [-> Hq]. ota_run.
    ota_step; ota_run; ota_done; idles.
  - intros ok o2 w2 l2 H2. ota_step; [by apply rollback_idle|ota_run; by ota_done].
Qed.

Lemma rebuild_idle log0 o w log : idleTimers log0 o log ->
  wp rebuildPrefixHash (post (fun _ o' log' => idleTimers log0 o' log')) (o, (w, log)).
Proof using.
  intros H. unfold rebuildPrefixHash. ota_run. eapply wp_post; [apply hashLoop_same|].
  intros r o1 w1 l1 [-> Hq]. destruct r; ota_run; ota_done; idles.
Qed.

Lemma load_idle log0 o w log : idleTimers log0 o log ->
  wp loadExistingState (post (fun _ o' log' => idleTimers log0 o' log')) (o, (w, log)).
Proof using RF.
  intros H. unfold loadExistingState, adoptJournal. ota_run.
  eapply wp_post; [apply readJournal_wp|]. intros rv o1 w1 l1 (-> & Hq1 & _).
  assert (H1 : idleTimers log0 o l1) by idles.
  destruct rv as [rv|]; [|ota_run; by ota_done]. ota_run.
  eapply wp_post; [apply readJournal_wp|]. intros iv o2 w2 l2 (-> & Hq2 & _).
  assert (H2 : idleTimers log0 o l2) by idles.
  destruct iv as [iv|]; [|ota_run; by ota_done]. ota_run.
  assert (H3 : idleTimers log0 o (l2 ++ [EvBootState (running_ o) a])) by idles.
  ota_step; [by apply rollback_idle|]. ota_run.
  eapply (wp_post _ (fun _ o' log' => o' = o /\ idleTimers log0 o log')).
  { ota_step; ota_run; ota_done; (split; [done|]); idles. }
  intros ib o3 w3 l3 [-> H4]. ota_step.
  - ota_run. ota_step; ota_run; [|ota_done; idles].
    eapply wp_post; [apply (bindPending_idle log0); idles|]. intros. ota_run. by ota_done.
  - ota_step; ota_run; [apply rebuild_idle; idles|]. ota_step; ota_run; [ota_done; idles|].
    unfold clearForIdle. ota_run. ota_done. apply (idle_quiet log0 o _ l3); auto with quiet. apply H4.
Qed.

Lemma idle_hist hist log0 o log : idleTimers log0 o log ->
  (forall ok, EvMarkValid ok ∈ log0 -> confirmedBy hist) ->
  (EvRestart ∈ log0 -> restartedBy hist) -> Hist hist o log.
Proof using.
  intros (Ha & Hr & Hb & new & -> & Hn) Hm Hre. rewrite Forall_forall in Hn.
  split; try congruence.
  - intros ok [?|Hin]%elem_of_app; [eauto|by destruct (Hn _ Hin)].
  - intros [?|Hin]%elem_of_app; [eauto|by destruct (Hn _ Hin)].
Qed.

Lemma begin_hist hist v o w log :
  Hist hist o log -> wp (begin v) (post (fun _ o' log' => Hist hist o' log')) (o, (w, log)).
Proof using RF.
  intros Hh. unfold begin. ota_run. ota_step; [ota_run; by ota_done|].
  apply orb_false_iff in E as [Hb _]. destruct Hh as [Hf _ _ _ Hm Hr].
  destruct (Hf Hb) as (Hs & Ha & Hsch). ota_run. set (l1 := log ++ _).
  assert (Hm1 : forall ok, EvMarkValid ok ∈ l1 -> confirmedBy hist)
    by (intros ok [?|Hin%list_elem_of_singleton]%elem_of_app; [eauto|discriminate]).
  assert (Hr1 : EvRestart ∈ l1 -> restartedBy hist)
    by (intros [?|Hin%list_elem_of_singleton]%elem_of_app; [eauto|discriminate]).
  assert (Hstay : forall o', state_ o' = state_ o -> confirmationArmed_ o' = confirmationArmed_ o ->
    rebootScheduled_ o' = rebootScheduled_ o -> Hist hist o' l1).
  { intros o' E1 E2 E3. split; auto; try congruence. intros. rewrite E1, E2, E3. auto. }
  destruct a as [[r i]|]; [|ota_run; ota_done; by apply Hstay].
  ota_run. ota_step; [ota_run; ota_done; by apply Hstay|]. ota_run.
  eapply wp_post; [apply (load_idle l1)|].
  { do 3 (split; [done|]). exists []. by rewrite app_nil_r. }
  cbv beta. intros ok o2 w2 l2 H2.
  ota_step; [|ota_run; ota_done; by apply (idle_hist _ l1)].
  ota_run. eapply (wp_post _ (fun _ o' log' => idleTimers l1 o' log')).
  - ota_step; ota_run; ota_done; idles.
  - intros. ota_run. ota_done. by apply (idle_hist _ l1).
Qed.

Lemma event_hist hist o log e : Hist hist o log ->
  (forall ok, e = EvMarkValid ok -> confirmedBy hist) -> (e = EvRestart -> restartedBy hist) ->
  Hist hist o (log ++ [e]).
Proof using.
  intros [] He Hr. split; auto.
  - intros ok [?|Hin%list_elem_of_singleton]%elem_of_app; eauto.
  - intros [?|Hin%list_elem_of_singleton]%elem_of_app; eauto.
Qed.

(** Rolling back disarms, so any later history is one of a machine at rest. *)
Lemma rollback_hist hist op e o w log : Hist hist o log -> begun_ o = true ->
  rebootScheduled_ o = false ->
  wp (rollback e) (post (fun _ o' log' => Hist (hist ++ [op]) o' log')) (o, (w, log)).
Proof using.
  intros [] Hb Hs.
  assert (Hall : forall o' l, l = log \/ (exists ok, l = log ++ [EvRollback ok]) ->
    begun_ o' = true -> rebootScheduled_ o' = false -> confirmationArmed_ o' = false ->
    Hist (hist ++ [op]) o' l).
  { intros o' l Hl H1 H2 H3. split; try congruence; destruct Hl as [->|[ok' ->]]; eauto with hist.
    - intros ok [?|Hin%list_elem_of_singleton]%elem_of_app; [eauto with hist|discriminate].
    - intros [?|Hin%list_elem_of_singleton]%elem_of_app; [eauto with hist|discriminate]. }
  unfold rollback. ota_run. ota_step; ota_run.
  - ota_step; ota_run; ota_done; apply Hall; eauto.
  - ota_step; ota_run; ota_done; apply Hall; eauto.
Qed.

Lemma critical_hist hist healthy now o w log : Hist hist o log ->
  wp (finishCriticalInitialization healthy now)
     (post (fun _ o' log' => Hist (hist ++ [OpCritical healthy now]) o' log')) (o, (w, log)).
Proof using.
  intros Hh. unfold finishCriticalInitialization. ota_run. cbv [id].
  ota_step.
  { ota_run. ota_done. apply Hist_grow; [done|]. destruct Hh as [Hf _ _ _ _ _].
    apply negb_true_iff in E. destruct (Hf E) as (_ & -> & _). discriminate. }
  apply negb_false_iff in E. ota_step.
  { ota_run. ota_done. apply Hist_grow; [done|]. intros Ha.
    apply negb_true_iff, bool_decide_eq_false in E0. by destruct (h_armed _ _ _ Hh Ha). }
  apply negb_false_iff, bool_decide_eq_true in E0.
  ota_step; [apply rollback_hist; auto; by apply (h_pending _ _ _ Hh)|].
  apply negb_false_iff in E1 as ->. ota_run. ota_done.
  destruct Hh. split; simpl; eauto with hist; try congruence.
  - intros _. split; [done|]. exists hist, []. auto.
  - intros Hr. rewrite (h_pending0 E0) in Hr. discriminate.
Qed.

Lemma loop_hist hist now health idle o w log : Hist hist o log ->
  wp (loop now health idle)
     (post (fun _ o' log' => Hist (hist ++ [OpLoop now health idle]) o' log')) (o, (w, log)).
Proof using.
  intros Hh. unfold loop. ota_run. destruct (begun_ o) eqn:Hb; simpl.
  2:{ ota_run. ota_done. apply Hist_grow; [done|]. destruct Hh as [Hf _ _ _ _ _].
      destruct (Hf Hb) as (_ & -> & _). discriminate. }
  ota_run. unfold loopReboot. ota_run. ota_step; ota_run.
  - (* a reboot is scheduled, so nothing is pending verification *)
    assert (Ha : confirmationArmed_ o = false).
    { destruct (confirmationArmed_ o) eqn:Ha; [|done].
      destruct (h_armed _ _ _ Hh Ha) as [Hp _]. by rewrite (h_pending _ _ _ Hh Hp) in E. }
    assert (Hp : state_ o <> PendingVerify).
    { intros Hp. by rewrite (h_pending _ _ _ Hh Hp) in E. }
    set (op := OpLoop now health idle).
    eapply (wp_post _ (fun _ o' log' => log' = log /\ Hist (hist ++ [op]) o' log' /\
      begun_ o' = true /\ state_ o' = state_ o /\ confirmationArmed_ o' = false /\
      (rebootAt_ o' = u32 (now + kBleOtaRebootDelayMs) \/
       timedBy hist (rebootAt_ o') (rebootFallbackAt_ o')))).
    { assert (Hg : Hist (hist ++ [op]) o log) by (apply Hist_grow; [done|congruence]).
      ota_step; ota_run; ota_done; (split; [done|]).
      - split; [|simpl; auto]. destruct Hg. split; simpl; auto; try congruence.
        intros _. right. exists now, health, idle. split; [|done].
        apply elem_of_app. right. by constructor.
      - split; [done|]. do 3 (split; [done|]). right.
        destruct (h_timed _ _ _ Hh E) as [Hz|?]; [by rewrite Hz in E0|done]. }
    intros ? o1 w1 l1 (-> & Hg & Hb1 & Hs1 & Ha1 & Htm). ota_run. cbv [id].
    ota_step; ota_run.
    + ota_done. apply andb_true_iff in E0 as [Hd Hi]. apply event_hist; [|discriminate|].
      * destruct Hg. split; simpl; auto; congruence.
      * intros _. destruct Htm as [Hz|Htm]; [by rewrite Hz, deadline_ahead in Hd|].
        exists hist, now, health, idle, [], (rebootAt_ o1), (rebootFallbackAt_ o1).
        apply orb_true_iff in Hi. auto.
    + unfold loopConfirm. ota_run. cbv [id]. rewrite Ha1, orb_true_r. ota_run. by ota_done.
  - unfold loopConfirm. ota_run. cbv [id]. ota_step.
    { ota_run. ota_done. apply Hist_grow; [done|]. intros Ha.
      destruct (h_armed _ _ _ Hh Ha) as [Hp _].
      rewrite bool_decide_eq_true_2, Ha in E0 by done. discriminate. }
    apply orb_false_iff in E0 as [Hp Ha]. apply negb_false_iff, bool_decide_eq_true in Hp.
    apply negb_false_iff in Ha. destruct (h_armed _ _ _ Hh Ha) as [_ Harm].
    ota_step; [ota_run; eapply wp_post;
      [by apply (rollback_hist hist (OpLoop now health idle))|]; intros; ota_run; by ota_done|].
    apply negb_false_iff in E0 as ->. ota_step; [ota_run; ota_done; by apply Hist_grow|].
    apply Z.ltb_ge in E0. ota_run. set (op := OpLoop now true idle).
    assert (Hc : confirmedBy (hist ++ [op])).
    { exists hist, now, idle, [], (healthySince_ o). auto. }
    assert (Hg : Hist (hist ++ [op]) o (log ++ [EvMarkValid a]))
      by (apply event_hist; [by apply Hist_grow|auto|discriminate]).
    ota_step.
    + ota_run. unfold rollback. ota_run.
      set (o1 := set_confirmationArmed_ false _).
      assert (Hg1 : Hist (hist ++ [op]) o1 (log ++ [EvMarkValid a])).
      { destruct Hg. split; simpl; auto; congruence. }
      assert (Hex : forall er l, l = log ++ [EvMarkValid a] \/
          (exists ok, l = (log ++ [EvMarkValid a]) ++ [EvRollback ok]) ->
          Hist (hist ++ [op]) (set_error_ er o1) l).
      { intros er l Hl. destruct Hl as [->|[ok ->]];
          [|apply event_hist; [|discriminate..]]; destruct Hg1; by split. }
      ota_step; ota_run; ota_step; ota_run; ota_done; destruct o1; apply (Hex _ _); eauto.
    + ota_run. ota_done. destruct Hg. split; simpl; auto; congruence.
Qed.
End Steps.

Section Runs.
Context {W : Type} `{BP : BleOtaPlatform W} `{RF : !ReadsFill W}.

Lemma runOp_hist hist op o (w : W) log : Hist hist o log ->
  wp (runOp op) (post (fun _ o' log' => Hist (hist ++ [op]) o' log')) (o, (w, log)).
Proof using RF.
  intros Hh. destruct op; cbn [runOp]; ota_run.
  - eapply wp_post; [by apply begin_hist|]. intros. ota_run. ota_done. by apply Hist_grow.
  - eapply wp_post; [by apply request_hist|]. intros. ota_run. ota_done. by apply Hist_grow.
  - eapply wp_post; [by apply critical_hist|]. intros. ota_run. by ota_done.
  - by apply loop_hist.
Qed.

Lemma runOps_hist ops : forall hist o (w : W) log, Hist hist o log ->
  wp (runOps ops) (post (fun _ o' log' => Hist (hist ++ ops) o' log')) (o, (w, log)).
Proof using RF.
  induction ops as [|op ops IH]; intros hist o w log Hh; cbn [runOps]; ota_run.
  - ota_done. by rewrite app_nil_r.
  - eapply wp_post; [by apply runOp_hist|]. cbv beta. intros ? o1 w1 l1 H1.
    replace (hist ++ op :: ops) with ((hist ++ [op]) ++ ops) by (by rewrite <- app_assoc).
    by apply IH.
Qed.

Lemma runFrom_hist (w : W) ops : Hist ops (fst (runFrom w ops)) (trace w ops).
Proof using RF.
  unfold trace, runFrom. apply (runOps_hist ops [] ota0 w []).
  split; simpl; try discriminate; auto; intros; by apply not_elem_of_nil in H.
Qed.
End Runs.

(** C16: the running image is marked valid only inside a healthy iteration of the
    main loop, at least 30 seconds (modulo the 32-bit millisecond counter) after
    a successful end of critical initialization, with no failed health report
    between the two. *)
Theorem confirmation_after_health `{BP : BleOtaPlatform W} `{RF : !ReadsFill W} w ops ok :
  EvMarkValid ok ∈ trace w ops ->
  exists start t0 steadyOps now idle rest,
    ops = start ++ OpCritical true t0 :: steadyOps ++ OpLoop now true idle :: rest /\
    Forall steady steadyOps /\ kBleOtaHealthyConfirmationMs <= u32 (now - t0).
Proof.
  intros Hin. destruct (h_marks _ _ _ (runFrom_hist w ops) ok Hin)
    as (b & now & idle & rest & t0 & -> & (start & since & -> & Hs) & Ht).
  exists start, t0, since, now, idle, rest. by rewrite <- app_assoc.
Qed.

Lemma confirmation_after_health_witness :
  EvMarkValid true ∈ trace pendingBoard demoConfirm /\
  exists start t0 steadyOps now idle rest,
    demoConfirm = start ++ OpCritical true t0 :: steadyOps ++ OpLoop now true idle :: rest /\
    Forall steady steadyOps /\ kBleOtaHealthyConfirmationMs <= u32 (now - t0).
Proof.
  assert (Hin : EvMarkValid true ∈ trace pendingBoard demoConfirm).
  { apply (list_elem_of_lookup_2 _ 254%nat). vm_compute. reflexivity. }
  split; [exact Hin|]. exact (confirmation_after_health pendingBoard demoConfirm true Hin).
Defined.


