(* ===== verification/OtaJournal.v ===== *)
(** * The update journal

    The journal sector written by [writeJournalHeader] and [appendCheckpoint]
    is read back by [readJournal] as the last complete checkpoint, whatever
    interrupted records lie between and after the complete ones. *)

From S2P Require Import Prelude Crc Sha256 FlashLayout OtaCodec OtaManifest OtaPlatform Ota.
From S2P Require Import OtaCodecFacts OtaSemver OtaTrace OtaInvariant.

(** One 16-byte slot of the checkpoint area: a complete record, or the bytes an
    interrupted program operation left, which fail the record check. *)
Inductive JournalEntry :=
| Complete (st off : Z)
| Torn (bytes : list Z).

Definition entryOk (imageBytes : Z) (e : JournalEntry) : Prop :=
  match e with
  | Complete st off =>
      0 <= off <= imageBytes /\
      (st = kJournalReceiving /\ off mod kBleOtaCheckpointBytes = 0 \/
       st = kJournalReady /\ off = imageBytes \/ st = kJournalAborted)
  | Torn bytes => bytesOk bytes /\ recordValid imageBytes bytes = false /\
                  ~ Forall (fun b => b = 0xff) bytes
  end.

(** The slots holding [entries], sequence numbers counting the complete ones. *)
Fixpoint renderEntries (sequence : Z) (entries : list JournalEntry) : list (list Z) :=
  match entries with
  | [] => []
  | Complete st off :: rest =>
      encodeRecord (sequence + 1) st off :: renderEntries (sequence + 1) rest
  | Torn bytes :: rest => bytes :: renderEntries sequence rest
  end.

(** The last complete checkpoint: how many there are, its state and offset. *)
Definition lastComplete (entries : list JournalEntry) : Z * Z * Z :=
  fold_left (fun '(n, st, off) e =>
    match e with Complete st' off' => (n + 1, st', off') | Torn _ => (n, st, off) end)
    entries (0, 0, 0).

(** ** Records *)

Lemma record_body_ok sequence st off : isByte st ->
  bytesOk (magicRecord ++ put16 sequence ++ [st; 0] ++ put32 off).
Proof.
  intros Hs. unfold bytesOk. rewrite !Forall_app.
  split; [by apply allByte_literal|]. split; [apply put16_ok|]. split; [|apply put32_ok].
  constructor; [done|by apply allByte_literal].
Qed.

Lemma entry_state_byte n st off : entryOk n (Complete st off) -> isByte st.
Proof.
  intros [_ [[-> _]|[[-> _]| ->]]]; unfold isByte, kJournalReceiving, kJournalReady, kJournalAborted; lia.
Qed.

Lemma encodeRecord_valid n sequence st off :
  entryOk n (Complete st off) -> 0 <= n <= kBleOtaMaximumImageBytes -> 0 <= sequence <= UINT16_MAX ->
  recordValid n (encodeRecord sequence st off) = true /\
  get16 (drop 4 (encodeRecord sequence st off)) = sequence /\
  byte_at (encodeRecord sequence st off) 6 = st /\
  get32 (drop 8 (encodeRecord sequence st off)) = off.
Proof.
  intros He Hn Hs. pose proof (entry_state_byte _ _ _ He) as Hb.
  pose proof (crc32_range _ (record_body_ok sequence st off Hb)) as Hc.
  destruct He as [Ho Hst]. unfold kBleOtaMaximumImageBytes, kBleOtaAppPartitionBytes,
    kKitsuAppPartitionBytes, kBleOtaJournalBytes, UINT16_MAX in *.
  set (body := magicRecord ++ put16 sequence ++ [st; 0] ++ put32 off) in *.
  assert (E : encodeRecord sequence st off = body ++ put32 (crc32 body)) by reflexivity.
  remember (crc32 body) as c eqn:Ec. symmetry in Ec. rewrite !E.
  assert (E4 : get16 (drop 4 (body ++ put32 c)) = sequence)
    by (apply (get16_put16 sequence ([st; 0] ++ put32 off ++ put32 c)); lia).
  assert (E8 : get32 (drop 8 (body ++ put32 c)) = off)
    by (apply (get32_put32 off (put32 c)); lia).
  assert (E12 : get32 (drop 12 (body ++ put32 c)) = c)
    by (apply (get32_put32 c []); lia).
  assert (Eb : take 12 (body ++ put32 c) = body) by reflexivity.
  assert (E6 : byte_at (body ++ put32 c) 6 = st) by reflexivity.
  split; [|split; [exact E4|split; [exact E6|exact E8]]]. unfold recordValid. rewrite E6, E8, E12, Eb, Ec.
  change (slice 0 4 (body ++ put32 c)) with magicRecord.
  change (byte_at (body ++ put32 c) 7) with 0.
  rewrite beq_refl, !Z.eqb_refl, andb_true_r, !andb_true_l.
  rewrite (proj2 (Z.leb_le off n)) by lia.
  destruct Hst as [[-> Hm]|[[-> ->]| ->]]; simpl; try rewrite Z.eqb_refl; auto.
  by rewrite Hm, orb_true_r.
Qed.

Lemma not_erased l b rest : bytesOk l -> l = b :: rest -> b <> 0xff -> allBytes l 0xff = false.
Proof.
  intros Hl -> Hb. destruct (allBytes _ _) eqn:E; [|done].
  apply allBytes_spec in E; [|done|unfold isByte; lia]. by inversion E.
Qed.

Lemma encodeRecord_written sequence st off :
  isByte st -> allBytes (encodeRecord sequence st off) 0xff = false.
Proof.
  intros Hs. apply (not_erased _ 75 (drop 1 (encodeRecord sequence st off))); [|done|lia].
  unfold encodeRecord. apply Forall_app. split; [by apply record_body_ok|apply put32_ok].
Qed.

(** ** The scan *)

(** The scan state after [n] complete records and [k] occupied slots. *)
Definition scanAfter (k : nat) (last : Z * Z * Z) : Scan :=
  let '(n, st, off) := last in mkScan (bool_decide (0 < n)) st off n (Z.of_nat k).

Lemma lastComplete_snoc es e : lastComplete (es ++ [e]) =
  match e with
  | Complete st off => (fst (fst (lastComplete es)) + 1, st, off)
  | Torn _ => lastComplete es
  end.
Proof.
  unfold lastComplete. rewrite fold_left_app. simpl.
  destruct (fold_left _ es (0, 0, 0)) as [[n st] off]. by destruct e.
Qed.

Lemma lastComplete_count es : 0 <= fst (fst (lastComplete es)) <= Z.of_nat (length es).
Proof.
  induction es as [|e es IH] using rev_ind; [simpl; lia|].
  rewrite lastComplete_snoc, length_app. destruct e; simpl; lia.
Qed.

Lemma renderEntries_snoc es e : forall n, renderEntries n (es ++ [e]) =
  renderEntries n es ++
  [match e with
   | Complete st off => encodeRecord (n + fst (fst (lastComplete es)) + 1) st off
   | Torn b => b
   end].
Proof.
  assert (Hacc : forall es a st off,
    fst (fst (fold_left (fun '(n, st, off) e => match e with
      | Complete st' off' => (n + 1, st', off') | Torn _ => (n, st, off) end) es (a, st, off)))
    = a + fst (fst (lastComplete es))).
  { clear. unfold lastComplete. induction es as [|[st' off'|b] es IH]; intros a st off; simpl; [lia| |].
    - rewrite IH, (IH 1). lia.
    - apply IH. }
  induction es as [|[st off|b] es IH]; intros n; simpl.
  - destruct e; simpl; do 2 f_equal; lia.
  - rewrite IH. unfold lastComplete at 2. simpl. rewrite Hacc.
    do 2 f_equal. destruct e; [|done]. do 2 f_equal. lia.
  - rewrite IH. unfold lastComplete at 2. simpl. by rewrite Hacc.
Qed.

Lemma renderEntries_length es : forall n, length (renderEntries n es) = length es.
Proof. induction es as [|[] es IH]; intros n; simpl; auto. Qed.

Lemma scan_entries n es :
  0 <= n <= kBleOtaMaximumImageBytes -> (length es <= kJournalCheckpointCapacity)%nat ->
  Forall (entryOk n) es ->
  scanAll n (renderEntries 0 es) = scanAfter (length es) (lastComplete es).
Proof.
  intros Hn Hl Hes. unfold kJournalCheckpointCapacity in Hl. simpl in Hl.
  induction es as [|e es IH] using rev_ind; [done|].
  rewrite length_app in *. simpl in Hl. apply Forall_app in Hes as [Hes He].
  apply Forall_cons_1 in He as [He _].
  rewrite renderEntries_snoc, scanAll_snoc, IH, renderEntries_length, lastComplete_snoc by (auto; lia).
  pose proof (lastComplete_count es) as Hc.
  destruct (lastComplete es) as [[c st0] off0] eqn:El. simpl in Hc. simpl fst.
  unfold scanRecord. rewrite u16_id by lia.
  replace (Z.of_nat (length es) + 1) with (Z.of_nat (length es + length [e])) by (simpl; lia).
  destruct e as [st off|b].
  - rewrite encodeRecord_written by (eapply entry_state_byte; exact He).
    destruct (encodeRecord_valid n (0 + c + 1) st off) as (-> & E4 & E6 & E8);
      [done|lia|unfold UINT16_MAX; lia|].
    rewrite E4, E6, E8. simpl.
    rewrite (proj2 (Z.eqb_neq (0 + c + 1) 0)) by lia.
    rewrite (proj2 (Z.leb_gt (0 + c + 1) c)) by lia. rewrite andb_false_r. simpl.
    rewrite bool_decide_eq_true_2 by lia. f_equal; lia.
  - destruct He as (Hb & Hv & Hff). rewrite Hv. simpl.
    destruct (allBytes b 255) eqn:Ea; [|done].
    apply allBytes_spec in Ea; [done|done|unfold isByte; lia].
Qed.

(** Erased slots leave the scan alone. *)
Lemma scan_erased n rs k : scanAll n (rs ++ replicate k (replicate 16 0xff)) = scanAll n rs.
Proof.
  induction k as [|k IH]; [by rewrite app_nil_r|].
  rewrite replicate_S_end, app_assoc, scanAll_snoc. unfold scanRecord. simpl. exact IH.
Qed.

(** ** The header *)

Lemma spanChar_nonzero s : Forall spanChar s -> Forall (fun b => b <> 0) s.
Proof. intros H. eapply Forall_impl; [exact H|]. unfold spanChar. lia. Qed.

Section Header.
Context (subtype : Z) (m : ParsedManifest) (uid : list Z).
Context (Hsub : isByte subtype) (Hm : manifestOk m).
Context (Hid : length uid = kBleOtaDigestBytes) (Hidok : bytesOk uid).

Let version := firmwareVersion m.
Let sha := manifestImageSha256 m.
Let padding := replicate (44 - length version) 0.

Lemma version_length : (length version <= 32)%nat.
Proof using Hm. destruct Hm as (_ & Hv & _). by apply validSemver_length. Qed.
Lemma sha_length : length sha = 32%nat.
Proof using Hm. by destruct Hm as (_ & _ & _ & _ & H). Qed.
Lemma padding_length : length padding = (44 - length version)%nat.
Proof using. apply length_replicate. Qed.

(** The header in the order of its fields, for any checksum [c]. *)
Definition headerWith (c : Z) : list Z :=
  magicHeader ++ [kJournalVersion; subtype; 0; 0] ++ put32 (manifestImageBytes m) ++
  put32 kBleOtaChunkBytes ++ uid ++ sha ++ version ++ padding ++ put32 c.

Lemma encodeHeader_fields :
  encodeHeader subtype m uid = headerWith (crc32 (encodeHeaderBody subtype m uid)).
Proof using. unfold encodeHeader, encodeHeaderBody, headerWith. by rewrite <- !app_assoc. Qed.

Lemma body_length : length (encodeHeaderBody subtype m uid) = 124%nat.
Proof using Hm Hid.
  pose proof version_length. pose proof sha_length. pose proof padding_length.
  unfold encodeHeaderBody, kBleOtaDigestBytes in *. fold version sha padding.
  rewrite !length_app, Hid. simpl. lia.
Qed.

Lemma body_ok : bytesOk (encodeHeaderBody subtype m uid).
Proof using Hm Hsub Hid Hidok.
  destruct Hm as (_ & Hv & _ & Hs & _). apply validSemver_chars in Hv.
  unfold encodeHeaderBody, bytesOk. rewrite !Forall_app.
  split; [by apply allByte_literal|]. split.
  { constructor; [unfold isByte, kJournalVersion; lia|]. constructor; [done|].
    by apply allByte_literal. }
  do 2 (split; [apply put32_ok|]). do 2 (split; [done|]). split.
  - eapply Forall_impl; [exact Hv|]. unfold spanChar, isByte. lia.
  - apply Forall_replicate. unfold isByte. lia.
Qed.

(** Each field at its offset. *)
Lemma header_fields c : let h := headerWith c in
  slice 0 4 h = magicHeader /\ byte_at h 4 = kJournalVersion /\ byte_at h 5 = subtype /\
  byte_at h 6 = 0 /\ byte_at h 7 = 0 /\
  drop 8 h = put32 (manifestImageBytes m) ++ drop 12 h /\
  drop 12 h = put32 kBleOtaChunkBytes ++ drop 16 h /\
  slice 16 32 h = uid /\ slice 48 32 h = sha /\ cstr (slice 80 33 h) = version /\
  byte_at h 112 = 0 /\ drop 124 h = put32 c.
Proof using Hm Hid.
  pose proof version_length as Lv. pose proof sha_length as Ls. pose proof padding_length as Lp.
  unfold kBleOtaDigestBytes in Hid. cbv zeta. do 5 (split; [reflexivity|]).
  do 2 (split; [reflexivity|]).
  assert (E16 : forall off n, slice (16 + off) n (headerWith c) =
            slice off n (uid ++ sha ++ version ++ padding ++ put32 c)) by reflexivity.
  change (slice 16 32) with (slice (16 + 0) 32). change (slice 48 32) with (slice (16 + 32) 32).
  change (slice 80 33) with (slice (16 + 64) 33). rewrite !E16.
  split; [by rewrite slice_here|].
  split; [rewrite slice_skip by lia; by rewrite Hid, slice_here|].
  assert (E64 : forall n, slice 64 n (uid ++ sha ++ version ++ padding ++ put32 c) =
            slice 0 n (version ++ padding ++ put32 c)).
  { intros n. rewrite slice_skip by lia. rewrite slice_skip by lia. by rewrite Hid, Ls. }
  rewrite E64. split; [|split].
  - unfold slice. rewrite drop_0. rewrite take_app_ge by lia.
    destruct (33 - length version)%nat as [|k] eqn:Ek; [lia|].
    assert (Ep : padding = 0 :: replicate (43 - length version) 0).
    { unfold padding. by replace (44 - length version)%nat with (Datatypes.S (43 - length version)) by lia. }
    rewrite Ep.
    simpl. apply cstr_app_nul, spanChar_nonzero.
    destruct Hm as (_ & Hv & _). by apply validSemver_chars.
  - change (byte_at (headerWith c) 112)
      with (byte_at (uid ++ sha ++ version ++ padding ++ put32 c) 96).
    rewrite byte_at_app_r by lia. rewrite byte_at_app_r by lia. rewrite byte_at_app_r by lia.
    rewrite byte_at_app_l by lia. unfold byte_at, padding.
    rewrite lookup_replicate_2 by (unfold padding in Lp; lia). done.
  - change (drop 124 (headerWith c)) with (drop 108 (uid ++ sha ++ version ++ padding ++ put32 c)).
    rewrite !drop_app_ge by lia. rewrite Hid, Ls, Lp.
    replace (108 - 32 - 32 - length version - (44 - length version))%nat with 0%nat by lia.
    apply drop_0.
Qed.

(** The reader accepts the header the writer produced. *)
Lemma decodeHeader_encode :
  decodeHeader subtype (encodeHeader subtype m uid) = inr (manifestImageBytes m).
Proof using Hsub Hm Hid Hidok.
  pose proof body_ok as Hb. pose proof (crc32_range _ Hb) as Hc.
  pose proof (manifestOk_bytes _ Hm) as Hmb. unfold UINT32_MAX in Hmb.
  assert (Et : take 124 (encodeHeader subtype m uid) = encodeHeaderBody subtype m uid).
  { unfold encodeHeader. rewrite take_app_le by (rewrite body_length; lia).
    apply firstn_all2. by rewrite body_length. }
  unfold decodeHeader. rewrite Et. rewrite (not_erased _ 75 (drop 1 (encodeHeader subtype m uid)));
    [|unfold encodeHeader; apply Forall_app; split; [exact Hb|apply put32_ok]|reflexivity|lia].
  rewrite encodeHeader_fields. set (c := crc32 _) in *.
  destruct (header_fields c) as (-> & -> & -> & -> & -> & E8 & E12 & _ & _ & -> & -> & E124).
  rewrite E8, E12, E124. rewrite !get32_put32 by (unfold kBleOtaChunkBytes; lia).
  rewrite <- (app_nil_r (put32 c)), get32_put32 by lia.
  rewrite beq_refl, !Z.eqb_refl. cbn [negb orb].
  destruct Hm as (_ & Hv & [Hlo Hhi] & _). unfold version. rewrite Hv.
  rewrite (proj2 (Z.eqb_neq _ 0)) by lia. rewrite (proj2 (Z.ltb_ge _ _)) by lia. reflexivity.
Qed.

(** The journal a slot presents after the complete and torn records [es]. *)
Lemma journalView_entries es k :
  (length es <= kJournalCheckpointCapacity)%nat ->
  Forall (entryOk (manifestImageBytes m)) es ->
  journalView subtype (encodeHeader subtype m uid)
    (renderEntries 0 es ++ replicate k (replicate 16 0xff)) =
  let '(n, st, off) := lastComplete es in
  mkView (bool_decide (0 < n)) st off n (Z.of_nat (length es)) uid sha
    (manifestImageBytes m) version.
Proof using Hsub Hm Hid Hidok.
  intros Hl Hes. unfold journalView. rewrite decodeHeader_encode, scan_erased.
  assert (Hr : 0 <= manifestImageBytes m <= kBleOtaMaximumImageBytes)
    by (destruct Hm as (_ & _ & ? & _); lia).
  rewrite scan_entries by done. rewrite encodeHeader_fields.
  destruct (header_fields (crc32 (encodeHeaderBody subtype m uid)))
    as (_ & _ & _ & _ & _ & _ & _ & -> & -> & -> & _).
  by destruct (lastComplete es) as [[n st] off].
Qed.
End Header.


