(* ===== verification/Permissions.v ===== *)
(** * Controller permissions (src/src/kitsu_controller_permissions.h, .cpp)

    The single authorization decision of the firmware: which role may call which
    authenticated operation or apply which action, and the encoding of the role
    in the controller records.  A C++ enumeration received from storage or a
    cast is its byte; [None] is a null pointer. *)

From S2P Require Import Prelude.

(** [enum class ControllerRole : uint8_t]. *)
Definition ControllerRole : Type := Z.
Definition Owner : ControllerRole := 0.
Definition Caretaker : ControllerRole := 1.

Definition kControllerRolePaddingBytes : nat := 3.

Inductive ControllerRoleCodecResult := CodecOk | CodecInvalidArgument | CodecUnsupportedEncoding.

(** [enum class BleActionKind : uint8_t] (kitsu_ble_action.h). *)
Definition BleActionKind : Type := Z.
Definition Pet : BleActionKind := 1.
Definition Feed : BleActionKind := 2.
Definition Play : BleActionKind := 3.
Definition ListenOnce : BleActionKind := 4.
Definition AdvertiseOnce : BleActionKind := 5.
Definition SendMessage : BleActionKind := 6.

(** [enum class ControllerCapabilityKind] and [struct ControllerCapability]. *)
Definition KindOperation : Z := 0.
Definition KindBleAction : Z := 1.

Record ControllerCapability := mkCapability {
  cap_kind : Z;
  cap_operation : option string;
  cap_action : BleActionKind;
}.

Definition controllerOperation (operation : option string) : ControllerCapability :=
  mkCapability KindOperation operation Pet.

Definition controllerBleAction (action : BleActionKind) : ControllerCapability :=
  mkCapability KindBleAction None action.

Inductive ControllerPermission := Allowed | ActionRequired | Denied | UnknownCapability
  | InvalidRole | InvalidArgument.

#[export] Instance ControllerPermission_eq_dec : EqDecision ControllerPermission.
Proof. solve_decision. Defined.
#[export] Instance ControllerRoleCodecResult_eq_dec : EqDecision ControllerRoleCodecResult.
Proof. solve_decision. Defined.

(** ** Policy tables *)

Definition kOwnerMask : Z := Z.shiftl 1 0.
Definition kCaretakerMask : Z := Z.shiftl 1 1.
Definition kBothRoles : Z := Z.lor kOwnerMask kCaretakerMask.

Record OperationPolicy := mkOp {
  pol_operation : string;
  pol_roles : Z;
  pol_requiresAction : bool;
}.

Definition kOperationPolicies : list OperationPolicy := [
  mkOp "state.get" kBothRoles false;
  mkOp "history.get" kBothRoles false;
  mkOp "peers.get" kOwnerMask false;
  mkOp "messages.get" kOwnerMask false;
  mkOp "messages.get.v2" kOwnerMask false;
  mkOp "messages.get.v3" kOwnerMask false;
  mkOp "messages.get.v4" kOwnerMask false;
  mkOp "messages.mark_read" kOwnerMask false;
  mkOp "encounter.codes.get.v1" kOwnerMask false;
  mkOp "encounter.neighbors.get.v1" kOwnerMask false;
  mkOp "encounter.neighbor.action.v1" kOwnerMask false;
  mkOp "encounter.catalog.get.v1" kOwnerMask false;
  mkOp "encounter.discovery.get.v1" kOwnerMask false;
  mkOp "companion.profile.get.v1" kBothRoles false;
  mkOp "companion.profile.nickname.set.v1" kOwnerMask false;
  mkOp "companion.request.answer.v1" kOwnerMask false;
  mkOp "companion.question.answer.v1" kOwnerMask false;
  mkOp "companion.presentation.open.v1" kBothRoles false;
  mkOp "companion.presentation.read.v1" kBothRoles false;
  mkOp "companion.presentation.close.v1" kBothRoles false;
  mkOp "focus.state.get.v1" kBothRoles false;
  mkOp "focus.start.v1" kBothRoles false;
  mkOp "focus.stop.v1" kBothRoles false;
  mkOp "focus.cancel.v1" kBothRoles false;
  mkOp "focus.ack.v1" kBothRoles false;
  mkOp "adventure.state.get.v1" kBothRoles false;
  mkOp "adventure.walk.start.v1" kBothRoles false;
  mkOp "adventure.walk.sync.v1" kBothRoles false;
  mkOp "adventure.walk.location.v1" kBothRoles false;
  mkOp "adventure.walk.decide.v1" kBothRoles false;
  mkOp "adventure.walk.finish.v1" kBothRoles false;
  mkOp "adventure.walk.ack.v1" kBothRoles false;
  mkOp "adventure.privacy.set.v1" kOwnerMask false;
  mkOp "adventure.home.set.v1" kOwnerMask false;
  mkOp "fun.state.get.v1" kOwnerMask false;
  mkOp "fun.expedition.start.v1" kOwnerMask false;
  mkOp "fun.expedition.claim.v1" kOwnerMask false;
  mkOp "fun.story.start.v1" kOwnerMask false;
  mkOp "fun.story.advance.v1" kOwnerMask false;
  mkOp "fun.story.choose.v1" kOwnerMask false;
  mkOp "fun.party.scan.v1" kOwnerMask false;
  mkOp "fun.party.host.v1" kOwnerMask false;
  mkOp "fun.party.join.v1" kOwnerMask false;
  mkOp "fun.party.begin.v1" kOwnerMask false;
  mkOp "fun.party.choose.v1" kOwnerMask false;
  mkOp "fun.party.leave.v1" kOwnerMask false;
  mkOp "channels.get" kOwnerMask false;
  mkOp "channels.get.v2" kOwnerMask false;
  mkOp "chat.storage.get" kOwnerMask false;
  mkOp "clock.sync" kOwnerMask false;
  mkOp "mesh.configure" kOwnerMask false;
  mkOp "action.apply" kBothRoles true;
  mkOp "controller.forget" kOwnerMask false;
  mkOp "firmware.update.status" kOwnerMask false;
  mkOp "firmware.update.begin" kOwnerMask false;
  mkOp "firmware.update.write" kOwnerMask false;
  mkOp "firmware.update.finish" kOwnerMask false;
  mkOp "firmware.update.reboot" kOwnerMask false;
  mkOp "firmware.update.abort" kOwnerMask false
].

Definition kActionPolicies : list (BleActionKind * Z) :=
  [(Pet, kBothRoles); (Feed, kBothRoles); (Play, kBothRoles); (ListenOnce, kOwnerMask);
   (AdvertiseOnce, kOwnerMask); (SendMessage, kOwnerMask)].

Definition roleMask (role : ControllerRole) : option Z :=
  if role =? Owner then Some kOwnerMask
  else if role =? Caretaker then Some kCaretakerMask
  else None.

(** ** Role padding *)

(** The result and [output], which is [0xFF] unless the result is [CodecOk]. *)
Definition decodeControllerRolePadding (padding : option (list Z))
  : ControllerRoleCodecResult * ControllerRole :=
  match padding with
  | None => (CodecInvalidArgument, 0xff)
  | Some p =>
      if negb (length p =? kControllerRolePaddingBytes)%nat then (CodecInvalidArgument, 0xff)
      else if negb (byte_at p 1 =? 0) || negb (byte_at p 2 =? 0)
      then (CodecUnsupportedEncoding, 0xff)
      else if byte_at p 0 =? Owner then (CodecOk, Owner)
      else if byte_at p 0 =? Caretaker then (CodecOk, Caretaker)
      else (CodecUnsupportedEncoding, 0xff)
  end.

(** The buffer after the call; [paddingBytes] is its length. *)
Definition encodeControllerRolePadding (role : ControllerRole) (padding : option (list Z))
  : ControllerRoleCodecResult * option (list Z) :=
  match padding with
  | None => (CodecInvalidArgument, None)
  | Some p =>
      if negb (length p =? kControllerRolePaddingBytes)%nat then (CodecInvalidArgument, Some p)
      else if negb (role =? Owner) && negb (role =? Caretaker)
      then (CodecUnsupportedEncoding, Some (replicate (length p) 0xff))
      else (CodecOk, Some (<[0%nat := role]> (replicate (length p) 0)))
  end.

Definition controllerRoleName (role : ControllerRole) : string :=
  if role =? Owner then "owner" else if role =? Caretaker then "caretaker" else "unknown".

Definition controllerRoleCodecResultName (r : ControllerRoleCodecResult) : string :=
  match r with
  | CodecOk => "ok"
  | CodecInvalidArgument => "invalid_argument"
  | CodecUnsupportedEncoding => "unsupported_encoding"
  end.

(** ** The decision *)

(** The search of the operation table. *)
Fixpoint operationPermission (policies : list OperationPolicy) (mask : Z) (operation : string)
  : ControllerPermission :=
  match policies with
  | [] => UnknownCapability
  | policy :: rest =>
      if negb (String.eqb operation (pol_operation policy))
      then operationPermission rest mask operation
      else if Z.land (pol_roles policy) mask =? 0 then Denied
      else if pol_requiresAction policy then ActionRequired else Allowed
  end.

(** The search of the action table. *)
Fixpoint actionPermission (policies : list (BleActionKind * Z)) (mask : Z) (action : BleActionKind)
  : ControllerPermission :=
  match policies with
  | [] => UnknownCapability
  | (a, roles) :: rest =>
      if negb (action =? a) then actionPermission rest mask action
      else if negb (Z.land roles mask =? 0) then Allowed else Denied
  end.

Definition controllerPermission (role : ControllerRole) (c : ControllerCapability)
  : ControllerPermission :=
  match roleMask role with
  | None => InvalidRole
  | Some mask =>
      if cap_kind c =? KindOperation then
        match cap_operation c with
        | None => InvalidArgument
        | Some operation =>
            if String.eqb operation EmptyString then InvalidArgument
            else operationPermission kOperationPolicies mask operation
        end
      else if cap_kind c =? KindBleAction then
        actionPermission kActionPolicies mask (cap_action c)
      else InvalidArgument
  end.

Definition controllerAllowed (role : ControllerRole) (c : ControllerCapability) : bool :=
  bool_decide (controllerPermission role c = Allowed).

Definition controllerOperationPolicyCount : nat := length kOperationPolicies.

Definition controllerPermissionName (p : ControllerPermission) : string :=
  match p with
  | Allowed => "allowed"
  | ActionRequired => "action_required"
  | Denied => "denied"
  | UnknownCapability => "unknown_capability"
  | InvalidRole => "invalid_role"
  | InvalidArgument => "invalid_argument"
  end.

(** ** Lemmas *)

Definition granted (p : ControllerPermission) : bool :=
  match p with Allowed | ActionRequired => true | _ => false end.

(** Every entry open to the caretaker is open to the owner. *)
Lemma table_inclusion :
  forallb (fun p => implb (negb (Z.land (pol_roles p) kCaretakerMask =? 0))
                          (negb (Z.land (pol_roles p) kOwnerMask =? 0))) kOperationPolicies = true /\
  forallb (fun '(_, r) => implb (negb (Z.land r kCaretakerMask =? 0))
                          (negb (Z.land r kOwnerMask =? 0))) kActionPolicies = true.
Proof. split; reflexivity. Qed.

Lemma operationPermission_mono policies op :
  forallb (fun p => implb (negb (Z.land (pol_roles p) kCaretakerMask =? 0))
                          (negb (Z.land (pol_roles p) kOwnerMask =? 0))) policies = true ->
  granted (operationPermission policies kCaretakerMask op) = true ->
  operationPermission policies kOwnerMask op = operationPermission policies kCaretakerMask op.
Proof.
  induction policies as [|p ps IH]; cbn [forallb operationPermission]; [done|].
  rewrite andb_true_iff. intros [Hp Hps]. destruct (String.eqb op (pol_operation p)); simpl; auto.
  destruct (Z.land (pol_roles p) kCaretakerMask =? 0); [discriminate|].
  simpl in Hp. apply negb_true_iff in Hp as ->. by destruct (pol_requiresAction p).
Qed.

Lemma actionPermission_mono policies a :
  forallb (fun '(_, r) => implb (negb (Z.land r kCaretakerMask =? 0))
                          (negb (Z.land r kOwnerMask =? 0))) policies = true ->
  granted (actionPermission policies kCaretakerMask a) = true ->
  actionPermission policies kOwnerMask a = actionPermission policies kCaretakerMask a.
Proof.
  induction policies as [|[b r] ps IH]; cbn [forallb actionPermission]; [done|].
  rewrite andb_true_iff. intros [Hp Hps]. destruct (a =? b); simpl; auto.
  destruct (Z.land r kCaretakerMask =? 0); [discriminate|].
  simpl in Hp. by apply negb_true_iff in Hp as ->.
Qed.

(** A decision other than unknown names an entry of the table. *)
Lemma operationPermission_found policies mask op :
  operationPermission policies mask op <> UnknownCapability ->
  exists p, p ∈ policies /\ pol_operation p = op /\
    operationPermission policies mask op =
      (if Z.land (pol_roles p) mask =? 0 then Denied
       else if pol_requiresAction p then ActionRequired else Allowed).
Proof.
  induction policies as [|p ps IH]; simpl; [done|].
  destruct (String.eqb_spec op (pol_operation p)) as [->|Hne]; simpl; intros H.
  - exists p. split; [constructor|done].
  - destruct (IH H) as (q & Hq & E). exists q. split; [by constructor|done].
Qed.

#[local] Arguments operationPermission : simpl never.
#[local] Arguments actionPermission : simpl never.

(** The operations a caretaker may call. *)
Definition caretakerOperations : list string := [
  "state.get"; "history.get"; "companion.profile.get.v1"; "companion.presentation.open.v1";
  "companion.presentation.read.v1"; "companion.presentation.close.v1"; "focus.state.get.v1";
  "focus.start.v1"; "focus.stop.v1"; "focus.cancel.v1"; "focus.ack.v1"; "adventure.state.get.v1";
  "adventure.walk.start.v1"; "adventure.walk.sync.v1"; "adventure.walk.location.v1";
  "adventure.walk.decide.v1"; "adventure.walk.finish.v1"; "adventure.walk.ack.v1"; "action.apply"].

(** A table search that is granted for every name of a list. *)
Lemma granted_all mask names op :
  forallb (fun n => granted (operationPermission kOperationPolicies mask n)) names = true ->
  op ∈ names -> granted (operationPermission kOperationPolicies mask op) = true.
Proof.
  rewrite forallb_forall. intros H Hin. apply H. by apply list_elem_of_In.
Qed.

Lemma granted_owner op :
  granted (operationPermission kOperationPolicies kOwnerMask op) = true <->
  op ∈ map pol_operation kOperationPolicies.
Proof.
  split.
  - intros H. destruct (operationPermission_found kOperationPolicies kOwnerMask op) as (p & Hp & <- & _).
    { intros E. by rewrite E in H. }
    by apply list_elem_of_fmap_2.
  - apply granted_all. reflexivity.
Qed.

Lemma granted_caretaker op :
  granted (operationPermission kOperationPolicies kCaretakerMask op) = true <->
  op ∈ caretakerOperations.
Proof.
  split.
  - intros H. destruct (operationPermission_found kOperationPolicies kCaretakerMask op)
      as (p & Hp & <- & E).
    { intros E. by rewrite E in H. }
    rewrite E in H. assert (Hall : forallb (fun p => implb
      (negb (Z.land (pol_roles p) kCaretakerMask =? 0))
      (bool_decide (pol_operation p ∈ caretakerOperations))) kOperationPolicies = true) by reflexivity.
    rewrite forallb_forall in Hall. specialize (Hall p (proj1 (list_elem_of_In _ _) Hp)).
    destruct (Z.land (pol_roles p) kCaretakerMask =? 0); [discriminate|].
    by apply bool_decide_eq_true in Hall.
  - apply granted_all. reflexivity.
Qed.

Lemma not_empty_name op : op ∈ map pol_operation kOperationPolicies -> String.eqb op EmptyString = false.
Proof.
  intros H. apply String.eqb_neq. intros ->. revert H.
  apply (bool_decide_eq_false (EmptyString ∈ map pol_operation kOperationPolicies)). reflexivity.
Qed.

Lemma caretaker_in_table op : op ∈ caretakerOperations -> op ∈ map pol_operation kOperationPolicies.
Proof.
  intros H. apply granted_owner. apply granted_caretaker in H.
  rewrite operationPermission_mono by (apply table_inclusion || done). done.
Qed.

(** The authorization decision is a closed registry.  An operation is granted
    exactly to the owner for the names of the policy table and to the caretaker
    for the nineteen names listed; no other role byte, name or null pointer is
    granted anything. *)
Theorem operation_registry_closed role operation :
  granted (controllerPermission role (controllerOperation operation)) = true <->
  exists op, operation = Some op /\
    (role = Owner /\ op ∈ map pol_operation kOperationPolicies \/
     role = Caretaker /\ op ∈ caretakerOperations).
Proof.
  unfold controllerPermission, roleMask. split.
  - destruct (Z.eqb_spec role Owner) as [->|Ho].
    + destruct operation as [op|]; simpl; [|discriminate].
      destruct (String.eqb op EmptyString); [discriminate|]. intros H%granted_owner. eauto.
    + destruct (Z.eqb_spec role Caretaker) as [->|Hc]; [|discriminate].
      destruct operation as [op|]; simpl; [|discriminate].
      destruct (String.eqb op EmptyString); [discriminate|]. intros H%granted_caretaker. eauto.
  - intros (op & -> & [[-> H]|[-> H]]); simpl.
    + rewrite not_empty_name by done. by apply granted_owner.
    + rewrite not_empty_name by (by apply caretaker_in_table). by apply granted_caretaker.
Qed.

(** A caretaker is never granted what the owner is not: for any capability,
    of either kind, the owner gets the same answer whenever the caretaker's is
    positive, and firmware update operations are denied to the caretaker. *)
Theorem caretaker_below_owner c :
  (granted (controllerPermission Caretaker c) = true ->
   controllerPermission Owner c = controllerPermission Caretaker c) /\
  (forall op, String.prefix "firmware." op = true ->
     granted (controllerPermission Caretaker (controllerOperation (Some op))) = false).
Proof.
  unfold controllerPermission. simpl. split.
  - destruct (cap_kind c =? KindOperation).
    + destruct (cap_operation c) as [op|]; [|done]. destruct (String.eqb op EmptyString); [done|].
      apply operationPermission_mono, table_inclusion.
    + destruct (cap_kind c =? KindBleAction); [|done]. apply actionPermission_mono, table_inclusion.
  - intros op Hp. destruct (String.eqb op EmptyString); [done|].
    destruct (granted _) eqn:E; [|done]. apply granted_caretaker in E.
    assert (Hn : forallb (fun n => negb (String.prefix "firmware." n)) caretakerOperations = true)
      by reflexivity.
    rewrite forallb_forall in Hn. specialize (Hn op (proj1 (list_elem_of_In _ _) E)).
    by rewrite Hp in Hn.
Qed.

(** The role padding codec is exact: decoding accepts precisely the two
    three-byte encodings the encoder produces (all-zero legacy padding is the
    owner) and every other buffer decodes to the invalid role 0xFF, which the
    decision rejects. *)
Theorem role_padding_exact padding :
  (forall role, decodeControllerRolePadding padding = (CodecOk, role) <->
     (role = Owner \/ role = Caretaker) /\ padding = Some [role; 0; 0] /\
     encodeControllerRolePadding role padding = (CodecOk, padding)) /\
  (fst (decodeControllerRolePadding padding) <> CodecOk ->
     forall c, controllerPermission (snd (decodeControllerRolePadding padding)) c = InvalidRole).
Proof.
  split.
  - intros role. split.
    + destruct padding as [[|a [|b [|c [|]]]]|]; try discriminate.
      unfold decodeControllerRolePadding. simpl. unfold byte_at. simpl.
      destruct (Z.eqb_spec b 0) as [->|]; [|discriminate].
      destruct (Z.eqb_spec c 0) as [->|]; [|discriminate]. simpl.
      destruct (Z.eqb_spec a Owner) as [->|]; [intros [= <-]; auto|].
      destruct (Z.eqb_spec a Caretaker) as [->|]; [intros [= <-]; auto|discriminate].
    + by intros [[-> | ->] [-> _]].
  - unfold decodeControllerRolePadding. repeat case_match; simpl; try done; intros; reflexivity.
Qed.
