(* ===== verification/DeviceSecurity.v ===== *)
(** * The device root and controller table (src/src/kitsu_device_security.h, .cpp)

    [KitsuDeviceSecurity] keeps the device identity and the roots of at most four
    controllers in one sealed record, stored alternately in two slots.  Its
    private members are the record [Sec]; every member function is a computation
    over [Sec] and the world behind the storage and cryptography interfaces.
    The scratch buffers are the values they hold while in use; a null pointer is
    [None]. *)

From S2P Require Import Prelude Permissions.

Open Scope kitsu_scope.

Definition kKitsuSecretBytes : nat := 32.
Definition kKitsuDeviceIdBytes : nat := 16.
Definition kKitsuControllerIdBytes : nat := 16.
Definition kSecurityNonceBytes : nat := 12.
Definition kSecurityTagBytes : nat := 16.
Definition kKitsuControllerCapacity : nat := 4.
Definition kSecurityBlobCapacity : nat := 384.
Definition kSecuritySlots : nat := 2.

Inductive SecurityResult := SecOk | OkReflashable | NotBegun | SecInvalidArgument
  | SecurityModeUnavailable | WrappingRootUnavailable | StorageReadFailed | StorageWriteFailed
  | ReadbackFailed | CorruptStorage | CryptoFailed | AuthorizationRequired
  | ControllerNotProvisioned | ControllerTableFull.

#[export] Instance SecurityResult_eq_dec : EqDecision SecurityResult.
Proof. solve_decision. Defined.

(** [DeviceSecurityStorage] and [DeviceSecurityPlatform]; outputs are [None] when
    the call returns false. *)
Class SecurityPlatform (W : Type) := {
  readSlot : Z -> nat -> M W (option (list Z));
  writeSlot : Z -> list Z -> M W bool;
  clearSlot : Z -> M W bool;
  securityMode : W -> Z;
  deriveWrappingKey : list Z -> M W (option (list Z));
  randomBytes : nat -> M W (option (list Z));
  seal : list Z -> Z -> list Z -> list Z -> M W (option (list Z * list Z));
  open : list Z -> Z -> list Z -> list Z -> list Z -> M W (option (list Z));
  hkdfSha256 : list Z -> list Z -> list Z -> nat -> M W (option (list Z));
}.

(** ** Data *)

Record Controller := mkController {
  c_valid : bool;
  c_role : ControllerRole;
  c_id : list Z;
  c_root : list Z;
}.

Definition noController : Controller :=
  mkController false Owner (replicate kKitsuControllerIdBytes 0) (replicate kKitsuSecretBytes 0).

Record Material := mkMaterial {
  deviceId : list Z;
  deviceSecret : list Z;
  controllers : list Controller;
  controllerRetirementPending : bool;
}.

Definition noMaterial : Material :=
  mkMaterial (replicate kKitsuDeviceIdBytes 0) (replicate kKitsuSecretBytes 0)
    (replicate kKitsuControllerCapacity noController) false.

Record DeviceSecurityStatus := mkStatus {
  lastResult : SecurityResult;
  st_mode : Z;
  begun : bool;
  applicationEncrypted : bool;
  hardwareRootProtected : bool;
  controllerCount : Z;
  activeSlot : Z;
  generation : Z;
}.

Definition SecurityModeReflashable : Z := 0.
Definition kApplicationRecordsEncrypted : bool := true.
Definition kHardwareRootProtected : bool := false.

Definition status0 : DeviceSecurityStatus :=
  mkStatus NotBegun SecurityModeReflashable false true false 0 (-1) 0.

(** The members; [bound] says the storage and platform pointers are set. *)
Record Sec := mkSec {
  bound : bool;
  material_ : Material;
  status_ : DeviceSecurityStatus;
  hardwareId_ : list Z;
  wrappingKey_ : list Z;
}.

Definition sec0 : Sec :=
  mkSec false noMaterial status0 (replicate 8 0) (replicate kKitsuSecretBytes 0).

(** Member assignment. *)
Definition set_bound (v : bool) (s : Sec) : Sec :=
  mkSec v (material_ s) (status_ s) (hardwareId_ s) (wrappingKey_ s).
Definition set_material (v : Material) (s : Sec) : Sec :=
  mkSec (bound s) v (status_ s) (hardwareId_ s) (wrappingKey_ s).
Definition set_status (v : DeviceSecurityStatus) (s : Sec) : Sec :=
  mkSec (bound s) (material_ s) v (hardwareId_ s) (wrappingKey_ s).
Definition set_hardwareId (v : list Z) (s : Sec) : Sec :=
  mkSec (bound s) (material_ s) (status_ s) v (wrappingKey_ s).
Definition set_wrappingKey (v : list Z) (s : Sec) : Sec :=
  mkSec (bound s) (material_ s) (status_ s) (hardwareId_ s) v.

Definition with_controllers (v : list Controller) (m : Material) : Material :=
  mkMaterial (deviceId m) (deviceSecret m) v (controllerRetirementPending m).
Definition with_pending (v : bool) (m : Material) : Material :=
  mkMaterial (deviceId m) (deviceSecret m) (controllers m) v.
Definition with_deviceId (v : list Z) (m : Material) : Material :=
  mkMaterial v (deviceSecret m) (controllers m) (controllerRetirementPending m).
Definition with_deviceSecret (v : list Z) (m : Material) : Material :=
  mkMaterial (deviceId m) v (controllers m) (controllerRetirementPending m).

Definition with_result (v : SecurityResult) (t : DeviceSecurityStatus) : DeviceSecurityStatus :=
  mkStatus v (st_mode t) (begun t) (applicationEncrypted t) (hardwareRootProtected t)
    (controllerCount t) (activeSlot t) (generation t).
Definition with_begun (v : bool) (t : DeviceSecurityStatus) : DeviceSecurityStatus :=
  mkStatus (lastResult t) (st_mode t) v (applicationEncrypted t) (hardwareRootProtected t)
    (controllerCount t) (activeSlot t) (generation t).
Definition with_count (v : Z) (t : DeviceSecurityStatus) : DeviceSecurityStatus :=
  mkStatus (lastResult t) (st_mode t) (begun t) (applicationEncrypted t) (hardwareRootProtected t)
    v (activeSlot t) (generation t).
Definition with_slot (slot gen : Z) (t : DeviceSecurityStatus) : DeviceSecurityStatus :=
  mkStatus (lastResult t) (st_mode t) (begun t) (applicationEncrypted t) (hardwareRootProtected t)
    (controllerCount t) slot gen.
Definition with_mode (mode : Z) (enc hw : bool) (t : DeviceSecurityStatus) : DeviceSecurityStatus :=
  mkStatus (lastResult t) mode (begun t) enc hw (controllerCount t) (activeSlot t) (generation t).

(** ** Record format *)

Definition kOuterMagic : list Z := bytes_of "KSEC".
Definition kPlainMagic : list Z := bytes_of "KMAT".
Definition kSecurityVersion : Z := 2.
Definition kOuterHeaderBytes : nat := 44.
Definition kPlainBytes : nat := 320.
Definition kPlainCrcOffset : nat := kPlainBytes - 4.
Definition kRetiredKeyBytes : nat := 32.
Definition kRetiredCounterBytes : nat := 16.

(** The bitwise CRC-32 of this file: the mask is the negated low bit. *)
Definition crcShift (crc : Z) : Z :=
  Z.lxor (Z.shiftr crc 1) (Z.land 0xedb88320 (u32 (- s32 (Z.land crc 1)))).
Definition crc32 (input : list Z) : Z :=
  u32 (Z.lnot (fold_left (fun crc b => Nat.iter 8 crcShift (Z.lxor crc b)) input 0xffffffff)).

Definition containsNonzero (input : list Z) : bool :=
  negb (fold_left Z.lor input 0 =? 0).

Definition securityResultName (r : SecurityResult) : string :=
  match r with
  | SecOk => "ok"
  | OkReflashable => "ok_reflashable"
  | NotBegun => "not_begun"
  | SecInvalidArgument => "invalid_argument"
  | SecurityModeUnavailable => "security_mode_unavailable"
  | WrappingRootUnavailable => "wrapping_root_unavailable"
  | StorageReadFailed => "storage_read_failed"
  | StorageWriteFailed => "storage_write_failed"
  | ReadbackFailed => "readback_failed"
  | CorruptStorage => "corrupt_storage"
  | CryptoFailed => "crypto_failed"
  | AuthorizationRequired => "authorization_required"
  | ControllerNotProvisioned => "controller_not_provisioned"
  | ControllerTableFull => "controller_table_full"
  end.

(** [static_cast<int32_t>(candidate - reference) > 0]. *)
Definition generationAfter (candidate reference : Z) : bool :=
  0 <? s32 (candidate - reference).

(** One 52-byte controller record; [None] for an unsupported role. *)
Definition encodeController (c : Controller) : option (list Z) :=
  match encodeControllerRolePadding (c_role c) (Some (replicate kControllerRolePaddingBytes 0)) with
  | (CodecOk, Some padding) =>
      Some ((if c_valid c then 1 else 0) :: padding ++ c_id c ++ c_root c)
  | _ => None
  end.

(** The controller loop of [encode]. *)
Fixpoint encodeControllers (cs : list Controller) : option (list Z) :=
  match cs with
  | [] => Some []
  | c :: rest =>
      record ← encodeController c;
      out ← encodeControllers rest;
      Some (record ++ out)
  end.

(** The plaintext of a record, checksum included. *)
Definition encodePlain (m : Material) : option (list Z) :=
  table ← encodeControllers (controllers m);
  let flags := if controllerRetirementPending m then 2 else 0 in
  let body := kPlainMagic ++ put16 kSecurityVersion ++ put16 (u16 (Z.of_nat kPlainBytes)) ++
    put32 flags ++ deviceId m ++ deviceSecret m ++ replicate kRetiredKeyBytes 0 ++ table ++
    replicate kRetiredCounterBytes 0 in
  Some (body ++ put32 (crc32 body)).

(** The unsealed header and the nonce. *)
Definition outerHeader (gen : Z) (nonce : list Z) : list Z :=
  kOuterMagic ++ put16 kSecurityVersion ++ put16 (u16 (Z.of_nat kOuterHeaderBytes)) ++ put32 gen ++
  put16 (u16 (Z.of_nat kPlainBytes)) ++ put16 (u16 (Z.of_nat kPlainBytes)) ++ nonce.

(** The header tests of [validateSlot]. *)
Definition outerOk (loaded : list Z) : bool :=
  (length loaded =? kOuterHeaderBytes + kPlainBytes)%nat &&
  beq (slice 0 4 loaded) kOuterMagic && (get16 (drop 4 loaded) =? kSecurityVersion) &&
  (get16 (drop 6 loaded) =? Z.of_nat kOuterHeaderBytes) &&
  (get16 (drop 12 loaded) =? Z.of_nat kPlainBytes) &&
  (get16 (drop 14 loaded) =? Z.of_nat kPlainBytes).

(** Its tests on the opened plaintext. *)
Definition plainOk (plain : list Z) : bool :=
  beq (slice 0 4 plain) kPlainMagic && (get16 (drop 4 plain) =? kSecurityVersion) &&
  (get16 (drop 6 plain) =? Z.of_nat kPlainBytes) &&
  (crc32 (take kPlainCrcOffset plain) =? get32 (drop kPlainCrcOffset plain)).

(** The controller loop of [decodeLoaded], [old] being the table it overwrites;
    [false] when a role is unsupported, with the records written so far. *)
Fixpoint decodeControllers (old : list Controller) (input : list Z) : list Controller * bool :=
  match old with
  | [] => ([], true)
  | c :: rest =>
      let valid := negb (byte_at input 0 =? 0) in
      match decodeControllerRolePadding (Some (slice 1 kControllerRolePaddingBytes input)) with
      | (CodecOk, role) =>
          let '(out, ok) := decodeControllers rest (drop 52 input) in
          (mkController valid role (slice 4 16 input) (slice 20 32 input) :: out, ok)
      | (_, role) => (mkController valid role (c_id c) (c_root c) :: rest, false)
      end
  end.

(** [decodeLoaded]: the material, success and [retiredMaterialPresent]. *)
Definition decodeLoaded (old : Material) (plain : list Z) : Material * bool * bool :=
  let flags := get32 (drop 8 plain) in
  let retiredKey := negb (Z.land flags 1 =? 0) || containsNonzero (slice 60 kRetiredKeyBytes plain) in
  let '(table, ok) := decodeControllers (controllers old) (drop 92 plain) in
  if ok then
    (mkMaterial (slice 12 16 plain) (slice 28 32 plain) table (negb (Z.land flags 2 =? 0)), true,
     retiredKey || containsNonzero (slice 300 kRetiredCounterBytes plain))
  else
    (mkMaterial (slice 12 16 plain) (slice 28 32 plain) table (controllerRetirementPending old), false,
     retiredKey).

(** ** The members *)

Section Device.
Context {W : Type} `{SecurityPlatform W}.

Definition D : Type := (Sec * W)%type.

Definition self {A} (f : Sec -> A) : M D A := gets (fun s => f (fst s)).
Definition upd (f : Sec -> Sec) : M D unit := modify (fun s => (f (fst s), snd s)).
Definition plat {A} (m : M W A) : M D A :=
  fun s => let '(a, w') := m (snd s) in (a, (fst s, w')).
Definition updStatus (f : DeviceSecurityStatus -> DeviceSecurityStatus) : M D unit :=
  upd (fun s => set_status (f (status_ s)) s).
Definition updMaterial (f : Material -> Material) : M D unit :=
  upd (fun s => set_material (f (material_ s)) s).

Definition clear : M D unit := upd (fun _ => sec0).

Definition setResult (r : SecurityResult) : M D SecurityResult :=
  updStatus (with_result r) ;;; ret r.

(** The result, the generation, the opened plaintext and [nonempty]. *)
Record SlotView := mkSlot {
  sv_valid : bool;
  sv_generation : Z;
  sv_nonempty : bool;
  sv_plain : list Z;
}.

Definition validateSlot (slot : Z) : M D SlotView :=
  loaded <- plat (readSlot slot kSecurityBlobCapacity) ;;
  match loaded with
  | None => updStatus (with_result StorageReadFailed) ;;; ret (mkSlot false 0 false [])
  | Some loaded =>
      if (length loaded =? 0)%nat then ret (mkSlot false 0 false [])
      else if negb (outerOk loaded) then
        updStatus (with_result CorruptStorage) ;;; ret (mkSlot false 0 true [])
      else
        let gen := get32 (drop 8 loaded) in
        key <- self wrappingKey_ ;;
        plain <- plat (open key gen (slice 16 kSecurityNonceBytes loaded)
                         (slice kOuterHeaderBytes kPlainBytes loaded)
                         (slice 28 kSecurityTagBytes loaded)) ;;
        match plain with
        | None => updStatus (with_result CorruptStorage) ;;; ret (mkSlot false gen true [])
        | Some plain =>
            if negb (plainOk plain) then
              updStatus (with_result CorruptStorage) ;;; ret (mkSlot false gen true plain)
            else ret (mkSlot true gen true plain)
        end
  end.

(** The sealed record, [None] when encoding failed. *)
Definition encode (gen : Z) : M D (option (list Z)) :=
  m <- self material_ ;;
  match encodePlain m with
  | None => ret None
  | Some plain =>
      nonce <- plat (randomBytes kSecurityNonceBytes) ;;
      match nonce with
      | None => ret None
      | Some nonce =>
          key <- self wrappingKey_ ;;
          sealed <- plat (seal key gen nonce plain) ;;
          ret (match sealed with
               | None => None
               | Some (ciphertext, tag) => Some (outerHeader gen nonce ++ tag ++ ciphertext)
               end)
      end
  end.

Definition countValid (cs : list Controller) : Z :=
  Z.of_nat (length (List.filter c_valid cs)).

(** [activeSlot ^ 1] for the two slots. *)
Definition otherSlot (slot : Z) : Z := Z.lxor slot 1.

Definition persist : M D SecurityResult :=
  st <- self status_ ;;
  let nextGeneration := u32 (generation st + 1) in
  blob <- encode nextGeneration ;;
  match blob with
  | None => setResult CryptoFailed
  | Some blob =>
      let target := if activeSlot st <? 0 then 0 else otherSlot (activeSlot st) in
      written <- plat (writeSlot target blob) ;;
      if negb written then setResult StorageWriteFailed
      else
        updStatus (with_result SecOk) ;;;
        v <- validateSlot target ;;
        if negb (sv_valid v) || negb (sv_nonempty v) ||
           negb (sv_generation v =? nextGeneration)
        then setResult ReadbackFailed
        else
          updStatus (with_slot target nextGeneration) ;;;
          m <- self material_ ;;
          updStatus (with_count (countValid (controllers m))) ;;;
          setResult SecOk
  end.

Definition retirePreviousSlot : M D SecurityResult :=
  s <- self id ;;
  if negb (controllerRetirementPending (material_ s)) then setResult SecOk
  else if negb (bound s) || (activeSlot (status_ s) <? 0) then setResult NotBegun
  else
    let retired := otherSlot (activeSlot (status_ s)) in
    cleared <- plat (clearSlot retired) ;;
    if negb cleared then setResult StorageWriteFailed
    else
      loaded <- plat (readSlot retired kSecurityBlobCapacity) ;;
      match loaded with
      | None => setResult StorageReadFailed
      | Some loaded =>
          if negb (length loaded =? 0)%nat then setResult ReadbackFailed
          else
            updMaterial (with_pending false) ;;;
            finalized <- persist ;;
            if negb (bool_decide (finalized = SecOk)) then
              updMaterial (with_pending true) ;;; ret finalized
            else setResult SecOk
      end.

(** One turn of the slot loop of [begin]; [None] is the early return. *)
Definition scanSlot (slot : Z) : M D (option SlotView) :=
  updStatus (with_result SecOk) ;;;
  v <- validateSlot slot ;;
  st <- self status_ ;;
  ret (if negb (sv_valid v) && bool_decide (lastResult st = StorageReadFailed)
       then None else Some v).

(** The selection of the newer valid slot. *)
Definition chooseSlot (v0 v1 : SlotView) : Z :=
  let chosen := if sv_valid v0 then 0 else -1 in
  if sv_valid v1 && ((chosen <? 0) || generationAfter (sv_generation v1) (sv_generation v0))
  then 1 else chosen.

(** The branch of [begin] with a valid slot; [None] to go on, [Some r] to return. *)
Definition loadChosen (chosen : Z) : M D (option SecurityResult) :=
  v <- validateSlot chosen ;;
  if negb (sv_valid v) || negb (sv_nonempty v) then
    r <- setResult CorruptStorage ;; ret (Some r)
  else
    old <- self material_ ;;
    let '(m, ok, retiredPresent) := decodeLoaded old (sv_plain v) in
    upd (set_material m) ;;;
    if negb ok then r <- setResult CorruptStorage ;; ret (Some r)
    else
      updStatus (with_slot chosen (sv_generation v)) ;;;
      retirement <- (if controllerRetirementPending m then retirePreviousSlot else ret SecOk) ;;
      if negb (bool_decide (retirement = SecOk)) then
        st <- self status_ ;;
        clear ;;;
        r <- setResult (lastResult st) ;; ret (Some r)
      else if retiredPresent then
        updMaterial (with_pending true) ;;;
        migrated <- persist ;;
        if negb (bool_decide (migrated = SecOk)) then
          clear ;;; r <- setResult migrated ;; ret (Some r)
        else
          retired <- retirePreviousSlot ;;
          if negb (bool_decide (retired = SecOk)) then
            clear ;;; r <- setResult retired ;; ret (Some r)
          else ret None
      else ret None.

(** The branch of [begin] that creates the device on empty storage. *)
Definition createDevice (anyNonempty : bool) : M D (option SecurityResult) :=
  if anyNonempty then r <- setResult CorruptStorage ;; ret (Some r)
  else
    did <- plat (randomBytes kKitsuDeviceIdBytes) ;;
    match did with
    | None => r <- setResult CryptoFailed ;; ret (Some r)
    | Some did =>
        updMaterial (with_deviceId did) ;;;
        secret <- plat (randomBytes kKitsuSecretBytes) ;;
        match secret with
        | None => r <- setResult CryptoFailed ;; ret (Some r)
        | Some secret =>
            updMaterial (with_deviceSecret secret) ;;;
            updStatus (with_begun true) ;;;
            persisted <- persist ;;
            if negb (bool_decide (persisted = SecOk)) then
              updStatus (with_begun false) ;;; ret (Some persisted)
            else ret None
        end
    end.

Definition begin (hardwareId : option (list Z)) : M D SecurityResult :=
  clear ;;;
  match hardwareId with
  | None => setResult SecInvalidArgument
  | Some hw =>
      upd (set_bound true) ;;;
      upd (set_hardwareId hw) ;;;
      mode <- plat (gets securityMode) ;;
      updStatus (with_mode mode kApplicationRecordsEncrypted kHardwareRootProtected) ;;;
      if negb (mode =? SecurityModeReflashable) then setResult SecurityModeUnavailable
      else
        key <- plat (deriveWrappingKey hw) ;;
        match key with
        | None => setResult WrappingRootUnavailable
        | Some key =>
            upd (set_wrappingKey key) ;;;
            r0 <- scanSlot 0 ;;
            match r0 with
            | None => setResult StorageReadFailed
            | Some v0 =>
                r1 <- scanSlot 1 ;;
                match r1 with
                | None => setResult StorageReadFailed
                | Some v1 =>
                    let chosen := chooseSlot v0 v1 in
                    early <- (if 0 <=? chosen then loadChosen chosen
                              else createDevice (sv_nonempty v0 || sv_nonempty v1)) ;;
                    match early with
                    | Some r => ret r
                    | None =>
                        updStatus (with_begun true) ;;;
                        m <- self material_ ;;
                        updStatus (with_count (countValid (controllers m))) ;;;
                        setResult OkReflashable
                    end
                end
            end
        end
  end.

(** ** Lookups *)

Definition ready (s : Sec) : bool := begun (status_ s).
Definition status (s : Sec) : DeviceSecurityStatus := status_ s.

(** [hasOutput] says the output pointer is not null. *)
Definition copyDeviceId (s : Sec) (hasOutput : bool) : option (list Z) :=
  if negb (begun (status_ s)) || negb hasOutput then None
  else Some (deviceId (material_ s)).

(** The [ordinal]-th valid controller. *)
Fixpoint nthValid (cs : list Controller) (ordinal : nat) : option (list Z) :=
  match cs with
  | [] => None
  | c :: rest =>
      if negb (c_valid c) then nthValid rest ordinal
      else match ordinal with O => Some (c_id c) | Datatypes.S k => nthValid rest k end
  end.

Definition controllerAt (s : Sec) (ordinal : nat) (hasOutput : bool) : option (list Z) :=
  if negb (begun (status_ s)) || negb hasOutput then None
  else nthValid (controllers (material_ s)) ordinal.

Definition controllerAtSlot (s : Sec) (slot : nat) (hasOutput : bool) : option (list Z) :=
  if negb (begun (status_ s)) || (kKitsuControllerCapacity <=? slot)%nat || negb hasOutput then None
  else match controllers (material_ s) !! slot with
       | Some c => if c_valid c then Some (c_id c) else None
       | None => None
       end.

(** The first valid controller with this id, and its index. *)
Fixpoint findController (cs : list Controller) (controllerId : list Z) (i : nat)
  : option (nat * Controller) :=
  match cs with
  | [] => None
  | c :: rest =>
      if c_valid c && beq (c_id c) controllerId then Some (i, c)
      else findController rest controllerId (Datatypes.S i)
  end.

(** Root and role; [None] leaves the output role invalid (0xFF). *)
Definition findControllerRoot (s : Sec) (controllerId : option (list Z)) (hasOutput : bool)
  : option (list Z * ControllerRole) :=
  if negb (begun (status_ s)) || negb hasOutput then None
  else
    cid ← controllerId;
    '(_, c) ← findController (controllers (material_ s)) cid 0;
    Some (c_root c, c_role c).

(** ** Keys *)

(** The result and the output buffer. *)
Definition deriveJournalKey (hasOutput : bool) : M D (SecurityResult * list Z) :=
  s <- self id ;;
  if negb (begun (status_ s)) then r <- setResult NotBegun ;; ret (r, [])
  else if negb hasOutput then r <- setResult SecInvalidArgument ;; ret (r, [])
  else
    key <- plat (hkdfSha256 (deviceSecret (material_ s)) (deviceId (material_ s))
                   (bytes_of "kitsu868/journal/aes256gcm/v1") kKitsuSecretBytes) ;;
    match key with
    | None => r <- setResult CryptoFailed ;; ret (r, replicate kKitsuSecretBytes 0)
    | Some key => r <- setResult SecOk ;; ret (r, key)
    end.

Definition generatePendingControllerRoot
    (secureConnections linkEncrypted bonded physicalConfirmed hasOutput : bool)
  : M D (SecurityResult * list Z) :=
  s <- self id ;;
  if negb (begun (status_ s)) then r <- setResult NotBegun ;; ret (r, [])
  else if negb hasOutput then r <- setResult SecInvalidArgument ;; ret (r, [])
  else if negb secureConnections || negb linkEncrypted || negb bonded || negb physicalConfirmed then
    r <- setResult AuthorizationRequired ;; ret (r, replicate kKitsuSecretBytes 0)
  else
    root <- plat (randomBytes kKitsuSecretBytes) ;;
    match root with
    | None => r <- setResult CryptoFailed ;; ret (r, replicate kKitsuSecretBytes 0)
    | Some root => r <- setResult SecOk ;; ret (r, root)
    end.

(** ** The controller table *)

(** The first free entry. *)
Fixpoint freeController (cs : list Controller) (i : nat) : option nat :=
  match cs with
  | [] => None
  | c :: rest => if c_valid c then freeController rest (Datatypes.S i) else Some i
  end.

(** The entry a commit writes: the controller's own, else a free one. *)
Definition commitTarget (cs : list Controller) (controllerId : list Z) : option nat :=
  match findController cs controllerId 0 with
  | Some (i, _) => Some i
  | None => freeController cs 0
  end.

Definition allZero (l : list Z) : bool := forallb (fun b => b =? 0) l.

Definition commitControllerAfterPairing (controllerId pendingRoot : option (list Z))
    (secureConnections linkEncrypted bonded physicalConfirmed pairCommitVerified : bool)
    (role : ControllerRole) : M D SecurityResult :=
  s <- self id ;;
  if negb (begun (status_ s)) then setResult NotBegun
  else
    match controllerId, pendingRoot with
    | Some cid, Some root =>
        if negb (role =? Owner) && negb (role =? Caretaker) then setResult SecInvalidArgument
        else if negb secureConnections || negb linkEncrypted || negb bonded ||
                negb physicalConfirmed || negb pairCommitVerified
        then setResult AuthorizationRequired
        else if allZero cid || allZero root then setResult SecInvalidArgument
        else
          let table := controllers (material_ s) in
          match commitTarget table cid with
          | None => setResult ControllerTableFull
          | Some target =>
              let old := nth target table noController in
              updMaterial (fun m => with_controllers
                (<[target := mkController true role cid root]> (controllers m)) m) ;;;
              persisted <- persist ;;
              when (negb (bool_decide (persisted = SecOk)))
                (updMaterial (fun m => with_controllers (<[target := old]> (controllers m)) m)) ;;;
              ret persisted
          end
    | _, _ => setResult SecInvalidArgument
    end.

(** The last phase shared by the revocations: store the emptied table with the
    pending bit, restoring [table] when that fails, then retire the old slot. *)
Definition storeRevocation (emptied table : list Controller) : M D SecurityResult :=
  updMaterial (with_controllers emptied) ;;;
  updMaterial (with_pending true) ;;;
  persisted <- persist ;;
  if negb (bool_decide (persisted = SecOk)) then
    updMaterial (with_controllers table) ;;;
    updMaterial (with_pending false) ;;;
    ret persisted
  else retirePreviousSlot.

Definition revokeController (controllerId : list Z) : M D SecurityResult :=
  s <- self id ;;
  let pending := controllerRetirementPending (material_ s) in
  resumed <- (if pending then retirePreviousSlot else ret SecOk) ;;
  if negb (bool_decide (resumed = SecOk)) then ret resumed
  else
    m <- self material_ ;;
    match findController (controllers m) controllerId 0 with
    | None => setResult (if pending then SecOk else ControllerNotProvisioned)
    | Some (target, _) =>
        storeRevocation (<[target := noController]> (controllers m)) (controllers m)
    end.

Definition revokeControllerAfterPhysicalConfirmation (controllerId : option (list Z))
    (physicalConfirmed : bool) : M D SecurityResult :=
  s <- self id ;;
  if negb (begun (status_ s)) then setResult NotBegun
  else match controllerId with
       | None => setResult SecInvalidArgument
       | Some cid => if negb physicalConfirmed then setResult AuthorizationRequired
                     else revokeController cid
       end.

Definition revokeAllControllersAfterPhysicalConfirmation (physicalConfirmed : bool)
  : M D SecurityResult :=
  s <- self id ;;
  if negb (begun (status_ s)) then setResult NotBegun
  else if negb physicalConfirmed then setResult AuthorizationRequired
  else
    resumed <- (if controllerRetirementPending (material_ s) then retirePreviousSlot else ret SecOk) ;;
    if negb (bool_decide (resumed = SecOk)) then ret resumed
    else
      m <- self material_ ;;
      if negb (existsb c_valid (controllers m)) then setResult SecOk
      else storeRevocation (replicate kKitsuControllerCapacity noController) (controllers m).

Definition revokeAuthenticatedController (controllerId : option (list Z)) : M D SecurityResult :=
  s <- self id ;;
  if negb (begun (status_ s)) then setResult NotBegun
  else match controllerId with
       | None => setResult SecInvalidArgument
       | Some cid => revokeController cid
       end.
End Device.
