(* ===== verification/DeviceSecurityFacts.v ===== *)
(** * The security record: codec and storage laws

    The plaintext codec is exact, the checksum is the CRC-32 of the updater, and
    the laws under which the two-slot protocol is proved. *)

From S2P Require Import Prelude Crc Permissions DeviceSecurity.

Open Scope kitsu_scope.

(** ** The checksum *)

Lemma crcShift_eq v : crcShift v = crcBit v.
Proof.
  unfold crcShift, crcBit. do 3 f_equal.
  assert (H : Z.land v 1 = 0 \/ Z.land v 1 = 1).
  { change (Z.land v 1) with (Z.land v (Z.ones 1)). rewrite Z.land_ones by lia.
    change (2 ^ 1) with 2. pose proof (Z.mod_pos_bound v 2 eq_refl). lia. }
  destruct H as [-> | ->]; reflexivity.
Qed.

Lemma iter_crcShift n v : Nat.iter n crcShift v = Nat.iter n crcBit v.
Proof. induction n as [|n IH]; [done|]. rewrite !Nat.iter_succ. by rewrite IH, crcShift_eq. Qed.

Lemma lnot_u32 v : 0 <= v < 2 ^ 32 -> u32 (Z.lnot v) = Z.lxor v 0xffffffff.
Proof.
  intros Hv. unfold u32. rewrite <- Z.land_ones by lia. change 0xffffffff with (Z.ones 32).
  apply Z.bits_inj. intros k. rewrite Z.land_spec, Z.lxor_spec.
  destruct (Z.lt_ge_cases k 0); [by rewrite !Z.testbit_neg_r|].
  rewrite Z.lnot_spec by done. destruct (Z.lt_ge_cases k 32).
  - rewrite Z.ones_spec_low by lia. by destruct (Z.testbit v k).
  - rewrite Z.ones_spec_high by lia. rewrite andb_false_r.
    by rewrite (range_bits 32) by done.
Qed.

Lemma crc32_eq l : bytesOk l -> crc32 l = Crc.crc32 l.
Proof.
  intros Hl. unfold crc32, Crc.crc32.
  rewrite (fold_left_ext _ crcByte) by (intros; apply iter_crcShift). apply lnot_u32.
  apply (fold_left_bytes (fun a => 0 <= a < 2 ^ 32)); [apply crcByte_range|done|lia].
Qed.

(** ** Well-formed material *)

Record wfController (c : Controller) : Prop := {
  wc_id : length (c_id c) = 16%nat /\ bytesOk (c_id c);
  wc_root : length (c_root c) = 32%nat /\ bytesOk (c_root c);
  wc_role : c_role c = Owner \/ c_role c = Caretaker;
}.

Record wfMaterial (m : Material) : Prop := {
  wm_id : length (deviceId m) = 16%nat /\ bytesOk (deviceId m);
  wm_secret : length (deviceSecret m) = 32%nat /\ bytesOk (deviceSecret m);
  wm_count : length (controllers m) = kKitsuControllerCapacity;
  wm_table : Forall wfController (controllers m);
}.

Lemma zero_bytes n : bytesOk (replicate n 0).
Proof. apply Forall_replicate. unfold isByte. lia. Qed.

Lemma wf_noController : wfController noController.
Proof.
  split; [split; [reflexivity|apply zero_bytes]|split; [reflexivity|apply zero_bytes]|by left].
Qed.

(** ** One controller record *)

Definition controllerBytes (c : Controller) : list Z :=
  [if c_valid c then 1 else 0; c_role c; 0; 0] ++ c_id c ++ c_root c.

Lemma encodeController_bytes c : wfController c -> encodeController c = Some (controllerBytes c).
Proof. intros [_ _ [E|E]]; unfold encodeController, controllerBytes; by rewrite E. Qed.

Lemma controllerBytes_length c : wfController c -> length (controllerBytes c) = 52%nat.
Proof. intros [[Hi _] [Hr _] _]. unfold controllerBytes. rewrite !length_app, Hi, Hr. done. Qed.

Lemma controllerBytes_ok c : wfController c -> bytesOk (controllerBytes c).
Proof.
  intros [[_ Hi] [_ Hr] Hrole]. unfold controllerBytes, bytesOk. rewrite !Forall_app.
  split; [|done]. unfold Owner, Caretaker in Hrole.
  repeat (constructor; [unfold isByte; destruct (c_valid c); lia|]). constructor.
Qed.

Lemma encodeControllers_bytes cs : Forall wfController cs ->
  encodeControllers cs = Some (concat (map controllerBytes cs)).
Proof.
  induction 1 as [|c cs Hc _ IH]; [done|]. cbn [encodeControllers].
  by rewrite encodeController_bytes, IH.
Qed.

Lemma table_length cs : Forall wfController cs ->
  length (concat (map controllerBytes cs)) = (52 * length cs)%nat.
Proof.
  induction 1 as [|c cs Hc _ IH]; [done|]. cbn [map concat length].
  rewrite length_app, IH, controllerBytes_length by done. lia.
Qed.

Lemma table_ok cs : Forall wfController cs -> bytesOk (concat (map controllerBytes cs)).
Proof.
  induction 1 as [|c cs Hc _ IH]; [constructor|]. apply Forall_app.
  split; [by apply controllerBytes_ok|done].
Qed.

Lemma decodeControllers_bytes cs : forall old rest, Forall wfController cs ->
  length old = length cs ->
  decodeControllers old (concat (map controllerBytes cs) ++ rest) = (cs, true).
Proof.
  induction cs as [|c cs IH]; intros [|o old] rest Hcs Hl; try discriminate; [done|].
  apply Forall_cons_1 in Hcs as [Hc Hcs]. cbn [map concat decodeControllers]. rewrite <- app_assoc.
  pose proof (controllerBytes_length c Hc) as Hlen.
  set (rest' := concat _ ++ rest).
  assert (E1 : slice 1 kControllerRolePaddingBytes (controllerBytes c ++ rest') = [c_role c; 0; 0])
    by reflexivity.
  assert (E4 : slice 4 16 (controllerBytes c ++ rest') = c_id c).
  { destruct Hc as [[Hi _] _ _]. unfold controllerBytes. rewrite <- !app_assoc.
    rewrite slice_skip by (simpl; lia). by apply slice_here. }
  assert (E20 : slice 20 32 (controllerBytes c ++ rest') = c_root c).
  { destruct Hc as [[Hi _] [Hr _] _]. unfold controllerBytes. rewrite <- !app_assoc.
    rewrite slice_skip by (simpl; lia). rewrite slice_skip by (simpl; lia).
    rewrite Hi. by apply slice_here. }
  assert (E52 : drop 52 (controllerBytes c ++ rest') = rest') by (by apply drop_app_length').
  assert (E0 : negb (byte_at (controllerBytes c ++ rest') 0 =? 0) = c_valid c)
    by (unfold byte_at; simpl; by destruct (c_valid c)).
  rewrite E0, E1, E4, E20, E52. unfold rest'. rewrite IH by (simpl in Hl; auto).
  destruct Hc as [_ _ Hrole]. destruct c as [v r i k]. simpl in *. by destruct Hrole as [-> | ->].
Qed.

(** ** The whole plaintext *)

Definition plainFlags (m : Material) : Z := if controllerRetirementPending m then 2 else 0.

Definition plainBody (m : Material) : list Z :=
  kPlainMagic ++ put16 kSecurityVersion ++ put16 (u16 (Z.of_nat kPlainBytes)) ++
  put32 (plainFlags m) ++ deviceId m ++ deviceSecret m ++ replicate kRetiredKeyBytes 0 ++
  concat (map controllerBytes (controllers m)) ++ replicate kRetiredCounterBytes 0.

Lemma encodePlain_body m : wfMaterial m ->
  encodePlain m = Some (plainBody m ++ put32 (crc32 (plainBody m))).
Proof. intros [_ _ _ Ht]. unfold encodePlain. by rewrite encodeControllers_bytes. Qed.

Lemma plainBody_length m : wfMaterial m -> length (plainBody m) = kPlainCrcOffset.
Proof.
  intros [[Hi _] [Hs _] Hc Ht]. unfold plainBody, kKitsuControllerCapacity in *.
  rewrite !length_app, Hi, Hs, table_length, Hc by done. reflexivity.
Qed.

Lemma plainBody_ok m : wfMaterial m -> bytesOk (plainBody m).
Proof.
  intros [[_ Hi] [_ Hs] _ Ht]. unfold plainBody, bytesOk. rewrite !Forall_app.
  split; [by apply allByte_literal|]. do 2 (split; [apply put16_ok|]). split; [apply put32_ok|].
  do 2 (split; [done|]). split; [apply zero_bytes|]. split; [by apply table_ok|apply zero_bytes].
Qed.

(** The fields of the plaintext at their offsets. *)
Lemma plain_fields m tail : wfMaterial m -> let p := plainBody m ++ tail in
  slice 0 4 p = kPlainMagic /\ get16 (drop 4 p) = kSecurityVersion /\
  get16 (drop 6 p) = Z.of_nat kPlainBytes /\ get32 (drop 8 p) = plainFlags m /\
  slice 12 16 p = deviceId m /\ slice 28 32 p = deviceSecret m /\
  slice 60 kRetiredKeyBytes p = replicate kRetiredKeyBytes 0 /\
  drop 92 p = concat (map controllerBytes (controllers m)) ++ replicate kRetiredCounterBytes 0 ++ tail /\
  slice 300 kRetiredCounterBytes p = replicate kRetiredCounterBytes 0.
Proof.
  intros [[Hi _] [Hs _] Hc Ht]. pose proof (table_length _ Ht) as Hl. rewrite Hc in Hl.
  cbv zeta. unfold plainBody. rewrite <- !app_assoc.
  set (table := concat _) in *. clearbody table.
  set (f := plainFlags m). assert (Hf : f = 0 \/ f = 2)
    by (unfold f, plainFlags; destruct (controllerRetirementPending m); auto).
  clearbody f. change (52 * kKitsuControllerCapacity)%nat with 208%nat in Hl.
  set (Z12 := deviceId m ++ _).
  assert (E12 : forall off n, slice (12 + off) n (kPlainMagic ++ put16 kSecurityVersion ++
    put16 (u16 (Z.of_nat kPlainBytes)) ++ put32 f ++ Z12) = slice off n Z12) by reflexivity.
  assert (E92 : drop 92 (kPlainMagic ++ put16 kSecurityVersion ++
    put16 (u16 (Z.of_nat kPlainBytes)) ++ put32 f ++ Z12) = drop 80 Z12) by reflexivity.
  split; [reflexivity|]. split; [reflexivity|]. split; [reflexivity|].
  split; [apply (get32_put32 f Z12); lia|].
  change (slice 12 16) with (slice (12 + 0) 16). change (slice 28 32) with (slice (12 + 16) 32).
  change (slice 60 kRetiredKeyBytes) with (slice (12 + 48) kRetiredKeyBytes).
  change (slice 300 kRetiredCounterBytes) with (slice (12 + 288) kRetiredCounterBytes).
  rewrite !E12, E92. unfold Z12.
  split; [by apply slice_here|].
  split; [rewrite slice_skip by lia; rewrite Hi; by apply slice_here|].
  split; [rewrite slice_skip by lia; rewrite slice_skip by lia; rewrite Hi, Hs; by apply slice_here|].
  split.
  - rewrite drop_app_ge by lia. rewrite drop_app_ge by lia. rewrite Hi, Hs. reflexivity.
  - do 4 (rewrite slice_skip by (rewrite ?length_replicate; unfold kRetiredKeyBytes; lia)).
    rewrite Hi, Hs, Hl, length_replicate. by apply slice_here.
Qed.

Lemma containsNonzero_zero n : containsNonzero (replicate n 0) = false.
Proof. unfold containsNonzero. induction n; simpl; auto. Qed.

(** The reader accepts and inverts what the writer produced. *)
Definition plainOf (m : Material) : list Z := plainBody m ++ put32 (crc32 (plainBody m)).

Lemma plain_round_trip m old : wfMaterial m ->
  length (controllers old) = kKitsuControllerCapacity ->
  length (plainOf m) = kPlainBytes /\ plainOk (plainOf m) = true /\
  decodeLoaded old (plainOf m) = (m, true, false).
Proof.
  intros Hm Hold. unfold plainOf.
  pose proof (plainBody_length m Hm) as Hl. pose proof (plainBody_ok m Hm) as Hok.
  destruct (plain_fields m (put32 (crc32 (plainBody m))) Hm)
    as (F0 & F4 & F6 & F8 & F12 & F28 & F60 & F92 & F300).
  assert (Hc : 0 <= crc32 (plainBody m) < 2 ^ 32) by (rewrite crc32_eq by done; by apply crc32_range).
  split; [rewrite length_app, Hl; reflexivity|]. split.
  - unfold plainOk. rewrite F0, F4, F6, take_app_length' by done.
    rewrite drop_app_length' by done. rewrite <- (app_nil_r (put32 _)), get32_put32 by lia.
    by rewrite beq_refl, !Z.eqb_refl.
  - unfold decodeLoaded. rewrite F8, F12, F28, F60, F92, F300, !containsNonzero_zero.
    rewrite decodeControllers_bytes; [|apply Hm|by destruct Hm as [_ _ -> _]].
    unfold plainFlags. destruct m as [i s cs []]; reflexivity.
Qed.

(** The security record codec is exact: a well-formed material (16-byte
    device id, 32-byte secret, four controllers with supported roles) encodes to
    320 bytes that pass the record checks and decode back to that material, with
    no retired key material reported. *)
Theorem security_record_round_trip m old : wfMaterial m ->
  length (controllers old) = kKitsuControllerCapacity ->
  exists plain, encodePlain m = Some plain /\ length plain = kPlainBytes /\
    plainOk plain = true /\ decodeLoaded old plain = (m, true, false).
Proof.
  intros Hm Hold. exists (plainOf m). split; [by apply encodePlain_body|].
  by apply plain_round_trip.
Qed.

Definition demoMaterial : Material :=
  mkMaterial (replicate 16 1) (replicate 32 2)
    [mkController true Caretaker (replicate 16 3) (replicate 32 4); noController; noController; noController]
    true.

Lemma demoMaterial_wf : wfMaterial demoMaterial.
Proof.
  assert (Hr : forall n v, isByte v -> bytesOk (replicate n v)) by (intros; by apply Forall_replicate).
  assert (Hb : forall v, 0 <= v < 256 -> isByte v) by done.
  split; [split; [done|apply Hr, Hb; lia]|split; [done|apply Hr, Hb; lia]|done|].
  repeat (constructor; [first [apply wf_noController|split; [split; [done|apply Hr, Hb; lia]
    |split; [done|apply Hr, Hb; lia]|by right]]|]). constructor.
Qed.

Lemma security_record_round_trip_witness :
  exists plain, encodePlain demoMaterial = Some plain /\ length plain = kPlainBytes /\
    plainOk plain = true /\ decodeLoaded noMaterial plain = (demoMaterial, true, false).
Proof. exact (security_record_round_trip demoMaterial noMaterial demoMaterial_wf eq_refl). Defined.
