(* ===== verification/DeviceSecurityProtocol.v ===== *)
(** * The two-slot protocol of the controller table

    What storing, committing and revoking do to the members and to the two
    storage slots, against storage that keeps what it acknowledges and a cipher
    whose opening inverts its sealing.  A failed call may leave anything in the
    slot it was writing. *)

From S2P Require Import Prelude Crc Permissions DeviceSecurity DeviceSecurityFacts.

Open Scope kitsu_scope.

(** The storage and cryptography the protocol relies on. *)
Class HonestStore (W : Type) `{SecurityPlatform W} := {
  slots : W -> Z -> list Z;
  read_honest : forall t n w r w', readSlot t n w = (r, w') ->
    (forall u, slots w' u = slots w u) /\ (forall l, r = Some l -> l = slots w t);
  write_honest : forall t b w ok w', writeSlot t b w = (ok, w') ->
    (forall u, u <> t -> slots w' u = slots w u) /\ (ok = true -> slots w' t = b);
  clear_honest : forall t w ok w', clearSlot t w = (ok, w') ->
    (forall u, u <> t -> slots w' u = slots w u) /\ (ok = true -> slots w' t = []);
  random_honest : forall n w r w', randomBytes n w = (r, w') ->
    (forall u, slots w' u = slots w u) /\ (forall l, r = Some l -> length l = n /\ bytesOk l);
  seal_honest : forall k g n p w r w', seal k g n p w = (r, w') ->
    (forall u, slots w' u = slots w u) /\
    (forall c t, r = Some (c, t) -> length c = length p /\ length t = kSecurityTagBytes /\
       forall w1 q w2, open k g n c t w1 = (Some q, w2) -> q = p);
  open_honest : forall k g n c t w r w', open k g n c t w = (r, w') ->
    forall u, slots w' u = slots w u;
}.

(** ** Symbolic execution *)

Section Rules.
Context {W : Type} `{SecurityPlatform W}.

Lemma wp_sec_self {A} (f : Sec -> A) (Q : A -> Sec * W -> Prop) s w :
  Q (f s) (s, w) -> wp (self f) Q (s, w).
Proof. auto. Qed.
Lemma wp_sec_upd (f : Sec -> Sec) (Q : unit -> Sec * W -> Prop) s w :
  Q tt (f s, w) -> wp (upd f) Q (s, w).
Proof. auto. Qed.
Lemma wp_sec_plat {A} (m : M W A) (Q : A -> Sec * W -> Prop) s w :
  (forall a w', m w = (a, w') -> Q a (s, w')) -> wp (plat m) Q (s, w).
Proof. intros HQ. unfold wp, plat. simpl. destruct (m w). simpl. by apply HQ. Qed.

(** A postcondition on the members and the world. *)
Definition secPost {A} (P : A -> Sec -> W -> Prop) : A -> Sec * W -> Prop :=
  fun a s => P a (fst s) (snd s).

Lemma wp_secPost {A} (m : M (Sec * W) A) P Q s :
  wp m (secPost P) s -> (forall a s' w', P a s' w' -> Q a (s', w')) -> wp m Q s.
Proof. unfold wp, secPost. destruct (m s) as [a [s' w']]. simpl. auto. Qed.
Lemma secPost_intro {A} (P : A -> Sec -> W -> Prop) a s w : P a s w -> secPost P a (s, w).
Proof. auto. Qed.

Lemma wp_setResult r (Q : SecurityResult -> Sec * W -> Prop) s w :
  Q r (set_status (with_result r (status_ s)) s, w) -> wp (setResult r) Q (s, w).
Proof. auto. Qed.
End Rules.

Ltac sec_step :=
  lazymatch goal with
  | |- wp (setResult _) _ _ => apply wp_setResult
  | |- wp (self _) _ _ => apply wp_sec_self
  | |- wp (upd _) _ _ => apply wp_sec_upd
  | |- wp (updStatus _) _ _ => apply wp_sec_upd
  | |- wp (updMaterial _) _ _ => apply wp_sec_upd
  | |- wp (plat _) _ _ => apply wp_sec_plat; intros ? ? ?
  | |- _ => wp_step
  end; cbv beta.
Ltac sec_run :=
  repeat lazymatch goal with
  | |- wp (match _ with _ => _ end) _ _ => fail
  | |- wp (when _ _) _ _ => fail
  | |- wp _ _ _ => sec_step
  end.
Ltac sec_done := apply secPost_intro; cbv beta.

(** ** Sealed slots *)

Section Protocol.
Context {W : Type} `{SP : SecurityPlatform W} `{HS : !HonestStore W}.
Implicit Types (s : Sec) (w : W).

(** The slot holds a record of this generation sealed for exactly [m]. *)
Definition sealedFor (key : list Z) (w : W) (slot gen : Z) (m : Material) : Prop :=
  exists nonce tag cipher,
    slots w slot = outerHeader gen nonce ++ tag ++ cipher /\
    length nonce = kSecurityNonceBytes /\ length tag = kSecurityTagBytes /\
    length cipher = kPlainBytes /\
    forall w1 q w2, open key gen nonce cipher tag w1 = (Some q, w2) -> q = plainOf m.

Lemma sealedFor_same key w w' slot gen m :
  slots w' slot = slots w slot -> sealedFor key w slot gen m -> sealedFor key w' slot gen m.
Proof using. intros E (n & t & c & Hs & H). exists n, t, c. by rewrite E. Qed.

Definition u32ok (g : Z) : Prop := 0 <= g < 2 ^ 32.

(** Members no storage step changes. *)
Definition keeps (s s' : Sec) : Prop :=
  material_ s' = material_ s /\ bound s' = bound s /\ wrappingKey_ s' = wrappingKey_ s /\
  begun (status_ s') = begun (status_ s) /\ st_mode (status_ s') = st_mode (status_ s).

Definition sameSlot (s s' : Sec) : Prop :=
  activeSlot (status_ s') = activeSlot (status_ s) /\
  generation (status_ s') = generation (status_ s).

Lemma validateSlot_wp slot s w :
  wp (validateSlot slot)
     (secPost (fun v s' w' => keeps s s' /\ sameSlot s s' /\
        (forall u, slots w' u = slots w u) /\
        (sv_valid v = true -> sv_nonempty v = true /\
           outerOk (slots w slot) = true /\ plainOk (sv_plain v) = true /\
           sv_generation v = get32 (drop 8 (slots w slot)) /\
           exists w1 w2, open (wrappingKey_ s) (sv_generation v)
             (slice 16 kSecurityNonceBytes (slots w slot))
             (slice kOuterHeaderBytes kPlainBytes (slots w slot))
             (slice 28 kSecurityTagBytes (slots w slot)) w1 = (Some (sv_plain v), w2))))
     (s, w).
Proof using.
  unfold validateSlot. sec_run. destruct (read_honest _ _ _ _ _ H) as [Hu Hl].
  destruct a as [l|]; [|sec_run; sec_done; repeat split; auto; discriminate].
  rewrite <- (Hl l eq_refl). sec_step; [sec_run; sec_done; repeat split; auto; discriminate|].
  sec_step; [sec_run; sec_done; repeat split; auto; discriminate|].
  apply negb_false_iff in E0. sec_run. pose proof (open_honest _ _ _ _ _ _ _ _ H0) as Ho.
  assert (Hs : forall u, slots w'0 u = slots w u) by (intros; by rewrite Ho, Hu).
  destruct a as [p|]; [|sec_run; sec_done; repeat split; auto; discriminate].
  sec_step; [sec_run; sec_done; repeat split; auto; discriminate|].
  apply negb_false_iff in E1. sec_run. sec_done. repeat split; auto. simpl. eauto.
Qed.

Lemma encode_wp gen s w : wfMaterial (material_ s) ->
  wp (encode gen)
     (secPost (fun r s' w' => s' = s /\ (forall u, slots w' u = slots w u) /\
        forall blob, r = Some blob -> exists nonce tag cipher,
          blob = outerHeader gen nonce ++ tag ++ cipher /\
          length nonce = kSecurityNonceBytes /\ length tag = kSecurityTagBytes /\
          length cipher = kPlainBytes /\
          forall w1 q w2, open (wrappingKey_ s) gen nonce cipher tag w1 = (Some q, w2) ->
            q = plainOf (material_ s)))
     (s, w).
Proof using.
  intros Hm. unfold encode. sec_run. rewrite encodePlain_body by done. fold (plainOf (material_ s)).
  destruct (plain_round_trip _ noMaterial Hm eq_refl) as (Hlen & _ & _).
  sec_run. destruct (random_honest _ _ _ _ H) as [Hu Hn].
  destruct a as [nonce|]; [|sec_run; sec_done; repeat split; auto; discriminate].
  sec_run. destruct (seal_honest _ _ _ _ _ _ _ H0) as [Hu2 Hs]. sec_done.
  split; [done|]. split; [intros; by rewrite Hu2, Hu|].
  destruct a as [[c t]|]; [|discriminate]. intros blob [= <-].
  destruct (Hs c t eq_refl) as (Hc & Ht & Hop). exists nonce, t, c.
  split; [done|]. split; [by apply Hn|]. split; [done|]. split; [by rewrite Hc|done].
Qed.

(** Where the next record goes. *)
Definition nextSlot (s : Sec) : Z :=
  if activeSlot (status_ s) <? 0 then 0 else otherSlot (activeSlot (status_ s)).

(** One stored record: success makes it the active one, failure leaves the
    active slot and the generation as they were; no other slot is touched. *)
Lemma persist_wp s w : wfMaterial (material_ s) ->
  wp persist
     (secPost (fun r s' w' => keeps s s' /\
        (forall u, u <> nextSlot s -> slots w' u = slots w u) /\
        (r = SecOk ->
           activeSlot (status_ s') = nextSlot s /\
           generation (status_ s') = u32 (generation (status_ s) + 1) /\
           sealedFor (wrappingKey_ s) w' (nextSlot s) (u32 (generation (status_ s) + 1))
             (material_ s)) /\
        (r <> SecOk -> sameSlot s s')))
     (s, w).
Proof using.
  intros Hm. unfold persist. sec_run. eapply wp_secPost; [by apply encode_wp|].
  intros r s1 w1 (-> & Hu1 & Hb).
  destruct r as [blob|];
    [|sec_run; sec_done; split; [done|]; split; [auto|]; split; [discriminate|by split]].
  destruct (Hb blob eq_refl) as (nonce & tag & cipher & -> & Hn & Ht & Hc & Hop).
  fold (nextSlot s). sec_run. destruct (write_honest _ _ _ _ _ H) as [Hu2 Hw].
  assert (Hu3 : forall u, u <> nextSlot s -> slots w' u = slots w u)
    by (intros; rewrite Hu2, Hu1; done).
  sec_step; [sec_run; sec_done; split; [done|]; split; [done|]; split; [discriminate|by split]|].
  apply negb_false_iff in E. specialize (Hw E).
  sec_run. eapply wp_secPost; [apply validateSlot_wp|].
  intros v s2 w2 (Hk & Hss & Hu4 & Hv). 
  assert (Hu5 : forall u, u <> nextSlot s -> slots w2 u = slots w u)
    by (intros; rewrite Hu4; auto).
  destruct Hk as (K1 & K2 & K3 & K4 & K5). simpl in K1, K2, K3, K4, K5. destruct Hss as [S1 S2].
  simpl in S1, S2.
  sec_step; [sec_run; sec_done; split; [done|]; split; [done|]; split; [discriminate|by split]|].
  sec_run. sec_done. split; [done|]. split; [done|]. split; [|congruence].
  intros _. split; [done|]. split; [done|]. exists nonce, tag, cipher.
  split; [by rewrite Hu4|]. done.
Qed.

Definition slotOk (s : Sec) : Prop := activeSlot (status_ s) = 0 \/ activeSlot (status_ s) = 1.

Lemma otherSlot_cases a : a = 0 \/ a = 1 ->
  (otherSlot a = 0 \/ otherSlot a = 1) /\ otherSlot a <> a /\ otherSlot (otherSlot a) = a /\
  (a <? 0) = false.
Proof using. intros [-> | ->]; repeat split; auto; discriminate. Qed.

Lemma wf_with_pending b m : wfMaterial m -> wfMaterial (with_pending b m).
Proof using. intros []. by split. Qed.
Lemma wf_with_controllers cs m : wfMaterial m -> length cs = kKitsuControllerCapacity ->
  Forall wfController cs -> wfMaterial (with_controllers cs m).
Proof using. intros []. by split. Qed.

(** Retiring: success clears the pending bit and leaves the material of the
    members, without the bit, in the slot that was retired; the active record
    of before is untouched either way. *)
Lemma retirePreviousSlot_wp s w :
  wfMaterial (material_ s) -> bound s = true -> slotOk s ->
  controllerRetirementPending (material_ s) = true ->
  wp retirePreviousSlot
     (secPost (fun r s' w' =>
        bound s' = bound s /\ wrappingKey_ s' = wrappingKey_ s /\
        begun (status_ s') = begun (status_ s) /\
        slots w' (activeSlot (status_ s)) = slots w (activeSlot (status_ s)) /\
        (r = SecOk -> material_ s' = with_pending false (material_ s) /\
           activeSlot (status_ s') = otherSlot (activeSlot (status_ s)) /\
           generation (status_ s') = u32 (generation (status_ s) + 1) /\
           sealedFor (wrappingKey_ s) w' (otherSlot (activeSlot (status_ s)))
             (u32 (generation (status_ s) + 1)) (with_pending false (material_ s))) /\
        (r <> SecOk -> material_ s' = material_ s /\ sameSlot s s')))
     (s, w).
Proof using.
  intros Hm Hb Hs Hp. destruct (otherSlot_cases _ Hs) as (Ho & Hne & Hoo & Hneg).
  unfold retirePreviousSlot. sec_run. cbv [id]. rewrite Hp, Hb, Hneg. simpl.
  sec_run. destruct (clear_honest _ _ _ _ H) as [Hu _].
  assert (Ha : forall w1, (forall u, u <> otherSlot (activeSlot (status_ s)) -> slots w1 u = slots w u) ->
    slots w1 (activeSlot (status_ s)) = slots w (activeSlot (status_ s))) by (intros; auto).
  sec_step; [sec_run; sec_done; repeat split; auto; discriminate|].
  sec_run. destruct (read_honest _ _ _ _ _ H0) as [Hu2 _].
  assert (Hu3 : forall u, u <> otherSlot (activeSlot (status_ s)) -> slots w'0 u = slots w u)
    by (intros; rewrite Hu2; auto).
  destruct a0 as [l|]; [|sec_run; sec_done; repeat split; auto; discriminate].
  sec_step; [sec_run; sec_done; repeat split; auto; discriminate|].
  sec_run. set (s1 := set_material _ _).
  eapply wp_secPost; [apply persist_wp; by apply wf_with_pending|].
  intros r s2 w2 ((K1 & K2 & K3 & K4 & K5) & Hu4 & Hok & Hfail).
  assert (Hn : nextSlot s1 = otherSlot (activeSlot (status_ s)))
    by (unfold nextSlot; simpl; by rewrite Hneg).
  rewrite Hn in *. simpl in K1, K2, K3, K4, K5.
  assert (Hu5 : forall u, u <> otherSlot (activeSlot (status_ s)) -> slots w2 u = slots w u)
    by (intros; rewrite Hu4; auto).
  sec_step.
  - apply negb_true_iff, bool_decide_eq_false in E1. sec_run. sec_done.
    destruct (Hfail E1) as [F1 F2]. simpl in F1, F2.
    split; [simpl; congruence|]. split; [simpl; congruence|]. split; [simpl; congruence|].
    split; [by apply Ha|].
    split; [done|]. intros _. split; [|by split].
    cbn [material_ set_material]. rewrite K1. destruct (material_ s). simpl in Hp. by subst.
  - apply negb_false_iff, bool_decide_eq_true in E1. sec_run. sec_done.
    destruct (Hok E1) as (O1 & O2 & O3). simpl in O1, O2, O3.
    split; [simpl; congruence|]. split; [simpl; congruence|]. split; [simpl; congruence|].
    split; [by apply Ha|].
    split; [by split|done].
Qed.

(** Storing a revoked table: on success neither slot keeps the old one. *)
Lemma storeRevocation_wp emptied s w :
  wfMaterial (material_ s) -> bound s = true -> slotOk s ->
  controllerRetirementPending (material_ s) = false ->
  length emptied = kKitsuControllerCapacity -> Forall wfController emptied ->
  wp (storeRevocation emptied (controllers (material_ s)))
     (secPost (fun r s' w' => wrappingKey_ s' = wrappingKey_ s /\
        (r = SecOk -> controllers (material_ s') = emptied /\
           controllerRetirementPending (material_ s') = false /\
           forall slot, slot = 0 \/ slot = 1 -> exists gen m,
             sealedFor (wrappingKey_ s) w' slot gen m /\ controllers m = emptied) /\
        (r <> SecOk -> material_ s' = material_ s \/
           controllers (material_ s') = emptied /\
           controllerRetirementPending (material_ s') = true)))
     (s, w).
Proof using.
  intros Hm Hb Hs Hp Hl Hwf. destruct (otherSlot_cases _ Hs) as (Ho & Hne & Hoo & Hneg).
  unfold storeRevocation. sec_run. set (s1 := set_material _ _).
  assert (Hm1 : wfMaterial (material_ s1)) by (by apply wf_with_pending, wf_with_controllers).
  eapply wp_secPost; [by apply persist_wp|].
  intros r s2 w2 ((K1 & K2 & K3 & K4 & K5) & Hu & Hok & Hfail).
  assert (Hn : nextSlot s1 = otherSlot (activeSlot (status_ s)))
    by (unfold nextSlot; simpl; by rewrite Hneg).
  rewrite Hn in *. sec_step.
  - apply negb_true_iff, bool_decide_eq_false in E. sec_run. sec_done.
    split; [exact K3|]. split; [done|]. intros _. left. simpl. rewrite K1. simpl.
    destruct (material_ s). simpl in *. by subst.
  - apply negb_false_iff, bool_decide_eq_true in E. destruct (Hok E) as (O1 & O2 & O3).
    eapply wp_secPost; [apply retirePreviousSlot_wp|].
    + by rewrite K1.
    + by rewrite K2.
    + unfold slotOk. by rewrite O1.
    + by rewrite K1.
    + rewrite K1, K3, O1, O2. intros r2 s3 w3 (R1 & R2 & R3 & R4 & Rok & Rfail).
      sec_done. split; [by rewrite R2|]. split.
      * intros Er. destruct (Rok Er) as (M1 & _ & _ & M4). rewrite M1. split; [done|].
        split; [done|]. rewrite Hoo in M4. intros slot Hslot.
        destruct (decide (slot = activeSlot (status_ s))) as [->|Hd].
        { exists (u32 (u32 (generation (status_ s1) + 1) + 1)), (with_pending false (material_ s1)).
          split; [exact M4|done]. }
        assert (slot = otherSlot (activeSlot (status_ s))) as ->.
        { destruct Hs as [Hs|Hs], Hslot as [-> | ->]; rewrite Hs in *; try done; by destruct Hd. }
        exists (u32 (generation (status_ s1) + 1)), (material_ s1).
        split; [|done]. by apply (sealedFor_same _ w2).
      * intros Er. destruct (Rfail Er) as [-> _].  right. done.
Qed.
End Protocol.

(** ** The table *)

(** No two valid entries share an id. *)
Definition uniqueIds (cs : list Controller) : Prop :=
  forall i j c d, cs !! i = Some c -> cs !! j = Some d -> c_valid c = true -> c_valid d = true ->
    c_id c = c_id d -> i = j.

Lemma findController_some cs cid : forall n i c,
  findController cs cid n = Some (i, c) <->
  exists k, i = (n + k)%nat /\ cs !! k = Some c /\ c_valid c = true /\ c_id c = cid /\
    forall j d, (j < k)%nat -> cs !! j = Some d -> c_valid d = true -> c_id d <> cid.
Proof.
  induction cs as [|x cs IH]; intros n i c; simpl.
  { split; [discriminate|]. intros (k & _ & Hk & _). by rewrite lookup_nil in Hk. }
  destruct (c_valid x && beq (c_id x) cid) eqn:E.
  - apply andb_true_iff in E as [Ev Ei%beq_eq]. split.
    + intros [= <- <-]. exists 0%nat. rewrite Nat.add_0_r. repeat split; auto. intros. lia.
    + intros ([|k] & -> & Hk & _ & _ & Hf); simpl in Hk.
      * injection Hk as ->. by rewrite Nat.add_0_r.
      * by destruct (Hf 0%nat x ltac:(lia) eq_refl Ev).
  - apply andb_false_iff in E. rewrite IH. split.
    + intros (k & -> & Hk & Hv & Hi & Hf). exists (Datatypes.S k). split; [lia|]. do 3 (split; [done|]).
      intros [|j] d Hj Hd Hvd; simpl in Hd; [|apply (Hf j); auto; lia].
      injection Hd as ->. destruct E as [E|E]; [congruence|]. by apply beq_neq in E.
    + intros ([|k] & -> & Hk & Hv & Hi & Hf); simpl in Hk.
      * injection Hk as ->. destruct E as [E|E]; [congruence|]. by apply beq_neq in E.
      * exists k. split; [lia|]. do 3 (split; [done|]). intros j d Hj Hd. apply (Hf (Datatypes.S j)); [lia|done].
Qed.

Lemma findController_none cs cid : forall n,
  findController cs cid n = None <->
  forall j d, cs !! j = Some d -> c_valid d = true -> c_id d <> cid.
Proof.
  induction cs as [|x cs IH]; intros n; simpl.
  { split; [|done]. intros _ j d Hd. by rewrite lookup_nil in Hd. }
  destruct (c_valid x && beq (c_id x) cid) eqn:E.
  - apply andb_true_iff in E as [Ev Ei%beq_eq]. split; [discriminate|].
    intros Hf. by destruct (Hf 0%nat x eq_refl Ev).
  - apply andb_false_iff in E. rewrite IH. split.
    + intros Hf [|j] d Hd; simpl in Hd; [|by apply (Hf j)]. injection Hd as ->.
      intros Hv. destruct E as [E|E]; [congruence|]. by apply beq_neq in E.
    + intros Hf j d. apply (Hf (Datatypes.S j)).
Qed.

Lemma freeController_some cs : forall n i, freeController cs n = Some i ->
  exists k c, i = (n + k)%nat /\ cs !! k = Some c /\ c_valid c = false.
Proof.
  induction cs as [|x cs IH]; intros n i; simpl; [discriminate|].
  destruct (c_valid x) eqn:E.
  - intros (k & c & -> & H)%IH. exists (Datatypes.S k), c. split; [lia|done].
  - intros [= <-]. exists 0%nat, x. rewrite Nat.add_0_r. done.
Qed.

(** Clearing the found entry leaves none with its id. *)
Lemma find_cleared cs cid i c : uniqueIds cs -> findController cs cid 0 = Some (i, c) ->
  findController (<[i := noController]> cs) cid 0 = None.
Proof.
  intros Hu (k & -> & Hk & Hv & Hi & _)%findController_some. simpl.
  apply findController_none. intros j d Hd Hvd Hid.
  destruct (decide (j = k)) as [->|Hne].
  - rewrite list_lookup_insert_eq in Hd by (by eapply lookup_lt_Some). by injection Hd as <-.
  - rewrite list_lookup_insert_ne in Hd by done. apply Hne. apply (Hu j k d c); auto. congruence.
Qed.

(** A commit finds what it wrote and keeps ids unique. *)
Lemma find_committed cs cid root role i : uniqueIds cs -> commitTarget cs cid = Some i ->
  uniqueIds (<[i := mkController true role cid root]> cs) /\
  findController (<[i := mkController true role cid root]> cs) cid 0 =
    Some (i, mkController true role cid root).
Proof.
  intros Hu Ht.
  assert (Hi : (i < length cs)%nat /\
    forall j d, cs !! j = Some d -> c_valid d = true -> c_id d = cid -> j = i).
  { unfold commitTarget in Ht. destruct (findController cs cid 0) as [[k c]|] eqn:E.
    - injection Ht as <-. apply findController_some in E as (k' & -> & Hk & Hv & Hid & _).
      split; [by eapply lookup_lt_Some|]. intros j d Hd Hvd Hidd. apply (Hu j k' d c); auto. congruence.
    - apply freeController_some in Ht as (k & c & -> & Hk & Hv).
      split; [by eapply lookup_lt_Some|]. intros j d Hd Hvd Hidd.
      by destruct (proj1 (findController_none _ _ _) E j d Hd Hvd). }
  destruct Hi as [Hi Honly].
  assert (Hw : <[i := mkController true role cid root]> cs !! i = Some (mkController true role cid root))
    by (by rewrite list_lookup_insert_eq).
  assert (Ho : forall j d, j <> i -> <[i := mkController true role cid root]> cs !! j = Some d ->
    cs !! j = Some d) by (intros j d Hne Hd; by rewrite list_lookup_insert_ne in Hd).
  split.
  - intros a b c d Ha Hb Hc Hd Hid.
    destruct (decide (a = i)) as [->|Ha'], (decide (b = i)) as [->|Hb']; auto.
    + rewrite Hw in Ha. injection Ha as <-. symmetry. apply (Honly b d); auto.
    + rewrite Hw in Hb. injection Hb as <-. apply (Honly a c); auto.
    + apply (Hu a b c d); auto.
  - apply findController_some. exists i. split; [done|]. split; [done|]. do 2 (split; [done|]).
    intros j d Hj Hd Hv Hid. assert (j = i) by (apply (Honly j d); auto; apply Ho; auto; lia). lia.
Qed.

(** ** Gates *)

Section Gates.
Context {W : Type} `{SP : SecurityPlatform W}.

(** A call that only records its result. *)
Definition onlyResult {A} (m : M (Sec * W) A) (s : Sec) (w : W) : Prop :=
  exists r, snd (m (s, w)) = (set_status (with_result r (status_ s)) s, w).

(** C15: no controller root is generated, stored or removed without its
    authorization: a pending root needs secure connections, encryption, bonding
    and physical confirmation; a commit needs those and the verified pairing
    commit; the recovery revocations need physical confirmation.  Otherwise the
    call only records its result: storage, table, keys and randomness are
    untouched. *)
Theorem controller_changes_gated s w secure encrypted bonded physical verified cid root role out :
  (secure && encrypted && bonded && physical = false ->
     onlyResult (generatePendingControllerRoot secure encrypted bonded physical out) s w /\
     fst (fst (generatePendingControllerRoot secure encrypted bonded physical out (s, w))) <> SecOk) /\
  (secure && encrypted && bonded && physical && verified = false ->
     onlyResult (commitControllerAfterPairing cid root secure encrypted bonded physical verified role) s w /\
     fst (commitControllerAfterPairing cid root secure encrypted bonded physical verified role (s, w)) <> SecOk) /\
  (physical = false ->
     onlyResult (revokeControllerAfterPhysicalConfirmation cid physical) s w /\
     onlyResult (revokeAllControllersAfterPhysicalConfirmation physical) s w).
Proof.
  unfold onlyResult. split; [|split].
  - intros Hg. unfold generatePendingControllerRoot, bind, self, gets. simpl. cbv [id].
    destruct (begun (status_ s)); simpl; [|split; [by eexists|discriminate]].
    destruct out; simpl; [|split; [by eexists|discriminate]].
    destruct secure, encrypted, bonded, physical; try discriminate Hg; simpl;
      (split; [by eexists|discriminate]).
  - intros Hg. unfold commitControllerAfterPairing, bind, self, gets. simpl. cbv [id].
    destruct (begun (status_ s)); simpl; [|split; [by eexists|discriminate]].
    destruct cid, root; simpl; try (split; [by eexists|discriminate]).
    destruct (negb (role =? Owner) && negb (role =? Caretaker)); [split; [by eexists|discriminate]|].
    destruct secure, encrypted, bonded, physical, verified; try discriminate Hg; simpl;
      (split; [by eexists|discriminate]).
  - intros ->. split.
    + unfold revokeControllerAfterPhysicalConfirmation, bind, self, gets. simpl. cbv [id].
      destruct (begun (status_ s)); simpl; [|by eexists]. destruct cid; by eexists.
    + unfold revokeAllControllersAfterPhysicalConfirmation, bind, self, gets. simpl. cbv [id].
      destruct (begun (status_ s)); by eexists.
Qed.
End Gates.

(** ** Commit and revoke *)

(** A begun device: four well-formed controllers with distinct ids, one of the
    two slots active. *)
Record SecWf (s : Sec) : Prop := {
  sw_begun : begun (status_ s) = true;
  sw_bound : bound s = true;
  sw_slot : slotOk s;
  sw_material : wfMaterial (material_ s);
  sw_unique : uniqueIds (controllers (material_ s));
}.

Section Table.
Context {W : Type} `{SP : SecurityPlatform W} `{HS : !HonestStore W}.
Implicit Types (s : Sec) (w : W).

(** Neither slot holds a record that would load a controller with this id. *)
Definition nowhereStored (key : list Z) (w : W) (cid : list Z) : Prop :=
  forall slot, slot = 0 \/ slot = 1 -> exists gen m,
    sealedFor key w slot gen m /\ findController (controllers m) cid 0 = None.

Lemma storeRevocation_erases i c cid s w :
  SecWf s -> controllerRetirementPending (material_ s) = false ->
  findController (controllers (material_ s)) cid 0 = Some (i, c) ->
  wp (storeRevocation (<[i := noController]> (controllers (material_ s))) (controllers (material_ s)))
     (secPost (fun r s' w' => r = SecOk ->
        findController (controllers (material_ s')) cid 0 = None /\
        controllerRetirementPending (material_ s') = false /\
        nowhereStored (wrappingKey_ s) w' cid)) (s, w).
Proof using HS.
  intros [] Hp Hf. eapply wp_secPost.
  - apply storeRevocation_wp; auto.
    + rewrite length_insert. apply sw_material0.
    + apply Forall_insert; [apply sw_material0|apply wf_noController].
  - intros r s' w' (_ & Hok & _). sec_done. intros Er. destruct (Hok Er) as (-> & -> & Hall).
    split; [by eapply find_cleared|]. split; [done|]. intros slot Hs.
    destruct (Hall slot Hs) as (gen & m & Hse & Em). exists gen, m. split; [done|].
    rewrite Em. by eapply find_cleared.
Qed.

Lemma retire_wf s w : SecWf s -> controllerRetirementPending (material_ s) = true ->
  wp retirePreviousSlot
     (secPost (fun r s' w' => r = SecOk ->
        SecWf s' /\ wrappingKey_ s' = wrappingKey_ s /\
        controllers (material_ s') = controllers (material_ s) /\
        controllerRetirementPending (material_ s') = false)) (s, w).
Proof using HS.
  intros [] Hp. eapply wp_secPost; [by apply retirePreviousSlot_wp|].
  intros r s' w' (B & K & Bg & _ & Hok & _). sec_done. intros Er.
  destruct (Hok Er) as (M & A & _). split; [|by rewrite M]. split; try congruence.
  - unfold slotOk. rewrite A. by destruct (otherSlot_cases _ sw_slot0).
  - rewrite M. by apply wf_with_pending.
  - by rewrite M.
Qed.


(** When a pairing commit reports success, looking the controller up gives
    exactly the root and role committed, every other controller's entry is
    unchanged, and the active slot holds a sealed record of the new table. *)
Theorem committed_controller_found cid root role s w s' w' :
  SecWf s -> length cid = kKitsuControllerIdBytes -> bytesOk cid ->
  length root = kKitsuSecretBytes -> bytesOk root ->
  commitControllerAfterPairing (Some cid) (Some root) true true true true true role (s, w) =
    (SecOk, (s', w')) ->
  findControllerRoot s' (Some cid) true = Some (root, role) /\
  (forall other, other <> cid ->
     findController (controllers (material_ s)) other 0 = None ->
     findController (controllers (material_ s')) other 0 = None) /\
  SecWf s' /\ sealedFor (wrappingKey_ s) w' (activeSlot (status_ s')) (generation (status_ s')) (material_ s').
Proof using HS.
  intros Hs Hcl Hco Hrl Hro Hrun. pose proof Hs as [Hb Hbd Hsl Hm Hu].
  eapply (wp_elim _ (secPost (fun r s' w' => r = SecOk ->
    findControllerRoot s' (Some cid) true = Some (root, role) /\
    (forall other, other <> cid ->
       findController (controllers (material_ s)) other 0 = None ->
       findController (controllers (material_ s')) other 0 = None) /\
    SecWf s' /\ sealedFor (wrappingKey_ s) w' (activeSlot (status_ s'))
      (generation (status_ s')) (material_ s')))) in Hrun; [by apply Hrun|].
  clear Hrun. unfold commitControllerAfterPairing. sec_run. cbv [id]. rewrite Hb.
  cbn [negb orb]. sec_step; [sec_run; by sec_done|].
  sec_step; [sec_run; by sec_done|].
  destruct (commitTarget (controllers (material_ s)) cid) as [i|] eqn:Et; [|sec_run; by sec_done].
  destruct (find_committed _ cid root role i Hu Et) as [Hu' Hf'].
  sec_run. set (s1 := set_material _ _).
  assert (Hm1 : wfMaterial (material_ s1)).
  { apply wf_with_controllers; [done|rewrite length_insert; apply Hm|].
    apply Forall_insert; [apply Hm|]. split; [by split|by split|].
    apply andb_false_iff in E. destruct E as [E|E]; apply negb_false_iff, Z.eqb_eq in E; auto. }
  eapply wp_secPost; [by apply persist_wp|].
  intros r s2 w2 ((K1 & K2 & K3 & K4 & K5) & _ & Hok & _). sec_step.
  destruct (decide (r = SecOk)) as [->|Hr].
  - rewrite bool_decide_eq_true_2 by done. simpl. sec_run. sec_done. intros _.
    destruct (Hok eq_refl) as (O1 & O2 & O3). split; [|split; [|split]].
    + unfold findControllerRoot. rewrite K4, K1. cbn [status_ begun]. simpl. rewrite Hb. simpl.
      by rewrite Hf'.
    + rewrite K1. intros other Hne Hn. apply findController_none. intros j d Hd Hv Hid.
      simpl in Hd. destruct (decide (j = i)) as [->|Hji].
      * assert (Hlt : (i < length (controllers (material_ s)))%nat)
          by (apply lookup_lt_Some in Hd; by rewrite length_insert in Hd).
        rewrite list_lookup_insert_eq in Hd by done. injection Hd as <-. by apply Hne.
      * rewrite list_lookup_insert_ne in Hd by done.
        by apply (proj1 (findController_none _ _ _) Hn j d).
    + split.
      * by rewrite K4.
      * by rewrite K2.
      * unfold slotOk. rewrite O1. unfold nextSlot. simpl.
        destruct (otherSlot_cases _ Hsl) as (Ho & _ & _ & ->). exact Ho.
      * by rewrite K1.
      * by rewrite K1.
    + rewrite O1, O2, K1. exact O3.
  - rewrite bool_decide_eq_false_2 by done. cbn [negb]. sec_run. by sec_done.
Qed.

(** C33: a commit that does not report success leaves the controller table in
    memory exactly as it was. *)
Theorem failed_commit_keeps_table cid root secure encrypted bonded physical verified role s w r s' w' :
  wfMaterial (material_ s) -> length cid = kKitsuControllerIdBytes -> bytesOk cid ->
  length root = kKitsuSecretBytes -> bytesOk root ->
  commitControllerAfterPairing (Some cid) (Some root) secure encrypted bonded physical verified role (s, w) =
    (r, (s', w')) -> r <> SecOk ->
  material_ s' = material_ s.
Proof using HS.
  intros Hm Hcl Hco Hrl Hro Hrun Hr. revert Hr.
  eapply (wp_elim _ (secPost (fun r s' _ => r <> SecOk -> material_ s' = material_ s))) in Hrun;
    [exact Hrun|]. clear Hrun.
  unfold commitControllerAfterPairing. sec_run. cbv [id].
  sec_step; [sec_run; by sec_done|]. sec_step; [sec_run; by sec_done|].
  sec_step; [sec_run; by sec_done|]. sec_step; [sec_run; by sec_done|].
  destruct (commitTarget (controllers (material_ s)) cid) as [i|] eqn:Et; [|sec_run; by sec_done].
  sec_run. set (s1 := set_material _ _).
  assert (Hm1 : wfMaterial (material_ s1)).
  { apply wf_with_controllers; [done|rewrite length_insert; apply Hm|].
    apply Forall_insert; [apply Hm|]. split; [by split|by split|].
    apply andb_false_iff in E0. destruct E0 as [E0|E0]; apply negb_false_iff, Z.eqb_eq in E0; auto. }
  eapply wp_secPost; [by apply persist_wp|].
  intros r2 s2 w2 ((K1 & _) & _). sec_step.
  destruct (decide (r2 = SecOk)) as [->|Hr2].
  - rewrite bool_decide_eq_true_2 by done. simpl. sec_run. by sec_done.
  - rewrite bool_decide_eq_false_2 by done. cbn [negb]. sec_run. sec_done. intros _.
    cbn [material_ set_material]. rewrite K1. cbn [material_ s1 set_material controllers with_controllers].
    rewrite list_insert_insert_eq. rewrite list_insert_id; [by destruct (material_ s)|].
    destruct Hm as [_ _ Hc _]. unfold commitTarget in Et.
    assert (Hi : (i < length (controllers (material_ s)))%nat).
    { destruct (findController _ cid 0) as [[k c]|] eqn:Ef.
      - injection Et as <-. apply findController_some in Ef as (k' & -> & Hk & _).
        by eapply lookup_lt_Some.
      - apply freeController_some in Et as (k & c & -> & Hk & _). by eapply lookup_lt_Some. }
    destruct (nth_lookup_or_length (controllers (material_ s)) i noController); [done|lia].
Qed.
End Table.
