(* ===== verification/DeviceSecurityBoot.v ===== *)
(** * Booting from the two slots

    What [begin] makes of the storage a crash or a clean shutdown left behind. *)

From S2P Require Import Prelude Crc Permissions DeviceSecurity DeviceSecurityFacts DeviceSecurityProtocol.

Open Scope kitsu_scope.

(** ** Generations *)

(** The generation comparison survives the wrap of its 32-bit counter: a
    generation up to 2^31 - 1 steps ahead is newer, and never older. *)
Theorem generationAfter_wraps g d : 0 < d < 2 ^ 31 ->
  generationAfter (u32 (g + d)) (u32 g) = true /\ generationAfter (u32 g) (u32 (g + d)) = false.
Proof.
  intros Hd. unfold generationAfter, s32.
  assert (E1 : u32 (u32 (g + d) - u32 g) = d).
  { unfold u32. rewrite <- Zminus_mod. replace (g + d - g) with d by lia. apply Z.mod_small. lia. }
  assert (E2 : u32 (u32 g - u32 (g + d)) = 2 ^ 32 - d).
  { unfold u32. rewrite <- Zminus_mod. replace (g - (g + d)) with (- d) by lia.
    rewrite Z.mod_opp_l_nz; rewrite ?Z.mod_small; lia. }
  rewrite E1, E2. split.
  - destruct (Z.ltb_spec d (2 ^ 31)); [|lia]. apply Z.ltb_lt. lia.
  - destruct (Z.ltb_spec (2 ^ 32 - d) (2 ^ 31)); [lia|]. apply Z.ltb_ge. lia.
Qed.

Lemma generationAfter_wraps_witness :
  generationAfter (u32 (0xffffffff + 2)) (u32 0xffffffff) = true /\
  generationAfter (u32 0xffffffff) (u32 (0xffffffff + 2)) = false.
Proof. apply (generationAfter_wraps 0xffffffff 2). lia. Defined.

(** ** A stored record passes the header checks *)

Lemma blob_fields gen nonce tag cipher :
  0 <= gen < 2 ^ 32 -> length nonce = kSecurityNonceBytes -> length tag = kSecurityTagBytes ->
  length cipher = kPlainBytes ->
  let blob := outerHeader gen nonce ++ tag ++ cipher in
  outerOk blob = true /\ length blob <> 0%nat /\ get32 (drop 8 blob) = gen /\
  slice 16 kSecurityNonceBytes blob = nonce /\ slice 28 kSecurityTagBytes blob = tag /\
  slice kOuterHeaderBytes kPlainBytes blob = cipher.
Proof.
  intros Hg Hn Ht Hc. cbv zeta. unfold kSecurityNonceBytes, kSecurityTagBytes in *.
  assert (Hl : length (outerHeader gen nonce ++ tag ++ cipher) = (kOuterHeaderBytes + kPlainBytes)%nat).
  { rewrite !length_app, Ht, Hc. unfold outerHeader. rewrite !length_app, Hn. reflexivity. }
  assert (E8 : get32 (drop 8 (outerHeader gen nonce ++ tag ++ cipher)) = gen).
  { unfold outerHeader. rewrite <- !app_assoc. apply (get32_put32 gen _). lia. }
  assert (Es : forall off n, slice (16 + off) n (outerHeader gen nonce ++ tag ++ cipher) =
    slice off n (nonce ++ tag ++ cipher)).
  { intros. unfold outerHeader. rewrite <- !app_assoc. reflexivity. }
  split.
  { unfold outerOk. rewrite Hl, Nat.eqb_refl. unfold outerHeader. rewrite <- !app_assoc. reflexivity. }
  split; [by rewrite Hl|]. split; [done|].
  change (slice 16 12) with (slice (16 + 0) 12). change (slice 28 16) with (slice (16 + 12) 16).
  change (slice kOuterHeaderBytes kPlainBytes) with (slice (16 + 28) 320). rewrite !Es.
  split; [by apply slice_here|]. split.
  - rewrite slice_skip by lia. rewrite Hn. by apply slice_here.
  - rewrite slice_skip by lia. rewrite slice_skip by lia. rewrite Hn, Ht. by apply slice_all.
Qed.

(** ** Reliable storage: every read and every derivation succeeds *)

Class ReliableStore (W : Type) `{HS : HonestStore W} := {
  wrapping : list Z -> list Z;
  read_reliable : forall t n w, exists w', readSlot t n w = (Some (slots w t), w') /\
    forall u, slots w' u = slots w u;
  mode_reflashable : forall w, securityMode w = SecurityModeReflashable;
  derive_reliable : forall hw w, exists w', deriveWrappingKey hw w = (Some (wrapping hw), w') /\
    forall u, slots w' u = slots w u;
}.

Section Boot.
Context {W : Type} `{SP : SecurityPlatform W} `{HS : !HonestStore W} `{RS : !ReliableStore W}.
Implicit Types (s : Sec) (w : W).

(** The slot holds a record sealed for [m] that opens. *)
Definition holds (key : list Z) (content : list Z) (gen : Z) (m : Material) : Prop :=
  exists nonce tag cipher,
    content = outerHeader gen nonce ++ tag ++ cipher /\ 0 <= gen < 2 ^ 32 /\
    length nonce = kSecurityNonceBytes /\ length tag = kSecurityTagBytes /\
    length cipher = kPlainBytes /\
    forall w1, exists w2, open key gen nonce cipher tag w1 = (Some (plainOf m), w2).

(** The slot is empty, torn, or does not authenticate. *)
Definition unusable (key : list Z) (content : list Z) : Prop :=
  outerOk content = false \/
  forall w1, exists w2, open key (get32 (drop 8 content)) (slice 16 kSecurityNonceBytes content)
    (slice kOuterHeaderBytes kPlainBytes content) (slice 28 kSecurityTagBytes content) w1 = (None, w2).

Lemma scan_holds slot gen m s w : wfMaterial m -> holds (wrappingKey_ s) (slots w slot) gen m ->
  wp (scanSlot slot)
     (secPost (fun r s' w' => s' = set_status (with_result SecOk (status_ s)) s /\
        (forall u, slots w' u = slots w u) /\ r = Some (mkSlot true gen true (plainOf m)))) (s, w).
Proof using RS.
  intros Hm (n & t & c & E & Hg & Hn & Ht & Hc & Hop).
  destruct (blob_fields gen n t c Hg Hn Ht Hc) as (Hok & Hne & E8 & E16 & E28 & E44).
  rewrite <- E in *. destruct (plain_round_trip m noMaterial Hm eq_refl) as (_ & Hp & _).
  unfold scanSlot, validateSlot. sec_run.
  destruct (read_reliable slot kSecurityBlobCapacity w) as (w1 & Er & Hu1).
  rewrite Er in H. injection H as <- <-. rewrite (proj2 (Nat.eqb_neq _ _) Hne), Hok. simpl. sec_run.
  rewrite E8, E16, E28, E44 in H. cbn [wrappingKey_ set_status] in H.
  destruct (Hop w1) as (w2 & Eo). pose proof (open_honest _ _ _ _ _ _ _ _ Eo) as Hu2.
  rewrite Eo in H. injection H as <- <-. rewrite Hp. simpl. sec_run. sec_done.
  split; [done|]. split; [intros; by rewrite Hu2, Hu1|]. by rewrite E8.
Qed.

Lemma scan_unusable slot s w : unusable (wrappingKey_ s) (slots w slot) ->
  wp (scanSlot slot)
     (secPost (fun r s' w' => (exists e, s' = set_status (with_result e (status_ s)) s) /\
        (forall u, slots w' u = slots w u) /\
        exists v, r = Some v /\ sv_valid v = false)) (s, w).
Proof using RS.
  intros Hbad. unfold scanSlot, validateSlot. sec_run.
  destruct (read_reliable slot kSecurityBlobCapacity w) as (w1 & Er & Hu1).
  rewrite Er in H. injection H as <- <-.
  destruct (length (slots w slot) =? 0)%nat.
  { sec_run. sec_done. split; [by eexists|]. split; [done|]. by eexists. }
  destruct (outerOk (slots w slot)) eqn:Eok; simpl.
  - destruct Hbad as [?|Hop]; [congruence|]. sec_run. destruct (Hop w1) as (w2 & Eo).
    pose proof (open_honest _ _ _ _ _ _ _ _ Eo) as Hu2.
    cbn [wrappingKey_ set_status] in H. rewrite Eo in H. injection H as <- <-. sec_run. sec_done.
    split; [by eexists|]. split; [intros; by rewrite Hu2, Hu1|]. by eexists.
  - sec_run. sec_done. split; [by eexists|]. split; [done|]. by eexists.
Qed.

(** The loading branch on a record without pending work. *)
Lemma loadChosen_wp slot gen m s w :
  wfMaterial m -> controllerRetirementPending m = false ->
  length (controllers (material_ s)) = kKitsuControllerCapacity ->
  holds (wrappingKey_ s) (slots w slot) gen m ->
  wp (loadChosen slot)
     (secPost (fun r s' w' => r = None /\ material_ s' = m /\
        activeSlot (status_ s') = slot /\ generation (status_ s') = gen)) (s, w).
Proof using RS.
  intros Hm Hp Hl Hh. unfold loadChosen. sec_run.
  assert (Hv : wp (validateSlot slot) (secPost (fun v s' w' => s' = s /\
    v = mkSlot true gen true (plainOf m))) (s, w)).
  { destruct Hh as (n & t & c & E & Hg & Hn & Ht & Hc & Hop).
    destruct (blob_fields gen n t c Hg Hn Ht Hc) as (Hok & Hne & E8 & E16 & E28 & E44).
    rewrite <- E in *. destruct (plain_round_trip m noMaterial Hm eq_refl) as (_ & Hpo & _).
    unfold validateSlot. sec_run.
    destruct (read_reliable slot kSecurityBlobCapacity w) as (w1 & Er & Hu1).
    rewrite Er in H. injection H as <- <-. rewrite (proj2 (Nat.eqb_neq _ _) Hne), Hok. simpl. sec_run.
    rewrite E8, E16, E28, E44 in H. destruct (Hop w1) as (w2 & Eo).
    rewrite Eo in H. injection H as <- <-. rewrite Hpo. simpl. sec_run. sec_done.
    by rewrite E8. }
  eapply wp_secPost; [exact Hv|]. intros v s1 w1 (-> & ->). simpl. sec_run.
  destruct (plain_round_trip m (material_ s) Hm Hl) as (_ & _ & ->). simpl. sec_run.
  rewrite Hp. sec_run. cbn. sec_run. by sec_done.
Qed.

(** Booting loads the newer usable record.  If one slot holds a sealed
    record without pending work and the other is empty, torn, unauthenticated
    or holds an older record, [begin] succeeds on any device object and its
    table, identity, active slot and generation are those of that record. *)
Theorem boot_loads_newest hw gen m a b s w :
  (a = 0 /\ b = 1 \/ a = 1 /\ b = 0) ->
  wfMaterial m -> controllerRetirementPending m = false ->
  holds (wrapping hw) (slots w a) gen m ->
  unusable (wrapping hw) (slots w b) \/
    (exists g old, wfMaterial old /\ holds (wrapping hw) (slots w b) g old /\
       generationAfter gen g = true /\ generationAfter g gen = false) ->
  exists s' w', begin (Some hw) (s, w) = (OkReflashable, (s', w')) /\
    material_ s' = m /\ begun (status_ s') = true /\
    activeSlot (status_ s') = a /\ generation (status_ s') = gen.
Proof using RS.
  intros Hab Hm Hp Ha Hb.
  assert (Hwp : wp (begin (Some hw)) (secPost (fun r s' w' => r = OkReflashable /\
    material_ s' = m /\ begun (status_ s') = true /\
    activeSlot (status_ s') = a /\ generation (status_ s') = gen)) (s, w)).
  { unfold begin, clear. sec_run. cbv [gets] in H. rewrite mode_reflashable in H. injection H as <- <-.
    simpl. sec_run. destruct (derive_reliable hw w) as (w1 & Ed & Hu1).
    rewrite Ed in H. injection H as <- <-. sec_run.
    set (s1 := set_wrappingKey (wrapping hw) _).
    rewrite <- (Hu1 a) in Ha. rewrite <- (Hu1 b) in Hb.
    (* the two scans, in either order *)
    assert (Hscan : forall u, u = 0 \/ u = 1 -> forall s2 w2,
      wrappingKey_ s2 = wrapping hw -> (forall t, slots w2 t = slots w1 t) ->
      wp (scanSlot u) (secPost (fun r s3 w3 =>
        (exists e, s3 = set_status (with_result e (status_ s2)) s2) /\
        (forall t, slots w3 t = slots w1 t) /\
        exists v, r = Some v /\
          (u = a -> v = mkSlot true gen true (plainOf m)) /\
          (u = b -> sv_valid v = false \/
             exists g, sv_generation v = g /\ sv_valid v = true /\
               generationAfter gen g = true /\ generationAfter g gen = false))) (s2, w2)).
    { intros u Hu s2 w2 Hk Hsl.
      assert (Hua : u = a \/ u = b) by (destruct Hab as [[-> ->]|[-> ->]]; tauto).
      assert (Hne : a <> b) by (destruct Hab as [[-> ->]|[-> ->]]; lia).
      destruct Hua as [->| ->].
      - eapply wp_secPost; [eapply (scan_holds a gen m); [done|by rewrite Hk, Hsl]|].
        intros r s3 w3 (-> & Hu3 & ->). sec_done. split; [by eexists|].
        split; [intros; by rewrite Hu3, Hsl|]. eexists. split; [done|]. split; [done|]. congruence.
      - destruct Hb as [Hb|(g & old & Hwo & Hho & G1 & G2)].
        + eapply wp_secPost; [eapply scan_unusable; by rewrite Hk, Hsl|].
          intros r s3 w3 (He & Hu3 & v & -> & Hv). sec_done. split; [done|].
          split; [intros; by rewrite Hu3, Hsl|]. exists v. split; [done|].
          split; [congruence|]. auto.
        + eapply wp_secPost; [eapply (scan_holds b g old); [done|by rewrite Hk, Hsl]|].
          intros r s3 w3 (-> & Hu3 & ->). sec_done. split; [by eexists|].
          split; [intros; by rewrite Hu3, Hsl|]. eexists. split; [done|]. split; [congruence|].
          intros _. right. by exists g. }
    eapply wp_secPost; [apply (Hscan 0); auto|].
    intros r0 s2 w2 ((e2 & ->) & Hs2 & v0 & -> & Va0 & Vb0). sec_run.
    eapply wp_secPost; [apply (Hscan 1); auto|].
    intros r1 s3 w3 ((e3 & ->) & Hs3 & v1 & -> & Va1 & Vb1). sec_run.
    assert (Hch : chooseSlot v0 v1 = a).
    { unfold chooseSlot. destruct Hab as [[-> ->]|[-> ->]].
      - rewrite (Va0 eq_refl). simpl. destruct (Vb1 eq_refl) as [->|(g & <- & -> & _ & ->)]; done.
      - rewrite (Va1 eq_refl). simpl. destruct (Vb0 eq_refl) as [->|(g & <- & -> & -> & _)]; done. }
    rewrite Hch. assert ((0 <=? a) = true) as -> by (apply Z.leb_le; lia).
    eapply wp_secPost; [eapply (loadChosen_wp a gen m); auto|].
    - simpl. by rewrite Hs3.
    - intros r s4 w4 (-> & M & A & G). sec_run. by sec_done. }
  unfold wp, secPost in Hwp. destruct (begin (Some hw) (s, w)) as [r [s' w']].
  simpl in Hwp. destruct Hwp as (-> & ?). by exists s', w'.
Qed.
End Boot.
