(* ===== verification/DeviceSecuritySim.v ===== *)
(** * A simulated store for the device root

    Two slots in memory, a counter for randomness and a toy authenticated
    cipher: a concrete platform on which the hypotheses of the protocol hold and
    its theorems are run. *)

From S2P Require Import Prelude Crc Permissions DeviceSecurity DeviceSecurityFacts.
From S2P Require Import DeviceSecurityProtocol DeviceSecurityBoot.

Open Scope kitsu_scope.

Record SimStore := mkStore {
  st_slot0 : list Z;
  st_slot1 : list Z;
  st_counter : Z;
}.

Definition simSlots (w : SimStore) (t : Z) : list Z :=
  if t =? 0 then st_slot0 w else if t =? 1 then st_slot1 w else [].

Definition simWrite (t : Z) (b : list Z) (w : SimStore) : SimStore :=
  if t =? 0 then mkStore b (st_slot1 w) (st_counter w)
  else if t =? 1 then mkStore (st_slot0 w) b (st_counter w) else w.

(** A tag that binds key, generation, nonce and text. *)
Definition simTag (key : list Z) (gen : Z) (nonce text : list Z) : list Z :=
  replicate kSecurityTagBytes
    (u8 (fold_left (fun acc b => u8 (3 * acc + b + 1)) (key ++ put32 gen ++ nonce ++ text) 0)).

#[export] Instance SimSecurity : SecurityPlatform SimStore := {|
  readSlot t n := gets (fun w => Some (simSlots w t));
  writeSlot t b := fun w => if (t =? 0) || (t =? 1) then (true, simWrite t b w) else (false, w);
  clearSlot t := fun w => (true, simWrite t [] w);
  securityMode w := SecurityModeReflashable;
  deriveWrappingKey hw := ret (Some (take kKitsuSecretBytes (hw ++ replicate kKitsuSecretBytes 9)));
  randomBytes n := fun w =>
    (Some (replicate n (u8 (st_counter w))), mkStore (st_slot0 w) (st_slot1 w) (st_counter w + 1));
  seal key gen nonce text := ret (Some (text, simTag key gen nonce text));
  open key gen nonce text tag :=
    ret (if beq tag (simTag key gen nonce text) then Some text else None);
  hkdfSha256 key salt info n := ret (Some (replicate n 5));
|}.

#[export] Program Instance SimHonest : HonestStore SimStore := {| slots := simSlots |}.
Next Obligation. intros t n w r w' [= <- <-]. split; [done|]. by intros l [= <-]. Qed.
Next Obligation.
  intros t b w ok w'. unfold writeSlot. simpl. unfold simWrite, simSlots.
  destruct (Z.eqb_spec t 0) as [->|H0]; simpl.
  - intros [= <- <-]. split; [|done]. intros u Hu. simpl. by rewrite (proj2 (Z.eqb_neq u 0)).
  - destruct (Z.eqb_spec t 1) as [->|H1]; simpl.
    + intros [= <- <-]. split; [|done]. intros u Hu. simpl. by rewrite (proj2 (Z.eqb_neq u 1)).
    + intros [= <- <-]. done.
Qed.
Next Obligation.
  intros t w ok w'. unfold clearSlot. simpl. unfold simWrite, simSlots.
  intros [= <- <-]. destruct (Z.eqb_spec t 0) as [->|H0]; simpl.
  - split; [|done]. intros u Hu. by rewrite (proj2 (Z.eqb_neq u 0)).
  - destruct (Z.eqb_spec t 1) as [->|H1]; simpl; [|done].
    split; [|done]. intros u Hu. by rewrite (proj2 (Z.eqb_neq u 1)).
Qed.
Next Obligation.
  intros n w r w' [= <- <-]. split; [done|]. intros l [= <-].
  split; [apply length_replicate|]. apply Forall_replicate. apply u8_range.
Qed.
Next Obligation.
  intros k g n p w r w' [= <- <-]. split; [done|]. intros c t [= <- <-].
  split; [done|]. split; [apply length_replicate|]. intros w1 q w2.
  unfold open, SimSecurity, ret. rewrite beq_refl. by intros [= <- _].
Qed.
Next Obligation. by intros k g n c t w r w' [= _ <-]. Qed.

#[export] Program Instance SimReliable : ReliableStore SimStore := {|
  wrapping hw := take kKitsuSecretBytes (hw ++ replicate kKitsuSecretBytes 9)
|}.
Next Obligation. intros t n w. by exists w. Qed.
Next Obligation. done. Qed.
Next Obligation. intros hw w. by exists w. Qed.

(** ** A device with one caretaker *)

Definition demoHw : list Z := [1; 2; 3; 4; 5; 6; 7; 8].
Definition demoCid : list Z := replicate 16 3.
Definition demoTable : Material := with_pending false demoMaterial.
Definition demoStatus : DeviceSecurityStatus := mkStatus OkReflashable 0 true true false 1 0 7.
Definition demoSec : Sec := mkSec true demoTable demoStatus demoHw (wrapping demoHw).

Definition demoBlob (gen : Z) (m : Material) : list Z :=
  let nonce := replicate kSecurityNonceBytes 6 in
  outerHeader gen nonce ++ simTag (wrapping demoHw) gen nonce (plainOf m) ++ plainOf m.

Definition demoStore : SimStore := mkStore (demoBlob 7 demoTable) [] 40.

Lemma demoTable_wf : wfMaterial demoTable.
Proof. apply wf_with_pending, demoMaterial_wf. Qed.

Lemma demoSec_wf : SecWf demoSec.
Proof.
  split; [done|done|by left|apply demoTable_wf|].
  intros i j c d Hc Hd Hvc Hvd _.
  destruct i as [|[|[|[|i]]]]; simpl in Hc; try discriminate; injection Hc as <-; try discriminate Hvc;
    destruct j as [|[|[|[|j]]]]; simpl in Hd; try discriminate; injection Hd as <-; try discriminate Hvd.
  done.
Qed.

Definition demoRevoke : SecurityResult * (Sec * SimStore) := revokeController demoCid (demoSec, demoStore).

Strategy expand [demoRevoke].

Lemma outcome_eta {A B C} (x : A * (B * C)) a : fst x = a -> x = (a, (fst (snd x), snd (snd x))).
Proof. destruct x as [? [? ?]]. by intros <-. Qed.


Definition newCid : list Z := replicate 16 8.
Definition newRoot : list Z := replicate 32 77.
Definition demoCommit : SecurityResult * (Sec * SimStore) :=
  commitControllerAfterPairing (Some newCid) (Some newRoot) true true true true true Owner
    (demoSec, demoStore).

Strategy expand [demoCommit].

Lemma demo_bytes n v : 0 <= v < 256 -> bytesOk (replicate n v).
Proof. intros Hv. by apply Forall_replicate. Qed.

Lemma committed_controller_found_witness :
  findControllerRoot (fst (snd demoCommit)) (Some newCid) true = Some (newRoot, Owner).
Proof.
  assert (Er : demoCommit = (SecOk, (fst (snd demoCommit), snd (snd demoCommit)))).
  { apply outcome_eta. vm_compute. reflexivity. }
  unfold demoCommit in Er at 1.
  refine (proj1 (committed_controller_found newCid newRoot Owner demoSec demoStore _ _
    demoSec_wf eq_refl _ eq_refl _ Er)); apply demo_bytes; lia.
Defined.

(** A full table: the commit is refused. *)
Definition fullTable : Material :=
  with_controllers (map (fun k => mkController true Owner (replicate 16 k) (replicate 32 k)) [11; 12; 13; 14])
    demoTable.

Lemma fullTable_wf : wfMaterial fullTable.
Proof.
  apply wf_with_controllers; [apply demoTable_wf|done|].
  repeat (constructor; [split; [split; [done|apply demo_bytes; lia]|split; [done|apply demo_bytes; lia]|by left]|]).
  constructor.
Qed.

Definition fullSec : Sec := mkSec true fullTable demoStatus demoHw (wrapping demoHw).

Definition fullCommit : SecurityResult * (Sec * SimStore) :=
  commitControllerAfterPairing (Some newCid) (Some newRoot) true true true true true Owner
    (fullSec, demoStore).

Lemma failed_commit_keeps_table_witness :
  fst fullCommit = ControllerTableFull /\ material_ (fst (snd fullCommit)) = fullTable.
Proof.
  assert (Er : fst fullCommit = ControllerTableFull) by (vm_compute; reflexivity).
  split; [exact Er|].
  refine (failed_commit_keeps_table newCid newRoot true true true true true Owner fullSec demoStore
    (fst fullCommit) (fst (snd fullCommit)) (snd (snd fullCommit)) fullTable_wf _ _ _ _ _ _);
    [reflexivity|apply demo_bytes; lia|reflexivity|apply demo_bytes; lia| |rewrite Er; discriminate].
  unfold fullCommit. by rewrite <- !surjective_pairing.
Defined.

Lemma controller_changes_gated_witness :
  fst (commitControllerAfterPairing (Some newCid) (Some newRoot) true true true false true Owner
    (demoSec, demoStore)) <> SecOk.
Proof.
  refine (proj2 (proj1 (proj2 (controller_changes_gated demoSec demoStore true true true false true
    (Some newCid) (Some newRoot) Owner true)) _)). reflexivity.
Defined.

Lemma demoBlob_holds gen m w slot : 0 <= gen < 2 ^ 32 -> wfMaterial m ->
  simSlots w slot = demoBlob gen m -> holds (wrapping demoHw) (slots w slot) gen m.
Proof.
  intros Hg Hm E. exists (replicate kSecurityNonceBytes 6),
    (simTag (wrapping demoHw) gen (replicate kSecurityNonceBytes 6) (plainOf m)), (plainOf m).
  split; [exact E|]. split; [done|]. split; [done|]. split; [apply length_replicate|].
  split; [by apply (plain_round_trip m noMaterial Hm eq_refl)|].
  intros w1. exists w1. unfold open, SimSecurity, ret. by rewrite beq_refl.
Qed.

(** Slot 1 was torn by a power loss; slot 0 still boots. *)
Lemma boot_loads_newest_witness :
  exists s' w', begin (Some demoHw) (sec0, mkStore (demoBlob 7 demoTable) (bytes_of "KSEC torn") 0) =
      (OkReflashable, (s', w')) /\ material_ s' = demoTable /\ begun (status_ s') = true /\
      activeSlot (status_ s') = 0 /\ generation (status_ s') = 7.
Proof.
  apply (boot_loads_newest demoHw 7 demoTable 0 1 sec0 (mkStore (demoBlob 7 demoTable) (bytes_of "KSEC torn") 0)).
  - left. split; reflexivity.
  - exact demoTable_wf.
  - reflexivity.
  - apply demoBlob_holds; [lia|exact demoTable_wf|reflexivity].
  - left. left. vm_compute. reflexivity.
Defined.
