(* ===== verification/NearbyProtocol.v ===== *)
(** * Nearby-pet protocol v2 (src/src/kitsu_nearby_protocol.h, .cpp)

    The 26-byte packets two Kitsu devices exchange directly: presence, an
    action request and its acknowledgement, a CRC-16 over the first 24 bytes,
    and the exact replay token. *)

From S2P Require Import Prelude.

Open Scope Z_scope.

(** ** Data *)

Definition kMagic0 : Z := 0x4B.
Definition kMagic1 : Z := 0x38.
Definition kProtocolVersion : Z := 2.
Definition kWireBytes : nat := 26.
Definition kMaxAppearance : Z := 31.
Definition kMaxEvolutionStage : Z := 7.
Definition kMaxBond : Z := 100.
Definition kMaxMood : Z := 15.
Definition kMaxEmote : Z := 15.
Definition kReservedOffset : nat := 23.
Definition kIntegrityOffset : nat := 24.

(** The three enumerations have [uint8_t] underneath and are cast from wire
    bytes, so a value is any byte. *)
Definition PacketType : Type := Z.
Definition Presence : PacketType := 1.
Definition ActionRequest : PacketType := 2.
Definition ActionResult : PacketType := 3.

Definition PositiveAction : Type := Z.
Definition ActionNone : PositiveAction := 0.
Definition ActionPet : PositiveAction := 1.
Definition ActionGreet : PositiveAction := 2.
Definition ActionPlay : PositiveAction := 3.
Definition ActionGift : PositiveAction := 4.

Definition ActionOutcome : Type := Z.
Definition OutcomeNone : ActionOutcome := 0.
Definition Accepted : ActionOutcome := 1.
Definition Declined : ActionOutcome := 2.
Definition Busy : ActionOutcome := 3.
Definition Disabled : ActionOutcome := 4.

Record Packet := mkPacket {
  type_ : PacketType;
  sourceUid : Z;
  targetUid : Z;
  sessionNonce : Z;
  requestSequence : Z;
  action : PositiveAction;
  result : ActionOutcome;
  packId : Z;
  appearance : Z;
  evolutionStage : Z;
  bond : Z;
  mood : Z;
  emote : Z;
}.

Inductive Status :=
  | Ok | NullArgument | WrongLength | BufferTooSmall | BadMagic | UnsupportedVersion
  | UnsupportedType | InvalidSourceUid | InvalidTargetUid | SelfTarget
  | InvalidSessionNonce | InvalidRequestSequence | UnsupportedAction
  | UnsupportedResult | InvalidPackId | InvalidAppearance | InvalidEvolutionStage
  | InvalidBond | InvalidMood | InvalidEmote | UnexpectedField | IntegrityMismatch.

#[export] Instance Status_eq_dec : EqDecision Status.
Proof. solve_decision. Defined.

(** ** Validation *)

Definition supportedPacketType (t : PacketType) : bool :=
  (t =? Presence) || (t =? ActionRequest) || (t =? ActionResult).

Definition profileFieldsAreZero (p : Packet) : bool :=
  (packId p =? 0) && (appearance p =? 0) && (evolutionStage p =? 0) &&
  (bond p =? 0) && (mood p =? 0) && (emote p =? 0).

Definition supportedPositiveAction (a : PositiveAction) : bool :=
  (a =? ActionPet) || (a =? ActionGreet) || (a =? ActionPlay) || (a =? ActionGift).

Definition supportedActionResult (r : ActionOutcome) : bool :=
  (r =? Accepted) || (r =? Declined) || (r =? Busy) || (r =? Disabled).

Definition validate (p : Packet) : Status :=
  if negb (supportedPacketType (type_ p)) then UnsupportedType
  else if sourceUid p =? 0 then InvalidSourceUid
  else if sessionNonce p =? 0 then InvalidSessionNonce
  else if type_ p =? Presence then
    if targetUid p =? sourceUid p then SelfTarget
    else if negb (requestSequence p =? 0) then InvalidRequestSequence
    else if negb (action p =? ActionNone) then UnsupportedAction
    else if negb (result p =? OutcomeNone) then UnsupportedResult
    else if packId p =? 0 then InvalidPackId
    else if kMaxAppearance <? appearance p then InvalidAppearance
    else if kMaxEvolutionStage <? evolutionStage p then InvalidEvolutionStage
    else if kMaxBond <? bond p then InvalidBond
    else if kMaxMood <? mood p then InvalidMood
    else if kMaxEmote <? emote p then InvalidEmote
    else Ok
  else if targetUid p =? 0 then InvalidTargetUid
  else if targetUid p =? sourceUid p then SelfTarget
  else if requestSequence p =? 0 then InvalidRequestSequence
  else if negb (supportedPositiveAction (action p)) then UnsupportedAction
  else if negb (profileFieldsAreZero p) then UnexpectedField
  else if type_ p =? ActionRequest then
    if result p =? OutcomeNone then Ok else UnsupportedResult
  else if supportedActionResult (result p) then Ok else UnsupportedResult.

(** ** CRC-16/CCITT-FALSE *)

Definition crc16Bit (crc : Z) : Z :=
  if negb (Z.land crc 0x8000 =? 0)
  then u16 (Z.lxor (Z.shiftl crc 1) 0x1021)
  else u16 (Z.shiftl crc 1).

Definition crc16Byte (crc b : Z) : Z :=
  Nat.iter 8 crc16Bit (u16 (Z.lxor crc (u16 (Z.shiftl b 8)))).

(** [None] is the null pointer. *)
Definition crc16CcittFalse (data : option (list Z)) (length : nat) : Z :=
  match data with
  | None => if (length =? 0)%nat then 0xFFFF else 0
  | Some l => fold_left crc16Byte (take length l) 0xFFFF
  end.

Example crc16_check : crc16CcittFalse (Some (bytes_of "123456789")) 9 = 0x29b1.
Proof. vm_compute. reflexivity. Qed.

(** ** Wire codec *)

Definition wireBody (p : Packet) : list Z :=
  [kMagic0; kMagic1; kProtocolVersion; type_ p] ++ put16 (sourceUid p) ++ put16 (targetUid p) ++
  put32 (sessionNonce p) ++ put16 (requestSequence p) ++ [action p; result p] ++
  put32 (packId p) ++
  [u8 (Z.lor (appearance p) (Z.shiftl (evolutionStage p) 5)); bond p;
   u8 (Z.lor (mood p) (Z.shiftl (emote p) 4)); 0].

(** [encode]: the status, and the bytes stored in [output] with their number in
    [bytesWritten]. [capacity = None] is the null output pointer. On a failure
    nothing is stored. *)
Definition encode (p : Packet) (capacity : option nat) : Status * list Z :=
  match capacity with
  | None => (NullArgument, [])
  | Some capacity =>
      if (capacity <? kWireBytes)%nat then (BufferTooSmall, [])
      else match validate p with
           | Ok => (Ok, wireBody p ++ put16 (crc16CcittFalse (Some (wireBody p)) kIntegrityOffset))
           | failure => (failure, [])
           end
  end.

Definition candidateOf (wire : list Z) : Packet :=
  {| type_ := byte_at wire 3;
     sourceUid := get16 (drop 4 wire);
     targetUid := get16 (drop 6 wire);
     sessionNonce := get32 (drop 8 wire);
     requestSequence := get16 (drop 12 wire);
     action := byte_at wire 14;
     result := byte_at wire 15;
     packId := get32 (drop 16 wire);
     appearance := u8 (Z.land (byte_at wire 20) 0x1F);
     evolutionStage := u8 (Z.shiftr (byte_at wire 20) 5);
     bond := byte_at wire 21;
     mood := u8 (Z.land (byte_at wire 22) 0x0F);
     emote := u8 (Z.shiftr (byte_at wire 22) 4) |}.

(** [decode]: the status, and the packet stored in [output] (kept on a
    failure). *)
Definition decode (wire : option (list Z)) (output : Packet) : Status * Packet :=
  match wire with
  | None => (NullArgument, output)
  | Some wire =>
      if negb (length wire =? kWireBytes)%nat then (WrongLength, output)
      else if negb (byte_at wire 0 =? kMagic0) || negb (byte_at wire 1 =? kMagic1)
      then (BadMagic, output)
      else if negb (byte_at wire 2 =? kProtocolVersion) then (UnsupportedVersion, output)
      else if negb (supportedPacketType (byte_at wire 3)) then (UnsupportedType, output)
      else if negb (byte_at wire kReservedOffset =? 0) then (UnexpectedField, output)
      else if negb (get16 (drop kIntegrityOffset wire) =?
                    crc16CcittFalse (Some wire) kIntegrityOffset)
      then (IntegrityMismatch, output)
      else match validate (candidateOf wire) with
           | Ok => (Ok, candidateOf wire)
           | failure => (failure, output)
           end
  end.

Definition statusName (status : Status) : string :=
  match status with
  | Ok => "ok"
  | NullArgument => "null_argument"
  | WrongLength => "wrong_length"
  | BufferTooSmall => "buffer_too_small"
  | BadMagic => "bad_magic"
  | UnsupportedVersion => "unsupported_version"
  | UnsupportedType => "unsupported_type"
  | InvalidSourceUid => "invalid_source_uid"
  | InvalidTargetUid => "invalid_target_uid"
  | SelfTarget => "self_target"
  | InvalidSessionNonce => "invalid_session_nonce"
  | InvalidRequestSequence => "invalid_request_sequence"
  | UnsupportedAction => "unsupported_action"
  | UnsupportedResult => "unsupported_result"
  | InvalidPackId => "invalid_pack_id"
  | InvalidAppearance => "invalid_appearance"
  | InvalidEvolutionStage => "invalid_evolution_stage"
  | InvalidBond => "invalid_bond"
  | InvalidMood => "invalid_mood"
  | InvalidEmote => "invalid_emote"
  | UnexpectedField => "unexpected_field"
  | IntegrityMismatch => "integrity_mismatch"
  end.

(** ** Replay token and acknowledgement *)

Record DuplicateToken := mkToken {
  token_valid : Z;
  token_type : Z;
  token_sourceUid : Z;
  token_targetUid : Z;
  token_sessionNonce : Z;
  token_requestSequence : Z;
  token_action : Z;
}.

Definition noToken : DuplicateToken := mkToken 0 0 0 0 0 0 0.

Definition makeDuplicateToken (p : Packet) : DuplicateToken :=
  match validate p with
  | Ok => mkToken 1 (type_ p) (sourceUid p) (targetUid p) (sessionNonce p)
            (requestSequence p) (action p)
  | _ => noToken
  end.

Definition validPacket (p : Packet) : bool := bool_decide (validate p = Ok).

Definition isDuplicate (previous : DuplicateToken) (candidate : Packet) : bool :=
  (token_valid previous =? 1) && validPacket candidate &&
  (token_type previous =? type_ candidate) &&
  (token_sourceUid previous =? sourceUid candidate) &&
  (token_targetUid previous =? targetUid candidate) &&
  (token_sessionNonce previous =? sessionNonce candidate) &&
  (token_requestSequence previous =? requestSequence candidate) &&
  (token_action previous =? action candidate).

Definition actionResultAcknowledges (request reply : Packet) : bool :=
  validPacket request && (type_ request =? ActionRequest) &&
  validPacket reply && (type_ reply =? ActionResult) &&
  (sourceUid reply =? targetUid request) &&
  (targetUid reply =? sourceUid request) &&
  (sessionNonce reply =? sessionNonce request) &&
  (requestSequence reply =? requestSequence request) &&
  (action reply =? action request).

(** [makeActionResult]: the packet stored in [output], [None] when it returns
    false. *)
Definition makeActionResult (request : Packet) (outcome : ActionOutcome) : option Packet :=
  if negb (validPacket request) || negb (type_ request =? ActionRequest) ||
     negb (supportedActionResult outcome)
  then None
  else Some {| type_ := ActionResult; sourceUid := targetUid request;
               targetUid := sourceUid request; sessionNonce := sessionNonce request;
               requestSequence := requestSequence request; action := action request;
               result := outcome; packId := 0; appearance := 0; evolutionStage := 0;
               bond := 0; mood := 0; emote := 0 |}.

(** ** The C types of the fields *)

Record widthsOk (p : Packet) : Prop := {
  w_type : isByte (type_ p);
  w_source : 0 <= sourceUid p < 65536;
  w_target : 0 <= targetUid p < 65536;
  w_nonce : 0 <= sessionNonce p < 4294967296;
  w_sequence : 0 <= requestSequence p < 65536;
  w_action : isByte (action p);
  w_result : isByte (result p);
  w_pack : 0 <= packId p < 4294967296;
  w_appearance : isByte (appearance p);
  w_stage : isByte (evolutionStage p);
  w_bond : isByte (bond p);
  w_mood : isByte (mood p);
  w_emote : isByte (emote p);
}.
