(* ===== verification/NearbyFacts.v ===== *)
(** * The nearby protocol: codec, damage detection, replay and acknowledgement *)

From S2P Require Import Prelude NearbyProtocol.

Open Scope Z_scope.

(** ** Packed fields *)

(** The two packed bytes of the packet, for the field widths in use. *)
Lemma packed_byte a b n k :
  0 <= n -> 0 <= k -> n + k = 8 -> 0 <= a < 2 ^ n -> 0 <= b < 2 ^ k ->
  let x := u8 (Z.lor a (Z.shiftl b n)) in
  u8 (Z.land x (Z.ones n)) = a /\ u8 (Z.shiftr x n) = b.
Proof.
  intros Hn Hk Hs Ha Hb x. pose proof (pack_range a b n k Hn Hk Ha Hb) as Hr. rewrite Hs in Hr.
  assert (Hx : x = Z.lor a (Z.shiftl b n)).
  { apply u8_id. split; [|lia]. apply Z.lor_nonneg. split; [lia|]. apply Z.shiftl_nonneg. lia. }
  assert (2 ^ n <= 256) by (change 256 with (2 ^ 8); apply Z.pow_le_mono_r; lia).
  assert (2 ^ k <= 256) by (change 256 with (2 ^ 8); apply Z.pow_le_mono_r; lia).
  rewrite Hx, pack_low, pack_high by done. split; apply u8_id; lia.
Qed.

Lemma byte_unpacked x n : 0 <= n -> isByte x ->
  u8 (Z.lor (u8 (Z.land x (Z.ones n))) (Z.shiftl (u8 (Z.shiftr x n)) n)) = x.
Proof.
  intros Hn Hx. unfold isByte in Hx.
  pose proof (land_range 8 x (Z.ones n)) as Hl. assert (0 <= Z.ones n) by (rewrite Z.ones_equiv; pose proof (Z.pow_pos_nonneg 2 n); lia).
  pose proof (shiftr_range 8 x n Hn) as Hr.
  rewrite (u8_id (Z.land _ _)) by (apply Hl; lia). rewrite (u8_id (Z.shiftr _ _)) by (apply Hr; lia).
  rewrite unpack_pack by lia. by apply u8_id.
Qed.

(** ** What validation promises *)

(** Every guard of a validation that ended with [Ok]. *)
Ltac split_guards H :=
  repeat match type of H with
  | context [if ?c then _ else _] => let E := fresh "V" in destruct c eqn:E; try discriminate H
  end.

Lemma validate_type p : validate p = Ok -> supportedPacketType (type_ p) = true.
Proof. intros H. unfold validate in H. by destruct (supportedPacketType (type_ p)). Qed.

Lemma validate_fields p : widthsOk p -> validate p = Ok ->
  0 <= appearance p < 2 ^ 5 /\ 0 <= evolutionStage p < 2 ^ 3 /\
  0 <= mood p < 2 ^ 4 /\ 0 <= emote p < 2 ^ 4.
Proof.
  intros [] H. unfold isByte, kMaxAppearance, kMaxEvolutionStage, kMaxMood, kMaxEmote in *.
  unfold validate, profileFieldsAreZero, kMaxAppearance, kMaxEvolutionStage, kMaxMood, kMaxEmote in H.
  split_guards H; simpl; lia.
Qed.

(** A valid request carries nothing beyond its addressing and its action. *)
Lemma valid_request p : validate p = Ok -> type_ p = ActionRequest ->
  result p = 0 /\ packId p = 0 /\ appearance p = 0 /\ evolutionStage p = 0 /\
  bond p = 0 /\ mood p = 0 /\ emote p = 0.
Proof.
  intros H Ht. unfold validate, profileFieldsAreZero in H. rewrite Ht in H.
  unfold supportedPacketType, Presence, ActionRequest, ActionResult in *.
  unfold OutcomeNone in H.
  split_guards H; lia.
Qed.

Lemma valid_reply p : validate p = Ok -> type_ p = ActionResult ->
  supportedActionResult (result p) = true /\ packId p = 0 /\ appearance p = 0 /\
  evolutionStage p = 0 /\ bond p = 0 /\ mood p = 0 /\ emote p = 0.
Proof.
  intros H Ht. unfold validate, profileFieldsAreZero in H. rewrite Ht in H.
  unfold supportedPacketType, Presence, ActionRequest, ActionResult in *.
  split_guards H; split_and!; try done; lia.
Qed.

Lemma validPacket_ok p : validPacket p = true <-> validate p = Ok.
Proof. unfold validPacket. by rewrite bool_decide_eq_true. Qed.

(** ** The codec *)

Lemma crc16Bit_range c : 0 <= crc16Bit c < 65536.
Proof. unfold crc16Bit. destruct (negb _); apply u16_range. Qed.

Lemma crc16Byte_range c b : 0 <= crc16Byte c b < 65536.
Proof. unfold crc16Byte. cbn [Nat.iter]. apply crc16Bit_range. Qed.

Definition crc16 (l : list Z) : Z := fold_left crc16Byte l 0xFFFF.

Lemma crc16_prefix l n : crc16CcittFalse (Some l) n = crc16 (take n l).
Proof. done. Qed.

Lemma crc16_range l : 0 <= crc16 l < 65536.
Proof.
  unfold crc16. assert (H : 0 <= 0xFFFF < 65536) by lia. revert H. generalize 0xFFFF.
  induction l as [|b l IH]; intros c Hc; simpl; [done|]. apply IH, crc16Byte_range.
Qed.

Lemma wireBody_length p : length (wireBody p) = kIntegrityOffset.
Proof. done. Qed.

Lemma wireBody_guards p c : let w := wireBody p ++ put16 c in
  length w = kWireBytes /\ byte_at w 0 = kMagic0 /\ byte_at w 1 = kMagic1 /\
  byte_at w 2 = kProtocolVersion /\ byte_at w 3 = type_ p /\ byte_at w kReservedOffset = 0.
Proof. repeat split. Qed.

Lemma candidateOf_wire p c rest : widthsOk p ->
  0 <= appearance p < 2 ^ 5 -> 0 <= evolutionStage p < 2 ^ 3 ->
  0 <= mood p < 2 ^ 4 -> 0 <= emote p < 2 ^ 4 ->
  candidateOf (wireBody p ++ put16 c ++ rest) = p.
Proof.
  intros [? Hsrc Htgt Hnon Hseq ? ? Hpk ? ? ? ? ?] Ha Hs Hm He.
  destruct (packed_byte (appearance p) (evolutionStage p) 5 3) as [E1 E2]; try done; try lia.
  destruct (packed_byte (mood p) (emote p) 4 4) as [E3 E4]; try done; try lia.
  change (Z.ones 5) with 0x1F in E1. change (Z.ones 4) with 0x0F in E3.
  destruct p as [t s g n q a r k ap st bo mo em]; cbn [type_ sourceUid targetUid sessionNonce requestSequence action result packId
    appearance evolutionStage bond mood emote] in *.
  unfold candidateOf, wireBody. f_equal.
  - exact (get16_put16 _ _ Hsrc).
  - exact (get16_put16 _ _ Htgt).
  - exact (get32_put32 _ _ Hnon).
  - exact (get16_put16 _ _ Hseq).
  - exact (get32_put32 _ _ Hpk).
  - exact E1.
  - exact E2.
  - exact E3.
  - exact E4.
Qed.

Lemma candidateOf_widths w : bytesOk w -> length w = kWireBytes -> widthsOk (candidateOf w).
Proof.
  intros Hw Hl. split; simpl; try (by apply byte_at_ok); try apply u8_range; try apply u16_range;
    try apply u32_range.
Qed.

Lemma wireBody_candidate w : bytesOk w -> length w = kWireBytes ->
  byte_at w 0 = kMagic0 -> byte_at w 1 = kMagic1 -> byte_at w 2 = kProtocolVersion ->
  byte_at w kReservedOffset = 0 ->
  wireBody (candidateOf w) = take kIntegrityOffset w.
Proof.
  intros Hw Hl H0 H1 H2 H23. unfold kWireBytes in Hl.
  do 26 (destruct w as [|?b w]; [discriminate Hl|]). destruct w; [clear Hl|discriminate Hl].
  repeat (apply Forall_cons_1 in Hw as [? Hw]).
  cbv [byte_at lookup list_lookup default from_option] in H0, H1, H2, H23.
  simpl in H0, H1, H2, H23. subst.
  unfold wireBody, candidateOf.
  cbn [type_ sourceUid targetUid sessionNonce requestSequence action result packId
    appearance evolutionStage bond mood emote drop].
  rewrite !put16_get16, !put32_get32 by done.
  unfold byte_at. cbn [lookup list_lookup default from_option id].
  rewrite (byte_unpacked _ 5), (byte_unpacked _ 4) by (lia || done). done.
Qed.

(** The packet codec is exact. The decoder accepts a 26-byte buffer and
    stores a packet exactly when the encoder, given that packet, produces that
    buffer: every valid packet survives the wire, and there is one wire form per
    packet, so no field, reserved bit or checksum byte is ignored. *)
Theorem nearby_wire_exact w p out : bytesOk w -> widthsOk p ->
  decode (Some w) out = (Ok, p) <-> encode p (Some kWireBytes) = (Ok, w).
Proof.
  intros Hw Hp. split.
  - unfold decode. destruct (Nat.eqb_spec (length w) kWireBytes) as [Hl|]; [|discriminate].
    intros H. split_guards H. destruct (validate (candidateOf w)) eqn:Ev; try discriminate H.
    injection H as <-. unfold encode. rewrite Nat.ltb_irrefl, Ev, crc16_prefix. rewrite crc16_prefix in V4. f_equal.
    rewrite (firstn_all2 (wireBody _)) by done.
    cbn [negb] in *. rewrite wireBody_candidate by (done || lia).
    apply negb_false_iff, Z.eqb_eq in V4. rewrite <- V4.
    rewrite <- (take_drop kIntegrityOffset w) at 3. f_equal.
    unfold kWireBytes in Hl. do 26 (destruct w as [|?b w]; [discriminate Hl|]).
    destruct w; [|discriminate Hl]. cbn [drop kIntegrityOffset].
    do 24 apply Forall_cons_1 in Hw as [_ Hw]. apply Forall_cons_1 in Hw as [? Hw].
    apply Forall_cons_1 in Hw as [? _]. by apply put16_get16.
  - unfold encode. rewrite Nat.ltb_irrefl, crc16_prefix, (firstn_all2 (wireBody _)) by done. destruct (validate p) eqn:Ev; try discriminate.
    destruct (validate_fields p Hp Ev) as (Ha & Hs & Hm & He). set (c := crc16 (wireBody p)).
    assert (Hc : get16 (drop kIntegrityOffset (wireBody p ++ put16 c)) = c).
    { rewrite drop_app_length'; [|done]. rewrite <- (app_nil_r (put16 c)).
      apply get16_put16. apply crc16_range. }
    assert (Hk : crc16 (take kIntegrityOffset (wireBody p ++ put16 c)) = c)
      by (rewrite take_app_length' by done; reflexivity).
    clearbody c. intros H. apply (f_equal snd) in H. cbn [snd] in H. subst w.
    unfold decode. rewrite Hc, crc16_prefix, Hk.
    assert (Hq : candidateOf (wireBody p ++ put16 c) = p).
    { rewrite <- (app_nil_r (put16 c)). by apply candidateOf_wire. }
    rewrite Hq, Ev. destruct (wireBody_guards p c) as (-> & -> & -> & -> & -> & ->).
    rewrite (validate_type p Ev), !Z.eqb_refl. reflexivity.
Qed.

(** ** Accidental damage *)

Lemma land_8000 c : negb (Z.land c 0x8000 =? 0) = Z.testbit c 15.
Proof.
  change 0x8000 with (2 ^ 15). destruct (Z.testbit c 15) eqn:Eb.
  - apply negb_true_iff, Z.eqb_neq. intros E. apply (f_equal (fun x => Z.testbit x 15)) in E.
    by rewrite Z.land_spec, Eb, Z.pow2_bits_true, Z.bits_0 in E by lia.
  - apply negb_false_iff, Z.eqb_eq, Z.bits_inj_0. intros k. rewrite Z.land_spec.
    destruct (Z.eq_dec k 15) as [->|Hk]; [by rewrite Eb|].
    rewrite Z.pow2_bits_false by lia. apply andb_false_r.
Qed.

Lemma crc16Bit_bits c k : 0 <= k < 16 ->
  Z.testbit (crc16Bit c) k = xorb (Z.testbit c (k - 1)) (Z.testbit c 15 && Z.testbit 0x1021 k).
Proof.
  intros Hk. unfold crc16Bit. rewrite land_8000. unfold u16.
  destruct (Z.testbit c 15); rewrite Z.mod_pow2_bits_low by lia.
  - by rewrite Z.lxor_spec, Z.shiftl_spec by lia.
  - by rewrite Z.shiftl_spec, xorb_false_r by lia.
Qed.

(** Each step of the shift register can be undone: its low bit tells whether
    the polynomial was applied. *)
Lemma crc16Bit_inj a b : 0 <= a < 65536 -> 0 <= b < 65536 -> crc16Bit a = crc16Bit b -> a = b.
Proof.
  intros Ha Hb E.
  assert (Hk : forall k, 0 <= k < 16 ->
    xorb (Z.testbit a (k - 1)) (Z.testbit a 15 && Z.testbit 0x1021 k) =
    xorb (Z.testbit b (k - 1)) (Z.testbit b 15 && Z.testbit 0x1021 k)).
  { intros k Hk. rewrite <- !crc16Bit_bits by done. by rewrite E. }
  assert (Ht : Z.testbit a 15 = Z.testbit b 15).
  { specialize (Hk 0 ltac:(lia)). rewrite !Z.testbit_neg_r, !andb_true_r in Hk by lia.
    by rewrite !xorb_false_l in Hk. }
  apply Z.bits_inj'. intros k Hk0.
  destruct (Z.lt_ge_cases k 15) as [Hlt|Hge].
  - specialize (Hk (k + 1) ltac:(lia)). rewrite Ht in Hk.
    replace (k + 1 - 1) with k in Hk by lia.
    destruct (Z.testbit a k), (Z.testbit b k), (_ && _); done.
  - destruct (Z.eq_dec k 15) as [->|Hne]; [done|].
    by rewrite !(range_bits 16) by lia.
Qed.

Lemma crc16Byte_inj a b x y : 0 <= a < 65536 -> 0 <= b < 65536 -> isByte x -> isByte y ->
  crc16Byte a x = crc16Byte b y ->
  Z.lxor a (Z.shiftl x 8) = Z.lxor b (Z.shiftl y 8).
Proof.
  intros Ha Hb Hx Hy. unfold crc16Byte. cbn [Nat.iter]. unfold isByte in *.
  assert (Hr : forall c z, 0 <= c < 65536 -> 0 <= z < 256 ->
    u16 (Z.lxor c (u16 (Z.shiftl z 8))) = Z.lxor c (Z.shiftl z 8) /\
    0 <= Z.lxor c (Z.shiftl z 8) < 65536).
  { intros c z Hc Hz. rewrite (u16_id (Z.shiftl z 8)) by (rewrite Z.shiftl_mul_pow2; lia).
    assert (0 <= Z.lxor c (Z.shiftl z 8) < 2 ^ 16).
    { apply lxor_range; [lia|lia|]. rewrite Z.shiftl_mul_pow2; lia. }
    split; [apply u16_id|]; lia. }
  destruct (Hr a x Ha Hx) as [-> Hra]. destruct (Hr b y Hb Hy) as [-> Hrb]. intros E.
  do 7 (apply crc16Bit_inj in E; [|apply crc16Bit_range..]).
  by apply crc16Bit_inj in E.
Qed.

Lemma crc16_fold_inj l a b : bytesOk l -> 0 <= a < 65536 -> 0 <= b < 65536 ->
  fold_left crc16Byte l a = fold_left crc16Byte l b -> a = b.
Proof.
  intros Hl. revert a b. induction Hl as [|x l Hx _ IH]; intros a b Ha Hb E; simpl in E; [done|].
  apply IH in E; [|apply crc16Byte_range..].
  apply crc16Byte_inj in E; [|done..].
  rewrite <- (Z.lxor_0_r a), <- (Z.lxor_0_r b), <- (Z.lxor_nilpotent (Z.shiftl x 8)).
  by rewrite <- !Z.lxor_assoc, E.
Qed.

Lemma crc16_one_byte pre x y post :
  bytesOk (pre ++ x :: post) -> isByte y -> x <> y ->
  crc16 (pre ++ x :: post) <> crc16 (pre ++ y :: post).
Proof.
  intros Hl Hy Hne E. unfold crc16 in E. rewrite !fold_left_app in E. simpl in E.
  apply Forall_app in Hl as [_ [Hx Hpost]%Forall_cons_1].
  apply crc16_fold_inj in E; [|done|apply crc16Byte_range..].
  assert (Hc : 0 <= fold_left crc16Byte pre 0xFFFF < 65536) by apply (crc16_range pre).
  apply crc16Byte_inj in E; [|done..].
  rewrite !Z.shiftl_mul_pow2 in E by lia.
  apply (f_equal (Z.lxor (fold_left crc16Byte pre 0xFFFF))) in E.
  rewrite <- !Z.lxor_assoc, Z.lxor_nilpotent, !Z.lxor_0_l in E. unfold isByte in *. lia.
Qed.

Lemma decoded_guards w out p : decode (Some w) out = (Ok, p) ->
  length w = kWireBytes /\
  get16 (drop kIntegrityOffset w) = crc16 (take kIntegrityOffset w).
Proof.
  unfold decode. intros H. split_guards H.
  split; [by apply negb_false_iff, Nat.eqb_eq in V|by apply negb_false_iff, Z.eqb_eq in V4].
Qed.

Lemma get16_inj l l' : bytesOk l -> bytesOk l' -> length l = 2%nat -> length l' = 2%nat ->
  get16 l = get16 l' -> l = l'.
Proof.
  intros Hl Hl' H2 H2' E.
  destruct l as [|a [|b [|]]]; try discriminate H2. destruct l' as [|c [|d [|]]]; try discriminate H2'.
  apply Forall_cons_1 in Hl as [? [? _]%Forall_cons_1].
  apply Forall_cons_1 in Hl' as [? [? _]%Forall_cons_1].
  by rewrite <- (put16_get16 a b []), E, put16_get16 by done.
Qed.

(** Single-byte damage is always caught. Whatever one byte of a packet on
    the air is changed to, in the body or in the checksum itself, the receiver
    does not accept the result, under any packet: the checksum register is a
    bijection of its state for each input byte. *)
Theorem damaged_byte_rejected w i y p out out' :
  bytesOk w -> fst (decode (Some w) out) = Ok -> (i < kWireBytes)%nat -> isByte y ->
  byte_at w i <> y ->
  fst (decode (Some (<[i := y]> w)) out') <> Ok /\
  snd (decode (Some (<[i := y]> w)) p) = p.
Proof.
  intros Hw Hd Hi Hy Hne. set (w' := <[i := y]> w).
  assert (Hbad : forall o, fst (decode (Some w') o) <> Ok).
  { intros o Hd'. destruct (decode (Some w) out) as [r q] eqn:E. simpl in Hd. subst r.
    destruct (decode (Some w') o) as [r' q'] eqn:E'. simpl in Hd'. subst r'.
    apply decoded_guards in E as [Hl Hc]. apply decoded_guards in E' as [Hl' Hc'].
    destruct (lookup_lt_is_Some_2 w i ltac:(lia)) as [x Hx].
    unfold byte_at in Hne. rewrite Hx in Hne. simpl in Hne.
    assert (Hw' : bytesOk w') by (by apply Forall_insert).
    destruct (Nat.lt_ge_cases i kIntegrityOffset) as [Hlt|Hge].
    - unfold w' in Hc'. rewrite drop_insert_lt, take_insert_lt in Hc' by lia.
      rewrite Hc in Hc'. rewrite <- (take_drop_middle (take kIntegrityOffset w) i x) in Hc' at 1
        by (by rewrite lookup_take_lt).
      rewrite insert_take_drop in Hc' by (rewrite length_take; lia).
      eapply crc16_one_byte in Hc'; [done| |done|done].
      rewrite take_drop_middle by (by rewrite lookup_take_lt). by apply Forall_take.
    - unfold w' in Hc'. rewrite take_insert_ge in Hc' by done. rewrite <- Hc in Hc'.
      apply get16_inj in Hc'; [|by apply Forall_drop|by apply Forall_drop|rewrite length_drop; fold w'; rewrite Hl'; done
        |rewrite length_drop, Hl; done].
      apply (f_equal (fun l => l !! (i - kIntegrityOffset)%nat)) in Hc'.
      rewrite !lookup_drop in Hc'. replace (kIntegrityOffset + (i - kIntegrityOffset))%nat with i in Hc' by lia.
      rewrite list_lookup_insert_eq, Hx in Hc' by lia. congruence. }
  split; [apply Hbad|]. specialize (Hbad p). revert Hbad. unfold decode.
  repeat match goal with |- context [if ?c then _ else _] => destruct c; try done end.
  by destruct (validate _).
Qed.

(** ** Replay and acknowledgement *)

Lemma Packet_ext p q :
  type_ p = type_ q -> sourceUid p = sourceUid q -> targetUid p = targetUid q ->
  sessionNonce p = sessionNonce q -> requestSequence p = requestSequence q ->
  action p = action q -> result p = result q -> packId p = packId q ->
  appearance p = appearance q -> evolutionStage p = evolutionStage q ->
  bond p = bond q -> mood p = mood q -> emote p = emote q -> p = q.
Proof. destruct p, q. simpl. by intros -> -> -> -> -> -> -> -> -> -> -> -> ->. Qed.

Lemma supported_result_range r : supportedActionResult r = true -> 1 <= r <= 4.
Proof. unfold supportedActionResult, Accepted, Declined, Busy, Disabled. lia. Qed.

(** The replay token is exact for action requests. After a valid request has
    been recorded, a packet is reported as its duplicate exactly when it is that
    same request, field for field; nothing else is ever suppressed. *)
Theorem duplicate_request_exact p q : validate p = Ok -> type_ p = ActionRequest ->
  isDuplicate (makeDuplicateToken p) q = true <-> q = p.
Proof.
  intros Hp Ht. unfold makeDuplicateToken. rewrite Hp. unfold isDuplicate. simpl. split.
  - rewrite !andb_true_iff, validPacket_ok, !Z.eqb_eq. intros ((((((Hq & E1) & E2) & E3) & E4) & E5) & E6).
    destruct (valid_request p Hp Ht) as (? & ? & ? & ? & ? & ? & ?).
    destruct (valid_request q Hq ltac:(congruence)) as (? & ? & ? & ? & ? & ? & ?).
    apply Packet_ext; congruence.
  - intros ->. rewrite !andb_true_iff, validPacket_ok, !Z.eqb_refl. done.
Qed.

Lemma made_reply_valid request r reply : makeActionResult request r = Some reply -> validate reply = Ok.
Proof.
  unfold makeActionResult. destruct (validPacket request) eqn:Hv; [|discriminate].
  apply validPacket_ok in Hv. destruct (type_ request =? ActionRequest) eqn:Et; [|discriminate].
  apply Z.eqb_eq in Et. destruct (supportedActionResult r) eqn:Er; [|discriminate].
  intros [= <-]. unfold validate in Hv. rewrite Et in Hv. change (ActionRequest =? Presence) with false in Hv.
  change (ActionRequest =? ActionRequest) with true in Hv. cbv iota in Hv. split_guards Hv. unfold validate, profileFieldsAreZero. simpl.
  change (ActionResult =? Presence) with false. change (ActionResult =? ActionRequest) with false.
  cbv iota. rewrite Er. rewrite V2, V0, V1, (Z.eqb_sym (sourceUid request)), V3, V4.
  apply negb_false_iff in V5. by rewrite V5.
Qed.

(** Acknowledgements correspond one to one with requests. A packet
    acknowledges a request exactly when it is one of the packets
    [makeActionResult] builds for it, so an acknowledgement cannot be read as
    the answer to another request, and every answer that is built is valid,
    acknowledges its request and survives the wire. *)
Theorem acknowledgement_exact request reply :
  (actionResultAcknowledges request reply = true <->
   exists r, makeActionResult request r = Some reply) /\
  (forall other, actionResultAcknowledges request reply = true ->
     actionResultAcknowledges other reply = true -> other = request).
Proof.
  assert (Hack : forall req, actionResultAcknowledges req reply = true ->
    validate req = Ok /\ type_ req = ActionRequest /\ validate reply = Ok /\ type_ reply = ActionResult /\
    sourceUid reply = targetUid req /\ targetUid reply = sourceUid req /\
    sessionNonce reply = sessionNonce req /\ requestSequence reply = requestSequence req /\
    action reply = action req).
  { intros req. unfold actionResultAcknowledges. rewrite !andb_true_iff, !validPacket_ok, !Z.eqb_eq. tauto. }
  split; [split|].
  - intros H. destruct (Hack _ H) as (Hv & Ht & Hr & Htr & E1 & E2 & E3 & E4 & E5).
    destruct (valid_reply reply Hr Htr) as (Hs & ? & ? & ? & ? & ? & ?).
    exists (result reply). unfold makeActionResult.
    rewrite (proj2 (validPacket_ok request) Hv), Ht, Hs. simpl. f_equal.
    apply Packet_ext; simpl; congruence.
  - intros [r Hm]. pose proof (made_reply_valid _ _ _ Hm) as Hv. unfold makeActionResult in Hm.
    unfold actionResultAcknowledges. rewrite (proj2 (validPacket_ok reply) Hv).
    destruct (validPacket request); [|discriminate]. destruct (type_ request =? ActionRequest); [|discriminate].
    destruct (supportedActionResult r); [|discriminate]. injection Hm as <-. simpl. by rewrite !Z.eqb_refl.
  - intros other H H'. destruct (Hack _ H) as (Hv & Ht & _ & _ & E1 & E2 & E3 & E4 & E5).
    destruct (Hack _ H') as (Hv' & Ht' & _ & _ & F1 & F2 & F3 & F4 & F5).
    destruct (valid_request request Hv Ht) as (? & ? & ? & ? & ? & ? & ?).
    destruct (valid_request other Hv' Ht') as (? & ? & ? & ? & ? & ? & ?).
    apply Packet_ext; congruence.
Qed.

(** ** Witnesses *)

Definition demoRequest : Packet := mkPacket ActionRequest 0x1234 0x5678 77 1 ActionPet 0 0 0 0 0 0 0.
Definition demoWire : list Z := snd (encode demoRequest (Some kWireBytes)).

Lemma nearby_wire_exact_witness : decode (Some demoWire) demoRequest = (Ok, demoRequest).
Proof.
  refine (proj2 (nearby_wire_exact demoWire demoRequest demoRequest _ _) _).
  - apply allByte_literal. vm_compute. reflexivity.
  - split; vm_compute; split; congruence.
  - vm_compute. reflexivity.
Defined.

Lemma damaged_byte_rejected_witness : fst (decode (Some (<[14%nat := 4]> demoWire)) demoRequest) <> Ok.
Proof.
  refine (proj1 (damaged_byte_rejected demoWire 14 4 demoRequest demoRequest demoRequest _ _ _ _ _)).
  - apply allByte_literal. vm_compute. reflexivity.
  - vm_compute. reflexivity.
  - unfold kWireBytes. lia.
  - unfold isByte. lia.
  - vm_compute. congruence.
Defined.

Lemma duplicate_request_exact_witness : isDuplicate (makeDuplicateToken demoRequest) demoRequest = true.
Proof. apply (duplicate_request_exact demoRequest demoRequest); reflexivity. Defined.

Lemma acknowledgement_exact_witness : exists r, makeActionResult demoRequest Accepted = Some r /\
  forall other, actionResultAcknowledges other r = true -> other = demoRequest.
Proof.
  eexists. split; [reflexivity|]. intros other.
  refine (proj2 (acknowledgement_exact demoRequest _) other _). vm_compute. reflexivity.
Defined.
