(* ===== verification/RepeatWire.v ===== *)
(** * MeshCore repeat frames (src/src/kitsu_repeat_wire.h, .cpp)

    The view of a physically received frame and the route binding captured from
    a transmitted flood packet. *)

From S2P Require Import Prelude.

Open Scope Z_scope.

(** ** Data *)

Definition kRepeatWireMaximumPathBytes : nat := 64.
Definition kRepeatWireRouteMask : Z := 0x03.
Definition kRepeatWireRouteTransportFlood : Z := 0x00.
Definition kRepeatWireRouteFlood : Z := 0x01.
Definition kRepeatWireRouteDirect : Z := 0x02.
Definition kRepeatWireRouteTransportDirect : Z := 0x03.
Definition kRepeatWireTypeShift : Z := 2.
Definition kRepeatWireTypeMask : Z := 0x0f.
Definition kRepeatWireVersionShift : Z := 6.
Definition kRepeatWireVersionMask : Z := 0x03.
Definition kRepeatWirePayloadVersion1 : Z := 0x00.

Inductive RepeatWireDecodeStatus :=
  | WireOk | WireInvalidArgument | WireUnsupportedVersion | WireTruncatedTransport
  | WireInvalidPath | WireMissingPayload.

#[export] Instance RepeatWireDecodeStatus_eq_dec : EqDecision RepeatWireDecodeStatus.
Proof. solve_decision. Defined.

(** A non-owning pointer with its length is the list of bytes it covers,
    [None] the null pointer. *)
Record RepeatWireView := mkView {
  payloadType : Z;
  route : Z;
  flood : bool;
  hasTransportCodes : bool;
  transportCode0 : Z;
  transportCode1 : Z;
  wirePathHashSize : Z;
  pathCount : Z;
  path : option (list Z);
  pathBytes : nat;
  payload : option (list Z);
  payloadBytes : nat;
}.

Definition emptyView : RepeatWireView := mkView 0 0 false false 0 0 0 0 None 0 None 0.

Definition lastHopToken (v : RepeatWireView) : option (list Z) :=
  if pathCount v =? 0 then None
  else match path v with
       | None => None
       | Some l => Some (drop (pathBytes v - Z.to_nat (wirePathHashSize v)) l)
       end.

Record FloodRouteBinding := mkBinding {
  transportScoped : bool;
  bindingCode0 : Z;
  bindingCode1 : Z;
  pathHashSize : Z;
}.

Definition noBinding : FloodRouteBinding := mkBinding false 0 0 0.

(** ** Route binding *)

Definition validFloodRouteBinding (b : FloodRouteBinding) : bool :=
  if (pathHashSize b <? 1) || (3 <? pathHashSize b) then false
  else if negb (transportScoped b) then (bindingCode0 b =? 0) && (bindingCode1 b =? 0)
  else true.

Definition sameFloodRouteBinding (left right : FloodRouteBinding) : bool :=
  validFloodRouteBinding left && validFloodRouteBinding right &&
  Bool.eqb (transportScoped left) (transportScoped right) &&
  (pathHashSize left =? pathHashSize right) &&
  (bindingCode0 left =? bindingCode0 right) &&
  (bindingCode1 left =? bindingCode1 right).

(** The result and the binding left in [output]. *)
Definition floodRouteBindingFromWire (wire : RepeatWireView) : bool * FloodRouteBinding :=
  if negb (flood wire) then (false, noBinding)
  else
    let output := mkBinding (hasTransportCodes wire)
      (if hasTransportCodes wire then transportCode0 wire else 0)
      (if hasTransportCodes wire then transportCode1 wire else 0)
      (wirePathHashSize wire) in
    (validFloodRouteBinding output, output).

(** ** Decoding *)

(** The view after the header byte. *)
Definition headerView (header : Z) : RepeatWireView :=
  let r := Z.land header kRepeatWireRouteMask in
  mkView (Z.land (Z.shiftr header kRepeatWireTypeShift) kRepeatWireTypeMask) r
    ((r =? kRepeatWireRouteFlood) || (r =? kRepeatWireRouteTransportFlood))
    false 0 0 0 0 None 0 None 0.

Definition isTransport (v : RepeatWireView) : bool :=
  (route v =? kRepeatWireRouteTransportFlood) || (route v =? kRepeatWireRouteTransportDirect).

Definition withCodes (c0 c1 : Z) (v : RepeatWireView) : RepeatWireView :=
  mkView (payloadType v) (route v) (flood v) true c0 c1 (wirePathHashSize v) (pathCount v)
    (path v) (pathBytes v) (payload v) (payloadBytes v).

Definition withPathShape (size count : Z) (bytes : nat) (v : RepeatWireView) : RepeatWireView :=
  mkView (payloadType v) (route v) (flood v) (hasTransportCodes v) (transportCode0 v)
    (transportCode1 v) size count (path v) bytes (payload v) (payloadBytes v).

Definition withPath (l : list Z) (v : RepeatWireView) : RepeatWireView :=
  mkView (payloadType v) (route v) (flood v) (hasTransportCodes v) (transportCode0 v)
    (transportCode1 v) (wirePathHashSize v) (pathCount v) (Some l) (pathBytes v)
    (payload v) (payloadBytes v).

Definition withPayload (l : list Z) (v : RepeatWireView) : RepeatWireView :=
  mkView (payloadType v) (route v) (flood v) (hasTransportCodes v) (transportCode0 v)
    (transportCode1 v) (wirePathHashSize v) (pathCount v) (path v) (pathBytes v)
    (Some l) (length l).

(** The part after the transport codes; [rest] starts at the cursor. *)
Definition decodePath (rest : list Z) (v : RepeatWireView) : RepeatWireDecodeStatus * RepeatWireView :=
  let encodedPath := byte_at rest 0 in
  let after := drop 1 rest in
  let pathMode := Z.shiftr encodedPath 6 in
  if pathMode =? 3 then (WireInvalidPath, v)
  else
    let size := pathMode + 1 in
    let count := Z.land encodedPath 63 in
    let bytes := (Z.to_nat size * Z.to_nat count)%nat in
    let v1 := withPathShape size count bytes v in
    if (kRepeatWireMaximumPathBytes <? bytes)%nat || (length after <? bytes)%nat
    then (WireInvalidPath, v1)
    else
      let v2 := withPath (take bytes after) v1 in
      match drop bytes after with
      | [] => (WireMissingPayload, v2)
      | body => (WireOk, withPayload body v2)
      end.

Definition decodeRepeatWire (raw : option (list Z)) : RepeatWireDecodeStatus * RepeatWireView :=
  match raw with
  | None => (WireInvalidArgument, emptyView)
  | Some raw =>
      if (length raw <? 2)%nat then (WireInvalidArgument, emptyView)
      else
        let header := byte_at raw 0 in
        if negb (Z.land (Z.shiftr header kRepeatWireVersionShift) kRepeatWireVersionMask =?
                 kRepeatWirePayloadVersion1)
        then (WireUnsupportedVersion, emptyView)
        else
          let v := headerView header in
          if isTransport v then
            if (length raw <? 6)%nat then (WireTruncatedTransport, v)
            else decodePath (drop 5 raw) (withCodes (get16 (drop 1 raw)) (get16 (drop 3 raw)) v)
          else decodePath (drop 1 raw) v
  end.
