(* ===== verification/RepeatWireFacts.v ===== *)
(** * Repeat frames: the decoder against the frame layout *)

From S2P Require Import Prelude RepeatWire.

Open Scope Z_scope.

(** ** The layout, written forwards *)

Definition frameHeader (v : RepeatWireView) : Z :=
  Z.lor (route v) (Z.shiftl (payloadType v) 2).

Definition framePathByte (v : RepeatWireView) : Z :=
  Z.lor (pathCount v) (Z.shiftl (wirePathHashSize v - 1) 6).

Definition frameCodes (v : RepeatWireView) : list Z :=
  if isTransport v then put16 (transportCode0 v) ++ put16 (transportCode1 v) else [].

Definition renderFrame (v : RepeatWireView) : list Z :=
  frameHeader v :: frameCodes v ++ framePathByte v :: default [] (path v) ++ default [] (payload v).

Record viewOk (v : RepeatWireView) : Prop := {
  vo_type : 0 <= payloadType v < 16;
  vo_route : 0 <= route v < 4;
  vo_flood : flood v = ((route v =? kRepeatWireRouteFlood) || (route v =? kRepeatWireRouteTransportFlood));
  vo_transport : hasTransportCodes v = isTransport v;
  vo_code0 : 0 <= transportCode0 v < 65536;
  vo_code1 : 0 <= transportCode1 v < 65536;
  vo_plain : isTransport v = false -> transportCode0 v = 0 /\ transportCode1 v = 0;
  vo_size : 1 <= wirePathHashSize v <= 3;
  vo_count : 0 <= pathCount v < 64;
  vo_bytes : pathBytes v = (Z.to_nat (wirePathHashSize v) * Z.to_nat (pathCount v))%nat;
  vo_bound : (pathBytes v <= kRepeatWireMaximumPathBytes)%nat;
  vo_path : exists l, path v = Some l /\ length l = pathBytes v;
  vo_payload : exists l, payload v = Some l /\ l <> [] /\ payloadBytes v = length l;
}.

(** ** The packed bytes *)

Lemma frame_header_fields r t : 0 <= r < 4 -> 0 <= t < 16 ->
  let h := Z.lor r (Z.shiftl t 2) in
  Z.land h 3 = r /\ Z.land (Z.shiftr h 2) 15 = t /\ Z.land (Z.shiftr h 6) 3 = 0.
Proof.
  intros Hr Ht h. change 3 with (Z.ones 2). change 15 with (Z.ones 4).
  split; [by apply (pack_low r t 2)|]. unfold h. rewrite pack_high by lia.
  rewrite Z.land_ones, Z.mod_small by lia. split; [done|].
  rewrite lor_shiftl_add, Z.shiftr_div_pow2, Z.div_small by lia. done.
Qed.

Lemma header_inv h : isByte h -> Z.land (Z.shiftr h 6) 3 = 0 ->
  Z.lor (Z.land h 3) (Z.shiftl (Z.land (Z.shiftr h 2) 15) 2) = h.
Proof.
  unfold isByte. intros Hh H6. rewrite <- (unpack_pack h 2) at 3 by lia. f_equal. f_equal.
  change 15 with (Z.ones 4). change 3 with (Z.ones 2) in H6. rewrite Z.land_ones in * by lia.
  rewrite Z.shiftr_div_pow2 in * by lia. simpl Z.pow in *.
  assert (h / 64 < 4) by (apply Z.div_lt_upper_bound; lia).
  assert (0 <= h / 64) by (apply Z.div_pos; lia). rewrite (Z.mod_small (h / 64)) in H6 by lia.
  apply Z.mod_small. pose proof (Z.div_mod h 64). pose proof (Z.mod_pos_bound h 64).
  split; [apply Z.div_pos; lia|apply Z.div_lt_upper_bound; lia].
Qed.

Lemma path_fields size count : 1 <= size <= 3 -> 0 <= count < 64 ->
  let b := Z.lor count (Z.shiftl (size - 1) 6) in
  Z.shiftr b 6 = size - 1 /\ Z.land b 63 = count.
Proof.
  intros Hs Hc b. change 63 with (Z.ones 6). split; [by apply pack_high|by apply pack_low].
Qed.

Lemma path_inv b : isByte b ->
  Z.lor (Z.land b 63) (Z.shiftl (Z.shiftr b 6) 6) = b /\ 0 <= Z.shiftr b 6 < 4 /\ 0 <= Z.land b 63 < 64.
Proof.
  unfold isByte. intros Hb. change 63 with (Z.ones 6). split; [by apply unpack_pack; lia|].
  rewrite Z.land_ones by lia. pose proof (Z.mod_pos_bound b (2 ^ 6)).
  split; [|lia]. rewrite Z.shiftr_div_pow2 by lia.
  split; [apply Z.div_pos; lia|apply Z.div_lt_upper_bound; lia].
Qed.

(** ** The path and the payload *)

Lemma decodePath_ok b after v w : isByte b -> decodePath (b :: after) v = (WireOk, w) <->
  exists size count l body, 1 <= size <= 3 /\ 0 <= count < 64 /\
    length l = (Z.to_nat size * Z.to_nat count)%nat /\
    (length l <= kRepeatWireMaximumPathBytes)%nat /\ body <> [] /\
    b = Z.lor count (Z.shiftl (size - 1) 6) /\ after = l ++ body /\
    w = withPayload body (withPath l (withPathShape size count (length l) v)).
Proof.
  intros Hb. unfold decodePath. change (byte_at (b :: after) 0) with b. change (drop 1 (b :: after)) with after.
  destruct (path_inv b Hb) as (Eb & Hm & Hc). split.
  - destruct (Z.eqb_spec (Z.shiftr b 6) 3) as [|H3]; [discriminate|].
    set (n := (_ * _)%nat). destruct (orb _ _) eqn:Eo; [discriminate|].
    apply orb_false_iff in Eo as [E1 E2]. apply Nat.ltb_ge in E1, E2.
    cbv zeta. destruct (drop n after) as [|x body] eqn:Ed; [discriminate|]. intros H. apply (f_equal snd) in H. cbn [snd] in H. subst w.
    assert (Hl : length (take n after) = n) by (rewrite length_take; lia).
    exists (Z.shiftr b 6 + 1), (Z.land b 63), (take n after), (x :: body). rewrite Hl.
    split_and!; try done; try lia.
    + by replace (Z.shiftr b 6 + 1 - 1) with (Z.shiftr b 6) by lia.
    + by rewrite <- Ed, take_drop.
  - intros (size & count & l & body & Hs & Hcn & Hl & Hle & Hb0 & -> & -> & ->).
    destruct (path_fields size count Hs Hcn) as [-> ->].
    replace (size - 1 + 1) with size by lia. rewrite <- Hl.
    destruct (Z.eqb_spec (size - 1) 3); [lia|].
    rewrite (proj2 (Nat.ltb_ge _ _) Hle), length_app.
    rewrite (proj2 (Nat.ltb_ge _ _)) by lia. simpl.
    rewrite drop_app_length, take_app_length. by destruct body.
Qed.

Lemma renderFrame_built size count l body v :
  renderFrame (withPayload body (withPath l (withPathShape size count (length l) v))) =
  frameHeader v :: frameCodes v ++ Z.lor count (Z.shiftl (size - 1) 6) :: l ++ body.
Proof. done. Qed.

Lemma headerView_header h : isByte h -> Z.land (Z.shiftr h 6) 3 = 0 -> frameHeader (headerView h) = h.
Proof. apply header_inv. Qed.

Lemma viewOk_built size count l body v :
  1 <= size <= 3 -> 0 <= count < 64 -> length l = (Z.to_nat size * Z.to_nat count)%nat ->
  (length l <= kRepeatWireMaximumPathBytes)%nat -> body <> [] ->
  0 <= payloadType v < 16 -> 0 <= route v < 4 ->
  flood v = ((route v =? kRepeatWireRouteFlood) || (route v =? kRepeatWireRouteTransportFlood)) ->
  hasTransportCodes v = isTransport v ->
  0 <= transportCode0 v < 65536 -> 0 <= transportCode1 v < 65536 ->
  (isTransport v = false -> transportCode0 v = 0 /\ transportCode1 v = 0) ->
  viewOk (withPayload body (withPath l (withPathShape size count (length l) v))).
Proof. intros. split; simpl; eauto. Qed.

Lemma headerView_ranges h : isByte h ->
  0 <= payloadType (headerView h) < 16 /\ 0 <= route (headerView h) < 4.
Proof.
  intros Hh. unfold headerView, kRepeatWireTypeMask, kRepeatWireRouteMask. simpl.
  change 3 with (Z.ones 2). change 15 with (Z.ones 4). rewrite !Z.land_ones by lia.
  split; apply Z.mod_pos_bound; lia.
Qed.

Lemma framePathByte_ok v : 1 <= wirePathHashSize v <= 3 -> 0 <= pathCount v < 64 ->
  isByte (framePathByte v).
Proof.
  intros Hs Hc. unfold framePathByte. split.
  - apply Z.lor_nonneg. split; [lia|]. apply Z.shiftl_nonneg. lia.
  - apply (pack_range _ _ 6 2); lia.
Qed.

(** The frame decoder is exact. It accepts a received buffer with a view
    exactly when the view is well formed and the buffer is the frame laid out
    from it: header, transport codes for the two transport routes, path byte,
    path and a non-empty payload, with nothing before, between or after. *)
Theorem repeat_wire_exact raw v : bytesOk raw ->
  decodeRepeatWire (Some raw) = (WireOk, v) <-> viewOk v /\ raw = renderFrame v.
Proof.
  intros Hraw. split.
  - intros H. destruct raw as [|h raw]; [discriminate|]. apply Forall_cons_1 in Hraw as [Hh Hraw].
    unfold decodeRepeatWire in H. destruct (_ <? 2)%nat eqn:E2; [discriminate|]. apply Nat.ltb_ge in E2.
    change (byte_at (h :: raw) 0) with h in H.
    destruct (Z.eqb_spec (Z.land (Z.shiftr h kRepeatWireVersionShift) kRepeatWireVersionMask)
      kRepeatWirePayloadVersion1) as [Ev|]; [|discriminate]. cbv [negb] in H. cbv zeta in H.
    destruct (headerView_ranges h Hh) as [Ht Hr].
    destruct (isTransport (headerView h)) eqn:Et.
    + destruct (_ <? 6)%nat eqn:E6; [discriminate|]. apply Nat.ltb_ge in E6.
      do 5 (destruct raw as [|? raw]; [simpl in E6; lia|]).
      repeat (apply Forall_cons_1 in Hraw as [? Hraw]).
      cbn [drop] in H; rewrite ?drop_0 in H. apply decodePath_ok in H; [|done].
      destruct H as (size & count & l & body & Hs & Hc & Hl & Hle & Hb & -> & -> & ->). split.
      * apply viewOk_built; try done; try apply u16_range.
        change (isTransport (withCodes _ _ _)) with (isTransport (headerView h)). by rewrite Et.
      * rewrite renderFrame_built. unfold frameCodes.
        change (isTransport (withCodes _ _ _)) with (isTransport (headerView h)). rewrite Et.
        change (frameHeader (withCodes _ _ _)) with (frameHeader (headerView h)).
        rewrite headerView_header by done. cbn [transportCode0 transportCode1 withCodes].
        by rewrite !put16_get16.
    + destruct raw as [|b raw]; [simpl in E2; lia|].
      apply Forall_cons_1 in Hraw as [Hb Hraw]. cbn [drop] in H; rewrite ?drop_0 in H.
      apply decodePath_ok in H; [|done].
      destruct H as (size & count & l & body & Hs & Hc & Hl & Hle & Hb0 & -> & -> & ->). split.
      * by apply viewOk_built.
      * rewrite renderFrame_built, headerView_header by done. unfold frameCodes. by rewrite Et.
  - intros [[Ht Hr Hf Hh0 Hc0 Hc1 Hp Hs Hc Hb Hbd (l & El & Hl) (body & Eb & Hne & Hpb)] ->].
    set (h := frameHeader v). destruct (frame_header_fields (route v) (payloadType v) Hr Ht) as (E1 & E2 & E3).
    change (Z.lor (route v) (Z.shiftl (payloadType v) 2)) with h in E1, E2, E3.
    assert (Ehv : headerView h = mkView (payloadType v) (route v) (flood v) false 0 0 0 0 None 0 None 0).
    { unfold headerView, kRepeatWireRouteMask, kRepeatWireTypeShift, kRepeatWireTypeMask.
      by rewrite E1, E2, Hf. }
    assert (Hpath : forall v0, decodePath (framePathByte v :: l ++ body) v0 =
      (WireOk, withPayload body (withPath l (withPathShape (wirePathHashSize v) (pathCount v) (length l) v0)))).
    { intros v0. apply decodePath_ok; [by apply framePathByte_ok|].
      exists (wirePathHashSize v), (pathCount v), l, body. split_and!; try done; try lia; rewrite Hl; lia. }
    unfold decodeRepeatWire, renderFrame. fold h. rewrite El, Eb. cbn [default from_option id].
    change (byte_at (h :: _) 0) with h. unfold kRepeatWireVersionShift, kRepeatWireVersionMask,
      kRepeatWirePayloadVersion1. rewrite E3, Z.eqb_refl. cbv [negb]. rewrite Ehv.
    change (isTransport (mkView _ _ _ _ _ _ _ _ _ _ _ _)) with (isTransport v).
    unfold frameCodes. assert (Hlen : (0 < length body)%nat) by (destruct body; [done|simpl; lia]).
    destruct (isTransport v) eqn:Et.
    + rewrite !(proj2 (Nat.ltb_ge _ _)) by (blen; rewrite !length_app; lia).
      change (drop 1 _) with (put16 (transportCode0 v) ++ put16 (transportCode1 v) ++
        framePathByte v :: l ++ body).
      change (drop 3 _) with (put16 (transportCode1 v) ++ framePathByte v :: l ++ body).
      change (drop 5 _) with (framePathByte v :: l ++ body).
      rewrite !get16_put16, Hpath by done. f_equal.
      destruct v; simpl in *. unfold withPayload, withPath, withPathShape, withCodes; simpl. congruence.
    + rewrite !(proj2 (Nat.ltb_ge _ _)) by (simpl; rewrite !length_app; lia).
      change (drop 1 _) with (framePathByte v :: l ++ body). rewrite Hpath. f_equal.
      destruct (Hp eq_refl) as [P0 P1].
      destruct v; simpl in *. unfold withPayload, withPath, withPathShape; simpl. congruence.
Qed.

Lemma repeat_wire_exact_witness :
  viewOk (snd (decodeRepeatWire (Some [0x14; 0xa3; 0x5c; 0; 0; 0x42; 1; 2; 3; 4; 0x77]))).
Proof.
  refine (proj1 (proj1 (repeat_wire_exact [0x14; 0xa3; 0x5c; 0; 0; 0x42; 1; 2; 3; 4; 0x77] _ _) _)).
  - apply allByte_literal. reflexivity.
  - vm_compute. reflexivity.
Defined.

(** ** Route bindings *)

Lemma sameFloodRouteBinding_eq a b :
  sameFloodRouteBinding a b = true <-> validFloodRouteBinding a = true /\ a = b.
Proof.
  unfold sameFloodRouteBinding. rewrite !andb_true_iff, !Z.eqb_eq, eqb_true_iff. split.
  - intros (((((Ha & Hb) & E1) & E2) & E3) & E4). split; [done|]. destruct a, b; simpl in *; congruence.
  - intros [Ha ->]. by rewrite Ha.
Qed.

