(* ===== verification/RepeatSource.v ===== *)
(** * Last-hop sources of repeat evidence

    The bounded source list that both trackers keep
    (src/src/kitsu_channel_repeat_tracker.cpp and
    src/src/kitsu_advert_repeat_tracker.cpp carry the same [recordSource]). *)

From S2P Require Import Prelude.

Open Scope Z_scope.

Definition kRepeatSourceCapacity : nat := 4.
Definition kRepeatSourceTokenBytes : nat := 3.

Record RepeatSource := mkSource {
  src_tokenBytes : nat;
  src_token : list Z;
}.

Definition noSource : RepeatSource := mkSource 0 (replicate kRepeatSourceTokenBytes 0).

(** The three members [sourceCount], [sources] and [sourcesTruncated]. *)
Record Sources := mkSources {
  sourceCount : nat;
  sources : list RepeatSource;
  sourcesTruncated : bool;
}.

Definition noSources : Sources := mkSources 0 (replicate kRepeatSourceCapacity noSource) false.

(** [source.tokenBytes == tokenBytes && memcmp(source.token, token, tokenBytes) == 0] *)
Definition sameSource (token : list Z) (tokenBytes : nat) (s : RepeatSource) : bool :=
  (src_tokenBytes s =? tokenBytes)%nat && beq (take tokenBytes (src_token s)) (take tokenBytes token).

(** [memcpy] of [tokenBytes] bytes over the token of a slot. *)
Definition storeToken (token : list Z) (tokenBytes : nat) (s : RepeatSource) : RepeatSource :=
  mkSource tokenBytes (take tokenBytes token ++ drop tokenBytes (src_token s)).

(** [recordSource]: whether the evidence changed, and the members after it.
    [token] is the pointer, [None] when null. *)
Definition recordSource (token : option (list Z)) (tokenBytes : nat) (m : Sources) : bool * Sources :=
  match token with
  | None => (false, m)
  | Some token =>
      if (tokenBytes =? 0)%nat || (kRepeatSourceTokenBytes <? tokenBytes)%nat then (false, m)
      else if existsb (sameSource token tokenBytes) (take (sourceCount m) (sources m)) then (false, m)
      else if (kRepeatSourceCapacity <=? sourceCount m)%nat then
        if sourcesTruncated m then (false, m)
        else (true, mkSources (sourceCount m) (sources m) true)
      else
        (true, mkSources (sourceCount m + 1)
                 (alter (storeToken token tokenBytes) (sourceCount m) (sources m))
                 (sourcesTruncated m))
  end.

(** ** The list stays bounded, distinct and complete until it is full *)

Definition tokenOf (s : RepeatSource) : list Z := take (src_tokenBytes s) (src_token s).

Definition recorded (m : Sources) : list (list Z) := tokenOf <$> take (sourceCount m) (sources m).

Record SourcesOk (m : Sources) : Prop := {
  so_length : length (sources m) = kRepeatSourceCapacity;
  so_count : (sourceCount m <= kRepeatSourceCapacity)%nat;
  so_slots : Forall (fun s => length (src_token s) = kRepeatSourceTokenBytes /\
                              (src_tokenBytes s <= kRepeatSourceTokenBytes)%nat) (sources m);
  so_distinct : NoDup (recorded m);
  so_truncated : sourcesTruncated m = true -> sourceCount m = kRepeatSourceCapacity;
}.

Lemma noSources_ok : SourcesOk noSources.
Proof.
  split; [done|simpl; lia| |constructor|discriminate].
  repeat (constructor; [split; [done|simpl; lia]|]). constructor.
Qed.

Lemma sameSource_token token n s : (n <= length token)%nat ->
  length (src_token s) = kRepeatSourceTokenBytes -> (src_tokenBytes s <= kRepeatSourceTokenBytes)%nat ->
  sameSource token n s = true <-> tokenOf s = take n token.
Proof.
  intros Hn Hl Hs. unfold sameSource, tokenOf. rewrite andb_true_iff, Nat.eqb_eq, beq_eq. split.
  - by intros [-> ->].
  - intros E. assert (Hlen := f_equal length E). rewrite !length_take in Hlen.
    assert (E2 : src_tokenBytes s = n) by lia. rewrite E2 in E |- *. by split.
Qed.

Lemma SourcesOk_slot m s : SourcesOk m -> s ∈ take (sourceCount m) (sources m) ->
  length (src_token s) = kRepeatSourceTokenBytes /\ (src_tokenBytes s <= kRepeatSourceTokenBytes)%nat.
Proof.
  intros [_ _ Hs _ _] Hin. apply elem_of_take in Hin as (i & Hi & _).
  exact (Forall_lookup_1 _ _ _ _ Hs Hi).
Qed.

Lemma seen_recorded token n m : SourcesOk m -> (n <= length token)%nat ->
  existsb (sameSource token n) (take (sourceCount m) (sources m)) = true <-> take n token ∈ recorded m.
Proof.
  intros Hm Hn. unfold recorded. rewrite existsb_exists, list_elem_of_fmap.
  split; intros (s & H1 & H2); exists s.
  - apply list_elem_of_In in H1. destruct (SourcesOk_slot m s Hm H1).
    split; [symmetry; by apply sameSource_token|done].
  - destruct (SourcesOk_slot m s Hm H2). split; [by apply list_elem_of_In|].
    by apply sameSource_token.
Qed.

Lemma recorded_append token n m : SourcesOk m -> (1 <= n <= kRepeatSourceTokenBytes)%nat ->
  (n <= length token)%nat -> (sourceCount m < kRepeatSourceCapacity)%nat ->
  let m' := mkSources (sourceCount m + 1) (alter (storeToken token n) (sourceCount m) (sources m))
              (sourcesTruncated m) in
  recorded m' = recorded m ++ [take n token] /\
  Forall (fun s => length (src_token s) = kRepeatSourceTokenBytes /\
                   (src_tokenBytes s <= kRepeatSourceTokenBytes)%nat) (sources m').
Proof.
  intros [Hl Hc Hs Hd Htr] Hn Ht Hlt m'. split.
  - unfold recorded, m'. cbn [sourceCount sources].
    destruct (lookup_lt_is_Some_2 (sources m) (sourceCount m) ltac:(lia)) as [s Es].
    rewrite Nat.add_1_r. rewrite (take_S_r _ _ (storeToken token n s)) by (by rewrite list_lookup_alter_eq, Es).
    rewrite take_alter_ge, fmap_app by done. f_equal. simpl. unfold tokenOf. simpl.
    destruct (Forall_lookup_1 _ _ _ _ Hs Es) as [Hsl _].
    rewrite take_app_length' by (rewrite length_take; lia). done.
  - apply Forall_alter; [done|]. intros s Es [Hsl Hsb]. simpl. unfold kRepeatSourceTokenBytes in *.
    rewrite length_app, length_take, length_drop. lia.
Qed.

(** What one report does: nothing for a token already recorded, otherwise the
    token is appended, or only marked as truncated once four are held. *)
Lemma recordSource_spec token n m : SourcesOk m -> (1 <= n <= kRepeatSourceTokenBytes)%nat ->
  (n <= length token)%nat ->
  let m' := snd (recordSource (Some token) n m) in
  SourcesOk m' /\
  (take n token ∈ recorded m -> m' = m) /\
  (take n token ∉ recorded m -> (sourceCount m < kRepeatSourceCapacity)%nat ->
     recorded m' = recorded m ++ [take n token]) /\
  (take n token ∉ recorded m -> sourceCount m = kRepeatSourceCapacity ->
     recorded m' = recorded m /\ sourcesTruncated m' = true).
Proof.
  intros Hm Hn Ht. pose proof Hm as [Hl Hc Hs Hd Htr].
  pose proof (seen_recorded token n m Hm Ht) as Hex. unfold recordSource.
  destruct (Nat.eqb_spec n 0); [lia|]. destruct (Nat.ltb_spec kRepeatSourceTokenBytes n); [lia|].
  cbv [orb]. destruct (existsb _ _).
  { assert (take n token ∈ recorded m) by (by apply Hex). split_and!; done. }
  assert (Hnew : take n token ∉ recorded m) by (intros Hin; apply Hex in Hin; discriminate).
  destruct (Nat.leb_spec kRepeatSourceCapacity (sourceCount m)) as [Hge|Hlt].
  - destruct (sourcesTruncated m) eqn:Etr; simpl.
    + split_and!; try done. lia.
    + split_and!; try done; [|lia]. split; simpl; auto. intros _. lia.
  - simpl. destruct (recorded_append token n m Hm Hn Ht Hlt) as [Hr Hf].
    split_and!; try done; [|lia]. split; [simpl; by rewrite length_alter|simpl; lia|exact Hf| |].
    + rewrite Hr. apply NoDup_app. split_and!; [done| |apply NoDup_singleton]. intros x Hx Hx2%list_elem_of_singleton. by subst.
    + simpl. intros E. apply Htr in E. lia.
Qed.

Lemma recordSource_ok token n m : SourcesOk m ->
  (forall t, token = Some t -> (n <= length t)%nat) ->
  SourcesOk (snd (recordSource token n m)).
Proof.
  intros Hm Ht. destruct token as [t|]; [|done].
  destruct (decide (1 <= n <= kRepeatSourceTokenBytes)%nat) as [Hn|Hn].
  - apply recordSource_spec; auto.
  - unfold recordSource. destruct (Nat.eqb_spec n 0); [done|].
    destruct (Nat.ltb_spec kRepeatSourceTokenBytes n); [done|lia].
Qed.
