(* ===== verification/ChannelRepeat.v ===== *)
(** * Channel repeat tracker (src/src/kitsu_channel_repeat_tracker.h, .cpp)

    Counts the rebroadcast copies heard of recently sent channel packets, over
    24 slots with a two-minute window each.  A pointer argument is an option,
    [None] the null pointer; hashes and digests are their bytes. *)

From S2P Require Import Prelude RepeatWire RepeatSource.

Open Scope Z_scope.

(** ** Data *)

Definition kChannelRepeatHashBytes : nat := 8.
Definition kChannelRepeatDigestBytes : nat := 32.
Definition kChannelGroupTextPayloadType : Z := 0x05.
Definition kChannelRepeatSlotCount : Z := 4.
Definition kChannelRepeatTrackerCapacity : nat := 24.
Definition kChannelRepeatWindowMs : Z := 120000.

Record ChannelRepeatObservation := mkObservation {
  obs_channelSlot : Z;
  obs_messageTimestamp : Z;
  obs_repeatCount : Z;
  obs_observationOpen : bool;
  obs_sources : Sources;
}.

Definition noObservation : ChannelRepeatObservation := mkObservation 0xff 0 0 false noSources.

Inductive ChannelRepeatObserveResult :=
  | NotCandidate | NoHashMatch | WireMismatch | DigestMismatch | Recorded | Saturated.

#[export] Instance ChannelRepeatObserveResult_eq_dec : EqDecision ChannelRepeatObserveResult.
Proof. solve_decision. Defined.

Record Entry := mkEntry {
  active : bool;
  hash : list Z;
  digest : list Z;
  e_route : FloodRouteBinding;
  channelSlot : Z;
  messageTimestamp : Z;
  sentAtMs : Z;
  repeatCount : Z;
  e_sources : Sources;
  dirty : bool;
  closePending : bool;
}.

(** [Entry{}] *)
Definition blank : Entry :=
  mkEntry false (replicate kChannelRepeatHashBytes 0) (replicate kChannelRepeatDigestBytes 0)
    noBinding 0xff 0 0 0 noSources false false.

Definition set_dirty (v : bool) (e : Entry) : Entry :=
  mkEntry (active e) (hash e) (digest e) (e_route e) (channelSlot e) (messageTimestamp e)
    (sentAtMs e) (repeatCount e) (e_sources e) v (closePending e).
Definition set_repeatCount (v : Z) (e : Entry) : Entry :=
  mkEntry (active e) (hash e) (digest e) (e_route e) (channelSlot e) (messageTimestamp e)
    (sentAtMs e) v (e_sources e) (dirty e) (closePending e).
Definition set_sources (v : Sources) (e : Entry) : Entry :=
  mkEntry (active e) (hash e) (digest e) (e_route e) (channelSlot e) (messageTimestamp e)
    (sentAtMs e) (repeatCount e) v (dirty e) (closePending e).

(** [entry.active = false; entry.dirty = true; entry.closePending = true] *)
Definition close (e : Entry) : Entry :=
  mkEntry false (hash e) (digest e) (e_route e) (channelSlot e) (messageTimestamp e)
    (sentAtMs e) (repeatCount e) (e_sources e) true true.

(** The member array [entries_]. *)
Abbreviation Tracker := (list Entry).
Definition tracker0 : Tracker := replicate kChannelRepeatTrackerCapacity blank.

(** ** Digest of a packet *)

Section Digest.
(** [SHA256::update] and [finalize] of the Arduino cryptography library, as the
    digest of the bytes fed to it. *)
Context (SHA256 : list Z -> list Z).

(** [None] when the function returns false; [body = None] is a null payload. *)
Definition calculateChannelRepeatDigest (type : Z) (body : option (list Z)) (bodyBytes : nat)
    (hasOutput : bool) : option (list Z) :=
  if negb hasOutput then None
  else match body with
       | None =>
           if (bodyBytes =? 0)%nat then Some (take kChannelRepeatDigestBytes (SHA256 [type])) else None
       | Some body => Some (take kChannelRepeatDigestBytes (SHA256 (type :: take bodyBytes body)))
       end.
End Digest.

(** ** Operations *)

Definition fillObservation (e : Entry) : ChannelRepeatObservation :=
  mkObservation (channelSlot e) (messageTimestamp e) (repeatCount e) (active e) (e_sources e).

Definition expired (nowMs : Z) (e : Entry) : bool :=
  active e && (kChannelRepeatWindowMs <=? u32 (nowMs - sentAtMs e)).

Definition expire (nowMs : Z) (t : Tracker) : Tracker :=
  map (fun e => if expired nowMs e then close e else e) t.

Definition hasKey (slot timestamp : Z) (e : Entry) : bool :=
  active e && (channelSlot e =? slot) && (messageTimestamp e =? timestamp).

Inductive SlotChoice :=
  | AlreadyRecorded
  | Selected (index : nat)
  | NoSlot.

(** The selection loop of [recordSent] from slot [index] on, [selected] being
    the first reusable slot so far. *)
Fixpoint chooseEntry (t : Tracker) (index : nat) (selected : option nat) (h d : list Z)
    (r : FloodRouteBinding) (slot timestamp : Z) : SlotChoice :=
  match t with
  | [] => match selected with Some i => Selected i | None => NoSlot end
  | e :: rest =>
      if hasKey slot timestamp e then
        if beq (hash e) h && beq (digest e) d && sameFloodRouteBinding (e_route e) r
        then AlreadyRecorded else Selected index
      else
        let selected' :=
          match selected with
          | Some i => Some i
          | None => if negb (active e) && negb (dirty e) then Some index else None
          end in
        chooseEntry rest (index + 1)%nat selected' h d r slot timestamp
  end.

Definition sentEntry (h d : list Z) (r : FloodRouteBinding) (slot timestamp nowMs : Z) : Entry :=
  mkEntry true h d r slot timestamp nowMs 0 noSources false false.

Definition recordSent (type : Z) (r : FloodRouteBinding) (h d : option (list Z))
    (slot timestamp nowMs : Z) (t : Tracker) : bool * Tracker :=
  match h, d with
  | Some h, Some d =>
      if negb (type =? kChannelGroupTextPayloadType) || negb (validFloodRouteBinding r) ||
         (kChannelRepeatSlotCount <=? slot) || (timestamp =? 0)
      then (false, t)
      else
        let t := expire nowMs t in
        match chooseEntry t 0 None h d r slot timestamp with
        | AlreadyRecorded => (true, t)
        | NoSlot => (false, t)
        | Selected i => (true, <[i := sentEntry h d r slot timestamp nowMs]> t)
        end
  | _, _ => (false, t)
  end.

(** The correlation loop of [observeDetailed]: the selected slot with its age,
    and the two diagnostic flags. *)
Record Correlation := mkCorrelation {
  c_selected : option (nat * Z);
  c_hashMatched : bool;
  c_wireMismatch : bool;
}.

Definition correlateEntry (h d : list Z) (r : FloodRouteBinding) (nowMs : Z) (index : nat)
    (e : Entry) (c : Correlation) : Correlation :=
  if negb (active e) || negb (beq (hash e) h) then c
  else if negb (sameFloodRouteBinding (e_route e) r) then
    mkCorrelation (c_selected c) true (c_wireMismatch c || beq (digest e) d)
  else if negb (beq (digest e) d) then
    mkCorrelation (c_selected c) true (c_wireMismatch c)
  else
    let age := u32 (nowMs - sentAtMs e) in
    let better := match c_selected c with None => true | Some (_, best) => age <? best end in
    mkCorrelation (if better then Some (index, age) else c_selected c) true (c_wireMismatch c).

Fixpoint correlate (t : Tracker) (index : nat) (h d : list Z) (r : FloodRouteBinding) (nowMs : Z)
    (c : Correlation) : Correlation :=
  match t with
  | [] => c
  | e :: rest => correlate rest (index + 1)%nat h d r nowMs (correlateEntry h d r nowMs index e c)
  end.

(** What happens to the selected entry: the result and the entry after it; the
    observation is filled from the latter. *)
Definition countCopy (token : option (list Z)) (tokenBytes : nat) (e : Entry)
  : ChannelRepeatObserveResult * Entry :=
  let '(sourceChanged, m) := recordSource token tokenBytes (e_sources e) in
  let e1 := set_sources m e in
  if repeatCount e1 =? 0xff then (Saturated, if sourceChanged then set_dirty true e1 else e1)
  else (Recorded, set_dirty true (set_repeatCount (u8 (repeatCount e1 + 1)) e1)).

Definition observeDetailed (type : Z) (r : FloodRouteBinding) (hops : Z) (h d : option (list Z))
    (lastHop : option (list Z)) (lastHopBytes : nat) (nowMs : Z) (t : Tracker)
  : ChannelRepeatObserveResult * ChannelRepeatObservation * Tracker :=
  let t := expire nowMs t in
  match h, d with
  | Some h, Some d =>
      if negb (type =? kChannelGroupTextPayloadType) || negb (validFloodRouteBinding r) || (hops =? 0)
      then (NotCandidate, noObservation, t)
      else
        let c := correlate t 0 h d r nowMs (mkCorrelation None false false) in
        match c_selected c with
        | None =>
            (if c_wireMismatch c then WireMismatch
             else if c_hashMatched c then DigestMismatch else NoHashMatch, noObservation, t)
        | Some (i, _) =>
            let '(res, e) := countCopy lastHop lastHopBytes (default blank (t !! i)) in
            (res, fillObservation e, <[i := e]> t)
        end
  | _, _ => (NotCandidate, noObservation, t)
  end.

(** The overload without a token. *)
Definition observeUntraced type r hops h d nowMs t :=
  observeDetailed type r hops h d None 0 nowMs t.

Definition observe type r hops h d nowMs t : bool * ChannelRepeatObservation * Tracker :=
  let '(res, o, t') := observeUntraced type r hops h d nowMs t in
  (bool_decide (res = Recorded), o, t').

Definition lookupSent (slot timestamp nowMs : Z) (t : Tracker)
  : option ChannelRepeatObservation * Tracker :=
  let t := expire nowMs t in
  (fillObservation <$> List.find (hasKey slot timestamp) t, t).

(** The selection loop of [takeDirty]: the first dirty entry whose timestamp is
    the oldest in wrap-around order. *)
Definition olderThan (a b : Z) : bool := s32 (a - b) <? 0.

Fixpoint chooseDirty (t : Tracker) (index : nat) (selected : option (nat * Z)) : option (nat * Z) :=
  match t with
  | [] => selected
  | e :: rest =>
      let selected' :=
        if negb (dirty e) then selected
        else match selected with
             | None => Some (index, messageTimestamp e)
             | Some (_, best) =>
                 if olderThan (messageTimestamp e) best then Some (index, messageTimestamp e)
                 else selected
             end in
      chooseDirty rest (index + 1)%nat selected'
  end.

Definition takeDirty (t : Tracker) : option ChannelRepeatObservation * Tracker :=
  match chooseDirty t 0 None with
  | None => (None, t)
  | Some (i, _) =>
      let e := set_dirty false (default blank (t !! i)) in
      (Some (fillObservation e), <[i := if closePending e then blank else e]> t)
  end.

Definition activeCount (nowMs : Z) (t : Tracker) : nat * Tracker :=
  let t := expire nowMs t in
  (foldr (fun e n => if active e then S n else n) 0%nat t, t).

Definition closeAll (t : Tracker) : Tracker :=
  map (fun e => if active e then close e else e) t.

Definition clear (t : Tracker) : Tracker := map (fun _ => blank) t.
