(* ===== verification/ChannelRepeatFacts.v ===== *)
(** * Channel repeat tracker: correlation, lifecycles and delivery *)

From S2P Require Import Prelude RepeatWire RepeatWireFacts RepeatSource ChannelRepeat.

Open Scope Z_scope.

(** ** The invariant of the slots *)

Record EntryOk (e : Entry) : Prop := {
  eo_pending : closePending e = true -> active e = false /\ dirty e = true;
  eo_free : active e = false -> closePending e = false -> e = blank;
  eo_count : 0 <= repeatCount e <= 255;
  eo_sources : SourcesOk (e_sources e);
}.

Definition TrackerOk (t : Tracker) : Prop :=
  length t = kChannelRepeatTrackerCapacity /\ Forall EntryOk t.

Lemma blank_ok : EntryOk blank.
Proof. split; try done; apply noSources_ok. Qed.

Lemma close_ok e : EntryOk e -> active e = true -> EntryOk (close e).
Proof. intros [] Ha. by split. Qed.

Lemma sentEntry_ok h d r slot ts now : EntryOk (sentEntry h d r slot ts now).
Proof. split; try done; apply noSources_ok. Qed.

Lemma blank_clean e : EntryOk e -> active e = false -> dirty e = false -> e = blank.
Proof.
  intros [Hp Hf _ _] Ha Hd. apply Hf; [done|].
  destruct (closePending e) eqn:E; [|done]. destruct (Hp eq_refl). congruence.
Qed.

Lemma tracker0_ok : TrackerOk tracker0.
Proof. split; [done|]. apply Forall_replicate, blank_ok. Qed.

Lemma map_ok f t : TrackerOk t -> (forall e, EntryOk e -> EntryOk (f e)) -> TrackerOk (map f t).
Proof.
  intros [Hl He] Hf. split; [by rewrite length_map|]. apply Forall_map. eapply Forall_impl; eauto.
Qed.

Lemma insert_ok t i e : TrackerOk t -> EntryOk e -> TrackerOk (<[i := e]> t).
Proof. intros [Hl He] H. split; [by rewrite length_insert|by apply Forall_insert]. Qed.

Lemma default_ok t i : TrackerOk t -> EntryOk (default blank (t !! i)).
Proof.
  intros [_ He]. destruct (t !! i) eqn:E; [|apply blank_ok]. exact (Forall_lookup_1 _ _ _ _ He E).
Qed.

Lemma expire_ok now t : TrackerOk t -> TrackerOk (expire now t).
Proof.
  intros Ht. apply map_ok; [done|]. intros e He. unfold expired. destruct (active e) eqn:Ea; [|done].
  destruct (_ <=? _); [by apply close_ok|done].
Qed.

Definition tokenOk (token : option (list Z)) (n : nat) : Prop :=
  forall t, token = Some t -> (n <= length t)%nat.

Lemma countCopy_ok token n e : tokenOk token n -> EntryOk e -> active e = true ->
  EntryOk (snd (countCopy token n e)).
Proof.
  intros Hn [Hp Hf Hc Hs] Ha. unfold countCopy.
  pose proof (recordSource_ok token n (e_sources e) Hs Hn) as Hs'.
  destruct (recordSource token n (e_sources e)) as [ch m]. simpl in Hs' |- *.
  destruct (Z.eqb_spec (repeatCount e) 255) as [E|E]; [destruct ch|]; simpl;
    (split; simpl; [intros Hcp; destruct (Hp Hcp); congruence|congruence|auto|auto]).
  rewrite u8_id by lia. lia.
Qed.

(** ** Correlation *)

(** What makes an entry the origin of a received copy. *)
Definition originates (h d : list Z) (r : FloodRouteBinding) (e : Entry) : bool :=
  active e && beq (hash e) h && sameFloodRouteBinding (e_route e) r && beq (digest e) d.

Definition age (now : Z) (e : Entry) : Z := u32 (now - sentAtMs e).

Lemma correlateEntry_selected h d r now i e c :
  c_selected (correlateEntry h d r now i e c) =
  if originates h d r e && match c_selected c with None => true | Some (_, b) => age now e <? b end
  then Some (i, age now e) else c_selected c.
Proof.
  unfold correlateEntry, originates, age.
  destruct (active e), (beq (hash e) h), (sameFloodRouteBinding (e_route e) r), (beq (digest e) d); try done.
Qed.

(** The loop selects a youngest origin, the first one of that age. *)
Lemma correlate_selected h d r now t k c :
  match c_selected (correlate t k h d r now c) with
  | None => c_selected c = None /\ Forall (fun e => originates h d r e = false) t
  | Some (j, a) =>
      (c_selected c = Some (j, a) \/
       exists n e, j = (k + n)%nat /\ t !! n = Some e /\ originates h d r e = true /\ a = age now e) /\
      (forall e, e ∈ t -> originates h d r e = true -> a <= age now e) /\
      (forall j0 a0, c_selected c = Some (j0, a0) -> a <= a0)
  end.
Proof.
  revert k c. induction t as [|e t IH]; intros k c; simpl.
  { destruct (c_selected c) as [[j a]|]; [|done]. split_and!; [by left| |].
    - intros e He. by apply not_elem_of_nil in He.
    - intros j0 a0 [= -> ->]. lia. }
  specialize (IH (k + 1)%nat (correlateEntry h d r now k e c)).
  pose proof (correlateEntry_selected h d r now k e c) as Es.
  destruct (c_selected (correlate t (k + 1) h d r now (correlateEntry h d r now k e c))) as [[j a]|].
  - destruct IH as (Hsel & Hmin & Hle). split_and!.
    + destruct Hsel as [Hc|(n & e' & -> & Hn & Ho & ->)].
      * rewrite Hc in Es. destruct (originates h d r e) eqn:Eo; simpl in Es; [|by left].
        destruct (match c_selected c with None => true | Some (_, b) => age now e <? b end); [|by left].
        injection Es as -> ->. right. exists 0%nat, e. split_and!; try done; lia.
      * right. exists (S n), e'. split_and!; try done; lia.
    + intros e' [->|He']%elem_of_cons Ho; [|by apply Hmin]. rewrite Ho in Es. simpl in Es.
      destruct (c_selected c) as [[j0 b]|].
      * destruct (Z.ltb_spec (age now e) b); [by apply Hle in Es|]. apply Hle in Es. lia.
      * by apply Hle in Es.
    + intros j0 a0 Hc. rewrite Hc in Es. destruct (originates h d r e); simpl in Es; [|by apply Hle in Es].
      destruct (Z.ltb_spec (age now e) a0); apply Hle in Es; lia.
  - destruct IH as [Hn Hf]. rewrite Hn in Es. destruct (originates h d r e) eqn:Eo; simpl in Es.
    + by destruct (c_selected c) as [[j0 b]|]; [destruct (age now e <? b)|].
    + split; [done|]. by constructor.
Qed.

(** ** Observing a copy *)

Definition countedOnce (e e' : Entry) : Prop :=
  repeatCount e' = Z.min 255 (repeatCount e + 1) /\ active e' = active e /\
  hash e' = hash e /\ digest e' = digest e /\ e_route e' = e_route e /\
  channelSlot e' = channelSlot e /\ messageTimestamp e' = messageTimestamp e /\
  sentAtMs e' = sentAtMs e /\ closePending e' = closePending e /\
  (dirty e = true -> dirty e' = true).

Lemma countCopy_counted token n e : EntryOk e ->
  let '(res, e') := countCopy token n e in
  countedOnce e e' /\ (res = Recorded /\ repeatCount e < 255 /\ dirty e' = true \/
                   res = Saturated /\ repeatCount e = 255).
Proof.
  intros [_ _ Hc _]. unfold countCopy. destruct (recordSource token n (e_sources e)) as [ch m]. simpl.
  destruct (Z.eqb_spec (repeatCount e) 255) as [E|E].
  - split; [|by right]. destruct ch; unfold countedOnce; simpl; rewrite E; by split_and!.
  - split; [|left; split_and!; [done|lia|done]].
    unfold countedOnce. simpl. rewrite u8_id by lia. split_and!; try done. lia.
Qed.

(** A heard copy is attributed exactly. The tracker counts it if and only if,
    once expired windows are closed, some open entry has its 64-bit hash, its full
    digest and its route; then exactly one such entry changes, one of the most
    recently sent, its count goes up by one and saturates at 255, and its identity
    stays; in every other case no entry changes beyond the expiry. *)
Theorem observation_attributed t r hops h d token n now : TrackerOk t ->
  validFloodRouteBinding r = true -> hops <> 0 ->
  let t1 := expire now t in
  let '(res, o, t') :=
    observeDetailed kChannelGroupTextPayloadType r hops (Some h) (Some d) token n now t in
  (res = Recorded \/ res = Saturated <-> exists e, e ∈ t1 /\ originates h d r e = true) /\
  ((res = Recorded \/ res = Saturated) ->
     exists i e e', t1 !! i = Some e /\ t' = <[i := e']> t1 /\ originates h d r e = true /\
       countedOnce e e' /\ o = fillObservation e' /\ (res = Saturated <-> repeatCount e = 255) /\
       forall e2, e2 ∈ t1 -> originates h d r e2 = true -> age now e <= age now e2) /\
  (~ (res = Recorded \/ res = Saturated) -> t' = t1 /\ o = noObservation).
Proof.
  intros Ht Hr Hh t1. unfold observeDetailed. fold t1. rewrite Hr.
  rewrite (proj2 (Z.eqb_neq hops 0)) by done. cbn [negb Z.eqb orb].
  change (kChannelGroupTextPayloadType =? kChannelGroupTextPayloadType) with true. cbn [negb orb].
  pose proof (correlate_selected h d r now t1 0 (mkCorrelation None false false)) as Hc.
  destruct (correlate t1 0 h d r now (mkCorrelation None false false)) as [sel hm wm]. simpl in Hc |- *.
  destruct sel as [[i a]|].
  - destruct Hc as ([?|(m & e & -> & Hm & Ho & ->)] & Hmin & _); [done|]. simpl. rewrite Hm. simpl.
    assert (He : EntryOk e) by (eapply Forall_lookup_1; [apply (expire_ok now t Ht)|exact Hm]).
    pose proof (countCopy_counted token n e He) as Hcnt.
    destruct (countCopy token n e) as [res e']. destruct Hcnt as [Hcnt1 Hres].
    assert (Hrs : res = Recorded \/ res = Saturated) by (destruct Hres as [[-> _]|[-> _]]; auto).
    split_and!.
    + split; [|done]. intros _. exists e. split; [by eapply list_elem_of_lookup_2|done].
    + intros _. exists m, e, e'. split_and!; try done.
      destruct Hres as [(-> & ? & _)|[-> ?]]; split; try done. lia.
    + done.
  - destruct Hc as [_ Hf]. split_and!; try done.
    + split; [destruct wm, hm; intros [?|?]; done|].
      intros (e & He & Ho). rewrite Forall_forall in Hf. rewrite Hf in Ho by done. done.
    + destruct wm, hm; intros [?|?]; done.
Qed.

(** ** Runs of the tracker *)

Inductive Op :=
  | OpSent (type : Z) (r : FloodRouteBinding) (h d : option (list Z)) (slot timestamp now : Z)
  | OpObserve (type : Z) (r : FloodRouteBinding) (hops : Z) (h d token : option (list Z)) (n : nat) (now : Z)
  | OpLookup (slot timestamp now : Z)
  | OpTake
  | OpCount (now : Z)
  | OpExpire (now : Z)
  | OpCloseAll
  | OpClear.

(** Token pointers cover the bytes their length promises. *)
Definition opOk (op : Op) : Prop :=
  match op with OpObserve _ _ _ _ _ token n _ => tokenOk token n | _ => True end.

Definition runOp (op : Op) (t : Tracker) : Tracker :=
  match op with
  | OpSent type r h d slot ts now => snd (recordSent type r h d slot ts now t)
  | OpObserve type r hops h d token n now => snd (observeDetailed type r hops h d token n now t)
  | OpLookup slot ts now => snd (lookupSent slot ts now t)
  | OpTake => snd (takeDirty t)
  | OpCount now => snd (activeCount now t)
  | OpExpire now => expire now t
  | OpCloseAll => closeAll t
  | OpClear => clear t
  end.

(** The identity of a lifecycle. *)
Definition sameLife (e e' : Entry) : Prop :=
  channelSlot e' = channelSlot e /\ messageTimestamp e' = messageTimestamp e /\
  hash e' = hash e /\ digest e' = digest e /\ e_route e' = e_route e /\ sentAtMs e' = sentAtMs e /\
  repeatCount e <= repeatCount e' /\ (closePending e = true -> e' = e) /\
  (active e' = true \/ closePending e' = true).

Definition occupied (e : Entry) : bool := active e || closePending e.

Lemma sameLife_refl e : occupied e = true -> sameLife e e.
Proof. unfold occupied. intros H%orb_true_iff. by split_and!. Qed.

Lemma sameLife_close e : closePending e = false -> sameLife e (close e).
Proof. intros E. split_and!; simpl; try done; try lia; try congruence; by right. Qed.

Lemma sameLife_trans a b c : sameLife a b -> sameLife b c -> sameLife a c.
Proof.
  intros (A1 & A2 & A3 & A4 & A5 & A6 & A7 & A8 & A9) (B1 & B2 & B3 & B4 & B5 & B6 & B7 & B8 & B9).
  split_and!; try congruence; [lia|]. intros Hc. pose proof (A8 Hc). subst b. by apply B8.
Qed.

Lemma occupied_life e e' : sameLife e e' -> occupied e' = true.
Proof. intros (_ & _ & _ & _ & _ & _ & _ & _ & H). unfold occupied. by apply orb_true_iff. Qed.

Lemma expire_life now t i e : TrackerOk t -> t !! i = Some e -> occupied e = true ->
  exists e', expire now t !! i = Some e' /\ sameLife e e'.
Proof.
  intros [_ Ht] Hi Ho. assert (He := Forall_lookup_1 _ _ _ _ Ht Hi). unfold expire.
  rewrite list_lookup_fmap, Hi. simpl. eexists. split; [done|].
  unfold expired. destruct (active e) eqn:Ea; simpl; [|by apply sameLife_refl].
  destruct (_ <=? _); [|by apply sameLife_refl]. apply sameLife_close.
  destruct (closePending e) eqn:E; [|done]. destruct (eo_pending e He E). congruence.
Qed.

Lemma closeAll_life t i e : TrackerOk t -> t !! i = Some e -> occupied e = true ->
  exists e', closeAll t !! i = Some e' /\ sameLife e e'.
Proof.
  intros [_ Ht] Hi Ho. assert (He := Forall_lookup_1 _ _ _ _ Ht Hi). unfold closeAll.
  rewrite list_lookup_fmap, Hi. simpl. eexists. split; [done|].
  destruct (active e) eqn:Ea; simpl; [|by apply sameLife_refl]. apply sameLife_close.
  destruct (closePending e) eqn:E; [|done]. destruct (eo_pending e He E). congruence.
Qed.

Lemma insert_life (t : Tracker) (i j : nat) e e' f : t !! i = Some e -> (i = j -> sameLife e f) -> (i <> j -> t !! i = Some e') ->
  sameLife e e' -> exists e'', <[j := f]> t !! i = Some e'' /\ sameLife e e''.
Proof.
  intros Hi Hf Hn He. destruct (decide (i = j)) as [->|Hij].
  - exists f. split; [|auto]. apply list_lookup_insert_eq. by apply lookup_lt_Some in Hi.
  - exists e'. split; [|done]. rewrite list_lookup_insert_ne by done. auto.
Qed.

(** Where [recordSent] may write: a free slot, or the open slot of its key. *)
Lemma chooseEntry_selected t k sel h d r slot ts j :
  chooseEntry t k sel h d r slot ts = Selected j ->
  sel = Some j \/ exists n e, j = (k + n)%nat /\ t !! n = Some e /\
    (active e = false /\ dirty e = false \/
     hasKey slot ts e = true /\
     (beq (hash e) h && beq (digest e) d && sameFloodRouteBinding (e_route e) r) = false).
Proof.
  revert k sel. induction t as [|e t IH]; intros k sel; simpl.
  - destruct sel; [|done]. intros [= ->]. by left.
  - destruct (hasKey slot ts e) eqn:Ek.
    + destruct (_ && sameFloodRouteBinding _ _) eqn:Eq; [done|]. intros [= <-]. right. exists 0%nat, e. split_and!; auto.
    + intros [Hs|(n & e' & -> & Hn & Hc)]%IH.
      * destruct sel as [i|]; [by left|]. destruct (active e) eqn:Ea, (dirty e) eqn:Ed; simpl in Hs; try done.
        injection Hs as <-. right. exists 0%nat, e. split_and!; auto.
      * right. exists (S n), e'. split_and!; try done; lia.
Qed.

(** ** Draining *)

Definition pendingObs (t : Tracker) : list ChannelRepeatObservation :=
  fillObservation <$> base.filter (fun e => dirty e = true) t.

Lemma chooseDirty_spec t k sel :
  match chooseDirty t k sel with
  | None => sel = None /\ Forall (fun e => dirty e = false) t
  | Some (j, ts) => sel = Some (j, ts) \/
      exists n e, j = (k + n)%nat /\ t !! n = Some e /\ dirty e = true
  end.
Proof.
  revert k sel. induction t as [|e t IH]; intros k sel; simpl.
  { destruct sel as [[j ts]|]; [by left|done]. }
  specialize (IH (k + 1)%nat (if negb (dirty e) then sel else
    match sel with
    | None => Some (k, messageTimestamp e)
    | Some (_, best) => if olderThan (messageTimestamp e) best then Some (k, messageTimestamp e) else sel
    end)).
  destruct (chooseDirty _ _ _) as [[j ts]|].
  - destruct IH as [Hs|(n & e' & -> & Hn & Hd)].
    + destruct (dirty e) eqn:Ed; simpl in Hs; [|by left].
      assert (Hk : Some (k, messageTimestamp e) = Some (j, ts) -> exists n e0,
        j = (k + n)%nat /\ (e :: t) !! n = Some e0 /\ dirty e0 = true).
      { intros [= <- _]. exists 0%nat, e. split_and!; auto. }
      destruct sel as [[j0 b]|]; [|right; auto].
      destruct (olderThan _ _); [right; auto|by left].
    + right. exists (S n), e'. split_and!; try done; lia.
  - destruct IH as [Hs Hf]. destruct (dirty e) eqn:Ed; simpl in Hs.
    + destruct sel as [[? b]|]; [destruct (olderThan _ b)|]; done.
    + split; [done|by constructor].
Qed.

(** [takeDirty] on a tracker: nothing while no entry is dirty, else it reports
    one dirty entry, which is then clean, or free when its window is closed. *)
Lemma takeDirty_spec t :
  match takeDirty t with
  | (None, t') => t' = t /\ Forall (fun e => dirty e = false) t
  | (Some o, t') => exists i e, t !! i = Some e /\ dirty e = true /\ o = fillObservation e /\
      t' = <[i := if closePending e then blank else set_dirty false e]> t
  end.
Proof.
  unfold takeDirty. pose proof (chooseDirty_spec t 0 None) as H.
  destruct (chooseDirty t 0 None) as [[j ts]|]; [|by destruct H].
  destruct H as [?|(n & e & -> & Hn & Hd)]; [done|]. simpl. rewrite Hn. simpl.
  exists n, e. split_and!; done.
Qed.

Lemma takeDirty_ok t : TrackerOk t -> TrackerOk (snd (takeDirty t)).
Proof.
  intros Ht. pose proof (takeDirty_spec t) as H. destruct (takeDirty t) as [[o|] t']; simpl.
  - destruct H as (i & e & Hi & Hd & -> & ->). apply insert_ok; [done|].
    assert (He : EntryOk e) by (eapply Forall_lookup_1; [apply Ht|done]).
    destruct (closePending e) eqn:Ec; [apply blank_ok|].
    destruct He. split; simpl; auto; [congruence|]. intros Ha. rewrite (eo_free0 Ha Ec) in Hd. done.
  - by destruct H as [-> _].
Qed.

(** ** Every operation keeps the invariant *)

Lemma closeAll_ok t : TrackerOk t -> TrackerOk (closeAll t).
Proof.
  intros Ht. apply map_ok; [done|]. intros e He. destruct (active e) eqn:Ea; [by apply close_ok|done].
Qed.

Lemma observed_slot t h d r now j a :
  c_selected (correlate t 0 h d r now (mkCorrelation None false false)) = Some (j, a) ->
  exists e, t !! j = Some e /\ originates h d r e = true.
Proof.
  intros Hs. pose proof (correlate_selected h d r now t 0 (mkCorrelation None false false)) as Hc.
  rewrite Hs in Hc. destruct Hc as ([?|(n & e & -> & Hn & Ho & _)] & _); [done|eauto].
Qed.

Lemma originates_active h d r e : originates h d r e = true -> active e = true.
Proof. unfold originates. by destruct (active e). Qed.

Lemma observe_ok t type r hops h d token n now : TrackerOk t -> tokenOk token n ->
  TrackerOk (snd (observeDetailed type r hops h d token n now t)).
Proof.
  intros Ht Hn. pose proof (expire_ok now t Ht) as H1. unfold observeDetailed.
  destruct h as [h|]; [|done]. destruct d as [d|]; [|done]. destruct (orb _ _); [done|].
  destruct (c_selected _) as [[j a]|] eqn:Es; [|done].
  apply observed_slot in Es as (e & Hj & Ho). rewrite Hj. simpl.
  assert (He : EntryOk e) by (eapply Forall_lookup_1; [apply H1|done]).
  pose proof (countCopy_ok token n e Hn He (originates_active _ _ _ _ Ho)) as Hok.
  destruct (countCopy token n e) as [res e']. by apply insert_ok.
Qed.

Lemma recordSent_ok t type r h d slot ts now : TrackerOk t ->
  TrackerOk (snd (recordSent type r h d slot ts now t)).
Proof.
  intros Ht. unfold recordSent. destruct h as [h|]; [|done]. destruct d as [d|]; [|done].
  destruct (orb _ _); [done|]. destruct (chooseEntry _ _ _ _ _ _ _ _); simpl; try by apply expire_ok.
  apply insert_ok; [by apply expire_ok|apply sentEntry_ok].
Qed.

Lemma runOp_ok op t : TrackerOk t -> opOk op -> TrackerOk (runOp op t).
Proof.
  intros Ht Hop. destruct op; simpl in *.
  - by apply recordSent_ok.
  - by apply observe_ok.
  - by apply expire_ok.
  - by apply takeDirty_ok.
  - by apply expire_ok.
  - by apply expire_ok.
  - by apply closeAll_ok.
  - apply map_ok; [done|]. intros _ _. apply blank_ok.
Qed.

Definition run (ops : list Op) : Tracker := fold_left (fun t op => runOp op t) ops tracker0.

Lemma run_ok ops : Forall opOk ops -> TrackerOk (run ops).
Proof.
  intros Hops. unfold run. assert (H : TrackerOk tracker0) by apply tracker0_ok. revert H.
  generalize tracker0. induction Hops as [|op ops Hop _ IH]; intros t Ht; simpl; [done|].
  apply IH. by apply runOp_ok.
Qed.

(** ** Lifecycles are never lost *)

Lemma counted_life e e' : closePending e = false -> active e = true -> repeatCount e <= 255 ->
  countedOnce e e' -> sameLife e e'.
Proof.
  intros Hp Ha Hc (E1 & E2 & E3 & E4 & E5 & E6 & E7 & E8 & E9 & E10).
  split_and!; try done; [lia|congruence|left; congruence].
Qed.

Lemma active_open e : EntryOk e -> active e = true -> closePending e = false.
Proof.
  intros He Ha. destruct (closePending e) eqn:E; [|done]. destruct (eo_pending e He E). congruence.
Qed.

Lemma observe_life type r hops h d token n now t i e : TrackerOk t -> tokenOk token n ->
  t !! i = Some e -> occupied e = true ->
  exists e', snd (observeDetailed type r hops h d token n now t) !! i = Some e' /\ sameLife e e'.
Proof.
  intros Ht Hn Hi Ho. pose proof (expire_ok now t Ht) as H1.
  destruct (expire_life now t i e Ht Hi Ho) as (e1 & Hi1 & Hl1). unfold observeDetailed.
  destruct h as [h|]; [|eauto]. destruct d as [d|]; [|eauto]. destruct (orb _ _); [eauto|].
  destruct (c_selected _) as [[j a]|] eqn:Es; [|eauto].
  apply observed_slot in Es as (e0 & Hj & Ho0). rewrite Hj. simpl.
  assert (He : EntryOk e0) by (eapply Forall_lookup_1; [apply H1|done]).
  pose proof (originates_active _ _ _ _ Ho0) as Ha.
  pose proof (countCopy_counted token n e0 He) as Hc. destruct (countCopy token n e0) as [res e'].
  destruct Hc as [Hc _]. destruct (decide (i = j)) as [<-|Hij].
  - exists e'. split; [apply list_lookup_insert_eq; by apply lookup_lt_Some in Hi1|].
    apply (sameLife_trans _ e1); [done|]. replace e1 with e0 by congruence.
    apply counted_life; auto using active_open. apply He.
  - exists e1. split; [|done]. simpl. by rewrite list_lookup_insert_ne.
Qed.

(** The slot a send replaces while it is occupied is the open one of its key. *)
Lemma replaced_key e e1 h d r slot ts : EntryOk e -> occupied e = true ->
  EntryOk e1 -> sameLife e e1 ->
  (active e1 = false /\ dirty e1 = false \/
   hasKey slot ts e1 = true /\
   (beq (hash e1) h && beq (digest e1) d && sameFloodRouteBinding (e_route e1) r) = false) ->
  active e = true /\ channelSlot e = slot /\ messageTimestamp e = ts /\
  ~ (hash e = h /\ digest e = d /\ e_route e = r /\ validFloodRouteBinding r = true).
Proof.
  intros He Ho He1 Hl [[Ha Hd]|[Hk Hne]].
  { pose proof (occupied_life _ _ Hl) as Ho1. unfold occupied in Ho1. rewrite Ha in Ho1. simpl in Ho1.
    destruct (eo_pending _ He1 Ho1). congruence. }
  unfold hasKey in Hk. apply andb_true_iff in Hk as [Hk Ets]. apply andb_true_iff in Hk as [Ha Es].
  apply Z.eqb_eq in Es, Ets. destruct Hl as (L1 & L2 & L3 & L4 & L5 & _ & _ & L8 & _).
  assert (Hae : active e = true).
  { unfold occupied in Ho. destruct (active e) eqn:Eae; [done|]. simpl in Ho. rewrite (L8 Ho) in Ha. congruence. }
  split_and!; try congruence. intros (<- & <- & <- & Hv).
  rewrite L3, L4, L5, !beq_refl in Hne. simpl in Hne.
  by rewrite (proj2 (sameFloodRouteBinding_eq _ _) (conj Hv eq_refl)) in Hne.
Qed.

(** An accepted send is never lost. Over any call but [clear], a slot that
    holds an open or closing lifecycle keeps it, with its identity and a count
    that never goes down; the only ways out are [takeDirty], which then reports
    exactly that closed lifecycle with its final count, and [recordSent] for the
    same channel and timestamp with a different fingerprint. *)
Theorem lifecycle_conserved ops op i e : Forall opOk ops -> opOk op -> op <> OpClear ->
  run ops !! i = Some e -> occupied e = true ->
  (exists e', runOp op (run ops) !! i = Some e' /\ sameLife e e') \/
  (op = OpTake /\ fst (takeDirty (run ops)) = Some (fillObservation e) /\
   obs_observationOpen (fillObservation e) = false /\ closePending e = true) \/
  (exists type r h d now, op = OpSent type r (Some h) (Some d) (channelSlot e) (messageTimestamp e) now /\
   active e = true /\ ~ (hash e = h /\ digest e = d /\ e_route e = r)).
Proof.
  intros Hops Hop Hnc. pose proof (run_ok ops Hops) as Ht. generalize dependent (run ops).
  intros t Ht Hi Ho.
  assert (He : EntryOk e) by (eapply Forall_lookup_1; [apply Ht|exact Hi]).
  destruct op as [type r h d slot ts now|type r hops h d token n now|slot ts now| |now|now| |]; simpl in *;
    try done; try (left; by apply expire_life).
  - unfold recordSent. destruct h as [h|]; [|left; exists e; split; [done|by apply sameLife_refl]].
    destruct d as [d|]; [|left; exists e; split; [done|by apply sameLife_refl]].
    destruct (orb _ _) eqn:Eg; [left; exists e; split; [done|by apply sameLife_refl]|].
    destruct (expire_life now t i e Ht Hi Ho) as (e1 & Hi1 & Hl1).
    destruct (chooseEntry _ _ _ _ _ _ _ _) as [|j|] eqn:Ec; [left; eauto| |left; eauto]. simpl.
    destruct (decide (i = j)) as [<-|Hij].
    + right. right. apply chooseEntry_selected in Ec as [?|(n & e0 & -> & Hn & Hc)]; [done|].
      simpl in Hi1. replace e0 with e1 in Hc by congruence.
      assert (He1 : EntryOk e1) by (eapply Forall_lookup_1; [apply (expire_ok now t Ht)|exact Hi1]).
      destruct (replaced_key e e1 h d r slot ts He Ho He1 Hl1 Hc) as (Ha & Es & Ets & Hne).
      exists type, r, h, d, now. subst slot ts. split_and!; try done.
      intros (Eh & Ed & Er). apply Hne. split_and!; try done.
      apply orb_false_iff in Eg as [Eg _]. apply orb_false_iff in Eg as [Eg _].
      apply orb_false_iff in Eg as [_ Eg]. by apply negb_false_iff in Eg.
    + left. exists e1. split; [by rewrite list_lookup_insert_ne|done].
  - left. by apply observe_life.
  - pose proof (takeDirty_spec t) as Hs. destruct (takeDirty t) as [[o|] t'] eqn:Et; simpl.
    + destruct Hs as (j & e0 & Hj & Hd & -> & ->). destruct (decide (i = j)) as [<-|Hij].
      * replace e0 with e in * by congruence. destruct (closePending e) eqn:Ecp.
        -- right. left. split_and!; try done. simpl. by apply eo_pending.
        -- left. exists (set_dirty false e). split.
           ++ apply list_lookup_insert_eq. by apply lookup_lt_Some in Hi.
           ++ unfold occupied in Ho. rewrite Ecp, orb_false_r in Ho.
              split_and!; simpl; try done; try lia; try congruence. by left.
      * left. exists e. split; [by rewrite list_lookup_insert_ne|by apply sameLife_refl].
    + destruct Hs as [-> _]. left. exists e. split; [done|by apply sameLife_refl].
  - left. by apply closeAll_life.
Qed.

(** ** Delivery *)

(** The consumer's loop, [n] calls at most. *)
Fixpoint drain (n : nat) (t : Tracker) : list ChannelRepeatObservation * Tracker :=
  match n with
  | O => ([], t)
  | S n' =>
      match takeDirty t with
      | (None, t') => ([], t')
      | (Some o, t') => let '(os, t'') := drain n' t' in (o :: os, t'')
      end
  end.

Lemma pendingObs_insert t i e e' : t !! i = Some e -> dirty e = true -> dirty e' = false ->
  pendingObs t ≡ₚ fillObservation e :: pendingObs (<[i := e']> t).
Proof.
  intros Hi Hd Hd'. unfold pendingObs. rewrite <- (take_drop_middle t i e Hi) at 1.
  rewrite insert_take_drop by (by eapply lookup_lt_Some).
  rewrite !filter_app, !filter_cons_True by done. rewrite filter_cons_False by congruence.
  rewrite !fmap_app, fmap_cons. symmetry. apply Permutation_middle.
Qed.

Lemma clean_pending t : Forall (fun e => dirty e = false) t -> pendingObs t = [].
Proof.
  intros Hf. unfold pendingObs. induction Hf as [|e t He _ IH]; [done|].
  by rewrite filter_cons_False by congruence.
Qed.

(** Enough calls report every dirty entry exactly once and leave none. *)
Lemma drain_spec n t : TrackerOk t -> (length (pendingObs t) < n)%nat ->
  fst (drain n t) ≡ₚ pendingObs t /\ TrackerOk (snd (drain n t)) /\
  Forall (fun e => dirty e = false) (snd (drain n t)) /\
  (Forall (fun e => active e = false) t -> Forall (fun e => active e = false) (snd (drain n t))).
Proof.
  revert t. induction n as [|n IH]; intros t Ht Hn; [lia|]. simpl.
  pose proof (takeDirty_spec t) as Hs. pose proof (takeDirty_ok t Ht) as Hok.
  destruct (takeDirty t) as [[o|] t'].
  - destruct Hs as (i & e & Hi & Hd & -> & ->).
    assert (Hp : pendingObs t ≡ₚ fillObservation e :: pendingObs _)
      by (apply (pendingObs_insert t i e (if closePending e then blank else set_dirty false e)); try done;
          by destruct (closePending e)).
    rewrite Hp in Hn. simpl in Hn. specialize (IH _ Hok ltac:(simpl; lia)). simpl in IH.
    destruct (drain n _) as [os t'']. simpl in *. destruct IH as (IHp & IHok & IHc & IHa).
    split_and!; try done; [by rewrite Hp, IHp|]. intros Ha. apply IHa. apply Forall_insert; [done|].
    destruct (closePending e); [done|]. simpl. exact (Forall_lookup_1 _ _ _ _ Ha Hi).
  - destruct Hs as [-> Hc]. split_and!; simpl; try done. by rewrite clean_pending.
Qed.

Lemma pendingObs_length t : (length (pendingObs t) <= length t)%nat.
Proof. unfold pendingObs. rewrite length_fmap. apply length_filter. Qed.

Lemma closed_pending t : Forall EntryOk t ->
  pendingObs (closeAll t) =
  (fun e => fillObservation (close e)) <$> base.filter (fun e => occupied e = true) t.
Proof.
  intros Ht. unfold pendingObs, closeAll. induction Ht as [|e t He _ IH]; [done|]. simpl.
  destruct (active e) eqn:Ea.
  - rewrite filter_cons_True by done. rewrite filter_cons_True by (unfold occupied; by rewrite Ea).
    rewrite !fmap_cons. by f_equal.
  - destruct (closePending e) eqn:Ec.
    + destruct (eo_pending e He Ec) as [_ Hd]. rewrite filter_cons_True by done.
      rewrite filter_cons_True by (unfold occupied; by rewrite Ea, Ec). rewrite !fmap_cons. f_equal; [|done].
      unfold fillObservation. simpl. by rewrite Ea.
    + rewrite (eo_free e He Ea Ec). by rewrite !filter_cons_False by done.
Qed.

(** Closing delivers. After any run, [closeAll] followed by the consumer's
    drain reports every open or closing lifecycle exactly once, closed and with
    its final count, within 25 calls, and leaves all 24 slots free. *)
Theorem closeAll_delivers ops : Forall opOk ops ->
  let '(os, t') := drain (kChannelRepeatTrackerCapacity + 1) (closeAll (run ops)) in
  os ≡ₚ (fun e => fillObservation (close e)) <$> base.filter (fun e => occupied e = true) (run ops) /\
  t' = tracker0.
Proof.
  intros Hops. pose proof (run_ok ops Hops) as Ht. pose proof (closeAll_ok _ Ht) as Hc.
  pose proof (pendingObs_length (closeAll (run ops))) as Hl. rewrite (proj1 Hc) in Hl.
  pose proof (drain_spec (kChannelRepeatTrackerCapacity + 1) _ Hc ltac:(lia)) as (Hp & Hok & Hd & Ha).
  destruct (drain _ _) as [os t']. simpl in Hp, Hok, Hd, Ha.
  rewrite (closed_pending _ (proj2 Ht)) in Hp. split; [done|].
  destruct Hok as [Hl' He]. unfold tracker0. rewrite <- Hl'. symmetry. apply replicate_as_elem_of.
  split; [done|]. intros e Hin. rewrite Forall_forall in He, Hd.
  apply blank_clean; auto. apply (Forall_forall (fun e => active e = false) t'); [|done].
  apply Ha. unfold closeAll. apply Forall_map, Forall_true. intros x. by destruct (active x) eqn:E.
Qed.

(** ** A run *)

Definition demoRoute : FloodRouteBinding := mkBinding true 0x7f3a 0 1.
Definition demoHash : list Z := replicate 8 9.
Definition demoDigest : list Z := replicate 32 7.
Definition demoSent : Op := OpSent 5 demoRoute (Some demoHash) (Some demoDigest) 1 1700000000 4294967000.
Definition demoCopy (now : Z) : Op :=
  OpObserve 5 demoRoute 2 (Some demoHash) (Some demoDigest) (Some [0x42; 0; 0]) 1 now.
Definition demoOps : list Op :=
  [demoSent; demoCopy 4294967100; OpTake; demoCopy 50;
   OpSent 5 demoRoute (Some demoHash) (Some demoDigest) 2 1700000001 60].

Lemma demoOps_ok : Forall opOk demoOps.
Proof. repeat constructor; intros t [= <-]; simpl; lia. Qed.

Definition demoOutcome : ChannelRepeatObserveResult * ChannelRepeatObservation * Tracker :=
  observeDetailed kChannelGroupTextPayloadType demoRoute 1 (Some demoHash) (Some demoDigest)
    None 0 90 (run demoOps).

Lemma observation_attributed_witness :
  exists i e e', snd demoOutcome = <[i := e']> (expire 90 (run demoOps)) /\
    obs_channelSlot (snd (fst demoOutcome)) = 2 /\ countedOnce e e'.
Proof.
  assert (Er : fst (fst demoOutcome) = Recorded) by (vm_compute; reflexivity).
  assert (Es : obs_channelSlot (snd (fst demoOutcome)) = 2) by (vm_compute; reflexivity).
  pose proof (observation_attributed (run demoOps) demoRoute 1 demoHash demoDigest None 0 90
    (run_ok demoOps demoOps_ok) eq_refl ltac:(done)) as H. cbv zeta in H.
  fold demoOutcome in H. destruct demoOutcome as [[res o] t']. cbn [fst snd] in Er, Es |- *.
  destruct (proj1 (proj2 H) (or_introl Er)) as (i & e & e' & _ & Ht' & _ & Hc & _).
  exists i, e, e'. split; [exact Ht'|]. split; [exact Es|exact Hc].
Defined.

Lemma lifecycle_conserved_witness :
  exists e', runOp OpTake (run demoOps) !! 0%nat = Some e' /\ sameLife (default blank (run demoOps !! 0%nat)) e'.
Proof.
  assert (Ei : run demoOps !! 0%nat = Some (default blank (run demoOps !! 0%nat))) by (vm_compute; reflexivity).
  assert (Eo : occupied (default blank (run demoOps !! 0%nat)) = true) by (vm_compute; reflexivity).
  assert (Ec : closePending (default blank (run demoOps !! 0%nat)) = false) by (vm_compute; reflexivity).
  destruct (lifecycle_conserved demoOps OpTake 0 _ demoOps_ok I ltac:(done) Ei Eo) as
    [H|[(_ & _ & _ & Hp)|(? & ? & ? & ? & ? & [=] & _)]]; [exact H|congruence].
Defined.

Lemma closeAll_delivers_witness :
  length (fst (drain (kChannelRepeatTrackerCapacity + 1) (closeAll (run demoOps)))) = 2%nat.
Proof.
  pose proof (closeAll_delivers demoOps demoOps_ok) as H.
  destruct (drain _ _) as [os t']. destruct H as [Hp _]. simpl fst. rewrite Hp, length_fmap.
  vm_compute. reflexivity.
Defined.
