(* ===== verification/AdvertRepeat.v ===== *)
(** * Advert trackers (src/src/kitsu_advert_repeat_tracker.h, .cpp)

    The lifecycle of the last owner-requested advert: zero-hop ("nearby") and
    mesh-wide, the latter with a two-minute window of heard copies. *)

From S2P Require Import Prelude RepeatWire RepeatSource.

Open Scope Z_scope.

Definition kAdvertRepeatHashBytes : nat := 8.
Definition kAdvertRepeatDigestBytes : nat := 32.
Definition kAdvertPayloadType : Z := 0x04.
Definition kAdvertRepeatWindowMs : Z := 120000.
Definition kAdvertMinimumEmittedAt : Z := 1704067200.
Definition kAdvertMaximumEmittedAt : Z := 4102444800.

Inductive AdvertTransmitState := Queued | Sent | TxFailed.

#[export] Instance AdvertTransmitState_eq_dec : EqDecision AdvertTransmitState.
Proof. solve_decision. Defined.

Definition isState (s s' : AdvertTransmitState) : bool := bool_decide (s = s').

Inductive AdvertRepeatObserveResult :=
  | AdvNotCandidate | AdvNoHashMatch | AdvWireMismatch | AdvDigestMismatch | AdvRecorded | AdvSaturated.

#[export] Instance AdvertRepeatObserveResult_eq_dec : EqDecision AdvertRepeatObserveResult.
Proof. solve_decision. Defined.

Definition validAdvert (type : Z) (fl : bool) (emittedAt : Z) : bool :=
  (type =? kAdvertPayloadType) && fl && (kAdvertMinimumEmittedAt <=? emittedAt) &&
  (emittedAt <=? kAdvertMaximumEmittedAt).

Definition validNearbyAdvert (type : Z) (fl : bool) (emittedAt : Z) : bool :=
  (type =? kAdvertPayloadType) && negb fl && (kAdvertMinimumEmittedAt <=? emittedAt) &&
  (emittedAt <=? kAdvertMaximumEmittedAt).

(** ** The zero-hop tracker *)

Module Nearby.

Record Status := mkStatus {
  available : bool;
  emittedAt : Z;
  state : AdvertTransmitState;
}.

Record T := mk { status : Status; dirty : bool }.

Definition noStatus : Status := mkStatus false 0 Queued.
Definition init : T := mk noStatus false.

Definition recordQueued (type : Z) (fl : bool) (at_ : Z) (t : T) : bool * T :=
  if negb (validNearbyAdvert type fl at_) then (false, t)
  else (true, mk (mkStatus true at_ Queued) true).

(** The guard [markSent] and [markTxFailed] share. *)
Definition awaits (at_ : Z) (t : T) : bool :=
  available (status t) && isState (state (status t)) Queued && (emittedAt (status t) =? at_).

Definition markSent (at_ : Z) (t : T) : bool * T :=
  if negb (awaits at_ t) then (false, t)
  else (true, mk (mkStatus (available (status t)) (emittedAt (status t)) Sent) true).

Definition markTxFailed (at_ : Z) (t : T) : bool * T :=
  if negb (awaits at_ t) then (false, t)
  else (true, mk (mkStatus (available (status t)) (emittedAt (status t)) TxFailed) true).

Definition snapshot (t : T) : bool * Status := (available (status t), status t).

Definition takeDirty (t : T) : bool * T := (dirty t, mk (status t) false).

Definition clear (t : T) : T := mk noStatus (available (status t) || dirty t).

End Nearby.

(** ** The mesh-wide tracker *)

Record FloodAdvertStatus := mkStatus {
  available : bool;
  emittedAt : Z;
  state : AdvertTransmitState;
  repeatCountKnown : bool;
  repeatCount : Z;
  observationOpen : bool;
  st_sources : Sources;
}.

Definition noStatus : FloodAdvertStatus := mkStatus false 0 Queued false 0 false noSources.

Record Tracker := mkTracker {
  status_ : FloodAdvertStatus;
  hash_ : list Z;
  digest_ : list Z;
  route_ : FloodRouteBinding;
  sentAtMs_ : Z;
  fingerprintValid_ : bool;
  dirty_ : bool;
}.

Definition zeroHash : list Z := replicate kAdvertRepeatHashBytes 0.
Definition zeroDigest : list Z := replicate kAdvertRepeatDigestBytes 0.

Definition advert0 : Tracker := mkTracker noStatus zeroHash zeroDigest noBinding 0 false false.

Definition set_status (s : FloodAdvertStatus) (t : Tracker) : Tracker :=
  mkTracker s (hash_ t) (digest_ t) (route_ t) (sentAtMs_ t) (fingerprintValid_ t) (dirty_ t).
Definition set_dirty (v : bool) (t : Tracker) : Tracker :=
  mkTracker (status_ t) (hash_ t) (digest_ t) (route_ t) (sentAtMs_ t) (fingerprintValid_ t) v.

Definition clearFingerprint (t : Tracker) : Tracker :=
  mkTracker (status_ t) zeroHash zeroDigest noBinding 0 false (dirty_ t).

Definition recordQueued (type : Z) (fl : bool) (at_ : Z) (t : Tracker) : bool * Tracker :=
  if negb (validAdvert type fl at_) then (false, t)
  else
    let s := mkStatus true at_ Queued false 0 false noSources in
    (true, set_dirty true (clearFingerprint (set_status s t))).

Definition awaits (at_ : Z) (t : Tracker) : bool :=
  available (status_ t) && isState (state (status_ t)) Queued && (emittedAt (status_ t) =? at_).

Definition markSent (type : Z) (r : FloodRouteBinding) (h d : option (list Z)) (at_ nowMs : Z)
    (t : Tracker) : bool * Tracker :=
  match h, d with
  | Some h, Some d =>
      if negb (validAdvert type true at_) || negb (validFloodRouteBinding r) || negb (awaits at_ t)
      then (false, t)
      else
        let s := status_ t in
        (true, mkTracker (mkStatus (available s) (emittedAt s) Sent true 0 true (st_sources s))
                 h d r nowMs true true)
  | _, _ => (false, t)
  end.

Definition markTxFailed (at_ : Z) (t : Tracker) : bool * Tracker :=
  if negb (awaits at_ t) then (false, t)
  else
    let s := status_ t in
    (true, set_dirty true (clearFingerprint
       (set_status (mkStatus (available s) (emittedAt s) TxFailed false 0 false (st_sources s)) t))).

Definition tick (nowMs : Z) (t : Tracker) : bool * Tracker :=
  let s := status_ t in
  if negb (available s) || negb (isState (state s) Sent) || negb (observationOpen s) ||
     (u32 (nowMs - sentAtMs_ t) <? kAdvertRepeatWindowMs)
  then (false, t)
  else
    (true, set_dirty true (clearFingerprint
       (set_status (mkStatus (available s) (emittedAt s) (state s) (repeatCountKnown s)
          (repeatCount s) false (st_sources s)) t))).

Definition withCount (n : Z) (m : Sources) (s : FloodAdvertStatus) : FloodAdvertStatus :=
  mkStatus (available s) (emittedAt s) (state s) (repeatCountKnown s) n (observationOpen s) m.

Definition observeDetailed (type : Z) (r : FloodRouteBinding) (hops : Z) (h d : option (list Z))
    (lastHop : option (list Z)) (lastHopBytes : nat) (nowMs : Z) (t : Tracker)
  : AdvertRepeatObserveResult * Tracker :=
  let t := snd (tick nowMs t) in
  let s := status_ t in
  match h, d with
  | Some h, Some d =>
      if negb (type =? kAdvertPayloadType) || negb (validFloodRouteBinding r) || (hops =? 0)
      then (AdvNotCandidate, t)
      else if negb (available s) || negb (isState (state s) Sent) || negb (observationOpen s) ||
              negb (repeatCountKnown s) || negb (fingerprintValid_ t) || negb (beq (hash_ t) h)
      then (AdvNoHashMatch, t)
      else if negb (sameFloodRouteBinding (route_ t) r)
      then (if beq (digest_ t) d then AdvWireMismatch else AdvDigestMismatch, t)
      else if negb (beq (digest_ t) d) then (AdvDigestMismatch, t)
      else
        let '(sourceChanged, m) := recordSource lastHop lastHopBytes (st_sources s) in
        if repeatCount s =? 0xff then
          let t1 := set_status (withCount (repeatCount s) m s) t in
          (AdvSaturated, if sourceChanged then set_dirty true t1 else t1)
        else
          (AdvRecorded, set_dirty true (set_status (withCount (u8 (repeatCount s + 1)) m s) t))
  | _, _ => (AdvNotCandidate, t)
  end.

Definition observeUntraced type r hops h d nowMs t :=
  observeDetailed type r hops h d None 0 nowMs t.

Definition observe type r hops h d nowMs t : bool * Tracker :=
  let '(res, t') := observeUntraced type r hops h d nowMs t in (bool_decide (res = AdvRecorded), t').

Definition snapshot (nowMs : Z) (t : Tracker) : bool * FloodAdvertStatus * Tracker :=
  let t := snd (tick nowMs t) in (available (status_ t), status_ t, t).

Definition takeDirty (t : Tracker) : bool * Tracker := (dirty_ t, set_dirty false t).

Definition clear (t : Tracker) : Tracker :=
  let t1 := clearFingerprint (set_status noStatus t) in
  if available (status_ t) then set_dirty true t1 else t1.

(** ** Runs and the abstract lifecycle *)

Inductive Op :=
  | OpQueued (type : Z) (fl : bool) (at_ : Z)
  | OpSent (type : Z) (r : FloodRouteBinding) (h d : option (list Z)) (at_ now : Z)
  | OpFailed (at_ : Z)
  | OpObserve (type : Z) (r : FloodRouteBinding) (hops : Z) (h d token : option (list Z)) (n : nat) (now : Z)
  | OpTick (now : Z)
  | OpSnapshot (now : Z)
  | OpTakeDirty
  | OpClear.

Definition runOp (op : Op) (t : Tracker) : Tracker :=
  match op with
  | OpQueued type fl at_ => snd (recordQueued type fl at_ t)
  | OpSent type r h d at_ now => snd (markSent type r h d at_ now t)
  | OpFailed at_ => snd (markTxFailed at_ t)
  | OpObserve type r hops h d token n now => snd (observeDetailed type r hops h d token n now t)
  | OpTick now => snd (tick now t)
  | OpSnapshot now => snd (snapshot now t)
  | OpTakeDirty => snd (takeDirty t)
  | OpClear => clear t
  end.

Definition run (ops : list Op) : Tracker := fold_left (fun t op => runOp op t) ops advert0.

(** The contract: an advert is absent, queued, transmitted with an open window
    and a count, settled with its final count, or failed. *)
Inductive Phase :=
  | Absent
  | Waiting (at_ : Z)
  | Listening (at_ : Z) (count : Z)
  | Settled (at_ : Z) (count : Z)
  | Failed (at_ : Z).

Inductive PhaseStep : Phase -> Phase -> Prop :=
  | PsStay p : PhaseStep p p
  | PsQueue p at_ : kAdvertMinimumEmittedAt <= at_ <= kAdvertMaximumEmittedAt -> PhaseStep p (Waiting at_)
  | PsSent at_ : PhaseStep (Waiting at_) (Listening at_ 0)
  | PsFailed at_ : PhaseStep (Waiting at_) (Failed at_)
  | PsHeard at_ n : n < 255 -> PhaseStep (Listening at_ n) (Listening at_ (n + 1))
  | PsClose at_ n : PhaseStep (Listening at_ n) (Settled at_ n)
  | PsClear p : PhaseStep p Absent.

Definition phaseOf (t : Tracker) : Phase :=
  let s := status_ t in
  if negb (available s) then Absent
  else match state s with
       | Queued => Waiting (emittedAt s)
       | TxFailed => Failed (emittedAt s)
       | Sent => if observationOpen s then Listening (emittedAt s) (repeatCount s)
                 else Settled (emittedAt s) (repeatCount s)
       end.
