(* ===== verification/AdvertRepeatFacts.v ===== *)
(** * Advert tracker: refinement of the advert lifecycle *)

From S2P Require Import Prelude RepeatWire RepeatWireFacts RepeatSource AdvertRepeat.

Open Scope Z_scope.

(** ** The invariant *)

Record AdvertOk (t : Tracker) : Prop := {
  ao_absent : available (status_ t) = false -> status_ t = noStatus;
  ao_known : repeatCountKnown (status_ t) = isState (state (status_ t)) Sent;
  ao_open : observationOpen (status_ t) = true ->
    available (status_ t) = true /\ state (status_ t) = Sent;
  ao_fingerprint : fingerprintValid_ t = observationOpen (status_ t);
  ao_count : 0 <= repeatCount (status_ t) <= 255;
  ao_waiting : state (status_ t) = Queued -> repeatCount (status_ t) = 0;
}.

Lemma advert0_ok : AdvertOk advert0.
Proof. split; simpl; try done; try lia. Qed.

Lemma tick_cases now t :
  tick now t = (false, t) \/
  (available (status_ t) = true /\ state (status_ t) = Sent /\ observationOpen (status_ t) = true /\
   kAdvertRepeatWindowMs <= u32 (now - sentAtMs_ t) /\ fst (tick now t) = true).
Proof.
  unfold tick. destruct (orb _ _) eqn:E; [by left|]. right.
  repeat (apply orb_false_iff in E as [E ?]). unfold isState in *.
  repeat match goal with H : negb _ = false |- _ => apply negb_false_iff in H end.
  apply bool_decide_eq_true in H1. apply Z.ltb_ge in H. by split_and!.
Qed.

Lemma tick_closed now t : fst (tick now t) = true ->
  snd (tick now t) = set_dirty true (clearFingerprint
    (set_status (mkStatus (available (status_ t)) (emittedAt (status_ t)) (state (status_ t))
       (repeatCountKnown (status_ t)) (repeatCount (status_ t)) false (st_sources (status_ t))) t)).
Proof. unfold tick. by destruct (orb _ _). Qed.

(** What one call may do, seen from the contract: a permitted step, never a
    silent one, and a set dirty flag stays set. *)
Definition refines (t t' : Tracker) : Prop :=
  PhaseStep (phaseOf t) (phaseOf t') /\ (phaseOf t' = phaseOf t \/ dirty_ t' = true) /\
  (dirty_ t = true -> dirty_ t' = true).

Lemma refines_refl t : refines t t.
Proof. split_and!; [constructor|by left|done]. Qed.

Lemma tick_refines now t : AdvertOk t ->
  AdvertOk (snd (tick now t)) /\ refines t (snd (tick now t)).
Proof.
  intros Ht. destruct (tick_cases now t) as [->|(Ha & Hs & Ho & Hw & Hf)].
  - split; [done|apply refines_refl].
  - rewrite (tick_closed now t Hf). destruct Ht. split.
    + split; simpl; try done; try congruence.
    + unfold refines, phaseOf. simpl. rewrite Ha, Hs, Ho. split_and!; [constructor|by right|done].
Qed.

Lemma awaits_cases at_ t : awaits at_ t = true ->
  available (status_ t) = true /\ state (status_ t) = Queued /\ emittedAt (status_ t) = at_.
Proof.
  unfold awaits, isState. intros [[Ha Hs%bool_decide_eq_true]%andb_true_iff He%Z.eqb_eq]%andb_true_iff.
  done.
Qed.

Lemma queued_refines type fl at_ t : AdvertOk t ->
  AdvertOk (snd (recordQueued type fl at_ t)) /\ refines t (snd (recordQueued type fl at_ t)).
Proof.
  intros Ht. unfold recordQueued. destruct (validAdvert type fl at_) eqn:E; simpl;
    [|split; [done|apply refines_refl]].
  split; [split; simpl; try done; try lia|].
  unfold refines, phaseOf. simpl. split_and!; [|by right|done]. constructor.
  unfold validAdvert in E. lia.
Qed.

Lemma sent_refines type r h d at_ now t : AdvertOk t ->
  AdvertOk (snd (markSent type r h d at_ now t)) /\ refines t (snd (markSent type r h d at_ now t)).
Proof.
  intros Ht. unfold markSent. destruct h as [h|]; [|split; [done|apply refines_refl]].
  destruct d as [d|]; [|split; [done|apply refines_refl]].
  destruct (orb _ _) eqn:E; [split; [done|apply refines_refl]|]. apply orb_false_iff in E as [_ E].
  apply negb_false_iff, awaits_cases in E as (Ha & Hs & He). simpl. split.
  - split; simpl; try done; try congruence; try lia.
  - unfold refines, phaseOf. simpl. rewrite Ha, Hs. split_and!; [constructor|by right|done].
Qed.

Lemma failed_refines at_ t : AdvertOk t ->
  AdvertOk (snd (markTxFailed at_ t)) /\ refines t (snd (markTxFailed at_ t)).
Proof.
  intros Ht. unfold markTxFailed. destruct (awaits at_ t) eqn:E; simpl;
    [|split; [done|apply refines_refl]].
  apply awaits_cases in E as (Ha & Hs & He). split.
  - split; simpl; try done; try congruence; try lia.
  - unfold refines, phaseOf. simpl. rewrite Ha, Hs. split_and!; [constructor|by right|done].
Qed.

Lemma clear_refines t : AdvertOk t -> AdvertOk (clear t) /\ refines t (clear t).
Proof.
  intros Ht. unfold clear. destruct (available (status_ t)) eqn:Ha; simpl.
  - split; [split; simpl; try done; try lia|]. unfold refines, phaseOf. simpl. rewrite Ha. simpl.
    split_and!; [constructor|by right|done].
  - split; [split; simpl; try done; try lia|]. unfold refines, phaseOf. simpl. rewrite Ha. simpl.
    split_and!; [constructor|by left|done].
Qed.

(** ** Counting *)

(** When a copy is counted: in the window, for the retained fingerprint. *)
Lemma observe_cases type r hops h d token n now t : AdvertOk t ->
  let t1 := snd (tick now t) in
  let '(res, t') := observeDetailed type r hops h d token n now t in
  (t' = t1 /\ res <> AdvRecorded /\ res <> AdvSaturated) \/
  (t1 = t /\ available (status_ t) = true /\ state (status_ t) = Sent /\ observationOpen (status_ t) = true /\
   type = kAdvertPayloadType /\ hops <> 0 /\ h = Some (hash_ t) /\ d = Some (digest_ t) /\ route_ t = r /\
   u32 (now - sentAtMs_ t) < kAdvertRepeatWindowMs /\
   exists m, ((res = AdvSaturated /\ repeatCount (status_ t) = 255 /\
      (t' = set_status (withCount 255 m (status_ t)) t \/
       t' = set_dirty true (set_status (withCount 255 m (status_ t)) t))) \/
     (res = AdvRecorded /\ repeatCount (status_ t) < 255 /\
      t' = set_dirty true (set_status (withCount (repeatCount (status_ t) + 1) m (status_ t)) t)))).
Proof.
  intros Ht t1. unfold observeDetailed. fold t1.
  destruct h as [h|]; [|left; by split_and!]. destruct d as [d|]; [|left; by split_and!].
  destruct (orb (orb _ _) (hops =? 0)) eqn:E1; [left; by split_and!|].
  destruct (orb _ (negb (beq _ _))) eqn:E2; [left; by split_and!|].
  destruct (sameFloodRouteBinding _ _) eqn:E3; [|left; destruct (beq (digest_ t1) d); by split_and!]. cbv [negb].
  destruct (beq (digest_ t1) d) eqn:E4; [|left; by split_and!].
  apply orb_false_iff in E1 as [[E1 _]%orb_false_iff Eh]. apply negb_false_iff, Z.eqb_eq in E1.
  apply Z.eqb_neq in Eh.
  apply orb_false_iff in E2 as [[[[[Ha Hs]%orb_false_iff Ho]%orb_false_iff _]%orb_false_iff _]%orb_false_iff Hh].
  apply negb_false_iff in Ha, Hs, Ho, Hh. apply bool_decide_eq_true in Hs. apply beq_eq in Hh, E4.
  apply sameFloodRouteBinding_eq in E3 as [_ E3].
  assert (Et : t1 = t).
  { unfold t1 in *. destruct (tick_cases now t) as [->|(_ & _ & _ & _ & Hf)]; [done|].
    rewrite (tick_closed now t Hf) in Ho. done. }
  assert (Hw : u32 (now - sentAtMs_ t) < kAdvertRepeatWindowMs).
  { destruct (Z.lt_ge_cases (u32 (now - sentAtMs_ t)) kAdvertRepeatWindowMs) as [|Hge]; [done|].
    exfalso. rewrite Et in Ha, Hs, Ho. apply Z.ltb_ge in Hge.
    apply (f_equal (fun t => observationOpen (status_ t))) in Et. unfold t1, tick in Et.
    rewrite Ha, Hs, Ho, Hge in Et. simpl in Et. congruence. }
  rewrite Et in *. destruct (recordSource token n (st_sources (status_ t))) as [ch m].
  pose proof (ao_count t Ht) as Hc.
  destruct (Z.eqb_spec (repeatCount (status_ t)) 255) as [E|E].
  - right. split_and!; try congruence. exists m. left. rewrite E. split_and!; try done.
    destruct ch; auto.
  - right. split_and!; try congruence. exists m. right. split_and!; try done; [lia|].
    by rewrite u8_id by lia.
Qed.

Lemma observe_refines type r hops h d token n now t : AdvertOk t ->
  AdvertOk (snd (observeDetailed type r hops h d token n now t)) /\
  refines t (snd (observeDetailed type r hops h d token n now t)).
Proof.
  intros Ht. pose proof (observe_cases type r hops h d token n now t Ht) as H.
  destruct (observeDetailed _ _ _ _ _ _ _ _ _) as [res t']. cbn [snd].
  destruct H as [[-> _]|(_ & Ha & Hs & Ho & _ & _ & _ & _ & _ & _ & m & H)]; [by apply tick_refines|].
  destruct Ht, H as [(_ & Hc & [-> | ->])|(_ & Hc & ->)];
    (split; [split; simpl; try done; try congruence; try lia
            |unfold refines, phaseOf; simpl; rewrite Ha, Hs, Ho, ?Hc; simpl; split_and!; first [done | by constructor | by right]]).
Qed.

Definition isTakeDirty (op : Op) : bool := match op with OpTakeDirty => true | _ => false end.

Lemma runOp_refines op t : AdvertOk t -> isTakeDirty op = false ->
  AdvertOk (runOp op t) /\ refines t (runOp op t).
Proof.
  intros Ht Hn. destruct op; try done; cbn [runOp].
  - by apply queued_refines.
  - by apply sent_refines.
  - by apply failed_refines.
  - by apply observe_refines.
  - by apply tick_refines.
  - by apply (tick_refines now t).
  - by apply clear_refines.
Qed.

Lemma advert_takeDirty_ok t : AdvertOk t -> AdvertOk (snd (takeDirty t)).
Proof. intros []. by split. Qed.

Lemma advert_run_ok ops : AdvertOk (run ops).
Proof.
  induction ops as [|op ops IH] using rev_ind; [apply advert0_ok|].
  unfold run in *. rewrite fold_left_app. cbn [fold_left].
  destruct (isTakeDirty op) eqn:E; [|by apply runOp_refines].
  destruct op; try done. by apply advert_takeDirty_ok.
Qed.

(** ** Properties *)


(** The comparison chain of [observeDetailed], when every test passes. *)
Lemma observe_match type r hops h d token n now t : AdvertOk t ->
  available (status_ t) = true -> state (status_ t) = Sent -> observationOpen (status_ t) = true ->
  u32 (now - sentAtMs_ t) < kAdvertRepeatWindowMs ->
  type = kAdvertPayloadType -> hops <> 0 -> validFloodRouteBinding r = true ->
  h = Some (hash_ t) -> d = Some (digest_ t) -> route_ t = r ->
  let res := fst (observeDetailed type r hops h d token n now t) in res = AdvRecorded \/ res = AdvSaturated.
Proof.
  intros Ht Ha Hs Ho Hw -> Hh Hr -> -> Er. cbv zeta.
  assert (Et : snd (tick now t) = t).
  { destruct (tick_cases now t) as [->|(_ & _ & _ & Hge & _)]; [done|lia]. }
  unfold observeDetailed. rewrite Et, Z.eqb_refl, Hr, Ha, Hs, Ho, (ao_known t Ht), (ao_fingerprint t Ht), Ho, Hs.
  apply Z.eqb_neq in Hh. rewrite Hh, !(proj2 (beq_eq _ _) eq_refl). unfold isState. cbn [negb orb bool_decide].
  rewrite !bool_decide_eq_true_2 by done. cbn [negb orb].
  rewrite (proj2 (sameFloodRouteBinding_eq (route_ t) r)) by (rewrite Er; done). cbn [negb].
  destruct (recordSource _ _ _) as [ch m]. destruct (repeatCount (status_ t) =? 255); auto.
Qed.

(** A counted copy was forwarded on the captured route, which is valid. *)
Lemma observe_valid_route type r hops h d token n now t :
  fst (observeDetailed type r hops h d token n now t) <> AdvNotCandidate -> validFloodRouteBinding r = true.
Proof.
  unfold observeDetailed. destruct h, d; try done. destruct (validFloodRouteBinding r); [done|].
  cbn [negb]. rewrite orb_true_r. done.
Qed.

(** A heard copy is counted exactly when the advert is transmitted, its
    two-minute window is still open on the wrap-safe clock, the packet is a
    forwarded advert and its hash, digest and route equal those retained at
    transmission; then the count grows by exactly one, and a full counter
    saturates instead of wrapping. *)
Theorem advert_counts_in_window ops type r hops h d token n now :
  let t := run ops in
  let '(res, t') := observeDetailed type r hops h d token n now t in
  (res = AdvRecorded \/ res = AdvSaturated <->
     available (status_ t) = true /\ state (status_ t) = Sent /\ observationOpen (status_ t) = true /\
     u32 (now - sentAtMs_ t) < kAdvertRepeatWindowMs /\
     type = kAdvertPayloadType /\ hops <> 0 /\ validFloodRouteBinding r = true /\
     h = Some (hash_ t) /\ d = Some (digest_ t) /\ route_ t = r) /\
  (res = AdvRecorded -> repeatCount (status_ t') = repeatCount (status_ t) + 1 /\ dirty_ t' = true) /\
  (res = AdvSaturated -> repeatCount (status_ t) = 255 /\ repeatCount (status_ t') = 255) /\
  (res <> AdvRecorded -> repeatCount (status_ t') = repeatCount (status_ t)).
Proof.
  intros t. pose proof (advert_run_ok ops) as Ht. fold t in Ht.
  pose proof (observe_cases type r hops h d token n now t Ht) as Hc.
  pose proof (observe_match type r hops h d token n now t Ht) as Hm.
  pose proof (observe_valid_route type r hops h d token n now t) as Hv. cbv zeta in Hc.
  destruct (observeDetailed _ _ _ _ _ _ _ _ _) as [res t']. cbv zeta in Hm. cbn [fst] in Hm, Hv.
  split; [split|].
  - intros Hres. assert (Hr : validFloodRouteBinding r = true) by (apply Hv; destruct Hres; congruence).
    destruct Hc as [(_ & ? & ?)|(_ & ? & ? & ? & ? & ? & ? & ? & ? & ? & _)]; [tauto|]. by split_and!.
  - intros (? & ? & ? & ? & ? & ? & ? & ? & ? & ?). by apply Hm.
  - destruct Hc as [(-> & Hn1 & Hn2)|(_ & _ & _ & _ & _ & _ & _ & _ & _ & _ & m & Hc)].
    + split_and!; [done|done|]. intros _. destruct (tick_cases now t) as [->|(_ & _ & _ & _ & Hf)]; [done|].
      by rewrite (tick_closed now t Hf).
    + destruct Hc as [(-> & Hc & [-> | ->])|(-> & Hc & ->)]; split_and!; intros; try done.
Qed.

(** ** A run *)

Definition demoRoute : FloodRouteBinding := mkBinding true 0x7f3a 0 1.
Definition demoHash : list Z := replicate 8 9.
Definition demoDigest : list Z := replicate 32 7.
Definition demoCopy (now : Z) : Op :=
  OpObserve 4 demoRoute 2 (Some demoHash) (Some demoDigest) (Some [0x42; 0; 0]) 1 now.
Definition demoOps : list Op :=
  [OpQueued 4 true 1704067200; OpTakeDirty;
   OpSent 4 demoRoute (Some demoHash) (Some demoDigest) 1704067200 4294967000; demoCopy 50; demoCopy 60].

Example demo_phase : phaseOf (run demoOps) = Listening 1704067200 2.
Proof. vm_compute. reflexivity. Qed.
Example demo_settled : phaseOf (runOp (OpTick 119704) (run demoOps)) = Settled 1704067200 2.
Proof. vm_compute. reflexivity. Qed.


Lemma advert_counts_in_window_witness :
  repeatCount (status_ (runOp (demoCopy 70) (run demoOps))) = 3.
Proof.
  pose proof (advert_counts_in_window demoOps 4 demoRoute 2 (Some demoHash) (Some demoDigest)
    (Some [0x42; 0; 0]) 1 70) as H.
  assert (Ec : repeatCount (status_ (run demoOps)) = 2) by (vm_compute; reflexivity).
  unfold demoCopy, runOp. cbv zeta in H.
  assert (Er : fst (observeDetailed 4 demoRoute 2 (Some demoHash) (Some demoDigest) (Some [0x42; 0; 0]) 1 70
    (run demoOps)) = AdvRecorded) by (vm_compute; reflexivity).
  destruct (observeDetailed _ _ _ _ _ _ _ _ _) as [res t']. cbn [fst snd] in *.
  destruct (proj1 (proj2 H) Er) as [-> _]. by rewrite Ec.
Defined.
