(* ===== verification/StorageRetry.v ===== *)
(** * Storage retry schedule (src/src/kitsu_storage_retry.h, .cpp)

    The wrap-safe, bounded write retry schedule behind the discovery journal and
    the companion brain: its private members are the record [Schedule], one
    definition per member function.  The property relates every state the
    schedule can reach to the failures reported since the last success. *)

From S2P Require Import Prelude.

Open Scope Z_scope.

Definition kStorageRetryDelaysMs : list Z := [5000; 30000; 120000; 600000; 1800000].
Definition kStorageRetryDelayCount : Z := Z.of_nat (length kStorageRetryDelaysMs).

Inductive StorageRetryFailure := Transient | NoSpace.

Record Schedule := mkSchedule {
  dirty_ : bool;
  blockedNoSpace_ : bool;
  failureCount_ : Z;
  dueAt_ : Z;
  lastAttemptAt_ : Z;
}.

Definition reset : Schedule := mkSchedule false false 0 0 0.

Definition markDirty (now initialDelayMs : Z) (s : Schedule) : Schedule :=
  let candidate := u32 (now + initialDelayMs) in
  if negb (dirty_ s) then
    mkSchedule true (blockedNoSpace_ s) (failureCount_ s) candidate (lastAttemptAt_ s)
  else if blockedNoSpace_ s || negb (failureCount_ s =? 0) then s
  else
    let remaining := u32 (dueAt_ s - now) in
    if deadlineReached now (dueAt_ s) || (initialDelayMs <? remaining) then
      mkSchedule (dirty_ s) (blockedNoSpace_ s) (failureCount_ s) candidate (lastAttemptAt_ s)
    else s.

Definition attemptDue (now : Z) (s : Schedule) : bool :=
  dirty_ s && negb (blockedNoSpace_ s) && deadlineReached now (dueAt_ s).

Definition recordAttempt (now : Z) (s : Schedule) : Schedule :=
  mkSchedule (dirty_ s) (blockedNoSpace_ s) (failureCount_ s) (dueAt_ s) now.

Definition recordSuccess (s : Schedule) : Schedule := reset.

Definition recordFailure (now : Z) (failure : StorageRetryFailure) (s : Schedule) : Schedule :=
  match failure with
  | NoSpace => mkSchedule true true (failureCount_ s) 0 (lastAttemptAt_ s)
  | Transient =>
      let count := if failureCount_ s <? kStorageRetryDelayCount then u8 (failureCount_ s + 1)
                   else failureCount_ s in
      let delayIndex := if count =? 0 then 0 else u8 (count - 1) in
      mkSchedule true (blockedNoSpace_ s) count
        (u32 (now + nth (Z.to_nat delayIndex) kStorageRetryDelaysMs 0)) (lastAttemptAt_ s)
  end.

Definition rearmAfterHeadroom (now initialDelayMs : Z) (s : Schedule) : Schedule :=
  if negb (dirty_ s) || negb (blockedNoSpace_ s) then s
  else mkSchedule (dirty_ s) false 0 (u32 (now + initialDelayMs)) (lastAttemptAt_ s).

Record StorageRetryStatus := mkStatus {
  st_dirty : bool;
  st_blockedNoSpace : bool;
  st_failureCount : Z;
  st_dueAt : Z;
  st_lastAttemptAt : Z;
}.

Definition status (s : Schedule) : StorageRetryStatus :=
  mkStatus (dirty_ s) (blockedNoSpace_ s) (failureCount_ s) (dueAt_ s) (lastAttemptAt_ s).

(** ** Runs *)

Inductive Op :=
  | OpMark (now delay : Z)
  | OpAttempt (now : Z)
  | OpSuccess
  | OpFailure (now : Z) (failure : StorageRetryFailure)
  | OpRearm (now delay : Z)
  | OpReset.

Definition runOp (op : Op) (s : Schedule) : Schedule :=
  match op with
  | OpMark now d => markDirty now d s
  | OpAttempt now => recordAttempt now s
  | OpSuccess => recordSuccess s
  | OpFailure now f => recordFailure now f s
  | OpRearm now d => rearmAfterHeadroom now d s
  | OpReset => reset
  end.

Definition runFrom (s : Schedule) (ops : list Op) : Schedule := fold_left (fun s op => runOp op s) ops s.
Definition run (ops : list Op) : Schedule := runFrom reset ops.

(** The reference: what has gone wrong since the last success - whether the
    store reported that it is full, and how many other failures there were. *)
Record Episode := mkEpisode { full : bool; failures : nat }.

Definition episodeStep (e : Episode) (op : Op) : Episode :=
  match op with
  | OpSuccess | OpReset => mkEpisode false 0
  | OpFailure _ NoSpace => mkEpisode true (failures e)
  | OpFailure _ Transient => mkEpisode (full e) (S (failures e))
  | OpRearm _ _ => if full e then mkEpisode false 0 else e
  | OpMark _ _ | OpAttempt _ => e
  end.

Definition episode (ops : list Op) : Episode := fold_left episodeStep ops (mkEpisode false 0).

(** The pause after the [n]-th failure in a row: the table, its last entry for
    every further failure. *)
Definition retryDelay (n : nat) : Z := nth (Nat.min n 5 - 1) kStorageRetryDelaysMs 0.

Definition quiet (op : Op) : bool := match op with OpMark _ _ | OpAttempt _ => true | _ => false end.

(** ** The refinement *)

Record Agrees (s : Schedule) (e : Episode) : Prop := {
  ag_full : blockedNoSpace_ s = full e;
  ag_failures : failureCount_ s = Z.of_nat (Nat.min (failures e) 5);
  ag_dirty : full e = true \/ failures e <> O -> dirty_ s = true;
}.

Lemma Agrees_step op s e : Agrees s e -> Agrees (runOp op s) (episodeStep e op).
Proof.
  intros [Hf Hn Hd]. destruct op as [now d|now| |now []|now d|]; cbn [runOp episodeStep];
    try by split.
  all: try (split; cbn; [done..|by intros [|]]).
  - unfold markDirty. destruct (dirty_ s) eqn:E; simpl; [|by split].
    destruct (orb _ _); [by split|]. destruct (orb _ _); by split.
  - split; try done. cbn [recordFailure failureCount_ failures]. rewrite Hn.
    change kStorageRetryDelayCount with 5.
    destruct (Z.ltb_spec (Z.of_nat (failures e `min` 5)) 5); [rewrite u8_id by lia|]; lia.
  - unfold rearmAfterHeadroom. rewrite Hf. destruct (full e) eqn:E.
    + rewrite Hd by auto. split; simpl; [done..|by intros [|]].
    + rewrite orb_true_r. split; rewrite ?E; done.
Qed.

Lemma Agrees_run ops : Agrees (run ops) (episode ops).
Proof.
  induction ops as [|op ops IH] using rev_ind; [split; simpl; [done..|by intros [|]]|].
  unfold run, runFrom, episode in *. rewrite !fold_left_app. by apply Agrees_step.
Qed.

(** A quiet call leaves a failed or full schedule alone. *)
Lemma quiet_keeps ops s : forallb quiet ops = true -> dirty_ s = true ->
  blockedNoSpace_ s = true \/ failureCount_ s <> 0 ->
  let s' := runFrom s ops in
  dirty_ s' = true /\ blockedNoSpace_ s' = blockedNoSpace_ s /\ dueAt_ s' = dueAt_ s.
Proof.
  revert s. induction ops as [|op ops IH]; intros s Hq Hd Hb; [done|].
  cbn [forallb] in Hq. apply andb_true_iff in Hq as [Hop Hq].
  unfold runFrom in *. cbn [fold_left].
  destruct op as [now d|now| | | |]; try done; cbn [runOp].
  - unfold markDirty. rewrite Hd. cbn [negb].
    replace (orb _ _) with true; [by apply IH|]. symmetry. apply orb_true_iff.
    destruct Hb as [->|Hb]; [by left|right]. by apply negb_true_iff, Z.eqb_neq.
  - by apply (IH (recordAttempt now s)).
Qed.

Lemma failure_spec t f s e : Agrees s e ->
  let s' := recordFailure t f s in
  dirty_ s' = true /\ blockedNoSpace_ s' = (full e || match f with NoSpace => true | Transient => false end) /\
  (blockedNoSpace_ s' = true \/ failureCount_ s' <> 0) /\
  (f = Transient -> dueAt_ s' = u32 (t + retryDelay (S (failures e)))).
Proof.
  intros He s'. pose proof (Agrees_step (OpFailure t f) s e He) as [Hf Hn _]. fold s' in Hf, Hn.
  destruct f; cbn [runOp episodeStep full failures] in Hf, Hn; fold s' in Hf, Hn.
  - rewrite orb_false_r. split; [done|]. split; [done|]. split; [right; lia|]. intros _.
    destruct He as [_ He _]. unfold s', recordFailure, dueAt_. f_equal. f_equal.
    rewrite He. change kStorageRetryDelayCount with 5. unfold retryDelay.
    destruct (Z.ltb_spec (Z.of_nat (failures e `min` 5)) 5).
    + rewrite (u8_id (_ + 1)) by lia. rewrite (proj2 (Z.eqb_neq (_ + 1) 0)) by lia.
      rewrite u8_id by lia. f_equal. lia.
    + rewrite (proj2 (Z.eqb_neq (Z.of_nat _) 0)) by lia. rewrite u8_id by lia. f_equal. lia.
  - rewrite orb_true_r. split; [done|]. split; [done|]. split; [by left|done].
Qed.

(** After a failed write, and however much new data is reported meanwhile,
    the next attempt is due exactly when the pause of the current run of
    failures (5 s, 30 s, 2 min, 10 min, then 30 min) has elapsed on the
    wrap-safe clock, and never while the store is full; the data stays marked
    for writing. *)
Theorem backoff_exact ops since t now f :
  forallb quiet since = true -> 0 <= now - t < 2 ^ 31 - 1800000 ->
  let e := episode ops in
  let s := run (ops ++ OpFailure (u32 t) f :: since) in
  dirty_ s = true /\
  attemptDue (u32 now) s =
    match f with
    | NoSpace => false
    | Transient => negb (full e) && (retryDelay (S (failures e)) <=? now - t)
    end.
Proof.
  intros Hq Hnow e s.
  destruct (failure_spec (u32 t) f _ _ (Agrees_run ops)) as (Hd & Hf & Hb & Ht). fold e in Hf, Ht.
  pose proof (quiet_keeps since _ Hq Hd Hb) as (Hd' & Hf' & Ht').
  assert (Es : s = runFrom (recordFailure (u32 t) f (run ops)) since).
  { unfold s, run, runFrom. by rewrite fold_left_app. }
  rewrite <- Es in Hd', Hf', Ht'. split; [done|]. unfold attemptDue. rewrite Hd', Hf', Hf, Ht'.
  destruct f; [|by rewrite orb_true_r]. rewrite orb_false_r, Ht by done. cbn [andb]. f_equal.
  assert (0 <= retryDelay (S (failures e)) <= 1800000).
  { unfold retryDelay. destruct (Nat.min _ _ - 1)%nat as [|[|[|[|[|]]]]] eqn:E; simpl; lia. }
  replace (u32 (u32 t + _)) with (u32 (t + retryDelay (S (failures e))))
    by (unfold u32; by rewrite Zplus_mod_idemp_l).
  rewrite deadlineReached_spec by lia. destruct (Z.leb_spec (t + retryDelay (S (failures e))) now); lia.
Qed.

Lemma backoff_exact_witness :
  attemptDue (u32 35199) (run ([OpMark 100 5000; OpFailure 200 Transient] ++
    OpFailure (u32 5200) Transient :: [OpMark 5300 0; OpAttempt 6000])) = false /\
  attemptDue (u32 35200) (run ([OpMark 100 5000; OpFailure 200 Transient] ++
    OpFailure (u32 5200) Transient :: [OpMark 5300 0; OpAttempt 6000])) = true.
Proof.
  split.
  - exact (proj2 (backoff_exact [OpMark 100 5000; OpFailure 200 Transient]
      [OpMark 5300 0; OpAttempt 6000] 5200 35199 Transient eq_refl ltac:(lia))).
  - exact (proj2 (backoff_exact [OpMark 100 5000; OpFailure 200 Transient]
      [OpMark 5300 0; OpAttempt 6000] 5200 35200 Transient eq_refl ltac:(lia))).
Defined.
