(* ===== verification/MeshConfig.v ===== *)
(** * Mesh settings and the session gate (src/src/kitsu_mesh_config.h, .cpp)

    The persisted radio settings with their validation and 64-byte record, the
    one-time location consent, the identity of the client, the settings store
    over the ESP32 Preferences calls (a parameter) and [TxGate].  A C++
    enumeration that a decoder casts from a byte is that byte; a null pointer is
    [None]; an output buffer is its length on entry and its bytes on exit. *)

From S2P Require Import Prelude Crc.

Open Scope Z_scope.
Open Scope kitsu_scope.

(** ** Data *)

Definition kShortUidBytes : nat := 7.
Definition kAdvertisedNameBytes : nat := 32.
Definition kPersistedSettingsBytes : nat := 64.
Definition kSettingsSchemaVersion : Z := 1.
Definition kUkEuNarrowProfileId : Z := 0x4B55454E.

Definition RoleClient : Z := 0x01.

Definition Hidden : Z := 0.
Definition Fixed : Z := 1.
Definition CurrentOnce : Z := 2.

Definition Locked : Z := 0.
Definition ExplicitSession : Z := 1.

Inductive LocationSource := SourceNone | SourceFixed | SourceCurrentOnce.

Record Coordinates := mkCoordinates { latitudeE6 : Z; longitudeE6 : Z }.
Definition noCoordinates : Coordinates := mkCoordinates 0 0.

Record RadioProfile := mkProfile {
  profileId : Z;
  frequencyHz : Z;
  bandwidthHz : Z;
  spreadingFactor : Z;
  codingRate : Z;
  syncWord : Z;
  txPowerDbm : Z;
  preambleSymbols : Z;
}.

Definition noProfile : RadioProfile := mkProfile 0 0 0 0 0 0 0 0.
Definition selected (p : RadioProfile) : bool := negb (profileId p =? 0).

Definition ukEuNarrowProfile : RadioProfile :=
  mkProfile kUkEuNarrowProfileId 869618000 62500 8 5 0x12 22 32.

Record Settings := mkSettings {
  enabled : bool;
  locationMode : Z;
  fixedLocation : Coordinates;
  txPolicy : Z;
  radio : RadioProfile;
}.

Definition defaultSettings : Settings := mkSettings false Hidden noCoordinates Locked ukEuNarrowProfile.

Record ClientIdentity := mkIdentity { id_role : Z; id_shortUid : list Z; id_advertisedName : list Z }.

Record CurrentLocationOnce := mkCurrent { pending : bool; coordinates : Coordinates }.
Definition noCurrent : CurrentLocationOnce := mkCurrent false noCoordinates.

Record AdvertLocation := mkAdvertLocation { source : LocationSource; advertCoordinates : Coordinates }.

Inductive Status :=
  | Ok | NullArgument | WrongLength | InvalidShortUid | InvalidLocationMode | InvalidCoordinates
  | LocationPrivacyResidue | InvalidEnabledFlag | InvalidTxPolicy | IncompleteRadioProfile
  | InvalidFrequency | InvalidBandwidth | InvalidSpreadingFactor | InvalidCodingRate | InvalidTxPower
  | InvalidPreamble | BadMagic | UnsupportedSchema | UnexpectedRole | ReservedNotZero
  | IntegrityMismatch.

#[export] Instance Status_eq_dec : EqDecision Status.
Proof. solve_decision. Defined.

Definition isOk (s : Status) : bool := bool_decide (s = Ok).

Definition statusName (status : Status) : string :=
  match status with
  | Ok => "ok" | NullArgument => "null_argument" | WrongLength => "wrong_length"
  | InvalidShortUid => "invalid_short_uid" | InvalidLocationMode => "invalid_location_mode"
  | InvalidCoordinates => "invalid_coordinates"
  | LocationPrivacyResidue => "location_privacy_residue"
  | InvalidEnabledFlag => "invalid_enabled_flag" | InvalidTxPolicy => "invalid_tx_policy"
  | IncompleteRadioProfile => "incomplete_radio_profile"
  | InvalidFrequency => "invalid_frequency" | InvalidBandwidth => "invalid_bandwidth"
  | InvalidSpreadingFactor => "invalid_spreading_factor"
  | InvalidCodingRate => "invalid_coding_rate" | InvalidTxPower => "invalid_tx_power"
  | InvalidPreamble => "invalid_preamble" | BadMagic => "bad_magic"
  | UnsupportedSchema => "unsupported_schema" | UnexpectedRole => "unexpected_role"
  | ReservedNotZero => "reserved_not_zero" | IntegrityMismatch => "integrity_mismatch"
  end.

(** ** Validation *)

Definition profileIsAllZero (p : RadioProfile) : bool :=
  (profileId p =? 0) && (frequencyHz p =? 0) && (bandwidthHz p =? 0) && (spreadingFactor p =? 0) &&
  (codingRate p =? 0) && (syncWord p =? 0) && (txPowerDbm p =? 0) && (preambleSymbols p =? 0).

Definition validateCoordinates (c : Coordinates) : Status :=
  if (latitudeE6 c <? -90000000) || (90000000 <? latitudeE6 c) ||
     (longitudeE6 c <? -180000000) || (180000000 <? longitudeE6 c)
  then InvalidCoordinates else Ok.

Definition supportedBandwidths : list Z :=
  [7800; 10400; 15600; 20800; 31250; 41700; 62500; 125000; 250000; 500000].

Definition validateRadioProfile (p : RadioProfile) : Status :=
  if negb (selected p) then (if profileIsAllZero p then Ok else IncompleteRadioProfile)
  else if (frequencyHz p <? 863000000) || (870000000 <? frequencyHz p) then InvalidFrequency
  else if negb (existsb (Z.eqb (bandwidthHz p)) supportedBandwidths) then InvalidBandwidth
  else if (spreadingFactor p <? 5) || (12 <? spreadingFactor p) then InvalidSpreadingFactor
  else if (codingRate p <? 5) || (8 <? codingRate p) then InvalidCodingRate
  else if (txPowerDbm p <? -9) || (22 <? txPowerDbm p) then InvalidTxPower
  else if preambleSymbols p <? 4 then InvalidPreamble
  else Ok.

(** The location switch of [validateSettings]. *)
Definition validateLocation (s : Settings) : Status :=
  if (locationMode s =? Hidden) || (locationMode s =? CurrentOnce) then
    if negb (latitudeE6 (fixedLocation s) =? 0) || negb (longitudeE6 (fixedLocation s) =? 0)
    then LocationPrivacyResidue else Ok
  else if locationMode s =? Fixed then validateCoordinates (fixedLocation s)
  else InvalidLocationMode.

Definition validateSettings (s : Settings) : Status :=
  match validateLocation s with
  | Ok =>
      if negb (txPolicy s =? Locked) && negb (txPolicy s =? ExplicitSession) then InvalidTxPolicy
      else validateRadioProfile (radio s)
  | failure => failure
  end.

(** ** Identity and location *)

Definition upperHexDigit (c : Z) : bool :=
  ((48 <=? c) && (c <=? 57)) || ((65 <=? c) && (c <=? 70)).

(** The C string is given with its terminator. *)
Definition validShortUid (shortUid : option (list Z)) : bool :=
  match shortUid with
  | None => false
  | Some uid =>
      if negb (byte_at uid 0 =? 75) || negb (byte_at uid 1 =? 84) then false
      else forallb (fun i => upperHexDigit (byte_at uid i)) [2; 3; 4; 5]%nat && (byte_at uid 6 =? 0)
  end.

Definition kAdvertisedPrefix : list Z := [0xF0; 0x9F; 0xA6; 0x8A] ++ bytes_of " Kitsu ".

Definition makeClientIdentity (shortUid : option (list Z)) (output : ClientIdentity)
  : Status * ClientIdentity :=
  match shortUid with
  | None => (NullArgument, output)
  | Some uid =>
      if negb (validShortUid shortUid) then (InvalidShortUid, output)
      else
        let name := kAdvertisedPrefix ++ take 6 uid ++ [0] in
        (Ok, mkIdentity RoleClient (take kShortUidBytes uid)
               (name ++ replicate (kAdvertisedNameBytes - length name) 0))
  end.

Definition hideLocation (s : Settings) : Settings :=
  mkSettings (enabled s) Hidden noCoordinates (txPolicy s) (radio s).

Definition setFixedLocation (s : Settings) (c : Coordinates) : Status * Settings :=
  match validateCoordinates c with
  | Ok => (Ok, mkSettings (enabled s) Fixed c (txPolicy s) (radio s))
  | failure => (failure, s)
  end.

Definition requestCurrentLocationOnce (s : Settings) : Settings :=
  mkSettings (enabled s) CurrentOnce noCoordinates (txPolicy s) (radio s).

Definition stageCurrentLocationOnce (current : CurrentLocationOnce) (c : Coordinates)
  : Status * CurrentLocationOnce :=
  match validateCoordinates c with
  | Ok => (Ok, mkCurrent true c)
  | failure => (failure, current)
  end.

Definition clearCurrentLocationOnce (current : CurrentLocationOnce) : CurrentLocationOnce := noCurrent.

Definition selectAdvertLocation (s : Settings) (current : CurrentLocationOnce)
  : bool * AdvertLocation :=
  if (locationMode s =? Fixed) && isOk (validateCoordinates (fixedLocation s)) then
    (true, mkAdvertLocation SourceFixed (fixedLocation s))
  else if (locationMode s =? CurrentOnce) && pending current &&
          isOk (validateCoordinates (coordinates current)) then
    (true, mkAdvertLocation SourceCurrentOnce (coordinates current))
  else (false, mkAdvertLocation SourceNone noCoordinates).

(** ** The record *)

Definition kMagic : list Z := bytes_of "KMC1".
Definition kOffsetSchema : nat := 4.
Definition kOffsetBytes : nat := 6.
Definition kOffsetCrc32 : nat := 8.
Definition kOffsetRole : nat := 12.
Definition kOffsetLocationMode : nat := 13.
Definition kOffsetTxPolicy : nat := 14.
Definition kOffsetEnabled : nat := 15.
Definition kOffsetFixedLatitude : nat := 16.
Definition kOffsetFixedLongitude : nat := 20.
Definition kOffsetProfileId : nat := 24.
Definition kOffsetFrequency : nat := 28.
Definition kOffsetBandwidth : nat := 32.
Definition kOffsetSpreadingFactor : nat := 36.
Definition kOffsetCodingRate : nat := 37.
Definition kOffsetSyncWord : nat := 38.
Definition kOffsetTxPower : nat := 39.
Definition kOffsetPreamble : nat := 40.
Definition kOffsetReserved : nat := 42.

(** [static_cast<int8_t>] of a byte. *)
Definition s8 (x : Z) : Z := if u8 x <? 128 then u8 x else u8 x - 256.

Definition zeroField (index : nat) (b : Z) : Z :=
  if (kOffsetCrc32 <=? index)%nat && (index <? kOffsetCrc32 + 4)%nat then 0 else b.

Definition crc32WithZeroedField (bytes : list Z) : Z :=
  u32 (Z.lnot (fold_left crcByte (imap zeroField bytes) 0xffffffff)).

(** The record before the checksum is filled in, split at its field. *)
Definition recordHead : list Z :=
  kMagic ++ put16 kSettingsSchemaVersion ++ put16 (Z.of_nat kPersistedSettingsBytes).

Definition recordTail (s : Settings) : list Z :=
  [RoleClient; locationMode s; txPolicy s; if enabled s then 1 else 0] ++
  put32 (u32 (latitudeE6 (fixedLocation s))) ++ put32 (u32 (longitudeE6 (fixedLocation s))) ++
  put32 (profileId (radio s)) ++ put32 (frequencyHz (radio s)) ++ put32 (bandwidthHz (radio s)) ++
  [spreadingFactor (radio s); codingRate (radio s); syncWord (radio s); u8 (txPowerDbm (radio s))] ++
  put16 (preambleSymbols (radio s)) ++
  replicate (kPersistedSettingsBytes - kOffsetReserved) 0.

Definition record (s : Settings) : list Z :=
  let candidate := recordHead ++ replicate 4 0 ++ recordTail s in
  recordHead ++ put32 (crc32WithZeroedField candidate) ++ recordTail s.

(** What is persisted of the settings: a one-time consent becomes Hidden. *)
Definition canonicalMode (mode : Z) : Z := if mode =? CurrentOnce then Hidden else mode.

Definition encodeSettings (s : Settings) (output : option (list Z)) : Status * option (list Z) :=
  match output with
  | None => (NullArgument, output)
  | Some buffer =>
      if negb (length buffer =? kPersistedSettingsBytes)%nat then (WrongLength, output)
      else match validateSettings s with
           | Ok => (Ok, Some (record (mkSettings (enabled s) (canonicalMode (locationMode s))
                                       (fixedLocation s) (txPolicy s) (radio s))))
           | failure => (failure, output)
           end
  end.

Definition candidateOf (input : list Z) : Settings :=
  mkSettings (negb (byte_at input kOffsetEnabled =? 0))
    (byte_at input kOffsetLocationMode)
    (mkCoordinates (s32 (get32 (drop kOffsetFixedLatitude input)))
                   (s32 (get32 (drop kOffsetFixedLongitude input))))
    (byte_at input kOffsetTxPolicy)
    (mkProfile (get32 (drop kOffsetProfileId input)) (get32 (drop kOffsetFrequency input))
       (get32 (drop kOffsetBandwidth input)) (byte_at input kOffsetSpreadingFactor)
       (byte_at input kOffsetCodingRate) (byte_at input kOffsetSyncWord)
       (s8 (byte_at input kOffsetTxPower)) (get16 (drop kOffsetPreamble input))).

Definition decodeSettings (input : option (list Z)) (output : Settings) : Status * Settings :=
  match input with
  | None => (NullArgument, output)
  | Some input =>
      if negb (length input =? kPersistedSettingsBytes)%nat then (WrongLength, output)
      else if negb (beq (slice 0 4 input) kMagic) then (BadMagic, output)
      else if negb (get16 (drop kOffsetSchema input) =? kSettingsSchemaVersion) ||
              negb (get16 (drop kOffsetBytes input) =? Z.of_nat kPersistedSettingsBytes)
      then (UnsupportedSchema, output)
      else if negb (byte_at input kOffsetRole =? RoleClient) then (UnexpectedRole, output)
      else if 1 <? byte_at input kOffsetEnabled then (InvalidEnabledFlag, output)
      else if existsb (fun b => negb (b =? 0)) (drop kOffsetReserved input) then (ReservedNotZero, output)
      else if negb (get32 (drop kOffsetCrc32 input) =? crc32WithZeroedField input)
      then (IntegrityMismatch, output)
      else
        let candidate := candidateOf input in
        match validateSettings candidate with
        | Ok => (Ok, if locationMode candidate =? CurrentOnce then hideLocation candidate else candidate)
        | failure => (failure, output)
        end
  end.

Definition sameRadioProfile (a b : RadioProfile) : bool :=
  (profileId a =? profileId b) && (frequencyHz a =? frequencyHz b) && (bandwidthHz a =? bandwidthHz b) &&
  (spreadingFactor a =? spreadingFactor b) && (codingRate a =? codingRate b) &&
  (syncWord a =? syncWord b) && (txPowerDbm a =? txPowerDbm b) &&
  (preambleSymbols a =? preambleSymbols b).

Definition sameSettings (a b : Settings) : bool :=
  Bool.eqb (enabled a) (enabled b) && (locationMode a =? locationMode b) &&
  (latitudeE6 (fixedLocation a) =? latitudeE6 (fixedLocation b)) &&
  (longitudeE6 (fixedLocation a) =? longitudeE6 (fixedLocation b)) &&
  (txPolicy a =? txPolicy b) && sameRadioProfile (radio a) (radio b).

(** ** The session gate *)

Record TxGate := mkGate { unlocked_ : bool; unlockedProfile_ : RadioProfile }.

Definition lock (g : TxGate) : TxGate := mkGate false noProfile.
Definition gate0 : TxGate := mkGate false noProfile.

Definition unlockForSession (s : Settings) (explicitUserApproval : bool) (g : TxGate) : bool * TxGate :=
  let g := lock g in
  if negb explicitUserApproval || negb (txPolicy s =? ExplicitSession) || negb (enabled s) ||
     negb (selected (radio s)) || negb (isOk (validateSettings s))
  then (false, g)
  else (true, mkGate true (radio s)).

Definition allowsTransmit (s : Settings) (g : TxGate) : bool :=
  unlocked_ g && enabled s && (txPolicy s =? ExplicitSession) && isOk (validateSettings s) &&
  sameRadioProfile (radio s) (unlockedProfile_ g).

(** ** The store *)

Inductive StoreStatus := Loaded | Saved | Missing | Invalid | Unavailable | WriteFailed.

#[export] Instance StoreStatus_eq_dec : EqDecision StoreStatus.
Proof. solve_decision. Defined.

Definition storeStatusName (status : StoreStatus) : string :=
  match status with
  | Loaded => "loaded" | Saved => "saved" | Missing => "missing" | Invalid => "invalid"
  | Unavailable => "unavailable" | WriteFailed => "write_failed"
  end.

(** The calls of the Arduino [Preferences] class on one opened name space;
    [getBytes] returns the bytes it copied into the buffer. *)
Class Preferences (W : Type) := {
  prefBegin : M W bool;
  prefGetLength : M W nat;
  prefGetBytes : nat -> M W (list Z);
  prefPutBytes : list Z -> M W nat;
  prefEnd : M W unit;
}.

Section Store.
Context {W : Type} `{Preferences W}.

Definition load (output : Settings) : M W (StoreStatus * Settings) :=
  opened <- prefBegin ;;
  if negb opened then ret (Unavailable, output)
  else
    storedBytes <- prefGetLength ;;
    if (storedBytes =? 0)%nat then prefEnd ;;; ret (Missing, output)
    else if negb (storedBytes =? kPersistedSettingsBytes)%nat then prefEnd ;;; ret (Invalid, output)
    else
      read <- prefGetBytes kPersistedSettingsBytes ;;
      prefEnd ;;;
      ret (if negb (length read =? kPersistedSettingsBytes)%nat then (Invalid, output)
           else match decodeSettings (Some read) defaultSettings with
                | (Ok, candidate) => (Loaded, candidate)
                | _ => (Invalid, output)
                end).

(** The read-back of [save]. *)
Definition readBack (written : nat) : M W (option (list Z)) :=
  if negb (written =? kPersistedSettingsBytes)%nat then ret None
  else
    stored <- prefGetLength ;;
    if negb (stored =? kPersistedSettingsBytes)%nat then ret None
    else
      verification <- prefGetBytes kPersistedSettingsBytes ;;
      ret (if (length verification =? kPersistedSettingsBytes)%nat then Some verification else None).

Definition save (s : Settings) : M W StoreStatus :=
  match encodeSettings s (Some (replicate kPersistedSettingsBytes 0)) with
  | (Ok, Some bytes) =>
      opened <- prefBegin ;;
      if negb opened then ret Unavailable
      else
        written <- prefPutBytes bytes ;;
        verification <- readBack written ;;
        prefEnd ;;;
        ret (match verification with
             | Some v =>
                 if negb (beq v bytes) then WriteFailed
                 else match decodeSettings (Some v) defaultSettings with
                      | (Ok, _) => Saved
                      | _ => WriteFailed
                      end
             | None => WriteFailed
             end)
  | _ => ret Invalid
  end.

End Store.
