(* ===== verification/MeshConfigFacts.v ===== *)
(** * Mesh settings: the record, the store and the consent they keep *)

From S2P Require Import Prelude Crc MeshConfig.

Open Scope Z_scope.
Open Scope kitsu_scope.

(** ** The C types of the fields *)

Record settingsTyped (s : Settings) : Prop := {
  ty_mode : isByte (locationMode s);
  ty_policy : isByte (txPolicy s);
  ty_lat : - 2 ^ 31 <= latitudeE6 (fixedLocation s) < 2 ^ 31;
  ty_lon : - 2 ^ 31 <= longitudeE6 (fixedLocation s) < 2 ^ 31;
  ty_profile : 0 <= profileId (radio s) < 2 ^ 32;
  ty_frequency : 0 <= frequencyHz (radio s) < 2 ^ 32;
  ty_bandwidth : 0 <= bandwidthHz (radio s) < 2 ^ 32;
  ty_sf : isByte (spreadingFactor (radio s));
  ty_cr : isByte (codingRate (radio s));
  ty_sync : isByte (syncWord (radio s));
  ty_power : - 128 <= txPowerDbm (radio s) < 128;
  ty_preamble : 0 <= preambleSymbols (radio s) < 65536;
}.

Lemma s32_u32 x : - 2 ^ 31 <= x < 2 ^ 31 -> s32 (u32 x) = x.
Proof.
  intros Hx. unfold s32. replace (u32 (u32 x)) with (u32 x) by (unfold u32; by rewrite Zmod_mod).
  unfold u32. change (2 ^ 32) with 4294967296. change (2 ^ 31) with 2147483648 in *.
  destruct (Z.lt_ge_cases x 0) as [Hn|Hn].
  - replace (x mod 4294967296) with (x + 4294967296)
      by (rewrite <- (Z.mod_add x 1) by lia; rewrite Z.mod_small; lia).
    destruct (Z.ltb_spec (x + 4294967296) 2147483648); lia.
  - rewrite Z.mod_small by lia. destruct (Z.ltb_spec x 2147483648); lia.
Qed.

Lemma u32_s32 x : 0 <= x < 2 ^ 32 -> u32 (s32 x) = x.
Proof.
  intros Hx. unfold s32. rewrite (u32_id x) by lia. destruct (x <? 2 ^ 31); [by rewrite u32_id by lia|].
  unfold u32. change (2 ^ 32) with 4294967296 in *. rewrite <- (Z.mod_add _ 1) by lia.
  rewrite Z.mod_small; lia.
Qed.

Lemma s32_range x : - 2 ^ 31 <= s32 x < 2 ^ 31.
Proof.
  pose proof (u32_range x). unfold s32. destruct (Z.ltb_spec (u32 x) (2 ^ 31)); lia.
Qed.

Lemma s8_u8 x : - 128 <= x < 128 -> s8 (u8 x) = x.
Proof.
  intros Hx. unfold s8. replace (u8 (u8 x)) with (u8 x) by (unfold u8; by rewrite Zmod_mod).
  unfold u8. change (2 ^ 8) with 256. destruct (Z.lt_ge_cases x 0).
  - replace (x mod 256) with (x + 256)
      by (rewrite <- (Z.mod_add x 1) by lia; rewrite Z.mod_small; lia).
    destruct (Z.ltb_spec (x + 256) 128); lia.
  - rewrite Z.mod_small by lia. destruct (Z.ltb_spec x 128); lia.
Qed.

Lemma u8_s8 x : isByte x -> u8 (s8 x) = x.
Proof.
  unfold isByte. intros Hx. unfold s8. rewrite (u8_id x) by lia. destruct (x <? 128); [by rewrite u8_id by lia|].
  unfold u8. change (2 ^ 8) with 256. rewrite <- (Z.mod_add _ 1) by lia. rewrite Z.mod_small; lia.
Qed.

Lemma s8_range x : - 128 <= s8 x < 128.
Proof. pose proof (u8_range x). unfold s8. destruct (Z.ltb_spec (u8 x) 128); lia. Qed.

(** ** The checksum does not see its own field *)

Lemma imap_id {A} (f : nat -> A -> A) l :
  (forall i a, f i a = a) -> imap f l = l.
Proof.
  intros Hf. revert f Hf. induction l as [|a l IH]; intros f Hf; [done|].
  cbn [imap]. rewrite Hf. f_equal. apply IH. intros. apply Hf.
Qed.

Lemma zeroed_record head crc tail : length head = 8%nat -> length crc = 4%nat ->
  imap zeroField (head ++ crc ++ tail) = head ++ [0; 0; 0; 0] ++ tail.
Proof.
  intros Hh Hc. do 9 (destruct head as [|? head]; try discriminate).
  do 5 (destruct crc as [|? crc]; try discriminate).
  cbn [app imap]. repeat f_equal. apply imap_id. intros i a. reflexivity.
Qed.

Lemma crc_field head crc tail : length head = 8%nat -> length crc = 4%nat ->
  crc32WithZeroedField (head ++ crc ++ tail) = crc32WithZeroedField (head ++ replicate 4 0 ++ tail).
Proof.
  intros Hh Hc. unfold crc32WithZeroedField. by rewrite !zeroed_record by done.
Qed.

Lemma crcZeroed_range l : 0 <= crc32WithZeroedField l < 2 ^ 32.
Proof. apply u32_range. Qed.

(** ** The record and the candidate read from it *)

Lemma recordTail_length s : length (recordTail s) = 52%nat.
Proof. reflexivity. Qed.

Lemma record_length s : length (record s) = kPersistedSettingsBytes.
Proof. reflexivity. Qed.

Lemma candidateOf_record s : settingsTyped s -> candidateOf (record s) = s.
Proof.
  intros [Hm Hp Hla Hlo Hid Hfr Hbw Hsf Hcr Hsy Hpw Hpr].
  unfold record. set (c := crc32WithZeroedField _). clearbody c.
  destruct s as [en mode [la lo] pol [id fr bw sf cr sy pw pr]]. simpl in *.
  unfold candidateOf. f_equal.
  - by destruct en.
  - f_equal; (etransitivity; [apply f_equal; refine (get32_put32 (u32 _) _ _); apply u32_range|]);
      by apply s32_u32.
  - f_equal.
    + exact (get32_put32 _ _ Hid).
    + exact (get32_put32 _ _ Hfr).
    + exact (get32_put32 _ _ Hbw).
    + exact (s8_u8 _ Hpw).
    + exact (get16_put16 _ _ Hpr).
Qed.

Lemma reserved_zero l : existsb (fun b => negb (b =? 0)) l = false -> l = replicate (length l) 0.
Proof.
  induction l as [|b l IH]; [done|]. cbn [existsb length replicate]. intros H.
  apply orb_false_iff in H as [Hb Hl]. apply negb_false_iff, Z.eqb_eq in Hb. subst b.
  f_equal. by apply IH.
Qed.

(** What the guards of the decoder leave: the bytes of the record of the
    settings read from them. *)
Lemma record_candidateOf w : bytesOk w -> length w = kPersistedSettingsBytes ->
  slice 0 4 w = kMagic -> get16 (drop kOffsetSchema w) = kSettingsSchemaVersion ->
  get16 (drop kOffsetBytes w) = Z.of_nat kPersistedSettingsBytes ->
  byte_at w kOffsetRole = RoleClient -> byte_at w kOffsetEnabled <= 1 ->
  drop kOffsetReserved w = replicate 22 0 -> get32 (drop kOffsetCrc32 w) = crc32WithZeroedField w ->
  record (candidateOf w) = w.
Proof.
  intros Hw Hl Hmg Hsc Hby Hro Hen Hrs Hcrc.
  assert (Ew : w = recordHead ++ put32 (crc32WithZeroedField w) ++ recordTail (candidateOf w)).
  { rewrite <- Hcrc. clear Hcrc. unfold kPersistedSettingsBytes in Hl.
    do 42 (destruct w as [|? w]; [discriminate Hl|]).
    cbn [drop kOffsetReserved] in Hrs. rewrite drop_0 in Hrs. subst w. clear Hl.
    repeat (apply Forall_cons_1 in Hw as [? Hw]).
    unfold slice in Hmg. cbn [take drop] in Hmg.
    unfold byte_at in Hro, Hen. cbn [lookup list_lookup default from_option id kOffsetRole kOffsetEnabled] in Hro, Hen.
    unfold recordHead, recordTail. rewrite <- Hmg.
    cbn [kOffsetSchema kOffsetBytes drop] in Hsc, Hby.
    rewrite <- Hsc, <- Hby, !put16_get16 by done.
    unfold candidateOf. cbn [enabled locationMode fixedLocation txPolicy radio latitudeE6 longitudeE6
      profileId frequencyHz bandwidthHz spreadingFactor codingRate syncWord txPowerDbm preambleSymbols
      drop kOffsetFixedLatitude kOffsetFixedLongitude kOffsetProfileId kOffsetFrequency kOffsetBandwidth
      kOffsetPreamble kOffsetCrc32].
    rewrite !u32_s32 by apply u32_range. rewrite !put32_get32, put16_get16 by done.
    unfold byte_at. cbn [lookup list_lookup default from_option id].
    rewrite u8_s8 by done. subst. cbn [app].
    repeat f_equal.
    match goal with |- ?b = _ => assert (b = 0 \/ b = 1) as [-> | ->] by (unfold isByte in *; lia) end; done. }
  unfold record. rewrite <- (crc_field recordHead (put32 (crc32WithZeroedField w)) (recordTail (candidateOf w)))
    by reflexivity.
  rewrite <- Ew. symmetry. exact Ew.
Qed.

(** ** What is persisted *)

Definition canonical (s : Settings) : Settings :=
  mkSettings (enabled s) (canonicalMode (locationMode s)) (fixedLocation s) (txPolicy s) (radio s).

Lemma validate_hidden s : validateSettings s = Ok -> locationMode s = CurrentOnce ->
  hideLocation s = canonical s.
Proof.
  intros Hv Hm. unfold validateSettings, validateLocation in Hv. rewrite Hm in Hv. cbn in Hv.
  destruct (orb _ _) eqn:E; [done|]. apply orb_false_iff in E as [E1 E2].
  apply negb_false_iff, Z.eqb_eq in E1, E2.
  unfold hideLocation, canonical. rewrite Hm. f_equal. destruct (fixedLocation s). simpl in *. by subst.
Qed.

Lemma hide_canonical s : validateSettings s = Ok ->
  (if locationMode s =? CurrentOnce then hideLocation s else s) = canonical s.
Proof.
  intros Hv. destruct (Z.eqb_spec (locationMode s) CurrentOnce) as [E|E]; [by apply validate_hidden|].
  unfold canonical, canonicalMode. rewrite (proj2 (Z.eqb_neq _ _) E). by destruct s.
Qed.

Lemma canonical_valid s : validateSettings s = Ok -> validateSettings (canonical s) = Ok.
Proof.
  intros Hv. rewrite <- (hide_canonical s Hv). destruct (Z.eqb_spec (locationMode s) CurrentOnce); [|done].
  unfold validateSettings, validateLocation in *. rewrite e in Hv. cbn in Hv |- *.
  by destruct (orb _ _).
Qed.

Lemma canonical_typed s : settingsTyped s -> settingsTyped (canonical s).
Proof.
  intros []. split; try done. cbn [canonical locationMode]. unfold canonicalMode.
  destruct (_ =? _); [unfold isByte, Hidden; lia|done].
Qed.

Lemma canonical_idem s : canonical (canonical s) = canonical s.
Proof.
  unfold canonical, canonicalMode. cbn [enabled locationMode fixedLocation txPolicy radio]. f_equal.
  destruct (Z.eqb_spec (locationMode s) CurrentOnce) as [E|E]; [done|].
  by rewrite (proj2 (Z.eqb_neq _ _) E).
Qed.

Lemma candidateOf_typed w : bytesOk w -> settingsTyped (candidateOf w).
Proof.
  intros Hw. pose proof (byte_at_ok w) as Hb.
  split; cbn [candidateOf locationMode txPolicy fixedLocation latitudeE6 longitudeE6 radio profileId
    frequencyHz bandwidthHz spreadingFactor codingRate syncWord txPowerDbm preambleSymbols];
    first [by apply Hb | apply s32_range | apply u32_range | apply s8_range | apply u16_range].
Qed.

Lemma decode_record r out : settingsTyped r -> validateSettings r = Ok ->
  decodeSettings (Some (record r)) out = (Ok, canonical r).
Proof.
  intros Hr Hv. unfold decodeSettings. rewrite candidateOf_record, Hv, hide_canonical by done.
  change (length (record r) =? kPersistedSettingsBytes)%nat with true.
  assert (E4 : slice 0 4 (record r) = kMagic) by reflexivity.
  assert (Es : get16 (drop kOffsetSchema (record r)) = kSettingsSchemaVersion)
    by (refine (get16_put16 1 _ _); lia).
  assert (Eb : get16 (drop kOffsetBytes (record r)) = 64) by (refine (get16_put16 64 _ _); lia).
  assert (Ec : get32 (drop kOffsetCrc32 (record r)) = crc32WithZeroedField (record r)).
  { unfold record at 1. etransitivity; [refine (get32_put32 (crc32WithZeroedField _) _ _); apply crcZeroed_range|].
    symmetry. unfold record. by apply crc_field. }
  rewrite E4, Es, Eb, Ec, beq_refl, !Z.eqb_refl. clear.
  change (byte_at (record r) kOffsetRole) with RoleClient.
  change (byte_at (record r) kOffsetEnabled) with (if enabled r then 1 else 0).
  change (drop kOffsetReserved (record r)) with (replicate 22 0).
  change (64 =? Z.of_nat kPersistedSettingsBytes) with true.
  change (existsb _ (replicate 22 0)) with false.
  by destruct (enabled r).
Qed.

Lemma decode_accepts w out s : bytesOk w -> decodeSettings (Some w) out = (Ok, s) ->
  exists r, settingsTyped r /\ validateSettings r = Ok /\ w = record r /\ s = canonical r.
Proof.
  intros Hw. unfold decodeSettings.
  destruct (Nat.eqb_spec (length w) kPersistedSettingsBytes) as [Hl|]; [|done]. cbn [negb].
  destruct (beq (slice 0 4 w) kMagic) eqn:Em; [|done]. apply beq_eq in Em. cbn [negb].
  destruct (orb _ _) eqn:Ev; [done|]. apply orb_false_iff in Ev as [Es Eb].
  apply negb_false_iff, Z.eqb_eq in Es, Eb.
  destruct (Z.eqb_spec (byte_at w kOffsetRole) RoleClient) as [Er|]; [|done]. cbn [negb].
  destruct (Z.ltb_spec 1 (byte_at w kOffsetEnabled)) as [|Ee]; [done|].
  destruct (existsb _ _) eqn:Ex; [done|]. apply reserved_zero in Ex.
  rewrite length_drop, Hl in Ex.
  destruct (Z.eqb_spec (get32 (drop kOffsetCrc32 w)) (crc32WithZeroedField w)) as [Ec|]; [|done].
  cbn [negb]. destruct (validateSettings (candidateOf w)) eqn:Hv; try done.
  rewrite hide_canonical by done. intros H. apply (f_equal snd) in H. cbn [snd] in H.
  exists (candidateOf w). split; [by apply candidateOf_typed|]. split; [done|]. split; [|done].
  symmetry. by apply record_candidateOf.
Qed.

(** The settings record is exact in both directions. The encoder produces,
    for valid settings and a 64-byte buffer only, the record of the settings
    with a one-time location consent replaced by Hidden; the decoder accepts
    exactly the records of valid settings and returns them so replaced, so
    every field survives and the consent never does. *)
Theorem settings_record_exact :
  (forall s buffer o,
     encodeSettings s (Some buffer) = (Ok, o) <->
     length buffer = kPersistedSettingsBytes /\ validateSettings s = Ok /\ o = Some (record (canonical s))) /\
  (forall w out s, bytesOk w ->
     decodeSettings (Some w) out = (Ok, s) <->
     exists r, settingsTyped r /\ validateSettings r = Ok /\ w = record r /\ s = canonical r) /\
  (forall s, locationMode (canonical s) <> CurrentOnce).
Proof.
  split_and!.
  - intros s buffer o. unfold encodeSettings. fold (canonical s).
    destruct (Nat.eqb_spec (length buffer) kPersistedSettingsBytes) as [E|E]; cbn [negb].
    + destruct (validateSettings s); try (split; [discriminate|by intros (_ & [=] & _)]). split.
      * intros H. apply (f_equal snd) in H. by cbn [snd] in H.
      * by intros (_ & _ & ->).
    + split; [done|by intros [? _]].
  - intros w out s Hw. split; [by apply decode_accepts|].
    intros (r & Hr & Hv & -> & ->). by apply decode_record.
  - intros s. cbn [canonical locationMode]. unfold canonicalMode.
    destruct (Z.eqb_spec (locationMode s) CurrentOnce); done.
Qed.

(** ** The store *)

(** One name space with the value under its key: reading is faithful, writing
    may fail and then leave anything. *)
Class KeyedStore (W : Type) `{Preferences W} := {
  kept : W -> list Z;
  begin_keeps w r w' : prefBegin w = (r, w') -> kept w' = kept w;
  length_reads w n w' : prefGetLength w = (n, w') -> n = length (kept w) /\ kept w' = kept w;
  bytes_read n w l w' : prefGetBytes n w = (l, w') ->
    l = (if (length (kept w) <=? n)%nat then kept w else []) /\ kept w' = kept w;
  end_keeps w r w' : prefEnd w = (r, w') -> kept w' = kept w;
}.

Section Restart.
Context {W : Type} `{KeyedStore W}.

Lemma wp_getLength Q w : (forall w', kept w' = kept w -> Q (length (kept w)) w') -> wp prefGetLength Q w.
Proof.
  intros HQ. unfold wp. destruct (prefGetLength w) as [n w'] eqn:E.
  apply length_reads in E as [-> E]. by apply HQ.
Qed.
Lemma wp_getBytes n Q w : (length (kept w) <= n)%nat ->
  (forall w', kept w' = kept w -> Q (kept w) w') -> wp (prefGetBytes n) Q w.
Proof.
  intros Hn HQ. unfold wp. destruct (prefGetBytes n w) as [l w'] eqn:E.
  apply bytes_read in E as [-> E]. rewrite (proj2 (Nat.leb_le _ _) Hn). by apply HQ.
Qed.
Lemma wp_begin Q w : (forall r w', kept w' = kept w -> Q r w') -> wp prefBegin Q w.
Proof. intros HQ. unfold wp. destruct (prefBegin w) eqn:E. apply begin_keeps in E. by apply HQ. Qed.
Lemma wp_end Q w : (forall w', kept w' = kept w -> Q tt w') -> wp prefEnd Q w.
Proof. intros HQ. unfold wp. destruct (prefEnd w) as [[] w'] eqn:E. apply end_keeps in E. by apply HQ. Qed.
Lemma wp_put l Q w : (forall n w', Q n w') -> wp (prefPutBytes l) Q w.
Proof. intros HQ. apply HQ. Qed.

Lemma load_wp out r w : settingsTyped r -> validateSettings r = Ok -> kept w = record r ->
  wp (load out) (fun x _ => x = (Loaded, canonical r) \/ x = (Unavailable, out)) w.
Proof.
  intros Hr Hv Hk. pose proof (record_length r) as Hl. unfold load. wp_step.
  apply wp_begin. intros [] w1 K1; cbn [negb]; [|apply wp_ret; by right].
  wp_step. apply wp_getLength. intros w2 K2. rewrite K1, Hk, Hl. cbn [Nat.eqb kPersistedSettingsBytes negb].
  wp_step. apply wp_getBytes; [by rewrite K2, K1, Hk, Hl|]. intros w3 K3.
  wp_step. apply wp_end. intros w4 K4. rewrite K2, K1, Hk, Hl. wp_step. rewrite Nat.eqb_refl. cbn [negb].
  rewrite decode_record by done. by left.
Qed.

Lemma readBack_wp n w : wp (readBack n) (fun v w' => kept w' = kept w /\ (v = None \/ v = Some (kept w))) w.
Proof.
  unfold readBack. destruct (_ =? _)%nat; cbn [negb]; [|apply wp_ret; auto].
  wp_step. apply wp_getLength. intros w1 K1.
  destruct (Nat.eqb_spec (length (kept w)) kPersistedSettingsBytes) as [E|E]; cbn [negb]; [|apply wp_ret; auto].
  wp_step. apply wp_getBytes; [by rewrite K1, E|]. intros w2 K2. apply wp_ret.
  rewrite K2, K1, E, Nat.eqb_refl. auto.
Qed.

Lemma save_wp s w :
  wp (save s) (fun st w' => st = Saved -> validateSettings s = Ok /\ kept w' = record (canonical s)) w.
Proof.
  unfold save, encodeSettings. rewrite length_replicate, Nat.eqb_refl. cbn [negb]. fold (canonical s).
  destruct (validateSettings s) eqn:Hv; try (apply wp_ret; done).
  wp_step. apply wp_begin. intros [] w1 _; cbn [negb]; [|by apply wp_ret].
  wp_step. apply wp_put. intros n w2. wp_step. eapply wp_mono; [apply readBack_wp|].
  intros v w3 [K3 Hver]. wp_step. apply wp_end. intros w4 K4. apply wp_ret.
  destruct Hver as [-> | ->]; [done|]. destruct (beq _ _) eqn:Eb; [|done]. apply beq_eq in Eb.
  intros _. split; [done|]. by rewrite K4, K3.
Qed.

(** Settings reported as saved are what the next start loads. Whatever the
    write did, Saved is only returned when the stored record was read back
    exactly, and loading from that store then yields the same settings with a
    one-time location consent withdrawn (or Unavailable when the name space
    does not open), never other settings. *)
Theorem saved_settings_load s w out w2 :
  settingsTyped s -> fst (save s w) = Saved -> kept w2 = kept (snd (save s w)) ->
  fst (load out w2) = (Loaded, canonical s) \/ fst (load out w2) = (Unavailable, out).
Proof.
  intros Ht Hs Hk. destruct (save_wp s w Hs) as [Hv Hr]. rewrite Hr in Hk.
  pose proof (load_wp out (canonical s) w2 (canonical_typed s Ht) (canonical_valid s Hv) Hk) as Hl.
  unfold wp in Hl. by rewrite canonical_idem in Hl.
Qed.

End Restart.

(** ** A concrete store *)

#[export] Instance ListPreferences : Preferences (list Z) := {|
  prefBegin := ret true;
  prefGetLength := gets (@length Z);
  prefGetBytes n := gets (fun w => if (length w <=? n)%nat then w else []);
  prefPutBytes l := fun _ => (length l, l);
  prefEnd := ret tt;
|}.

#[export] Program Instance ListStore : KeyedStore (list Z) := {| kept w := w |}.
Next Obligation. by intros w r w' [= _ <-]. Qed.
Next Obligation. by intros w n w' [= <- <-]. Qed.
Next Obligation. by intros n w l w' [= <- <-]. Qed.
Next Obligation. by intros w r w' [= _ <-]. Qed.

Definition demoSettings : Settings :=
  mkSettings true CurrentOnce noCoordinates ExplicitSession ukEuNarrowProfile.

Lemma demoSettings_typed : settingsTyped demoSettings.
Proof. split; unfold isByte; cbn; unfold CurrentOnce, ExplicitSession, kUkEuNarrowProfileId; lia. Qed.

Definition demoSave : StoreStatus * list Z := save demoSettings [].

Lemma saved_settings_load_witness :
  fst (load defaultSettings (snd demoSave)) = (Loaded, hideLocation demoSettings).
Proof.
  assert (Hs : fst demoSave = Saved) by (vm_compute; reflexivity).
  destruct (saved_settings_load demoSettings [] defaultSettings (snd demoSave)
    demoSettings_typed Hs eq_refl) as [H|H]; [exact H|].
  exfalso. revert H. vm_compute. discriminate.
Defined.

Lemma settings_record_exact_witness :
  decodeSettings (Some (record demoSettings)) defaultSettings = (Ok, hideLocation demoSettings).
Proof.
  apply (proj2 (proj1 (proj2 settings_record_exact) (record demoSettings) defaultSettings
    (hideLocation demoSettings) ltac:(apply (bool_decide_eq_true_1 (bytesOk _)); vm_compute; reflexivity))).
  exists demoSettings. split; [exact demoSettings_typed|]. split; [vm_compute; reflexivity|].
  split; reflexivity.
Defined.
