(* ===== verification/RadioPolicy.v ===== *)
(** * Radio timing policies (src/src/kitsu_tx_turnaround.h, kitsu_rx_rearm_policy.h,
      kitsu_radio_irq_poll.h)

    The synchronous transmit turnaround, the evidence rules for restarting the
    receiver and the polled DIO1 interrupt.  The template arguments of the
    turnaround are the section's computations over an arbitrary world; the loop
    takes its fuel as an argument and [None] is running out of it. *)

From S2P Require Import Prelude.

Open Scope Z_scope.
Open Scope kitsu_scope.

(** ** Transmit turnaround *)

Inductive TxTurnaroundResult := Completed | StartFailed | TimedOut.

#[export] Instance TxTurnaroundResult_eq_dec : EqDecision TxTurnaroundResult.
Proof. solve_decision. Defined.

Definition kTxTurnaroundMarginMs : Z := 32.
Definition INT32_MAX : Z := 2147483647.
Definition kMaximumTxTurnaroundTimeoutMs : Z := INT32_MAX.

Definition txTurnaroundTimeoutMs (estimatedAirtimeMs : Z) : Z :=
  if kMaximumTxTurnaroundTimeoutMs <?
     u64 (estimatedAirtimeMs + estimatedAirtimeMs / 2 + kTxTurnaroundMarginMs)
  then kMaximumTxTurnaroundTimeoutMs
  else u32 (u64 (estimatedAirtimeMs + estimatedAirtimeMs / 2 + kTxTurnaroundMarginMs)).

Record Completion := mkCompletion { completionLatched_ : bool; completionReported_ : bool }.

Definition reset (c : Completion) : Completion := mkCompletion false false.
Definition latchCompleted (c : Completion) : Completion := mkCompletion true (completionReported_ c).

Definition takeForDispatcher (c : Completion) : bool * Completion :=
  if negb (completionLatched_ c) then (false, c) else (true, mkCompletion false true).

Definition consumeReportedFinish (c : Completion) : bool * Completion :=
  if negb (completionReported_ c) then (false, c)
  else (true, mkCompletion (completionLatched_ c) false).

Section Turnaround.
Context {W : Type} (start : M W bool) (clock : M W Z) (pollIrq : M W unit)
  (consumeTxDone : M W bool) (finishTx rearmRx cooperativeYield : M W unit).

(** The timed loop: [Some true] when TX_DONE was consumed, [Some false] at the
    timeout. *)
Fixpoint awaitTxDone (fuel : nat) (startedAt timeoutMs : Z) : M W (option bool) :=
  match fuel with
  | O => ret None
  | S fuel =>
      pollIrq ;;;
      consumed <- consumeTxDone ;;
      if consumed then ret (Some true)
      else
        now <- clock ;;
        if timeoutMs <=? u32 (now - startedAt) then ret (Some false)
        else cooperativeYield ;;; awaitTxDone fuel startedAt timeoutMs
  end.

Definition onRadio {A} (m : M W A) : M (Completion * W) A :=
  fun s => let '(a, w) := m (snd s) in (a, (fst s, w)).
Definition completion (f : Completion -> Completion) : M (Completion * W) unit :=
  modify (fun s => (f (fst s), snd s)).

Definition finishAndRearm : M (Completion * W) unit := onRadio finishTx ;;; onRadio rearmRx.

Definition runSynchronousTxTurnaround (fuel : nat) (timeoutMs : Z)
  : M (Completion * W) (option TxTurnaroundResult) :=
  completion reset ;;;
  started <- onRadio start ;;
  if negb started then onRadio rearmRx ;;; ret (Some StartFailed)
  else
    startedAt <- onRadio clock ;;
    waited <- onRadio (awaitTxDone fuel startedAt timeoutMs) ;;
    match waited with
    | None => ret None
    | Some true => finishAndRearm ;;; completion latchCompleted ;;; ret (Some Completed)
    | Some false =>
        onRadio pollIrq ;;;
        consumed <- onRadio consumeTxDone ;;
        if consumed then finishAndRearm ;;; completion latchCompleted ;;; ret (Some Completed)
        else finishAndRearm ;;; completion reset ;;; ret (Some TimedOut)
    end.

End Turnaround.

(** ** Receiver restart *)

Definition kSx126xChipModeMask : Z := 0x70.
Definition kSx126xChipModeRx : Z := 0x50.

Record RxRearmEvidence := mkEvidence {
  startAttempted : bool;
  startCode : Z;
  softwareRx : bool;
  chipStatusAvailable : bool;
  chipStatus : Z;
}.

Definition noEvidence : RxRearmEvidence := mkEvidence false 0 false false 0.

Definition sx126xChipMode (status : Z) : Z := u8 (Z.shiftr (Z.land status kSx126xChipModeMask) 4).

Definition sx126xStatusIsRx (status : Z) : bool :=
  Z.land status kSx126xChipModeMask =? kSx126xChipModeRx.

Definition shouldRetryRxRearm (e : RxRearmEvidence) (dio1Low : bool) : bool :=
  dio1Low &&
  ((startAttempted e && negb (startCode e =? 0)) || negb (softwareRx e) ||
   (chipStatusAvailable e && negb (sx126xStatusIsRx (chipStatus e)))).

Definition rxRearmPhysicallyConfirmed (e : RxRearmEvidence) : bool :=
  startAttempted e && (startCode e =? 0) && softwareRx e && chipStatusAvailable e &&
  sx126xStatusIsRx (chipStatus e).

(** ** The polled interrupt line *)

Definition kKitsuRadioDio1Pin : Z := 14.
Definition kKitsuRadioDio1RisingMode : Z := 1.

Record RadioIrqPollDiagnostics := mkDiagnostics {
  polls : Z; highPolls : Z; highEdges : Z; callbacks : Z
}.

Definition noDiagnostics : RadioIrqPollDiagnostics := mkDiagnostics 0 0 0 0.

(** A callback is a computation over the world; [None] is the null pointer. *)
Record LatchedRadioIrqPoll (W : Type) := mkPoll {
  callback_ : option (M W unit);
  diagnostics_ : RadioIrqPollDiagnostics;
  wasAsserted_ : bool;
}.
Arguments mkPoll {W}. Arguments callback_ {W}. Arguments diagnostics_ {W}. Arguments wasAsserted_ {W}.

Definition incrementSaturating (v : Z) : Z := if negb (v =? UINT32_MAX) then u32 (v + 1) else v.

Section Irq.
Context {W : Type}.
Implicit Types p : LatchedRadioIrqPoll W.

Definition claim (pin : Z) (callback : option (M W unit)) (mode : Z) p : bool * LatchedRadioIrqPoll W :=
  match callback with
  | Some cb =>
      if negb (pin =? kKitsuRadioDio1Pin) || negb (mode =? kKitsuRadioDio1RisingMode) then (false, p)
      else (true, mkPoll (Some cb) (diagnostics_ p) (wasAsserted_ p))
  | None => (false, p)
  end.

Definition release (pin : Z) p : bool * LatchedRadioIrqPoll W :=
  if negb (pin =? kKitsuRadioDio1Pin) then (false, p)
  else (true, mkPoll None (diagnostics_ p) (wasAsserted_ p)).

Definition countPoll (asserted wasAsserted : bool) (d : RadioIrqPollDiagnostics) : RadioIrqPollDiagnostics :=
  mkDiagnostics (incrementSaturating (polls d))
    (if asserted then incrementSaturating (highPolls d) else highPolls d)
    (if asserted && negb wasAsserted then incrementSaturating (highEdges d) else highEdges d)
    (callbacks d).

Definition countCallback (d : RadioIrqPollDiagnostics) : RadioIrqPollDiagnostics :=
  mkDiagnostics (polls d) (highPolls d) (highEdges d) (incrementSaturating (callbacks d)).

Definition poll (asserted : bool) p (w : W) : bool * LatchedRadioIrqPoll W * W :=
  let p1 := mkPoll (callback_ p) (countPoll asserted (wasAsserted_ p) (diagnostics_ p)) asserted in
  match callback_ p with
  | Some cb =>
      if asserted then
        let '(_, w') := cb w in
        (true, mkPoll (callback_ p1) (countCallback (diagnostics_ p1)) (wasAsserted_ p1), w')
      else (false, p1, w)
  | None => (false, p1, w)
  end.

Definition claimed p : bool := match callback_ p with Some _ => true | None => false end.

Definition clearDiagnostics p : LatchedRadioIrqPoll W := mkPoll (callback_ p) noDiagnostics false.

End Irq.
