(* ===== verification/RadioPolicyFacts.v ===== *)
(** * The transmit turnaround: termination, effects and their order *)

From S2P Require Import Prelude RadioPolicy.

Open Scope Z_scope.
Open Scope kitsu_scope.

(** ** The calls of a turnaround *)

Inductive Event :=
  | EvStart (ok : bool)
  | EvClock (now : Z)
  | EvPoll
  | EvConsume (done : bool)
  | EvFinish
  | EvRearm
  | EvYield.

(** Calls that leave the transmission in progress. *)
Definition waiting (e : Event) : bool :=
  match e with EvClock _ | EvPoll | EvConsume false | EvYield => true | _ => false end.

Definition logged {W A} (m : M W A) (ev : A -> Event) : M (W * list Event) A :=
  fun s => let '(a, w') := m (fst s) in (a, (w', snd s ++ [ev a])).

(** ** A radio whose clock moves

    [ticks] is real time, [rate] ticks to the millisecond; every call takes time
    but less than [slow] ticks, and the loop body at least one. *)
Section Clocked.
Context {W : Type} (start : M W bool) (clock : M W Z) (pollIrq : M W unit)
  (consumeTxDone : M W bool) (finishTx rearmRx cooperativeYield : M W unit)
  (ticks : W -> Z) (rate slow : Z).

Definition lasting {A} (least : Z) (m : M W A) : Prop :=
  forall w, ticks w + least <= ticks (snd (m w)) <= ticks w + slow.

Record Clocked : Prop := {
  ck_rate : 0 < rate;
  ck_slow : 1 <= slow;
  ck_start : lasting 0 start;
  ck_poll : lasting 0 pollIrq;
  ck_consume : lasting 0 consumeTxDone;
  ck_finish : lasting 0 finishTx;
  ck_rearm : lasting 0 rearmRx;
  ck_yield : lasting 1 cooperativeYield;
  ck_clock : lasting 0 clock;
  ck_reads : forall w, fst (clock w) = u32 (ticks w / rate);
}.

Abbreviation runLogged := (runSynchronousTxTurnaround (logged start EvStart) (logged clock EvClock)
  (logged pollIrq (fun _ => EvPoll)) (logged consumeTxDone EvConsume)
  (logged finishTx (fun _ => EvFinish)) (logged rearmRx (fun _ => EvRearm))).

Abbreviation awaitLogged := (awaitTxDone (logged clock EvClock)
  (logged pollIrq (fun _ => EvPoll)) (logged consumeTxDone EvConsume)
  (logged cooperativeYield (fun _ => EvYield))).

Context (HC : Clocked).

Lemma logged_run {A} (m : M W A) ev w log :
  logged m ev (w, log) = (fst (m w), (snd (m w), log ++ [ev (fst (m w))])).
Proof. unfold logged. cbn [fst snd]. by destruct (m w). Qed.

(** Elapsed milliseconds on the wrapping counter, while less than the range. *)
Lemma elapsed_exact a b : a <= b -> b - a < rate * (2 ^ 32 - 1) ->
  u32 (u32 (b / rate) - u32 (a / rate)) = b / rate - a / rate.
Proof.
  intros Hab Hb. destruct HC as [Hr _ _ _ _ _ _ _ _ _]. unfold u32.
  rewrite <- Zminus_mod. apply Z.mod_small.
  pose proof (Z.div_le_mono a b rate Hr Hab).
  pose proof (Z.div_mod a rate). pose proof (Z.div_mod b rate).
  pose proof (Z.mod_pos_bound a rate Hr). pose proof (Z.mod_pos_bound b rate Hr). nia.
Qed.

(** The loop ends within the fuel that the remaining time allows, and only
    waits meanwhile. *)
Lemma await_spec fuel : forall w log t0 timeout,
  t0 <= ticks w -> 0 <= timeout ->
  ticks w - t0 < rate * (timeout + 1) + 2 * slow ->
  rate * (timeout + 1) + 4 * slow < rate * (2 ^ 32 - 1) ->
  rate * (timeout + 1) - (ticks w - t0) < Z.of_nat fuel ->
  0 < Z.of_nat fuel ->
  exists r w' mid, awaitLogged fuel (u32 (t0 / rate)) timeout (w, log) = (Some r, (w', log ++ mid)) /\
    if r then exists mid', mid = mid' ++ [EvConsume true] /\ forallb waiting mid' = true
    else forallb waiting mid = true /\
         exists mid' now, mid = mid' ++ [EvClock now] /\ timeout <= u32 (now - u32 (t0 / rate)).
Proof.
  induction fuel as [|fuel IH]; intros w log t0 timeout Ht Hto Hel Hmax Hfuel Hpos; [lia|].
  cbn [awaitTxDone]. unfold bind at 1. rewrite logged_run. set (w1 := snd (pollIrq w)).
  unfold bind at 1. rewrite logged_run. set (w2 := snd (consumeTxDone w1)).
  destruct (fst (consumeTxDone w1)) eqn:Ec.
  { exists true, w2, [EvPoll; EvConsume true]. split; [by rewrite <- app_assoc|].
    by exists [EvPoll]. }
  unfold bind at 1. rewrite logged_run. set (w3 := snd (clock w2)).
  pose proof (ck_poll HC w) as T1. pose proof (ck_consume HC w1) as T2.
  pose proof (ck_clock HC w2) as T3. pose proof (ck_yield HC w3) as T4.
  fold w1 in T1. fold w2 in T2. fold w3 in T3. rewrite (ck_reads HC w2).
  pose proof (ck_rate HC). pose proof (ck_slow HC).
  assert (Hu : u32 (u32 (ticks w2 / rate) - u32 (t0 / rate)) = ticks w2 / rate - t0 / rate)
    by (apply elapsed_exact; lia).
  destruct (Z.leb_spec timeout (u32 (u32 (ticks w2 / rate) - u32 (t0 / rate)))) as [Hge|Hlt].
  { exists false, w3, ([EvPoll; EvConsume false; EvClock (u32 (ticks w2 / rate))]).
    split; [by rewrite <- !app_assoc|]. split; [done|].
    exists [EvPoll; EvConsume false], (u32 (ticks w2 / rate)). split; [done|exact Hge]. }
  unfold bind at 1. rewrite logged_run. set (w4 := snd (cooperativeYield w3)). fold w4 in T4.
  rewrite Hu in Hlt.
  assert (ticks w2 - t0 < rate * (timeout + 1)).
  { pose proof (Z.div_mod t0 rate). pose proof (Z.div_mod (ticks w2) rate).
    pose proof (Z.mod_pos_bound t0 rate). pose proof (Z.mod_pos_bound (ticks w2) rate). nia. }
  destruct (IH w4 (((log ++ [EvPoll]) ++ [EvConsume false]) ++ [EvClock (u32 (ticks w2 / rate))] ++ [EvYield])
    t0 timeout) as (r & w' & mid & Er & Hr); try lia.
  exists r, w', ([EvPoll; EvConsume false; EvClock (u32 (ticks w2 / rate)); EvYield] ++ mid).
  split; [rewrite <- !app_assoc in Er |- *; exact Er|].
  destruct r; [destruct Hr as (mid' & -> & Hm)|destruct Hr as (Hm & mid' & now & -> & Hn)].
  - exists ([EvPoll; EvConsume false; EvClock (u32 (ticks w2 / rate)); EvYield] ++ mid').
    split; [by rewrite app_assoc|]. by rewrite forallb_app, Hm.
  - split; [by rewrite forallb_app, Hm|].
    exists ([EvPoll; EvConsume false; EvClock (u32 (ticks w2 / rate)); EvYield] ++ mid'), now.
    split; [by rewrite app_assoc|exact Hn].
Qed.

Ltac run_radio := unfold finishAndRearm, completion, modify, bind, onRadio, ret;
  repeat (cbn [fst snd]; rewrite logged_run); cbn [fst snd].

(** ** The whole turnaround *)

Definition turnaroundFuel (timeoutMs : Z) : nat := Z.to_nat (rate * (timeoutMs + 1) + 1).

(** The calls of one turnaround, by result: the transmitter is finished exactly
    once when it was started and never otherwise, the receiver is restarted
    exactly once and last. *)
Definition outcome (r : TxTurnaroundResult) (timeoutMs : Z) (calls : list Event) : Prop :=
  match r with
  | StartFailed => calls = [EvStart false; EvRearm]
  | Completed => exists mid, forallb waiting mid = true /\
      calls = EvStart true :: mid ++ [EvConsume true; EvFinish; EvRearm]
  | TimedOut => exists t0 mid now, forallb waiting mid = true /\ timeoutMs <= u32 (now - t0) /\
      calls = EvStart true :: EvClock t0 :: mid ++
        [EvClock now; EvPoll; EvConsume false; EvFinish; EvRearm]
  end.

(** C39: the synchronous transmit turnaround always returns, whatever the radio
    answers, within fuel proportional to its timeout; it finishes the
    transmitter exactly once if and only if it started it, restarts the
    receiver exactly once as its last radio call, gives up only after the
    timeout has elapsed on the wrapping clock and one more look at the
    interrupt line, and leaves exactly one completion for the dispatcher when,
    and only when, the packet went out. *)
Theorem turnaround_balanced c w timeout :
  0 <= timeout -> rate * (timeout + 1) + 4 * slow < rate * (2 ^ 32 - 1) ->
  exists r c' w' calls,
    runLogged (logged cooperativeYield (fun _ => EvYield)) (turnaroundFuel timeout) timeout (c, (w, [])) =
      (Some r, (c', (w', calls))) /\
    outcome r timeout calls /\
    c' = mkCompletion (bool_decide (r = Completed)) false /\
    fst (takeForDispatcher c') = bool_decide (r = Completed) /\
    fst (takeForDispatcher (snd (takeForDispatcher c'))) = false.
Proof.
  intros Hto Hmax. unfold runSynchronousTxTurnaround.
  unfold bind at 1, completion at 1, modify at 1. cbn [fst snd reset].
  unfold bind at 1, onRadio at 1. cbn [fst snd]. rewrite logged_run. set (w1 := snd (start w)).
  destruct (fst (start w)) eqn:Es; cbn [negb app].
  2: { run_radio.
       exists StartFailed, (mkCompletion false false), (snd (rearmRx w1)), [EvStart false; EvRearm].
       by split_and!. }
  unfold bind at 1, onRadio at 1. cbn [fst snd]. rewrite logged_run. set (w2 := snd (clock w1)).
  pose proof (ck_clock HC w1) as T1. fold w2 in T1. rewrite (ck_reads HC w1).
  pose proof (ck_rate HC). pose proof (ck_slow HC).
  destruct (await_spec (turnaroundFuel timeout) w2 ([EvStart true] ++ [EvClock (u32 (ticks w1 / rate))])
    (ticks w1) timeout) as (r & w3 & mid & Er & Hr); try (unfold turnaroundFuel; nia).
  unfold bind at 1, onRadio at 1. cbn [fst snd]. rewrite Er.
  destruct r; [destruct Hr as (mid' & -> & Hm)|destruct Hr as (Hm & mid' & now & -> & Hn)].
  - run_radio.
    eexists Completed, _, _, _. split; [reflexivity|]. split; [|by split_and!].
    exists (EvClock (u32 (ticks w1 / rate)) :: mid'). split; [done|]. by cbn [app]; rewrite <- !app_assoc.
  - unfold finishAndRearm, completion, modify. unfold bind at 1, onRadio at 1. cbn [fst snd]. rewrite logged_run.
    unfold bind at 1, onRadio at 1. cbn [fst snd]. rewrite logged_run.
    set (w5 := snd (consumeTxDone _)).
    destruct (fst (consumeTxDone _)); run_radio.
    + eexists Completed, _, _, _. split; [reflexivity|]. split; [|by split_and!].
      exists (EvClock (u32 (ticks w1 / rate)) :: (mid' ++ [EvClock now; EvPoll])). split.
      * cbn [forallb waiting]. rewrite forallb_app in Hm |- *. apply andb_true_iff in Hm as [-> _]. done.
      * by cbn [app]; rewrite <- !app_assoc.
    + eexists TimedOut, _, _, _. split; [reflexivity|]. split; [|by split_and!].
      exists (u32 (ticks w1 / rate)), mid', now. split; [|split; [done|by cbn [app]; rewrite <- !app_assoc]].
      rewrite forallb_app in Hm. by apply andb_true_iff in Hm as [-> _].
Qed.

End Clocked.

(** ** A simulated radio

    A millisecond clock and the number of looks until TX_DONE. *)

Definition SimRadio : Type := Z * nat.
Definition simClock : M SimRadio Z := gets (fun w => u32 (fst w)).
Definition simConsume : M SimRadio bool := fun w => ((snd w =? 0)%nat, (fst w, pred (snd w))).
Definition simYield : M SimRadio unit := modify (fun w => (fst w + 1, snd w)).

Lemma simClocked ok :
  Clocked (ret ok) simClock (ret tt) simConsume (ret tt) (ret tt) simYield fst 1 1.
Proof. split; try lia; try (intros w; simpl; lia). intros w. by rewrite Z.div_1_r. Qed.

Lemma turnaround_balanced_witness :
  exists r c' w' calls,
    runSynchronousTxTurnaround (logged (ret true) EvStart) (logged simClock EvClock)
      (logged (ret tt) (fun _ => EvPoll)) (logged simConsume EvConsume)
      (logged (ret tt) (fun _ => EvFinish)) (logged (ret tt) (fun _ => EvRearm))
      (logged simYield (fun _ => EvYield)) (turnaroundFuel 1 5) 5
      (mkCompletion true true, ((4294967294, 100%nat), [])) = (Some r, (c', (w', calls))) /\
    r = TimedOut /\ outcome r 5 calls /\ c' = mkCompletion false false.
Proof.
  destruct (turnaround_balanced _ _ _ _ _ _ _ _ 1 1 (simClocked true) (mkCompletion true true)
    (4294967294, 100%nat) 5 ltac:(lia) ltac:(lia)) as (r & c' & w' & calls & Er & Ho & Hc & _).
  assert (Et : r = TimedOut).
  { apply (f_equal fst) in Er. revert Er. vm_compute. congruence. }
  exists r, c', w', calls. split; [exact Er|]. split; [exact Et|]. split; [exact Ho|].
  rewrite Hc, Et. reflexivity.
Defined.

Lemma wp_onRadio {W A} (m : M W A) (R : A -> Completion * W -> Prop) c w :
  wp m (fun a w' => R a (c, w')) w -> wp (onRadio m) R (c, w).
Proof. unfold wp, onRadio. cbn [fst snd]. by destruct (m w). Qed.

(** ** Invariants through a turnaround

    What starting the radio establishes and the other calls keep holds at the
    end, however the turnaround ends. *)
Section Through.
Context {W : Type} (start : M W bool) (clock : M W Z) (pollIrq : M W unit)
  (consumeTxDone : M W bool) (finishTx rearmRx cooperativeYield : M W unit) (P Q : W -> Prop).

Definition carries {A} (m : M W A) : Prop := forall w, Q w -> wp m (fun _ w' => Q w') w.

Context (Hstart : forall w, P w -> wp start (fun _ w' => Q w') w) (Hclock : carries clock)
  (Hpoll : carries pollIrq) (Hconsume : carries consumeTxDone) (Hfinish : carries finishTx)
  (Hrearm : carries rearmRx) (Hyield : carries cooperativeYield).

Lemma carry {A} (m : M W A) (R : A -> W -> Prop) w :
  carries m -> Q w -> (forall a w', Q w' -> R a w') -> wp m R w.
Proof. intros Hm Hw HR. eapply wp_mono; [by apply Hm|]. intros a w' Hw'. by apply HR. Qed.

Lemma carry_lifted {A} (m : M W A) (R : A -> Completion * W -> Prop) c w :
  carries m -> Q w -> (forall a w', Q w' -> R a (c, w')) -> wp (onRadio m) R (c, w).
Proof. intros Hm Hw HR. apply wp_onRadio. by apply carry. Qed.

Lemma await_carries fuel t0 timeout : carries (awaitTxDone clock pollIrq consumeTxDone cooperativeYield fuel t0 timeout).
Proof using Hclock Hpoll Hconsume Hyield.
  induction fuel as [|fuel IH]; intros w Hw; cbn [awaitTxDone]; [by apply wp_ret|].
  wp_step. apply carry; [done..|]. intros _ w1 H1. wp_step. apply carry; [done..|]. intros c w2 H2.
  wp_step; [by apply wp_ret|]. wp_step. apply carry; [done..|]. intros n w3 H3.
  wp_step; [by apply wp_ret|]. wp_step. apply carry; [done..|]. intros _ w4 H4. by apply IH.
Qed.

Lemma finishAndRearm_carries (R : unit -> Completion * W -> Prop) c w : Q w -> (forall w', Q w' -> R tt (c, w')) ->
  wp (finishAndRearm finishTx rearmRx) R (c, w).
Proof using Hfinish Hrearm.
  intros Hw HR. unfold finishAndRearm. wp_step. apply carry_lifted; [done..|]. intros _ w1 H1.
  apply carry_lifted; [done..|]. intros [] w2 H2. by apply HR.
Qed.

Lemma turnaround_carries fuel timeout c w : P w ->
  wp (runSynchronousTxTurnaround start clock pollIrq consumeTxDone finishTx rearmRx
        cooperativeYield fuel timeout) (fun _ s => Q (snd s)) (c, w).
Proof using Hstart Hclock Hpoll Hconsume Hfinish Hrearm Hyield.
  intros Hw. unfold runSynchronousTxTurnaround. wp_step. apply wp_modify. cbn [fst snd].
  wp_step. apply wp_onRadio. eapply wp_mono; [by apply Hstart|]. intros ok w1 H1.
  wp_step; wp_step.
  - apply carry_lifted; [done..|]. intros _ w2 H2. by apply wp_ret.
  - apply carry_lifted; [done..|]. intros t0 w2 H2. wp_step.
    apply carry_lifted; [apply await_carries|done|]. intros r w3 H3.
    wp_step; [|by apply wp_ret]. wp_step; wp_step.
    + apply finishAndRearm_carries; [done|]. intros w4 H4. wp_step. apply wp_modify. by apply wp_ret.
    + apply carry_lifted; [done..|]. intros _ w4 H4. wp_step. apply carry_lifted; [done..|]. intros d w5 H5.
      wp_step; wp_step; (apply finishAndRearm_carries; [done|]); intros w6 H6; wp_step; apply wp_modify; by apply wp_ret.
Qed.

End Through.
