(* ===== verification/RadioGate.v ===== *)
(** * The transmit interlock (src/src/kitsu_mesh_transport.cpp, class
      GatedCustomSX1262Wrapper)

    The last gate before the SX1262: the session gate, the one-shot permits, the
    reply rate limiter, the synchronous transmit, the receiver restart and the
    polled interrupt line.  The state is the completion pair of the turnaround
    and the record [Driver]; the named diagnostic members ([uint32_t] counters,
    last results and their flags, a flag being 0 or 1) are the map [notes_],
    which no decision reads except the pending-timing, interrupt-sampling and
    observation-window members.  The wrapped MeshCore driver and the Arduino
    calls are the class [RadioHw]; getters and the diagnostic snapshot are left
    out. *)

From stdpp Require Import gmap.
From S2P Require Import Prelude MeshConfig RadioPolicy.

Open Scope Z_scope.
Open Scope kitsu_scope.

Definition MAX_TRANS_UNIT : Z := 255.
Definition kOneShotPermitLifetimeMs : Z := 5000.
Definition kBoundOneShotPermitLifetimeMs : Z := 120000.
Definition kOneShotPacketDigestBytes : nat := 32.
Definition kProtocolReplyBurst : Z := 8.
Definition kProtocolReplyRefillMs : Z := 10000.
Definition kStuckDioIrqSampleIntervalMs : Z := 100.
Definition kLowRateIrqSampleIntervalMs : Z := 100.
Definition kIrqObservationWindowMs : Z := 120000.

(** [oneShotArmed_] and the members [revokeOneShot] clears with it. *)
Record Permit := mkPermit {
  oneShotArmed_ : bool;
  oneShotArmedAt_ : Z;
  oneShotPermitLifetimeMs_ : Z;
  oneShotPacketBound_ : bool;
  oneShotPacketDigest_ : list Z;
}.

Definition noPermit : Permit := mkPermit false 0 0 false (replicate kOneShotPacketDigestBytes 0).

Record ReplyLimiter := mkLimiter {
  protocolReplyRateStarted_ : bool;
  protocolReplyTokens_ : Z;
  protocolReplyRefilledAt_ : Z;
}.

Definition limiter0 : ReplyLimiter := mkLimiter false kProtocolReplyBurst 0.

Class RadioHw (W : Type) := {
  millis : M W Z;
  micros : M W Z;
  dio1High : M W bool;
  yield : M W unit;
  observeIrqFlags : bool -> bool -> M W unit;
  baseLoop : M W unit;
  baseStartSendRaw : option (list Z) -> Z -> M W bool;
  baseIsSendComplete : M W bool;
  baseOnSendFinished : M W unit;
  baseRecvRaw : Z -> M W (Z * option (list Z));
  startRecvWithStatus : M W Z;
  isInRecvMode : M W bool;
  readSx126xStatus : M W (option Z);
  getEstAirtimeFor : Z -> M W Z;
  packetSha256 : list Z -> list Z;
}.

Record Driver (W : Type) := mkDriver {
  permit_ : Permit;
  limiter_ : ReplyLimiter;
  notes_ : gmap string Z;
  gate_ : TxGate;
  settings_ : Settings;
  irqPoll_ : LatchedRadioIrqPoll W;
  world_ : W;
}.
Arguments mkDriver {W}. Arguments permit_ {W}. Arguments limiter_ {W}. Arguments notes_ {W}.
Arguments gate_ {W}. Arguments settings_ {W}. Arguments irqPoll_ {W}. Arguments world_ {W}.

Section Gate.
Context {W : Type} `{RadioHw W}.

Definition set_permit (p : Permit) (d : Driver W) : Driver W :=
  mkDriver p (limiter_ d) (notes_ d) (gate_ d) (settings_ d) (irqPoll_ d) (world_ d).
Definition set_limiter (l : ReplyLimiter) (d : Driver W) : Driver W :=
  mkDriver (permit_ d) l (notes_ d) (gate_ d) (settings_ d) (irqPoll_ d) (world_ d).
Definition set_notes (n : gmap string Z) (d : Driver W) : Driver W :=
  mkDriver (permit_ d) (limiter_ d) n (gate_ d) (settings_ d) (irqPoll_ d) (world_ d).
Definition set_irq (p : LatchedRadioIrqPoll W) (w : W) (d : Driver W) : Driver W :=
  mkDriver (permit_ d) (limiter_ d) (notes_ d) (gate_ d) (settings_ d) p w.
Definition set_world (w : W) (d : Driver W) : Driver W :=
  mkDriver (permit_ d) (limiter_ d) (notes_ d) (gate_ d) (settings_ d) (irqPoll_ d) w.

Definition hw {A} (m : M W A) : M (Driver W) A :=
  fun d => let '(a, w) := m (world_ d) in (a, set_world w d).

Definition note (name : string) (v : Z) : M (Driver W) unit :=
  modify (fun d => set_notes (<[name := v]> (notes_ d)) d).
Definition noted (name : string) (d : Driver W) : Z := default 0 (notes_ d !! name).
Definition count (name : string) : M (Driver W) unit :=
  v <- gets (noted name) ;; note name (incrementSaturating v).
Definition flag (b : bool) : Z := if b then 1 else 0.

(** [noteAll] assigns zero to the members, in order. *)
Fixpoint noteAll (names : list string) : M (Driver W) unit :=
  match names with
  | [] => ret tt
  | name :: names => note name 0 ;;; noteAll names
  end.

(** ** Permits *)

Definition revokeOneShot : M (Driver W) unit := modify (set_permit noPermit).

Definition armOneShot (requested : Settings) (explicitUserApproval : bool) : M (Driver W) bool :=
  revokeOneShot ;;;
  s <- gets settings_ ;;
  if negb explicitUserApproval || negb (txPolicy requested =? ExplicitSession) ||
     negb (enabled requested) || negb (isOk (validateSettings requested)) || negb (enabled s) ||
     negb (txPolicy s =? ExplicitSession) || negb (sameRadioProfile (radio requested) (radio s))
  then ret false
  else
    now <- hw millis ;;
    modify (set_permit (mkPermit true now kOneShotPermitLifetimeMs false
                          (replicate kOneShotPacketDigestBytes 0))) ;;;
    ret true.

Definition armOneShotForPacket (requested : Settings) (explicitUserApproval : bool)
    (bytes : option (list Z)) (byteCount : Z) : M (Driver W) bool :=
  match bytes with
  | None => revokeOneShot ;;; ret false
  | Some l =>
      if (byteCount =? 0) || (MAX_TRANS_UNIT <? byteCount) then revokeOneShot ;;; ret false
      else
        armed <- armOneShot requested explicitUserApproval ;;
        if negb armed then revokeOneShot ;;; ret false
        else
          modify (fun d => set_permit (mkPermit (oneShotArmed_ (permit_ d)) (oneShotArmedAt_ (permit_ d))
            kBoundOneShotPermitLifetimeMs true (packetSha256 (take (Z.to_nat byteCount) l))) d) ;;;
          ret true
  end.

Definition refill (now : Z) (l : ReplyLimiter) : ReplyLimiter :=
  if negb (protocolReplyRateStarted_ l) then mkLimiter true (protocolReplyTokens_ l) now
  else
    let elapsed := u32 (now - protocolReplyRefilledAt_ l) in
    let refill := elapsed / kProtocolReplyRefillMs in
    if negb (refill =? 0) then
      let replenished := u32 (protocolReplyTokens_ l + refill) in
      mkLimiter true
        (u8 (if replenished <? kProtocolReplyBurst then replenished else kProtocolReplyBurst))
        (u32 (now - elapsed mod kProtocolReplyRefillMs))
    else l.

Definition takeProtocolReplyToken : M (Driver W) bool :=
  now <- hw millis ;;
  modify (fun d => set_limiter (refill now (limiter_ d)) d) ;;;
  l <- gets limiter_ ;;
  if protocolReplyTokens_ l =? 0 then ret false
  else
    modify (set_limiter (mkLimiter (protocolReplyRateStarted_ l) (u8 (protocolReplyTokens_ l - 1))
                           (protocolReplyRefilledAt_ l))) ;;;
    ret true.

Definition sessionAllows (d : Driver W) : bool := allowsTransmit (settings_ d) (gate_ d).

Definition armAuthenticatedReply (requested : Settings) : M (Driver W) bool :=
  d <- gets id ;;
  let sessionAllowed := sessionAllows d in
  if negb (enabled requested) || negb (txPolicy requested =? ExplicitSession) ||
     negb (isOk (validateSettings requested)) || negb (enabled (settings_ d)) ||
     negb (txPolicy (settings_ d) =? ExplicitSession) ||
     negb (sameRadioProfile (radio requested) (radio (settings_ d))) ||
     (negb sessionAllowed && oneShotArmed_ (permit_ d))
  then ret false
  else
    token <- takeProtocolReplyToken ;;
    if negb token then ret false
    else if negb sessionAllowed then
      now <- hw millis ;;
      modify (fun d => set_permit (mkPermit true now kOneShotPermitLifetimeMs
        (oneShotPacketBound_ (permit_ d)) (oneShotPacketDigest_ (permit_ d))) d) ;;;
      ret true
    else ret true.

(** ** The interrupt line *)

Definition pollKitsuRadioDio1 : M (Driver W) bool :=
  asserted <- hw dio1High ;;
  d <- gets id ;;
  let '(_, p, w) := poll asserted (irqPoll_ d) (world_ d) in
  modify (set_irq p w) ;;; ret asserted.

Definition pollRadioDio1WithDiagnostics : M (Driver W) bool :=
  asserted <- pollKitsuRadioDio1 ;;
  now <- hw millis ;;
  if negb asserted then note "dioIrqWasHigh_" 0 ;;; ret false
  else
    d <- gets id ;;
    note "dioIrqWasHigh_" 1 ;;;
    let newAssertion := noted "dioIrqWasHigh_" d =? 0 in
    let stuckSampleDue := negb (noted "dioIrqSampleAtAvailable_" d =? 0) &&
      (kStuckDioIrqSampleIntervalMs <=? u32 (now - noted "lastDioIrqSampleAtMs_" d)) in
    when (newAssertion || stuckSampleDue)
      (hw (observeIrqFlags true false) ;;;
       note "lastDioIrqSampleAtMs_" now ;;;
       note "dioIrqSampleAtAvailable_" 1) ;;;
    ret true.

Definition irqObservationWindowOpen (now : Z) (d : Driver W) : bool :=
  negb (noted "irqObservationInitialized_" d =? 0) && (0 <? s32 (noted "irqObservationUntilMs_" d - now)).

Definition openIrqObservationWindow (now : Z) : M (Driver W) unit :=
  note "irqObservationInitialized_" 1 ;;;
  note "irqObservationUntilMs_" (u32 (now + kIrqObservationWindowMs)) ;;;
  note "lowRateIrqSampleAtAvailable_" 0 ;;;
  note "lastLowRateIrqSampleAtMs_" 0.

Definition serviceLowRateIrqObservation (dioAsserted : bool) : M (Driver W) unit :=
  now <- hw millis ;;
  d <- gets id ;;
  when (noted "irqObservationInitialized_" d =? 0) (openIrqObservationWindow now) ;;;
  d <- gets id ;;
  if dioAsserted || negb (irqObservationWindowOpen now d) then ret tt
  else
    receiving <- hw isInRecvMode ;;
    if negb receiving then ret tt
    else if negb (noted "lowRateIrqSampleAtAvailable_" d =? 0) &&
            (u32 (now - noted "lastLowRateIrqSampleAtMs_" d) <? kLowRateIrqSampleIntervalMs) then ret tt
    else
      hw (observeIrqFlags false true) ;;;
      note "lastLowRateIrqSampleAtMs_" now ;;;
      note "lowRateIrqSampleAtAvailable_" 1.

Definition loop : M (Driver W) unit :=
  dioAsserted <- pollRadioDio1WithDiagnostics ;;
  serviceLowRateIrqObservation dioAsserted ;;;
  hw baseLoop.

(** ** Receiver restart *)

Definition recordStartReceiveInvocation : M (Driver W) unit :=
  d <- gets id ;;
  if noted "txDoneRearmTimingPending_" d =? 0 then ret tt
  else
    now <- hw micros ;;
    note "lastTxDoneToStartReceiveMicros_" (u32 (now - noted "txDoneConsumedAtMicros_" d)) ;;;
    note "lastTxDoneToStartReceiveMicrosAvailable_" 1 ;;;
    note "txDoneRearmTimingPending_" 0.

Definition evidenceStatus : M (Driver W) (bool * Z) :=
  status <- hw readSx126xStatus ;;
  ret (match status with Some v => (true, v) | None => (false, 0) end).

Definition startAndProbeReceive : M (Driver W) RxRearmEvidence :=
  recordStartReceiveInvocation ;;;
  count "rxRearmAttempts_" ;;;
  attempts <- gets (noted "lastRxStartAttempts_") ;;
  when (negb (attempts =? 255)) (note "lastRxStartAttempts_" (u8 (attempts + 1))) ;;;
  code <- hw startRecvWithStatus ;;
  receiving <- hw isInRecvMode ;;
  status <- evidenceStatus ;;
  ret (mkEvidence true code receiving (fst status) (snd status)).

Definition resumeReceiveNow : M (Driver W) bool :=
  noteAll ["lastRxStartAttempts_"; "lastRxStartCodeAvailable_"; "lastRxStartCode_"] ;;;
  receiving0 <- hw isInRecvMode ;;
  note "lastRxStartSoftwareState_" (flag receiving0) ;;;
  noteAll ["lastRxChipStatusAvailable_"; "lastRxChipStatus_";
           "lastTxDoneToRxConfirmedMicrosAvailable_"; "lastTxDoneToRxConfirmedMicros_"] ;;;
  receiving <- hw isInRecvMode ;;
  evidence <- (if negb receiving then startAndProbeReceive
               else status <- evidenceStatus ;;
                    ret (mkEvidence false 0 true (fst status) (snd status))) ;;
  high <- hw dio1High ;;
  evidence <- (if shouldRetryRxRearm evidence (negb high)
               then count "rxRearmRetries_" ;;; startAndProbeReceive
               else ret evidence) ;;
  note "lastRxStartCodeAvailable_" (flag (startAttempted evidence)) ;;;
  note "lastRxStartCode_" (startCode evidence) ;;;
  note "lastRxStartSoftwareState_" (flag (softwareRx evidence)) ;;;
  note "lastRxChipStatusAvailable_" (flag (chipStatusAvailable evidence)) ;;;
  note "lastRxChipStatus_" (if chipStatusAvailable evidence then chipStatus evidence else 0) ;;;
  let confirmed := rxRearmPhysicallyConfirmed evidence in
  d <- gets id ;;
  when (confirmed && negb (noted "txDoneReadyTimingPending_" d =? 0))
    (now <- hw micros ;;
     note "lastTxDoneToRxConfirmedMicros_" (u32 (now - noted "txDoneConsumedAtMicros_" d)) ;;;
     note "lastTxDoneToRxConfirmedMicrosAvailable_" 1) ;;;
  note "txDoneReadyTimingPending_" 0 ;;;
  when (negb confirmed) (count "rxRearmFailures_") ;;;
  ret confirmed.

Definition currentReceiveSnapshot : M (Driver W) (bool * bool * Z) :=
  receiving <- hw isInRecvMode ;;
  status <- evidenceStatus ;;
  ret (receiving, fst status, snd status).

(** ** Transmit *)

Definition consumeTxDone : M (Driver W) bool :=
  completed <- hw baseIsSendComplete ;;
  when completed
    (now <- hw micros ;;
     note "txDoneConsumedAtMicros_" now ;;;
     note "txDoneRearmTimingPending_" 1 ;;;
     note "txDoneReadyTimingPending_" 1) ;;;
  ret completed.

Definition rearmAfterTx : M (Driver W) unit :=
  confirmed <- resumeReceiveNow ;;
  note "turnaroundRearmPhysicalRxConfirmed_" (flag confirmed) ;;;
  d <- gets id ;;
  note "turnaroundRearmChipStatusAvailable_" (noted "lastRxChipStatusAvailable_" d) ;;;
  note "turnaroundRearmChipStatus_" (noted "lastRxChipStatus_" d).

(** [to] = [from] for the members copied after a completed transmission. *)
Fixpoint copyNotes (pairs : list (string * string)) : M (Driver W) unit :=
  match pairs with
  | [] => ret tt
  | (to, from) :: pairs => v <- gets (noted from) ;; note to v ;;; copyNotes pairs
  end.

Definition completedCopies : list (string * string) :=
  [("lastCompletedTxPhysicalRxConfirmed_", "turnaroundRearmPhysicalRxConfirmed_");
   ("lastCompletedTxRxStartAttempts_", "lastRxStartAttempts_");
   ("lastCompletedTxRxStartCodeAvailable_", "lastRxStartCodeAvailable_");
   ("lastCompletedTxRxStartCode_", "lastRxStartCode_");
   ("lastCompletedTxRxStartSoftwareState_", "lastRxStartSoftwareState_");
   ("lastCompletedTxRxChipStatusAvailable_", "turnaroundRearmChipStatusAvailable_");
   ("lastCompletedTxRxChipStatus_", "turnaroundRearmChipStatus_");
   ("lastCompletedTxDoneToStartReceiveMicrosAvailable_", "lastTxDoneToStartReceiveMicrosAvailable_");
   ("lastCompletedTxDoneToStartReceiveMicros_", "lastTxDoneToStartReceiveMicros_");
   ("lastCompletedTxDoneToRxConfirmedMicrosAvailable_", "lastTxDoneToRxConfirmedMicrosAvailable_");
   ("lastCompletedTxDoneToRxConfirmedMicros_", "lastTxDoneToRxConfirmedMicros_")].

Definition noteTurnaround (result : TxTurnaroundResult) : M (Driver W) bool :=
  match result with
  | Completed =>
      count "syncTurnaroundCompleted_" ;;;
      now <- hw millis ;;
      openIrqObservationWindow now ;;;
      copyNotes completedCopies ;;;
      d <- gets id ;;
      when (negb (noted "lastCompletedTxPhysicalRxConfirmed_" d =? 0)) (count "physicalRxConfirmedAfterTx_") ;;;
      ret true
  | StartFailed => count "syncTurnaroundStartFailures_" ;;; ret false
  | TimedOut => count "syncTurnaroundTimeouts_" ;;; ret false
  end.

(** Whether the armed permit covers this packet now. *)
Definition oneShotCovers (bytes : option (list Z)) (length : Z) : M (Driver W) bool :=
  p <- gets permit_ ;;
  if negb (oneShotArmed_ p) then ret false
  else
    now <- hw millis ;;
    if negb (u32 (now - oneShotArmedAt_ p) <=? oneShotPermitLifetimeMs_ p) then ret false
    else if negb (oneShotPacketBound_ p) then ret true
    else ret (match bytes with
              | None => false
              | Some l =>
                  if (length <=? 0) || (MAX_TRANS_UNIT <? length) then false
                  else beq (packetSha256 (take (Z.to_nat length) l)) (oneShotPacketDigest_ p)
              end).

Definition revokeIfArmed : M (Driver W) unit :=
  p <- gets permit_ ;; when (oneShotArmed_ p) revokeOneShot.

Definition clearTxNotes : M (Driver W) unit :=
  noteAll ["txDoneRearmTimingPending_"; "txDoneReadyTimingPending_";
           "lastTxDoneToStartReceiveMicrosAvailable_"; "lastTxDoneToStartReceiveMicros_";
           "lastTxDoneToRxConfirmedMicrosAvailable_"; "lastTxDoneToRxConfirmedMicros_";
           "turnaroundRearmPhysicalRxConfirmed_"; "turnaroundRearmChipStatusAvailable_";
           "turnaroundRearmChipStatus_"].

(** The guard of [startSendRaw]: whether the radio may be touched. *)
Definition authorize (bytes : option (list Z)) (length : Z) : M (Driver W) bool :=
  clearTxNotes ;;;
  d <- gets id ;;
  oneShotAllowed <- oneShotCovers bytes length ;;
  revokeIfArmed ;;;
  ret (sessionAllows d || oneShotAllowed).

Definition startSendRaw (fuel : nat) (bytes : option (list Z)) (length : Z)
  : M (Completion * Driver W) (option bool) :=
  completion reset ;;;
  allowed <- onRadio (authorize bytes length) ;;
  if negb allowed then ret (Some false)
  else
    estimated <- onRadio (hw (getEstAirtimeFor length)) ;;
    let timeoutMs := txTurnaroundTimeoutMs estimated in
    result <- runSynchronousTxTurnaround (hw (baseStartSendRaw bytes length)) (hw millis)
      (_ <- pollRadioDio1WithDiagnostics ;; ret tt) consumeTxDone (hw baseOnSendFinished)
      rearmAfterTx (hw yield) fuel (if timeoutMs =? 0 then 1 else timeoutMs) ;;
    match result with
    | None => ret None
    | Some r => sent <- onRadio (noteTurnaround r) ;; ret (Some sent)
    end.

Definition sendDirectOneShotRaw (fuel : nat) (bytes : option (list Z)) (length : Z)
  : M (Completion * Driver W) (option bool) :=
  sent <- startSendRaw fuel bytes length ;;
  completion reset ;;;
  ret sent.

Definition isSendComplete : M (Completion * Driver W) bool :=
  fun s => let '(r, c) := takeForDispatcher (fst s) in (r, (c, snd s)).

Definition onSendFinished : M (Completion * Driver W) unit :=
  fun s => let '(_, c) := consumeReportedFinish (fst s) in (tt, (c, snd s)).

(** ** Receive *)

Definition recordShortFrameRejected (length : Z) : M (Driver W) unit :=
  count "shortFrameRejected_" ;;;
  note "lastShortFrameLengthAvailable_" 1 ;;;
  note "lastShortFrameLength_" (if length <=? 0 then 0 else if 255 <? length then 255 else u8 length).

Definition recvRaw (capacity : Z) : M (Driver W) (Z * option (list Z)) :=
  received <- hw (baseRecvRaw capacity) ;;
  let '(length, bytes) := received in
  if length <=? 0 then ret (length, bytes)
  else
    match bytes with
    | None => recordShortFrameRejected length ;;; ret (0, bytes)
    | Some l =>
        if length <? 2 then recordShortFrameRejected length ;;; ret (0, bytes)
        else
          let route := Z.land (byte_at l 0) 0x03 in
          if ((route =? 0x00) || (route =? 0x03)) && (length <? 6) then
            recordShortFrameRejected length ;;; ret (0, bytes)
          else ret (length, bytes)
    end.

End Gate.
