(* ===== verification/RadioGateFacts.v ===== *)
(** * The transmit interlock: every start of the radio is authorized

    Starts of the wrapped driver are logged; everything else the class does is
    shown to leave the permits, the limiter, the gate and the log alone.  Over
    runs, what is sent while the session gate is closed is bounded by the
    owner's approvals and the reply rate. *)

From stdpp Require Import gmap.
From S2P Require Import Prelude MeshConfig RadioPolicy RadioPolicyFacts RadioGate.

Open Scope Z_scope.
Open Scope kitsu_scope.

(** ** The logging radio *)

Abbreviation Log := (list (option (list Z) * Z)).

Definition unlogged {W A} (m : M W A) : M (W * Log) A :=
  fun s => let '(a, w) := m (fst s) in (a, (w, snd s)).

#[export] Instance LoggedHw {W} `{RadioHw W} : RadioHw (W * Log) := {|
  millis := unlogged millis;
  micros := unlogged micros;
  dio1High := unlogged dio1High;
  yield := unlogged yield;
  observeIrqFlags a b := unlogged (observeIrqFlags a b);
  baseLoop := unlogged baseLoop;
  baseStartSendRaw bytes length := fun s =>
    let '(a, w) := baseStartSendRaw bytes length (fst s) in (a, (w, snd s ++ [(bytes, length)]));
  baseIsSendComplete := unlogged baseIsSendComplete;
  baseOnSendFinished := unlogged baseOnSendFinished;
  baseRecvRaw n := unlogged (baseRecvRaw n);
  startRecvWithStatus := unlogged startRecvWithStatus;
  isInRecvMode := unlogged isInRecvMode;
  readSx126xStatus := unlogged readSx126xStatus;
  getEstAirtimeFor n := unlogged (getEstAirtimeFor n);
  packetSha256 := packetSha256;
|}.

(** Time passes during calls and never runs back; [millis] is its low word. *)
Class TimedHw (W : Type) `{RadioHw W} := {
  clockMs : W -> Z;
  advances {A} (m : M W A) : Prop := forall w, clockMs w <= clockMs (snd (m w));
  th_millis : advances millis;
  th_reads : forall w, fst (millis w) = u32 (clockMs (snd (millis w)));
  th_micros : advances micros;
  th_dio : advances dio1High;
  th_yield : advances yield;
  th_observe : forall a b, advances (observeIrqFlags a b);
  th_loop : advances baseLoop;
  th_start : forall l n, advances (baseStartSendRaw l n);
  th_complete : advances baseIsSendComplete;
  th_finished : advances baseOnSendFinished;
  th_recv : forall n, advances (baseRecvRaw n);
  th_startRecv : advances startRecvWithStatus;
  th_mode : advances isInRecvMode;
  th_status : advances readSx126xStatus;
  th_airtime : forall n, advances (getEstAirtimeFor n);
}.
#[export] Hint Resolve th_millis th_micros th_dio th_yield th_observe th_loop th_start th_complete
  th_finished th_recv th_startRecv th_mode th_status th_airtime : core.

Section Facts.
Context {W : Type} `{TimedHw W}.

Abbreviation D := (Driver (W * Log)).
Implicit Types d : D.

Definition log d : Log := snd (world_ d).
Definition time d : Z := clockMs (fst (world_ d)).

(** The registered interrupt callback only sets the driver's flag. *)
Definition quietCallback (cb : option (M (W * Log) unit)) : Prop :=
  match cb with
  | Some cb => forall w, snd (snd (cb w)) = snd w /\ clockMs (fst w) <= clockMs (fst (snd (cb w)))
  | None => True
  end.

Definition keeps d d' : Prop :=
  permit_ d' = permit_ d /\ limiter_ d' = limiter_ d /\ gate_ d' = gate_ d /\ settings_ d' = settings_ d /\
  callback_ (irqPoll_ d') = callback_ (irqPoll_ d) /\ log d' = log d /\ time d <= time d'.

Lemma keeps_refl d : keeps d d.
Proof. by split_and!. Qed.
Lemma keeps_trans d1 d2 d3 : keeps d1 d2 -> keeps d2 d3 -> keeps d1 d3.
Proof. unfold keeps. intros (? & ? & ? & ? & ? & ? & ?) (? & ? & ? & ? & ? & ? & ?). split_and!; congruence || lia. Qed.

Definition quiet {A} (m : M D A) : Prop :=
  forall d, quietCallback (callback_ (irqPoll_ d)) -> wp m (fun _ d' => keeps d d') d.

Lemma quiet_ret {A} (a : A) : quiet (ret a).
Proof. intros d _. apply wp_ret, keeps_refl. Qed.
Lemma quiet_bind {A B} (m : M D A) (k : A -> M D B) : quiet m -> (forall a, quiet (k a)) -> quiet (bind m k).
Proof.
  intros Hm Hk d Hd. apply wp_bind. eapply wp_mono; [by apply Hm|]. intros a d1 H1.
  eapply wp_mono; [apply Hk; destruct H1 as (_ & _ & _ & _ & -> & _); exact Hd|].
  intros b d2. by apply keeps_trans.
Qed.
Lemma quiet_gets {A} (f : D -> A) : quiet (gets f).
Proof. intros d _. apply wp_gets, keeps_refl. Qed.
Lemma quiet_when c (m : M D unit) : quiet m -> quiet (when c m).
Proof. intros Hm. unfold when. destruct c; [done|apply quiet_ret]. Qed.
Lemma quiet_if {A} (c : bool) (m1 m2 : M D A) : quiet m1 -> quiet m2 -> quiet (if c then m1 else m2).
Proof. by destruct c. Qed.
Lemma quiet_hw {A} (m : M W A) : advances m -> quiet (hw (unlogged m)).
Proof.
  intros Hm d _. unfold wp, hw, unlogged. specialize (Hm (fst (world_ d))).
  destruct (m (fst (world_ d))) as [a w] eqn:E. cbn [fst snd] in *. split_and!; try done.
Qed.
Lemma quiet_note name v : quiet (note name v).
Proof. intros d _. apply wp_modify. by split_and!. Qed.

Create HintDb quiet discriminated.
Hint Resolve quiet_ret quiet_gets quiet_when quiet_if quiet_note : quiet.
Hint Extern 1 (quiet (hw _)) => (apply quiet_hw; solve [auto]) : quiet.
Hint Extern 2 (quiet (bind _ _)) => (apply quiet_bind; [|intros ?]) : quiet.
Hint Extern 3 (quiet (let '_ := ?x in _)) => destruct x : quiet.
Hint Extern 3 (quiet (match ?x with _ => _ end)) => destruct x : quiet.

Ltac quiet := auto 60 with quiet.

Lemma quiet_count name : quiet (count name).
Proof. unfold count. quiet. Qed.
Hint Resolve quiet_count : quiet.
Lemma quiet_noteAll names : quiet (noteAll names).
Proof. induction names; cbn [noteAll]; quiet. Qed.
Lemma quiet_copyNotes pairs : quiet (copyNotes pairs).
Proof. induction pairs as [|[to from] pairs IH]; cbn [copyNotes]; quiet. Qed.
Hint Resolve quiet_noteAll quiet_copyNotes : quiet.

Lemma quiet_poll : quiet pollKitsuRadioDio1.
Proof.
  unfold pollKitsuRadioDio1. apply quiet_bind; [quiet|]. intros asserted d Hd.
  apply wp_bind, wp_gets. cbv [id]. unfold poll. destruct (callback_ (irqPoll_ d)) as [cb|] eqn:Ecb.
  - destruct asserted.
    + cbn [quietCallback] in Hd. specialize (Hd (world_ d)). destruct (cb (world_ d)) as [[] w'] eqn:Ew.
      cbn [fst snd] in Hd. destruct Hd as [Hl Ht]. apply wp_bind, wp_modify, wp_ret.
      split_and!; try done; by rewrite Ecb.
    + apply wp_bind, wp_modify, wp_ret. split_and!; try done; by rewrite Ecb.
  - apply wp_bind, wp_modify, wp_ret. split_and!; try done; by rewrite Ecb.
Qed.
Hint Resolve quiet_poll : quiet.

Lemma quiet_pollDiagnostics : quiet pollRadioDio1WithDiagnostics.
Proof. unfold pollRadioDio1WithDiagnostics. quiet. Qed.
Lemma quiet_openWindow now : quiet (openIrqObservationWindow now).
Proof. unfold openIrqObservationWindow. quiet. Qed.
Hint Resolve quiet_pollDiagnostics quiet_openWindow : quiet.
Lemma quiet_lowRate asserted : quiet (serviceLowRateIrqObservation asserted).
Proof. unfold serviceLowRateIrqObservation. quiet. Qed.
Hint Resolve quiet_lowRate : quiet.
Lemma quiet_loop : quiet loop.
Proof. unfold loop. quiet. Qed.
Lemma quiet_status : quiet evidenceStatus.
Proof. unfold evidenceStatus. quiet. Qed.
Lemma quiet_recordStart : quiet recordStartReceiveInvocation.
Proof. unfold recordStartReceiveInvocation. quiet. Qed.
Hint Resolve quiet_status quiet_recordStart : quiet.
Lemma quiet_probe : quiet startAndProbeReceive.
Proof. unfold startAndProbeReceive. quiet. Qed.
Hint Resolve quiet_probe : quiet.
Lemma quiet_resume : quiet resumeReceiveNow.
Proof. unfold resumeReceiveNow. quiet. Qed.
Hint Resolve quiet_resume : quiet.
Lemma quiet_rearm : quiet rearmAfterTx.
Proof. unfold rearmAfterTx. quiet. Qed.
Lemma quiet_consume : quiet consumeTxDone.
Proof. unfold consumeTxDone. quiet. Qed.
Lemma quiet_noteTurnaround r : quiet (noteTurnaround r).
Proof. unfold noteTurnaround. quiet. Qed.
Lemma quiet_clearTx : quiet clearTxNotes.
Proof. unfold clearTxNotes. quiet. Qed.
Lemma quiet_covers bytes n : quiet (oneShotCovers bytes n).
Proof. unfold oneShotCovers. quiet. Qed.
Lemma quiet_recv n : quiet (recvRaw n).
Proof. unfold recvRaw, recordShortFrameRejected. quiet. Qed.

(** ** Sending *)

(** Why the radio may be started with this packet in state [d]; [before] and
    [after] bound the instant of the decision. *)
Definition permitCovers d (bytes : option (list Z)) (n before after : Z) : Prop :=
  let p := permit_ d in
  oneShotArmed_ p = true /\
  (exists t, before <= t <= after /\ u32 (u32 t - oneShotArmedAt_ p) <= oneShotPermitLifetimeMs_ p) /\
  (oneShotPacketBound_ p = true -> exists l, bytes = Some l /\ 0 < n <= MAX_TRANS_UNIT /\
     packetSha256 (take (Z.to_nat n) l) = oneShotPacketDigest_ p).

Lemma quiet_wp {A} (m : M D A) d (R : A -> D -> Prop) : quiet m -> quietCallback (callback_ (irqPoll_ d)) ->
  (forall a d', keeps d d' -> R a d') -> wp m R d.
Proof. intros Hm Hd HR. eapply wp_mono; [by apply Hm|exact HR]. Qed.

Lemma keeps_callback d d' : keeps d d' -> quietCallback (callback_ (irqPoll_ d)) ->
  quietCallback (callback_ (irqPoll_ d')).
Proof. by intros (_ & _ & _ & _ & -> & _). Qed.

(** Reading the clock. *)
Lemma wp_millis (R : Z -> D -> Prop) d :
  (forall d', keeps d d' -> R (u32 (time d')) d') -> wp (hw millis) R d.
Proof.
  intros HR. unfold wp, hw. change (millis (world_ d)) with (unlogged (millis (W := W)) (world_ d)).
  unfold unlogged. pose proof (th_millis (fst (world_ d))) as Hm.
  pose proof (th_reads (fst (world_ d))) as Hr.
  destruct (millis (fst (world_ d))) as [a w] eqn:E. cbn [fst snd] in *. rewrite Hr.
  apply (HR (set_world (w, snd (world_ d)) d)). by split_and!.
Qed.

Lemma covers_wp bytes n d : quietCallback (callback_ (irqPoll_ d)) ->
  wp (oneShotCovers bytes n) (fun b d' => keeps d d' /\
    (b = true -> permitCovers d bytes n (time d) (time d'))) d.
Proof.
  intros Hd. unfold oneShotCovers. wp_step. apply wp_gets.
  destruct (oneShotArmed_ (permit_ d)) eqn:Ea; cbn [negb]; [|apply wp_ret; split; [apply keeps_refl|done]].
  wp_step. apply wp_millis. intros d1 H1.
  destruct (Z.leb_spec (u32 (u32 (time d1) - oneShotArmedAt_ (permit_ d))) (oneShotPermitLifetimeMs_ (permit_ d)));
    cbn [negb]; [|by apply wp_ret].
  assert (exists t, time d <= t <= time d1 /\
    u32 (u32 t - oneShotArmedAt_ (permit_ d)) <= oneShotPermitLifetimeMs_ (permit_ d)).
  { exists (time d1). split; [destruct H1; lia|done]. }
  destruct (oneShotPacketBound_ (permit_ d)) eqn:Eb; cbn [negb]; apply wp_ret; (split; [done|]).
  - destruct bytes as [l|]; [|done]. destruct (orb _ _) eqn:El; [done|]. intros Es. apply beq_eq in Es.
    split; [done|]. split; [done|]. intros _. exists l. split; [done|]. split; [lia|exact Es].
  - intros _. split; [done|]. split; [done|]. intros Hb. congruence.
Qed.

(** [keeps], except that the permit is gone. *)
Definition spent d d' : Prop :=
  oneShotArmed_ (permit_ d') = false /\ limiter_ d' = limiter_ d /\ gate_ d' = gate_ d /\
  settings_ d' = settings_ d /\ callback_ (irqPoll_ d') = callback_ (irqPoll_ d) /\ time d <= time d'.

Lemma spent_keeps d d1 d2 : spent d d1 -> keeps d1 d2 -> spent d d2.
Proof.
  unfold spent, keeps. intros (? & ? & ? & ? & ? & ?) (? & ? & ? & ? & ? & ? & ?).
  split_and!; congruence || lia.
Qed.

Lemma authorize_wp bytes n d : quietCallback (callback_ (irqPoll_ d)) ->
  wp (authorize bytes n) (fun b d' => spent d d' /\ log d' = log d /\
    (b = true -> sessionAllows d = true \/ permitCovers d bytes n (time d) (time d'))) d.
Proof.
  intros Hd. unfold authorize. wp_step. apply quiet_wp; [apply quiet_clearTx|done|]. intros [] d1 H1.
  wp_step. apply wp_gets. wp_step. eapply wp_mono; [apply covers_wp, (keeps_callback d), Hd; done|].
  intros b d2 [H2 Hb]. pose proof (keeps_trans _ _ _ H1 H2) as (Kp & Kl & Kg & Ks & Kc & Klog & Kt).
  assert (Hauth : sessionAllows (id d1) || b = true ->
    sessionAllows d = true \/ permitCovers d bytes n (time d) (time d2)).
  { intros Hor. apply orb_true_iff in Hor as [Hs|Hb'].
    - left. unfold sessionAllows, id in *. destruct H1 as (_ & _ & <- & <- & _). exact Hs.
    - right. specialize (Hb Hb'). unfold permitCovers in *.
      destruct H1 as (E & _ & _ & _ & _ & _ & Ht). rewrite E in Hb. destruct Hb as (? & (t & Htt & ?) & ?).
      split; [done|]. split; [|done]. exists t. split; [lia|done]. }
  wp_step. unfold revokeIfArmed. wp_step. apply wp_gets. wp_step; first [apply wp_modify | apply wp_ret]; apply wp_ret; (split; [split_and!; done || congruence|done]).
Qed.

Section Send.
Context (bytes : option (list Z)) (n : Z) (d : D) (Hd : quietCallback (callback_ (irqPoll_ d))).

(** Before and after the one start of a send authorized at [since]. *)
Definition unsent (since : Z) (d' : D) : Prop := spent d d' /\ since <= time d' /\ log d' = log d.
Definition sentOnce (since : Z) (d' : D) : Prop :=
  spent d d' /\ since <= time d' /\ log d' = log d ++ [(bytes, n)].

Lemma spent_callback d' : spent d d' -> quietCallback (callback_ (irqPoll_ d')).
Proof using Hd. by intros (_ & _ & _ & _ & -> & _). Qed.

Lemma quiet_carries {A} since (m : M D A) : quiet m -> carries (sentOnce since) m.
Proof using Hd.
  intros Hm d1 (H1 & Ht & Hl). apply quiet_wp; [done|by apply spent_callback|]. intros a d2 H2.
  split; [by apply (spent_keeps d d1)|]. destruct H2 as (_ & _ & _ & _ & _ & -> & ?). split; [lia|exact Hl].
Qed.

Lemma start_wp since d1 : unsent since d1 -> wp (hw (baseStartSendRaw bytes n)) (fun _ d2 => sentOnce since d2) d1.
Proof.
  intros ((H1 & H2 & H3 & H4 & H5 & H6) & Hs & Hl). unfold wp, hw, baseStartSendRaw at 1. cbn [LoggedHw].
  pose proof (th_start bytes n (fst (world_ d1))) as Ht.
  destruct (baseStartSendRaw bytes n (fst (world_ d1))) as [a w] eqn:E. cbn [fst snd] in *.
  unfold sentOnce, spent, time, log in *. cbn [world_ set_world fst snd permit_ limiter_ gate_ settings_ irqPoll_].
  split_and!; try done; try lia. by rewrite Hl.
Qed.

Lemma startSendRaw_wp fuel c :
  wp (startSendRaw fuel bytes n) (fun r s =>
    (r = Some false /\ unsent (time d) (snd s)) \/
    (sentOnce (time d) (snd s) /\
     (sessionAllows d = true \/ permitCovers d bytes n (time d) (time (snd s))))) (c, d).
Proof using Hd.
  unfold startSendRaw. wp_step. apply wp_modify. cbn [fst snd]. wp_step. apply wp_onRadio.
  eapply wp_mono; [by apply authorize_wp|]. intros allowed d1 (Hs1 & Hl1 & Hw1).
  pose proof Hs1 as (_ & _ & _ & _ & _ & Ht1).
  destruct allowed; cbn [negb]; [specialize (Hw1 eq_refl)|apply wp_ret; by left].
  wp_step. apply wp_onRadio, quiet_wp; [quiet|by apply spent_callback|]. intros est d2 H2.
  pose proof H2 as (_ & _ & _ & _ & _ & Hl2 & Ht2). wp_step. eapply wp_mono.
  { apply (turnaround_carries _ _ _ _ _ _ _ (unsent (time d1)) (sentOnce (time d1))).
    - apply start_wp.
    - apply quiet_carries. quiet.
    - apply quiet_carries. pose proof quiet_pollDiagnostics. quiet.
    - apply quiet_carries, quiet_consume.
    - apply quiet_carries. quiet.
    - apply quiet_carries, quiet_rearm.
    - apply quiet_carries. quiet.
    - split; [by apply (spent_keeps d d1)|]. split; [done|congruence]. }
  assert (Hend : forall r d', sentOnce (time d1) d' ->
    (r = Some false /\ unsent (time d) d') \/
    (sentOnce (time d) d' /\ (sessionAllows d = true \/ permitCovers d bytes n (time d) (time d')))).
  { intros r d' (Hs & Ht & Hl). right. split; [split; [done|split; [lia|done]]|].
    destruct Hw1 as [Hw1|(Ha & (t & Htt & Hp) & Hb)]; [by left|]. right.
    split; [done|]. split; [|done]. exists t. split; [lia|done]. }
  intros r [c' d3]. cbn [snd]. intros H3. destruct r as [r|]; [|apply wp_ret; by apply Hend].
  wp_step. apply wp_onRadio. eapply wp_mono; [by apply (quiet_carries (time d1)), H3; apply quiet_noteTurnaround|].
  intros sent d4 H4. apply wp_ret. by apply Hend.
Qed.

End Send.

(** ** Granting *)

(** What granting leaves alone. *)
Definition granting d d' : Prop :=
  gate_ d' = gate_ d /\ settings_ d' = settings_ d /\ callback_ (irqPoll_ d') = callback_ (irqPoll_ d) /\
  log d' = log d /\ time d <= time d'.

Lemma keeps_granting d d' : keeps d d' -> granting d d'.
Proof. intros (_ & _ & ? & ? & ? & ? & ?). by split_and!. Qed.

Lemma granting_trans d1 d2 d3 : granting d1 d2 -> granting d2 d3 -> granting d1 d3.
Proof. unfold granting. intros (? & ? & ? & ? & ?) (? & ? & ? & ? & ?). split_and!; congruence || lia. Qed.

Lemma armOneShot_wp requested approved d :
  wp (armOneShot requested approved) (fun r d' =>
    granting d d' /\ limiter_ d' = limiter_ d /\ oneShotArmed_ (permit_ d') = r) d.
Proof.
  unfold armOneShot, revokeOneShot. wp_step. apply wp_modify. wp_step. apply wp_gets.
  wp_step; [apply wp_ret; cbv beta; by split_and!|]. wp_step. apply wp_millis. intros d1 (K1 & K2 & K3 & K4 & K5 & K6 & K7).
  wp_step. apply wp_modify. apply wp_ret. cbv beta. by split_and!.
Qed.

Lemma armForPacket_wp requested approved bytes n d :
  wp (armOneShotForPacket requested approved bytes n) (fun r d' =>
    granting d d' /\ limiter_ d' = limiter_ d /\ oneShotArmed_ (permit_ d') = r) d.
Proof.
  unfold armOneShotForPacket, revokeOneShot. destruct bytes as [l|]; [|wp_step; apply wp_modify, wp_ret; cbv beta; by split_and!].
  wp_step; [wp_step; apply wp_modify, wp_ret; cbv beta; by split_and!|]. wp_step.
  eapply wp_mono; [apply armOneShot_wp|]. intros r d1 (G & L & A). destruct r; cbn [negb].
  - wp_step. apply wp_modify, wp_ret. cbv beta. by split_and!.
  - wp_step. apply wp_modify, wp_ret. cbv beta. by split_and!.
Qed.

(** The limiter against real time: [since] is when counting began, [used] the
    replies granted, [at_] the instant the tokens were last topped up. *)
Definition limited (since used now : Z) (l : ReplyLimiter) : Prop :=
  0 <= used /\ 0 <= protocolReplyTokens_ l <= 8 /\ since <= now /\
  (protocolReplyRateStarted_ l = false -> used = 0) /\
  (protocolReplyRateStarted_ l = true -> exists at_, since <= at_ <= now /\
     protocolReplyRefilledAt_ l = u32 at_ /\
     kProtocolReplyRefillMs * (used + protocolReplyTokens_ l) <= 8 * kProtocolReplyRefillMs + (at_ - since)).

Lemma limited_later since used now now' l : limited since used now l -> now <= now' -> limited since used now' l.
Proof.
  intros (? & ? & ? & ? & Hs) Hn. split_and!; try done; try lia.
  intros E. destruct (Hs E) as (a & ? & ? & ?). exists a. split_and!; done || lia.
Qed.

Lemma refill_limited since used now l : limited since used now l ->
  limited since used now (refill (u32 now) l) /\ protocolReplyRateStarted_ (refill (u32 now) l) = true.
Proof.
  intros Hl. pose proof Hl as (Hu & Ht & Hn & Hns & Hs). unfold refill. destruct (protocolReplyRateStarted_ l) eqn:Es; cbn [negb].
  2: { split; [|done]. specialize (Hns eq_refl). unfold limited, kProtocolReplyRefillMs.
       cbn [protocolReplyRefilledAt_ protocolReplyTokens_ protocolReplyRateStarted_].
       split_and!; try done; try lia. intros _. exists now. split_and!; try done; lia. }
  destruct (Hs eq_refl) as (a & Ha & Er & Hb). rewrite Er.
  assert (He : u32 (u32 now - u32 a) = (now - a) mod 2 ^ 32) by (unfold u32; by rewrite <- Zminus_mod).
  pose proof (Z.mod_le (now - a) (2 ^ 32) ltac:(lia) ltac:(lia)) as Hle. rewrite He. clear He.
  set (e := (now - a) mod 2 ^ 32) in *. assert (0 <= e < 2 ^ 32) by (apply Z.mod_pos_bound; lia).
  pose proof (Z.div_mod e kProtocolReplyRefillMs ltac:(done)) as Hd.
  pose proof (Z.mod_pos_bound e kProtocolReplyRefillMs ltac:(done)) as Hm.
  unfold kProtocolReplyRefillMs in *.
  destruct (Z.eqb_spec (e / 10000) 0) as [Ez|Ez]; cbn [negb]; [done|].
  assert (0 < e / 10000 <= 429496).
  { split; [pose proof (Z.div_pos e 10000); lia|]. apply Z.lt_succ_r, Z.div_lt_upper_bound; lia. }
  rewrite (u32_id (protocolReplyTokens_ l + _)) by lia. split; [|done].
  unfold limited, kProtocolReplyRefillMs, kProtocolReplyBurst.
  cbn [protocolReplyTokens_ protocolReplyRateStarted_ protocolReplyRefilledAt_].
  assert (Hu8 : forall x, u8 (if x <? 8 then x else 8) = if x <? 8 then u8 x else 8) by (intros x; by destruct (x <? 8)).
  split_and!; try done.
  - destruct (Z.ltb_spec (protocolReplyTokens_ l + e / 10000) 8); [rewrite u8_id by lia; lia|done].
  - destruct (Z.ltb_spec (protocolReplyTokens_ l + e / 10000) 8); [rewrite u8_id by lia; lia|done].
  - intros _. exists (now - e mod 10000). split; [lia|]. split.
    + unfold u32. by rewrite Zminus_mod_idemp_l.
    + destruct (Z.ltb_spec (protocolReplyTokens_ l + e / 10000) 8); [rewrite u8_id by lia; lia|].
      change (u8 8) with 8. lia.
Qed.

Lemma takeToken_wp since used d : limited since used (time d) (limiter_ d) ->
  wp takeProtocolReplyToken (fun r d' => granting d d' /\ permit_ d' = permit_ d /\
    limited since (used + if r then 1 else 0) (time d') (limiter_ d')) d.
Proof.
  intros Hl. unfold takeProtocolReplyToken. wp_step. apply wp_millis. intros d1 K.
  pose proof K as (Kp & Kl & _ & _ & _ & _ & Kt). wp_step. apply wp_modify.
  pose proof (limited_later _ _ _ _ _ Hl Kt) as Hl1. rewrite <- Kl in Hl1.
  destruct (refill_limited _ _ _ _ Hl1) as [Hr Hs]. wp_step. apply wp_gets.
  cbn [limiter_ set_limiter]. set (l := refill (u32 (time d1)) (limiter_ d1)) in *.
  destruct Hr as (Hu & Ht & Hn & _ & Hst). destruct (Hst Hs) as (a & Ha & Er & Hb).
  destruct (Z.eqb_spec (protocolReplyTokens_ l) 0) as [E|E].
  - apply wp_ret. split; [by apply keeps_granting in K|]. split; [done|]. rewrite Z.add_0_r.
    unfold limited. cbn [limiter_ set_limiter]. fold l. split_and!; try done; try lia; try congruence.
  - wp_step. apply wp_modify, wp_ret. split; [by apply keeps_granting in K|]. split; [done|].
    change (time (set_limiter _ _)) with (time d1).
    unfold limited. cbn [limiter_ set_limiter protocolReplyTokens_ protocolReplyRateStarted_ protocolReplyRefilledAt_].
    rewrite u8_id by lia. split_and!; try lia; try congruence; try done.
    intros _. exists a. unfold kProtocolReplyRefillMs in *. split_and!; try done; lia.
Qed.

Lemma armReply_wp requested since used d : limited since used (time d) (limiter_ d) ->
  wp (armAuthenticatedReply requested) (fun r d' => granting d d' /\
    (oneShotArmed_ (permit_ d') = true -> oneShotArmed_ (permit_ d) = true \/ r = true) /\
    limited since (used + if r then 1 else 0) (time d') (limiter_ d')) d.
Proof.
  intros Hl. unfold armAuthenticatedReply. wp_step. apply wp_gets. cbv [id].
  wp_step; [apply wp_ret; split; [apply keeps_granting, keeps_refl|split; [auto|by rewrite Z.add_0_r]]|].
  wp_step. eapply wp_mono; [by apply takeToken_wp|]. intros r d1 (G & P & L).
  destruct r; cbn [negb].
  - wp_step.
    + wp_step. apply wp_millis. intros d2 K. pose proof (granting_trans _ _ _ G (keeps_granting _ _ K)) as G2.
      destruct K as (_ & Kl & _ & _ & _ & _ & Kt). wp_step. apply wp_modify, wp_ret. split; [exact G2|].
      split; [auto|]. cbn [limiter_ set_permit]. rewrite Kl. by apply (limited_later _ _ (time d1)).
    + apply wp_ret. split; [done|]. split; [auto|done].
  - apply wp_ret. split; [done|]. rewrite P. auto.
Qed.

(** ** Runs *)

Inductive Op :=
  | OpSettings (s : Settings)
  | OpUnlock (approved : bool)
  | OpLock
  | OpArm (requested : Settings) (approved : bool)
  | OpArmPacket (requested : Settings) (approved : bool) (bytes : option (list Z)) (n : Z)
  | OpReply (requested : Settings)
  | OpRevoke
  | OpSend (bytes : option (list Z)) (n : Z)
  | OpSendDirect (bytes : option (list Z)) (n : Z)
  | OpLoop
  | OpResume
  | OpReceive (capacity : Z)
  | OpSendComplete
  | OpSendFinished.

Definition set_settings (s : Settings) (d : D) : D :=
  mkDriver (permit_ d) (limiter_ d) (notes_ d) (gate_ d) s (irqPoll_ d) (world_ d).
Definition set_gate (g : TxGate) (d : D) : D :=
  mkDriver (permit_ d) (limiter_ d) (notes_ d) g (settings_ d) (irqPoll_ d) (world_ d).

(** One call from the rest of the transport; the result says whether it granted
    a permission to send. *)
Definition runOp (fuel : nat) (op : Op) : M (Completion * D) bool :=
  match op with
  | OpSettings s => onRadio (modify (set_settings s)) ;;; ret false
  | OpUnlock approved =>
      onRadio (modify (fun d => set_gate (snd (unlockForSession (settings_ d) approved (gate_ d))) d)) ;;; ret false
  | OpLock => onRadio (modify (fun d => set_gate (lock (gate_ d)) d)) ;;; ret false
  | OpArm requested approved => onRadio (armOneShot requested approved)
  | OpArmPacket requested approved bytes n => onRadio (armOneShotForPacket requested approved bytes n)
  | OpReply requested => onRadio (armAuthenticatedReply requested)
  | OpRevoke => onRadio revokeOneShot ;;; ret false
  | OpSend bytes n => startSendRaw fuel bytes n ;;; ret false
  | OpSendDirect bytes n => sendDirectOneShotRaw fuel bytes n ;;; ret false
  | OpLoop => onRadio loop ;;; ret false
  | OpResume => onRadio resumeReceiveNow ;;; ret false
  | OpReceive capacity => onRadio (recvRaw capacity) ;;; ret false
  | OpSendComplete => isSendComplete ;;; ret false
  | OpSendFinished => onSendFinished ;;; ret false
  end.

(** What a run has granted and sent: the owner's approvals, the automatic
    replies, and the starts of the radio while the session gate was closed. *)
Record Tally := mkTally { approvals : Z; replies : Z; closedStarts : Z }.

Definition isReply (op : Op) : bool := match op with OpReply _ => true | _ => false end.

Definition tallyOp (op : Op) (granted : bool) (d d' : D) (t : Tally) : Tally :=
  let one := if granted then 1 else 0 in
  mkTally (approvals t + if isReply op then 0 else one) (replies t + if isReply op then one else 0)
    (closedStarts t + if sessionAllows d then 0 else Z.of_nat (length (log d')) - Z.of_nat (length (log d))).

Fixpoint runTally (fuel : nat) (ops : list Op) (t : Tally) (s : Completion * D) : Tally * (Completion * D) :=
  match ops with
  | [] => (t, s)
  | op :: ops =>
      let '(granted, s') := runOp fuel op s in
      runTally fuel ops (tallyOp op granted (snd s) (snd s') t) s'
  end.

Record Accounted (since : Z) (t : Tally) (d : D) : Prop := {
  ac_quiet : quietCallback (callback_ (irqPoll_ d));
  ac_limited : limited since (replies t) (time d) (limiter_ d);
  ac_sent : closedStarts t + (if oneShotArmed_ (permit_ d) then 1 else 0) <= approvals t + replies t;
  ac_log : 0 <= closedStarts t;
}.

(** A call that grants nothing and sends nothing. *)
Lemma idle_account since t op d d' : isReply op = false -> keeps d d' ->
  Accounted since t d -> Accounted since (tallyOp op false d d' t) d'.
Proof.
  intros Hop (K1 & K2 & _ & _ & K5 & K6 & K7) [Hq Hl Hs Hp].
  split; cbn [tallyOp approvals replies closedStarts]; rewrite ?Hop, ?K1, ?K5, ?K6, ?K2.
  - done.
  - rewrite Z.add_0_r. by apply (limited_later _ _ (time d)).
  - destruct (sessionAllows d); lia.
  - destruct (sessionAllows d); lia.
Qed.

Lemma grant_account since t op d d' r : isReply op = false -> granting d d' ->
  limiter_ d' = limiter_ d -> oneShotArmed_ (permit_ d') = r ->
  Accounted since t d -> Accounted since (tallyOp op r d d' t) d'.
Proof.
  intros Hop (G1 & G2 & G3 & G4 & G5) L A [Hq Hl Hs Hp].
  split; cbn [tallyOp approvals replies closedStarts]; rewrite ?Hop, ?A, ?L, ?G3, ?G4.
  - done.
  - rewrite Z.add_0_r. by apply (limited_later _ _ (time d)).
  - destruct (sessionAllows d), r, (oneShotArmed_ (permit_ d)); lia.
  - destruct (sessionAllows d); lia.
Qed.

Lemma send_account since t op d d' bytes n : isReply op = false ->
  unsent d (time d) d' \/
  sentOnce bytes n d (time d) d' /\ (sessionAllows d = true \/ permitCovers d bytes n (time d) (time d')) ->
  Accounted since t d -> Accounted since (tallyOp op false d d' t) d'.
Proof.
  intros Hop Hcase [Hq Hl Hs Hp].
  assert (Hd' : spent d d' /\ time d <= time d' /\
    (Z.of_nat (length (log d')) = Z.of_nat (length (log d)) \/
     Z.of_nat (length (log d')) = Z.of_nat (length (log d)) + 1 /\
     (sessionAllows d = true \/ oneShotArmed_ (permit_ d) = true))).
  { destruct Hcase as [(H1 & H2 & H3)|[(H1 & H2 & H3) Hw]]; split_and!; try done.
    - left. by rewrite H3.
    - right. split; [rewrite H3, length_app; simpl; lia|]. destruct Hw as [|(? & _)]; auto. }
  clear Hcase. destruct Hd' as ((S1 & S2 & S3 & S4 & S5 & S6) & Ht & Hn).
  split; cbn [tallyOp approvals replies closedStarts]; rewrite ?Hop, ?S1, ?S2, ?S5.
  - done.
  - rewrite Z.add_0_r. by apply (limited_later _ _ (time d)).
  - destruct Hn as [Hn|[Hn Hw]]; rewrite Hn; destruct (sessionAllows d) eqn:E;
      destruct (oneShotArmed_ (permit_ d)); try lia; destruct Hw; congruence.
  - destruct (sessionAllows d), Hn as [|[]]; lia.
Qed.

Lemma reply_account since t requested d d' r : granting d d' ->
  (oneShotArmed_ (permit_ d') = true -> oneShotArmed_ (permit_ d) = true \/ r = true) ->
  limited since (replies t + if r then 1 else 0) (time d') (limiter_ d') ->
  Accounted since t d -> Accounted since (tallyOp (OpReply requested) r d d' t) d'.
Proof.
  intros (G1 & G2 & G3 & G4 & G5) Harm L [Hq Hl Hs Hp].
  split; cbn [tallyOp isReply approvals replies closedStarts]; rewrite ?G3, ?G4; try done.
  - destruct (sessionAllows d), r, (oneShotArmed_ (permit_ d)), (oneShotArmed_ (permit_ d')); try lia;
      destruct (Harm eq_refl); congruence.
  - destruct (sessionAllows d); lia.
Qed.

(** Running a quiet computation of the driver inside an operation. *)
Lemma idle_wp {A} since t op (m : M D A) c d : isReply op = false -> quiet m -> Accounted since t d ->
  wp (onRadio m ;;; ret false) (fun r s => Accounted since (tallyOp op r d (snd s) t) (snd s)) (c, d).
Proof.
  intros Hop Hm Ha. wp_step. apply wp_onRadio, quiet_wp; [done|apply Ha|]. intros a d' K. apply wp_ret.
  by apply idle_account.
Qed.

Lemma runOp_account fuel op since t c d : Accounted since t d ->
  wp (runOp fuel op) (fun r s => Accounted since (tallyOp op r d (snd s) t) (snd s)) (c, d).
Proof.
  intros Ha. pose proof (ac_quiet _ _ _ Ha) as Hq. destruct op; cbn [runOp].
  1-3: wp_step; apply wp_onRadio, wp_modify, wp_ret;
       destruct Ha as [? Hl ? ?]; split; cbn [tallyOp isReply approvals replies closedStarts snd]; rewrite ?Z.add_0_r; try done;
       [cbn [set_settings set_gate permit_]; unfold log; simpl; destruct (sessionAllows d); lia
       |unfold log; simpl; destruct (sessionAllows d); lia].
  - apply wp_onRadio. eapply wp_mono; [apply armOneShot_wp|]. intros r d' (G & L & A). by apply grant_account.
  - apply wp_onRadio. eapply wp_mono; [apply armForPacket_wp|]. intros r d' (G & L & A). by apply grant_account.
  - apply wp_onRadio. eapply wp_mono; [apply armReply_wp, Ha|]. intros r d' (G & A & L). by apply reply_account.
  - wp_step. apply wp_onRadio, wp_modify, wp_ret. by apply grant_account.
  - wp_step. eapply wp_mono; [by apply startSendRaw_wp|]. intros r [c' d'] Hs. apply wp_ret. cbn [snd] in *.
    apply (send_account since t _ d d' bytes n); [done|destruct Hs as [[_ ?]|?]; auto|done].
  - wp_step. unfold sendDirectOneShotRaw. wp_step. eapply wp_mono; [by apply startSendRaw_wp|].
    intros r [c' d'] Hs. wp_step. apply wp_modify, wp_ret, wp_ret. cbn [snd fst] in *.
    apply (send_account since t _ d d' bytes n); [done|destruct Hs as [[_ ?]|?]; auto|done].
  - apply idle_wp; [done|apply quiet_loop|done].
  - apply idle_wp; [done|apply quiet_resume|done].
  - apply idle_wp; [done|apply quiet_recv|done].
  - wp_step. unfold wp at 1, isSendComplete. cbn [fst snd]. destruct (takeForDispatcher c). apply wp_ret.
    apply idle_account; [done|apply keeps_refl|done].
  - wp_step. unfold wp at 1, onSendFinished. cbn [fst snd]. destruct (consumeReportedFinish c). apply wp_ret.
    apply idle_account; [done|apply keeps_refl|done].
Qed.

Lemma runTally_account fuel since ops : forall t s, Accounted since t (snd s) ->
  Accounted since (fst (runTally fuel ops t s)) (snd (snd (runTally fuel ops t s))).
Proof.
  induction ops as [|op ops IH]; intros t [c d] Ha; [done|]. cbn [runTally].
  pose proof (runOp_account fuel op since t c d Ha) as Hw. unfold wp in Hw.
  destruct (runOp fuel op (c, d)) as [r s']. by apply IH.
Qed.

(** ** Properties *)

(** C12: nothing reaches the radio unauthorized. Each send starts the SX1262 at
    most once, with exactly the packet given, and only when the session gate
    allows it or an armed permit does that has not outlived its window and, if
    bound, was bound to these bytes; it uses up the permit whatever happens, and
    a refused send starts nothing. *)
Theorem transmission_authorized fuel bytes n c (d : D) :
  quietCallback (callback_ (irqPoll_ d)) ->
  let r := fst (startSendRaw fuel bytes n (c, d)) in
  let d' := snd (snd (startSendRaw fuel bytes n (c, d))) in
  oneShotArmed_ (permit_ d') = false /\
  ((r = Some false /\ log d' = log d) \/
   (log d' = log d ++ [(bytes, n)] /\
    (sessionAllows d = true \/ permitCovers d bytes n (time d) (time d')))).
Proof using.
  intros Hd r d'. pose proof (startSendRaw_wp bytes n d Hd fuel c) as Hw. unfold wp in Hw. fold r d' in Hw.
  destruct Hw as [(Hr & (Hs & _) & _ & Hl)|(((Hs & _) & _ & Hl) & Hw)]; (split; [exact Hs|]); auto.
Qed.

(** C13: while the session gate is closed, transmissions are bounded. In any run
    of the interlock from a fresh driver, the starts of the radio with the gate
    closed are at most the owner's approvals plus the automatic replies to
    authenticated messages, and these replies are at most eight plus one per
    ten seconds elapsed, however often the clock wraps. *)
Theorem closed_gate_bounded fuel ops c (d : D) :
  quietCallback (callback_ (irqPoll_ d)) -> permit_ d = noPermit -> limiter_ d = limiter0 ->
  let t := fst (runTally fuel ops (mkTally 0 0 0) (c, d)) in
  let d' := snd (snd (runTally fuel ops (mkTally 0 0 0) (c, d))) in
  closedStarts t <= approvals t + replies t /\
  10000 * replies t <= 80000 + (time d' - time d).
Proof using.
  intros Hq Hp Hl t d'.
  assert (Ha : Accounted (time d) (mkTally 0 0 0) d).
  { split; [done| |by rewrite Hp|done]. rewrite Hl. unfold limited, limiter0, kProtocolReplyBurst. simpl.
    split_and!; try done; lia. }
  pose proof (runTally_account fuel (time d) ops (mkTally 0 0 0) (c, d) Ha) as [_ Hlim Hs _].
  fold t d' in Hlim, Hs. split; [destruct (oneShotArmed_ (permit_ d')); lia|].
  destruct Hlim as (Hu & Ht & Hn & Hfirst & Hlater). unfold kProtocolReplyRefillMs in Hlater.
  destruct (protocolReplyRateStarted_ (limiter_ d')).
  - destruct (Hlater eq_refl) as (a & Ha' & _ & Hb). lia.
  - rewrite (Hfirst eq_refl). lia.
Qed.

End Facts.

(** ** A simulated radio

    Its clock advances with every reading; packets go out at once. *)

#[export] Instance SimHw : RadioHw Z := {|
  millis := fun t => (u32 (t + 1), t + 1);
  micros := gets (fun t => u32 (1000 * t));
  dio1High := ret false;
  yield := modify (Z.add 1);
  observeIrqFlags _ _ := ret tt;
  baseLoop := ret tt;
  baseStartSendRaw _ _ := ret true;
  baseIsSendComplete := ret true;
  baseOnSendFinished := ret tt;
  baseRecvRaw _ := ret (0, None);
  startRecvWithStatus := ret 0;
  isInRecvMode := ret true;
  readSx126xStatus := ret (Some 0x50);
  getEstAirtimeFor _ := ret 100;
  packetSha256 l := take 32 (l ++ replicate 32 0);
|}.

#[export] Program Instance SimTimed : TimedHw Z := {| clockMs t := t |}.
Solve All Obligations with (intros; unfold millis; simpl; done || lia).

Definition demoSettings : Settings := mkSettings true Hidden noCoordinates ExplicitSession ukEuNarrowProfile.

Definition demoDriver : Driver (Z * list (option (list Z) * Z)) :=
  mkDriver noPermit limiter0 ∅ gate0 demoSettings (mkPoll None noDiagnostics false) (4294967290, []).

Definition demoPacket : option (list Z) := Some [17; 2; 3].

(** The permit of a bound packet in the last milliseconds of the counter. *)
Definition demoArmed : Driver (Z * list (option (list Z) * Z)) :=
  snd (armOneShotForPacket demoSettings true demoPacket 3 demoDriver).

Lemma transmission_authorized_witness :
  log (snd (snd (startSendRaw 100 demoPacket 3 (mkCompletion true true, demoArmed)))) = [(demoPacket, 3)] /\
  permitCovers demoArmed demoPacket 3 4294967291
    (time (snd (snd (startSendRaw 100 demoPacket 3 (mkCompletion true true, demoArmed))))).
Proof.
  destruct (transmission_authorized 100 demoPacket 3 (mkCompletion true true) demoArmed I)
    as [_ [[_ Hl]|[Hl [Hs|Hp]]]].
  - exfalso. revert Hl. vm_compute. discriminate.
  - exfalso. revert Hs. vm_compute. discriminate.
  - split; [exact Hl|exact Hp].
Defined.

Definition demoOps : list Op :=
  [OpReply demoSettings; OpSend demoPacket 3; OpArmPacket demoSettings true demoPacket 3;
   OpSend (Some [9]) 1; OpSend demoPacket 3; OpArm demoSettings true; OpSend demoPacket 3].

Lemma closed_gate_bounded_witness :
  closedStarts (fst (runTally 100 demoOps (mkTally 0 0 0) (mkCompletion false false, demoDriver))) = 2 /\
  2 <= approvals (fst (runTally 100 demoOps (mkTally 0 0 0) (mkCompletion false false, demoDriver))) +
       replies (fst (runTally 100 demoOps (mkTally 0 0 0) (mkCompletion false false, demoDriver))).
Proof.
  destruct (closed_gate_bounded 100 demoOps (mkCompletion false false) demoDriver I eq_refl eq_refl) as [Hb _].
  assert (E : closedStarts (fst (runTally 100 demoOps (mkTally 0 0 0) (mkCompletion false false, demoDriver))) = 2)
    by (vm_compute; reflexivity).
  split; [exact E|]. rewrite E in Hb. exact Hb.
Defined.
