(* ===== verification/CompanionText.v ===== *)
(** * Text layer of the companion protocol (src/src/kitsu_companion_protocol.cpp)

    Big-endian integers, base64url, UTF-8 and decimal numbers as the protocol
    reads and writes them.  Buffers are never null at the call sites; a [cursor]
    into a fixed input is the list of the bytes not read yet. *)

From S2P Require Import Prelude.

(** ** Big-endian integers *)

Definition putU16Be (value : Z) : list Z := [u8 (Z.shiftr value 8); u8 value].
Definition putU32Be (value : Z) : list Z :=
  [u8 (Z.shiftr value 24); u8 (Z.shiftr value 16); u8 (Z.shiftr value 8); u8 value].
Definition putU64Be (value : Z) : list Z :=
  map (fun i => u8 (Z.shiftr value ((7 - Z.of_nat i) * 8))) (seq 0 8).
Definition getU32Be (input : list Z) : Z :=
  u32 (Z.lor (Z.lor (Z.lor (Z.shiftl (byte_at input 0) 24) (Z.shiftl (byte_at input 1) 16))
                    (Z.shiftl (byte_at input 2) 8))
             (byte_at input 3)).

(** [difference |= left[i] ^ right[i]] over the first [bytes] bytes. *)
Definition constantTimeEqual (left right : list Z) (bytes : nat) : bool :=
  fold_left (fun difference i => Z.lor difference (Z.lxor (byte_at left i) (byte_at right i)))
    (seq 0 bytes) 0 =? 0.

(** ** Decimal numbers *)

Definition UINT64_MAX : Z := 2 ^ 64 - 1.

Definition asciiDigit (c : Z) : bool := (48 <=? c) && (c <=? 57).

Fixpoint parseDecimalLoop (input : list Z) (value : Z) : option Z :=
  match input with
  | [] => Some value
  | b :: rest =>
      if negb (asciiDigit b) then None
      else
        let digit := b - 48 in
        if (UINT64_MAX - digit) / 10 <? value then None
        else parseDecimalLoop rest (u64 (value * 10 + digit))
  end.

(** A canonical positive number; [value] is 0 on the paths that return false. *)
Definition parseDecimal (input : list Z) : option Z :=
  let bytes := length input in
  if (bytes =? 0)%nat || (20 <? bytes)%nat || (1 <? bytes)%nat && (byte_at input 0 =? 48)
  then None
  else
    match parseDecimalLoop input 0 with
    | Some value => if value =? 0 then None else Some value
    | None => None
    end.

(** The do-while over [reverse], which holds at most [room] more digits. *)
Fixpoint decimalDigits (room : nat) (value : Z) : list Z :=
  match room with
  | O => []
  | S room' => (48 + value mod 10) ::
      (if value / 10 =? 0 then [] else decimalDigits room' (value / 10))
  end.
Definition formatDecimal (value : Z) : list Z := rev (decimalDigits 20 value).

(** ** Base64url *)

Definition base64Value (c : Z) : Z :=
  if (65 <=? c) && (c <=? 90) then c - 65
  else if (97 <=? c) && (c <=? 122) then c - 97 + 26
  else if asciiDigit c then c - 48 + 52
  else if c =? 45 then 62
  else if c =? 95 then 63
  else -1.

Definition base64UrlEncodedBytes (inputBytes : nat) : nat :=
  let remainder := (inputBytes mod 3)%nat in
  (inputBytes / 3 * 4 + (if remainder =? 0 then 0 else remainder + 1))%nat.

Definition alphabet : list Z :=
  bytes_of "ABCDEFGHIJKLMNOPQRSTUVWXYZabcdefghijklmnopqrstuvwxyz0123456789-_".

(** [alphabet[(value >> shift) & 63U]] *)
Definition sextet (value shift : Z) : Z :=
  byte_at alphabet (Z.to_nat (Z.land (Z.shiftr value shift) 63)).

(** The loop over whole triples, then the remainder. *)
Fixpoint encodeTriples (input : list Z) : list Z :=
  match input with
  | x :: y :: z :: rest =>
      let value := Z.lor (Z.lor (Z.shiftl x 16) (Z.shiftl y 8)) z in
      sextet value 18 :: sextet value 12 :: sextet value 6 :: sextet value 0 :: encodeTriples rest
  | [x; y] =>
      let value := Z.lor (Z.shiftl x 16) (Z.shiftl y 8) in
      [sextet value 18; sextet value 12; sextet value 6]
  | [x] => let value := Z.shiftl x 16 in [sextet value 18; sextet value 12]
  | [] => []
  end.

Definition encodeBase64Url (input : list Z) (outputCapacity : nat) : option (list Z) :=
  let required := base64UrlEncodedBytes (length input) in
  if (outputCapacity <? required)%nat then None
  else
    let output := encodeTriples input in
    if (length output =? required)%nat then Some output else None.

(** The loop over whole groups of four, then the remainder. *)
Fixpoint decodeQuads (input : list Z) : option (list Z) :=
  match input with
  | a0 :: b0 :: c0 :: d0 :: rest =>
      let a := base64Value a0 in let b := base64Value b0 in
      let c := base64Value c0 in let d := base64Value d0 in
      if (a <? 0) || (b <? 0) || (c <? 0) || (d <? 0) then None
      else
        let value := Z.lor (Z.lor (Z.lor (Z.shiftl a 18) (Z.shiftl b 12)) (Z.shiftl c 6)) d in
        out ← decodeQuads rest;
        Some (u8 (Z.shiftr value 16) :: u8 (Z.shiftr value 8) :: u8 value :: out)
  | [a0; b0; c0] =>
      let a := base64Value a0 in let b := base64Value b0 in let c := base64Value c0 in
      if (a <? 0) || (b <? 0) || (c <? 0) || negb (Z.land c 3 =? 0) then None
      else Some [u8 (Z.lor (Z.shiftl a 2) (Z.shiftr b 4)); u8 (Z.lor (Z.shiftl b 4) (Z.shiftr c 2))]
  | [a0; b0] =>
      let a := base64Value a0 in let b := base64Value b0 in
      if (a <? 0) || (b <? 0) || negb (Z.land b 15 =? 0) then None
      else Some [u8 (Z.lor (Z.shiftl a 2) (Z.shiftr b 4))]
  | [_] => Some []
  | [] => Some []
  end.

(** [(bytes / 4U) * 3U + (bytes % 4U == 0U ? 0U : bytes % 4U - 1U)] *)
Definition base64DecodedBytes (bytes : nat) : nat :=
  (bytes / 4 * 3 + (if bytes mod 4 =? 0 then 0 else bytes mod 4 - 1))%nat.

Definition decodeBase64Url (input : list Z) (outputCapacity : nat) : option (list Z) :=
  let bytes := length input in
  if (bytes mod 4 =? 1)%nat then None
  else
    let required := base64DecodedBytes bytes in
    if (outputCapacity <? required)%nat then None
    else
      out ← decodeQuads input;
      if (length out =? required)%nat then Some out else None.

(** ** UTF-8 *)

(** Continuation bytes, the bits of the lead byte and the smallest code point
    that needs this length. *)
Definition leadByte (first : Z) : option (nat * Z * Z) :=
  if (0xc2 <=? first) && (first <=? 0xdf) then Some (1%nat, Z.land first 0x1f, 0x80)
  else if (0xe0 <=? first) && (first <=? 0xef) then Some (2%nat, Z.land first 0x0f, 0x800)
  else if (0xf0 <=? first) && (first <=? 0xf4) then Some (3%nat, Z.land first 0x07, 0x10000)
  else None.

(** The loop over the continuation bytes; [None] also when the input ends. *)
Fixpoint continuationBytes (continuation : nat) (codepoint : Z) (input : list Z)
  : option (Z * list Z) :=
  match continuation with
  | O => Some (codepoint, input)
  | S n =>
      match input with
      | [] => None
      | next :: rest =>
          if negb (Z.land next 0xc0 =? 0x80) then None
          else continuationBytes n (Z.lor (Z.shiftl codepoint 6) (Z.land next 0x3f)) rest
      end
  end.

(** Each turn consumes a byte, so a fuel of [length input] never runs out
    ([validUtf8_exact]). *)
Fixpoint validUtf8Loop (fuel : nat) (input : list Z) : bool :=
  match input with
  | [] => true
  | first :: rest =>
      match fuel with
      | O => false
      | S fuel' =>
          if first <=? 0x7f then
            if first =? 0 then false else validUtf8Loop fuel' rest
          else
            match leadByte first with
            | None => false
            | Some (continuation, bits, minimum) =>
                match continuationBytes continuation bits rest with
                | None => false
                | Some (codepoint, rest') =>
                    if (codepoint <? minimum) || (0x10ffff <? codepoint) ||
                       (0xd800 <=? codepoint) && (codepoint <=? 0xdfff)
                    then false else validUtf8Loop fuel' rest'
                end
            end
      end
  end.

Definition validUtf8 (input : list Z) : bool := validUtf8Loop (length input) input.
