(* ===== verification/CompanionTextFacts.v ===== *)
(** * The text layer against its standards

    Decimals and base64url accept exactly the output of their printers, the
    UTF-8 test accepts exactly the encodings of Unicode scalar values. *)

From S2P Require Import Prelude OtaCodec OtaCodecFacts CompanionText.

(** ** Big-endian integers *)

Lemma lor4_rev a b c d : Z.lor (Z.lor (Z.lor d c) b) a = Z.lor (Z.lor (Z.lor a b) c) d.
Proof.
  apply Z.bits_inj'. intros n _. rewrite !Z.lor_spec.
  by destruct (Z.testbit a n), (Z.testbit b n), (Z.testbit c n), (Z.testbit d n).
Qed.

Lemma getU32Be_rev a b c d rest : getU32Be (a :: b :: c :: d :: rest) = get32 [d; c; b; a].
Proof. unfold getU32Be, get32, byte_at. simpl. f_equal. apply lor4_rev. Qed.

Lemma getU32Be_putU32Be v rest : 0 <= v < 2 ^ 32 -> getU32Be (putU32Be v ++ rest) = v.
Proof.
  intros Hv. unfold putU32Be. cbn [app]. rewrite getU32Be_rev. by apply (get32_put32 v []).
Qed.

Lemma putU32Be_length v : length (putU32Be v) = 4%nat. Proof. reflexivity. Qed.
Lemma putU32Be_ok v : bytesOk (putU32Be v).
Proof. repeat constructor; apply u8_range. Qed.

Lemma getU32Be_range l : 0 <= getU32Be l < 2 ^ 32.
Proof. apply u32_range. Qed.

(** The first four bytes are all it reads. *)
Lemma getU32Be_app a b : (4 <= length a)%nat -> getU32Be (a ++ b) = getU32Be a.
Proof. intros Ha. unfold getU32Be. by rewrite !byte_at_app_l by lia. Qed.

(** Byte [k] of a number. *)
Lemma byte_of v k : 0 <= k -> u8 (Z.shiftr v (k * 8)) = v / 256 ^ k mod 256.
Proof.
  intros Hk. rewrite Z.shiftr_div_pow2 by lia. unfold u8. do 2 f_equal.
  by rewrite Z.mul_comm, Z.pow_mul_r by lia.
Qed.

Lemma putU16Be_inj v w : 0 <= v < 65536 -> 0 <= w < 65536 -> putU16Be v = putU16Be w -> v = w.
Proof.
  intros Hv Hw E. apply (f_equal (@rev Z)) in E. change (put16 v = put16 w) in E.
  rewrite <- (get16_put16 v []), <- (get16_put16 w []) by lia. by rewrite E.
Qed.
Lemma putU32Be_inj v w : 0 <= v < 2 ^ 32 -> 0 <= w < 2 ^ 32 -> putU32Be v = putU32Be w -> v = w.
Proof.
  intros Hv Hw E. rewrite <- (getU32Be_putU32Be v []), <- (getU32Be_putU32Be w []) by lia. by rewrite E.
Qed.
Lemma putU64Be_inj v w : 0 <= v < 2 ^ 64 -> 0 <= w < 2 ^ 64 -> putU64Be v = putU64Be w -> v = w.
Proof.
  intros Hv Hw E. unfold putU64Be in E. simpl in E.
  injection E as E7 E6 E5 E4 E3 E2 E1 E0.
  rewrite !(Z.shiftr_div_pow2) in * by lia. unfold u8 in *.
  apply Z.bits_inj'. intros n Hn. destruct (Z.lt_ge_cases n 64) as [Hlt|Hge].
  2: { rewrite !(range_bits 64) by lia. done. }
  assert (Hb : forall k x y, 0 <= k -> (x / 2 ^ k) mod 2 ^ 8 = (y / 2 ^ k) mod 2 ^ 8 ->
    k <= n < k + 8 -> Z.testbit x n = Z.testbit y n).
  { intros k x y Hk Exy Hkn. apply (f_equal (fun z => Z.testbit z (n - k))) in Exy.
    rewrite !Z.mod_pow2_bits_low, !Z.div_pow2_bits in Exy by lia.
    by replace (n - k + k) with n in Exy by lia. }
  destruct (Z.lt_ge_cases n 8); [by apply (Hb 0)|]. destruct (Z.lt_ge_cases n 16); [by apply (Hb 8)|].
  destruct (Z.lt_ge_cases n 24); [by apply (Hb 16)|]. destruct (Z.lt_ge_cases n 32); [by apply (Hb 24)|].
  destruct (Z.lt_ge_cases n 40); [by apply (Hb 32)|]. destruct (Z.lt_ge_cases n 48); [by apply (Hb 40)|].
  destruct (Z.lt_ge_cases n 56); [by apply (Hb 48)|]. by apply (Hb 56).
Qed.

Local Ltac Zify.zify_post_hook ::= Z.to_euclidean_division_equations.

(** ** Constant-time comparison *)

Lemma companion_lor_zero (f : nat -> Z) l : (forall i, 0 <= f i) -> forall acc, 0 <= acc ->
  fold_left (fun d i => Z.lor d (f i)) l acc = 0 <-> acc = 0 /\ Forall (fun i => f i = 0) l.
Proof.
  intros Hf. induction l as [|i l IH]; intros acc Hacc; simpl; [by split; [|intros [? _]]|].
  rewrite IH by (by apply Z.lor_nonneg). rewrite Z.lor_eq_0_iff, Forall_cons. tauto.
Qed.

Lemma companionEqual_spec a b n :
  bytesOk a -> bytesOk b -> length a = n -> length b = n ->
  constantTimeEqual a b n = true <-> a = b.
Proof.
  intros Ha Hb La Lb. unfold constantTimeEqual. rewrite Z.eqb_eq.
  rewrite (companion_lor_zero (fun i => Z.lxor (byte_at a i) (byte_at b i))); [|intros i|done].
  2: { pose proof (byte_at_ok a i Ha). pose proof (byte_at_ok b i Hb).
       apply Z.lxor_nonneg. unfold isByte in *. lia. }
  split; [intros [_ H]|intros ->; split; [done|]].
  - apply list_eq_same_length with n; [done..|]. intros i x y Hi Hx Hy.
    rewrite List.Forall_forall in H. specialize (H i ltac:(apply in_seq; lia)).
    unfold byte_at in H. rewrite Hx, Hy in H. simpl in H. by apply Z.lxor_eq in H.
  - apply List.Forall_forall. intros i _. apply Z.lxor_nilpotent.
Qed.

(** ** Decimal numbers *)

Lemma formatDecimal_digits n : 0 <= n -> formatDecimal n = decDigits n.
Proof.
  unfold formatDecimal, decDigits. revert n. generalize 20%nat as f.
  induction f as [|f IH]; intros n Hn; [done|]. cbn [decimalDigits decDigitsF rev].
  destruct (Z.eqb_spec (n / 10) 0), (Z.ltb_spec n 10); try lia; simpl.
  - do 2 f_equal. lia.
  - by rewrite IH by lia.
Qed.

Lemma dec_digits_64 n : 0 <= n < 2 ^ 64 -> decCanonical (decDigits n) /\ decValue (decDigits n) = n.
Proof.
  intros H. apply (decDigitsF_canonical 19).
  assert (2 ^ 64 < 10 ^ Z.of_nat 20) by reflexivity. lia.
Qed.

Lemma parseDecimalLoop_spec l : forall v, 0 <= v <= UINT64_MAX ->
  Forall (fun b => isDigit b = true) l ->
  parseDecimalLoop l v =
    (if fold_left (fun v b => v * 10 + (b - 48)) l v <=? UINT64_MAX
     then Some (fold_left (fun v b => v * 10 + (b - 48)) l v) else None).
Proof.
  induction l as [|b l IH]; intros v Hv Hd; simpl.
  - destruct (Z.leb_spec v UINT64_MAX); [done|lia].
  - inversion Hd as [|? ? Hb Hl]; subst. assert (Eb : asciiDigit b = true) by exact Hb.
    rewrite Eb. cbn [negb]. apply isDigit_range in Hb. unfold UINT64_MAX in *.
    destruct (Z.ltb_spec ((2 ^ 64 - 1 - (b - 48)) / 10) v) as [Hbig|Hok].
    + destruct (Z.leb_spec (fold_left (fun v b => v * 10 + (b - 48)) l (v * 10 + (b - 48)))
        (2 ^ 64 - 1)) as [Hle|]; [|done].
      assert (H0 : 0 <= v * 10 + (b - 48)) by (clear Hbig Hle; lia).
      pose proof (fold_dec_mono l _ _ Hl H0 eq_refl). lia.
    + rewrite u64_id by lia. apply IH; [lia|done].
Qed.

Lemma parseDecimalLoop_digits l : forall v n,
  parseDecimalLoop l v = Some n -> Forall (fun b => isDigit b = true) l.
Proof.
  induction l as [|b l IH]; intros v n E; simpl in E; [constructor|].
  destruct (asciiDigit b) eqn:Eb; [|discriminate]. cbn [negb] in E.
  destruct (_ <? v); [discriminate|]. constructor; [exact Eb|by eapply IH].
Qed.

Lemma zero_fits : 0 <= 0 <= UINT64_MAX.
Proof. split; discriminate. Qed.

Lemma decCanonical_fits ds : decCanonical ds -> decValue ds < 2 ^ 64 -> (length ds <= 20)%nat.
Proof.
  intros Hc Hv. assert (2 ^ 64 < 10 ^ 20) by reflexivity. destruct (decide (1 < length ds)%nat); [|lia].
  pose proof (decValue_lower ds Hc ltac:(done)) as Hlow.
  destruct (decide (length ds <= 20)%nat); [done|exfalso].
  assert (10 ^ 20 <= 10 ^ (Z.of_nat (length ds) - 1)) by (apply Z.pow_le_mono_r; lia). lia.
Qed.

(** The sequence numbers accepted are the canonical notations of 1 .. 2^64-1. *)
Lemma parseDecimal_exact s n :
  parseDecimal s = Some n <-> s = formatDecimal n /\ 0 < n < 2 ^ 64.
Proof.
  unfold parseDecimal. split.
  - destruct (Nat.eqb_spec (length s) 0) as [|H0]; [done|].
    destruct (Nat.ltb_spec 20 (length s)) as [|H20]; [done|]. cbn [orb].
    destruct ((1 <? length s)%nat && (byte_at s 0 =? 48)) eqn:Ez; [done|].
    destruct (parseDecimalLoop s 0) as [v|] eqn:E; [|done].
    destruct (Z.eqb_spec v 0) as [|Hv0]; [done|]. intros [= ->].
    assert (Hd := parseDecimalLoop_digits _ _ _ E).
    rewrite (parseDecimalLoop_spec s 0 zero_fits Hd) in E.
    change (fold_left _ s 0) with (decValue s) in E.
    destruct (Z.leb_spec (decValue s) UINT64_MAX) as [Hle|]; [|done]. injection E as E.
    assert (Hc : decCanonical s).
    { split; [intros ->; by apply H0|]. split; [exact Hd|]. intros Hl Hz. rewrite Hz in Ez.
      clear -Ez Hl. apply andb_false_iff in Ez as [Ez|Ez]; [apply Nat.ltb_ge in Ez; lia|done]. }
    assert (Hn : 0 <= n).
    { rewrite <- E. eapply (fold_dec_mono s 0); [done|lia|reflexivity]. }
    unfold UINT64_MAX in Hle. split; [|lia].
    rewrite formatDecimal_digits by lia. rewrite <- E. symmetry. by apply decDigitsF_value.
  - intros [-> Hn]. rewrite formatDecimal_digits by lia.
    destruct (dec_digits_64 n ltac:(lia)) as [Hc Hv]. assert (Hc' := Hc).
    destruct Hc' as (Hne & Hd & Hz).
    assert (Hl := decCanonical_fits _ Hc ltac:(lia)).
    destruct (Nat.eqb_spec (length (decDigits n)) 0) as [H0|_]; [by apply nil_length_inv in H0|].
    destruct (Nat.ltb_spec 20 (length (decDigits n))); [lia|]. cbn [orb].
    assert (Ez : (1 <? length (decDigits n))%nat && (byte_at (decDigits n) 0 =? 48) = false).
    { destruct (Nat.ltb_spec 1 (length (decDigits n))) as [Hl1|]; [|done].
      apply Z.eqb_neq. by apply Hz. }
    rewrite Ez, (parseDecimalLoop_spec _ 0 zero_fits Hd).
    change (fold_left _ (decDigits n) 0) with (decValue (decDigits n)). rewrite Hv.
    unfold UINT64_MAX. destruct (Z.leb_spec n (2 ^ 64 - 1)); [|lia].
    destruct (Z.eqb_spec n 0); [lia|done].
Qed.

Lemma formatDecimal_chars n : 0 <= n < 2 ^ 64 -> Forall (fun b => isDigit b = true) (formatDecimal n).
Proof. intros Hn. rewrite formatDecimal_digits by lia. by apply dec_digits_64. Qed.

(** ** Base64url *)

(** A table entry is the character of its value. *)
Lemma sextet_char v shift : 0 <= shift -> 0 <= v ->
  sextet v shift = b64Char (v / 2 ^ shift mod 64).
Proof.
  intros Hs Hv. unfold sextet. change 63 with (Z.ones 6).
  rewrite Z.land_ones, Z.shiftr_div_pow2 by done. change (2 ^ 6) with 64.
  generalize (Z.mod_pos_bound (v / 2 ^ shift) 64 eq_refl). generalize (v / 2 ^ shift mod 64) as d.
  intros d Hd. apply Z.eqb_eq.
  by apply (zrange_forall 64 (fun d => byte_at alphabet (Z.to_nat d) =? b64Char d)).
Qed.

Lemma lor3_add a b c : 0 <= b < 256 -> 0 <= c < 256 ->
  Z.lor (Z.lor (Z.shiftl a 16) (Z.shiftl b 8)) c = a * 65536 + b * 256 + c.
Proof.
  intros Hb Hc. rewrite (Z.lor_comm _ c), (Z.lor_comm (Z.shiftl a 16)), Z.lor_assoc.
  rewrite (lor_shiftl_add c b 8), (lor_shiftl_add _ a 16) by lia. lia.
Qed.

Lemma encodeTriples_ref n : forall b, (length b < n)%nat -> bytesOk b -> encodeTriples b = base64url b.
Proof.
  induction n as [|n IH]; intros b Hn Hb; [lia|].
  destruct b as [|x [|y [|z b]]]; cbn [encodeTriples base64url]; [done|..].
  - inversion Hb as [|? ? Hx _]; subst. unfold isByte in Hx.
    rewrite Z.shiftl_mul_pow2 by done. change (2 ^ 16) with 65536.
    rewrite !sextet_char by lia. change (2 ^ 18) with 262144. change (2 ^ 12) with 4096.
    repeat f_equal; lia.
  - inversion Hb as [|? ? Hx Hb']; inversion Hb' as [|? ? Hy _]; subst. unfold isByte in *.
    pose proof (lor3_add x y 0 ltac:(lia) ltac:(lia)) as E. rewrite Z.lor_0_r in E. rewrite E.
    rewrite !sextet_char by lia. change (2 ^ 18) with 262144. change (2 ^ 12) with 4096.
    change (2 ^ 6) with 64. repeat f_equal; lia.
  - inversion Hb as [|? ? Hx Hb']; inversion Hb' as [|? ? Hy Hb2]; inversion Hb2 as [|? ? Hz Hb3]; subst.
    unfold isByte in Hx, Hy, Hz. rewrite lor3_add, !sextet_char by lia.
    change (2 ^ 18) with 262144. change (2 ^ 12) with 4096. change (2 ^ 6) with 64. change (2 ^ 0) with 1.
    simpl in Hn. rewrite IH by (done || lia). repeat apply cons_congr; f_equal; lia.
Qed.

Lemma encodedBytes_length n : forall b, (length b < n)%nat ->
  length (base64url b) = base64UrlEncodedBytes (length b).
Proof.
  induction n as [|n IH]; intros b Hn; [lia|]. destruct b as [|x [|y [|z b]]]; try reflexivity.
  change (length (base64url (x :: y :: z :: b))) with (4 + length (base64url b))%nat.
  simpl in Hn. rewrite IH by lia. unfold base64UrlEncodedBytes.
  change (length (x :: y :: z :: b)) with (3 + length b)%nat.
  rewrite (Nat.div_add_l 1 3) by lia.
  replace ((3 + length b) mod 3)%nat with (length b mod 3)%nat
    by (rewrite (Nat.Div0.add_mod 3), Nat.Div0.mod_same, Nat.add_0_l, Nat.Div0.mod_mod; done).
  destruct (length b mod 3 =? 0)%nat; lia.
Qed.

(** The encoder is the reference encoding, when it fits. *)
Lemma encodeBase64Url_ref b cap : bytesOk b ->
  encodeBase64Url b cap =
    (if (cap <? base64UrlEncodedBytes (length b))%nat then None else Some (base64url b)).
Proof.
  intros Hb. unfold encodeBase64Url. destruct (cap <? _)%nat; [done|].
  rewrite (encodeTriples_ref (S (length b))) by (done || lia).
  by rewrite (encodedBytes_length (S (length b))), Nat.eqb_refl by lia.
Qed.

(** The three bytes of a whole group, computed from one 24-bit value, are those
    the updater's decoder computes pairwise. *)
Lemma quad_bytes a b c d : 0 <= a < 64 -> 0 <= b < 64 -> 0 <= c < 64 -> 0 <= d < 64 ->
  let value := Z.lor (Z.lor (Z.lor (Z.shiftl a 18) (Z.shiftl b 12)) (Z.shiftl c 6)) d in
  u8 (Z.shiftr value 16) = b64First a b /\ u8 (Z.shiftr value 8) = b64Second b c /\
  u8 value = b64Third c d.
Proof.
  intros Ha Hb Hc Hd value. assert (E : value = a * 262144 + b * 4096 + c * 64 + d).
  { unfold value. rewrite (Z.lor_comm _ d), (Z.lor_comm _ (Z.shiftl c 6)), (Z.lor_comm (Z.shiftl a 18)).
    rewrite !Z.lor_assoc. rewrite (lor_shiftl_add d c 6) by lia.
    rewrite (lor_shiftl_add _ b 12), (lor_shiftl_add _ a 18) by lia. lia. }
  rewrite E, b64First_eq, b64Second_eq, b64Third_eq, !Z.shiftr_div_pow2 by lia.
  unfold u8. change (2 ^ 16) with 65536. change (2 ^ 8) with 256. split_and!; lia.
Qed.

Lemma decodeQuads_same n : forall s, (length s < n)%nat -> (length s mod 4)%nat <> 1%nat ->
  decodeQuads s = OtaCodec.decodeGroups s.
Proof.
  induction n as [|n IH]; intros s Hn Hm; [lia|].
  destruct s as [|a [|b [|c [|d s]]]]; try done.
  cbn [decodeQuads OtaCodec.decodeGroups]. change base64Value with OtaCodec.base64Value.
  destruct (Z.ltb_spec (OtaCodec.base64Value a) 0), (Z.ltb_spec (OtaCodec.base64Value b) 0),
    (Z.ltb_spec (OtaCodec.base64Value c) 0), (Z.ltb_spec (OtaCodec.base64Value d) 0); cbn [orb]; try done.
  simpl in Hn. rewrite IH; [|lia|].
  2: { intros E. apply Hm. simpl length. replace (S (S (S (S (length s))))) with (4 + length s)%nat by lia.
       by rewrite (Nat.Div0.add_mod 4), Nat.Div0.mod_same, Nat.add_0_l, Nat.Div0.mod_mod. }
  b64_sextet a. b64_sextet b. b64_sextet c. b64_sextet d.
  destruct (quad_bytes (OtaCodec.base64Value a) (OtaCodec.base64Value b) (OtaCodec.base64Value c)
    (OtaCodec.base64Value d)) as (F1 & F2 & F3); [lia..|]. by rewrite F1, F2, F3.
Qed.

Lemma decodedBytes_same n : (n mod 4)%nat <> 1%nat -> base64DecodedBytes n = decodedBytes n.
Proof.
  intros Hn. unfold base64DecodedBytes, decodedBytes. pose proof (Nat.mod_upper_bound n 4 ltac:(lia)).
  destruct (n mod 4)%nat as [|[|[|[|k]]]]; simpl; lia.
Qed.

(** The companion's decoder accepts exactly the canonical encodings. *)
Lemma decodeBase64Url_exact s cap b :
  decodeBase64Url s cap = Some b <-> s = base64url b /\ bytesOk b /\ (length b <= cap)%nat.
Proof.
  unfold decodeBase64Url. split.
  - destruct (Nat.eqb_spec (length s mod 4) 1) as [|Hm]; [done|].
    destruct (Nat.ltb_spec cap (base64DecodedBytes (length s))); [done|].
    rewrite (decodeQuads_same (S (length s))) by (done || lia).
    destruct (OtaCodec.decodeGroups s) as [out|] eqn:E; [|done]. simpl.
    destruct (Nat.eqb_spec (length out) (base64DecodedBytes (length s))); [|done]. intros [= <-].
    destruct (decodeGroups_sound (S (length s)) s out ltac:(lia) E). split_and!; auto. lia.
  - intros (-> & Hok & Hcap). destruct (base64url_length (S (length b)) b ltac:(lia)) as [El Hm].
    destruct (Nat.eqb_spec (length (base64url b) mod 4) 1); [done|].
    rewrite decodedBytes_same, El by done. destruct (Nat.ltb_spec cap (length b)); [lia|].
    rewrite (decodeQuads_same (S (length (base64url b)))) by (done || lia).
    rewrite (decodeGroups_encode (S (length b))) by (auto; lia). simpl. by rewrite Nat.eqb_refl.
Qed.

Lemma base64url_inj a b : bytesOk a -> bytesOk b -> base64url a = base64url b -> a = b.
Proof.
  intros Ha Hb E. pose proof (decodeGroups_encode (S (length a)) a ltac:(lia) Ha) as Da.
  pose proof (decodeGroups_encode (S (length b)) b ltac:(lia) Hb) as Db. rewrite E in Da. congruence.
Qed.

(** ** UTF-8 *)

(** The Unicode scalar values other than NUL. *)
Definition scalar (c : Z) : Prop := 0 < c < 0xd800 \/ 0xe000 <= c <= 0x10ffff.

(** The encoding of RFC 3629. *)
Definition utf8 (c : Z) : list Z :=
  if c <? 0x80 then [c]
  else if c <? 0x800 then [0xc0 + c / 64; 0x80 + c mod 64]
  else if c <? 0x10000 then [0xe0 + c / 4096; 0x80 + c / 64 mod 64; 0x80 + c mod 64]
  else [0xf0 + c / 262144; 0x80 + c / 4096 mod 64; 0x80 + c / 64 mod 64; 0x80 + c mod 64].

(** A continuation byte carries six bits. *)
Lemma continuation_byte next : isByte next ->
  (Z.land next 0xc0 =? 0x80) = (0x80 <=? next) && (next <=? 0xbf) /\
  (0x80 <= next <= 0xbf -> Z.land next 0x3f = next - 0x80).
Proof.
  intros H. split.
  - apply eqb_prop, (zrange_forall 256 (fun n => Bool.eqb (Z.land n 0xc0 =? 0x80)
      ((0x80 <=? n) && (n <=? 0xbf)))); [reflexivity|exact H].
  - intros R. change 0x3f with (Z.ones 6). rewrite Z.land_ones by done. change (2 ^ 6) with 64. lia.
Qed.

Lemma add_sextet codepoint next : 0 <= codepoint -> isByte next -> 0x80 <= next <= 0xbf ->
  Z.lor (Z.shiftl codepoint 6) (Z.land next 0x3f) = codepoint * 64 + (next - 0x80).
Proof.
  intros Hc Hn R. rewrite (proj2 (continuation_byte next Hn) R), Z.lor_comm, lor_shiftl_add by lia. lia.
Qed.

Lemma leadByte_bits first n bits minimum : leadByte first = Some (n, bits, minimum) ->
  (n = 1%nat /\ 0xc2 <= first <= 0xdf /\ bits = first - 0xc0 /\ minimum = 0x80) \/
  (n = 2%nat /\ 0xe0 <= first <= 0xef /\ bits = first - 0xe0 /\ minimum = 0x800) \/
  (n = 3%nat /\ 0xf0 <= first <= 0xf4 /\ bits = first - 0xf0 /\ minimum = 0x10000).
Proof.
  unfold leadByte. change 0x1f with (Z.ones 5). change 0x0f with (Z.ones 4). change 0x07 with (Z.ones 3).
  rewrite !Z.land_ones by done. change (2 ^ 5) with 32. change (2 ^ 4) with 16. change (2 ^ 3) with 8.
  destruct (Z.leb_spec 0xc2 first), (Z.leb_spec first 0xdf), (Z.leb_spec 0xe0 first),
    (Z.leb_spec first 0xef), (Z.leb_spec 0xf0 first), (Z.leb_spec first 0xf4); cbn [andb]; try lia;
    intros [= <- <- <-]; [left|right; left|right; right]; split_and!; lia.
Qed.

Ltac ztests :=
  repeat match goal with
  | |- context [?a <? ?b] => destruct (Z.ltb_spec a b); try lia
  | |- context [?a <=? ?b] => destruct (Z.leb_spec a b); try lia
  | |- context [?a =? ?b] => destruct (Z.eqb_spec a b); try lia
  end; cbn [andb orb negb].

(** One continuation byte is read. *)
Lemma continuation_step n codepoint next rest : 0 <= codepoint -> 0x80 <= next <= 0xbf ->
  continuationBytes (S n) codepoint (next :: rest) =
  continuationBytes n (codepoint * 64 + (next - 0x80)) rest.
Proof.
  intros Hc R. assert (Hn : isByte next) by (unfold isByte; lia). cbn [continuationBytes].
  rewrite (proj1 (continuation_byte next Hn)), add_sextet by done. by ztests.
Qed.

Lemma leadByte_1 first : 0xc2 <= first <= 0xdf -> leadByte first = Some (1%nat, first - 0xc0, 0x80).
Proof.
  intros R. unfold leadByte. change 0x1f with (Z.ones 5). rewrite Z.land_ones by done.
  change (2 ^ 5) with 32. ztests. repeat f_equal. lia.
Qed.
Lemma leadByte_2 first : 0xe0 <= first <= 0xef -> leadByte first = Some (2%nat, first - 0xe0, 0x800).
Proof.
  intros R. unfold leadByte. change 0x0f with (Z.ones 4). rewrite Z.land_ones by done.
  change (2 ^ 4) with 16. ztests. repeat f_equal. lia.
Qed.
Lemma leadByte_3 first : 0xf0 <= first <= 0xf4 -> leadByte first = Some (3%nat, first - 0xf0, 0x10000).
Proof.
  intros R. unfold leadByte. change 0x07 with (Z.ones 3). rewrite Z.land_ones by done.
  change (2 ^ 3) with 8. ztests. repeat f_equal. lia.
Qed.

(** One well-formed character at the front. *)
Lemma utf8_head f c rest : scalar c -> validUtf8Loop (S f) (utf8 c ++ rest) = validUtf8Loop f rest.
Proof.
  unfold scalar, utf8. intros H.
  destruct (Z.ltb_spec c 0x80); [|destruct (Z.ltb_spec c 0x800); [|destruct (Z.ltb_spec c 0x10000)]];
    cbn [app validUtf8Loop]; match goal with |- context [?x <=? 127] => destruct (Z.leb_spec x 127); try lia end.
  - by destruct (Z.eqb_spec c 0); [lia|].
  - rewrite leadByte_1, continuation_step by lia. cbn [continuationBytes]. by ztests.
  - rewrite leadByte_2, !continuation_step by lia. cbn [continuationBytes]. by ztests.
  - rewrite leadByte_3, !continuation_step by lia. cbn [continuationBytes]. by ztests.
Qed.

(** The continuation bytes read are in range and carry the code point. *)
Lemma continuation_inv n : forall codepoint s c rest, 0 <= codepoint -> bytesOk s ->
  continuationBytes n codepoint s = Some (c, rest) ->
  exists bs, s = bs ++ rest /\ length bs = n /\ Forall (fun b => 0x80 <= b <= 0xbf) bs /\
    c = fold_left (fun v b => v * 64 + (b - 0x80)) bs codepoint.
Proof.
  induction n as [|n IH]; intros codepoint s c rest Hc Hs E.
  - simpl in E. simplify_eq. by exists [].
  - destruct s as [|next s]; [done|]. inversion Hs as [|? ? Hn Hs']; subst.
    destruct (decide (0x80 <= next <= 0xbf)) as [R|R].
    + rewrite continuation_step in E by done.
      destruct (IH (codepoint * 64 + (next - 0x80)) s c rest ltac:(lia) Hs' E) as (bs & -> & <- & Hb & ->).
      exists (next :: bs). split_and!; auto.
    + exfalso. cbn [continuationBytes] in E. rewrite (proj1 (continuation_byte next Hn)) in E.
      destruct (Z.leb_spec 0x80 next), (Z.leb_spec next 0xbf); try lia; done.
Qed.

Lemma utf8_tail f s : bytesOk s -> s <> [] -> validUtf8Loop (S f) s = true ->
  exists c rest, scalar c /\ s = utf8 c ++ rest /\ validUtf8Loop f rest = true.
Proof.
  intros Hs Hne E. destruct s as [|first s]; [done|]. inversion Hs as [|? ? Hf Hs']; subst.
  cbn [validUtf8Loop] in E. destruct (Z.leb_spec first 0x7f).
  - destruct (Z.eqb_spec first 0); [done|]. exists first, s. unfold isByte in Hf.
    split_and!; [unfold scalar; lia| |done]. unfold utf8. by ztests.
  - destruct (leadByte first) as [[[n bits] minimum]|] eqn:El; [|done].
    destruct (continuationBytes n bits s) as [[c rest]|] eqn:Ec; [|done].
    destruct ((c <? minimum) || (0x10ffff <? c) || (0xd800 <=? c) && (c <=? 0xdfff)) eqn:Er; [done|].
    apply orb_false_iff in Er as [[Er1%Z.ltb_ge Er2%Z.ltb_ge]%orb_false_iff Er3].
    assert (Hsc : c < 0xd800 \/ 0xe000 <= c).
    { destruct (Z.leb_spec 0xd800 c), (Z.leb_spec c 0xdfff); try lia; done. }
    exists c, rest.
    apply leadByte_bits in El as [(-> & R & -> & ->)|[(-> & R & -> & ->)|(-> & R & -> & ->)]];
      apply continuation_inv in Ec as (bs & -> & Hl & Hb & Ecp); try done; try lia;
      (split; [unfold scalar; lia|split; [|done]]).
    + destruct bs as [|b1 [|]]; try done. inversion Hb as [|? ? K1 _]; subst.
      cbn [fold_left app] in *. unfold utf8. ztests. cbn [app]. repeat apply cons_congr; try done; lia.
    + destruct bs as [|b1 [|b2 [|]]]; try done. inversion Hb as [|? ? K1 Hb1]; inversion Hb1 as [|? ? K2 _]; subst.
      cbn [fold_left app] in *. unfold utf8. ztests. cbn [app]. repeat apply cons_congr; try done; lia.
    + destruct bs as [|b1 [|b2 [|b3 [|]]]]; try done.
      inversion Hb as [|? ? K1 Hb1]; inversion Hb1 as [|? ? K2 Hb2]; inversion Hb2 as [|? ? K3 _]; subst.
      cbn [fold_left app] in *. unfold utf8. ztests. cbn [app]. repeat apply cons_congr; try done; lia.
Qed.

Lemma utf8_length c : (0 < length (utf8 c))%nat.
Proof. unfold utf8. repeat destruct (_ <? _); simpl; lia. Qed.

Lemma validUtf8Loop_spec f : forall s, bytesOk s -> (length s <= f)%nat ->
  validUtf8Loop f s = true <-> exists cs, Forall scalar cs /\ s = concat (map utf8 cs).
Proof.
  induction f as [|f IH]; intros s Hs Hl.
  { destruct s; [|simpl in Hl; lia]. split; [intros _; by exists []|done]. }
  destruct (decide (s = [])) as [->|Hne]; [split; [intros _; by exists []|done]|]. split.
  - intros E. destruct (utf8_tail f s Hs Hne E) as (c & rest & Hc & -> & Er).
    apply Forall_app in Hs as [_ Hr]. rewrite length_app in Hl. pose proof (utf8_length c).
    destruct (proj1 (IH rest Hr ltac:(lia)) Er) as (cs & Hcs & ->).
    exists (c :: cs). split; [by constructor|done].
  - intros (cs & Hcs & ->). destruct cs as [|c cs]; [done|]. inversion Hcs; subst.
    cbn [map concat] in Hs, Hl |- *. apply Forall_app in Hs as [_ Hr]. rewrite length_app in Hl.
    pose proof (utf8_length c). rewrite utf8_head by done. apply IH; [done|lia|]. by exists cs.
Qed.

(** The UTF-8 test of the protocol accepts exactly the RFC 3629 encodings of
    sequences of Unicode scalar values other than NUL: no overlong form, no
    surrogate, nothing above U+10FFFF, no truncated character. *)
Theorem validUtf8_exact s : bytesOk s ->
  validUtf8 s = true <-> exists cs, Forall scalar cs /\ s = concat (map utf8 cs).
Proof. intros Hs. by apply validUtf8Loop_spec. Qed.

(** "A", e acute, the euro sign and an emoji. *)
Lemma validUtf8_exact_witness :
  bytesOk [65; 0xc3; 0xa9; 0xe2; 0x82; 0xac; 0xf0; 0x9f; 0xa6; 0x8a] /\
  exists cs, Forall scalar cs /\
    [65; 0xc3; 0xa9; 0xe2; 0x82; 0xac; 0xf0; 0x9f; 0xa6; 0x8a] = concat (map utf8 cs).
Proof.
  assert (Hs : bytesOk [65; 0xc3; 0xa9; 0xe2; 0x82; 0xac; 0xf0; 0x9f; 0xa6; 0x8a]) by by apply allByte_literal.
  split; [exact Hs|]. by apply (proj1 (validUtf8_exact _ Hs)).
Defined.
