(* ===== verification/LengthFrame.v ===== *)
(** * Length-prefixed frames (src/src/kitsu_companion_protocol.h, .cpp)

    [LengthFrameParser] reassembles one frame from BLE writes of any size into a
    buffer its caller owns; [encodeLengthFrame] is the sender's side. *)

From S2P Require Import Prelude CompanionText CompanionTextFacts.

Definition kFrameHeaderBytes : nat := 4.
Definition kMaximumFrameBytes : Z := 16 * 1024.
Definition kMaximumHandshakeFrameBytes : Z := 1024.
Definition kFrameAssemblyTimeoutMs : Z := 10000.

Inductive FrameResult := NeedMore | Ready | FrInvalidArgument | EmptyFrame | Oversize | TimedOut
  | PipelinedFrame | FrOutputTooSmall.

#[export] Instance FrameResult_eq_dec : EqDecision FrameResult.
Proof. solve_decision. Defined.

Definition frameResultName (r : FrameResult) : string :=
  match r with
  | NeedMore => "need_more"
  | Ready => "ready"
  | FrInvalidArgument => "invalid_argument"
  | EmptyFrame => "empty_frame"
  | Oversize => "oversize"
  | TimedOut => "timed_out"
  | PipelinedFrame => "pipelined_frame"
  | FrOutputTooSmall => "output_too_small"
  end.

(** ** The parser *)

(** The members; [storage_] is the caller's buffer, [None] before [begin]. *)
Record Parser := mkParser {
  storage_ : option (list Z);
  storageBytes_ : Z;
  maximumFrameBytes_ : Z;
  timeoutMs_ : Z;
  startedAt_ : Z;
  header_ : list Z;
  headerBytes_ : nat;
  expectedBytes_ : Z;
  receivedBytes_ : Z;
  started_ : bool;
  ready_ : bool;
}.

Definition parser0 : Parser := mkParser None 0 0 0 0 (replicate kFrameHeaderBytes 0) 0 0 0 false false.

Definition reset (p : Parser) : Parser :=
  mkParser (storage_ p) (storageBytes_ p) (maximumFrameBytes_ p) (timeoutMs_ p) 0
    (replicate kFrameHeaderBytes 0) 0 0 0 false false.

Definition set_storage (s : option (list Z)) (p : Parser) : Parser :=
  mkParser s (storageBytes_ p) (maximumFrameBytes_ p) (timeoutMs_ p) (startedAt_ p) (header_ p)
    (headerBytes_ p) (expectedBytes_ p) (receivedBytes_ p) (started_ p) (ready_ p).
Definition set_started (now : Z) (p : Parser) : Parser :=
  mkParser (storage_ p) (storageBytes_ p) (maximumFrameBytes_ p) (timeoutMs_ p) now (header_ p)
    (headerBytes_ p) (expectedBytes_ p) (receivedBytes_ p) true (ready_ p).
Definition set_header (h : list Z) (n : nat) (p : Parser) : Parser :=
  mkParser (storage_ p) (storageBytes_ p) (maximumFrameBytes_ p) (timeoutMs_ p) (startedAt_ p) h n
    (expectedBytes_ p) (receivedBytes_ p) (started_ p) (ready_ p).
Definition set_expected (n : Z) (p : Parser) : Parser :=
  mkParser (storage_ p) (storageBytes_ p) (maximumFrameBytes_ p) (timeoutMs_ p) (startedAt_ p)
    (header_ p) (headerBytes_ p) n (receivedBytes_ p) (started_ p) (ready_ p).
Definition set_received (s : list Z) (n : Z) (p : Parser) : Parser :=
  mkParser (Some s) (storageBytes_ p) (maximumFrameBytes_ p) (timeoutMs_ p) (startedAt_ p)
    (header_ p) (headerBytes_ p) (expectedBytes_ p) n (started_ p) (ready_ p).
Definition set_ready (p : Parser) : Parser :=
  mkParser (storage_ p) (storageBytes_ p) (maximumFrameBytes_ p) (timeoutMs_ p) (startedAt_ p)
    (header_ p) (headerBytes_ p) (expectedBytes_ p) (receivedBytes_ p) (started_ p) true.

(** The configuration written by [begin] after its [reset]. *)
Definition configure (storage : list Z) (storageBytes maximumFrameBytes timeoutMs : Z) (p : Parser)
  : Parser :=
  mkParser (Some storage) storageBytes maximumFrameBytes timeoutMs (startedAt_ p) (header_ p)
    (headerBytes_ p) (expectedBytes_ p) (receivedBytes_ p) (started_ p) (ready_ p).

Definition begin (storage : option (list Z)) (storageBytes maximumFrameBytes timeoutMs : Z)
    (p : Parser) : bool * Parser :=
  let p := reset p in
  match storage with
  | Some buffer =>
      if (storageBytes =? 0) || (maximumFrameBytes =? 0) || (storageBytes <? maximumFrameBytes) ||
         (kMaximumFrameBytes <? maximumFrameBytes) || (timeoutMs =? 0)
      then (false, set_storage None p)
      else (true, configure buffer storageBytes maximumFrameBytes timeoutMs p)
  | None => (false, set_storage None p)
  end.

(** [static_cast<uint32_t>(now - started) > timeout] *)
Definition deadlineExpired (now started timeout : Z) : bool := timeout <? u32 (now - started).

Definition poll (nowMillis : Z) (p : Parser) : FrameResult * Parser :=
  if ready_ p then (Ready, p)
  else if started_ p && deadlineExpired nowMillis (startedAt_ p) (timeoutMs_ p)
  then (TimedOut, reset p)
  else (NeedMore, p).

(** [while (headerBytes_ < 4 && cursor < inputBytes) header_[headerBytes_++] = input[cursor++]] *)
Fixpoint fillHeader (header : list Z) (headerBytes : nat) (input : list Z) : list Z * nat * list Z :=
  match input with
  | [] => (header, headerBytes, [])
  | b :: rest =>
      if (headerBytes <? kFrameHeaderBytes)%nat
      then fillHeader (<[headerBytes := b]> header) (S headerBytes) rest
      else (header, headerBytes, input)
  end.

(** [memcpy(storage + offset, bytes)] *)
Definition storeAt (storage : list Z) (offset : nat) (bytes : list Z) : list Z :=
  take offset storage ++ bytes ++ drop (offset + length bytes) storage.

(** The part of [feed] after the header loop: [input] is what the loop left. *)
Definition feedBody (storage input : list Z) (p : Parser) : FrameResult * Parser :=
  let remaining := expectedBytes_ p - receivedBytes_ p in
  let copyBytes := Z.min (Z.of_nat (length input)) remaining in
  let copied := take (Z.to_nat copyBytes) input in
  let p := if copyBytes =? 0 then p
           else set_received (storeAt storage (Z.to_nat (receivedBytes_ p)) copied)
                  (receivedBytes_ p + copyBytes) p in
  match drop (Z.to_nat copyBytes) input with
  | _ :: _ => (PipelinedFrame, reset p)
  | [] => if receivedBytes_ p =? expectedBytes_ p then (Ready, set_ready p) else (NeedMore, p)
  end.

(** [input] is [None] for a null pointer with a non-zero size. *)
Definition feed (input : option (list Z)) (nowMillis : Z) (p : Parser) : FrameResult * Parser :=
  match storage_ p, input with
  | None, _ | _, None => (FrInvalidArgument, p)
  | Some storage, Some input =>
      if (length input =? 0)%nat then poll nowMillis p
      else if ready_ p then (PipelinedFrame, reset p)
      else if started_ p && deadlineExpired nowMillis (startedAt_ p) (timeoutMs_ p)
      then (TimedOut, reset p)
      else
        let p := if started_ p then p else set_started nowMillis p in
        let '(header, headerBytes, input) := fillHeader (header_ p) (headerBytes_ p) input in
        let p := set_header header headerBytes p in
        if (headerBytes =? kFrameHeaderBytes)%nat && (expectedBytes_ p =? 0) then
          let p := set_expected (getU32Be header) p in
          if expectedBytes_ p =? 0 then (EmptyFrame, reset p)
          else if (maximumFrameBytes_ p <? expectedBytes_ p) || (storageBytes_ p <? expectedBytes_ p)
          then (Oversize, reset p)
          else feedBody storage input p
        else if (headerBytes <? kFrameHeaderBytes)%nat then (NeedMore, p)
        else feedBody storage input p
  end.

(** The frame once it is complete. *)
Definition frame (p : Parser) : option (list Z) :=
  if negb (ready_ p) then None
  else storage ← storage_ p; Some (take (Z.to_nat (receivedBytes_ p)) storage).

Definition consume (p : Parser) : Parser := reset p.

(** [payload] is [None] when null; the output buffer is not null. *)
Definition encodeLengthFrame (payload : option (list Z)) (outputCapacity : Z)
  : FrameResult * list Z :=
  match payload with
  | None => (FrInvalidArgument, [])
  | Some payload =>
      let payloadBytes := Z.of_nat (length payload) in
      if payloadBytes =? 0 then (EmptyFrame, [])
      else if (kMaximumFrameBytes <? payloadBytes) || (UINT32_MAX <? payloadBytes) then (Oversize, [])
      else if outputCapacity <? Z.of_nat kFrameHeaderBytes + payloadBytes then (FrOutputTooSmall, [])
      else (Ready, putU32Be (u32 payloadBytes) ++ payload)
  end.
