(* ===== verification/LengthFrameFacts.v ===== *)
(** * The frame parser refines an accumulator of bytes

    Whatever the sizes of the writes, the parser behaves as if it kept the list
    of the bytes received since the frame started and classified that list. *)

From S2P Require Import Prelude CompanionText CompanionTextFacts LengthFrame.

(** ** The specification *)

(** What a received byte string amounts to. *)
Definition classify (maximum : Z) (s : list Z) : FrameResult :=
  if (length s <? kFrameHeaderBytes)%nat then NeedMore
  else
    let n := getU32Be s in
    let body := Z.of_nat (length s) - 4 in
    if n =? 0 then EmptyFrame
    else if maximum <? n then Oversize
    else if body <? n then NeedMore
    else if body =? n then Ready else PipelinedFrame.

(** The bytes received since the frame started, and when it started. *)
Record Acc := mkAcc { acc_bytes : list Z; acc_start : Z }.
Definition acc0 : Acc := mkAcc [] 0.

Definition accComplete (maximum : Z) (a : Acc) : bool :=
  bool_decide (classify maximum (acc_bytes a) = Ready).

Definition accExpired (timeout now : Z) (a : Acc) : bool :=
  negb (bool_decide (acc_bytes a = [])) && deadlineExpired now (acc_start a) timeout.

Definition accPoll (maximum timeout now : Z) (a : Acc) : FrameResult * Acc :=
  if accComplete maximum a then (Ready, a)
  else if accExpired timeout now a then (TimedOut, acc0) else (NeedMore, a).

Definition accFeed (maximum timeout : Z) (input : list Z) (now : Z) (a : Acc) : FrameResult * Acc :=
  match input with
  | [] => accPoll maximum timeout now a
  | _ =>
      if accComplete maximum a then (PipelinedFrame, acc0)
      else if accExpired timeout now a then (TimedOut, acc0)
      else
        let bytes := acc_bytes a ++ input in
        match classify maximum bytes with
        | NeedMore => (NeedMore, mkAcc bytes (if bool_decide (acc_bytes a = []) then now else acc_start a))
        | Ready => (Ready, mkAcc bytes (if bool_decide (acc_bytes a = []) then now else acc_start a))
        | r => (r, acc0)
        end
  end.

(** ** The abstraction relation *)

(** [Configured]: [begin] succeeded with a buffer of [storageBytes_] bytes. *)
Record Configured (p : Parser) (buffer : list Z) (maximum timeout : Z) : Prop := {
  cf_storage : storage_ p = Some buffer;
  cf_bytes : storageBytes_ p = Z.of_nat (length buffer);
  cf_maximum : maximumFrameBytes_ p = maximum;
  cf_room : 0 < maximum <= Z.of_nat (length buffer);
  cf_limit : maximum <= kMaximumFrameBytes;
  cf_timeout : timeoutMs_ p = timeout;
}.

(** The header buffer holding the first bytes of [s]. *)
Definition headerOf (s : list Z) : list Z :=
  take kFrameHeaderBytes s ++ replicate (kFrameHeaderBytes - length s) 0.

(** The members stand for the bytes [s] of an unfinished or complete frame. *)
Record Holds (p : Parser) (maximum timeout : Z) (a : Acc) : Prop := {
  h_buffer : exists buffer, Configured p buffer maximum timeout /\
    take (length (acc_bytes a) - kFrameHeaderBytes) buffer = drop kFrameHeaderBytes (acc_bytes a);
  h_start : started_ p = negb (bool_decide (acc_bytes a = [])) /\ startedAt_ p = acc_start a;
  h_header : header_ p = headerOf (acc_bytes a) /\
    headerBytes_ p = Nat.min kFrameHeaderBytes (length (acc_bytes a));
  h_expected : expectedBytes_ p =
    (if (length (acc_bytes a) <? kFrameHeaderBytes)%nat then 0 else getU32Be (acc_bytes a));
  h_received : receivedBytes_ p = Z.of_nat (length (acc_bytes a) - kFrameHeaderBytes);
  h_class : classify maximum (acc_bytes a) = NeedMore \/ classify maximum (acc_bytes a) = Ready;
  h_ready : ready_ p = accComplete maximum a;
  h_idle : acc_bytes a = [] -> acc_start a = 0;
}.

Lemma holds_reset p buffer maximum timeout :
  Configured p buffer maximum timeout -> Holds (reset p) maximum timeout acc0.
Proof.
  intros []. split; try done.
  - exists buffer. split; [by split|by destruct buffer].
  - by left.
Qed.

(** A successful [begin] is the empty accumulator. *)
Lemma begin_holds buffer maximum timeout p p' :
  begin (Some buffer) (Z.of_nat (length buffer)) maximum timeout p = (true, p') ->
  0 <= maximum -> Holds p' maximum timeout acc0.
Proof.
  unfold begin. destruct (_ || _) eqn:E; [done|]. intros [= <-] Hm.
  rewrite !orb_false_iff, !Z.eqb_neq, !Z.ltb_ge in E. destruct E as ((((E1 & E2) & E3) & E4) & E5).
  split; try done.
  - exists buffer. split; [|by destruct buffer]. split; try done; simpl; lia.
  - by left.
Qed.

Lemma fillHeader_spec input : forall pre, (length pre <= kFrameHeaderBytes)%nat ->
  fillHeader (headerOf pre) (length pre) input =
    (headerOf (pre ++ input), Nat.min kFrameHeaderBytes (length (pre ++ input)),
     drop (kFrameHeaderBytes - length pre) input).
Proof.
  induction input as [|b input IH]; intros pre Hp; cbn [fillHeader].
  { rewrite app_nil_r, drop_nil. by rewrite Nat.min_r. }
  destruct (Nat.ltb_spec (length pre) kFrameHeaderBytes) as [Hlt|Hge].
  - assert (E : <[length pre := b]> (headerOf pre) = headerOf (pre ++ [b])).
    { unfold headerOf. rewrite !take_ge by (rewrite ?length_app; simpl; lia).
      rewrite insert_app_r_alt, Nat.sub_diag by lia. rewrite length_app. cbn [length].
      destruct (kFrameHeaderBytes - length pre)%nat as [|k] eqn:Ek; [lia|].
      replace (kFrameHeaderBytes - (length pre + 1))%nat with k by lia.
      simpl. by rewrite <- app_assoc. }
    specialize (IH (pre ++ [b]) ltac:(rewrite length_app; simpl; lia)).
    rewrite E. rewrite length_app in IH. cbn [length] in IH. rewrite Nat.add_1_r in IH. rewrite IH.
    rewrite <- app_assoc. cbn [app]. f_equal.
    by replace (kFrameHeaderBytes - length pre)%nat with (S (kFrameHeaderBytes - S (length pre))) by lia.
  - assert (El : length pre = kFrameHeaderBytes) by lia. rewrite El, Nat.sub_diag, drop_0.
    unfold headerOf. rewrite take_app_le, length_app by lia.
    rewrite El. rewrite Nat.min_l by lia. do 3 f_equal.
Qed.

Lemma storeAt_length buffer offset bytes : (offset + length bytes <= length buffer)%nat ->
  length (storeAt buffer offset bytes) = length buffer.
Proof. intros H. unfold storeAt. rewrite !length_app, length_take, length_drop. lia. Qed.

Lemma storeAt_prefix buffer offset bytes body : (offset + length bytes <= length buffer)%nat ->
  take offset buffer = body -> take (offset + length bytes) (storeAt buffer offset bytes) = body ++ bytes.
Proof.
  intros H <-. unfold storeAt. rewrite app_assoc, take_app_le; [|rewrite length_app, length_take; lia].
  apply take_ge. rewrite length_app, length_take. lia.
Qed.

(** The body copy: [body] is in the buffer already. *)
Lemma feedBody_spec p buffer body input : storage_ p = Some buffer ->
  receivedBytes_ p = Z.of_nat (length body) -> take (length body) buffer = body ->
  Z.of_nat (length body) <= expectedBytes_ p <= Z.of_nat (length buffer) ->
  let total := Z.of_nat (length (body ++ input)) in
  (expectedBytes_ p < total -> exists buffer', length buffer' = length buffer /\
    feedBody buffer input p = (PipelinedFrame, reset (set_storage (Some buffer') p))) /\
  (total <= expectedBytes_ p -> exists buffer', length buffer' = length buffer /\
    take (length (body ++ input)) buffer' = body ++ input /\
    feedBody buffer input p =
      (if total =? expectedBytes_ p then (Ready, set_ready (set_received buffer' total p))
       else (NeedMore, set_received buffer' total p))).
Proof.
  intros Hs Hr Hb He total. unfold total. rewrite length_app, Nat2Z.inj_add. unfold feedBody. rewrite Hr. split.
  - intros Hbig. rewrite Z.min_r by lia.
    set (n := Z.to_nat (expectedBytes_ p - Z.of_nat (length body))).
    assert (Hd : exists b rest, drop n input = b :: rest).
    { destruct (drop n input) eqn:E; [|eauto]. apply (f_equal length) in E.
      rewrite length_drop in E. simpl in E. lia. }
    destruct Hd as (b & rest & ->).
    destruct (Z.eqb_spec (expectedBytes_ p - Z.of_nat (length body)) 0) as [_|_].
    + exists buffer. split; [done|]. by destruct p; simpl in *; subst.
    + exists (storeAt buffer (Z.to_nat (Z.of_nat (length body))) (take n input)). split; [|done].
      apply storeAt_length. rewrite length_take. lia.
  - intros Hfit. rewrite Z.min_l, Nat2Z.id by lia. rewrite drop_all, take_ge by lia.
    destruct (Z.eqb_spec (Z.of_nat (length input)) 0) as [E0|_].
    + destruct input; [|simpl in E0; lia]. rewrite app_nil_r, Nat.add_0_r, Z.add_0_r. exists buffer. split_and!; [done..|].
      rewrite Hr. destruct (_ =? _); by destruct p; simpl in *; subst.
    + exists (storeAt buffer (Z.to_nat (Z.of_nat (length body))) input). rewrite Nat2Z.id.
      split_and!; [apply storeAt_length; lia|apply storeAt_prefix; [lia|done]|]. simpl. done.
Qed.

Lemma fillHeader_acc s input :
  fillHeader (headerOf s) (Nat.min kFrameHeaderBytes (length s)) input =
    (headerOf (s ++ input), Nat.min kFrameHeaderBytes (length (s ++ input)),
     drop (kFrameHeaderBytes - length s) input).
Proof.
  destruct (Nat.le_ge_cases (length s) kFrameHeaderBytes) as [Hle|Hge].
  - rewrite Nat.min_r by done. by apply fillHeader_spec.
  - pose proof (fillHeader_spec input (take kFrameHeaderBytes s)) as E.
    assert (El : length (take kFrameHeaderBytes s) = kFrameHeaderBytes) by (rewrite length_take; lia).
    assert (Eh : forall r, headerOf (take kFrameHeaderBytes s ++ r) = headerOf (s ++ r)).
    { intros r. unfold headerOf. rewrite !take_app_le, take_take, !length_app by lia.
      rewrite Nat.min_id. f_equal. f_equal. lia. }
    pose proof (Eh []) as E0. rewrite !app_nil_r in E0. rewrite E0, Eh in E.
    rewrite length_app, El, Nat.sub_diag in E.
    rewrite length_app, !Nat.min_l by lia. rewrite Nat.min_l in E by lia.
    replace (kFrameHeaderBytes - length s)%nat with 0%nat by lia. apply E. lia.
Qed.

Lemma headerOf_value s : (kFrameHeaderBytes <= length s)%nat -> getU32Be (headerOf s) = getU32Be s.
Proof.
  intros Hs. unfold headerOf. replace (kFrameHeaderBytes - length s)%nat with 0%nat by lia.
  rewrite app_nil_r. rewrite <- (take_drop kFrameHeaderBytes s) at 2.
  symmetry. apply getU32Be_app. rewrite length_take. unfold kFrameHeaderBytes in *. lia.
Qed.

Lemma complete_class maximum a :
  accComplete maximum a = false -> classify maximum (acc_bytes a) = NeedMore \/
    classify maximum (acc_bytes a) = Ready -> classify maximum (acc_bytes a) = NeedMore.
Proof. unfold accComplete. intros E [|H]; [done|]. by rewrite bool_decide_eq_true_2 in E. Qed.

Lemma classify_body maximum s : (kFrameHeaderBytes <= length s)%nat -> 0 < getU32Be s <= maximum ->
  classify maximum s =
    if Z.of_nat (length s) - 4 <? getU32Be s then NeedMore
    else if Z.of_nat (length s) - 4 =? getU32Be s then Ready else PipelinedFrame.
Proof.
  intros Hl Hn. unfold classify. rewrite (proj2 (Nat.ltb_ge _ _)) by done.
  destruct (Z.eqb_spec (getU32Be s) 0); [lia|]. by destruct (Z.ltb_spec maximum (getU32Be s)); [lia|].
Qed.

(** The members after the header is complete. *)
Lemma holds_body p buffer maximum timeout s t :
  Configured p buffer maximum timeout -> started_ p = true -> startedAt_ p = t ->
  header_ p = headerOf s -> headerBytes_ p = kFrameHeaderBytes -> expectedBytes_ p = getU32Be s ->
  receivedBytes_ p = Z.of_nat (length s) - 4 -> (kFrameHeaderBytes <= length s)%nat ->
  take (length s - kFrameHeaderBytes) buffer = drop kFrameHeaderBytes s ->
  0 < getU32Be s <= maximum -> Z.of_nat (length s) - 4 <= getU32Be s ->
  ready_ p = (Z.of_nat (length s) - 4 =? getU32Be s) -> Holds p maximum timeout (mkAcc s t).
Proof.
  intros Hc Hst Hat Hh Hhb He Hr Hl Hb Hn Hle Hrd.
  assert (Ec := classify_body maximum s Hl Hn).
  assert (Hne : s <> []) by (intros ->; simpl in Hl; unfold kFrameHeaderBytes in Hl; lia).
  split; cbn [acc_bytes acc_start].
  - by exists buffer.
  - split; [by rewrite bool_decide_eq_false_2|done].
  - split; [done|]. rewrite Nat.min_l by done. done.
  - rewrite (proj2 (Nat.ltb_ge _ _)) by done. done.
  - rewrite Hr. unfold kFrameHeaderBytes in *. lia.
  - rewrite Ec. destruct (Z.ltb_spec (Z.of_nat (length s) - 4) (getU32Be s)); [by left|].
    destruct (Z.eqb_spec (Z.of_nat (length s) - 4) (getU32Be s)); [by right|lia].
  - rewrite Hrd. unfold accComplete. simpl. rewrite Ec.
    destruct (Z.ltb_spec (Z.of_nat (length s) - 4) (getU32Be s)),
      (Z.eqb_spec (Z.of_nat (length s) - 4) (getU32Be s)); try lia; symmetry;
      [by apply bool_decide_eq_false_2|by apply bool_decide_eq_true_2].
  - done.
Qed.

(** The body copy on the abstraction: [s] is everything received. *)
Lemma feedBody_holds p buffer maximum timeout body input s t :
  Configured p buffer maximum timeout -> started_ p = true -> startedAt_ p = t -> ready_ p = false ->
  header_ p = headerOf s -> headerBytes_ p = kFrameHeaderBytes ->
  expectedBytes_ p = getU32Be s -> 0 < getU32Be s <= maximum ->
  body ++ input = drop kFrameHeaderBytes s -> (kFrameHeaderBytes <= length s)%nat ->
  receivedBytes_ p = Z.of_nat (length body) -> take (length body) buffer = body ->
  Z.of_nat (length body) <= getU32Be s ->
  fst (feedBody buffer input p) = classify maximum s /\
  Holds (snd (feedBody buffer input p)) maximum timeout
    (match classify maximum s with NeedMore | Ready => mkAcc s t | _ => acc0 end).
Proof.
  intros Hc Hst Hat Hrd Hh Hhb He Hn Hbi Hl Hr Hb Hle.
  assert (Hroom := cf_room _ _ _ _ Hc).
  destruct (feedBody_spec p buffer body input (cf_storage _ _ _ _ Hc) Hr Hb ltac:(lia)) as [Hbig Hfit].
  assert (El : Z.of_nat (length (body ++ input)) = Z.of_nat (length s) - 4).
  { rewrite Hbi, length_drop. unfold kFrameHeaderBytes in *. lia. }
  rewrite El, He in Hbig, Hfit. rewrite (classify_body maximum s Hl Hn).
  assert (Hcfg : forall buffer', length buffer' = length buffer ->
    Configured (set_received buffer' (Z.of_nat (length s) - 4) p) buffer' maximum timeout).
  { intros buffer' Hlb. destruct Hc. split; simpl; try done; lia. }
  destruct (Z.ltb_spec (Z.of_nat (length s) - 4) (getU32Be s)) as [Hlt|Hge].
  - destruct (Hfit ltac:(lia)) as (buffer' & Hlb & Ht & ->).
    destruct (Z.eqb_spec (Z.of_nat (length s) - 4) (getU32Be s)); [lia|]. split; [done|].
    eapply holds_body; eauto; try done.
    + rewrite <- Hbi, <- Ht. f_equal. apply Nat2Z.inj. rewrite El. unfold kFrameHeaderBytes in *. lia.
    + lia.
    + simpl. rewrite Hrd. symmetry. apply Z.eqb_neq. lia.
  - destruct (Z.eqb_spec (Z.of_nat (length s) - 4) (getU32Be s)) as [Heq|Hne].
    + destruct (Hfit ltac:(lia)) as (buffer' & Hlb & Ht & ->).
      split; [done|].
      assert (Hcfg' := Hcfg buffer' Hlb). eapply holds_body; eauto; try done.
      * destruct Hcfg'. by split.
      * rewrite <- Hbi, <- Ht. f_equal. apply Nat2Z.inj. rewrite El. unfold kFrameHeaderBytes in *. lia.
      * lia.
      * simpl. symmetry. by apply Z.eqb_eq.
    + destruct (Hbig ltac:(lia)) as (buffer' & Hlb & ->). split; [done|].
      apply holds_reset with buffer'. destruct Hc. split; simpl; try done; lia.
Qed.

Lemma holds_poll p maximum timeout a now : Holds p maximum timeout a ->
  fst (poll now p) = fst (accPoll maximum timeout now a) /\
  Holds (snd (poll now p)) maximum timeout (snd (accPoll maximum timeout now a)).
Proof.
  intros Hp. assert (Hp' := Hp). destruct Hp' as [(buffer & Hc & _) [Hst Hat] _ _ _ _ Hrd _].
  unfold poll, accPoll, accExpired. rewrite Hrd. destruct (accComplete maximum a); [done|].
  rewrite Hst, Hat, (cf_timeout _ _ _ _ Hc). destruct (negb _ && _); [|done].
  split; [done|]. by apply holds_reset with buffer.
Qed.

(** [feed] after the header loop: [p1] holds [s], the write brought [input]. *)
Lemma feed_received p1 buffer maximum timeout s input t :
  Configured p1 buffer maximum timeout -> started_ p1 = true -> startedAt_ p1 = t -> ready_ p1 = false ->
  expectedBytes_ p1 = (if (length s <? kFrameHeaderBytes)%nat then 0 else getU32Be s) ->
  receivedBytes_ p1 = Z.of_nat (length s - kFrameHeaderBytes) ->
  take (length s - kFrameHeaderBytes) buffer = drop kFrameHeaderBytes s ->
  classify maximum s = NeedMore -> input <> [] -> s ++ input <> [] ->
  let s' := s ++ input in
  let p2 := set_header (headerOf s') (Nat.min kFrameHeaderBytes (length s')) p1 in
  let rest := drop (kFrameHeaderBytes - length s) input in
  let r :=
    if (Nat.min kFrameHeaderBytes (length s') =? kFrameHeaderBytes)%nat && (expectedBytes_ p2 =? 0) then
      let p3 := set_expected (getU32Be (headerOf s')) p2 in
      if expectedBytes_ p3 =? 0 then (EmptyFrame, reset p3)
      else if (maximumFrameBytes_ p3 <? expectedBytes_ p3) || (storageBytes_ p3 <? expectedBytes_ p3)
      then (Oversize, reset p3)
      else feedBody buffer rest p3
    else if (Nat.min kFrameHeaderBytes (length s') <? kFrameHeaderBytes)%nat then (NeedMore, p2)
    else feedBody buffer rest p2 in
  let q := match classify maximum s' with
           | NeedMore => (NeedMore, mkAcc s' t) | Ready => (Ready, mkAcc s' t) | r => (r, acc0) end in
  fst r = fst q /\ Holds (snd r) maximum timeout (snd q).
Proof.
  intros Hc Hst Hat Hrd He Hr Hb Hcl Hne Hne' s' p2 rest r q.
  assert (Hl' : length s' = (length s + length input)%nat) by apply length_app.
  assert (Hroom := cf_room _ _ _ _ Hc).
  assert (Hc2 : Configured p2 buffer maximum timeout) by by destruct Hc.
  assert (Hbody : drop kFrameHeaderBytes s ++ rest = drop kFrameHeaderBytes s').
  { unfold s', rest. by rewrite drop_app. }
  assert (Hq : fst q = classify maximum s' /\ snd q = match classify maximum s' with NeedMore | Ready => mkAcc s' t | _ => acc0 end).
  { unfold q. by destruct (classify maximum s'). }
  destruct Hq as [-> ->]. unfold r.
  destruct (Nat.lt_ge_cases (length s') kFrameHeaderBytes) as [Hshort|Hlong].
  - rewrite Nat.min_r by lia. destruct (Nat.eqb_spec (length s') kFrameHeaderBytes); [lia|]. cbn [andb].
    assert (Ec : classify maximum s' = NeedMore) by (unfold classify; by rewrite (proj2 (Nat.ltb_lt _ _))).
    rewrite Ec, (proj2 (Nat.ltb_lt _ _)) by done. split; [done|]. cbn [snd].
    split; cbn [acc_bytes acc_start].
    + exists buffer. split; [done|]. rewrite drop_ge by lia.
      by replace (length s' - kFrameHeaderBytes)%nat with 0%nat by lia.
    + by rewrite bool_decide_eq_false_2.
    + by split.
    + rewrite (proj2 (Nat.ltb_lt _ _)) by done.
      change (expectedBytes_ p2) with (expectedBytes_ p1). rewrite He.
      by rewrite (proj2 (Nat.ltb_lt _ _)) by lia.
    + change (receivedBytes_ p2) with (receivedBytes_ p1). rewrite Hr. lia.
    + by left.
    + change (ready_ p2) with (ready_ p1). rewrite Hrd. unfold accComplete. cbn [acc_bytes]. rewrite Ec.
      by rewrite bool_decide_eq_false_2.
    + done.
  - rewrite Nat.min_l, Nat.eqb_refl, Nat.ltb_irrefl by done. cbn [andb].
    rewrite headerOf_value by done. change (expectedBytes_ p2) with (expectedBytes_ p1). rewrite He.
    destruct (Nat.ltb_spec (length s) kFrameHeaderBytes) as [Hs|Hs].
    + rewrite Z.eqb_refl. cbv zeta. change (expectedBytes_ (set_expected ?x p2)) with x.
      change (maximumFrameBytes_ (set_expected ?x p2)) with (maximumFrameBytes_ p1).
      change (storageBytes_ (set_expected ?x p2)) with (storageBytes_ p1).
      rewrite (cf_maximum _ _ _ _ Hc), (cf_bytes _ _ _ _ Hc).
      assert (Hc3 : Configured (set_expected (getU32Be s') p2) buffer maximum timeout) by by destruct Hc.
      assert (Hz := holds_reset _ _ _ _ Hc3).
      assert (Ec : classify maximum s' = if getU32Be s' =? 0 then EmptyFrame
        else if maximum <? getU32Be s' then Oversize else classify maximum s').
      { unfold classify. rewrite (proj2 (Nat.ltb_ge _ _)) by done.
        destruct (getU32Be s' =? 0); [done|]. by destruct (maximum <? getU32Be s'). }
      destruct (Z.eqb_spec (getU32Be s') 0); [by rewrite Ec|].
      destruct (Z.ltb_spec maximum (getU32Be s')); [by rewrite Ec|]. clear Ec.
      destruct (Z.ltb_spec (Z.of_nat (length buffer)) (getU32Be s')); [lia|]. cbn [orb].
      pose proof (getU32Be_range s').
      apply feedBody_holds with (body := drop kFrameHeaderBytes s); try done; try lia.
      * change (Nat.min kFrameHeaderBytes (length s') = kFrameHeaderBytes). by apply Nat.min_l.
      * change (receivedBytes_ p1 = Z.of_nat (length (drop kFrameHeaderBytes s))).
        by rewrite Hr, length_drop.
      * by rewrite length_drop.
      * rewrite length_drop. lia.
    + assert (Ev : getU32Be s' = getU32Be s) by by apply getU32Be_app.
      pose proof (getU32Be_range s).
      unfold classify in Hcl. rewrite (proj2 (Nat.ltb_ge _ _)) in Hcl by done.
      destruct (Z.eqb_spec (getU32Be s) 0); [done|]. destruct (Z.ltb_spec maximum (getU32Be s)); [done|].
      destruct (Z.ltb_spec (Z.of_nat (length s) - 4) (getU32Be s));
        [|by destruct (_ =? _) in Hcl].
      apply feedBody_holds with (body := drop kFrameHeaderBytes s); try done; try lia.
      * change (Nat.min kFrameHeaderBytes (length s') = kFrameHeaderBytes). by apply Nat.min_l.
      * change (expectedBytes_ p1 = getU32Be s'). rewrite He, Ev.
        by destruct (Nat.ltb_spec (length s) kFrameHeaderBytes); [lia|].
      * change (receivedBytes_ p1 = Z.of_nat (length (drop kFrameHeaderBytes s))).
        by rewrite Hr, length_drop.
      * by rewrite length_drop.
      * rewrite length_drop. unfold kFrameHeaderBytes in *. lia.
Qed.

(** C35: whatever the sizes of the writes and the times they arrive at, the parser
    returns what the byte accumulator returns, and stands for the accumulator
    after it: a frame is classified by its bytes alone, every error and every
    expired deadline starts afresh, and no byte is stored outside the buffer. *)
Theorem feed_refines p maximum timeout a input now : Holds p maximum timeout a ->
  fst (feed (Some input) now p) = fst (accFeed maximum timeout input now a) /\
  Holds (snd (feed (Some input) now p)) maximum timeout (snd (accFeed maximum timeout input now a)).
Proof.
  intros Hp. assert (Hp' := Hp).
  destruct Hp' as [(buffer & Hc & Hb) [Hst Hat] [Hh Hhb] He Hr Hcl Hrd Hid].
  unfold feed, accFeed. rewrite (cf_storage _ _ _ _ Hc).
  destruct input as [|b0 input0]; [by apply holds_poll|]. remember (b0 :: input0) as input eqn:Ei.
  assert (Hne : input <> []) by by subst.
  destruct (Nat.eqb_spec (length input) 0) as [E0|_]; [by apply nil_length_inv in E0|].
  rewrite Ei. rewrite <- Ei at 1. cbv iota. rewrite <- Ei. clear b0 input0 Ei.
  assert (Hreset := holds_reset p buffer maximum timeout Hc).
  rewrite Hrd. destruct (accComplete maximum a) eqn:Ecomp; [done|]. unfold accExpired.
  assert (Ee : started_ p && deadlineExpired now (startedAt_ p) (timeoutMs_ p) =
    negb (bool_decide (acc_bytes a = [])) && deadlineExpired now (acc_start a) timeout).
  { by rewrite Hst, Hat, (cf_timeout _ _ _ _ Hc). }
  rewrite Ee. destruct (negb _ && _); [done|]. clear Ee. cbv zeta.
  set (p1 := if started_ p then p else set_started now p).
  set (t := if bool_decide (acc_bytes a = []) then now else acc_start a).
  assert (Hp1 : header_ p1 = header_ p /\ headerBytes_ p1 = headerBytes_ p /\
    expectedBytes_ p1 = expectedBytes_ p /\ receivedBytes_ p1 = receivedBytes_ p /\
    ready_ p1 = false /\ started_ p1 = true /\ startedAt_ p1 = t /\ Configured p1 buffer maximum timeout).
  { unfold p1, t. destruct (bool_decide (acc_bytes a = [])); rewrite Hst; cbn [negb];
      (split_and!; try done; try congruence); by destruct Hc. }
  destruct Hp1 as (-> & -> & Ex1 & Er1 & Ed1 & Es1 & Et1 & Hc1).
  rewrite Hh, Hhb, fillHeader_acc. cbv beta iota. set (s := acc_bytes a) in *.
  apply (feed_received p1 buffer maximum timeout s input t); try done; try congruence.
  - by apply complete_class.
  - intros E. by apply app_eq_nil in E as [_ ?].
Qed.

(** ** Any chunking of an encoded frame *)

(** The writes of a connection, each with its time. *)
Fixpoint feedAll (writes : list (list Z * Z)) (p : Parser) : list FrameResult * Parser :=
  match writes with
  | [] => ([], p)
  | (input, now) :: rest =>
      let '(r, p') := feed (Some input) now p in
      let '(rs, p'') := feedAll rest p' in (r :: rs, p'')
  end.

Lemma holds_frame p maximum timeout a : Holds p maximum timeout a -> accComplete maximum a = true ->
  frame p = Some (drop kFrameHeaderBytes (acc_bytes a)).
Proof.
  intros [(buffer & Hc & Hb) _ _ _ Hr _ Hrd _] Hcomp. unfold frame.
  rewrite Hrd, Hcomp, (cf_storage _ _ _ _ Hc), Hr, Nat2Z.id. simpl. by rewrite Hb.
Qed.

Lemma encodeLengthFrame_ok payload cap wire :
  encodeLengthFrame (Some payload) cap = (Ready, wire) ->
  wire = putU32Be (Z.of_nat (length payload)) ++ payload /\
  1 <= Z.of_nat (length payload) <= kMaximumFrameBytes.
Proof.
  unfold encodeLengthFrame. destruct (Z.eqb_spec (Z.of_nat (length payload)) 0); [done|].
  destruct (Z.ltb_spec kMaximumFrameBytes (Z.of_nat (length payload))); [done|].
  destruct (Z.ltb_spec UINT32_MAX (Z.of_nat (length payload))); [done|]. cbn [orb].
  destruct (cap <? _); [done|]. intros [= <-]. unfold kMaximumFrameBytes in *.
  rewrite u32_id by lia. split; [done|lia].
Qed.

(** A prefix of an encoded frame. *)
Lemma classify_prefix maximum payload s rest :
  1 <= Z.of_nat (length payload) <= kMaximumFrameBytes -> Z.of_nat (length payload) <= maximum ->
  s ++ rest = putU32Be (Z.of_nat (length payload)) ++ payload ->
  classify maximum s = if bool_decide (rest = []) then Ready else NeedMore.
Proof.
  intros Hl Hm E. unfold kMaximumFrameBytes in Hl.
  assert (El := f_equal (@length Z) E). rewrite !length_app, putU32Be_length in El.
  unfold classify. destruct (Nat.ltb_spec (length s) kFrameHeaderBytes) as [Hs|Hs];
    unfold kFrameHeaderBytes in Hs.
  - rewrite bool_decide_eq_false_2; [done|]. intros ->. simpl in El. lia.
  - assert (Ev : getU32Be s = Z.of_nat (length payload)).
    { rewrite <- (getU32Be_app s rest) by lia. rewrite E. apply getU32Be_putU32Be. lia. }
    rewrite Ev. destruct (Z.eqb_spec (Z.of_nat (length payload)) 0); [lia|].
    destruct (Z.ltb_spec maximum (Z.of_nat (length payload))); [lia|].
    destruct rest as [|b rest]; cbn [length] in El.
    + rewrite bool_decide_eq_true_2 by done. destruct (Z.ltb_spec (Z.of_nat (length s) - 4) (Z.of_nat (length payload))); [lia|].
      by destruct (Z.eqb_spec (Z.of_nat (length s) - 4) (Z.of_nat (length payload))); [|lia].
    + rewrite bool_decide_eq_false_2 by done.
      by destruct (Z.ltb_spec (Z.of_nat (length s) - 4) (Z.of_nat (length payload))); [|lia].
Qed.

(** The writes still to come complete the frame. *)
Lemma feedAll_complete maximum timeout payload t0 writes : forall p a,
  1 <= Z.of_nat (length payload) <= kMaximumFrameBytes -> Z.of_nat (length payload) <= maximum ->
  Holds p maximum timeout a -> writes <> [] ->
  acc_bytes a ++ concat (map fst writes) = putU32Be (Z.of_nat (length payload)) ++ payload ->
  Forall (fun w => fst w <> [] /\ deadlineExpired (snd w) t0 timeout = false) writes ->
  (if bool_decide (acc_bytes a = []) then head (map snd writes) = Some t0 else acc_start a = t0) ->
  fst (feedAll writes p) = replicate (length writes - 1) NeedMore ++ [Ready] /\
  frame (snd (feedAll writes p)) = Some payload.
Proof.
  induction writes as [|[input now] rest IH]; intros p a Hl Hm Hp Hne E Hw Hstart; [done|].
  inversion Hw as [|? ? [Hin Hnow] Hw']; subst. cbn [fst snd] in Hin, Hnow.
  cbn [map concat fst] in E. rewrite app_assoc in E.
  assert (Hcn : accComplete maximum a = false).
  { unfold accComplete. apply bool_decide_eq_false_2.
    rewrite <- app_assoc in E. rewrite (classify_prefix maximum payload _ _ Hl Hm E).
    rewrite bool_decide_eq_false_2; [done|]. intros H0. by apply app_eq_nil in H0 as [? _]. }
  assert (Hex : accExpired timeout now a = false).
  { unfold accExpired. destruct (bool_decide (acc_bytes a = [])); [done|]. by rewrite Hstart. }
  assert (Hc := classify_prefix maximum payload _ _ Hl Hm E).
  destruct (feed_refines p maximum timeout a input now Hp) as [Hr Hp'].
  set (t := if bool_decide (acc_bytes a = []) then now else acc_start a).
  assert (Ht : t = t0).
  { unfold t. destruct (bool_decide (acc_bytes a = [])); [|done]. by injection Hstart. }
  assert (Ef : accFeed maximum timeout input now a =
    (if bool_decide (concat (map fst rest) = []) then Ready else NeedMore, mkAcc (acc_bytes a ++ input) t)).
  { unfold accFeed. destruct input; [done|]. rewrite Hcn, Hex, Hc. by destruct (bool_decide (concat (map fst rest) = [])). }
  rewrite Ef in Hr, Hp'. cbn [fst snd] in Hr, Hp'.
  cbn [feedAll]. destruct (feed (Some input) now p) as [r p']. cbn [fst snd] in Hr, Hp'. subst r.
  destruct rest as [|w rest].
  - cbn [feedAll map concat fst snd length]. split; [done|]. cbn [map concat] in E, Hc.
    rewrite (holds_frame p' maximum timeout _ Hp'); [|unfold accComplete; cbn [acc_bytes]; by rewrite Hc].
    rewrite app_nil_r in E. cbn [acc_bytes]. rewrite E. by rewrite drop_app_ge, putU32Be_length, drop_0.
  - assert (Hwne : concat (map fst (w :: rest)) <> []).
    { inversion Hw' as [|? ? [Hin' _] _]; subst. cbn [map concat]. intros H0.
      by apply app_eq_nil in H0 as [? _]. }
    rewrite bool_decide_eq_false_2 by done.
    destruct (IH p' (mkAcc (acc_bytes a ++ input) t)) as [IH1 IH2]; try done.
    { cbn [acc_bytes acc_start]. rewrite bool_decide_eq_false_2; [done|]. intros H0.
      by apply app_eq_nil in H0 as [_ ?]. }
    destruct (feedAll (w :: rest) p') as [rs p'']. cbn [fst snd] in *. split; [|done].
    rewrite IH1. cbn [length]. by rewrite Nat.sub_succ, !Nat.sub_0_r.
Qed.

(** A frame that [encodeLengthFrame] produced is reassembled whatever the
    sizes of the writes that carry it: every write but the last asks for more,
    the last makes the frame ready, and the frame is the payload. *)
Theorem frame_reassembled buffer maximum timeout p0 p payload cap wire writes t0 :
  begin (Some buffer) (Z.of_nat (length buffer)) maximum timeout p0 = (true, p) -> 0 <= maximum ->
  encodeLengthFrame (Some payload) cap = (Ready, wire) -> Z.of_nat (length payload) <= maximum ->
  concat (map fst writes) = wire -> head (map snd writes) = Some t0 ->
  Forall (fun w => fst w <> [] /\ deadlineExpired (snd w) t0 timeout = false) writes ->
  fst (feedAll writes p) = replicate (length writes - 1) NeedMore ++ [Ready] /\
  frame (snd (feedAll writes p)) = Some payload.
Proof.
  intros Hb Hm He Hl Hw Ht Hws. apply encodeLengthFrame_ok in He as [-> Hlen].
  apply feedAll_complete with (maximum := maximum) (timeout := timeout) (t0 := t0) (a := acc0); try done.
  - eapply begin_holds; eauto.
  - intros ->. done.
Qed.

(** A nine-byte frame in three writes, the clock wrapping. *)
Definition exampleWrites : list (list Z * Z) :=
  [([0; 0], 4294967290); ([0; 5; 104], 10); ([101; 108; 108; 111], 9000)].
Definition exampleParser : Parser :=
  snd (begin (Some (replicate 64 0)) (Z.of_nat (length (replicate 64 0))) 32 kFrameAssemblyTimeoutMs parser0).

Lemma frame_reassembled_witness :
  fst (feedAll exampleWrites exampleParser) = replicate (length exampleWrites - 1) NeedMore ++ [Ready] /\
  frame (snd (feedAll exampleWrites exampleParser)) = Some (bytes_of "hello").
Proof.
  assert (Hb : begin (Some (replicate 64 0)) (Z.of_nat (length (replicate 64 0))) 32
    kFrameAssemblyTimeoutMs parser0 = (true, exampleParser)) by (vm_compute; reflexivity).
  assert (Hm : 0 <= 32) by discriminate.
  assert (He : encodeLengthFrame (Some (bytes_of "hello")) 64 = (Ready, putU32Be 5 ++ bytes_of "hello"))
    by (vm_compute; reflexivity).
  assert (Hl : Z.of_nat (length (bytes_of "hello")) <= 32) by (vm_compute; discriminate).
  assert (Hc : concat (map fst exampleWrites) = putU32Be 5 ++ bytes_of "hello") by (vm_compute; reflexivity).
  assert (Hw : Forall (fun w => fst w <> [] /\
    deadlineExpired (snd w) 4294967290 kFrameAssemblyTimeoutMs = false) exampleWrites).
  { repeat constructor; try (vm_compute; reflexivity); discriminate. }
  exact (frame_reassembled (replicate 64 0) 32 kFrameAssemblyTimeoutMs parser0 exampleParser
    (bytes_of "hello") 64 (putU32Be 5 ++ bytes_of "hello") exampleWrites 4294967290
    Hb Hm He Hl Hc eq_refl Hw).
Defined.

(** The second write of a frame comes too late. *)
Lemma feed_refines_witness :
  let p := snd (feed (Some [0; 0]) 100 (snd (begin (Some (replicate 64 0)) 64 32 50 parser0))) in
  Holds p 32 50 (mkAcc [0; 0] 100) /\ fst (feed (Some [0; 5]) 151 p) = TimedOut /\
  Holds (snd (feed (Some [0; 5]) 151 p)) 32 50 acc0.
Proof.
  intros p.
  assert (Hp : Holds p 32 50 (mkAcc [0; 0] 100)).
  { split; try done; [|by left]. exists (replicate 64 0). split; [|done]. split; done. }
  split; [exact Hp|]. apply (feed_refines p 32 50 (mkAcc [0; 0] 100) [0; 5] 151 Hp).
Defined.
