(* ===== verification/CompanionJson.v ===== *)
(** * The JSON validator of the companion protocol (src/src/kitsu_companion_protocol.cpp)

    Class [JsonValidator]: a recursive-descent parser with a nesting bound.  Its
    [cursor_] is the list of the bytes not read yet; a method that returns
    [false] is [None], one that returns [true] gives the rest. *)

From S2P Require Import Prelude CompanionText.

Definition isWhitespace (c : Z) : bool := (c =? 32) || (c =? 9) || (c =? 13) || (c =? 10).

Fixpoint skip (input : list Z) : list Z :=
  match input with
  | c :: rest => if isWhitespace c then skip rest else input
  | [] => []
  end.

(** [memcmp(input_ + cursor_, expected, bytes)] and the advance. *)
Definition jsonLiteral (expected input : list Z) : option (list Z) :=
  if (length input <? length expected)%nat || negb (beq (take (length expected) input) expected)
  then None else Some (drop (length expected) input).

Definition hexDigit (c : Z) : option Z :=
  if asciiDigit c then Some (c - 48)
  else if (97 <=? c) && (c <=? 102) then Some (c - 97 + 10)
  else if (65 <=? c) && (c <=? 70) then Some (c - 65 + 10)
  else None.

(** The value of four hexadecimal digits. *)
Definition hex4 (c1 c2 c3 c4 : Z) : option Z :=
  d1 ← hexDigit c1; d2 ← hexDigit c2; d3 ← hexDigit c3; d4 ← hexDigit c4;
  let shift value digit := u16 (Z.lor (Z.shiftl value 4) digit) in
  Some (shift (shift (shift (shift 0 d1) d2) d3) d4).

Definition simpleEscape (c : Z) : bool :=
  (c =? 34) || (c =? 92) || (c =? 47) || (c =? 98) || (c =? 102) || (c =? 110) || (c =? 114) ||
  (c =? 116).

Definition highSurrogate (v : Z) : bool := (0xd800 <=? v) && (v <=? 0xdbff).
Definition lowSurrogate (v : Z) : bool := (0xdc00 <=? v) && (v <=? 0xdfff).

(** The loop of [string], after the opening quote. *)
Fixpoint stringTail (input : list Z) : option (list Z) :=
  match input with
  | [] => None
  | c :: rest =>
      if c =? 34 then Some rest
      else if c <? 0x20 then None
      else if negb (c =? 92) then stringTail rest
      else
        match rest with
        | [] => None
        | escaped :: rest =>
            if simpleEscape escaped then stringTail rest
            else if negb (escaped =? 117) then None
            else
              match rest with
              | a :: b :: c :: d :: rest =>
                  match hex4 a b c d with
                  | None => None
                  | Some first =>
                      if highSurrogate first then
                        match rest with
                        | backslash :: u :: rest =>
                            if negb (backslash =? 92) || negb (u =? 117) then None
                            else
                              match rest with
                              | a :: b :: c :: d :: rest =>
                                  match hex4 a b c d with
                                  | None => None
                                  | Some second =>
                                      if negb (lowSurrogate second) then None else stringTail rest
                                  end
                              | _ => None
                              end
                        | _ => None
                        end
                      else if lowSurrogate first then None
                      else stringTail rest
                  end
              | _ => None
              end
        end
  end.

Definition jsonString (input : list Z) : option (list Z) :=
  match input with
  | c :: rest => if negb (c =? 34) then None else stringTail rest
  | [] => None
  end.

Fixpoint skipDigits (input : list Z) : list Z :=
  match input with
  | c :: rest => if asciiDigit c then skipDigits rest else input
  | [] => []
  end.

(** At least one digit, then as many as follow. *)
Definition digits1 (input : list Z) : option (list Z) :=
  let rest := skipDigits input in
  if (length rest =? length input)%nat then None else Some rest.

Definition numberSign (input : list Z) : list Z :=
  match input with
  | c :: rest => if c =? 45 then rest else input
  | [] => []
  end.

(** The integer part. *)
Definition numberInt (input : list Z) : option (list Z) :=
  match input with
  | [] => None
  | c :: rest =>
      if c =? 48 then
        match rest with
        | d :: _ => if asciiDigit d then None else Some rest
        | [] => Some rest
        end
      else if (c <? 49) || (57 <? c) then None
      else Some (skipDigits input)
  end.

Definition numberFraction (input : list Z) : option (list Z) :=
  match input with
  | c :: rest => if c =? 46 then digits1 rest else Some input
  | [] => Some input
  end.

Definition numberExponent (input : list Z) : option (list Z) :=
  match input with
  | c :: rest =>
      if (c =? 101) || (c =? 69) then
        digits1 (match rest with
                 | s :: rest' => if (s =? 43) || (s =? 45) then rest' else rest
                 | [] => rest
                 end)
      else Some input
  | [] => Some input
  end.

(** The integer part is never empty, so [cursor_ > start] holds at the end. *)
Definition jsonNumber (input : list Z) : option (list Z) :=
  r1 ← numberInt (numberSign input);
  r2 ← numberFraction r1;
  numberExponent r2.

(** The loop of [object] after the opening brace; [value] is the recursive call
    at the next depth.  A turn consumes a byte, so a fuel of the length of the
    input never runs out. *)
Fixpoint objectLoop (value : list Z -> option (list Z)) (fuel : nat) (input : list Z)
  : option (list Z) :=
  match fuel, input with
  | O, _ | _, [] => None
  | S fuel', _ =>
      r1 ← jsonString input;
      match skip r1 with
      | c :: r2 =>
          if negb (c =? 58) then None
          else
            r3 ← value (skip r2);
            match skip r3 with
            | c :: r4 =>
                if c =? 125 then Some r4
                else if negb (c =? 44) then None
                else objectLoop value fuel' (skip r4)
            | [] => None
            end
      | [] => None
      end
  end.

Fixpoint arrayLoop (value : list Z -> option (list Z)) (fuel : nat) (input : list Z)
  : option (list Z) :=
  match fuel, input with
  | O, _ | _, [] => None
  | S fuel', _ =>
      r1 ← value input;
      match skip r1 with
      | c :: r2 =>
          if c =? 93 then Some r2
          else if negb (c =? 44) then None
          else arrayLoop value fuel' (skip r2)
      | [] => None
      end
  end.

(** [object] and [array] with the opening bracket consumed. *)
Definition jsonObject (value : list Z -> option (list Z)) (input : list Z) : option (list Z) :=
  match skip input with
  | c :: rest => if c =? 125 then Some rest else objectLoop value (length (c :: rest)) (c :: rest)
  | [] => None
  end.
Definition jsonArray (value : list Z -> option (list Z)) (input : list Z) : option (list Z) :=
  match skip input with
  | c :: rest => if c =? 93 then Some rest else arrayLoop value (length (c :: rest)) (c :: rest)
  | [] => None
  end.

(** [value(depth)] with [levels = 17 - depth] levels left: at [depth > 16] it fails. *)
Fixpoint jsonValue (levels : nat) (input : list Z) : option (list Z) :=
  match levels, input with
  | O, _ | _, [] => None
  | S levels', c :: rest =>
      if c =? 123 then jsonObject (jsonValue levels') rest
      else if c =? 91 then jsonArray (jsonValue levels') rest
      else if c =? 34 then jsonString input
      else if c =? 116 then jsonLiteral (bytes_of "true") input
      else if c =? 102 then jsonLiteral (bytes_of "false") input
      else if c =? 110 then jsonLiteral (bytes_of "null") input
      else jsonNumber input
  end.

Definition kJsonLevels : nat := 17.

Definition jsonValid (input : list Z) : bool :=
  match jsonValue kJsonLevels (skip input) with
  | Some rest => (length (skip rest) =? 0)%nat
  | None => false
  end.

(** ** The grammar of RFC 8259 *)

Definition Whitespace (s : list Z) : Prop := Forall (fun c => isWhitespace c = true) s.
Definition Digits (s : list Z) : Prop := Forall (fun c => asciiDigit c = true) s.

(** The characters between the quotes. *)
Inductive Chars : list Z -> Prop :=
| chars_nil : Chars []
| chars_plain c s : 0x20 <= c -> c <> 34 -> c <> 92 -> Chars s -> Chars (c :: s)
| chars_escape e s : simpleEscape e = true -> Chars s -> Chars (92 :: e :: s)
| chars_u a b c d v s : hex4 a b c d = Some v -> highSurrogate v = false -> lowSurrogate v = false ->
    Chars s -> Chars (92 :: 117 :: a :: b :: c :: d :: s)
| chars_pair a b c d v a' b' c' d' w s : hex4 a b c d = Some v -> highSurrogate v = true ->
    hex4 a' b' c' d' = Some w -> lowSurrogate w = true -> Chars s ->
    Chars (92 :: 117 :: a :: b :: c :: d :: 92 :: 117 :: a' :: b' :: c' :: d' :: s).

Definition StringText (s : list Z) : Prop := exists chars, Chars chars /\ s = 34 :: chars ++ [34].

Definition IntText (s : list Z) : Prop :=
  s = [48] \/ exists c ds, 49 <= c <= 57 /\ Digits ds /\ s = c :: ds.
Definition FractionText (s : list Z) : Prop :=
  s = [] \/ exists ds, Digits ds /\ ds <> [] /\ s = 46 :: ds.
Definition ExponentText (s : list Z) : Prop :=
  s = [] \/ exists e sign ds, (e = 101 \/ e = 69) /\ (sign = [] \/ sign = [43] \/ sign = [45]) /\
    Digits ds /\ ds <> [] /\ s = e :: sign ++ ds.
Definition NumberText (s : list Z) : Prop :=
  exists sign int fraction exponent, (sign = [] \/ sign = [45]) /\ IntText int /\
    FractionText fraction /\ ExponentText exponent /\ s = sign ++ int ++ fraction ++ exponent.

(** A value nested at most [levels] deep, the members of an object and the
    elements of an array. *)
Inductive ValueText : nat -> list Z -> Prop :=
| value_true n : ValueText (S n) (bytes_of "true")
| value_false n : ValueText (S n) (bytes_of "false")
| value_null n : ValueText (S n) (bytes_of "null")
| value_string n s : StringText s -> ValueText (S n) s
| value_number n s : NumberText s -> ValueText (S n) s
| value_empty_object n w : Whitespace w -> ValueText (S n) (123 :: w ++ [125])
| value_object n w m : Whitespace w -> MembersText n m -> ValueText (S n) (123 :: w ++ m ++ [125])
| value_empty_array n w : Whitespace w -> ValueText (S n) (91 :: w ++ [93])
| value_array n w m : Whitespace w -> ElementsText n m -> ValueText (S n) (91 :: w ++ m ++ [93])
with MembersText : nat -> list Z -> Prop :=
| members_one n k w1 w2 v w3 : StringText k -> Whitespace w1 -> Whitespace w2 -> ValueText n v ->
    Whitespace w3 -> MembersText n (k ++ w1 ++ 58 :: w2 ++ v ++ w3)
| members_more n k w1 w2 v w3 w4 m : StringText k -> Whitespace w1 -> Whitespace w2 ->
    ValueText n v -> Whitespace w3 -> Whitespace w4 -> MembersText n m ->
    MembersText n (k ++ w1 ++ 58 :: w2 ++ v ++ w3 ++ 44 :: w4 ++ m)
with ElementsText : nat -> list Z -> Prop :=
| elements_one n v w : ValueText n v -> Whitespace w -> ElementsText n (v ++ w)
| elements_more n v w1 w2 m : ValueText n v -> Whitespace w1 -> Whitespace w2 -> ElementsText n m ->
    ElementsText n (v ++ w1 ++ 44 :: w2 ++ m).

(** A JSON text. *)
Definition JsonText (levels : nat) (s : list Z) : Prop :=
  exists w1 v w2, Whitespace w1 /\ ValueText levels v /\ Whitespace w2 /\ s = w1 ++ v ++ w2.
