(* ===== verification/CompanionJsonFacts.v ===== *)
(** * The validator accepts exactly the JSON grammar

    Soundness and completeness of every method of [JsonValidator] for the
    grammar of [CompanionJson], up to the nesting bound. *)

From S2P Require Import Prelude CompanionText CompanionJson.

(** ** Whitespace *)

Lemma skip_spec s : exists w, Whitespace w /\ s = w ++ skip s.
Proof.
  induction s as [|c s (w & Hw & E)]; [exists []; split; [constructor|done]|]. simpl. destruct (isWhitespace c) eqn:Ec.
  - exists (c :: w). split; [by constructor|]. cbn [app]. by f_equal.
  - exists []. split; [constructor|done].
Qed.

Lemma skip_app w s : Whitespace w -> skip (w ++ s) = skip s.
Proof. induction 1 as [|c w Hc _ IH]; simpl; [done|]. by rewrite Hc. Qed.

Lemma skip_cons c s : isWhitespace c = false -> skip (c :: s) = c :: s.
Proof. simpl. by intros ->. Qed.

Lemma skip_length s : (length (skip s) <= length s)%nat.
Proof. induction s as [|c s IH]; simpl; [lia|]. destruct (isWhitespace c); simpl; lia. Qed.

Lemma skip_all w : Whitespace w -> skip w = [].
Proof. intros H. rewrite <- (app_nil_r w). by rewrite skip_app. Qed.

(** ** Strings *)

Lemma stringTail_complete cs rest : Chars cs -> stringTail (cs ++ 34 :: rest) = Some rest.
Proof.
  induction 1 as [|c s H1 H2 H3 _ IH|e s He _ IH|a b c d v s H4 Hv Hl _ IH
    |a b c d v a' b' c' d' w s H4 Hv H4' Hw _ IH]; cbn [app stringTail].
  - done.
  - destruct (Z.eqb_spec c 34); [done|]. destruct (Z.ltb_spec c 0x20); [lia|].
    by destruct (Z.eqb_spec c 92).
  - change (92 =? 34) with false. change (92 <? 0x20) with false. change (92 =? 92) with true.
    cbn [negb]. by rewrite He.
  - change (92 =? 34) with false. change (92 <? 0x20) with false. change (92 =? 92) with true.
    cbn [negb]. change (simpleEscape 117) with false. change (117 =? 117) with true. cbn [negb].
    by rewrite H4, Hv, Hl.
  - change (92 =? 34) with false. change (92 <? 0x20) with false. change (92 =? 92) with true.
    cbn [negb]. change (simpleEscape 117) with false. change (117 =? 117) with true. cbn [negb orb].
    by rewrite H4, Hv, H4', Hw.
Qed.

Lemma stringTail_sound n : forall s rest, (length s < n)%nat -> stringTail s = Some rest ->
  exists cs, Chars cs /\ s = cs ++ 34 :: rest.
Proof.
  induction n as [|n IH]; intros s rest Hn E; [lia|].
  destruct s as [|c s]; [done|]. cbn [stringTail] in E. simpl in Hn.
  destruct (Z.eqb_spec c 34) as [->|Hq].
  { simplify_eq. exists []. split; [constructor|done]. }
  destruct (Z.ltb_spec c 0x20); [done|]. destruct (Z.eqb_spec c 92) as [->|Hb]; cbn [negb] in E.
  2: { destruct (IH s rest ltac:(lia) E) as (cs & Hcs & ->). exists (c :: cs). by split; [constructor|]. }
  destruct s as [|e s]; [done|]. simpl in Hn. destruct (simpleEscape e) eqn:Ee.
  { destruct (IH s rest ltac:(lia) E) as (cs & Hcs & ->). exists (92 :: e :: cs).
    by split; [constructor|]. }
  destruct (Z.eqb_spec e 117) as [->|]; [|done]. cbn [negb] in E.
  destruct s as [|a [|b [|c [|d s]]]]; try done. simpl in Hn.
  destruct (hex4 a b c d) as [v|] eqn:Ev; [|done]. destruct (highSurrogate v) eqn:Eh.
  - destruct s as [|x [|y s]]; try done. simpl in Hn.
    destruct (Z.eqb_spec x 92) as [->|]; [|done]. destruct (Z.eqb_spec y 117) as [->|]; [|done].
    cbn [negb orb] in E. destruct s as [|a' [|b' [|c' [|d' s]]]]; try done. simpl in Hn.
    destruct (hex4 a' b' c' d') as [w|] eqn:Ew; [|done].
    destruct (lowSurrogate w) eqn:El; [|done]. cbn [negb] in E.
    destruct (IH s rest ltac:(lia) E) as (cs & Hcs & ->).
    eexists. split; [|by rewrite !app_comm_cons]. by eapply chars_pair.
  - destruct (lowSurrogate v) eqn:El; [done|].
    destruct (IH s rest ltac:(lia) E) as (cs & Hcs & ->).
    eexists. split; [|by rewrite !app_comm_cons]. by eapply chars_u.
Qed.

Lemma jsonString_sound s rest : jsonString s = Some rest -> exists k, StringText k /\ s = k ++ rest.
Proof.
  destruct s as [|c s]; [done|]. simpl. destruct (Z.eqb_spec c 34) as [->|]; [|done]. cbn [negb].
  intros E. destruct (stringTail_sound (S (length s)) s rest ltac:(lia) E) as (cs & Hcs & ->).
  exists (34 :: cs ++ [34]). split; [by exists cs|]. simpl. by rewrite <- app_assoc.
Qed.

Lemma jsonString_complete k rest : StringText k -> jsonString (k ++ rest) = Some rest.
Proof.
  intros (cs & Hcs & ->). simpl. rewrite <- app_assoc. by apply stringTail_complete.
Qed.

(** ** Numbers *)

(** The byte after a number does not continue it. *)
Definition ends (rest : list Z) : Prop :=
  match rest with
  | [] => True
  | c :: _ => asciiDigit c = false /\ c <> 46 /\ c <> 101 /\ c <> 69
  end.

Definition noDigitNext (rest : list Z) : Prop :=
  match rest with [] => True | c :: _ => asciiDigit c = false end.

Lemma ends_noDigit rest : ends rest -> noDigitNext rest.
Proof. destruct rest; [done|]. by intros (? & _). Qed.

Lemma skipDigits_spec s : exists ds, Digits ds /\ s = ds ++ skipDigits s /\ noDigitNext (skipDigits s).
Proof.
  induction s as [|c s (ds & Hd & E & Hn)]; [exists []; split; [constructor|done]|]. simpl. destruct (asciiDigit c) eqn:Ec.
  - exists (c :: ds). split_and!; [by constructor| |done]. cbn [app]. by f_equal.
  - exists []. split; [constructor|done].
Qed.

Lemma skipDigits_app ds rest : Digits ds -> noDigitNext rest -> skipDigits (ds ++ rest) = rest.
Proof.
  intros Hd Hr. induction Hd as [|c ds Hc _ IH]; simpl; [|by rewrite Hc].
  destruct rest as [|c rest]; [done|]. simpl in Hr |- *. by rewrite Hr.
Qed.

Lemma digits1_sound s rest : digits1 s = Some rest -> exists ds, Digits ds /\ ds <> [] /\ s = ds ++ rest.
Proof.
  unfold digits1. destruct (Nat.eqb_spec (length (skipDigits s)) (length s)) as [|Hne]; [done|].
  intros [= <-]. destruct (skipDigits_spec s) as (ds & Hd & E & _). exists ds. split_and!; [done| |done].
  intros ->. apply Hne. f_equal. symmetry. exact E.
Qed.

Lemma digits1_complete ds rest : Digits ds -> ds <> [] -> noDigitNext rest -> digits1 (ds ++ rest) = Some rest.
Proof.
  intros Hd Hne Hr. unfold digits1. rewrite skipDigits_app by done.
  destruct (Nat.eqb_spec (length rest) (length (ds ++ rest))) as [E|]; [|done].
  rewrite length_app in E. destruct ds; [done|]. simpl in E. lia.
Qed.

Lemma numberInt_sound s rest : numberInt s = Some rest -> exists i, IntText i /\ s = i ++ rest.
Proof.
  destruct s as [|c s]; [done|]. unfold numberInt. destruct (Z.eqb_spec c 48) as [->|Hz].
  - intros E. exists [48]. split; [by left|]. destruct s as [|d s]; [by simplify_eq|].
    destruct (asciiDigit d); by simplify_eq.
  - destruct (Z.ltb_spec c 49), (Z.ltb_spec 57 c); try done. cbn [orb]. intros [= <-].
    assert (Ed : asciiDigit c = true).
    { unfold asciiDigit. destruct (Z.leb_spec 48 c), (Z.leb_spec c 57); try lia; done. }
    simpl. rewrite Ed. destruct (skipDigits_spec s) as (ds & Hd & E & _). exists (c :: ds).
    split; [right; exists c, ds; split_and!; [lia|lia|done|done]|]. cbn [app]. by f_equal.
Qed.

Lemma numberInt_complete i rest : IntText i -> noDigitNext rest -> numberInt (i ++ rest) = Some rest.
Proof.
  intros [->|(c & ds & Hc & Hd & ->)] Hr.
  - simpl. destruct rest as [|d rest]; [done|]. simpl in Hr. by rewrite Hr.
  - cbn [app numberInt]. destruct (Z.eqb_spec c 48); [lia|].
    destruct (Z.ltb_spec c 49), (Z.ltb_spec 57 c); try lia. cbn [orb].
    rewrite app_comm_cons, skipDigits_app; [done| |done]. constructor; [|done].
    unfold asciiDigit. destruct (Z.leb_spec 48 c), (Z.leb_spec c 57); try lia; done.
Qed.

Lemma numberFraction_sound s rest : numberFraction s = Some rest -> exists f, FractionText f /\ s = f ++ rest.
Proof.
  destruct s as [|c s]; unfold numberFraction; [intros [= <-]; exists []; by split; [left|]|].
  destruct (Z.eqb_spec c 46) as [->|]; [|intros [= <-]; exists []; by split; [left|]].
  intros (ds & Hd & Hne & ->)%digits1_sound. exists (46 :: ds). split; [right; eauto|done].
Qed.

Lemma numberFraction_complete f rest : FractionText f -> noDigitNext rest ->
  (f = [] -> head rest <> Some 46) -> numberFraction (f ++ rest) = Some rest.
Proof.
  intros [->|(ds & Hd & Hne & ->)] Hr Hh.
  - specialize (Hh eq_refl). destruct rest as [|c rest]; [done|]. simpl in *.
    by destruct (Z.eqb_spec c 46) as [->|].
  - cbn [app numberFraction]. by apply digits1_complete.
Qed.

Lemma numberExponent_sound s rest : numberExponent s = Some rest -> exists e, ExponentText e /\ s = e ++ rest.
Proof.
  destruct s as [|c s]; unfold numberExponent; [intros [= <-]; exists []; by split; [left|]|].
  destruct ((c =? 101) || (c =? 69)) eqn:Ec; [|intros [= <-]; exists []; by split; [left|]].
  intros E. assert (Hc : c = 101 \/ c = 69) by (apply orb_true_iff in Ec as [?%Z.eqb_eq|?%Z.eqb_eq]; auto).
  assert (Hsign : exists sign ds, (sign = [] \/ sign = [43] \/ sign = [45]) /\ Digits ds /\ ds <> [] /\
    s = sign ++ ds ++ rest).
  { destruct s as [|x s]; [done|]. destruct ((x =? 43) || (x =? 45)) eqn:Ex.
    - apply digits1_sound in E as (ds & Hd & Hne & ->). exists [x], ds. split_and!; try done.
      apply orb_true_iff in Ex as [->%Z.eqb_eq| ->%Z.eqb_eq]; auto.
    - apply digits1_sound in E as (ds & Hd & Hne & ->). exists [], ds. split_and!; try done. by left. }
  destruct Hsign as (sign & ds & Hs & Hd & Hne & ->). exists (c :: sign ++ ds).
  split; [right; by exists c, sign, ds|]. simpl. by rewrite <- app_assoc.
Qed.

Lemma numberExponent_complete e rest : ExponentText e -> ends rest -> numberExponent (e ++ rest) = Some rest.
Proof.
  intros [->|(x & sign & ds & Hx & Hs & Hd & Hne & ->)] Hr.
  - destruct rest as [|c rest]; [done|]. simpl in *. destruct Hr as (_ & _ & H1 & H2).
    destruct (Z.eqb_spec c 101); [done|]. by destruct (Z.eqb_spec c 69).
  - cbn [app numberExponent]. assert (Ex : (x =? 101) || (x =? 69) = true) by (by destruct Hx as [->| ->]).
    rewrite Ex, <- app_assoc. destruct Hs as [->|[->| ->]]; cbn [app].
    + destruct ds as [|d ds]; [done|]. inversion Hd as [|? ? Hdd _]; subst. cbn [app].
      assert (Es : (d =? 43) || (d =? 45) = false).
      { unfold asciiDigit in Hdd. apply andb_true_iff in Hdd as [?%Z.leb_le ?%Z.leb_le].
        destruct (Z.eqb_spec d 43), (Z.eqb_spec d 45); lia || done. }
      rewrite Es, app_comm_cons. apply digits1_complete; try done. by apply ends_noDigit.
    + apply digits1_complete; try done. by apply ends_noDigit.
    + apply digits1_complete; try done. by apply ends_noDigit.
Qed.

Lemma jsonNumber_sound s rest : jsonNumber s = Some rest -> exists v, NumberText v /\ s = v ++ rest.
Proof.
  unfold jsonNumber. intros E. destruct (numberInt (numberSign s)) as [r1|] eqn:E1; [|done]. simpl in E.
  destruct (numberFraction r1) as [r2|] eqn:E2; [|done]. simpl in E.
  apply numberInt_sound in E1 as (i & Hi & E1). apply numberFraction_sound in E2 as (f & Hf & ->).
  apply numberExponent_sound in E as (e & He & ->).
  assert (Hsg : exists sign, (sign = [] \/ sign = [45]) /\ s = sign ++ numberSign s).
  { destruct s as [|c s]; [exists []; auto|]. simpl. destruct (Z.eqb_spec c 45) as [->|]; [exists [45]|exists []]; auto. }
  destruct Hsg as (sign & Hs & ->). rewrite E1. exists (sign ++ i ++ f ++ e).
  split; [by exists sign, i, f, e|]. by rewrite <- !app_assoc.
Qed.

Lemma exponent_head e rest : ExponentText e -> ends rest -> noDigitNext (e ++ rest) /\ head (e ++ rest) <> Some 46.
Proof.
  intros [->|(x & sign & ds & Hx & _ & _ & _ & ->)] Hr.
  - destruct rest as [|c rest]; [done|]. simpl in *. destruct Hr as (? & ? & _). split; [done|congruence].
  - simpl. destruct Hx as [->| ->]; done.
Qed.

Lemma jsonNumber_complete v rest : NumberText v -> ends rest -> jsonNumber (v ++ rest) = Some rest.
Proof.
  intros (sign & i & f & e & Hs & Hi & Hf & He & ->) Hr.
  destruct (exponent_head e rest He Hr) as [Hd Hh].
  assert (Hsign : numberSign ((sign ++ i ++ f ++ e) ++ rest) = i ++ f ++ e ++ rest).
  { rewrite <- !app_assoc. destruct Hs as [->| ->]; [|done]. cbn [app].
    destruct Hi as [->|(c & ds & Hc & _ & ->)]; [done|]. cbn [app numberSign]. by destruct (Z.eqb_spec c 45); [lia|]. }
  unfold jsonNumber. rewrite Hsign, numberInt_complete; [|done|].
  2: { destruct Hf as [->|(ds & _ & _ & ->)]; [done|done]. }
  simpl. rewrite numberFraction_complete; [|done|done|done]. simpl. by apply numberExponent_complete.
Qed.

(** ** Literals *)

Lemma jsonLiteral_spec e s rest : jsonLiteral e s = Some rest <-> s = e ++ rest.
Proof.
  unfold jsonLiteral. split.
  - destruct (Nat.ltb_spec (length s) (length e)); [done|]. cbn [orb].
    destruct (beq (take (length e) s) e) eqn:E; [|done]. cbn [negb]. intros [= <-].
    apply beq_eq in E. by rewrite <- E at 1; rewrite take_drop.
  - intros ->. rewrite length_app. destruct (Nat.ltb_spec (length e + length rest) (length e)); [lia|].
    by rewrite take_app_length, beq_refl, drop_app_length.
Qed.

(** ** Soundness *)

Lemma skip_here s c r : skip s = c :: r -> exists w, Whitespace w /\ s = w ++ c :: r.
Proof. intros E. destruct (skip_spec s) as (w & Hw & Es). exists w. split; [done|]. by rewrite Es, E. Qed.

Section Sound.
Context (n : nat) (value : list Z -> option (list Z)).
Hypothesis value_sound : forall s rest, value s = Some rest -> exists v, ValueText n v /\ s = v ++ rest.

Lemma objectLoop_sound fuel : forall s rest, objectLoop value fuel s = Some rest ->
  exists m, MembersText n m /\ s = m ++ 125 :: rest.
Proof.
  induction fuel as [|fuel IH]; intros s rest E; [done|]. destruct s as [|b s]; [done|].
  cbn [objectLoop] in E. destruct (jsonString (b :: s)) as [r1|] eqn:E1; [|done]. simpl in E.
  destruct (skip r1) as [|c r2] eqn:E2; [done|]. destruct (Z.eqb_spec c 58) as [->|]; [|done]. cbn [negb] in E.
  destruct (value (skip r2)) as [r3|] eqn:E3; [|done]. simpl in E.
  destruct (skip r3) as [|c r4] eqn:E4; [done|].
  apply jsonString_sound in E1 as (k & Hk & ->). apply skip_here in E2 as (w1 & Hw1 & ->).
  destruct (skip_spec r2) as (w2 & Hw2 & E5). apply value_sound in E3 as (v & Hv & E3).
  rewrite E3 in E5. rewrite E5. apply skip_here in E4 as (w3 & Hw3 & ->).
  destruct (Z.eqb_spec c 125) as [->|].
  - simplify_eq. exists (k ++ w1 ++ 58 :: w2 ++ v ++ w3). split; [by constructor|].
    repeat (rewrite <- app_assoc; cbn [app]). done.
  - destruct (Z.eqb_spec c 44) as [->|]; [|done]. cbn [negb] in E.
    destruct (skip_spec r4) as (w4 & Hw4 & E6). apply IH in E as (m & Hm & E). rewrite E in E6. rewrite E6.
    exists (k ++ w1 ++ 58 :: w2 ++ v ++ w3 ++ 44 :: w4 ++ m). split; [by constructor|].
    repeat (rewrite <- app_assoc; cbn [app]). done.
Qed.

Lemma arrayLoop_sound fuel : forall s rest, arrayLoop value fuel s = Some rest ->
  exists m, ElementsText n m /\ s = m ++ 93 :: rest.
Proof.
  induction fuel as [|fuel IH]; intros s rest E; [done|]. destruct s as [|b s]; [done|].
  cbn [arrayLoop] in E. destruct (value (b :: s)) as [r1|] eqn:E1; [|done]. simpl in E.
  destruct (skip r1) as [|c r2] eqn:E2; [done|].
  apply value_sound in E1 as (v & Hv & ->). apply skip_here in E2 as (w1 & Hw1 & ->).
  destruct (Z.eqb_spec c 93) as [->|].
  - simplify_eq. exists (v ++ w1). split; [by constructor|]. by rewrite <- app_assoc.
  - destruct (Z.eqb_spec c 44) as [->|]; [|done]. cbn [negb] in E.
    destruct (skip_spec r2) as (w2 & Hw2 & E6). apply IH in E as (m & Hm & E). rewrite E in E6. rewrite E6.
    exists (v ++ w1 ++ 44 :: w2 ++ m). split; [by constructor|].
    repeat (rewrite <- app_assoc; cbn [app]). done.
Qed.

Lemma jsonObject_sound s rest : jsonObject value s = Some rest ->
  exists v, ValueText (S n) (123 :: v) /\ s = v ++ rest.
Proof.
  unfold jsonObject. destruct (skip s) as [|c r] eqn:E0; [done|].
  apply skip_here in E0 as (w & Hw & ->). destruct (Z.eqb_spec c 125) as [->|].
  - intros [= ->]. exists (w ++ [125]). split; [by constructor|]. by rewrite <- app_assoc.
  - intros (m & Hm & E)%objectLoop_sound. exists (w ++ m ++ [125]). split; [by constructor|].
    rewrite E. by rewrite <- !app_assoc.
Qed.

Lemma jsonArray_sound s rest : jsonArray value s = Some rest ->
  exists v, ValueText (S n) (91 :: v) /\ s = v ++ rest.
Proof.
  unfold jsonArray. destruct (skip s) as [|c r] eqn:E0; [done|].
  apply skip_here in E0 as (w & Hw & ->). destruct (Z.eqb_spec c 93) as [->|].
  - intros [= ->]. exists (w ++ [93]). split; [by constructor|]. by rewrite <- app_assoc.
  - intros (m & Hm & E)%arrayLoop_sound. exists (w ++ m ++ [93]). split; [by constructor|].
    rewrite E. by rewrite <- !app_assoc.
Qed.
End Sound.

Lemma jsonValue_sound n : forall s rest, jsonValue n s = Some rest ->
  exists v, ValueText n v /\ s = v ++ rest.
Proof.
  induction n as [|n IH]; intros s rest E; [done|]. destruct s as [|c s]; [done|]. cbn [jsonValue] in E.
  destruct (Z.eqb_spec c 123) as [->|].
  { apply (jsonObject_sound n _ IH) in E as (v & Hv & ->). by exists (123 :: v). }
  destruct (Z.eqb_spec c 91) as [->|].
  { apply (jsonArray_sound n _ IH) in E as (v & Hv & ->). by exists (91 :: v). }
  destruct (c =? 34).
  { apply jsonString_sound in E as (v & Hv & ->). exists v. split; [by constructor|done]. }
  destruct (c =? 116).
  { apply jsonLiteral_spec in E. eexists. split; [apply value_true|done]. }
  destruct (c =? 102).
  { apply jsonLiteral_spec in E. eexists. split; [apply value_false|done]. }
  destruct (c =? 110).
  { apply jsonLiteral_spec in E. eexists. split; [apply value_null|done]. }
  apply jsonNumber_sound in E as (v & Hv & ->). exists v. split; [by constructor|done].
Qed.

(** ** Completeness *)

Scheme Value_ind' := Induction for ValueText Sort Prop
  with Members_ind' := Induction for MembersText Sort Prop
  with Elements_ind' := Induction for ElementsText Sort Prop.
Combined Scheme json_mutind from Value_ind', Members_ind', Elements_ind'.

(** How a value starts. *)
Lemma number_head s : NumberText s -> exists c r, s = c :: r /\ (c = 45 \/ 48 <= c <= 57).
Proof.
  intros (sign & i & f & e & Hs & Hi & _ & _ & ->). destruct Hs as [->| ->]; [|eexists _, _; split; [done|auto]].
  destruct Hi as [->|(c & ds & Hc & _ & ->)]; eexists _, _; (split; [done|]); right; lia.
Qed.

Lemma value_head n v : ValueText n v -> exists c r, v = c :: r /\ isWhitespace c = false /\ c <> 93.
Proof.
  inversion 1 as [| | | ? ? (cs & _ & ->) | ? ? Hn | | | |]; subst; try (eexists _, _; by split_and!).
  destruct (number_head v Hn) as (c & r & -> & Hc). exists c, r. split_and!; [done| |lia].
  unfold isWhitespace. destruct (Z.eqb_spec c 32), (Z.eqb_spec c 9), (Z.eqb_spec c 13), (Z.eqb_spec c 10);
    try lia; done.
Qed.

Lemma members_head n m : MembersText n m -> exists r, m = 34 :: r.
Proof. inversion 1 as [? ? ? ? ? ? (cs & _ & ->)|? ? ? ? ? ? ? ? (cs & _ & ->)]; subst; by eexists. Qed.

Lemma elements_head n m : ElementsText n m -> exists c r, m = c :: r /\ isWhitespace c = false /\ c <> 93.
Proof.
  inversion 1 as [? ? ? Hv|? ? ? ? ? Hv]; subst;
    destruct (value_head _ _ Hv) as (c & r & -> & Hc); (eexists c, _; by split).
Qed.

(** A separator, perhaps after whitespace, ends a number. *)
Lemma ends_sep w c rest : Whitespace w -> c = 44 \/ c = 125 \/ c = 93 -> ends (w ++ c :: rest).
Proof.
  intros Hw Hc. destruct Hw as [|b w Hb _].
  - simpl. unfold asciiDigit. destruct Hc as [->|[->| ->]]; split_and!; done.
  - simpl. unfold isWhitespace in Hb. rewrite !orb_true_iff, !Z.eqb_eq in Hb.
    destruct Hb as [[[->| ->]| ->]| ->]; split_and!; done.
Qed.

Lemma ends_ws w : Whitespace w -> ends w.
Proof.
  intros [|b r Hb _]; [done|]. simpl. unfold isWhitespace in Hb. rewrite !orb_true_iff, !Z.eqb_eq in Hb.
  destruct Hb as [[[->| ->]| ->]| ->]; split_and!; done.
Qed.

Lemma skip_value n v rest : ValueText n v -> skip (v ++ rest) = v ++ rest.
Proof. intros (c & r & -> & Hc & _)%value_head. by apply skip_cons. Qed.

(** The separator after a value. *)
Lemma skip_sep w c rest : Whitespace w -> isWhitespace c = false -> skip (w ++ c :: rest) = c :: rest.
Proof. intros Hw Hc. rewrite skip_app by done. by apply skip_cons. Qed.

Lemma json_complete :
  (forall n v, ValueText n v -> forall rest, ends rest -> jsonValue n (v ++ rest) = Some rest) /\
  (forall n m, MembersText n m -> forall rest fuel, (length m < fuel)%nat ->
    objectLoop (jsonValue n) fuel (m ++ 125 :: rest) = Some rest) /\
  (forall n m, ElementsText n m -> forall rest fuel, (length m < fuel)%nat ->
    arrayLoop (jsonValue n) fuel (m ++ 93 :: rest) = Some rest).
Proof.
  apply json_mutind.
  - intros n rest Hr. exact (proj2 (jsonLiteral_spec (bytes_of "true") _ rest) eq_refl).
  - intros n rest Hr. exact (proj2 (jsonLiteral_spec (bytes_of "false") _ rest) eq_refl).
  - intros n rest Hr. exact (proj2 (jsonLiteral_spec (bytes_of "null") _ rest) eq_refl).
  - intros n s Hs rest Hr. assert (Hs' := Hs). destruct Hs' as (cs & _ & Es). rewrite Es at 1.
    cbn [app jsonValue]. change (34 =? 123) with false. change (34 =? 91) with false. change (34 =? 34) with true.
    cbv iota. rewrite app_comm_cons, <- Es. by apply jsonString_complete.
  - intros n s Hs rest Hr. destruct (number_head s Hs) as (c & r & Es & Hc). rewrite Es at 1.
    cbn [app jsonValue]. destruct (Z.eqb_spec c 123), (Z.eqb_spec c 91), (Z.eqb_spec c 34), (Z.eqb_spec c 116),
      (Z.eqb_spec c 102), (Z.eqb_spec c 110); try lia.
    rewrite app_comm_cons, <- Es. by apply jsonNumber_complete.
  - intros n w Hw rest Hr. cbn [app jsonValue]. change (123 =? 123) with true. cbv iota.
    unfold jsonObject. rewrite <- app_assoc; cbn [app]. by rewrite skip_sep.
  - intros n w m Hw Hm IH rest Hr. cbn [app jsonValue]. change (123 =? 123) with true. cbv iota.
    unfold jsonObject. rewrite <- !app_assoc, skip_app by done. cbn [app].
    destruct (members_head n m Hm) as (r & Em). specialize (IH rest (length (m ++ 125 :: rest))).
    rewrite Em in IH |- *. cbn [app] in IH |- *. rewrite skip_cons by done. change (34 =? 125) with false. cbv iota.
    apply IH. cbn [length]. rewrite length_app. simpl. lia.
  - intros n w Hw rest Hr. cbn [app jsonValue]. change (91 =? 123) with false. change (91 =? 91) with true. cbv iota.
    unfold jsonArray. rewrite <- app_assoc; cbn [app]. by rewrite skip_sep.
  - intros n w m Hw Hm IH rest Hr. cbn [app jsonValue]. change (91 =? 123) with false. change (91 =? 91) with true.
    cbv iota. unfold jsonArray. rewrite <- !app_assoc, skip_app by done. cbn [app].
    destruct (elements_head n m Hm) as (c & r & Em & Hc & Hne). specialize (IH rest (length (m ++ 93 :: rest))).
    rewrite Em in IH |- *. cbn [app] in IH |- *. rewrite skip_cons by done.
    destruct (Z.eqb_spec c 93); [done|]. apply IH. cbn [length]. rewrite length_app. simpl. lia.
  - intros n k w1 w2 v w3 Hk Hw1 Hw2 Hv IH Hw3 rest fuel Hf.
    destruct fuel as [|fuel]; [lia|]. destruct Hk as (cs & Hcs & Ek).
    assert (Hs : jsonString (k ++ w1 ++ 58 :: w2 ++ v ++ w3 ++ 125 :: rest) = Some (w1 ++ 58 :: w2 ++ v ++ w3 ++ 125 :: rest)).
    { apply jsonString_complete. by exists cs. }
    rewrite <- !app_assoc. cbn [app]. rewrite <- !app_assoc.
    rewrite Ek in Hs |- *. cbn [app objectLoop] in Hs |- *. rewrite Hs. simpl.
    rewrite (skip_sep w1 58) by done. change (58 =? 58) with true. cbn [negb].
    rewrite (skip_app w2), (skip_value n) by done. rewrite IH by (apply ends_sep; auto). simpl.
    by rewrite (skip_sep w3 125).
  - intros n k w1 w2 v w3 w4 m Hk Hw1 Hw2 Hv IH Hw3 Hw4 Hm IHm rest fuel Hf.
    destruct fuel as [|fuel]; [lia|]. destruct Hk as (cs & Hcs & Ek).
    set (tail := w1 ++ 58 :: w2 ++ v ++ w3 ++ 44 :: w4 ++ m ++ 125 :: rest).
    assert (Hs : jsonString (k ++ tail) = Some tail).
    { apply jsonString_complete. by exists cs. }
    assert (Et : (k ++ w1 ++ 58 :: w2 ++ v ++ w3 ++ 44 :: w4 ++ m) ++ 125 :: rest = k ++ tail).
    { unfold tail. repeat (rewrite <- app_assoc; cbn [app]). done. }
    rewrite Et. rewrite Ek in Hs |- *. cbn [app objectLoop] in Hs |- *. rewrite Hs. simpl. unfold tail.
    rewrite (skip_sep w1 58) by done. change (58 =? 58) with true. cbn [negb].
    rewrite (skip_app w2), (skip_value n) by done. rewrite IH by (apply ends_sep; auto). simpl.
    rewrite (skip_sep w3 44) by done. change (44 =? 125) with false. change (44 =? 44) with true. cbn [negb].
    rewrite (skip_app w4) by done. destruct (members_head n m Hm) as (r & Em).
    assert (Esk : skip (m ++ 125 :: rest) = m ++ 125 :: rest) by (rewrite Em; by apply skip_cons).
    rewrite Esk. apply IHm. rewrite !length_app in Hf. simpl in Hf. rewrite !length_app in Hf. simpl in Hf.
    rewrite !length_app in Hf. lia.
  - intros n v w Hv IH Hw rest fuel Hf. destruct fuel as [|fuel]; [lia|].
    destruct (value_head n v Hv) as (c & r & Ev & _). specialize (IH (w ++ 93 :: rest) ltac:(apply ends_sep; auto)).
    rewrite <- app_assoc. rewrite Ev in IH |- *. cbn [app arrayLoop] in IH |- *. rewrite IH. simpl.
    by rewrite (skip_sep w 93).
  - intros n v w1 w2 m Hv IH Hw1 Hw2 Hm IHm rest fuel Hf. destruct fuel as [|fuel]; [lia|].
    destruct (value_head n v Hv) as (c & r & Ev & _).
    specialize (IH (w1 ++ 44 :: w2 ++ m ++ 93 :: rest) ltac:(apply ends_sep; auto)).
    assert (Et : (v ++ w1 ++ 44 :: w2 ++ m) ++ 93 :: rest = v ++ w1 ++ 44 :: w2 ++ m ++ 93 :: rest).
    { repeat (rewrite <- app_assoc; cbn [app]). done. }
    rewrite Et. rewrite Ev in IH |- *. cbn [app arrayLoop] in IH |- *. rewrite IH. simpl.
    rewrite (skip_sep w1 44) by done. change (44 =? 93) with false. change (44 =? 44) with true. cbn [negb].
    rewrite (skip_app w2) by done. destruct (elements_head n m Hm) as (c' & r' & Em & Hc' & _).
    assert (Esk : skip (m ++ 93 :: rest) = m ++ 93 :: rest) by (rewrite Em; by apply skip_cons).
    rewrite Esk. apply IHm. rewrite !length_app in Hf. simpl in Hf. rewrite !length_app in Hf. lia.
Qed.

(** C36: the payload validator accepts exactly the JSON texts of RFC 8259 whose
    values are nested at most sixteen levels below the outermost one: nothing
    else follows, no trailing comma, no bare word, no unpaired surrogate, no
    number with a leading zero; and it always decides. *)
Theorem jsonValid_exact s : jsonValid s = true <-> JsonText kJsonLevels s.
Proof.
  unfold jsonValid, JsonText. split.
  - destruct (jsonValue kJsonLevels (skip s)) as [rest|] eqn:E; [|done].
    intros Hl%Nat.eqb_eq%nil_length_inv. apply jsonValue_sound in E as (v & Hv & E).
    destruct (skip_spec s) as (w1 & Hw1 & Es). destruct (skip_spec rest) as (w2 & Hw2 & Er).
    rewrite Hl, app_nil_r in Er. exists w1, v, w2. split_and!; try done. by rewrite Es, E, Er at 1.
  - intros (w1 & v & w2 & Hw1 & Hv & Hw2 & ->).
    rewrite skip_app, (skip_value kJsonLevels) by done.
    rewrite (proj1 json_complete kJsonLevels v Hv w2 (ends_ws w2 Hw2)). by rewrite skip_all.
Qed.
