(* ===== verification/CompanionProtocol.v ===== *)
(** * The companion envelope protocol (src/src/kitsu_companion_protocol.h, .cpp)

    Authenticated envelopes and the transcript proofs of the BLE handshake and of
    pairing.  [CompanionCrypto] is the interface of the source; pointers passed to
    these functions are never null at the call sites.  A [cursor] is the list of
    the bytes not read yet. *)

From S2P Require Import Prelude CompanionText CompanionJson LengthFrame.

Open Scope kitsu_scope.

Definition kProtocolVersion : Z := 1.
Definition kEnvelopeNonceBytes : nat := 16.
Definition kRequestIdBytes : nat := 16.
Definition kEnvelopeMacBytes : nat := 32.
Definition kEnvelopeKeyBytes : nat := 32.
Definition kMaximumOperationBytes : nat := 48.
Definition kMaximumEnvelopePayloadBytes : nat := Z.to_nat 12000.

(** [class CompanionCrypto]; a part list is the input of the hash, [None] a call
    that returned [false]. *)
Class CompanionCrypto (W : Type) := {
  ccRandomBytes : nat -> M W (option (list Z));
  ccSha256 : list (list Z) -> M W (option (list Z));
  ccHmacSha256 : list Z -> list (list Z) -> M W (option (list Z));
  ccHkdfSha256 : list Z -> list Z -> list Z -> M W (option (list Z));
}.

(** [enum class EnvelopeChannel : uint8_t]. *)
Definition EnvelopeChannel : Type := Z.
Definition ChannelRequest : EnvelopeChannel := 0.
Definition ChannelResponse : EnvelopeChannel := 1.
Definition ChannelEvent : EnvelopeChannel := 2.

Inductive ProtocolResult := POk | PInvalidArgument | POutputTooSmall | PMalformedJson
  | PDuplicateField | PUnknownField | PMissingField | PUnsupportedVersion | PInvalidChannel
  | PInvalidSequence | PUnexpectedSequence | PInvalidBase64 | PInvalidOperation | PPayloadTooLarge
  | PAuthenticationFailed | PInvalidPayloadUtf8 | PInvalidPayloadJson | PCryptoFailed.

#[export] Instance ProtocolResult_eq_dec : EqDecision ProtocolResult.
Proof. solve_decision. Defined.

Definition protocolResultName (r : ProtocolResult) : string :=
  match r with
  | POk => "ok"
  | PInvalidArgument => "invalid_argument"
  | POutputTooSmall => "output_too_small"
  | PMalformedJson => "malformed_json"
  | PDuplicateField => "duplicate_field"
  | PUnknownField => "unknown_field"
  | PMissingField => "missing_field"
  | PUnsupportedVersion => "unsupported_version"
  | PInvalidChannel => "invalid_channel"
  | PInvalidSequence => "invalid_sequence"
  | PUnexpectedSequence => "unexpected_sequence"
  | PInvalidBase64 => "invalid_base64"
  | PInvalidOperation => "invalid_operation"
  | PPayloadTooLarge => "payload_too_large"
  | PAuthenticationFailed => "authentication_failed"
  | PInvalidPayloadUtf8 => "invalid_payload_utf8"
  | PInvalidPayloadJson => "invalid_payload_json"
  | PCryptoFailed => "crypto_failed"
  end.

(** The payload itself is returned beside the envelope. *)
Record DecodedEnvelope := mkEnvelope {
  env_version : Z;
  env_channel : EnvelopeChannel;
  env_sequence : Z;
  env_nonce : list Z;
  env_requestId : list Z;
  env_operation : list Z;
  env_payloadBytes : nat;
}.

(** ** Operations names *)

Definition operationChar (c : Z) : bool :=
  (97 <=? c) && (c <=? 122) || (65 <=? c) && (c <=? 90) || (48 <=? c) && (c <=? 57) ||
  (c =? 46) || (c =? 95) || (c =? 45) || (c =? 47).

Definition operationValid (operation : list Z) : bool :=
  if (length operation =? 0)%nat || (kMaximumOperationBytes <? length operation)%nat then false
  else forallb operationChar operation.

(** ** The outer object *)

Definition FieldVersion : nat := 0.
Definition FieldChannel : nat := 1.
Definition FieldSequence : nat := 2.
Definition FieldNonce : nat := 3.
Definition FieldRequestId : nat := 4.
Definition FieldOperation : nat := 5.
Definition FieldPayload : nat := 6.
Definition FieldMac : nat := 7.
Definition FieldCount : nat := 8.

Definition fieldNames : list (list Z) :=
  [bytes_of "v"; bytes_of "channel"; bytes_of "seq"; bytes_of "nonce_b64"; bytes_of "request_id_b64";
   bytes_of "op"; bytes_of "payload_b64"; bytes_of "mac_b64"].

(** The first name equal to the key. *)
Fixpoint nameIndex (names : list (list Z)) (key : list Z) (i : nat) : option nat :=
  match names with
  | [] => None
  | name :: rest => if beq key name then Some i else nameIndex rest key (S i)
  end.
Definition fieldIndex (key : list Z) : option nat := nameIndex fieldNames key 0.

Definition skipWhitespace (input : list Z) : list Z := skip input.

(** The bytes up to the closing quote, with no escape and no control character. *)
Fixpoint simpleStringLoop (input : list Z) : option (list Z * list Z) :=
  match input with
  | [] => None
  | c :: rest =>
      if c =? 34 then Some ([], rest)
      else if (c <? 0x20) || (c =? 92) then None
      else '(span, rest') ← simpleStringLoop rest; Some (c :: span, rest')
  end.
Definition parseSimpleString (input : list Z) : option (list Z * list Z) :=
  match input with
  | c :: rest => if negb (c =? 34) then None else simpleStringLoop rest
  | [] => None
  end.

Fixpoint digitSpan (input : list Z) : list Z * list Z :=
  match input with
  | c :: rest =>
      if asciiDigit c then let '(span, rest') := digitSpan rest in (c :: span, rest')
      else ([], input)
  | [] => ([], [])
  end.
Definition parseUnsignedToken (input : list Z) : option (list Z * list Z) :=
  let '(span, rest) := digitSpan input in
  if (length span =? 0)%nat || (1 <? length span)%nat && (byte_at input 0 =? 48)
  then None else Some (span, rest).

(** The tests after the loop. *)
Definition outerEnd (fields : list (list Z)) (seen : Z) (input : list Z)
  : ProtocolResult + list (list Z) :=
  match skipWhitespace input with
  | _ :: _ => inl PMalformedJson
  | [] => if negb (seen =? u16 (Z.shiftl 1 (Z.of_nat FieldCount) - 1)) then inl PMissingField
          else inr fields
  end.

(** The loop over the members; a turn consumes a byte, so a fuel of the length
    of the input never runs out ([outerLoop_fuel]). *)
Fixpoint outerLoop (fuel : nat) (fields : list (list Z)) (seen : Z) (input : list Z)
  : ProtocolResult + list (list Z) :=
  match fuel, input with
  | O, _ | _, [] => outerEnd fields seen input
  | S fuel', _ =>
      match parseSimpleString input with
      | None => inl PMalformedJson
      | Some (key, r1) =>
          match fieldIndex key with
          | None => inl PUnknownField
          | Some index =>
              let mask := u16 (Z.shiftl 1 (Z.of_nat index)) in
              if negb (Z.land seen mask =? 0) then inl PDuplicateField
              else
                let seen := Z.lor seen mask in
                match skipWhitespace r1 with
                | colon :: r2 =>
                    if negb (colon =? 58) then inl PMalformedJson
                    else
                      let numeric := (index =? FieldVersion)%nat || (index =? FieldChannel)%nat in
                      match (if numeric then parseUnsignedToken (skipWhitespace r2)
                             else parseSimpleString (skipWhitespace r2)) with
                      | None => inl PMalformedJson
                      | Some (value, r3) =>
                          let fields := <[index := value]> fields in
                          match skipWhitespace r3 with
                          | c :: r4 =>
                              if c =? 125 then outerEnd fields seen r4
                              else if negb (c =? 44) then inl PMalformedJson
                              else outerLoop fuel' fields seen (skipWhitespace r4)
                          | [] => inl PMalformedJson
                          end
                      end
                | [] => inl PMalformedJson
                end
          end
      end
  end.

Definition parseOuterObject (json : list Z) : ProtocolResult + list (list Z) :=
  match skipWhitespace json with
  | brace :: r1 =>
      if negb (brace =? 123) then inl PMalformedJson
      else
        let r2 := skipWhitespace r1 in
        if (0 <? length r2)%nat && (byte_at r2 0 =? 125) then inl PMissingField
        else outerLoop (length r2) (replicate FieldCount []) 0 r2
  | [] => inl PMalformedJson
  end.

(** The span of a field. *)
Definition field (fields : list (list Z)) (index : nat) : list Z := nth index fields [].

(** ** Message authentication *)

Definition envelopeDomain : list Z := bytes_of "KITSU-ENV-1" ++ [0].

(** The parts the MAC covers. *)
Definition envelopeParts (channel : EnvelopeChannel) (sequence : Z)
    (nonce requestId operation payload : list Z) : list (list Z) :=
  [envelopeDomain; [u8 channel]; putU64Be sequence; nonce; requestId;
   putU16Be (u16 (Z.of_nat (length operation))); operation;
   putU32Be (u32 (Z.of_nat (length payload))); payload].

Section Protocol.
Context {W : Type} `{CompanionCrypto W}.

Definition calculateEnvelopeMac (channel : EnvelopeChannel) (sequence : Z)
    (nonce requestId operation payload key : list Z) : M W (ProtocolResult + list Z) :=
  mac <- ccHmacSha256 key (envelopeParts channel sequence nonce requestId operation payload) ;;
  ret (match mac with Some mac => inr mac | None => inl PCryptoFailed end).

(** [OutputWriter]: the text written so far, [None] after an append that does
    not fit. *)
Definition append (capacity : nat) (output : option (list Z)) (text : list Z) : option (list Z) :=
  out ← output;
  if (capacity <? length out + length text)%nat then None else Some (out ++ text).
Definition appendBase64 (capacity : nat) (output : option (list Z)) (input : list Z)
  : option (list Z) :=
  out ← output;
  encoded ← encodeBase64Url input (capacity - length out);
  Some (out ++ encoded).

(** The text of [encodeEnvelope]; a short-circuited [&&] chain stops at the
    first append that fails. *)
Definition envelopeText (capacity : nat) (channel : EnvelopeChannel) (sequence : Z)
    (nonce requestId operation payload mac : list Z) : option (list Z) :=
  let lit := append capacity in
  let b64 := appendBase64 capacity in
  let w := lit (Some []) (js "{'v':1,'channel':") in
  let w := lit w [48 + u8 channel] in
  let w := lit w (js ",'seq':'") in
  let w := lit w (formatDecimal sequence) in
  let w := lit w (js "','nonce_b64':'") in
  let w := b64 w nonce in
  let w := lit w (js "','request_id_b64':'") in
  let w := b64 w requestId in
  let w := lit w (js "','op':'") in
  let w := lit w operation in
  let w := lit w (js "','payload_b64':'") in
  let w := b64 w payload in
  let w := lit w (js "','mac_b64':'") in
  let w := b64 w mac in
  lit w (js "'}").

(** [operation] is the content of the C string, cut at 49 bytes by
    [stringLengthBounded]. *)
Definition encodeEnvelope (channel : EnvelopeChannel) (sequence : Z)
    (nonce requestId operation payload key : list Z) (outputCapacity : nat)
  : M W (ProtocolResult + list Z) :=
  let operation := take (S kMaximumOperationBytes) operation in
  if ChannelEvent <? channel then ret (inl PInvalidChannel)
  else if sequence =? 0 then ret (inl PInvalidSequence)
  else if negb (operationValid operation) then ret (inl PInvalidOperation)
  else if (UINT32_MAX <? Z.of_nat (length payload)) ||
          (kMaximumEnvelopePayloadBytes <? length payload)%nat
  then ret (inl PPayloadTooLarge)
  else if negb (validUtf8 payload) || negb (jsonValid payload) then ret (inl PInvalidPayloadJson)
  else
    macResult <- calculateEnvelopeMac channel sequence nonce requestId operation payload key ;;
    match macResult with
    | inl r => ret (inl r)
    | inr mac =>
        ret (match envelopeText outputCapacity channel sequence nonce requestId operation payload mac with
             | None => inl POutputTooSmall
             | Some json => inr json
             end)
    end.

(** A field that must decode to exactly [bytes] bytes from [chars] characters. *)
Definition decodeFixed (span : list Z) (chars bytes : nat) : option (list Z) :=
  if negb (length span =? chars)%nat then None
  else
    out ← decodeBase64Url span bytes;
    if (length out =? bytes)%nat then Some out else None.

(** The part of [decodeAndVerifyEnvelope] after the outer object was parsed. *)
Definition decodeFields (fields : list (list Z)) (key : list Z) (expectedChannel : EnvelopeChannel)
    (expectedSequence : Z) (payloadCapacity : nat) : M W (ProtocolResult + DecodedEnvelope * list Z) :=
  let version := field fields FieldVersion in
  let channelText := field fields FieldChannel in
  if negb (length version =? 1)%nat || negb (byte_at version 0 =? 49)
  then ret (inl PUnsupportedVersion)
  else if negb (length channelText =? 1)%nat || (byte_at channelText 0 <? 48) ||
          (50 <? byte_at channelText 0)
  then ret (inl PInvalidChannel)
  else
    let channel := byte_at channelText 0 - 48 in
    if negb (channel =? expectedChannel) then ret (inl PInvalidChannel)
    else
      match parseDecimal (field fields FieldSequence) with
      | None => ret (inl PInvalidSequence)
      | Some sequence =>
          if negb (sequence =? expectedSequence) then ret (inl PUnexpectedSequence)
          else
            match decodeFixed (field fields FieldNonce) 22 kEnvelopeNonceBytes with
            | None => ret (inl PInvalidBase64)
            | Some nonce =>
                match decodeFixed (field fields FieldRequestId) 22 kRequestIdBytes with
                | None => ret (inl PInvalidBase64)
                | Some requestId =>
                    let operation := field fields FieldOperation in
                    if negb (operationValid operation) then ret (inl PInvalidOperation)
                    else
                      let maximumDecoded := base64DecodedBytes (length (field fields FieldPayload)) in
                      if (kMaximumEnvelopePayloadBytes <? maximumDecoded)%nat ||
                         (payloadCapacity <? maximumDecoded)%nat
                      then ret (inl PPayloadTooLarge)
                      else
                        match decodeBase64Url (field fields FieldPayload) payloadCapacity with
                        | None => ret (inl PInvalidBase64)
                        | Some payload =>
                            match decodeFixed (field fields FieldMac) 43 kEnvelopeMacBytes with
                            | None => ret (inl PInvalidBase64)
                            | Some suppliedMac =>
                                result <- calculateEnvelopeMac channel sequence nonce requestId operation
                                            payload key ;;
                                ret (match result with
                                | inl r => inl r
                                | inr expectedMac =>
                                    if negb (constantTimeEqual suppliedMac expectedMac kEnvelopeMacBytes)
                                    then inl PAuthenticationFailed
                                    else if negb (validUtf8 payload) then inl PInvalidPayloadUtf8
                                    else if negb (jsonValid payload) then inl PInvalidPayloadJson
                                    else inr (mkEnvelope kProtocolVersion channel sequence nonce requestId
                                                operation (length payload), payload)
                                end)
                            end
                        end
                end
            end
      end.

Definition decodeAndVerifyEnvelope (json key : list Z) (expectedChannel : EnvelopeChannel)
    (expectedSequence : Z) (payloadCapacity : nat) : M W (ProtocolResult + DecodedEnvelope * list Z) :=
  if (length json =? 0)%nat then ret (inl PInvalidArgument)
  else if kMaximumFrameBytes <? Z.of_nat (length json) then ret (inl PPayloadTooLarge)
  else
    match parseOuterObject json with
    | inl r => ret (inl r)
    | inr fields => decodeFields fields key expectedChannel expectedSequence payloadCapacity
    end.

(** ** Transcript proofs *)

Definition roleAllowed (role : string) : bool :=
  String.eqb role "device" || String.eqb role "client" || String.eqb role "ok".
Definition controllerRoleAllowed (role : string) : bool :=
  String.eqb role "owner" || String.eqb role "caretaker".

(** A seven-byte identifier: "KT", four upper-case hexadecimal digits, NUL. *)
Definition uidValid (deviceUid : list Z) : bool :=
  (byte_at deviceUid 0 =? 75) && (byte_at deviceUid 1 =? 84) && (byte_at deviceUid 6 =? 0) &&
  forallb (fun i => let c := byte_at deviceUid i in
             (48 <=? c) && (c <=? 57) || (65 <=? c) && (c <=? 70)) (seq 2 4).

Definition handshakeParts (role : string) (controllerId clientNonce deviceNonce : list Z)
  : list (list Z) :=
  [bytes_of "KITSU-HS-1" ++ [0]; bytes_of role; [0]; controllerId; clientNonce; deviceNonce].

Definition pairingParts (role : string) (controllerId root deviceUid clientNonce deviceNonce : list Z)
  : list (list Z) :=
  [bytes_of "KITSU-PAIR-1" ++ [0]; bytes_of role; [0]; controllerId; root; take 6 deviceUid;
   clientNonce; deviceNonce].

Definition roleBoundParts (proofRole controllerRole : string)
    (controllerId root deviceUid clientNonce deviceNonce : list Z) : list (list Z) :=
  [bytes_of "KITSU-PAIR-2" ++ [0]; bytes_of proofRole; [0]; bytes_of controllerRole; [0];
   controllerId; root; take 6 deviceUid; clientNonce; deviceNonce].

(** The result of an HMAC over a transcript. *)
Definition proofOf (root : list Z) (parts : list (list Z)) : M W (ProtocolResult + list Z) :=
  out <- ccHmacSha256 root parts ;;
  ret (match out with Some out => inr out | None => inl PCryptoFailed end).

Definition makeHandshakeProof (root : list Z) (role : string)
    (controllerId clientNonce deviceNonce : list Z) : M W (ProtocolResult + list Z) :=
  if negb (roleAllowed role) then ret (inl PInvalidArgument)
  else proofOf root (handshakeParts role controllerId clientNonce deviceNonce).

(** The client-to-device and device-to-client keys. *)
Definition deriveBleSessionKeys (root clientNonce deviceNonce : list Z)
  : M W (ProtocolResult + list Z * list Z) :=
  salt <- ccSha256 [clientNonce; deviceNonce] ;;
  match salt with
  | None => ret (inl PCryptoFailed)
  | Some salt =>
      c2d <- ccHkdfSha256 root salt (bytes_of "kitsu868/ble/c2d/v1") ;;
      match c2d with
      | None => ret (inl PCryptoFailed)
      | Some c2d =>
          d2c <- ccHkdfSha256 root salt (bytes_of "kitsu868/ble/d2c/v1") ;;
          ret (match d2c with Some d2c => inr (c2d, d2c) | None => inl PCryptoFailed end)
      end
  end.

Definition makePairingProof (root : list Z) (role : string)
    (controllerId deviceUid clientNonce deviceNonce : list Z) : M W (ProtocolResult + list Z) :=
  if negb (roleAllowed role) || negb (uidValid deviceUid) then ret (inl PInvalidArgument)
  else proofOf root (pairingParts role controllerId root deviceUid clientNonce deviceNonce).

Definition makeRoleBoundPairingProof (root : list Z) (proofRole controllerRole : string)
    (controllerId deviceUid clientNonce deviceNonce : list Z) : M W (ProtocolResult + list Z) :=
  if negb (roleAllowed proofRole) || negb (controllerRoleAllowed controllerRole) ||
     negb (uidValid deviceUid)
  then ret (inl PInvalidArgument)
  else proofOf root (roleBoundParts proofRole controllerRole controllerId root deviceUid clientNonce
                       deviceNonce).
End Protocol.
