(* ===== verification/CompanionProtocolFacts.v ===== *)
(** * Envelopes: round trip, authenticity and unambiguous transcripts

    What [encodeEnvelope] writes, [decodeAndVerifyEnvelope] reads back; what is
    accepted carries the MAC of exactly the fields returned; no two messages that
    are authenticated anywhere in the protocol are the same bytes. *)

From S2P Require Import Prelude OtaCodec OtaCodecFacts CompanionText CompanionTextFacts.
From S2P Require Import CompanionJson CompanionJsonFacts LengthFrame CompanionProtocol.

(** ** The outer object *)

(** A character that needs no escape. *)
Definition plain (c : Z) : Prop := 0x20 <= c /\ c <> 34 /\ c <> 92.

Lemma simpleString_app s rest : Forall plain s -> parseSimpleString (34 :: s ++ 34 :: rest) = Some (s, rest).
Proof.
  intros Hs. simpl. induction Hs as [|c s (H1 & H2 & H3) _ IH]; [done|]. simpl.
  destruct (Z.eqb_spec c 34); [done|]. destruct (Z.ltb_spec c 0x20); [lia|].
  destruct (Z.eqb_spec c 92); [done|]. cbn [orb]. by rewrite IH.
Qed.

Lemma simpleStringLoop_length s : forall k r, simpleStringLoop s = Some (k, r) -> (length r < length s)%nat.
Proof.
  induction s as [|c s IH]; intros k r E; [done|]. simpl in E. destruct (c =? 34); [simplify_eq; simpl; lia|].
  destruct (_ || _); [done|]. destruct (simpleStringLoop s) as [[k' r']|]; [|done]. simpl in E. simplify_eq.
  specialize (IH _ _ eq_refl). simpl. lia.
Qed.

Lemma parseSimpleString_length s k r : parseSimpleString s = Some (k, r) -> (length r < length s)%nat.
Proof.
  destruct s as [|c s]; [done|]. simpl. destruct (negb _); [done|]. intros E%simpleStringLoop_length. lia.
Qed.

Lemma digitSpan_length s : (length (digitSpan s).2 <= length s)%nat.
Proof.
  induction s as [|c s IH]; [done|]. simpl. destruct (asciiDigit c); [|simpl; lia].
  destruct (digitSpan s). simpl in *. lia.
Qed.

Lemma parseUnsignedToken_length s k r : parseUnsignedToken s = Some (k, r) -> (length r <= length s)%nat.
Proof.
  unfold parseUnsignedToken. pose proof (digitSpan_length s) as Hl. destruct (digitSpan s) as [span rest].
  destruct (_ || _); [done|]. intros [= <- <-]. done.
Qed.

Lemma skipWhitespace_length s : (length (skipWhitespace s) <= length s)%nat.
Proof. apply skip_length. Qed.

(** More fuel than bytes changes nothing. *)
Lemma outerLoop_fuel n : forall f fields seen input, (length input < n)%nat -> (length input <= f)%nat ->
  outerLoop f fields seen input = outerLoop (length input) fields seen input.
Proof.
  induction n as [|n IH]; intros f fields seen input Hn Hf; [lia|].
  destruct input as [|b input]; [by destruct f|]. destruct f as [|f]; [simpl in Hf; lia|].
  cbn [length outerLoop]. simpl in Hn, Hf.
  destruct (parseSimpleString (b :: input)) as [[key r1]|] eqn:E1; [|done].
  apply parseSimpleString_length in E1. simpl in E1.
  destruct (fieldIndex key) as [index|]; [|done]. destruct (negb _); [done|].
  pose proof (skipWhitespace_length r1) as L1. destruct (skipWhitespace r1) as [|colon r2]; [done|].
  destruct (negb _); [done|]. pose proof (skipWhitespace_length r2) as L2. simpl in L1.
  assert (Hv : forall value r3, (if (index =? FieldVersion)%nat || (index =? FieldChannel)%nat
    then parseUnsignedToken (skipWhitespace r2) else parseSimpleString (skipWhitespace r2)) = Some (value, r3) ->
    (length r3 <= length r2)%nat).
  { intros value r3 E. destruct (_ || _).
    - apply parseUnsignedToken_length in E. lia.
    - apply parseSimpleString_length in E. lia. }
  destruct (if (index =? FieldVersion)%nat || (index =? FieldChannel)%nat then _ else _) as [[value r3]|]; [|done].
  specialize (Hv _ _ eq_refl). pose proof (skipWhitespace_length r3) as L3.
  destruct (skipWhitespace r3) as [|c r4]; [done|]. destruct (c =? 125); [done|]. destruct (negb _); [done|].
  pose proof (skipWhitespace_length r4) as L4. simpl in L3.
  rewrite (IH f), (IH (length input)); [done|lia..].
Qed.

Definition strMember (name value : list Z) : list Z := 34 :: name ++ 34 :: 58 :: 34 :: value ++ [34].
Definition numMember (name value : list Z) : list Z := 34 :: name ++ 34 :: 58 :: value.

(** What the loop does after a member: the separator [c] and the rest. *)
Definition afterMember (fields : list (list Z)) (seen c : Z) (r : list Z) : ProtocolResult + list (list Z) :=
  if c =? 125 then outerEnd fields seen r
  else if negb (c =? 44) then inl PMalformedJson
  else let r := skipWhitespace r in outerLoop (length r) fields seen r.

Lemma outerLoop_string f name value index fields seen c r :
  Forall plain name -> Forall plain value -> fieldIndex name = Some index -> (2 <= index)%nat ->
  Z.land seen (u16 (Z.shiftl 1 (Z.of_nat index))) = 0 -> isWhitespace c = false ->
  (length (strMember name value ++ c :: r) <= f)%nat ->
  outerLoop f fields seen (strMember name value ++ c :: r) =
    afterMember (<[index := value]> fields) (Z.lor seen (u16 (Z.shiftl 1 (Z.of_nat index)))) c r.
Proof.
  intros Hn Hv Hi Hge Hseen Hc Hf. unfold strMember in *.
  assert (Et : (34 :: name ++ 34 :: 58 :: 34 :: value ++ [34]) ++ c :: r =
    34 :: name ++ 34 :: 58 :: 34 :: value ++ 34 :: c :: r).
  { cbn [app]. rewrite <- !app_assoc. cbn [app]. by rewrite <- !app_assoc. }
  rewrite Et in *. destruct f as [|f]; [simpl in Hf; lia|]. cbn [outerLoop].
  rewrite simpleString_app, Hi, Hseen by done. change (0 =? 0) with true. cbn [negb].
  unfold skipWhitespace at 1. rewrite skip_cons by done. change (58 =? 58) with true. cbn [negb].
  assert (Enum : (index =? FieldVersion)%nat || (index =? FieldChannel)%nat = false).
  { unfold FieldVersion, FieldChannel. destruct (Nat.eqb_spec index 0), (Nat.eqb_spec index 1); lia || done. }
  rewrite Enum. unfold skipWhitespace at 1. rewrite skip_cons, simpleString_app by done.
  unfold skipWhitespace at 1. rewrite skip_cons by done. unfold afterMember.
  destruct (c =? 125); [done|]. destruct (negb (c =? 44)); [done|]. cbv zeta.
  eapply outerLoop_fuel; [apply Nat.lt_succ_diag_r|].
  pose proof (skipWhitespace_length r). simpl in Hf. rewrite length_app in Hf. simpl in Hf.
  rewrite length_app in Hf. simpl in Hf. lia.
Qed.

Lemma digitSpan_app ds c r : Digits ds -> asciiDigit c = false -> digitSpan (ds ++ c :: r) = (ds, c :: r).
Proof.
  intros Hd Hc. induction Hd as [|d ds Hdd _ IH]; simpl; [by rewrite Hc|]. by rewrite Hdd, IH.
Qed.

Lemma outerLoop_number f name d index fields seen c r :
  Forall plain name -> 48 <= d <= 57 -> fieldIndex name = Some index -> (index < 2)%nat ->
  Z.land seen (u16 (Z.shiftl 1 (Z.of_nat index))) = 0 -> isWhitespace c = false -> asciiDigit c = false ->
  (length (numMember name [d] ++ c :: r) <= f)%nat ->
  outerLoop f fields seen (numMember name [d] ++ c :: r) =
    afterMember (<[index := [d]]> fields) (Z.lor seen (u16 (Z.shiftl 1 (Z.of_nat index)))) c r.
Proof.
  intros Hn Hd Hi Hge Hseen Hc Hcd Hf. unfold numMember in *.
  assert (Et : (34 :: name ++ 34 :: 58 :: [d]) ++ c :: r = 34 :: name ++ 34 :: 58 :: d :: c :: r).
  { cbn [app]. by rewrite <- !app_assoc. }
  rewrite Et in *. destruct f as [|f]; [simpl in Hf; lia|]. cbn [outerLoop].
  rewrite simpleString_app, Hi, Hseen by done. change (0 =? 0) with true. cbn [negb].
  unfold skipWhitespace at 1. rewrite skip_cons by done. change (58 =? 58) with true. cbn [negb].
  assert (Enum : (index =? FieldVersion)%nat || (index =? FieldChannel)%nat = true).
  { unfold FieldVersion, FieldChannel. destruct (Nat.eqb_spec index 0), (Nat.eqb_spec index 1); lia || done. }
  assert (Edig : asciiDigit d = true).
  { unfold asciiDigit. destruct (Z.leb_spec 48 d), (Z.leb_spec d 57); try lia; done. }
  assert (Hws : isWhitespace d = false).
  { unfold isWhitespace. destruct (Z.eqb_spec d 32), (Z.eqb_spec d 9), (Z.eqb_spec d 13), (Z.eqb_spec d 10);
      try lia; done. }
  rewrite Enum. unfold skipWhitespace at 1. rewrite skip_cons by done.
  unfold parseUnsignedToken. change (d :: c :: r) with ([d] ++ c :: r).
  rewrite digitSpan_app; [|by constructor|done]. cbn [length Nat.eqb Nat.ltb Nat.leb andb orb].
  unfold skipWhitespace at 1. rewrite skip_cons by done. unfold afterMember.
  destruct (c =? 125); [done|]. destruct (negb (c =? 44)); [done|]. cbv zeta.
  eapply outerLoop_fuel; [apply Nat.lt_succ_diag_r|].
  pose proof (skipWhitespace_length r). simpl in Hf. rewrite length_app in Hf. simpl in Hf. lia.
Qed.

(** ** The text of an envelope *)

(** The object [encodeEnvelope] writes, closed by [last]. *)
Definition envelopeJson (last channel sequence : Z) (nonce requestId operation payload mac : list Z)
  : list Z :=
  123 :: numMember (bytes_of "v") [49] ++ 44 :: numMember (bytes_of "channel") [48 + channel] ++
  44 :: strMember (bytes_of "seq") (formatDecimal sequence) ++
  44 :: strMember (bytes_of "nonce_b64") (base64url nonce) ++
  44 :: strMember (bytes_of "request_id_b64") (base64url requestId) ++
  44 :: strMember (bytes_of "op") operation ++
  44 :: strMember (bytes_of "payload_b64") (base64url payload) ++
  44 :: strMember (bytes_of "mac_b64") (base64url mac) ++ [last].

Definition envelopeFields (channel sequence : Z) (nonce requestId operation payload mac : list Z)
  : list (list Z) :=
  [[49]; [48 + channel]; formatDecimal sequence; base64url nonce; base64url requestId; operation;
   base64url payload; base64url mac].

Lemma b64Char_plain v : 0 <= v < 64 -> plain (b64Char v).
Proof.
  intros Hv. unfold plain, b64Char.
  destruct (Z.ltb_spec v 26), (Z.ltb_spec v 52), (Z.ltb_spec v 62), (Z.eqb_spec v 62); lia.
Qed.

Lemma base64url_plain n : forall b, (length b < n)%nat -> bytesOk b -> Forall plain (base64url b).
Proof.
  assert (R : forall x, isByte x -> 0 <= x / 4 < 64 /\ 0 <= x mod 4 * 16 < 64 /\ 0 <= x mod 4 <= 3 /\
    0 <= x / 16 < 16 /\ 0 <= x mod 16 * 4 < 61 /\ 0 <= x / 64 < 4 /\ 0 <= x mod 64 < 64).
  { unfold isByte. intros x Hx. pose proof (Z.div_mod x 4). pose proof (Z.div_mod x 16).
    pose proof (Z.div_mod x 64). pose proof (Z.mod_pos_bound x 4). pose proof (Z.mod_pos_bound x 16).
    pose proof (Z.mod_pos_bound x 64). lia. }
  induction n as [|n IH]; intros b Hn Hb; [lia|].
  destruct b as [|x [|y [|z b]]]; cbn [base64url].
  - constructor.
  - inversion Hb as [|? ? Hx _]; subst. destruct (R x Hx) as (?&?&?&?&?&?&?).
    repeat (constructor; [apply b64Char_plain; lia|]). constructor.
  - inversion Hb as [|? ? Hx Hb']; inversion Hb' as [|? ? Hy _]; subst.
    destruct (R x Hx) as (?&?&?&?&?&?&?). destruct (R y Hy) as (?&?&?&?&?&?&?).
    repeat (constructor; [apply b64Char_plain; lia|]). constructor.
  - inversion Hb as [|? ? Hx Hb']; inversion Hb' as [|? ? Hy Hb2]; inversion Hb2 as [|? ? Hz Hb3]; subst.
    destruct (R x Hx) as (?&?&?&?&?&?&?). destruct (R y Hy) as (?&?&?&?&?&?&?).
    destruct (R z Hz) as (?&?&?&?&?&?&?).
    repeat (constructor; [apply b64Char_plain; lia|]). apply IH; [simpl in Hn; lia|done].
Qed.

Lemma b64_plain b : bytesOk b -> Forall plain (base64url b).
Proof. apply (base64url_plain (S (length b))). lia. Qed.

Lemma decimal_plain n : 0 <= n < 2 ^ 64 -> Forall plain (formatDecimal n).
Proof.
  intros Hn. eapply Forall_impl; [by apply formatDecimal_chars|]. intros c Hc.
  apply isDigit_range in Hc. unfold plain. lia.
Qed.

Lemma operation_plain op : operationValid op = true -> Forall plain op.
Proof.
  unfold operationValid. destruct (_ || _); [done|]. rewrite forallb_forall. intros Ho.
  apply List.Forall_forall. intros c Hc. specialize (Ho c Hc). unfold operationChar in Ho. unfold plain.
  rewrite !orb_true_iff, !andb_true_iff, !Z.leb_le, !Z.eqb_eq in Ho. lia.
Qed.

Lemma plain_literal s : forallb (fun c => (0x20 <=? c) && negb (c =? 34) && negb (c =? 92)) s = true ->
  Forall plain s.
Proof.
  rewrite forallb_forall. intros Ho. apply List.Forall_forall. intros c Hc. specialize (Ho c Hc).
  rewrite !andb_true_iff, !negb_true_iff, Z.leb_le, !Z.eqb_neq in Ho. unfold plain. lia.
Qed.

Section Steps.
Context (fields : list (list Z)) (seen : Z) (name : list Z) (index : nat) (tail : list Z).
Context (Hname : Forall plain name) (Hindex : fieldIndex name = Some index).
Context (Hseen : Z.land seen (u16 (Z.shiftl 1 (Z.of_nat index))) = 0) (Htail : skipWhitespace tail = tail).

(** A member followed by a comma leads to the next one. *)
Lemma string_step value : Forall plain value -> (2 <= index)%nat ->
  outerLoop (length (strMember name value ++ 44 :: tail)) fields seen (strMember name value ++ 44 :: tail) =
    outerLoop (length tail) (<[index := value]> fields)
      (Z.lor seen (u16 (Z.shiftl 1 (Z.of_nat index)))) tail.
Proof.
  intros Hv Hge. rewrite (outerLoop_string _ _ _ index) by done. unfold afterMember.
  change (44 =? 125) with false. change (44 =? 44) with true. cbn [negb]. cbv zeta. by rewrite Htail.
Qed.

Lemma number_step d : 48 <= d <= 57 -> (index < 2)%nat ->
  outerLoop (length (numMember name [d] ++ 44 :: tail)) fields seen (numMember name [d] ++ 44 :: tail) =
    outerLoop (length tail) (<[index := [d]]> fields)
      (Z.lor seen (u16 (Z.shiftl 1 (Z.of_nat index)))) tail.
Proof.
  intros Hv Hge. rewrite (outerLoop_number _ _ _ index) by done. unfold afterMember.
  change (44 =? 125) with false. change (44 =? 44) with true. cbn [negb]. cbv zeta. by rewrite Htail.
Qed.
End Steps.

(** The parser reads the eight fields of the text back, in either ending. *)
Lemma parse_envelopeJson last channel sequence nonce requestId operation payload mac :
  last = 125 \/ last = 44 -> 0 <= channel <= 2 -> 0 <= sequence < 2 ^ 64 -> bytesOk nonce ->
  bytesOk requestId -> operationValid operation = true -> bytesOk payload -> bytesOk mac ->
  parseOuterObject (envelopeJson last channel sequence nonce requestId operation payload mac) =
    inr (envelopeFields channel sequence nonce requestId operation payload mac).
Proof.
  intros Hlast Hc Hs Hn Hr Ho Hp Hm.
  pose proof (decimal_plain sequence Hs) as P1. pose proof (b64_plain nonce Hn) as P2.
  pose proof (b64_plain requestId Hr) as P3. pose proof (operation_plain operation Ho) as P4.
  pose proof (b64_plain payload Hp) as P5. pose proof (b64_plain mac Hm) as P6.
  unfold parseOuterObject, envelopeJson. unfold skipWhitespace at 1. rewrite skip_cons by reflexivity.
  change (123 =? 123) with true. cbn [negb]. cbv zeta.
  assert (E0 : forall t, skipWhitespace (numMember (bytes_of "v") [49] ++ t) = numMember (bytes_of "v") [49] ++ t)
    by reflexivity.
  rewrite !E0. clear E0.
  assert (E1 : forall t, (byte_at (numMember (bytes_of "v") [49] ++ t) 0 =? 125) = false) by reflexivity.
  rewrite E1, andb_false_r. clear E1.
  rewrite (number_step _ _ _ 0) by (reflexivity || lia || by apply plain_literal).
  rewrite (number_step _ _ _ 1) by (reflexivity || lia || by apply plain_literal).
  rewrite (string_step _ _ _ 2) by (reflexivity || lia || done || by apply plain_literal).
  rewrite (string_step _ _ _ 3) by (reflexivity || lia || done || by apply plain_literal).
  rewrite (string_step _ _ _ 4) by (reflexivity || lia || done || by apply plain_literal).
  rewrite (string_step _ _ _ 5) by (reflexivity || lia || done || by apply plain_literal).
  rewrite (string_step _ _ _ 6) by (reflexivity || lia || done || by apply plain_literal).
  rewrite (outerLoop_string _ _ _ 7); [|by apply plain_literal|done|reflexivity|lia|reflexivity| |done].
  - by destruct Hlast as [->| ->].
  - by destruct Hlast as [->| ->].
Qed.

Lemma append_some cap w text out : append cap w text = Some out ->
  exists o, w = Some o /\ out = o ++ text /\ (length out <= cap)%nat.
Proof.
  destruct w as [o|]; [|done]. simpl. destruct (Nat.ltb_spec cap (length o + length text)); [done|].
  intros [= <-]. exists o. rewrite length_app. split_and!; [done..|lia].
Qed.

Lemma appendBase64_some cap w input out : bytesOk input -> appendBase64 cap w input = Some out ->
  exists o, w = Some o /\ out = o ++ base64url input.
Proof.
  intros Hi. destruct w as [o|]; [|done]. simpl. rewrite encodeBase64Url_ref by done.
  destruct (_ <? _)%nat; [done|]. simpl. intros [= <-]. by exists o.
Qed.

(** The writer's output is the reference text. *)
Lemma envelopeText_json cap channel sequence nonce requestId operation payload mac out :
  0 <= channel < 256 -> bytesOk nonce -> bytesOk requestId -> bytesOk payload -> bytesOk mac ->
  envelopeText cap channel sequence nonce requestId operation payload mac = Some out ->
  out = envelopeJson 125 channel sequence nonce requestId operation payload mac /\
  (length out <= cap)%nat.
Proof.
  intros Hc Hn Hr Hp Hm E. unfold envelopeText in E. rewrite u8_id in E by lia.
  apply append_some in E as (o14 & E & -> & Hcap). split; [|done]. clear Hcap.
  apply appendBase64_some in E as (o13 & E & ->); [|done].
  apply append_some in E as (o12 & E & -> & _). apply appendBase64_some in E as (o11 & E & ->); [|done].
  apply append_some in E as (o10 & E & -> & _). apply append_some in E as (o9 & E & -> & _).
  apply append_some in E as (o8 & E & -> & _). apply appendBase64_some in E as (o7 & E & ->); [|done].
  apply append_some in E as (o6 & E & -> & _). apply appendBase64_some in E as (o5 & E & ->); [|done].
  apply append_some in E as (o4 & E & -> & _). apply append_some in E as (o3 & E & -> & _).
  apply append_some in E as (o2 & E & -> & _). apply append_some in E as (o1 & E & -> & _).
  apply append_some in E as (o0 & E & -> & _). injection E as <-.
  unfold envelopeJson, numMember, strMember. rewrite <- !app_assoc. cbn [app].
  repeat (rewrite <- app_assoc; cbn [app]). reflexivity.
Qed.

(** ** The cryptography it relies on *)

(** The HMAC is a function of the key and of the concatenated parts; it may also
    fail.  [hmac] and its output size are HMAC-SHA-256's. *)
Class CompanionCryptoLaws (W : Type) `{CompanionCrypto W} := {
  hmac : list Z -> list Z -> list Z;
  hmac_result key parts (w : W) out w' :
    ccHmacSha256 key parts w = (Some out, w') -> out = hmac key (concat parts);
  hmac_bytes key message : bytesOk (hmac key message) /\ length (hmac key message) = kEnvelopeMacBytes;
}.

Section Envelopes.
Context {W : Type} `{CompanionCryptoLaws W}.

Definition envelopeMessage (env : DecodedEnvelope) (payload : list Z) : list Z :=
  concat (envelopeParts (env_channel env) (env_sequence env) (env_nonce env) (env_requestId env)
            (env_operation env) payload).

Lemma calculate_mac channel sequence nonce requestId operation payload key (w : W) mac w' :
  calculateEnvelopeMac channel sequence nonce requestId operation payload key w = (inr mac, w') ->
  mac = hmac key (concat (envelopeParts channel sequence nonce requestId operation payload)).
Proof.
  unfold calculateEnvelopeMac, bind. generalize (envelopeParts channel sequence nonce requestId operation payload).
  intros parts. destruct (ccHmacSha256 key parts w) as [[out|] w1] eqn:E; unfold ret; [|done].
  intros E'. injection E' as <- <-. by eapply hmac_result.
Qed.

(** What [encodeEnvelope] returned. *)
Lemma encode_inv channel sequence nonce requestId operation payload key cap (w : W) json w' :
  encodeEnvelope channel sequence nonce requestId operation payload key cap w = (inr json, w') ->
  0 <= channel -> bytesOk nonce -> bytesOk requestId -> bytesOk payload ->
  channel <= 2 /\ sequence <> 0 /\ operationValid operation = true /\ (length operation <= 48)%nat /\
  (length payload <= kMaximumEnvelopePayloadBytes)%nat /\ validUtf8 payload = true /\ jsonValid payload = true /\
  json = envelopeJson 125 channel sequence nonce requestId operation payload
    (hmac key (concat (envelopeParts channel sequence nonce requestId operation payload))) /\
  (length json <= cap)%nat.
Proof.
  unfold encodeEnvelope. intros E Hc0 Hn Hr Hp. set (op := take (S kMaximumOperationBytes) operation) in E.
  destruct (Z.ltb_spec ChannelEvent channel); [done|]. destruct (Z.eqb_spec sequence 0); [done|].
  destruct (operationValid op) eqn:Eo; [|done]. cbn [negb] in E.
  assert (El : (length op <= 48)%nat).
  { unfold operationValid in Eo. destruct (Nat.ltb_spec kMaximumOperationBytes (length op)) as [|Hl];
      [by rewrite orb_true_r in Eo|exact Hl]. }
  assert (Eop : op = operation).
  { unfold op in *. rewrite length_take in El. apply take_ge. unfold kMaximumOperationBytes in *. lia. }
  rewrite Eop in *. clear op Eop.
  destruct ((UINT32_MAX <? Z.of_nat (length payload)) || (kMaximumEnvelopePayloadBytes <? length payload)%nat)
    eqn:Ep; [done|]. apply orb_false_iff in Ep as [_ Ep%Nat.ltb_ge].
  destruct (validUtf8 payload) eqn:Eu; [|done]. destruct (jsonValid payload) eqn:Ej; [|done]. cbn [negb orb] in E.
  unfold bind in E. destruct (calculateEnvelopeMac _ _ _ _ _ _ _ w) as [[r|mac] w1] eqn:Em; [done|].
  destruct (envelopeText _ _ _ _ _ _ _ _) as [out|] eqn:Et; [|done]. unfold ret in E. injection E as <- <-.
  apply calculate_mac in Em as ->.
  assert (Hc2 : 0 <= channel <= 2) by (unfold ChannelEvent, EnvelopeChannel in *; lia).
  assert (Hc : 0 <= channel < 256) by lia.
  destruct (envelopeText_json _ _ _ _ _ _ _ _ _ Hc Hn Hr Hp (proj1 (hmac_bytes _ _)) Et) as [-> Hl].
  split_and!; try done; lia.
Qed.

(** A field of the right size decodes. *)
Lemma decodeFixed_ref b chars bytes : bytesOk b -> length b = bytes ->
  base64UrlEncodedBytes bytes = chars -> decodeFixed (base64url b) chars bytes = Some b.
Proof.
  intros Hb Hl Hc. unfold decodeFixed.
  rewrite (encodedBytes_length (S (length b))), Hl, Hc, Nat.eqb_refl by lia. cbn [negb].
  rewrite (proj2 (decodeBase64Url_exact (base64url b) bytes b)) by (split_and!; auto; lia).
  simpl. by rewrite Hl, Nat.eqb_refl.
Qed.

Lemma decodeFixed_inv span chars bytes b : decodeFixed span chars bytes = Some b ->
  span = base64url b /\ bytesOk b /\ length b = bytes.
Proof.
  unfold decodeFixed. destruct (negb _); [done|].
  destruct (decodeBase64Url span bytes) as [out|] eqn:E; [|done]. simpl.
  destruct (Nat.eqb_spec (length out) bytes); [|done]. intros [= <-].
  by apply decodeBase64Url_exact in E as (-> & Hok & _).
Qed.

Lemma formatDecimal_length n : (length (formatDecimal n) <= 20)%nat.
Proof.
  unfold formatDecimal. rewrite length_rev. revert n. generalize 20%nat as f.
  induction f as [|f IH]; intros n; [done|]. cbn [decimalDigits length].
  destruct (n / 10 =? 0); [simpl; lia|]. specialize (IH (n / 10)). lia.
Qed.

Lemma payload_encoded_length n : (n <= kMaximumEnvelopePayloadBytes)%nat ->
  Z.of_nat (base64UrlEncodedBytes n) <= 16000.
Proof.
  intros Hn. assert (Hz : Z.of_nat n <= 12000) by (unfold kMaximumEnvelopePayloadBytes in Hn; lia). clear Hn.
  unfold base64UrlEncodedBytes. pose proof (Nat.div_mod n 3 ltac:(lia)).
  pose proof (Nat.mod_upper_bound n 3 ltac:(lia)).
  destruct (Nat.eqb_spec (n mod 3) 0); lia.
Qed.

(** An envelope fits the largest frame whatever it carries. *)
Lemma envelopeJson_length channel sequence nonce requestId operation payload mac :
  length nonce = kEnvelopeNonceBytes -> length requestId = kRequestIdBytes ->
  (length operation <= 48)%nat -> (length payload <= kMaximumEnvelopePayloadBytes)%nat ->
  length mac = kEnvelopeMacBytes ->
  Z.of_nat (length (envelopeJson 125 channel sequence nonce requestId operation payload mac)) <=
    kMaximumFrameBytes.
Proof.
  intros Hn Hr Ho Hp Hm. pose proof (formatDecimal_length sequence) as Hs.
  pose proof (payload_encoded_length _ Hp) as Hpl. unfold kMaximumFrameBytes.
  assert (L : forall b, length (base64url b) = base64UrlEncodedBytes (length b)).
  { intros b. apply (encodedBytes_length (S (length b))). lia. }
  assert (N : forall a b, length (strMember a b) = (5 + length a + length b)%nat).
  { intros a b. unfold strMember. cbn [length]. rewrite !length_app. cbn [length]. rewrite length_app. simpl. lia. }
  assert (N' : forall a b, length (numMember a b) = (3 + length a + length b)%nat).
  { intros a b. unfold numMember. cbn [length]. rewrite !length_app. simpl. lia. }
  unfold envelopeJson. repeat (rewrite length_app || cbn [length]). rewrite !N, !N', !L, Hn, Hr, Hm.
  change (base64UrlEncodedBytes kEnvelopeNonceBytes) with 22%nat.
  change (base64UrlEncodedBytes kRequestIdBytes) with 22%nat.
  change (base64UrlEncodedBytes kEnvelopeMacBytes) with 43%nat.
  change (length (bytes_of "v")) with 1%nat. change (length (bytes_of "channel")) with 7%nat.
  change (length (bytes_of "seq")) with 3%nat. change (length (bytes_of "nonce_b64")) with 9%nat.
  change (length (bytes_of "request_id_b64")) with 14%nat. change (length (bytes_of "op")) with 2%nat.
  change (length (bytes_of "payload_b64")) with 11%nat. change (length (bytes_of "mac_b64")) with 7%nat.
  cbn [length]. lia.
Qed.

(** The receiver's checks on the fields of a reference text. *)
Lemma decodeFields_ref channel sequence nonce requestId operation payload mac key expected next cap (w : W) :
  0 <= channel <= 2 -> 0 < sequence < 2 ^ 64 -> bytesOk nonce -> length nonce = kEnvelopeNonceBytes ->
  bytesOk requestId -> length requestId = kRequestIdBytes -> operationValid operation = true ->
  bytesOk payload -> (length payload <= kMaximumEnvelopePayloadBytes)%nat -> (length payload <= cap)%nat ->
  bytesOk mac -> length mac = kEnvelopeMacBytes -> channel = expected -> sequence = next ->
  decodeFields (envelopeFields channel sequence nonce requestId operation payload mac) key expected next cap w =
  (result <- calculateEnvelopeMac channel sequence nonce requestId operation payload key ;;
   ret (match result with
        | inl r => inl r
        | inr expectedMac =>
            if negb (constantTimeEqual mac expectedMac kEnvelopeMacBytes) then inl PAuthenticationFailed
            else if negb (validUtf8 payload) then inl PInvalidPayloadUtf8
            else if negb (jsonValid payload) then inl PInvalidPayloadJson
            else inr (mkEnvelope kProtocolVersion channel sequence nonce requestId operation (length payload),
                      payload)
        end)) w.
Proof.
  intros Hc Hs Hn Ln Hr Lr Ho Hp Lp Lc Hm Lm <- <-.
  unfold decodeFields, field, envelopeFields, FieldVersion, FieldChannel, FieldSequence, FieldNonce,
    FieldRequestId, FieldOperation, FieldPayload, FieldMac. cbn [nth length].
  change (byte_at [49] 0) with 49. change (byte_at [48 + channel] 0) with (48 + channel).
  change (49 =? 49) with true. cbn [negb orb Nat.eqb].
  destruct (Z.ltb_spec (48 + channel) 48), (Z.ltb_spec 50 (48 + channel)); try lia. cbn [orb].
  replace (48 + channel - 48) with channel by lia. rewrite Z.eqb_refl. cbn [negb].
  rewrite (proj2 (parseDecimal_exact (formatDecimal sequence) sequence)) by done.
  rewrite Z.eqb_refl. cbn [negb]. rewrite !decodeFixed_ref, Ho by done. cbn [negb].
  assert (Ed : base64DecodedBytes (length (base64url payload)) = length payload).
  { destruct (base64url_length (S (length payload)) payload ltac:(lia)) as [El Hl].
    by rewrite decodedBytes_same. }
  rewrite Ed. destruct (Nat.ltb_spec kMaximumEnvelopePayloadBytes (length payload)); [lia|].
  destruct (Nat.ltb_spec cap (length payload)); [lia|]. cbn [orb].
  by rewrite (proj2 (decodeBase64Url_exact (base64url payload) cap payload)).
Qed.

Lemma mac_check message key : constantTimeEqual (hmac key message) (hmac key message) kEnvelopeMacBytes = true.
Proof. destruct (hmac_bytes key message). by apply companionEqual_spec. Qed.

(** The receiver that shares the key, the channel and the next sequence
    number reads back exactly the fields and the payload of an encoded envelope,
    which fits the largest frame, whenever its own HMAC call succeeds. *)
Theorem envelope_roundtrip channel sequence nonce requestId operation payload key cap json room (w1 w1' w2 : W) :
  encodeEnvelope channel sequence nonce requestId operation payload key cap w1 = (inr json, w1') ->
  0 <= channel -> 0 < sequence < 2 ^ 64 -> bytesOk nonce -> length nonce = kEnvelopeNonceBytes ->
  bytesOk requestId -> length requestId = kRequestIdBytes -> bytesOk payload ->
  (length payload <= room)%nat ->
  fst (ccHmacSha256 key (envelopeParts channel sequence nonce requestId operation payload) w2) <> None ->
  Z.of_nat (length json) <= kMaximumFrameBytes /\
  fst (decodeAndVerifyEnvelope json key channel sequence room w2) =
    inr (mkEnvelope kProtocolVersion channel sequence nonce requestId operation (length payload), payload).
Proof.
  intros E Hc Hs Hn Ln Hr Lr Hp Lp Hw.
  destruct (encode_inv _ _ _ _ _ _ _ _ _ _ _ E Hc Hn Hr Hp)
    as (Hc2 & _ & Ho & Lo & Lpm & Hu & Hj & -> & _).
  destruct (hmac_bytes key (concat (envelopeParts channel sequence nonce requestId operation payload)))
    as [Hm Lm].
  set (parts := envelopeParts channel sequence nonce requestId operation payload) in *.
  pose proof (envelopeJson_length channel sequence nonce requestId operation payload _ Ln Lr Lo Lpm Lm) as Hl.
  split; [done|]. unfold decodeAndVerifyEnvelope.
  destruct (Nat.eqb_spec (length (envelopeJson 125 channel sequence nonce requestId operation payload
    (hmac key (concat parts)))) 0) as [E0|_]; [done|].
  rewrite (proj2 (Z.ltb_ge _ _) Hl), parse_envelopeJson by (auto; lia).
  rewrite decodeFields_ref by (auto; lia). unfold calculateEnvelopeMac. fold parts. unfold bind.
  destruct (ccHmacSha256 key parts w2) as [[out|] w2'] eqn:Ew; [|done].
  apply hmac_result in Ew as ->. unfold ret. cbn [fst]. by rewrite mac_check, Hu, Hj.
Qed.

(** What an accepted envelope guarantees. *)
Lemma envelope_authentic json key expected next room (w : W) env payload w' :
  decodeAndVerifyEnvelope json key expected next room w = (inr (env, payload), w') ->
  env = mkEnvelope kProtocolVersion expected next (env_nonce env) (env_requestId env)
          (env_operation env) (length payload) /\
  (bytesOk (env_nonce env) /\ length (env_nonce env) = kEnvelopeNonceBytes) /\
  (bytesOk (env_requestId env) /\ length (env_requestId env) = kRequestIdBytes) /\
  operationValid (env_operation env) = true /\ 0 <= expected <= 2 /\ 0 < next < 2 ^ 64 /\
  (bytesOk payload /\ length payload <= kMaximumEnvelopePayloadBytes /\ length payload <= room)%nat /\
  validUtf8 payload = true /\ jsonValid payload = true /\
  exists fields, parseOuterObject json = inr fields /\
    field fields FieldMac = base64url (hmac key (envelopeMessage env payload)).
Proof.
  unfold decodeAndVerifyEnvelope. destruct (_ =? 0)%nat; [done|]. destruct (_ <? _); [done|].
  destruct (parseOuterObject json) as [r|fields] eqn:Ep; [done|]. unfold decodeFields. cbv zeta.
  destruct (_ || _); [done|].
  destruct (negb (length (field fields FieldChannel) =? 1)%nat || _ || _) eqn:Ec; [done|].
  apply orb_false_iff in Ec as [[_ Ec1%Z.ltb_ge]%orb_false_iff Ec2%Z.ltb_ge].
  destruct (Z.eqb_spec (byte_at (field fields FieldChannel) 0 - 48) expected) as [<-|]; [|done]. cbn [negb].
  destruct (parseDecimal _) as [sequence|] eqn:Es; [|done].
  destruct (Z.eqb_spec sequence next) as [->|]; [|done]. cbn [negb].
  destruct (decodeFixed (field fields FieldNonce) _ _) as [nonce|] eqn:En; [|done].
  destruct (decodeFixed (field fields FieldRequestId) _ _) as [rid|] eqn:Er; [|done].
  destruct (operationValid _) eqn:Eo; [|done]. cbn [negb].
  destruct (_ || _) eqn:El; [done|]. apply orb_false_iff in El as [El1%Nat.ltb_ge El2%Nat.ltb_ge].
  destruct (decodeBase64Url _ _) as [body|] eqn:Eb; [|done].
  destruct (decodeFixed (field fields FieldMac) _ _) as [mac|] eqn:Em; [|done].
  unfold bind. destruct (calculateEnvelopeMac _ _ _ _ _ _ _ w) as [[r|expectedMac] w1] eqn:Ecalc; [done|].
  apply calculate_mac in Ecalc. unfold ret.
  destruct (constantTimeEqual mac expectedMac kEnvelopeMacBytes) eqn:Eq; [|done]. cbn [negb].
  destruct (validUtf8 body) eqn:Eu; [|done]. destruct (jsonValid body) eqn:Ej; [|done]. cbn [negb].
  intros E. injection E as <- <- <-. cbn [env_version env_channel env_sequence env_nonce env_requestId
    env_operation env_payloadBytes].
  apply decodeFixed_inv in En as (_ & Hn1 & Hn2). apply decodeFixed_inv in Er as (_ & Hr1 & Hr2).
  apply decodeFixed_inv in Em as (Em & Hm1 & Hm2). apply parseDecimal_exact in Es as [_ Es].
  apply decodeBase64Url_exact in Eb as (Eb & Hb1 & Hb2).
  assert (Ed : base64DecodedBytes (length (base64url body)) = length body).
  { destruct (base64url_length (S (length body)) body ltac:(lia)) as [El Hl]. by rewrite decodedBytes_same. }
  rewrite Eb, Ed in El1.
  destruct (hmac_bytes key (concat (envelopeParts (byte_at (field fields FieldChannel) 0 - 48) next nonce rid
    (field fields FieldOperation) body))) as [Hk1 Hk2].
  rewrite Ecalc in Eq. apply companionEqual_spec in Eq; [|done..].
  split; [done|]. split; [done|]. split; [done|]. split; [done|]. split; [lia|]. split; [done|].
  split; [done|]. split; [done|]. split; [done|]. exists fields. split; [done|]. rewrite Em, Eq. done.
Qed.
End Envelopes.

(** ** Transcripts *)

(** Every message the protocol authenticates. *)
Inductive Transcript :=
| TEnvelope (channel sequence : Z) (nonce requestId operation payload : list Z)
| THandshake (role : string) (controllerId clientNonce deviceNonce : list Z)
| TPairing (role : string) (controllerId root deviceUid clientNonce deviceNonce : list Z)
| TRoleBound (proofRole controllerRole : string)
    (controllerId root deviceUid clientNonce deviceNonce : list Z).

Definition transcriptMessage (t : Transcript) : list Z :=
  concat (match t with
          | TEnvelope channel sequence nonce requestId operation payload =>
              envelopeParts channel sequence nonce requestId operation payload
          | THandshake role cid cn dn => handshakeParts role cid cn dn
          | TPairing role cid root uid cn dn => pairingParts role cid root uid cn dn
          | TRoleBound pr cr cid root uid cn dn => roleBoundParts pr cr cid root uid cn dn
          end).

Definition sized (n : nat) (l : list Z) : Prop := length l = n.

(** The widths the callers pass. *)
Definition transcriptOk (t : Transcript) : Prop :=
  match t with
  | TEnvelope channel sequence nonce requestId operation payload =>
      0 <= channel <= 2 /\ 0 <= sequence < 2 ^ 64 /\ sized 16 nonce /\ sized 16 requestId /\
      (length operation <= kMaximumOperationBytes)%nat /\ (length payload <= kMaximumEnvelopePayloadBytes)%nat
  | THandshake role cid cn dn => roleAllowed role = true /\ sized 16 cid /\ sized 16 cn /\ sized 16 dn
  | TPairing role cid root uid cn dn =>
      roleAllowed role = true /\ sized 16 cid /\ sized 32 root /\ sized 7 uid /\ uidValid uid = true /\
      sized 16 cn /\ sized 16 dn
  | TRoleBound pr cr cid root uid cn dn =>
      roleAllowed pr = true /\ controllerRoleAllowed cr = true /\ sized 16 cid /\ sized 32 root /\
      sized 7 uid /\ uidValid uid = true /\ sized 16 cn /\ sized 16 dn
  end.

(** A text before its terminating zero. *)
Lemma cut_at_zero a b x y : Forall (fun c => c <> 0) a -> Forall (fun c => c <> 0) b ->
  a ++ 0 :: x = b ++ 0 :: y -> a = b /\ x = y.
Proof.
  intros Ha Hb E. assert (Ec := f_equal cstr E). rewrite !cstr_app_nul in Ec by done. subst b.
  split; [done|]. apply app_inv_head in E. congruence.
Qed.

Lemma role_cases role : roleAllowed role = true -> role = "device"%string \/ role = "client"%string \/ role = "ok"%string.
Proof. unfold roleAllowed. rewrite !orb_true_iff, !String.eqb_eq. tauto. Qed.
Lemma controller_role_cases role : controllerRoleAllowed role = true ->
  role = "owner"%string \/ role = "caretaker"%string.
Proof. unfold controllerRoleAllowed. by rewrite orb_true_iff, !String.eqb_eq. Qed.

Lemma nonzero_literal l : forallb (fun c => negb (c =? 0)) l = true -> Forall (fun c => c <> 0) l.
Proof.
  rewrite forallb_forall. intros Ho. apply List.Forall_forall. intros c Hc. specialize (Ho c Hc).
  by apply negb_true_iff, Z.eqb_neq in Ho.
Qed.

(** A role and its separator. *)
Lemma role_cut r1 r2 x y : roleAllowed r1 = true -> roleAllowed r2 = true ->
  bytes_of r1 ++ 0 :: x = bytes_of r2 ++ 0 :: y -> r1 = r2 /\ x = y.
Proof.
  intros H1%role_cases H2%role_cases E.
  apply cut_at_zero in E as [E ->];
    [|destruct H1 as [->|[->| ->]]; by apply nonzero_literal|destruct H2 as [->|[->| ->]]; by apply nonzero_literal].
  split; [|done]. destruct H1 as [->|[->| ->]], H2 as [->|[->| ->]]; done.
Qed.
Lemma controller_role_cut r1 r2 x y : controllerRoleAllowed r1 = true -> controllerRoleAllowed r2 = true ->
  bytes_of r1 ++ 0 :: x = bytes_of r2 ++ 0 :: y -> r1 = r2 /\ x = y.
Proof.
  intros H1%controller_role_cases H2%controller_role_cases E.
  apply cut_at_zero in E as [E ->];
    [|destruct H1 as [->| ->]; by apply nonzero_literal|destruct H2 as [->| ->]; by apply nonzero_literal].
  split; [|done]. destruct H1 as [->| ->], H2 as [->| ->]; done.
Qed.

(** Two fields of the same width. *)
Lemma sized_cut n a b x y : sized n a -> sized n b -> a ++ x = b ++ y -> a = b /\ x = y.
Proof. unfold sized. intros Ha Hb. apply app_inj_1. congruence. Qed.

(** A valid identifier ends with NUL. *)
Lemma uid_cut u v : sized 7 u -> sized 7 v -> uidValid u = true -> uidValid v = true ->
  take 6 u = take 6 v -> u = v.
Proof.
  unfold sized, uidValid. intros Hu Hv Uu Uv E. rewrite !andb_true_iff, !Z.eqb_eq in Uu, Uv.
  destruct Uu as [[_ Z1] _], Uv as [[_ Z2] _].
  rewrite <- (take_drop 6 u), <- (take_drop 6 v), E. f_equal.
  do 7 (destruct u as [|? u]; [done|]). do 7 (destruct v as [|? v]; [done|]).
  destruct u, v; try done. cbn [drop]. unfold byte_at in Z1, Z2. simpl in Z1, Z2. congruence.
Qed.

Lemma envelope_message_inj c1 s1 n1 r1 o1 p1 c2 s2 n2 r2 o2 p2 :
  transcriptOk (TEnvelope c1 s1 n1 r1 o1 p1) -> transcriptOk (TEnvelope c2 s2 n2 r2 o2 p2) ->
  transcriptMessage (TEnvelope c1 s1 n1 r1 o1 p1) = transcriptMessage (TEnvelope c2 s2 n2 r2 o2 p2) ->
  TEnvelope c1 s1 n1 r1 o1 p1 = TEnvelope c2 s2 n2 r2 o2 p2.
Proof.
  intros (C1 & S1 & N1 & R1 & O1 & P1) (C2 & S2 & N2 & R2 & O2 & P2) E.
  assert (K : Z.of_nat kMaximumEnvelopePayloadBytes = 12000) by reflexivity.
  unfold kMaximumOperationBytes in *.
  unfold transcriptMessage, envelopeParts in E. cbn [concat] in E. rewrite !app_nil_r in E.
  apply app_inv_head in E. apply (sized_cut 1) in E as [Ec E]; [|done..].
  apply (f_equal (fun l => nth 0 l 0)) in Ec. cbn [nth] in Ec. rewrite !u8_id in Ec by lia. subst c2.
  apply (sized_cut 8) in E as [Es E]; [|done..]. apply putU64Be_inj in Es as ->; [|lia..].
  apply (sized_cut 16) in E as [-> E]; [|done..]. apply (sized_cut 16) in E as [-> E]; [|done..].
  apply (sized_cut 2) in E as [Eo E]; [|done..].
  apply putU16Be_inj in Eo; [|apply u16_range..]. rewrite !u16_id in Eo by lia. apply Nat2Z.inj in Eo.
  apply (sized_cut (length o1)) in E as [-> E]; [|done|by symmetry].
  apply (sized_cut 4) in E as [_ ->]; [|done..]. done.
Qed.

Lemma handshake_message_inj r1 i1 c1 d1 r2 i2 c2 d2 :
  transcriptOk (THandshake r1 i1 c1 d1) -> transcriptOk (THandshake r2 i2 c2 d2) ->
  transcriptMessage (THandshake r1 i1 c1 d1) = transcriptMessage (THandshake r2 i2 c2 d2) ->
  THandshake r1 i1 c1 d1 = THandshake r2 i2 c2 d2.
Proof.
  intros (R1 & I1 & C1 & D1) (R2 & I2 & C2 & D2) E.
  unfold transcriptMessage, handshakeParts in E. cbn [concat] in E. rewrite !app_nil_r in E.
  apply app_inv_head in E. cbn [app] in E. apply role_cut in E as [-> E]; [|done..].
  apply (sized_cut 16) in E as [-> E]; [|done..]. by apply (sized_cut 16) in E as [-> ->].
Qed.

(** The widths the two pairing transcripts share. *)
Lemma pairing_tail i1 k1 u1 c1 d1 i2 k2 u2 c2 d2 :
  sized 16 i1 -> sized 32 k1 -> sized 7 u1 -> uidValid u1 = true -> sized 16 c1 ->
  sized 16 i2 -> sized 32 k2 -> sized 7 u2 -> uidValid u2 = true -> sized 16 c2 ->
  i1 ++ k1 ++ take 6 u1 ++ c1 ++ d1 = i2 ++ k2 ++ take 6 u2 ++ c2 ++ d2 ->
  (i1 = i2 /\ k1 = k2 /\ u1 = u2) /\ c1 = c2 /\ d1 = d2.
Proof.
  intros I1 K1 U1 V1 C1 I2 K2 U2 V2 C2 E.
  assert (T : forall u, sized 7 u -> sized 6 (take 6 u)).
  { unfold sized. intros u Hu. rewrite length_take, Hu. lia. }
  apply (sized_cut 16) in E as [-> E]; [|done..]. apply (sized_cut 32) in E as [-> E]; [|done..].
  apply (sized_cut 6) in E as [Eu E]; [|by apply T..]. apply (sized_cut 16) in E as [-> ->]; [|done..].
  by apply uid_cut in Eu as ->.
Qed.

Lemma pairing_message_inj r1 i1 k1 u1 c1 d1 r2 i2 k2 u2 c2 d2 :
  transcriptOk (TPairing r1 i1 k1 u1 c1 d1) -> transcriptOk (TPairing r2 i2 k2 u2 c2 d2) ->
  transcriptMessage (TPairing r1 i1 k1 u1 c1 d1) = transcriptMessage (TPairing r2 i2 k2 u2 c2 d2) ->
  TPairing r1 i1 k1 u1 c1 d1 = TPairing r2 i2 k2 u2 c2 d2.
Proof.
  intros (R1 & I1 & K1 & U1 & V1 & C1 & D1) (R2 & I2 & K2 & U2 & V2 & C2 & D2) E.
  unfold transcriptMessage, pairingParts in E. cbn [concat] in E. rewrite !app_nil_r in E.
  apply app_inv_head in E. cbn [app] in E. apply role_cut in E as [-> E]; [|done..].
  by apply pairing_tail in E as [(-> & -> & ->) [-> ->]].
Qed.

Lemma roleBound_message_inj r1 t1 i1 k1 u1 c1 d1 r2 t2 i2 k2 u2 c2 d2 :
  transcriptOk (TRoleBound r1 t1 i1 k1 u1 c1 d1) -> transcriptOk (TRoleBound r2 t2 i2 k2 u2 c2 d2) ->
  transcriptMessage (TRoleBound r1 t1 i1 k1 u1 c1 d1) = transcriptMessage (TRoleBound r2 t2 i2 k2 u2 c2 d2) ->
  TRoleBound r1 t1 i1 k1 u1 c1 d1 = TRoleBound r2 t2 i2 k2 u2 c2 d2.
Proof.
  intros (R1 & T1 & I1 & K1 & U1 & V1 & C1 & D1) (R2 & T2 & I2 & K2 & U2 & V2 & C2 & D2) E.
  unfold transcriptMessage, roleBoundParts in E. cbn [concat] in E. rewrite !app_nil_r in E.
  apply app_inv_head in E. cbn [app] in E. apply role_cut in E as [-> E]; [|done..].
  apply controller_role_cut in E as [-> E]; [|done..].
  by apply pairing_tail in E as [(-> & -> & ->) [-> ->]].
Qed.

(** The first twelve bytes of a message name its kind. *)
Lemma transcript_kinds t1 t2 : transcriptMessage t1 = transcriptMessage t2 ->
  match t1, t2 with
  | TEnvelope _ _ _ _ _ _, TEnvelope _ _ _ _ _ _ | THandshake _ _ _ _, THandshake _ _ _ _
  | TPairing _ _ _ _ _ _, TPairing _ _ _ _ _ _ | TRoleBound _ _ _ _ _ _ _, TRoleBound _ _ _ _ _ _ _ => True
  | _, _ => False
  end.
Proof.
  intros E. assert (E6 := f_equal (fun l => nth 6 l 0) E). assert (E11 := f_equal (fun l => nth 11 l 0) E).
  clear E. by destruct t1, t2.
Qed.

Lemma transcript_same t1 t2 : transcriptOk t1 -> transcriptOk t2 ->
  transcriptMessage t1 = transcriptMessage t2 -> t1 = t2.
Proof.
  intros H1 H2 E. pose proof (transcript_kinds t1 t2 E) as K. destruct t1, t2; try contradiction.
  - by apply envelope_message_inj.
  - by apply handshake_message_inj.
  - by apply pairing_message_inj.
  - by apply roleBound_message_inj.
Qed.

(** C22: the byte strings the protocol authenticates are unambiguous: two
    envelopes, handshake proofs or pairing proofs have the same message only if
    they are of the same kind and agree on every field, so a proof or MAC made for
    one role, channel, sequence number or operation is never one for another. *)
Theorem transcript_injective t1 t2 : transcriptOk t1 -> transcriptOk t2 ->
  transcriptMessage t1 = transcriptMessage t2 <-> t1 = t2.
Proof. intros H1 H2. split; [by apply transcript_same|by intros ->]. Qed.

(** The device's and the client's proof of one handshake differ. *)
Lemma transcript_injective_witness :
  let t role := THandshake role (replicate 16 1) (replicate 16 2) (replicate 16 3) in
  transcriptOk (t "device"%string) /\ transcriptOk (t "client"%string) /\
  transcriptMessage (t "device"%string) <> transcriptMessage (t "client"%string).
Proof.
  intros t. assert (H1 : transcriptOk (t "device"%string)) by (by split_and!).
  assert (H2 : transcriptOk (t "client"%string)) by (by split_and!).
  split; [exact H1|]. split; [exact H2|]. intros E.
  pose proof (proj1 (transcript_injective _ _ H1 H2) E) as C. discriminate C.
Defined.

(** ** No forgery *)

Section Forgery.
Context {W : Type} `{CompanionCryptoLaws W}.

(** The message of a sent envelope. *)
Definition sentMessage (sent : DecodedEnvelope * list Z) : list Z := envelopeMessage (fst sent) (snd sent).

(** An envelope as [encodeEnvelope] describes it. *)
Definition sentOk (sent : DecodedEnvelope * list Z) : Prop :=
  let env := fst sent in
  env_version env = kProtocolVersion /\ env_payloadBytes env = length (snd sent) /\
  transcriptOk (TEnvelope (env_channel env) (env_sequence env) (env_nonce env) (env_requestId env)
                  (env_operation env) (snd sent)).

(** A frame that carries the MAC of a message nobody sent under this key. *)
Definition forged (json key : list Z) (sent : list (DecodedEnvelope * list Z)) : Prop :=
  exists fields message, parseOuterObject json = inr fields /\
    field fields FieldMac = base64url (hmac key message) /\ message ∉ map sentMessage sent.


(** ** A member list without its closing brace *)

(** C40: the outer parser takes a comma for the closing brace: an envelope whose
    last byte is replaced by a comma, which is not a JSON object, is accepted
    exactly like the original. *)
Theorem outer_object_unterminated channel sequence nonce requestId operation payload key cap json expected next
    room (w1 w1' w2 : W) :
  encodeEnvelope channel sequence nonce requestId operation payload key cap w1 = (inr json, w1') ->
  0 <= channel -> 0 <= sequence < 2 ^ 64 -> bytesOk nonce -> bytesOk requestId -> bytesOk payload ->
  exists body, json = body ++ [125] /\
    decodeAndVerifyEnvelope (body ++ [44]) key expected next room w2 =
    decodeAndVerifyEnvelope json key expected next room w2.
Proof.
  intros E Hc Hs Hn Hr Hp.
  destruct (encode_inv _ _ _ _ _ _ _ _ _ _ _ E Hc Hn Hr Hp) as (Hc2 & _ & Ho & _ & _ & _ & _ & -> & _).
  set (m := hmac key _). assert (Hm : bytesOk m) by apply hmac_bytes.
  assert (Eb : exists body, forall last, envelopeJson last channel sequence nonce requestId operation payload m =
    body ++ [last]).
  { eexists. intros last. unfold envelopeJson. repeat (rewrite app_comm_cons || rewrite app_assoc). reflexivity. }
  destruct Eb as (body & Eb). exists body. split; [apply Eb|]. rewrite (Eb 125).
  unfold decodeAndVerifyEnvelope. rewrite !length_app. cbn [length].
  pose proof (parse_envelopeJson 125 channel sequence nonce requestId operation payload m) as P1.
  pose proof (parse_envelopeJson 44 channel sequence nonce requestId operation payload m) as P2.
  rewrite Eb in P1, P2. rewrite P1, P2 by auto. done.
Qed.
End Forgery.

(** ** A concrete cryptography *)

(** A counter for randomness and a toy MAC that depends on key and message. *)
Record CryptoSim := mkCryptoSim { sim_random : Z }.

Definition simMac (key message : list Z) : list Z :=
  replicate kEnvelopeMacBytes (u8 (fold_left (fun acc b => u8 (3 * acc + b + 1)) (key ++ message) 0)).

#[export] Instance SimCrypto : CompanionCrypto CryptoSim := {|
  ccRandomBytes n := fun w => (Some (replicate n (u8 (sim_random w))), mkCryptoSim (sim_random w + 1));
  ccSha256 parts := ret (Some (simMac [] (concat parts)));
  ccHmacSha256 key parts := ret (Some (simMac key (concat parts)));
  ccHkdfSha256 key salt info := ret (Some (simMac key (salt ++ info)));
|}.

#[export] Program Instance SimCryptoLaws : CompanionCryptoLaws CryptoSim := {| hmac := simMac |}.
Next Obligation. intros key parts w out w'. by intros [= <- _]. Qed.
Next Obligation.
  intros key message. split; [|apply length_replicate]. apply Forall_replicate. apply u8_range.
Qed.

(** A request as the phone sends it. *)
Definition exampleNonce : list Z := replicate 16 7.
Definition exampleRequestId : list Z := replicate 16 9.
Definition exampleKey : list Z := replicate 32 5.
Definition examplePayload : list Z := js "{'schema':1}".
Definition exampleJson : list Z :=
  match fst (encodeEnvelope ChannelRequest 1 exampleNonce exampleRequestId (bytes_of "state.get")
               examplePayload exampleKey 1024 (mkCryptoSim 0)) with
  | inr json => json
  | inl _ => []
  end.
Definition exampleEnvelope : DecodedEnvelope :=
  mkEnvelope kProtocolVersion ChannelRequest 1 exampleNonce exampleRequestId (bytes_of "state.get") 12.

Lemma example_encoded : encodeEnvelope ChannelRequest 1 exampleNonce exampleRequestId (bytes_of "state.get")
  examplePayload exampleKey 1024 (mkCryptoSim 0) = (inr exampleJson, mkCryptoSim 0).
Proof. vm_compute. reflexivity. Qed.

Lemma envelope_roundtrip_witness :
  Z.of_nat (length exampleJson) <= kMaximumFrameBytes /\
  fst (decodeAndVerifyEnvelope exampleJson exampleKey ChannelRequest 1 1024 (mkCryptoSim 3)) =
    inr (exampleEnvelope, examplePayload).
Proof.
  assert (Hc : 0 <= ChannelRequest) by discriminate. assert (Hs : 0 < 1 < 2 ^ 64) by (by split).
  assert (Hn : bytesOk exampleNonce) by by apply allByte_literal.
  assert (Hr : bytesOk exampleRequestId) by by apply allByte_literal.
  assert (Hp : bytesOk examplePayload) by by apply allByte_literal.
  assert (Hl : (length examplePayload <= 1024)%nat) by (vm_compute; lia).
  exact (envelope_roundtrip ChannelRequest 1 exampleNonce exampleRequestId (bytes_of "state.get") examplePayload
    exampleKey 1024 exampleJson 1024 (mkCryptoSim 0) (mkCryptoSim 0) (mkCryptoSim 3) example_encoded Hc Hs Hn
    eq_refl Hr eq_refl Hp Hl ltac:(discriminate)).
Defined.


Lemma outer_object_unterminated_witness : exists body, exampleJson = body ++ [125] /\
  decodeAndVerifyEnvelope (body ++ [44]) exampleKey ChannelRequest 1 1024 (mkCryptoSim 3) =
  decodeAndVerifyEnvelope exampleJson exampleKey ChannelRequest 1 1024 (mkCryptoSim 3).
Proof.
  assert (Hc : 0 <= ChannelRequest) by discriminate. assert (Hs : 0 <= 1 < 2 ^ 64) by (by split).
  assert (Hn : bytesOk exampleNonce) by by apply allByte_literal.
  assert (Hr : bytesOk exampleRequestId) by by apply allByte_literal.
  assert (Hp : bytesOk examplePayload) by by apply allByte_literal.
  exact (outer_object_unterminated ChannelRequest 1 exampleNonce exampleRequestId (bytes_of "state.get")
    examplePayload exampleKey 1024 exampleJson ChannelRequest 1 1024 (mkCryptoSim 0) (mkCryptoSim 0)
    (mkCryptoSim 3) example_encoded Hc Hs Hn Hr Hp).
Defined.

Lemma jsonValid_nested : jsonValid (js "{'a':[1,-2.5e3,{'b':null}],'c':true}") = true.
Proof. vm_compute. reflexivity. Qed.
