(* ===== verification/FlatJson.v ===== *)
(** * String tokens of the control and action parsers

    src/src/kitsu_ble_action.cpp and src/src/kitsu_ble_session.cpp carry the same
    tokenizer: whitespace, hexadecimal escapes and strings kept as spans of the
    source text.  A span is its bytes; a [cursor] is the list of the bytes not read
    yet. *)

From S2P Require Import Prelude CompanionText CompanionJson.

(** [data], [bytes] and [escaped]. *)
Record Span := mkSpan { span_data : list Z; span_escaped : bool }.

Definition skipWhitespace (input : list Z) : list Z := skip input.

Definition isHex (c : Z) : bool :=
  (48 <=? c) && (c <=? 57) || (97 <=? c) && (c <=? 102) || (65 <=? c) && (c <=? 70).

(** One digit of four already known to be hexadecimal. *)
Definition hexDigitValue (c : Z) : Z :=
  if c <=? 57 then u8 (c - 48) else if c <=? 70 then u8 (c - 65 + 10) else u8 (c - 97 + 10).
Definition hex4Value (c1 c2 c3 c4 : Z) : Z :=
  let shift value c := u16 (Z.lor (Z.shiftl value 4) (hexDigitValue c)) in
  shift (shift (shift (shift 0 c1) c2) c3) c4.

Definition prefixSpan (bytes : list Z) (escaped : bool) (r : option (Span * list Z))
  : option (Span * list Z) :=
  '(s, rest) ← r; Some (mkSpan (bytes ++ span_data s) (escaped || span_escaped s), rest).

(** The loop of [parseString] after the opening quote. *)
Fixpoint stringSpan (input : list Z) : option (Span * list Z) :=
  match input with
  | [] => None
  | c :: rest =>
      if c =? 34 then Some (mkSpan [] false, rest)
      else if c <? 0x20 then None
      else if negb (c =? 92) then prefixSpan [c] false (stringSpan rest)
      else
        match rest with
        | [] => None
        | escape :: rest =>
            if simpleEscape escape then prefixSpan [c; escape] true (stringSpan rest)
            else if negb (escape =? 117) then None
            else
              match rest with
              | h1 :: h2 :: h3 :: h4 :: rest =>
                  if negb (isHex h1 && isHex h2 && isHex h3 && isHex h4) then None
                  else
                    let first := hex4Value h1 h2 h3 h4 in
                    if highSurrogate first then
                      match rest with
                      | b :: u :: l1 :: l2 :: l3 :: l4 :: rest =>
                          if negb (b =? 92) || negb (u =? 117) then None
                          else if negb (isHex l1 && isHex l2 && isHex l3 && isHex l4) then None
                          else if negb (lowSurrogate (hex4Value l1 l2 l3 l4)) then None
                          else prefixSpan [c; escape; h1; h2; h3; h4; b; u; l1; l2; l3; l4] true
                                 (stringSpan rest)
                      | _ => None
                      end
                    else if lowSurrogate first then None
                    else prefixSpan [c; escape; h1; h2; h3; h4] true (stringSpan rest)
              | _ => None
              end
        end
  end.

Definition parseString (input : list Z) : option (Span * list Z) :=
  match input with
  | c :: rest => if negb (c =? 34) then None else stringSpan rest
  | [] => None
  end.

(** [spanEquals(span, text)] *)
Definition spanEquals (span : Span) (text : list Z) : bool :=
  negb (span_escaped span) && beq (span_data span) text.
