(* ===== verification/BleAction.v ===== *)
(** * BLE actions (src/src/kitsu_ble_action.h, .cpp)

    The decoder of the [action.apply] body, the digest that binds a command and
    the receipt.  Pointers are not null unless an argument is an [option]. *)

From S2P Require Import Prelude CompanionText CompanionJson FlatJson Permissions.

Definition kBleActionUuidBytes : nat := 16.
Definition kBleActionUuidTextBytes : nat := 36.
Definition kBleActionMinimumTrustedEpoch : Z := 1704067200.
Definition kBleActionMaximumTrustedEpoch : Z := 4102444800.
Definition kBleActionMaximumExpirySeconds : Z := 120.
Definition kBleActionMinimumListenMs : Z := 1000.
Definition kBleActionMaximumListenMs : Z := 60000.
Definition kBleActionReplayCapacity : nat := 8.
Definition kBleActionCommandDigestBytes : nat := 32.
Definition kBleActionMessageTargetBytes : nat := 43.
Definition kBleActionMessageTextBytes : nat := 128.
Definition kMaximumActionBodyBytes : nat := Z.to_nat 12000.
Definition kMaximumOuterFields : nat := 4.
Definition kMaximumParamFields : nat := 3.

(** [enum class BleMessageRoute], [BleAdvertScope]. *)
Definition RouteNone : Z := 0.
Definition RouteDirect : Z := 1.
Definition RouteChannel : Z := 2.
Definition ScopeNone : Z := 0.
Definition ScopeNearby : Z := 1.
Definition ScopeMesh : Z := 2.

Inductive BleActionDecodeResult := AOk | AInvalidArgument | AMalformedJson | ADuplicateField
  | AUnknownField | AInvalidActionId | AInvalidKind | AInvalidExpiry | AInvalidParams.

#[export] Instance BleActionDecodeResult_eq_dec : EqDecision BleActionDecodeResult.
Proof. solve_decision. Defined.

Definition bleActionDecodeResultName (r : BleActionDecodeResult) : string :=
  match r with
  | AOk => "ok"
  | AInvalidArgument => "invalid_argument"
  | AMalformedJson => "malformed_json"
  | ADuplicateField => "duplicate_field"
  | AUnknownField => "unknown_field"
  | AInvalidActionId => "invalid_action_id"
  | AInvalidKind => "invalid_kind"
  | AInvalidExpiry => "invalid_expiry"
  | AInvalidParams => "invalid_params"
  end.

Definition bleActionKindName (kind : BleActionKind) : string :=
  if kind =? Pet then "pet" else if kind =? Feed then "feed" else if kind =? Play then "play"
  else if kind =? ListenOnce then "listen_once" else if kind =? AdvertiseOnce then "advertise_once"
  else if kind =? SendMessage then "send_message" else "unknown".

Definition bleActionKindAvailable (kind : BleActionKind) : bool :=
  (kind =? Pet) || (kind =? Feed) || (kind =? Play) || (kind =? ListenOnce) ||
  (kind =? AdvertiseOnce) || (kind =? SendMessage).

(** The two text buffers are their contents before the first NUL; the counts are
    members of their own. *)
Record BleActionCommand := mkCommand {
  actionId : list Z;
  actionIdText : list Z;
  kind : BleActionKind;
  expiresAtEpoch : Z;
  durationMs : Z;
  advertScope : Z;
  messageRoute : Z;
  messageTargetBytes : Z;
  messageTextBytes : Z;
  messageTarget : list Z;
  messageText : list Z;
  actionIdValid : bool;
}.

Definition noCommand : BleActionCommand :=
  mkCommand (replicate kBleActionUuidBytes 0) [] Pet 0 0 ScopeNone RouteNone 0 0 [] [] false.

Definition set_id (id text : list Z) (c : BleActionCommand) : BleActionCommand :=
  mkCommand id text (kind c) (expiresAtEpoch c) (durationMs c) (advertScope c) (messageRoute c)
    (messageTargetBytes c) (messageTextBytes c) (messageTarget c) (messageText c) true.
Definition set_kind (k : BleActionKind) (c : BleActionCommand) : BleActionCommand :=
  mkCommand (actionId c) (actionIdText c) k (expiresAtEpoch c) (durationMs c) (advertScope c)
    (messageRoute c) (messageTargetBytes c) (messageTextBytes c) (messageTarget c) (messageText c)
    (actionIdValid c).
Definition set_expiry (e : Z) (c : BleActionCommand) : BleActionCommand :=
  mkCommand (actionId c) (actionIdText c) (kind c) e (durationMs c) (advertScope c)
    (messageRoute c) (messageTargetBytes c) (messageTextBytes c) (messageTarget c) (messageText c)
    (actionIdValid c).
Definition set_duration (d : Z) (c : BleActionCommand) : BleActionCommand :=
  mkCommand (actionId c) (actionIdText c) (kind c) (expiresAtEpoch c) d (advertScope c)
    (messageRoute c) (messageTargetBytes c) (messageTextBytes c) (messageTarget c) (messageText c)
    (actionIdValid c).
Definition set_scope (s : Z) (c : BleActionCommand) : BleActionCommand :=
  mkCommand (actionId c) (actionIdText c) (kind c) (expiresAtEpoch c) (durationMs c) s
    (messageRoute c) (messageTargetBytes c) (messageTextBytes c) (messageTarget c) (messageText c)
    (actionIdValid c).
Definition set_message (route : Z) (target text : list Z) (c : BleActionCommand) : BleActionCommand :=
  mkCommand (actionId c) (actionIdText c) (kind c) (expiresAtEpoch c) (durationMs c) (advertScope c)
    route (u8 (Z.of_nat (length target))) (u8 (Z.of_nat (length text))) target text (actionIdValid c).

(** ** The object parser *)

Inductive ValueKind := KString | KInteger | KObject.

#[export] Instance ValueKind_eq_dec : EqDecision ValueKind.
Proof. solve_decision. Defined.

Record Field := mkField { f_key : Span; f_value : Span; f_kind : ValueKind }.

(** The loop of [scanObject]: the bytes up to the matching brace.  A turn consumes
    a byte, so a fuel of the length of the input never runs out. *)
Fixpoint scanLoop (fuel : nat) (depth : nat) (input : list Z) : option (list Z * list Z) :=
  match depth with
  | O => Some ([], input)
  | _ =>
      match fuel, input with
      | O, _ | _, [] => None
      | S fuel', c :: rest =>
          if c =? 34 then
            '(_, rest') ← parseString input;
            '(data, rest'') ← scanLoop fuel' depth rest';
            Some (take (length input - length rest') input ++ data, rest'')
          else if c =? 123 then
            if (8 <? S depth)%nat then None
            else '(data, rest') ← scanLoop fuel' (S depth) rest; Some (c :: data, rest')
          else if c =? 125 then
            '(data, rest') ← scanLoop fuel' (depth - 1) rest; Some (c :: data, rest')
          else if (c <? 0x20) && negb (c =? 9) && negb (c =? 13) && negb (c =? 10) then None
          else '(data, rest') ← scanLoop fuel' depth rest; Some (c :: data, rest')
      end
  end.
Definition scanObject (input : list Z) : option (Span * list Z) :=
  match input with
  | c :: rest =>
      if negb (c =? 123) then None
      else '(data, rest') ← scanLoop (length rest) 1 rest; Some (mkSpan (c :: data) false, rest')
  | [] => None
  end.

Definition spanEqual (left right : Span) : bool := beq (span_data left) (span_data right).

Inductive ParseResult := ParseMalformed | ParseDuplicate.

Fixpoint digitRun (input : list Z) : list Z * list Z :=
  match input with
  | c :: rest => if asciiDigit c then let '(ds, r) := digitRun rest in (c :: ds, r) else ([], input)
  | [] => ([], [])
  end.

(** An integer token: an optional minus and digits without a leading zero. *)
Definition integerToken (input : list Z) : option (Span * list Z) :=
  let '(sign, input) :=
    match input with c :: rest => if c =? 45 then ([c], rest) else ([], input) | [] => ([], input) end in
  let '(digits, rest) := digitRun input in
  if (length digits =? 0)%nat || (1 <? length digits)%nat && (byte_at digits 0 =? 48)
  then None else Some (mkSpan (sign ++ digits) false, rest).

(** The value of a member: its kind, its span and the rest. *)
Definition parseMemberValue (input : list Z) : option (ValueKind * Span * list Z) :=
  match input with
  | [] => None
  | c :: _ =>
      if c =? 34 then '(v, rest) ← parseString input; Some (KString, v, rest)
      else if c =? 123 then '(v, rest) ← scanObject input; Some (KObject, v, rest)
      else '(v, rest) ← integerToken input; Some (KInteger, v, rest)
  end.

Definition objectEnd (fields : list Field) (input : list Z) : ParseResult + list Field :=
  if (length (skipWhitespace input) =? 0)%nat then inr fields else inl ParseMalformed.

(** The loop of [parseObject]; [fields] are those already parsed. *)
Fixpoint parseObjectLoop (fuel fieldCapacity : nat) (fields : list Field) (input : list Z)
  : ParseResult + list Field :=
  match fuel, input with
  | O, _ | _, [] => objectEnd fields input
  | S fuel', _ =>
      if (fieldCapacity <=? length fields)%nat then inl ParseMalformed
      else
        match parseString input with
        | None => inl ParseMalformed
        | Some (key, r1) =>
            if span_escaped key || (length (span_data key) =? 0)%nat then inl ParseMalformed
            else if existsb (fun f => spanEqual (f_key f) key) fields then inl ParseDuplicate
            else
              match skipWhitespace r1 with
              | colon :: r2 =>
                  if negb (colon =? 58) then inl ParseMalformed
                  else
                    match parseMemberValue (skipWhitespace r2) with
                    | None => inl ParseMalformed
                    | Some (k, v, r3) =>
                        let fields := fields ++ [mkField key v k] in
                        match skipWhitespace r3 with
                        | c :: r4 =>
                            if c =? 125 then objectEnd fields r4
                            else if negb (c =? 44) then inl ParseMalformed
                            else parseObjectLoop fuel' fieldCapacity fields (skipWhitespace r4)
                        | [] => inl ParseMalformed
                        end
                    end
              | [] => inl ParseMalformed
              end
        end
  end.

Definition parseObject (json : list Z) (fieldCapacity : nat) : ParseResult + list Field :=
  if (length json <? 2)%nat || (fieldCapacity =? 0)%nat then inl ParseMalformed
  else
    match skipWhitespace json with
    | brace :: r1 =>
        if negb (brace =? 123) then inl ParseMalformed
        else
          match skipWhitespace r1 with
          | c :: r2 => if c =? 125 then objectEnd [] r2
                       else parseObjectLoop (length (c :: r2)) fieldCapacity [] (c :: r2)
          | [] => objectEnd [] []
          end
    | [] => inl ParseMalformed
    end.

Definition findField (fields : list Field) (name : list Z) : option Field :=
  List.find (fun f => spanEquals (f_key f) name) fields.

Definition exactSchema (fields : list Field) (names : list (list Z)) : bool :=
  (length fields =? length names)%nat &&
  forallb (fun name => match findField fields name with Some _ => true | None => false end) names.

(** ** Integers, identifiers and kinds *)

Fixpoint int64Loop (digits : list Z) (maximum magnitude : Z) : option Z :=
  match digits with
  | [] => Some magnitude
  | c :: rest =>
      if negb (asciiDigit c) then None
      else
        let digit := c - 48 in
        if (maximum - digit) / 10 <? magnitude then None
        else int64Loop rest maximum (u64 (magnitude * 10 + digit))
  end.

Definition parseInt64 (field : option Field) : option Z :=
  f ← field;
  let data := span_data (f_value f) in
  if negb (bool_decide (f_kind f = KInteger)) || (length data =? 0)%nat || (20 <? length data)%nat
  then None
  else
    let negative := byte_at data 0 =? 45 in
    if negative && (length data =? 1)%nat then None
    else
      magnitude ← int64Loop (if negative then drop 1 data else data)
        (if negative then 0x8000000000000000 else 0x7fffffffffffffff) 0;
      Some (if negative then - magnitude else magnitude).

Definition parseUint32 (field : option Field) : option Z :=
  value ← parseInt64 field;
  if (value <? 0) || (UINT32_MAX <? value) then None else Some value.

Definition hexNibble (value : Z) : Z :=
  if (48 <=? value) && (value <=? 57) then value - 48
  else if (97 <=? value) && (value <=? 102) then value - 97 + 10
  else if (65 <=? value) && (value <=? 70) then value - 65 + 10
  else -1.

Definition lowerHex : list Z := bytes_of "0123456789abcdef".

(** The loop of [parseUuid] from position [source]: the bytes and the text. *)
Fixpoint uuidLoop (source : nat) (input : list Z) : option (list Z * list Z) :=
  match input with
  | [] => Some ([], [])
  | c :: rest =>
      if (source =? 8)%nat || (source =? 13)%nat || (source =? 18)%nat || (source =? 23)%nat then
        if negb (c =? 45) then None
        else '(id, text) ← uuidLoop (S source) rest; Some (id, 45 :: text)
      else
        match rest with
        | [] => None
        | d :: rest' =>
            let high := hexNibble c in let low := hexNibble d in
            if (high <? 0) || (low <? 0) then None
            else
              '(id, text) ← uuidLoop (S (S source)) rest';
              Some (u8 (Z.lor (Z.shiftl high 4) low) :: id,
                    byte_at lowerHex (Z.to_nat high) :: byte_at lowerHex (Z.to_nat low) :: text)
        end
  end.

(** The identifier and its canonical text; 32 digits leave exactly 16 bytes. *)
Definition parseUuid (field : option Field) : option (list Z * list Z) :=
  f ← field;
  if negb (bool_decide (f_kind f = KString)) || span_escaped (f_value f) ||
     negb (length (span_data (f_value f)) =? kBleActionUuidTextBytes)%nat
  then None
  else
    '(id, text) ← uuidLoop 0 (span_data (f_value f));
    if (length id =? kBleActionUuidBytes)%nat then Some (id, text) else None.

Definition actionKinds : list (list Z * BleActionKind) :=
  [(bytes_of "pet", Pet); (bytes_of "feed", Feed); (bytes_of "play", Play);
   (bytes_of "listen_once", ListenOnce); (bytes_of "advertise_once", AdvertiseOnce);
   (bytes_of "send_message", SendMessage)].

Definition parseKind (field : option Field) : option BleActionKind :=
  f ← field;
  if negb (bool_decide (f_kind f = KString)) || span_escaped (f_value f) then None
  else '(_, k) ← List.find (fun p => spanEquals (f_value f) (fst p)) actionKinds; Some k.

(** ** Message text *)

Definition utf8Bytes (scalar : Z) : nat :=
  if scalar <=? 0x7f then 1 else if scalar <=? 0x7ff then 2 else if scalar <=? 0xffff then 3 else 4.

Definition surrogateScalar (first second : Z) : Z :=
  u32 (0x10000 + Z.shiftl (first - 0xd800) 10 + (second - 0xdc00)).

(** The length of the decoded text; one turn consumes at least a byte, so a fuel
    of the length never runs out. *)
Fixpoint decodedBytesLoop (fuel : nat) (value : list Z) : option nat :=
  match fuel, value with
  | _, [] => Some 0%nat
  | O, _ => None
  | S fuel', c :: rest =>
      if negb (c =? 92) then n ← decodedBytesLoop fuel' rest; Some (S n)
      else
        match rest with
        | [] => None
        | escape :: rest =>
            if negb (escape =? 117) then n ← decodedBytesLoop fuel' rest; Some (S n)
            else
              match rest with
              | h1 :: h2 :: h3 :: h4 :: rest =>
                  let first := hex4Value h1 h2 h3 h4 in
                  if highSurrogate first then
                    match rest with
                    | b :: u :: l1 :: l2 :: l3 :: l4 :: rest =>
                        if negb (b =? 92) || negb (u =? 117) then None
                        else
                          n ← decodedBytesLoop fuel' rest;
                          Some (utf8Bytes (surrogateScalar first (hex4Value l1 l2 l3 l4)) + n)%nat
                    | _ => None
                    end
                  else n ← decodedBytesLoop fuel' rest; Some (utf8Bytes first + n)%nat
              | _ => None
              end
        end
  end.
Definition decodedStringBytes (value : Span) : option nat :=
  decodedBytesLoop (length (span_data value)) (span_data value).

(** The bytes appended; [written] is what the buffer of [capacity] holds already. *)
Definition appendUtf8 (scalar : Z) (capacity written : nat) : option (list Z) :=
  if (scalar =? 0) || (0x10ffff <? scalar) || (0xd800 <=? scalar) && (scalar <=? 0xdfff) then None
  else
    let needed := utf8Bytes scalar in
    if (capacity <=? written + needed)%nat then None
    else
      Some (match needed with
            | 1%nat => [scalar]
            | 2%nat => [Z.lor 0xc0 (Z.shiftr scalar 6); Z.lor 0x80 (Z.land scalar 0x3f)]
            | 3%nat => [Z.lor 0xe0 (Z.shiftr scalar 12); Z.lor 0x80 (Z.land (Z.shiftr scalar 6) 0x3f);
                        Z.lor 0x80 (Z.land scalar 0x3f)]
            | _ => [Z.lor 0xf0 (Z.shiftr scalar 18); Z.lor 0x80 (Z.land (Z.shiftr scalar 12) 0x3f);
                    Z.lor 0x80 (Z.land (Z.shiftr scalar 6) 0x3f); Z.lor 0x80 (Z.land scalar 0x3f)]
            end).

Definition simpleEscapeScalar (escape : Z) : option Z :=
  if escape =? 34 then Some 34 else if escape =? 92 then Some 92 else if escape =? 47 then Some 47
  else if escape =? 98 then Some 8 else if escape =? 102 then Some 12 else if escape =? 110 then Some 10
  else if escape =? 114 then Some 13 else if escape =? 116 then Some 9 else None.

(** The loop of [decodeString]: [written] is the content of [output] so far. *)
Fixpoint decodeStringLoop (fuel capacity : nat) (written value : list Z) : option (list Z) :=
  match fuel, value with
  | _, [] => Some written
  | O, _ => None
  | S fuel', c :: rest =>
      if negb (c =? 92) then
        if (capacity <=? length written + 1)%nat then None
        else decodeStringLoop fuel' capacity (written ++ [c]) rest
      else
        match rest with
        | [] => None
        | escape :: rest =>
            if negb (escape =? 117) then
              scalar ← simpleEscapeScalar escape;
              bytes ← appendUtf8 scalar capacity (length written);
              decodeStringLoop fuel' capacity (written ++ bytes) rest
            else
              match rest with
              | h1 :: h2 :: h3 :: h4 :: rest =>
                  let first := hex4Value h1 h2 h3 h4 in
                  if highSurrogate first then
                    match rest with
                    | b :: u :: l1 :: l2 :: l3 :: l4 :: rest =>
                        if negb (b =? 92) || negb (u =? 117) then None
                        else
                          let second := hex4Value l1 l2 l3 l4 in
                          if negb (lowSurrogate second) then None
                          else
                            bytes ← appendUtf8 (surrogateScalar first second) capacity (length written);
                            decodeStringLoop fuel' capacity (written ++ bytes) rest
                    | _ => None
                    end
                  else
                    bytes ← appendUtf8 first capacity (length written);
                    decodeStringLoop fuel' capacity (written ++ bytes) rest
              | _ => None
              end
        end
  end.

(** [capacity] is the size of the output buffer, its final NUL included. *)
Definition decodeString (value : Span) (capacity : nat) : option (list Z) :=
  if (capacity =? 0)%nat then None
  else
    out ← decodeStringLoop (length (span_data value)) capacity [] (span_data value);
    if (255 <? Z.of_nat (length out)) || negb (validUtf8 out) then None else Some out.

(** ** Targets and parameters *)

Definition base64Char (c : Z) : bool :=
  (65 <=? c) && (c <=? 90) || (97 <=? c) && (c <=? 122) || (48 <=? c) && (c <=? 57) ||
  (c =? 45) || (c =? 95).

Definition validDirectTarget (value : Span) : bool :=
  let data := span_data value in
  if span_escaped value || negb (length data =? kBleActionMessageTargetBytes)%nat then false
  else if negb (forallb base64Char data) then false
  else
    match decodeBase64Url data 32 with
    | None => false
    | Some decoded =>
        if negb (length decoded =? 32)%nat then false
        else
          match encodeBase64Url decoded (S kBleActionMessageTargetBytes) with
          | None => false
          | Some canonical => beq canonical data
          end
    end.

Definition validChannelTarget (value : Span) : bool :=
  let data := span_data value in
  negb (span_escaped value) && (length data =? 1)%nat && (48 <=? byte_at data 0) &&
  (byte_at data 0 <=? 51).

Definition decodeListen (fields : list Field) (output : BleActionCommand)
  : BleActionDecodeResult + BleActionCommand :=
  if negb (exactSchema fields [bytes_of "duration_ms"]) then inl AInvalidParams
  else
    match parseUint32 (findField fields (bytes_of "duration_ms")) with
    | None => inl AInvalidParams
    | Some d =>
        if (d <? kBleActionMinimumListenMs) || (kBleActionMaximumListenMs <? d) then inl AInvalidParams
        else inr (set_duration d output)
    end.

Definition decodeAdvertise (fields : list Field) (output : BleActionCommand)
  : BleActionDecodeResult + BleActionCommand :=
  match findField fields (bytes_of "scope") with
  | None => inl AInvalidParams
  | Some scope =>
      if negb (exactSchema fields [bytes_of "scope"]) || negb (bool_decide (f_kind scope = KString)) ||
         span_escaped (f_value scope)
      then inl AInvalidParams
      else if spanEquals (f_value scope) (bytes_of "nearby") then inr (set_scope ScopeNearby output)
      else if spanEquals (f_value scope) (bytes_of "mesh") then inr (set_scope ScopeMesh output)
      else inl AInvalidParams
  end.

Definition decodeMessage (fields : list Field) (output : BleActionCommand)
  : BleActionDecodeResult + BleActionCommand :=
  match findField fields (bytes_of "route"), findField fields (bytes_of "target_id"),
        findField fields (bytes_of "text") with
  | Some route, Some target, Some text =>
      if negb (exactSchema fields [bytes_of "route"; bytes_of "target_id"; bytes_of "text"]) ||
         negb (bool_decide (f_kind route = KString)) || negb (bool_decide (f_kind target = KString)) ||
         negb (bool_decide (f_kind text = KString)) ||
         negb (spanEquals (f_value route) (bytes_of "direct") ||
               spanEquals (f_value route) (bytes_of "channel"))
      then inl AInvalidParams
      else
        match decodedStringBytes (f_value text) with
        | None => inl AInvalidParams
        | Some textBytes =>
            if (textBytes =? 0)%nat || (kBleActionMessageTextBytes <? textBytes)%nat then inl AInvalidParams
            else
              let direct := spanEquals (f_value route) (bytes_of "direct") in
              if negb (if direct then validDirectTarget (f_value target)
                       else validChannelTarget (f_value target))
              then inl AInvalidParams
              else
                match decodeString (f_value target) (S kBleActionMessageTargetBytes),
                      decodeString (f_value text) (S kBleActionMessageTextBytes) with
                | Some targetText, Some textText =>
                    if (length textText =? 0)%nat then inl AInvalidParams
                    else inr (set_message (if direct then RouteDirect else RouteChannel)
                                targetText textText output)
                | _, _ => inl AInvalidParams
                end
        end
  | _, _, _ => inl AInvalidParams
  end.

Definition decodeParams (params : option Field) (output : BleActionCommand)
  : BleActionDecodeResult + BleActionCommand :=
  match params with
  | None => inl AInvalidParams
  | Some p =>
      if negb (bool_decide (f_kind p = KObject)) then inl AInvalidParams
      else
        match parseObject (span_data (f_value p)) kMaximumParamFields with
        | inl ParseDuplicate => inl ADuplicateField
        | inl ParseMalformed => inl AMalformedJson
        | inr fields =>
            if (kind output =? Pet) || (kind output =? Feed) || (kind output =? Play) then
              if (length fields =? 0)%nat then inr output else inl AInvalidParams
            else if kind output =? ListenOnce then decodeListen fields output
            else if kind output =? AdvertiseOnce then decodeAdvertise fields output
            else if kind output =? SendMessage then decodeMessage fields output
            else inl AInvalidKind
        end
  end.

(** The decoded command, or the result other than [Ok] with what [output] holds
    then of the identifier, which is all a caller reads after a failure. *)
Definition decodeBleActionCommand (json : list Z)
  : (BleActionDecodeResult * BleActionCommand) + BleActionCommand :=
  if (length json =? 0)%nat || (kMaximumActionBodyBytes <? length json)%nat
  then inl (AInvalidArgument, noCommand)
  else if negb (validUtf8 json) then inl (AMalformedJson, noCommand)
  else
    match parseObject json kMaximumOuterFields with
    | inl ParseDuplicate => inl (ADuplicateField, noCommand)
    | inl ParseMalformed => inl (AMalformedJson, noCommand)
    | inr fields =>
        if negb (exactSchema fields [bytes_of "action_id"; bytes_of "kind"; bytes_of "expires_at_epoch";
                                     bytes_of "params"])
        then inl (AUnknownField, noCommand)
        else
          match parseUuid (findField fields (bytes_of "action_id")) with
          | None => inl (AInvalidActionId, noCommand)
          | Some (id, text) =>
              let identified := set_id id text noCommand in
              match parseKind (findField fields (bytes_of "kind")) with
              | None => inl (AInvalidKind, identified)
              | Some k =>
                  match parseUint32 (findField fields (bytes_of "expires_at_epoch")) with
                  | None => inl (AInvalidExpiry, identified)
                  | Some e =>
                      if (e <? kBleActionMinimumTrustedEpoch) || (kBleActionMaximumTrustedEpoch <? e)
                      then inl (AInvalidExpiry, identified)
                      else
                        match decodeParams (findField fields (bytes_of "params"))
                                (set_expiry e (set_kind k identified)) with
                        | inl error => inl (error, identified)
                        | inr command => inr command
                        end
                  end
              end
          end
    end.

(** ** What may be recorded, and its digest *)

(** The target and text buffers hold at least their counted bytes; the NUL tests
    say that the count is the length of the C string. *)
Definition validReplayCommand (c : BleActionCommand) : bool :=
  if negb (actionIdValid c) || negb (bleActionKindAvailable (kind c)) ||
     (expiresAtEpoch c <? kBleActionMinimumTrustedEpoch) ||
     (kBleActionMaximumTrustedEpoch <? expiresAtEpoch c)
  then false
  else if (if kind c =? ListenOnce
           then (durationMs c <? kBleActionMinimumListenMs) || (kBleActionMaximumListenMs <? durationMs c)
           else negb (durationMs c =? 0))
  then false
  else if (if kind c =? AdvertiseOnce
           then negb (advertScope c =? ScopeNearby) && negb (advertScope c =? ScopeMesh)
           else negb (advertScope c =? ScopeNone))
  then false
  else if negb (kind c =? SendMessage) then
    (messageRoute c =? RouteNone) && (messageTargetBytes c =? 0) && (messageTextBytes c =? 0) &&
    (length (messageTarget c) =? 0)%nat && (length (messageText c) =? 0)%nat
  else if (messageTextBytes c =? 0) || (Z.of_nat kBleActionMessageTextBytes <? messageTextBytes c) ||
          (messageTargetBytes c =? 0) ||
          (Z.of_nat kBleActionMessageTargetBytes <? messageTargetBytes c) ||
          negb (Z.of_nat (length (messageTarget c)) =? messageTargetBytes c) ||
          negb (Z.of_nat (length (messageText c)) =? messageTextBytes c) ||
          negb (validUtf8 (messageText c))
  then false
  else
    let target := mkSpan (messageTarget c) false in
    if messageRoute c =? RouteDirect then validDirectTarget target
    else (messageRoute c =? RouteChannel) && validChannelTarget target.

(** What [sha256Update] is called with, in order. *)
Definition commandParts (c : BleActionCommand) : list (list Z) :=
  [bytes_of "kitsu.ble-action.command.v1"; [0]; actionId c; [u8 (kind c)];
   putU32Be (expiresAtEpoch c); putU32Be (durationMs c); [u8 (messageRoute c)];
   [messageTargetBytes c]; take (Z.to_nat (messageTargetBytes c)) (messageTarget c);
   [0; messageTextBytes c]; take (Z.to_nat (messageTextBytes c)) (messageText c)] ++
  (if kind c =? AdvertiseOnce then [[u8 (advertScope c)]] else []).

(** SHA-256 as the decoder uses it (mbedTLS on the device): the digest of the
    parts, [None] when the context failed. *)
Class ActionSha256 (W : Type) := {
  actionSha256 : list (list Z) -> M W (option (list Z));
}.

Section Digest.
Context {W : Type} `{ActionSha256 W}.

Definition commandDigest (c : BleActionCommand) : M W (option (list Z)) :=
  if negb (validReplayCommand c) then ret None else actionSha256 (commandParts c).

Definition bleActionCommandDigest (c : BleActionCommand) : M W (option (list Z)) := commandDigest c.
End Digest.

(** ** Receipts *)

Definition validReceiptToken (token : option (list Z)) : bool :=
  match token with
  | None => false
  | Some t =>
      match t with
      | [] => false
      | first :: rest =>
          (97 <=? first) && (first <=? 122) && (length t <=? 48)%nat &&
          forallb (fun c => (97 <=? c) && (c <=? 122) || (48 <=? c) && (c <=? 57) || (c =? 95)) rest
      end
  end.

(** [snprintf] with the two formats; the output is cut when it does not fit. *)
Definition receiptText (c : BleActionCommand) (state : list Z) (errorCode : option (list Z)) : list Z :=
  match errorCode with
  | Some e =>
      js "{'action_id':'" ++ actionIdText c ++ js "','accepted':false,'state':'" ++ state ++
      js "','error_code':'" ++ e ++ js "'}"
  | None =>
      js "{'action_id':'" ++ actionIdText c ++ js "','accepted':true,'state':'" ++ state ++ js "'}"
  end.

Definition encodeBleActionReceipt (c : BleActionCommand) (accepted : bool) (state errorCode : option (list Z))
    (outputCapacity : nat) : option (list Z) :=
  if negb (actionIdValid c) || negb (validReceiptToken state) || (outputCapacity =? 0)%nat ||
     accepted && bool_decide (errorCode <> None) || negb accepted && negb (validReceiptToken errorCode)
  then None
  else
    s ← state;
    let text := receiptText c s errorCode in
    if (outputCapacity <=? length text)%nat then None else Some text.
