(* ===== verification/BleActionFacts.v ===== *)
(** * BLE actions: what the decoder accepts, what the digest binds *)

From S2P Require Import Prelude OtaCodec OtaCodecFacts CompanionText CompanionTextFacts FlatJson Permissions BleAction.

(** ** Identifiers *)

Lemma uuidLoop_ok n source input id text : (length input <= n)%nat ->
  uuidLoop source input = Some (id, text) -> bytesOk id.
Proof.
  revert source input id text. induction n as [|n IH]; intros source [|c rest] id text Hn; simpl in *;
    try lia; try (by intros [= <- <-]; constructor).
  destruct (_ || _).
  - destruct (c =? 45); [|done]. simpl. destruct (uuidLoop _ rest) as [[id' t']|] eqn:E; [|done].
    intros [= <- <-]. apply IH in E; [done|lia].
  - destruct rest as [|d rest]; [done|]. destruct (_ || _); [done|].
    destruct (uuidLoop _ rest) as [[id' t']|] eqn:E; [|done]. intros [= <- <-].
    apply IH in E; [|simpl in Hn; lia]. constructor; [|done]. apply u8_range.
Qed.

Lemma parseUuid_ok f id text : parseUuid f = Some (id, text) ->
  length id = kBleActionUuidBytes /\ bytesOk id.
Proof.
  unfold parseUuid. destruct f as [f|]; [|done]. simpl. destruct (_ || _ || _); [done|].
  destruct (uuidLoop _ _) as [[id' t']|] eqn:E; [|done]. simpl.
  destruct (Nat.eqb_spec (length id') kBleActionUuidBytes); [|done]. intros [= <- <-].
  split; [done|]. by eapply uuidLoop_ok.
Qed.

Lemma parseKind_ok f k : parseKind f = Some k -> bleActionKindAvailable k = true.
Proof.
  unfold parseKind. destruct f as [f|]; [|done]. simpl. destruct (_ || _); [done|].
  repeat (destruct (spanEquals _ _); [by intros [= <-]|]). done.
Qed.

(** ** Message text *)

Lemma appendUtf8_length scalar cap n bytes : appendUtf8 scalar cap n = Some bytes -> (n + length bytes < cap)%nat.
Proof.
  unfold appendUtf8. destruct (_ || _ || _); [done|].
  destruct (Nat.leb_spec cap (n + utf8Bytes scalar)); [done|]. intros [= <-].
  unfold utf8Bytes in *. destruct (scalar <=? 0x7f); [simpl in *; lia|].
  destruct (scalar <=? 0x7ff); [simpl in *; lia|]. destruct (scalar <=? 0xffff); simpl in *; lia.
Qed.

(** The buffer keeps room for its NUL. *)
Lemma decodeStringLoop_length fuel cap written value out : (length written < cap)%nat ->
  decodeStringLoop fuel cap written value = Some out -> (length out < cap)%nat.
Proof.
  assert (Happ : forall scalar w bytes, appendUtf8 scalar cap (length w) = Some bytes -> (length (w ++ bytes) < cap)%nat).
  { intros scalar w bytes E%appendUtf8_length. by rewrite length_app. }
  revert written value. induction fuel as [|fuel IH]; intros written value Hw; simpl;
    [destruct value; [by intros [= <-]|done]|].
  destruct value as [|c rest]; [by intros [= <-]|]. destruct (negb (c =? 92)).
  { destruct (Nat.leb_spec cap (length written + 1)); [done|]. apply IH. rewrite length_app. simpl. lia. }
  destruct rest as [|escape rest]; [done|]. destruct (negb (escape =? 117)).
  { destruct (simpleEscapeScalar escape) as [scalar|]; [|done]. simpl.
    destruct (appendUtf8 _ _ _) as [bytes|] eqn:E; [|done]. simpl. apply IH, (Happ _ _ _ E). }
  destruct rest as [|h1 [|h2 [|h3 [|h4 rest]]]]; try done. simpl. destruct (CompanionJson.highSurrogate _).
  - destruct rest as [|b [|u [|l1 [|l2 [|l3 [|l4 rest]]]]]]; try done.
    destruct (_ || _); [done|]. destruct (negb _); [done|].
    destruct (appendUtf8 _ _ _) as [bytes|] eqn:E; [|done]. simpl. apply IH, (Happ _ _ _ E).
  - destruct (appendUtf8 _ _ _) as [bytes|] eqn:E; [|done]. simpl. apply IH, (Happ _ _ _ E).
Qed.

(** Text without a backslash is copied. *)
Lemma decodeStringLoop_plain cap written value out : Forall (fun c => c <> 92) value ->
  decodeStringLoop (length value) cap written value = Some out -> out = written ++ value.
Proof.
  intros H. revert written. induction H as [|c value Hc _ IH]; intros written; simpl.
  - intros [= <-]. by rewrite app_nil_r.
  - destruct (Z.eqb_spec c 92); [done|]. simpl. destruct (_ <=? _)%nat; [done|].
    intros ->%IH. by rewrite <- app_assoc.
Qed.

Lemma decodeString_ok value cap out : decodeString value cap = Some out ->
  (length out < cap)%nat /\ validUtf8 out = true.
Proof.
  unfold decodeString. destruct (Nat.eqb_spec cap 0); [done|].
  destruct (decodeStringLoop _ _ _ _) as [o|] eqn:E; [|done]. simpl.
  destruct (_ || _) eqn:E2; [done|]. intros [= <-]. apply orb_false_iff in E2 as [_ E2].
  split; [|by apply negb_false_iff in E2]. eapply decodeStringLoop_length; [|exact E]. simpl. lia.
Qed.

Lemma decodeString_plain value cap out : Forall (fun c => c <> 92) (span_data value) ->
  decodeString value cap = Some out -> out = span_data value.
Proof.
  intros H. unfold decodeString. destruct (cap =? 0)%nat; [done|].
  destruct (decodeStringLoop _ _ _ _) as [o|] eqn:E; [|done]. simpl.
  destruct (_ || _); [done|]. intros [= <-]. by apply decodeStringLoop_plain in E.
Qed.

(** ** Targets *)

Lemma target_plain (direct : bool) value :
  (if direct then validDirectTarget value else validChannelTarget value) = true ->
  Forall (fun c => c <> 92) (span_data value) /\ span_escaped value = false /\ span_data value <> [].
Proof.
  destruct direct.
  - unfold validDirectTarget. destruct (span_escaped value); [done|]. simpl orb. cbv iota.
    destruct (Nat.eqb_spec (length (span_data value)) kBleActionMessageTargetBytes) as [Hl|]; [|done].
    destruct (forallb base64Char (span_data value)) eqn:Hb; [|done]. intros _. split_and!; [|done|].
    + apply Forall_forall. intros c Hc%list_elem_of_In. rewrite forallb_forall in Hb.
      specialize (Hb c Hc). unfold base64Char in Hb. lia.
    + intros E. by rewrite E in Hl.
  - unfold validChannelTarget. rewrite !andb_true_iff, negb_true_iff, Nat.eqb_eq.
    intros [[[-> Hl] H1] H2]. destruct (span_data value) as [|c [|]]; try done.
    unfold byte_at in *. simpl in H1, H2. split_and!; [|done|done]. constructor; [lia|constructor].
Qed.

(** ** Every accepted command can be reserved *)

Lemma parseUint32_range f v : parseUint32 f = Some v -> 0 <= v <= UINT32_MAX.
Proof.
  unfold parseUint32. destruct (parseInt64 f) as [x|]; [|done]. simpl.
  destruct (_ || _) eqn:E; [done|]. intros [= <-]. apply orb_false_iff in E as [E1 E2]. lia.
Qed.

Section Params.
Variables (id text : list Z) (k : BleActionKind) (e : Z).
Hypothesis He : kBleActionMinimumTrustedEpoch <= e <= kBleActionMaximumTrustedEpoch.
Let base := set_expiry e (set_kind k (set_id id text noCommand)).

Lemma epoch_in_range : (e <? kBleActionMinimumTrustedEpoch) = false /\ (kBleActionMaximumTrustedEpoch <? e) = false.
Proof. rewrite !Z.ltb_ge. lia. Qed.

Lemma care_valid : (k =? Pet) || (k =? Feed) || (k =? Play) = true -> validReplayCommand base = true.
Proof.
  destruct epoch_in_range as [E1 E2]. rewrite !orb_true_iff, !Z.eqb_eq. unfold validReplayCommand, base; simpl.
  rewrite E1, E2. intros [[->| ->]| ->]; reflexivity.
Qed.

Lemma listen_valid fields c : k = ListenOnce -> decodeListen fields base = inr c -> validReplayCommand c = true.
Proof.
  destruct epoch_in_range as [E1 E2]. intros Hk. unfold decodeListen. destruct (negb _); [done|].
  destruct (parseUint32 _) as [d|]; [|done]. destruct (_ || _) eqn:Hd; [done|]. intros [= <-].
  unfold validReplayCommand, base; simpl. rewrite E1, E2, Hk; simpl. by rewrite Hd.
Qed.

Lemma advertise_valid fields c : k = AdvertiseOnce -> decodeAdvertise fields base = inr c ->
  validReplayCommand c = true.
Proof.
  destruct epoch_in_range as [E1 E2]. intros Hk. unfold decodeAdvertise.
  destruct (findField _ _) as [scope|]; [|done]. destruct (_ || _ || _); [done|].
  destruct (spanEquals _ _); [|destruct (spanEquals _ _); [|done]]; intros [= <-];
    unfold validReplayCommand, base; simpl; by rewrite E1, E2, Hk.
Qed.

Lemma message_valid fields c : k = SendMessage -> decodeMessage fields base = inr c -> validReplayCommand c = true.
Proof.
  destruct epoch_in_range as [E1 E2]. intros Hk. unfold decodeMessage.
  destruct (findField _ _) as [route|]; [|done]. destruct (findField _ _) as [target|]; [|done].
  destruct (findField _ _) as [txt|]; [|done]. destruct (_ || _ || _ || _ || _); [done|].
  destruct (decodedStringBytes _) as [tb|]; [|done]. destruct (_ || _); [done|].
  set (direct := spanEquals (f_value route) (bytes_of "direct")).
  destruct (negb _) eqn:Ht; [done|]. apply negb_false_iff in Ht.
  destruct (decodeString (f_value target) _) as [tt'|] eqn:E3; [|done].
  destruct (decodeString (f_value txt) _) as [xt|] eqn:E4; [|done].
  destruct (Nat.eqb_spec (length xt) 0) as [|Hx]; [done|]. intros [= <-].
  destruct (target_plain direct _ Ht) as (Hp & Hesc & Hne).
  assert (Hc : (length tt' < S kBleActionMessageTargetBytes)%nat) by (by apply decodeString_ok in E3 as [? _]).
  apply decodeString_plain in E3; [|done]. subst tt'.
  apply decodeString_ok in E4 as [Hxl Hxu].
  assert (Hn0 : length (span_data (f_value target)) <> 0%nat) by (by destruct (span_data (f_value target))).
  unfold kBleActionMessageTargetBytes, kBleActionMessageTextBytes in *.
  unfold validReplayCommand, base; simpl. rewrite E1, E2, Hk; simpl. rewrite Hxu.
  rewrite !u8_id by lia. rewrite !Z.eqb_refl.
  replace (mkSpan (span_data (f_value target)) false) with (f_value target)
    by (destruct (f_value target); simpl in *; by subst).
  unfold kBleActionMessageTargetBytes, kBleActionMessageTextBytes.
  match goal with |- context [if ?g then false else _] => assert (g = false) as -> end.
  { rewrite !orb_false_iff, !Z.eqb_neq, !Z.ltb_ge. split_and!; try reflexivity; lia. }
  by destruct direct; simpl in *; rewrite Ht.
Qed.

Lemma decodeParams_valid p c : decodeParams p base = inr c -> validReplayCommand c = true.
Proof.
  unfold decodeParams. destruct p as [p|]; [|done]. destruct (negb _); [done|].
  destruct (parseObject _ _) as [[]|fields]; [done..|]. change (kind base) with k.
  destruct (_ || _ || _) eqn:Hc.
  { destruct (_ =? _)%nat; [|done]. intros [= <-]. by apply care_valid. }
  destruct (Z.eqb_spec k ListenOnce); [by apply listen_valid|].
  destruct (Z.eqb_spec k AdvertiseOnce); [by apply advertise_valid|].
  destruct (Z.eqb_spec k SendMessage); [by apply message_valid|done].
Qed.
End Params.

(** The parameters leave the identifier alone. *)
Lemma decodeParams_id p c c' : decodeParams p c = inr c' -> actionId c' = actionId c.
Proof.
  unfold decodeParams, decodeListen, decodeAdvertise, decodeMessage.
  intros Hp. repeat case_match; try discriminate; by inversion Hp.
Qed.

(** The decoder of a BLE action accepts only commands the replay ledger can
    bind: a 16-byte identifier, a known kind, a deadline between the trusted epochs,
    exactly the parameters of its kind inside their bounds, a canonical target and
    non-empty UTF-8 text.  No accepted command is refused for its form later. *)
Theorem decoded_command_replayable json c : decodeBleActionCommand json = inr c ->
  validReplayCommand c = true /\ length (actionId c) = kBleActionUuidBytes /\ bytesOk (actionId c).
Proof.
  unfold decodeBleActionCommand. destruct (_ || _); [done|]. destruct (negb _); [done|].
  destruct (parseObject _ _) as [[]|fields]; [done..|]. destruct (negb _); [done|].
  destruct (parseUuid _) as [[id text]|] eqn:Eu; [|done].
  destruct (parseKind _) as [k|] eqn:Ek; [|done]. destruct (parseUint32 _) as [e|] eqn:Ee; [|done].
  destruct (_ || _) eqn:Er; [done|]. destruct (decodeParams _ _) as [|c'] eqn:Ep; [done|]. intros [= <-].
  apply orb_false_iff in Er as [E1 E2]. apply Z.ltb_ge in E1, E2.
  split; [by eapply decodeParams_valid|]. apply decodeParams_id in Ep. rewrite Ep. by eapply parseUuid_ok.
Qed.

(** ** The digest binds every field *)

(** What a valid command is, field by field. *)
Record CommandOk (c : BleActionCommand) : Prop := {
  cmd_kind : 0 <= kind c < 256;
  cmd_expiry : 0 <= expiresAtEpoch c < 2 ^ 32;
  cmd_duration : 0 <= durationMs c < 2 ^ 32;
  cmd_scope : 0 <= advertScope c < 256 /\ (kind c <> AdvertiseOnce -> advertScope c = ScopeNone);
  cmd_route : 0 <= messageRoute c < 256;
  cmd_target : messageTargetBytes c = Z.of_nat (length (messageTarget c));
  cmd_text : messageTextBytes c = Z.of_nat (length (messageText c));
}.

Lemma valid_command c : validReplayCommand c = true -> CommandOk c.
Proof.
  assert (Hc : kBleActionMinimumTrustedEpoch = 1704067200 /\ kBleActionMaximumTrustedEpoch = 4102444800 /\
    kBleActionMinimumListenMs = 1000 /\ kBleActionMaximumListenMs = 60000) by done.
  destruct Hc as (C1 & C2 & C3 & C4).
  assert (Hk : forall k, bleActionKindAvailable k = true -> 0 <= k < 256).
  { unfold bleActionKindAvailable, Pet, Feed, Play, ListenOnce, AdvertiseOnce, SendMessage. intros k.
    rewrite !orb_true_iff, !Z.eqb_eq. lia. }
  unfold validReplayCommand. destruct (_ || _ || _ || _) eqn:E1; [done|].
  rewrite !orb_false_iff, !negb_false_iff, !Z.ltb_ge in E1. destruct E1 as [[[_ Ek] E1] E2].
  match goal with |- context [if ?g then false else _] => destruct g eqn:E3; [done|] end.
  match goal with |- context [if ?g then false else _] => destruct g eqn:E4; [done|] end.
  assert (Hd : 0 <= durationMs c < 2 ^ 32).
  { destruct (kind c =? ListenOnce); [apply orb_false_iff in E3|apply negb_false_iff in E3]; lia. }
  assert (Hs : 0 <= advertScope c < 256 /\ (kind c <> AdvertiseOnce -> advertScope c = ScopeNone)).
  { unfold ScopeNearby, ScopeMesh, ScopeNone in *. destruct (Z.eqb_spec (kind c) AdvertiseOnce).
    - rewrite andb_false_iff, !negb_false_iff in E4. split; [lia|done].
    - apply negb_false_iff in E4. split; lia. }
  destruct (negb (kind c =? SendMessage)).
  - rewrite !andb_true_iff, !Z.eqb_eq, !Nat.eqb_eq. intros [[[[H1 H2] H3] H4] H5].
    split; try done; rewrite ?H1, ?H2, ?H3, ?H4, ?H5; unfold RouteNone; try lia. by apply Hk.
  - match goal with |- context [if ?g then false else _] => destruct g eqn:E5; [done|] end.
    rewrite !orb_false_iff, !negb_false_iff, !Z.eqb_eq in E5. destruct E5 as (((_ & T) & X) & _).
    unfold RouteDirect, RouteChannel. intros Hr. split; [by apply Hk|lia|done|done| |by symmetry..].
    destruct (Z.eqb_spec (messageRoute c) 1); [lia|]. apply andb_true_iff in Hr as [Hr _]. lia.
Qed.

Lemma byte_cut a b x y : 0 <= a < 256 -> 0 <= b < 256 -> [u8 a] ++ x = [u8 b] ++ y -> a = b /\ x = y.
Proof. intros Ha Hb [= E <-]. by rewrite !u8_id in E. Qed.

(** The bytes that are hashed to bind a command determine it: two valid
    commands with the same digest input have the same identifier, kind, deadline,
    duration, advertisement scope, route, target and text. *)
Theorem command_digest_binds c1 c2 : validReplayCommand c1 = true -> validReplayCommand c2 = true ->
  length (actionId c1) = kBleActionUuidBytes -> length (actionId c2) = kBleActionUuidBytes ->
  concat (commandParts c1) = concat (commandParts c2) ->
  actionId c1 = actionId c2 /\ kind c1 = kind c2 /\ expiresAtEpoch c1 = expiresAtEpoch c2 /\
  durationMs c1 = durationMs c2 /\ advertScope c1 = advertScope c2 /\ messageRoute c1 = messageRoute c2 /\
  messageTarget c1 = messageTarget c2 /\ messageText c1 = messageText c2.
Proof.
  intros [K1 X1 D1 [S1 N1] R1 T1 L1]%valid_command [K2 X2 D2 [S2 N2] R2 T2 L2]%valid_command I1 I2.
  unfold commandParts. rewrite !concat_app. cbn [concat]. rewrite !app_nil_r, <- !app_assoc.
  intros E. apply app_inv_head in E. apply app_inv_head in E.
  apply app_inj_1 in E as [Ei E]; [|congruence].
  apply byte_cut in E as [Ek E]; [|done..].
  apply app_inj_1 in E as [Ex%putU32Be_inj E]; [|done..].
  apply app_inj_1 in E as [Ed%putU32Be_inj E]; [|done..].
  apply byte_cut in E as [Er E]; [|done..]. apply app_inj_1 in E as [[= Et] E]; [|done].
  rewrite T1, T2 in Et. apply Nat2Z.inj in Et.
  rewrite T1, T2, !Nat2Z.id, !firstn_all in E. apply app_inj_1 in E as [Etgt E]; [|done].
  apply app_inj_1 in E as [[= El] E]; [|done]. rewrite L1, L2 in El. apply Nat2Z.inj in El.
  rewrite L1, L2, !Nat2Z.id, !firstn_all in E. apply app_inj_1 in E as [Etxt E]; [|done].
  split_and!; try done. rewrite Ek in E, N1. destruct (Z.eqb_spec (kind c2) AdvertiseOnce) as [Hk|Hk].
  - cbn in E. injection E as E. by rewrite !u8_id in E.
  - by rewrite N1, N2.
Qed.

(** ** Examples *)

Definition exampleBody : list Z :=
  js "{'action_id':'00112233-4455-6677-8899-aabbccddeeff','kind':'listen_once','expires_at_epoch':1704067300,'params':{'duration_ms':5000}}".
(** The same command written differently. *)
Definition otherBody : list Z :=
  js "{ 'params' : {'duration_ms': 5000}, 'kind':'listen_once', 'expires_at_epoch':1704067300, 'action_id':'00112233-4455-6677-8899-AABBCCDDEEFF' }".
Definition messageBody : list Z :=
  js "{'action_id':'00112233-4455-6677-8899-aabbccddeeff','kind':'send_message','expires_at_epoch':1704067300,'params':{'route':'channel','target_id':'2','text':'h\u00e9'}}".

Definition decoded (json : list Z) : BleActionCommand :=
  match decodeBleActionCommand json with inr c => c | inl _ => noCommand end.
Definition exampleCommand : BleActionCommand := Eval vm_compute in decoded exampleBody.

Lemma example_decoded : decodeBleActionCommand exampleBody = inr exampleCommand.
Proof. vm_compute. reflexivity. Qed.
Lemma other_decoded : decodeBleActionCommand otherBody = inr exampleCommand.
Proof. vm_compute. reflexivity. Qed.
Example message_text : messageText (decoded messageBody) = [104; 195; 169].
Proof. vm_compute. reflexivity. Qed.

Lemma decoded_command_replayable_witness :
  validReplayCommand exampleCommand = true /\ length (actionId exampleCommand) = kBleActionUuidBytes /\
  bytesOk (actionId exampleCommand).
Proof. exact (decoded_command_replayable exampleBody exampleCommand example_decoded). Defined.

Lemma example_valid : validReplayCommand exampleCommand = true /\ validReplayCommand (decoded otherBody) = true /\
  concat (commandParts exampleCommand) = concat (commandParts (decoded otherBody)).
Proof. split_and!; vm_compute; reflexivity. Qed.

Lemma command_digest_binds_witness : kind exampleCommand = kind (decoded otherBody).
Proof.
  destruct example_valid as (H1 & H2 & H3).
  assert (L1 : length (actionId exampleCommand) = kBleActionUuidBytes) by reflexivity.
  assert (L2 : length (actionId (decoded otherBody)) = kBleActionUuidBytes) by (vm_compute; reflexivity).
  exact (proj1 (proj2 (command_digest_binds exampleCommand (decoded otherBody) H1 H2 L1 L2 H3))).
Defined.
