(* ===== verification/ActionReplay.v ===== *)
(** * The replay ledger of BLE actions (class BleActionReplayCache)

    src/src/kitsu_ble_action.h, .cpp: eight records of accepted commands in a
    packed, CRC-protected blob that is stored as it is.  The ESP32-S3 and the
    host are little-endian, so the blob is the concatenation of its members. *)

From S2P Require Import Prelude Crc BleAction.

Open Scope kitsu_scope.

Definition kReplayMagic : Z := 0x3341524b.
Definition kReplayPending : Z := 1.
Definition kReplayApplied : Z := 2.

Record Record_ := mkRecord {
  actionId_ : list Z;
  commandDigest_ : list Z;
  expires_ : Z;
  outcome_ : Z;
}.
Definition noRecord : Record_ :=
  mkRecord (replicate kBleActionUuidBytes 0) (replicate kBleActionCommandDigestBytes 0) 0 0.

Record Blob := mkBlob {
  magic_ : Z;
  bytes_ : Z;
  count_ : nat;
  reserved_ : Z;
  records_ : list Record_;
  crc_ : Z;
}.
Definition noBlob : Blob := mkBlob 0 0 0 0 (replicate kBleActionReplayCapacity noRecord) 0.

(** [sizeof(Record)] and [sizeof(Blob)] under [#pragma pack(1)]. *)
Definition kRecordBytes : nat := 53.
Definition kBlobBytes : nat := 436.

Definition recordBytes (r : Record_) : list Z :=
  actionId_ r ++ commandDigest_ r ++ put32 (expires_ r) ++ [outcome_ r].
(** The bytes before [offsetof(Blob, crc32)], and the whole blob. *)
Definition blobHead (b : Blob) : list Z :=
  put32 (magic_ b) ++ put16 (bytes_ b) ++ [Z.of_nat (count_ b)] ++ [reserved_ b] ++
  concat (map recordBytes (records_ b)).
Definition blobBytes (b : Blob) : list Z := blobHead b ++ put32 (crc_ b).

(** [memcpy] into a record or a blob. *)
Definition recordOf (l : list Z) : Record_ :=
  mkRecord (slice 0 16 l) (slice 16 32 l) (get32 (drop 48 l)) (byte_at l 52).
Fixpoint recordsOf (n : nat) (l : list Z) : list Record_ :=
  match n with
  | O => []
  | S n' => recordOf l :: recordsOf n' (drop kRecordBytes l)
  end.
Definition blobOf (l : list Z) : Blob :=
  mkBlob (get32 l) (get16 (drop 4 l)) (Z.to_nat (byte_at l 6)) (byte_at l 7)
    (recordsOf kBleActionReplayCapacity (drop 8 l)) (get32 (drop 432 l)).

Definition set_count (n : nat) (b : Blob) : Blob :=
  mkBlob (magic_ b) (bytes_ b) n (reserved_ b) (records_ b) (crc_ b).
Definition set_record (i : nat) (r : Record_) (b : Blob) : Blob :=
  mkBlob (magic_ b) (bytes_ b) (count_ b) (reserved_ b) (<[i := r]> (records_ b)) (crc_ b).
Definition set_outcome (o : Z) (r : Record_) : Record_ :=
  mkRecord (actionId_ r) (commandDigest_ r) (expires_ r) o.

(** The file's [crc32] computes the function of [Crc]. *)
Definition seal (b : Blob) : Blob :=
  mkBlob (magic_ b) (bytes_ b) (count_ b) (reserved_ b) (records_ b) (crc32 (blobHead b)).

Definition reset : Blob :=
  seal (mkBlob kReplayMagic (Z.of_nat kBlobBytes) 0 0 (records_ noBlob) 0).

Definition occupiedRecordValid (r : Record_) : bool :=
  ((outcome_ r =? kReplayPending) || (outcome_ r =? kReplayApplied)) &&
  (kBleActionMinimumTrustedEpoch <=? expires_ r) && (expires_ r <=? kBleActionMaximumTrustedEpoch).

Definition allZero (input : list Z) : bool := fold_left Z.lor input 0 =? 0.

(** The loop of [valid] over the records; [earlier] are those before. *)
Fixpoint recordsValid (count : nat) (earlier rs : list Record_) : bool :=
  match rs with
  | [] => true
  | r :: rs' =>
      match count with
      | S count' =>
          occupiedRecordValid r &&
          negb (existsb (fun e => beq (actionId_ e) (actionId_ r)) earlier) &&
          recordsValid count' (earlier ++ [r]) rs'
      | O => allZero (recordBytes r) && recordsValid O earlier rs'
      end
  end.

Definition valid (b : Blob) : bool :=
  (magic_ b =? kReplayMagic) && (bytes_ b =? Z.of_nat kBlobBytes) &&
  (count_ b <=? kBleActionReplayCapacity)%nat && (reserved_ b =? 0) &&
  (crc_ b =? crc32 (blobHead b)) && recordsValid (count_ b) [] (records_ b).

(** [load]: the blob afterwards and whether it is the given one. *)
Definition load (serialized : option (list Z)) : bool * Blob :=
  match serialized with
  | None => (false, reset)
  | Some l =>
      if negb (length l =? kBlobBytes)%nat then (false, reset)
      else if valid (blobOf l) then (true, blobOf l) else (false, reset)
  end.

Definition serialized (b : Blob) : list Z := blobBytes b.

Inductive BleActionReplayDecision := Fresh | DuplicateApplied | DuplicateIndeterminate | Conflict
  | Expired | TimeUnavailable | InvalidExpiry.

#[export] Instance BleActionReplayDecision_eq_dec : EqDecision BleActionReplayDecision.
Proof. solve_decision. Defined.

(** The loop of [inspect] over the occupied records. *)
Fixpoint inspectRecords (rs : list Record_) (actionId digest : list Z) (trustedNowEpoch : Z)
  : BleActionReplayDecision :=
  match rs with
  | [] => Fresh
  | r :: rs' =>
      if negb (beq (actionId_ r) actionId) then inspectRecords rs' actionId digest trustedNowEpoch
      else if beq (commandDigest_ r) digest then
        if outcome_ r =? kReplayApplied then DuplicateApplied else DuplicateIndeterminate
      else if expires_ r <=? trustedNowEpoch then Fresh else Conflict
  end.

(** The slot loop of [remember]: [slot] is the first expired record so far. *)
Fixpoint slotLoop (i slot : nat) (rs : list Record_) (actionId : list Z) (trustedNowEpoch : Z) : nat :=
  match rs with
  | [] => slot
  | r :: rs' =>
      if expires_ r <=? trustedNowEpoch then
        let slot := if (slot =? kBleActionReplayCapacity)%nat then i else slot in
        if beq (actionId_ r) actionId then i
        else slotLoop (S i) slot rs' actionId trustedNowEpoch
      else slotLoop (S i) slot rs' actionId trustedNowEpoch
  end.

(** The first record of an identifier. *)
Fixpoint findRecord (i : nat) (rs : list Record_) (actionId : list Z) : option (nat * Record_) :=
  match rs with
  | [] => None
  | r :: rs' => if beq (actionId_ r) actionId then Some (i, r) else findRecord (S i) rs' actionId
  end.

(** ** The operations *)

Section Cache.
Context {W : Type} `{ActionSha256 W}.

Definition blob_ : M (Blob * W) Blob := gets fst.
Definition updBlob (f : Blob -> Blob) : M (Blob * W) unit := modify (fun s => (f (fst s), snd s)).
Definition digestOf (c : BleActionCommand) : M (Blob * W) (option (list Z)) :=
  fun s => let '(d, w) := commandDigest c (snd s) in (d, (fst s, w)).

Definition inspect (c : BleActionCommand) (trustedNowEpoch : Z)
  : M (Blob * W) BleActionReplayDecision :=
  digest <- digestOf c ;;
  match digest with
  | None => ret Conflict
  | Some digest =>
      if (trustedNowEpoch <? kBleActionMinimumTrustedEpoch) ||
         (kBleActionMaximumTrustedEpoch <? trustedNowEpoch)
      then ret TimeUnavailable
      else if expiresAtEpoch c <=? trustedNowEpoch then ret Expired
      else if kBleActionMaximumExpirySeconds <? expiresAtEpoch c - trustedNowEpoch
      then ret InvalidExpiry
      else b <- blob_ ;;
           ret (inspectRecords (take (count_ b) (records_ b)) (actionId c) digest trustedNowEpoch)
  end.

Definition remember (c : BleActionCommand) (trustedNowEpoch : Z) : M (Blob * W) bool :=
  decision <- inspect c trustedNowEpoch ;;
  if bool_decide (decision = DuplicateApplied) || bool_decide (decision = DuplicateIndeterminate)
  then ret true
  else if negb (bool_decide (decision = Fresh)) then ret false
  else
    b <- blob_ ;;
    let found := slotLoop 0 kBleActionReplayCapacity (take (count_ b) (records_ b)) (actionId c)
                   trustedNowEpoch in
    let full := (found =? kBleActionReplayCapacity)%nat in
    if full && (kBleActionReplayCapacity <=? count_ b)%nat then ret false
    else
      let slot := if full then count_ b else found in
      when full (updBlob (set_count (S (count_ b)))) ;;;
      digest <- digestOf c ;;
      match digest with
      | None => ret false
      | Some digest =>
          updBlob (set_record slot (mkRecord (actionId c) digest (expiresAtEpoch c) kReplayPending)) ;;;
          updBlob seal ;;;
          ret true
      end.

Definition markApplied (c : BleActionCommand) : M (Blob * W) bool :=
  digest <- digestOf c ;;
  match digest with
  | None => ret false
  | Some digest =>
      b <- blob_ ;;
      match findRecord 0 (take (count_ b) (records_ b)) (actionId c) with
      | None => ret false
      | Some (i, r) =>
          if negb (beq (commandDigest_ r) digest) then ret false
          else
            updBlob (set_record i (set_outcome kReplayApplied r)) ;;;
            updBlob seal ;;;
            ret true
      end
  end.

End Cache.
