(* ===== verification/ActionReplayFacts.v ===== *)
(** * The replay ledger: well-formedness, persistence and protection

    A well-formed ledger survives every operation and the way to flash and back;
    a reserved command is never fresh again while it can still be executed. *)

From S2P Require Import Prelude Crc Sha256 BleAction BleActionFacts ActionReplay.

Open Scope kitsu_scope.

(** ** Well-formed ledgers *)

(** The members of a record are inside their C types. *)
Record RecordOk (r : Record_) : Prop := {
  ok_id : length (actionId_ r) = kBleActionUuidBytes;
  ok_idBytes : bytesOk (actionId_ r);
  ok_digest : length (commandDigest_ r) = kBleActionCommandDigestBytes;
  ok_digestBytes : bytesOk (commandDigest_ r);
  ok_expires : 0 <= expires_ r < 4294967296;
  ok_outcome : isByte (outcome_ r);
}.

Definition occupied (b : Blob) : list Record_ := take (count_ b) (records_ b).

(** The occupied records are valid and have different identifiers, the others are
    zero, and the checksum is the one of the content. *)
Record LedgerOk (b : Blob) : Prop := {
  led_magic : magic_ b = kReplayMagic;
  led_bytes : bytes_ b = Z.of_nat kBlobBytes;
  led_count : (count_ b <= kBleActionReplayCapacity)%nat;
  led_reserved : reserved_ b = 0;
  led_length : length (records_ b) = kBleActionReplayCapacity;
  led_records : Forall RecordOk (records_ b);
  led_occupied : Forall (fun r => occupiedRecordValid r = true) (occupied b);
  led_distinct : NoDup (map actionId_ (occupied b));
  led_free : Forall (fun r => r = noRecord) (drop (count_ b) (records_ b));
  led_crc : crc_ b = crc32 (blobHead b);
}.

Lemma recordBytes_length r : RecordOk r -> length (recordBytes r) = kRecordBytes.
Proof.
  intros [H1 _ H2 _ _ _]. unfold recordBytes. rewrite !length_app, H1, H2, put32_length. done.
Qed.

Lemma recordBytes_ok r : RecordOk r -> bytesOk (recordBytes r).
Proof.
  intros [_ H1 _ H2 _ H3]. unfold recordBytes, bytesOk. rewrite !Forall_app.
  split_and!; [done..|apply put32_ok|by rewrite Forall_singleton].
Qed.

Lemma recordOf_recordBytes r rest : RecordOk r -> recordOf (recordBytes r ++ rest) = r.
Proof.
  intros [H1 H1b H2 H2b H3 H4]. destruct r as [a d e o]; simpl in *. unfold recordOf, recordBytes; simpl.
  rewrite <- !app_assoc. unfold kBleActionUuidBytes, kBleActionCommandDigestBytes in *. f_equal.
  - by apply slice_here.
  - rewrite slice_skip by lia. replace (16 - length a)%nat with 0%nat by lia. by apply slice_here.
  - rewrite (app_assoc a d). rewrite drop_app_length' by (rewrite length_app; lia).
    by apply get32_put32.
  - rewrite byte_at_app_r by lia. rewrite byte_at_app_r by lia.
    rewrite H1, H2. done.
Qed.

Lemma recordsOf_concat rs rest : Forall RecordOk rs ->
  recordsOf (length rs) (concat (map recordBytes rs) ++ rest) = rs.
Proof.
  induction 1 as [|r rs Hr _ IH]; [done|]. simpl. rewrite <- app_assoc.
  rewrite recordOf_recordBytes by done. f_equal.
  by rewrite drop_app_length' by (by rewrite recordBytes_length).
Qed.

Lemma concat_records_length rs : Forall RecordOk rs ->
  length (concat (map recordBytes rs)) = (length rs * kRecordBytes)%nat.
Proof.
  induction 1 as [|r rs Hr _ IH]; [done|]. simpl. rewrite length_app, IH, recordBytes_length by done. done.
Qed.

Lemma blobHead_length b : LedgerOk b -> length (blobHead b) = 432%nat.
Proof.
  intros H. unfold blobHead. rewrite !length_app, put32_length, put16_length.
  rewrite concat_records_length, led_length by apply H. done.
Qed.

Lemma blobHead_ok b : LedgerOk b -> bytesOk (blobHead b).
Proof.
  intros H. unfold blobHead, bytesOk. rewrite !Forall_app. rewrite !Forall_singleton.
  split_and!; [apply put32_ok|apply put16_ok| | |].
  - pose proof (led_count b H). unfold kBleActionReplayCapacity in *. unfold isByte. lia.
  - by rewrite led_reserved by done.
  - apply Forall_concat, List.Forall_map. apply Forall_impl with RecordOk; [apply H|].
    apply recordBytes_ok.
Qed.

Lemma blob_crc_range b : LedgerOk b -> 0 <= crc_ b < 4294967296.
Proof. intros H. rewrite led_crc by done. apply crc32_range, blobHead_ok, H. Qed.

Lemma blobBytes_length b : LedgerOk b -> length (blobBytes b) = kBlobBytes.
Proof. intros H. unfold blobBytes. by rewrite length_app, blobHead_length. Qed.

Lemma blobBytes_ok b : LedgerOk b -> bytesOk (blobBytes b).
Proof. intros H. apply Forall_app. split; [by apply blobHead_ok|apply put32_ok]. Qed.

(** What is written to flash reads back as the same ledger. *)
Lemma blobOf_blobBytes b : LedgerOk b -> blobOf (blobBytes b) = b.
Proof.
  intros H. pose proof (led_count b H) as Hc. pose proof (led_records b H) as Hr.
  pose proof (led_length b H) as Hl. pose proof (blob_crc_range b H) as Hcrc.
  pose proof (blobHead_length b H) as Hh.
  assert (Hd : drop 8 (blobBytes b) = concat (map recordBytes (records_ b)) ++ put32 (crc_ b)).
  { unfold blobBytes, blobHead. by rewrite <- !app_assoc. }
  assert (Hz : drop 432 (blobBytes b) = put32 (crc_ b)).
  { unfold blobBytes. by rewrite drop_app_length' by done. }
  unfold blobOf. rewrite Hd, Hz, <- Hl, recordsOf_concat by done.
  rewrite <- (app_nil_r (put32 (crc_ b))), get32_put32 by done.
  unfold blobBytes, blobHead. rewrite <- !app_assoc. rewrite get32_put32 by (rewrite led_magic by done; done).
  rewrite drop_app_length' by done. rewrite get16_put16 by (rewrite led_bytes by done; done).
  unfold byte_at. simpl. rewrite Nat2Z.id. by destruct b.
Qed.

(** ** The code's validity test *)

Lemma fold_lor_zero_nonneg l acc : bytesOk l -> 0 <= acc ->
  fold_left Z.lor l acc = 0 -> acc = 0 /\ Forall (fun b => b = 0) l.
Proof.
  intros Hl. revert acc. induction Hl as [|x l Hx Hl IH]; intros acc Hacc; simpl; [auto|].
  intros E. unfold isByte in Hx. destruct (IH (Z.lor acc x)) as [E1 E2]; [by apply Z.lor_nonneg; lia|done|].
  apply Z.lor_eq_0_iff in E1 as [-> ->]. auto.
Qed.

Lemma zero_replicate (l : list Z) : Forall (fun b => b = 0) l -> l = replicate (length l) 0.
Proof. induction 1 as [|x l -> _ IH]; simpl; [done|]. by rewrite <- IH. Qed.

Lemma zero_byte c : isByte c -> u8 c = 0 -> c = 0.
Proof. unfold isByte, u8. intros. rewrite Z.mod_small in *; lia. Qed.

Lemma put32_zero v : 0 <= v < 4294967296 -> Forall (fun b => b = 0) (put32 v) -> v = 0.
Proof.
  intros Hv H. rewrite <- (get32_put32 v []) by done. rewrite app_nil_r.
  rewrite (zero_replicate _ H). reflexivity.
Qed.

Lemma allZero_record r : RecordOk r -> allZero (recordBytes r) = true -> r = noRecord.
Proof.
  intros H. unfold allZero. rewrite Z.eqb_eq. intros E.
  apply fold_lor_zero_nonneg in E as [_ E]; [|by apply recordBytes_ok|lia].
  destruct H as [H1 _ H2 _ H3 H4]. unfold recordBytes in E. rewrite !Forall_app in E.
  destruct E as (E1 & E2 & E3 & E4). destruct r as [a d e o]; simpl in *.
  rewrite (zero_replicate a E1), (zero_replicate d E2), H1, H2, (put32_zero e) by done.
  inversion E4; subst. reflexivity.
Qed.

Lemma existsb_id (earlier : list Record_) r :
  existsb (fun e => beq (actionId_ e) (actionId_ r)) earlier = false <->
  actionId_ r ∉ map actionId_ earlier.
Proof.
  rewrite <- not_true_iff_false, existsb_exists, list_elem_of_In, in_map_iff.
  split; intros Hn [e [H1 H2]]; apply Hn; exists e.
  - split; [done|]. by apply beq_eq.
  - apply beq_eq in H2. done.
Qed.

Lemma recordsValid_free rs earlier : Forall RecordOk rs ->
  recordsValid 0 earlier rs = true <-> Forall (fun r => r = noRecord) rs.
Proof.
  induction 1 as [|r rs Hr _ IH]; simpl; [done|]. rewrite andb_true_iff, IH, Forall_cons.
  split; intros [H1 H2]; (split; [|done]); [by apply allZero_record|by subst].
Qed.

Lemma recordsValid_spec n rs earlier : Forall RecordOk rs -> (n <= length rs)%nat ->
  NoDup (map actionId_ earlier) ->
  recordsValid n earlier rs = true <->
  Forall (fun r => occupiedRecordValid r = true) (take n rs) /\
  NoDup (map actionId_ (earlier ++ take n rs)) /\
  Forall (fun r => r = noRecord) (drop n rs).
Proof.
  intros H. revert n earlier. induction H as [|r rs Hr Hrs IH]; intros n earlier Hn Hd.
  { simpl in Hn. replace n with 0%nat by lia. simpl. rewrite app_nil_r. split; auto. }
  destruct n as [|n].
  { rewrite take_0, drop_0, app_nil_r, recordsValid_free by (by constructor).
    split; [auto|by intros (_ & _ & ?)]. }
  simpl. rewrite !andb_true_iff, negb_true_iff, existsb_id, Forall_cons.
  assert (Hd' : actionId_ r ∉ map actionId_ earlier -> NoDup (map actionId_ (earlier ++ [r]))).
  { intros. rewrite map_app. apply NoDup_app. split_and!; [done| |apply NoDup_singleton].
    intros x Hx ->%list_elem_of_singleton. done. }
  assert (Hsame : earlier ++ r :: take n rs = (earlier ++ [r]) ++ take n rs) by (by rewrite <- app_assoc).
  rewrite Hsame. simpl in Hn. split.
  - intros [[Ho Hx] Hv]. apply IH in Hv as (? & ? & ?); [|lia|auto]. auto.
  - intros ([Ho Hos] & Hnd & Hf). assert (Hx : actionId_ r ∉ map actionId_ earlier).
    { rewrite map_app in Hnd. apply NoDup_app in Hnd as (Hnd & _ & _). rewrite map_app in Hnd.
      apply NoDup_app in Hnd as (_ & Hni & _). intros Hin. apply (Hni _ Hin), list_elem_of_here. }
    split; [done|]. apply IH; [lia|auto|auto].
Qed.

Lemma ledger_valid b : LedgerOk b -> valid b = true.
Proof.
  intros H. unfold valid. rewrite led_magic, led_bytes, led_reserved, <- led_crc by done.
  rewrite !Z.eqb_refl, !andb_true_iff, Nat.leb_le. split_and!; [done|done|apply H|done|done|].
  apply recordsValid_spec; [apply H|rewrite led_length by done; apply H|constructor|].
  split_and!; apply H.
Qed.

Lemma valid_ledger b : length (records_ b) = kBleActionReplayCapacity -> Forall RecordOk (records_ b) ->
  valid b = true -> LedgerOk b.
Proof.
  intros Hl Hr. unfold valid. rewrite !andb_true_iff, !Z.eqb_eq, Nat.leb_le.
  intros (((((H1 & H2) & H3) & H4) & H5) & H6).
  apply recordsValid_spec in H6 as (H6 & H7 & H8); [|done|by rewrite Hl|constructor].
  by split.
Qed.

Lemma recordOf_ok l : bytesOk l -> (kRecordBytes <= length l)%nat -> RecordOk (recordOf l).
Proof.
  intros Hl Hn. unfold kRecordBytes in Hn.
  split; unfold kBleActionUuidBytes, kBleActionCommandDigestBytes; simpl.
  - apply slice_length. lia.
  - by apply slice_ok.
  - apply slice_length. lia.
  - by apply slice_ok.
  - apply u32_range.
  - by apply byte_at_ok.
Qed.

Lemma recordsOf_ok n l : bytesOk l -> (n * kRecordBytes <= length l)%nat ->
  Forall RecordOk (recordsOf n l) /\ length (recordsOf n l) = n.
Proof.
  revert l. induction n as [|n IH]; intros l Hl Hn; simpl; [auto|].
  destruct (IH (drop kRecordBytes l)) as [H1 H2]; [by apply Forall_drop| |].
  { rewrite length_drop. rewrite Nat.mul_succ_l in Hn. lia. }
  split; [|by rewrite H2]. constructor; [|done]. apply recordOf_ok; [done|]. rewrite Nat.mul_succ_l in Hn. lia.
Qed.

Lemma load_cases x : (forall l, x = Some l -> bytesOk l) ->
  load x = (false, reset) \/
  exists l, x = Some l /\ load x = (true, blobOf l) /\ LedgerOk (blobOf l).
Proof.
  intros Hx. destruct x as [l|]; [|by left]. unfold load.
  destruct (Nat.eqb_spec (length l) kBlobBytes) as [Hl|]; [|by left]. simpl negb. cbv iota.
  destruct (valid (blobOf l)) eqn:Hv; [|by left]. right. exists l. split_and!; [done..|].
  destruct (recordsOf_ok kBleActionReplayCapacity (drop 8 l)) as [H1 H2].
  { by apply Forall_drop, Hx. }
  { rewrite length_drop, Hl. unfold kBlobBytes, kBleActionReplayCapacity, kRecordBytes. lia. }
  by apply valid_ledger.
Qed.

Lemma reset_ok : LedgerOk reset.
Proof.
  apply valid_ledger; [reflexivity| |vm_compute; reflexivity]. simpl.
  assert (RecordOk noRecord).
  { split; simpl; try reflexivity; try lia; try (apply allByte_literal; reflexivity). unfold isByte. lia. }
  by repeat constructor.
Qed.

Lemma load_ok x : (forall l, x = Some l -> bytesOk l) -> LedgerOk (snd (load x)).
Proof. intros [->|(l & _ & -> & H)]%load_cases; [apply reset_ok|done]. Qed.

Lemma load_serialized b : LedgerOk b -> load (Some (serialized b)) = (true, b).
Proof.
  intros H. unfold load, serialized. rewrite blobBytes_length, blobOf_blobBytes, ledger_valid by done. done.
Qed.

(** ** Changing one record *)

Lemma occupied_lookup b j r : occupied b !! j = Some r <-> records_ b !! j = Some r /\ (j < count_ b)%nat.
Proof. unfold occupied. apply lookup_take_Some. Qed.

Lemma seal_ok b : magic_ b = kReplayMagic -> bytes_ b = Z.of_nat kBlobBytes ->
  (count_ b <= kBleActionReplayCapacity)%nat -> reserved_ b = 0 ->
  length (records_ b) = kBleActionReplayCapacity -> Forall RecordOk (records_ b) ->
  Forall (fun r => occupiedRecordValid r = true) (occupied b) ->
  NoDup (map actionId_ (occupied b)) -> Forall (fun r => r = noRecord) (drop (count_ b) (records_ b)) ->
  LedgerOk (seal b).
Proof. intros. by split. Qed.

(** Writing a valid record in an occupied slot, or in the next free one. *)
Lemma set_record_ok b slot n r : LedgerOk b -> RecordOk r -> occupiedRecordValid r = true ->
  n = count_ b /\ (slot < n)%nat \/
  n = S (count_ b) /\ slot = count_ b /\ (count_ b < kBleActionReplayCapacity)%nat ->
  (forall j r', occupied b !! j = Some r' -> actionId_ r' = actionId_ r -> j = slot) ->
  LedgerOk (seal (set_record slot r (set_count n b))).
Proof.
  intros H Hr Hv Hslot Hd. pose proof (led_length b H) as Hl. pose proof (led_count b H) as Hc.
  assert (Hlt : (slot < n)%nat) by (destruct Hslot as [[]|(? & ? & ?)]; lia).
  assert (Hn : (n <= kBleActionReplayCapacity)%nat) by (destruct Hslot as [[]|(? & ? & ?)]; lia).
  assert (Ht : take n (<[slot:=r]> (records_ b)) = <[slot:=r]> (take n (records_ b))).
  { apply take_insert_lt. lia. }
  assert (Hin : forall j r', take n (records_ b) !! j = Some r' -> j <> slot -> occupied b !! j = Some r').
  { intros j r' [? ?]%lookup_take_Some ?. apply occupied_lookup. split; [done|].
    destruct Hslot as [[]|(? & ? & ?)]; lia. }
  apply seal_ok; simpl; try apply H; [done|by rewrite length_insert| | | |].
  - apply Forall_insert; [apply H|done].
  - unfold occupied; simpl. rewrite Ht. apply Forall_lookup. intros j r' Hj.
    apply list_lookup_insert_Some in Hj as [(_ & <- & _)|[Hj1 Hj2]]; [done|].
    pose proof (led_occupied b H) as Ho. rewrite Forall_lookup in Ho. by eapply Ho, Hin.
  - unfold occupied; simpl. rewrite Ht. change (map actionId_) with (fmap (M := list) actionId_).
    rewrite list_fmap_insert. apply NoDup_alt. intros j k y Hj Hk.
    apply list_lookup_insert_Some in Hj as [(<- & <- & _)|[Hj1 Hj2]];
      apply list_lookup_insert_Some in Hk as [(<- & Hy & _)|[Hk1 Hk2]]; [done| | |].
    + apply list_lookup_fmap_Some in Hk2 as (r' & Hy & Hk2). symmetry. eapply Hd; [by apply Hin|done].
    + apply list_lookup_fmap_Some in Hj2 as (r' & Hy' & Hj2). subst. eapply Hd; [by apply Hin|done].
    + apply list_lookup_fmap_Some in Hj2 as (r1 & -> & Hj2), Hk2 as (r2 & Hy & Hk2).
      pose proof (led_distinct b H) as Hnd. rewrite NoDup_alt in Hnd.
      apply (Hnd j k (actionId_ r1)); rewrite list_lookup_fmap_Some; eauto.
  - rewrite drop_insert_lt by lia. pose proof (led_free b H) as Hf.
    destruct Hslot as [[-> ?]|(-> & ? & ?)]; [done|].
    rewrite <- (Nat.add_1_r (count_ b)), <- drop_drop. by apply Forall_drop.
Qed.

(** ** Looking a command up *)

(** The record that binds a command: its identifier, digest and deadline. *)
Definition binds (digest : list Z) (c : BleActionCommand) (r : Record_) : Prop :=
  actionId_ r = actionId c /\ commandDigest_ r = digest /\ expires_ r = expiresAtEpoch c.

Lemma inspectRecords_other rs id d now : Forall (fun r => actionId_ r <> id) rs ->
  inspectRecords rs id d now = Fresh.
Proof.
  induction 1 as [|r rs Hr _ IH]; simpl; [done|]. apply beq_neq in Hr. by rewrite Hr.
Qed.

(** The decision is made on the record of the identifier. *)
Lemma inspectRecords_at rs id d now j r : NoDup (map actionId_ rs) -> rs !! j = Some r -> actionId_ r = id ->
  inspectRecords rs id d now =
  if beq (commandDigest_ r) d
  then if outcome_ r =? kReplayApplied then DuplicateApplied else DuplicateIndeterminate
  else if expires_ r <=? now then Fresh else Conflict.
Proof.
  revert j. induction rs as [|r0 rs IH]; intros j Hnd Hj Hid; [done|]. simpl in Hnd.
  apply NoDup_cons in Hnd as [Hni Hnd]. destruct j as [|j].
  - injection Hj as ->. simpl. apply beq_eq in Hid. by rewrite Hid.
  - simpl in Hj |- *. assert (Hne : actionId_ r0 <> id).
    { intros E. apply Hni. rewrite E, <- Hid. apply list_elem_of_fmap_2, list_elem_of_lookup. eauto. }
    apply beq_neq in Hne. rewrite Hne. by apply (IH j).
Qed.

Lemma no_record_or_at rs id : Forall (fun r => actionId_ r <> id) rs \/
  exists j r, rs !! j = Some r /\ actionId_ r = id.
Proof.
  induction rs as [|r rs [IH|(j & r' & Hj & Hid)]]; [by left| |right; by exists (S j), r'].
  destruct (decide (actionId_ r = id)); [right; by exists 0%nat, r|left; by constructor].
Qed.

(** A command the ledger holds is a duplicate of itself. *)
Lemma held_not_fresh b d c now : LedgerOk b -> Exists (binds d c) (occupied b) ->
  inspectRecords (occupied b) (actionId c) d now <> Fresh.
Proof.
  intros H (r & (j & Hj)%list_elem_of_lookup & Hid & Hd & _)%Exists_exists.
  rewrite (inspectRecords_at _ _ _ _ j r) by (done || apply H). apply beq_eq in Hd. rewrite Hd.
  by destruct (_ =? _).
Qed.

(** ** Choosing a slot *)

Lemma slotLoop_range i slot rs id now : let k := slotLoop i slot rs id now in
  k = slot \/ exists j r, rs !! j = Some r /\ expires_ r <= now /\ k = (i + j)%nat.
Proof.
  revert i slot. induction rs as [|r rs IH]; intros i slot; simpl; [by left|].
  assert (Hhere : expires_ r <= now -> exists j r', (r :: rs) !! j = Some r' /\ expires_ r' <= now /\ i = (i + j)%nat).
  { intros. exists 0%nat, r. split_and!; [done..|lia]. }
  assert (Hnext : forall slot', slotLoop (S i) slot' rs id now = slot' \/
    exists j r', (r :: rs) !! j = Some r' /\ expires_ r' <= now /\ slotLoop (S i) slot' rs id now = (i + j)%nat).
  { intros slot'. destruct (IH (S i) slot') as [?|(j & r' & ? & ? & ?)]; [by left|].
    right. exists (S j), r'. split_and!; [done..|lia]. }
  destruct (Z.leb_spec (expires_ r) now); [|apply Hnext].
  destruct (beq (actionId_ r) id); [by right; apply Hhere|].
  destruct (slot =? kBleActionReplayCapacity)%nat; [|apply Hnext].
  destruct (Hnext i) as [->|?]; right; [by apply Hhere|done].
Qed.

(** An expired record of the identifier is the one that is reused. *)
Lemma slotLoop_own i slot rs id now j r : NoDup (map actionId_ rs) -> rs !! j = Some r ->
  actionId_ r = id -> expires_ r <= now -> slotLoop i slot rs id now = (i + j)%nat.
Proof.
  revert i slot j. induction rs as [|r0 rs IH]; intros i slot j Hnd Hj Hid He; [done|]. simpl in Hnd.
  apply NoDup_cons in Hnd as [Hni Hnd]. destruct j as [|j]; simpl in Hj |- *.
  - injection Hj as ->. apply Z.leb_le in He. apply beq_eq in Hid. rewrite He, Hid. lia.
  - assert (Hne : beq (actionId_ r0) id = false).
    { apply beq_neq. intros E. apply Hni. rewrite E, <- Hid.
      apply list_elem_of_fmap_2, list_elem_of_lookup. eauto. }
    rewrite Hne. destruct (expires_ r0 <=? now); rewrite (IH _ _ j) by done; lia.
Qed.

(** ** The reservation of a fresh command *)

Definition reserved (c : BleActionCommand) (digest : list Z) : Record_ :=
  mkRecord (actionId c) digest (expiresAtEpoch c) kReplayPending.

Section Reserve.
Variables (b : Blob) (c : BleActionCommand) (d : list Z) (now : Z).
Hypothesis Hled : LedgerOk b.
Hypothesis Hfresh : inspectRecords (occupied b) (actionId c) d now = Fresh.
Hypothesis Hrec : RecordOk (reserved c d).
Hypothesis Hvalid : occupiedRecordValid (reserved c d) = true.

Let found := slotLoop 0 kBleActionReplayCapacity (occupied b) (actionId c) now.

(** Every other occupied record keeps the identifier to itself. *)
Lemma slot_unique j r : occupied b !! j = Some r -> actionId_ r = actionId c -> j = found.
Proof.
  intros Hj Hid. pose proof (led_distinct b Hled) as Hnd. unfold found.
  rewrite (inspectRecords_at _ _ _ _ j r) in Hfresh by done.
  destruct (beq (commandDigest_ r) d); [by destruct (_ =? _)|].
  destruct (Z.leb_spec (expires_ r) now); [|done].
  by rewrite (slotLoop_own _ _ _ _ _ j r).
Qed.

Lemma found_full : found = kBleActionReplayCapacity \/
  exists r, occupied b !! found = Some r /\ expires_ r <= now.
Proof.
  destruct (slotLoop_range 0 kBleActionReplayCapacity (occupied b) (actionId c) now) as [E|(j & r & Hj & He & E)].
  - left. exact E.
  - right. exists r. unfold found. rewrite E. auto.
Qed.

Lemma occupied_short j r : occupied b !! j = Some r -> (j < count_ b)%nat /\ (j < kBleActionReplayCapacity)%nat.
Proof. intros [_ Hj]%occupied_lookup. pose proof (led_count b Hled). lia. Qed.

Definition reserveSlot : nat := if (found =? kBleActionReplayCapacity)%nat then count_ b else found.
Definition reserveCount : nat :=
  if (found =? kBleActionReplayCapacity)%nat then S (count_ b) else count_ b.

Hypothesis Hroom : found = kBleActionReplayCapacity -> (count_ b < kBleActionReplayCapacity)%nat.

Definition reserve : Blob := seal (set_record reserveSlot (reserved c d) (set_count reserveCount b)).

Lemma reserve_ok : LedgerOk reserve.
Proof.
  unfold reserve, reserveSlot, reserveCount. destruct (Nat.eqb_spec found kBleActionReplayCapacity) as [E|E].
  - apply set_record_ok; [done..|right; auto|]. intros j r Hj Hid. simpl in Hid.
    pose proof (slot_unique j r Hj Hid). apply occupied_short in Hj. lia.
  - destruct found_full as [?|(r & Hr & He)]; [done|].
    apply set_record_ok; [done..|left; split; [done|apply (occupied_short _ _ Hr)]|]. intros j r' Hj Hid.
    by apply (slot_unique j r').
Qed.

Lemma reserve_binds : Exists (binds d c) (occupied reserve).
Proof.
  apply Exists_exists. exists (reserved c d). split; [|done]. apply list_elem_of_lookup. exists reserveSlot.
  apply occupied_lookup. unfold reserve; simpl. pose proof (led_length b Hled) as Hl.
  unfold reserveSlot, reserveCount. destruct (Nat.eqb_spec found kBleActionReplayCapacity) as [E|E].
  - specialize (Hroom E). split; [|lia]. apply list_lookup_insert_eq. lia.
  - destruct found_full as [?|(r & Hr & He)]; [done|]. apply occupied_short in Hr. split; [|lia].
    apply list_lookup_insert_eq. lia.
Qed.

(** No record is given up before its deadline. *)
Lemma reserve_keeps r : r ∈ occupied b -> now < expires_ r -> r ∈ occupied reserve.
Proof.
  intros (j & Hj)%list_elem_of_lookup He. apply list_elem_of_lookup. exists j.
  assert (Hne : j <> reserveSlot).
  { unfold reserveSlot. destruct (Nat.eqb_spec found kBleActionReplayCapacity) as [E|E].
    - apply occupied_short in Hj. lia.
    - destruct found_full as [?|(r' & Hr & He')]; [done|]. intros ->. rewrite Hj in Hr.
      injection Hr as ->. lia. }
  apply occupied_lookup in Hj as [Hj Hlt]. apply occupied_lookup. unfold reserve; simpl.
  rewrite list_lookup_insert_ne by done. split; [done|]. unfold reserveCount. destruct (_ =? _)%nat; lia.
Qed.
End Reserve.

(** ** Marking a record as applied *)

Lemma findRecord_spec i rs id j r : findRecord i rs id = Some (j, r) ->
  exists k, j = (i + k)%nat /\ rs !! k = Some r /\ actionId_ r = id.
Proof.
  revert i. induction rs as [|r0 rs IH]; intros i; simpl; [done|].
  destruct (beq (actionId_ r0) id) eqn:E.
  - intros [= <- <-]. apply beq_eq in E. exists 0%nat. split_and!; [lia|done..].
  - intros (k & -> & Hk & Hid)%IH. exists (S k). split_and!; [lia|done..].
Qed.

Definition marked (i : nat) (r : Record_) (b : Blob) : Blob :=
  seal (set_record i (set_outcome kReplayApplied r) b).

Lemma marked_ok b i r : LedgerOk b -> occupied b !! i = Some r -> LedgerOk (marked i r b).
Proof.
  intros H Hi. assert (Hr : RecordOk r /\ occupiedRecordValid r = true).
  { split; [|by eapply (Forall_lookup_1 _ _ _ _ (led_occupied b H))].
    apply occupied_lookup in Hi as [Hi _]. by eapply (Forall_lookup_1 _ _ _ _ (led_records b H)). }
  destruct Hr as [[] Hv]. change (marked i r b) with
    (seal (set_record i (set_outcome kReplayApplied r) (set_count (count_ b) b))).
  apply set_record_ok; [done|by split| |left; split; [done|by apply occupied_lookup in Hi as [_ ?]]|].
  - unfold occupiedRecordValid in *. simpl. rewrite !andb_true_iff in Hv. by destruct Hv as [[_ ->] ->].
  - intros j r' Hj Hid. pose proof (led_distinct b H) as Hnd. rewrite NoDup_alt in Hnd. simpl in Hid.
    apply (Hnd j i (actionId_ r')); rewrite list_lookup_fmap_Some; eauto.
Qed.

Lemma marked_keeps b i r d c : LedgerOk b -> occupied b !! i = Some r ->
  Exists (binds d c) (occupied b) -> Exists (binds d c) (occupied (marked i r b)).
Proof.
  intros H Hi (r' & (j & Hj)%list_elem_of_lookup & Hb)%Exists_exists. apply Exists_exists.
  apply occupied_lookup in Hi as [Hi _], Hj as [Hj Hlt]. destruct (decide (j = i)) as [->|Hne].
  - rewrite Hi in Hj. injection Hj as <-. exists (set_outcome kReplayApplied r). split; [|exact Hb].
    apply list_elem_of_lookup. exists i. apply occupied_lookup. split; [|done].
    apply list_lookup_insert_eq. by eapply lookup_lt_Some.
  - exists r'. split; [|done]. apply list_elem_of_lookup. exists j. apply occupied_lookup. split; [|done].
    simpl. by rewrite list_lookup_insert_ne.
Qed.

(** ** The operations *)

(** SHA-256 is a function; an answer of the hardware is its value. *)
Class ActionSha256Laws (W : Type) `{ActionSha256 W} := {
  shaOf : list (list Z) -> list Z;
  shaOf_length ps : length (shaOf ps) = kBleActionCommandDigestBytes;
  shaOf_bytes ps : bytesOk (shaOf ps);
  sha_result ps w d w' : actionSha256 ps w = (Some d, w') -> d = shaOf ps;
}.

(** The digest that binds a command. *)
Definition commandKey `{ActionSha256Laws W} (c : BleActionCommand) : list Z := shaOf (commandParts c).

(** The identifier of a command is the 16 bytes the decoder read. *)
Definition idOk (c : BleActionCommand) : Prop :=
  length (actionId c) = kBleActionUuidBytes /\ bytesOk (actionId c).

Lemma replay_expiry c : validReplayCommand c = true ->
  kBleActionMinimumTrustedEpoch <= expiresAtEpoch c <= kBleActionMaximumTrustedEpoch.
Proof.
  unfold validReplayCommand.
  match goal with |- context [if ?g then false else _] => destruct g eqn:E; [done|] end. intros _.
  rewrite !orb_false_iff in E. destruct E as [[_ E1] E2]. lia.
Qed.

Section Operations.
Context {W : Type} `{HL : ActionSha256Laws W}.
(** What the computation of a digest leaves alone. *)
Context {V : Type} (view : W -> V).
Hypothesis sha_view : forall ps w, view (snd (actionSha256 ps w)) = view w.

(** The hardware failed to hash the command. *)
Definition digestFailed (c : BleActionCommand) : Prop := exists w, fst (actionSha256 (commandParts c) w) = None.

Lemma digestOf_wp c Q b w :
  (forall r w', view w' = view w ->
     (forall d, r = Some d -> validReplayCommand c = true /\ d = commandKey c) ->
     (r = None -> validReplayCommand c = true -> digestFailed c) -> Q r (b, w')) ->
  wp (digestOf c) Q (b, w).
Proof.
  intros HQ. unfold wp, digestOf, commandDigest. simpl. destruct (validReplayCommand c) eqn:Hv; simpl.
  - destruct (actionSha256 (commandParts c) w) as [r w1] eqn:E. apply (HQ r w1).
    + by rewrite <- (sha_view (commandParts c) w), E.
    + intros d ->. by apply sha_result in E.
    + intros -> _. exists w. by rewrite E.
  - by apply (HQ None w).
Qed.

(** The decision reads the ledger and the clock only. *)
Definition admissible (c : BleActionCommand) (now : Z) : Prop :=
  validReplayCommand c = true /\ now < expiresAtEpoch c <= now + kBleActionMaximumExpirySeconds.

Definition decidedBy (b : Blob) (c : BleActionCommand) (now : Z) (r : BleActionReplayDecision) : Prop :=
  r = Fresh \/ r = DuplicateApplied \/ r = DuplicateIndeterminate ->
  admissible c now /\ r = inspectRecords (occupied b) (actionId c) (commandKey c) now.

Lemma inspect_wp c now Q b w :
  (forall r w', view w' = view w -> decidedBy b c now r -> Q r (b, w')) ->
  wp (inspect c now) Q (b, w).
Proof.
  intros HQ. unfold inspect. apply wp_bind, digestOf_wp. intros [d|] w' Hw Hd _.
  2: { apply wp_ret, HQ; [done|]. intros [?|[?|?]]; done. }
  destruct (Hd d eq_refl) as [Hv ->].
  assert (Hno : forall r, r <> Fresh -> r <> DuplicateApplied -> r <> DuplicateIndeterminate -> Q r (b, w')).
  { intros. apply HQ; [done|]. by intros [?|[?|?]]. }
  repeat wp_step; try by apply Hno. apply HQ; [done|]. intros _. unfold admissible.
  rewrite Z.leb_gt in E0. rewrite Z.ltb_ge in E1. split; [|done]. split; [done|lia].
Qed.

Lemma reserved_ok c d : idOk c -> validReplayCommand c = true -> d = commandKey c ->
  RecordOk (reserved c d) /\ occupiedRecordValid (reserved c d) = true.
Proof.
  intros [H1 H2] Hv%replay_expiry ->.
  assert (Hm : kBleActionMinimumTrustedEpoch = 1704067200 /\ kBleActionMaximumTrustedEpoch = 4102444800) by done.
  split.
  - split; simpl; [done|done|apply shaOf_length|apply shaOf_bytes|lia|unfold isByte, kReplayPending; lia].
  - unfold occupiedRecordValid. simpl. lia.
Qed.

(** What an accepted reservation leaves: a well-formed ledger that binds the
    command and has kept every record whose deadline is not over. *)
Record Reserved (b : Blob) (c : BleActionCommand) (now : Z) (b' : Blob) : Prop := {
  res_ok : LedgerOk b';
  res_binds : Exists (binds (commandKey c) c) (occupied b');
  res_keeps r : r ∈ occupied b -> now < expires_ r -> r ∈ occupied b';
}.

Lemma remember_wp c now Q b w : LedgerOk b -> idOk c ->
  (forall w', view w' = view w -> decidedBy b c now DuplicateApplied \/ decidedBy b c now DuplicateIndeterminate ->
     Q true (b, w')) ->
  (forall b' w', view w' = view w -> b' = b \/ digestFailed c -> Q false (b', w')) ->
  (forall b' w', view w' = view w -> decidedBy b c now Fresh -> Reserved b c now b' -> Q true (b', w')) ->
  wp (remember c now) Q (b, w).
Proof.
  intros Hb Hid Hdup Hfail Hok. unfold remember. apply wp_bind, inspect_wp. intros r w1 Hw1 Hr.
  apply wp_if; intros E1.
  { apply wp_ret, Hdup; [done|]. apply orb_true_iff in E1 as [->%bool_decide_eq_true| ->%bool_decide_eq_true]; auto. }
  apply wp_if; intros E2; [apply wp_ret, Hfail; auto|].
  apply negb_false_iff, bool_decide_eq_true in E2 as ->.
  assert (Hd := Hr). destruct (Hd (or_introl eq_refl)) as [[Hv Ht] Hf]. clear Hd.
  destruct (reserved_ok c (commandKey c) Hid Hv eq_refl) as [Hrec Hval].
  apply wp_bind, wp_gets. simpl fst. change (take (count_ b) (records_ b)) with (occupied b).
  apply wp_if; intros E3; [apply wp_ret, Hfail; auto|].
  set (found := slotLoop 0 kBleActionReplayCapacity (occupied b) (actionId c) now) in *.
  assert (Hroom : found = kBleActionReplayCapacity -> (count_ b < kBleActionReplayCapacity)%nat).
  { intros E. rewrite E, Nat.eqb_refl in E3. rewrite andb_true_l in E3. by apply Nat.leb_gt in E3. }
  assert (Hwhen : forall Q', Q' tt (set_count (reserveCount b c now) b, w1) ->
    wp (when (found =? kBleActionReplayCapacity)%nat (updBlob (set_count (S (count_ b))))) Q' (b, w1)).
  { unfold reserveCount, when. fold found. destruct (_ =? _)%nat; intros Q' HQ'; [exact HQ'|].
    apply wp_ret. by destruct b. }
  apply wp_bind, Hwhen, wp_bind, digestOf_wp. intros [d|] w2 Hw2 Hd Hn;
    [|apply wp_ret, Hfail; [congruence|right; by apply Hn]].
  destruct (Hd d eq_refl) as [_ ->].
  apply wp_bind, wp_modify, wp_bind, wp_modify, wp_ret. apply Hok; [simpl; congruence|done|].
  split.
  - by apply (reserve_ok b c _ now).
  - by apply (reserve_binds b c _ now).
  - by apply (reserve_keeps b c _ now).
Qed.

Lemma markApplied_wp c Q b w : LedgerOk b ->
  (forall w', view w' = view w -> Q false (b, w')) ->
  (forall b' w', view w' = view w -> LedgerOk b' ->
     (forall d' c', Exists (binds d' c') (occupied b) -> Exists (binds d' c') (occupied b')) -> Q true (b', w')) ->
  wp (markApplied c) Q (b, w).
Proof.
  intros Hb Hfail Hok. unfold markApplied. apply wp_bind, digestOf_wp. intros [d|] w1 Hw1 Hd _;
    [|by apply wp_ret, Hfail].
  apply wp_bind, wp_gets. simpl fst. change (take (count_ b) (records_ b)) with (occupied b).
  destruct (findRecord 0 (occupied b) (actionId c)) as [[i r]|] eqn:E; [|by apply wp_ret, Hfail].
  apply findRecord_spec in E as (k & -> & Hk & _).
  apply wp_if; intros E2; [by apply wp_ret, Hfail|].
  apply wp_bind, wp_modify, wp_bind, wp_modify, wp_ret. apply (Hok (marked k r b)); [done|by apply marked_ok|].
  intros d' c' Hx. by apply marked_keeps.
Qed.
End Operations.

(** ** Runs of the ledger *)

Inductive LedgerOp :=
| Remember (c : BleActionCommand) (now : Z)
| MarkApplied (c : BleActionCommand)
| Inspect (c : BleActionCommand) (now : Z)
| Reload
| Load (l : list Z)
| Reset.

Section Runs.
Context {W : Type} `{HL : ActionSha256Laws W}.
Hypothesis digest_total : forall ps w, fst (actionSha256 ps w) = Some (shaOf ps).

Definition ledgerStep (op : LedgerOp) : M (Blob * W) unit :=
  match op with
  | Remember c now => remember c now ;;; ret tt
  | MarkApplied c => markApplied c ;;; ret tt
  | Inspect c now => inspect c now ;;; ret tt
  | Reload => modify (fun s => (snd (load (Some (serialized (fst s)))), snd s))
  | Load l => modify (fun s => (snd (load (Some l)), snd s))
  | Reset => modify (fun s => (reset, snd s))
  end.

Fixpoint ledgerRun (ops : list LedgerOp) : M (Blob * W) unit :=
  match ops with [] => ret tt | op :: ops' => ledgerStep op ;;; ledgerRun ops' end.

(** The commands come from the decoder, loaded blobs are bytes. *)
Definition opOk (op : LedgerOp) : Prop :=
  match op with
  | Remember c _ => idOk c
  | Load l => bytesOk l
  | _ => True
  end.

Lemma no_failure c : digestFailed c -> False.
Proof. intros [w Hw]. by rewrite digest_total in Hw. Qed.

(** Every operation keeps the ledger well-formed; those that do not replace it keep
    the records whose deadline is not over. *)
Lemma ledgerStep_wp op b w : LedgerOk b -> opOk op ->
  wp (ledgerStep op) (fun _ s => LedgerOk (fst s)) (b, w).
Proof.
  intros Hb Hop. destruct op as [c now|c|c now| |l|]; cbn [ledgerStep].
  - apply wp_bind, (remember_wp (fun _ => tt)); try done.
    + intros b' w' _ [->|[]%no_failure]. done.
    + intros b' w' _ _ HR. apply HR.
  - apply wp_bind, (markApplied_wp (fun _ => tt)); done.
  - apply wp_bind, (inspect_wp (fun _ => tt)); done.
  - apply wp_modify. cbn [fst snd]. by rewrite load_serialized.
  - apply wp_modify. apply load_ok. by intros ? [= <-].
  - apply wp_modify, reset_ok.
Qed.

Lemma ledgerRun_ok ops b w : LedgerOk b -> Forall opOk ops ->
  wp (ledgerRun ops) (fun _ s => LedgerOk (fst s)) (b, w).
Proof.
  intros Hb Hops. revert b w Hb. induction Hops as [|op ops Hop _ IH]; intros b w Hb; [exact Hb|].
  simpl. apply wp_bind. eapply wp_mono; [by apply ledgerStep_wp|]. intros _ [b' w']. apply IH.
Qed.


(** The operations a device performs on the ledger between two requests, none later
    than [now]. *)
Definition keepsBefore (now : Z) (op : LedgerOp) : Prop :=
  match op with
  | Remember c t => idOk c /\ t <= now
  | MarkApplied _ | Inspect _ _ | Reload => True
  | Load _ | Reset => False
  end.

Definition Protects (c : BleActionCommand) (now : Z) (b : Blob) : Prop :=
  LedgerOk b /\ (now < expiresAtEpoch c -> Exists (binds (commandKey c) c) (occupied b)).

Lemma keeps_binds b b' now t c : (forall r, r ∈ occupied b -> t < expires_ r -> r ∈ occupied b') -> t <= now ->
  now < expiresAtEpoch c -> Exists (binds (commandKey c) c) (occupied b) ->
  Exists (binds (commandKey c) c) (occupied b').
Proof.
  intros Hk Ht He (r & Hr & Hb)%Exists_exists. apply Exists_exists. exists r. split; [|done].
  apply Hk; [done|]. destruct Hb as (_ & _ & ->). lia.
Qed.

Lemma keepsBefore_wp now op c b w : Protects c now b -> keepsBefore now op ->
  wp (ledgerStep op) (fun _ s => Protects c now (fst s)) (b, w).
Proof.
  intros [Hb Hc] Hop. destruct op as [c' t|c'|c' t| | |]; cbn [ledgerStep keepsBefore] in *; try done.
  - apply wp_bind, (remember_wp (fun _ => tt)); [done|done|apply Hop|done| |].
    + by intros b' w' _ [->|[]%no_failure].
    + intros b' w' _ _ [HR1 _ HR3]. split; [done|]. intros He. eapply keeps_binds; [done|apply Hop|done|auto].
  - apply wp_bind, (markApplied_wp (fun _ => tt)); try done.
    intros b' w' _ Hb' Hk. split; [done|]. auto.
  - apply wp_bind, (inspect_wp (fun _ => tt)); done.
  - apply wp_modify. cbn [fst snd]. by rewrite load_serialized.
Qed.

Lemma keepsBefore_run now ops c b w : Protects c now b -> Forall (keepsBefore now) ops ->
  wp (ledgerRun ops) (fun _ s => Protects c now (fst s)) (b, w).
Proof.
  intros Hp Hops. revert b w Hp. induction Hops as [|op ops Hop _ IH]; intros b w Hp; [exact Hp|].
  simpl. apply wp_bind. eapply wp_mono; [by apply keepsBefore_wp|]. intros _ [b' w']. apply IH.
Qed.

(** A command the ledger has reserved is never fresh again: whatever is
    remembered, marked or inspected afterwards and however often the ledger goes to
    flash and back, a later inspection finds the command a duplicate, or past its
    deadline.  No record is evicted to make room before its deadline. *)
Theorem reserved_never_fresh c t now ops b w b1 w1 : LedgerOk b -> idOk c ->
  fst (inspect c t (b, w)) = Fresh -> remember c t (b, w) = (true, (b1, w1)) ->
  t <= now -> Forall (keepsBefore now) ops ->
  wp (ledgerRun ops ;;; inspect c now) (fun r _ => r <> Fresh) (b1, w1).
Proof.
  intros Hb Hid Hi Hrem Ht Hops.
  assert (Hf : inspectRecords (occupied b) (actionId c) (commandKey c) t = Fresh).
  { assert (Hwp : wp (inspect c t) (fun r _ => decidedBy b c t r) (b, w)) by (by apply (inspect_wp (fun _ => tt))).
    unfold wp in Hwp. rewrite Hi in Hwp. by destruct (Hwp (or_introl eq_refl)) as [_ <-]. }
  assert (HP : Protects c now b1).
  { assert (Hw : wp (remember c t) (fun r s => r = true -> Protects c now (fst s)) (b, w)).
    - apply (remember_wp (fun _ => tt)); try done.
      + intros w' _ [Hd|Hd]; [destruct (Hd (or_intror (or_introl eq_refl))) as [_ E]
          |destruct (Hd (or_intror (or_intror eq_refl))) as [_ E]]; by rewrite Hf in E.
      + intros b' w' _ _ [HR1 HR2 _] _. by split.
    - unfold wp in Hw. rewrite Hrem in Hw. by apply Hw. }
  apply wp_bind. eapply wp_mono; [by apply keepsBefore_run|]. intros _ [b2 w2] [Hb2 Hc2]. simpl in Hb2, Hc2.
  apply (inspect_wp (fun _ => tt)); [done|]. intros r w3 _ Hd ->.
  destruct (Hd (or_introl eq_refl)) as [[_ He] Hd']. symmetry in Hd'. revert Hd'.
  apply held_not_fresh; [done|]. apply Hc2. lia.
Qed.
End Runs.

(** ** A device that computes its digests *)

#[export] Instance SimSha : ActionSha256 unit := {|
  actionSha256 ps := fun w => (Some (sha256 (concat ps)), w);
|}.

#[export] Program Instance SimShaLaws : ActionSha256Laws unit := {| shaOf ps := sha256 (concat ps) |}.
Next Obligation. intros. apply sha256_length. Qed.
Next Obligation. intros. apply sha256_ok. Qed.
Next Obligation. intros ps w d w' [= <- _]. done. Qed.

Lemma sim_total ps w : fst (actionSha256 ps w) = Some (shaOf ps).
Proof. reflexivity. Qed.

Example example_fresh :
  fst (inspect exampleCommand 1704067250 (reset, tt)) = Fresh.
Proof. vm_compute. reflexivity. Qed.

Lemma example_id : idOk exampleCommand.
Proof. split; [reflexivity|]. apply allByte_literal. reflexivity. Qed.


Definition exampleReserved : Blob := fst (snd (remember exampleCommand 1704067250 (reset, tt))).

Lemma example_reserved :
  remember exampleCommand 1704067250 (reset, tt) = (true, (exampleReserved, tt)).
Proof. vm_compute. reflexivity. Qed.

Lemma reserved_never_fresh_witness :
  fst (remember exampleCommand 1704067250 (reset, tt)) = true /\
  wp (ledgerRun [Reload; MarkApplied exampleCommand] ;;; inspect exampleCommand 1704067260)
    (fun r _ => r <> Fresh) (exampleReserved, tt).
Proof.
  split; [by rewrite example_reserved|].
  assert (Ht : 1704067250 <= 1704067260) by lia.
  assert (Hops : Forall (keepsBefore 1704067260) [Reload; MarkApplied exampleCommand])
    by (rewrite !Forall_cons; split_and!; done).
  exact (reserved_never_fresh sim_total exampleCommand 1704067250 1704067260
    [Reload; MarkApplied exampleCommand] reset tt exampleReserved tt reset_ok example_id example_fresh
    example_reserved Ht Hops).
Defined.
