(* ===== verification/ActionRuntime.v ===== *)
(** * Applying a BLE action (src/src/main.cpp, namespace companion_api)

    The handler of [action.apply] and the storage of its replay ledger: decode,
    look up, reserve durably, perform, mark as applied.  What it calls in the rest
    of the program is the class [ActionHost]: the NVS key "ble_act_v3", the clock of
    the mesh, the readiness flags and the actions themselves. *)

From S2P Require Import Prelude CompanionText Permissions BleAction ActionReplay.

Open Scope kitsu_scope.

(** [enum class TransportStatus] (kitsu_mesh_transport.h). *)
Inductive TransportStatus := TsOk | TsDisabled | TsNoProfile | TsInvalidSettings | TsInvalidIdentity
  | TsIdentityStorageFailed | TsRadioInitFailed | TsTimeUnset | TsInvalidTime | TsLocationUnavailable
  | TsTxLocked | TsPacketPoolFull | TsOutputTooSmall | TsInvalidArgument | TsContactNotFound
  | TsContactNotClient | TsContactTableFull | TsChannelNotFound | TsTextTooLong | TsSendBusy
  | TsMessagingStorageFailed | TsAdvertiseCooldown.

#[export] Instance TransportStatus_eq_dec : EqDecision TransportStatus.
Proof. solve_decision. Defined.

Definition transportStatusName (status : TransportStatus) : string :=
  match status with
  | TsOk => "ok"
  | TsDisabled => "disabled"
  | TsNoProfile => "no_profile"
  | TsInvalidSettings => "invalid_settings"
  | TsInvalidIdentity => "invalid_identity"
  | TsIdentityStorageFailed => "identity_storage_failed"
  | TsRadioInitFailed => "radio_init_failed"
  | TsTimeUnset => "time_unset"
  | TsInvalidTime => "invalid_time"
  | TsLocationUnavailable => "location_unavailable"
  | TsTxLocked => "tx_locked"
  | TsPacketPoolFull => "packet_pool_full"
  | TsOutputTooSmall => "output_too_small"
  | TsInvalidArgument => "invalid_argument"
  | TsContactNotFound => "contact_not_found"
  | TsContactNotClient => "contact_not_client"
  | TsContactTableFull => "contact_table_full"
  | TsChannelNotFound => "channel_not_found"
  | TsTextTooLong => "text_too_long"
  | TsSendBusy => "send_busy"
  | TsMessagingStorageFailed => "messaging_storage_failed"
  | TsAdvertiseCooldown => "advertise_cooldown"
  end.

Definition bleMeshErrorName (status : TransportStatus) : string :=
  match status with
  | TsDisabled => "mesh_disabled"
  | TsIdentityStorageFailed => "mesh_identity_unavailable"
  | TsRadioInitFailed => "mesh_radio_unavailable"
  | TsTimeUnset => "time_unset"
  | TsTxLocked => "tx_policy_locked"
  | TsPacketPoolFull => "queue_full"
  | TsContactNotFound => "unknown_contact"
  | TsContactNotClient => "contact_not_client"
  | TsContactTableFull => "contact_full"
  | TsChannelNotFound => "unknown_channel"
  | TsTextTooLong => "text_too_long"
  | TsSendBusy => "send_busy"
  | TsMessagingStorageFailed => "storage_failed"
  | TsInvalidArgument => "invalid_argument"
  | status => transportStatusName status
  end.

(** The globals and functions of main.cpp and the mesh client the handler uses. *)
Class ActionHost (W : Type) := {
  storageReady : M W bool;
  storedLength : M W nat;
  getStored : nat -> M W (list Z);
  putStored : list Z -> M W nat;
  packValid : M W bool;
  gameActive : M W bool;
  radioReady : M W bool;
  timeValid : M W bool;
  currentEpoch : M W Z;
  identityReady : M W bool;
  meshEnabled : M W bool;
  meshActive : M W bool;
  advertiseReadiness : M W TransportStatus;
  petWisp : M W bool;
  feedKitsu : M W bool;
  playKitsu : M W bool;
  startListening : Z -> M W bool;
  introduceOnce : bool -> M W TransportStatus;
  advertQueued : M W unit;
  ensureObservedContact : list Z -> M W TransportStatus;
  sendDirectTextOnce : list Z -> list Z -> M W TransportStatus;
  sendChannelTextOnce : Z -> list Z -> M W TransportStatus;
  journalDirect : list Z -> list Z -> M W unit;
  journalChannel : Z -> list Z -> M W unit;
}.

(** [bleActionReplayCache], [bleActionReplayScratch], [bleActionReplayReady]. *)
Record Globals := mkGlobals {
  cache : Blob;
  scratch : list Z;
  ready : bool;
}.
Definition set_cache (b : Blob) (g : Globals) : Globals := mkGlobals b (scratch g) (ready g).
Definition set_scratch (l : list Z) (g : Globals) : Globals := mkGlobals (cache g) l (ready g).
Definition set_ready (r : bool) (g : Globals) : Globals := mkGlobals (cache g) (scratch g) r.

Definition zeroScratch : list Z := replicate kBlobBytes 0.
(** The globals at power-on. *)
Definition globals0 : Globals := mkGlobals reset zeroScratch false.

Section Runtime.
Context {W : Type} `{ActionSha256 W} `{ActionHost W}.

Definition R : Type -> Type := M (Globals * W).

Definition global : R Globals := gets fst.
Definition updGlobal (f : Globals -> Globals) : R unit := modify (fun s => (f (fst s), snd s)).
Definition host {A} (m : M W A) : R A := fun s => let '(a, w) := m (snd s) in (a, (fst s, w)).
(** An operation of the ledger. *)
Definition ledger {A} (m : M (Blob * W) A) : R A :=
  fun s => let '(a, (b, w)) := m (cache (fst s), snd s) in (a, (set_cache b (fst s), w)).

Definition loadActionReplay : R unit :=
  updGlobal (set_ready false) ;;;
  updGlobal (set_cache reset) ;;;
  ok <- host storageReady ;;
  if negb ok then ret tt
  else
    storedBytes <- host storedLength ;;
    if (storedBytes =? 0)%nat then updGlobal (set_ready true)
    else if negb (storedBytes =? kBlobBytes)%nat then ret tt
    else
      read <- host (getStored kBlobBytes) ;;
      if negb (length read =? kBlobBytes)%nat then updGlobal (set_scratch zeroScratch)
      else
        let '(loaded, b) := load (Some read) in
        updGlobal (set_cache b) ;;;
        updGlobal (set_scratch zeroScratch) ;;;
        when loaded (updGlobal (set_ready true)).

Definition persistActionReplay : R bool :=
  ok <- host storageReady ;;
  g <- global ;;
  if negb ok || negb (ready g) then ret false
  else
    written <- host (putStored (serialized (cache g))) ;;
    ret (negb (length (serialized (cache g)) =? 0)%nat && (written =? length (serialized (cache g)))%nat).

Definition snapshotActionReplay : R bool :=
  g <- global ;;
  if negb (length (serialized (cache g)) =? kBlobBytes)%nat then ret false
  else updGlobal (set_scratch (serialized (cache g))) ;;; ret true.

Definition restoreActionReplaySnapshotInMemory : R bool :=
  g <- global ;;
  let '(loaded, b) := load (Some (scratch g)) in
  updGlobal (set_cache b) ;;;
  updGlobal (set_scratch zeroScratch) ;;;
  ret loaded.

Definition restoreActionReplaySnapshot : R bool :=
  loaded <- restoreActionReplaySnapshotInMemory ;;
  if loaded then persistActionReplay else ret false.

Definition bleAdvertiseReadinessError : R (option string) :=
  g <- global ;;
  if negb (ready g) then ret (Some "idempotency_unavailable"%string)
  else
    pack <- host packValid ;;
    if negb pack then ret (Some "companion_unavailable"%string)
    else
      identity <- host identityReady ;;
      if negb identity then ret (Some "mesh_identity_unavailable"%string)
      else
        enabled <- host meshEnabled ;;
        if negb enabled then ret (Some "mesh_disabled"%string)
        else
          active <- host meshActive ;;
          if negb active then ret (Some "mesh_radio_unavailable"%string)
          else
            status <- host advertiseReadiness ;;
            ret (if bool_decide (status = TsOk) then None else Some (bleMeshErrorName status)).

Definition decodeCanonicalPeerKey (command : BleActionCommand) : option (list Z) :=
  output ← decodeBase64Url (messageTarget command) 32;
  if negb (length output =? 32)%nat then None
  else
    canonical ← encodeBase64Url output 44;
    if beq canonical (messageTarget command) then Some output else None.

(** The status, and whether an entry was journalled. *)
Definition queueBleMessage (command : BleActionCommand) : R (TransportStatus * bool) :=
  if messageRoute command =? RouteDirect then
    match decodeCanonicalPeerKey command with
    | None => ret (TsInvalidArgument, false)
    | Some publicKey =>
        status <- host (ensureObservedContact publicKey) ;;
        if negb (bool_decide (status = TsOk)) then ret (status, false)
        else
          status <- host (sendDirectTextOnce publicKey (messageText command)) ;;
          if negb (bool_decide (status = TsOk)) then ret (status, false)
          else host (journalDirect publicKey (messageText command)) ;;; ret (TsOk, true)
    end
  else if negb (messageRoute command =? RouteChannel) || negb (messageTargetBytes command =? 1) ||
          (byte_at (messageTarget command) 0 <? 48) || (51 <? byte_at (messageTarget command) 0)
  then ret (TsInvalidArgument, false)
  else
    let slot := u8 (byte_at (messageTarget command) 0 - 48) in
    status <- host (sendChannelTextOnce slot (messageText command)) ;;
    if negb (bool_decide (status = TsOk)) then ret (status, false)
    else host (journalChannel slot (messageText command)) ;;; ret (TsOk, true).

Definition queueBleAdvert (command : BleActionCommand) : R TransportStatus :=
  let flood := advertScope command =? ScopeMesh in
  if negb flood && negb (advertScope command =? ScopeNearby) then ret TsInvalidArgument
  else
    status <- host (introduceOnce flood) ;;
    if negb (bool_decide (status = TsOk)) then ret status
    else host advertQueued ;;; ret TsOk.

(** ** The handler

    [inl] is a response (or none, when it does not fit), [inr] goes on. *)

Definition Response : Type := option (list Z).

Definition rejectAction (command : BleActionCommand) (errorCode : string) (capacity : nat) : Response :=
  encodeBleActionReceipt command false (Some (bytes_of "rejected")) (Some (bytes_of errorCode)) capacity.
Definition acceptAction (command : BleActionCommand) (state : string) (capacity : nat) : Response :=
  encodeBleActionReceipt command true (Some (bytes_of state)) None capacity.
Definition copyResponse (response : list Z) (capacity : nat) : Response :=
  if (length response =? 0)%nat || (capacity <? length response)%nat ||
     (Z.to_nat 12000 <? length response)%nat
  then None else Some response.

Definition careAction (k : BleActionKind) : bool :=
  (k =? Pet) || (k =? Feed) || (k =? Play) || (k =? ListenOnce).
(** What an accepted receipt reports. *)
Definition doneState (command : BleActionCommand) : string :=
  if (kind command =? SendMessage) || (kind command =? AdvertiseOnce) then "queued" else "applied".

(** The decision of the ledger at [actionNow]. *)
Definition decideAction (command : BleActionCommand) (actionNow : Z) (capacity : nat)
  : R (Response + BleActionCommand * Z) :=
  let rejected error := ret (inl (rejectAction command error capacity)) in
  replay <- ledger (inspect command actionNow) ;;
  match replay with
  | TimeUnavailable => rejected "time_unset"%string
  | Expired => rejected "action_expired"%string
  | InvalidExpiry => rejected "invalid_expiry"%string
  | Conflict => rejected "action_id_conflict"%string
  | DuplicateApplied => ret (inl (acceptAction command (doneState command) capacity))
  | DuplicateIndeterminate => rejected "action_result_unknown"%string
  | Fresh => ret (inr (command, actionNow))
  end.

(** Up to the decision of the ledger: the decoded command that is fresh, with the
    time of the decision. *)
Definition screenAction (payload : list Z) (capacity : nat) : R (Response + BleActionCommand * Z) :=
  match decodeBleActionCommand payload with
  | inl (decoded, command) =>
      let error := bleActionDecodeResultName decoded in
      ret (inl (if actionIdValid command then rejectAction command error capacity
                else copyResponse (js "{'ok':false,'error':'" ++ bytes_of error ++ js "'}") capacity))
  | inr command =>
      let rejected error := ret (inl (rejectAction command error capacity)) in
      if negb (bleActionKindAvailable (kind command)) then rejected "action_unavailable"%string
      else
        pack <- (if careAction (kind command) then host packValid else ret true) ;;
        if negb pack then rejected "companion_unavailable"%string
        else
          game <- (if kind command =? ListenOnce then host gameActive else ret false) ;;
          if game then rejected "busy_game"%string
          else
            radio <- (if kind command =? ListenOnce then host radioReady else ret true) ;;
            if negb radio then rejected "radio_unavailable"%string
            else
              g <- global ;;
              if negb (ready g) then rejected "idempotency_unavailable"%string
              else
                known <- host timeValid ;;
                actionNow <- (if known then host currentEpoch else ret 0) ;;
                decideAction command actionNow capacity
  end.

(** The durable reservation. *)
Definition reserveAction (command : BleActionCommand) (actionNow : Z) (capacity : nat)
  : R (Response + BleActionCommand) :=
  let rejected error := ret (inl (rejectAction command error capacity)) in
  readiness <- (if kind command =? AdvertiseOnce then bleAdvertiseReadinessError else ret None) ;;
  match readiness with
  | Some error => rejected error
  | None =>
      taken <- snapshotActionReplay ;;
      if negb taken then rejected "idempotency_unavailable"%string
      else
        remembered <- ledger (remember command actionNow) ;;
        if negb remembered then
          restored <- restoreActionReplaySnapshotInMemory ;;
          g <- global ;;
          if negb restored || negb (ready g) then
            updGlobal (set_ready false) ;;; rejected "idempotency_unavailable"%string
          else rejected "idempotency_busy"%string
        else
          persisted <- persistActionReplay ;;
          if negb persisted then
            restoreActionReplaySnapshotInMemory ;;;
            updGlobal (set_ready false) ;;;
            rejected "idempotency_unavailable"%string
          else ret (inr command)
  end.

(** The rollback of a reservation whose action was refused. *)
Definition rollbackAction (command : BleActionCommand) (status : TransportStatus) (capacity : nat)
  : R (Response + bool) :=
  restored <- restoreActionReplaySnapshot ;;
  if negb restored then
    updGlobal (set_ready false) ;;;
    ret (inl (rejectAction command "action_result_unknown" capacity))
  else ret (inl (rejectAction command (bleMeshErrorName status) capacity)).

(** The side effect: whether it was applied. *)
Definition performAction (command : BleActionCommand) (capacity : nat) : R (Response + bool) :=
  if kind command =? Pet then applied <- host petWisp ;; ret (inr applied)
  else if kind command =? Feed then applied <- host feedKitsu ;; ret (inr applied)
  else if kind command =? Play then applied <- host playKitsu ;; ret (inr applied)
  else if kind command =? ListenOnce then
    applied <- host (startListening (durationMs command)) ;; ret (inr applied)
  else if kind command =? AdvertiseOnce then
    status <- queueBleAdvert command ;;
    if negb (bool_decide (status = TsOk)) then rollbackAction command status capacity
    else ret (inr true)
  else if kind command =? SendMessage then
    queued <- queueBleMessage command ;;
    if negb (bool_decide (fst queued = TsOk)) then rollbackAction command (fst queued) capacity
    else ret (inr (snd queued))
  else ret (inr false).

(** The receipt, after the ledger records the outcome. *)
Definition commitAction (command : BleActionCommand) (applied : bool) (capacity : nat) : R Response :=
  if negb applied then
    updGlobal (set_scratch zeroScratch) ;;;
    ret (rejectAction command "action_result_unknown" capacity)
  else
    taken <- snapshotActionReplay ;;
    if negb taken then ret (rejectAction command "action_result_unknown" capacity)
    else
      marked <- ledger (markApplied command) ;;
      persisted <- (if marked then persistActionReplay else ret false) ;;
      if negb persisted then
        restoreActionReplaySnapshotInMemory ;;;
        ret (rejectAction command "action_result_unknown" capacity)
      else
        updGlobal (set_scratch zeroScratch) ;;;
        ret (acceptAction command (doneState command) capacity).

(** Everything up to the side effect. *)
Definition admitAction (payload : list Z) (capacity : nat) : R (Response + BleActionCommand) :=
  screened <- screenAction payload capacity ;;
  match screened with
  | inl response => ret (inl response)
  | inr (command, actionNow) => reserveAction command actionNow capacity
  end.

Definition executeAction (command : BleActionCommand) (capacity : nat) : R Response :=
  performed <- performAction command capacity ;;
  match performed with
  | inl response => ret response
  | inr applied => commitAction command applied capacity
  end.

Definition applyAction (payload : list Z) (capacity : nat) : R Response :=
  admitted <- admitAction payload capacity ;;
  match admitted with
  | inl response => ret response
  | inr command => executeAction command capacity
  end.

End Runtime.
