(* ===== verification/ActionRuntimeFacts.v ===== *)
(** * A BLE action is performed at most once

    Over any sequence of requests, restarts and power losses between the durable
    steps of the handler, the same command has its side effect at most once. *)

From S2P Require Import Prelude Crc BleAction BleActionFacts ActionReplay ActionReplayFacts ActionRuntime.

Open Scope kitsu_scope.

(** ** The host

    [stored] is the content of the NVS key (empty when it is missing), [effects]
    counts the side effects performed, [clock] is the last trusted time answered. *)
Class ActionHostLaws (W : Type) `{ActionSha256Laws W} `{ActionHost W} := {
  stored : W -> list Z;
  effects : W -> nat;
  clock : W -> Z;
  hostView (w : W) : list Z * nat * Z := (stored w, effects w, clock w);
  stored_bytes w : bytesOk (stored w);
  (** Reading a flag, hashing and the bookkeeping of the mesh change none of them. *)
  sha_quiet ps w : hostView (snd (actionSha256 ps w)) = hostView w;
  storageReady_quiet w : hostView (snd (storageReady w)) = hostView w;
  packValid_quiet w : hostView (snd (packValid w)) = hostView w;
  gameActive_quiet w : hostView (snd (gameActive w)) = hostView w;
  radioReady_quiet w : hostView (snd (radioReady w)) = hostView w;
  timeValid_quiet w : hostView (snd (timeValid w)) = hostView w;
  identityReady_quiet w : hostView (snd (identityReady w)) = hostView w;
  meshEnabled_quiet w : hostView (snd (meshEnabled w)) = hostView w;
  meshActive_quiet w : hostView (snd (meshActive w)) = hostView w;
  advertiseReadiness_quiet w : hostView (snd (advertiseReadiness w)) = hostView w;
  advertQueued_quiet w : hostView (snd (advertQueued w)) = hostView w;
  ensureObservedContact_quiet k w : hostView (snd (ensureObservedContact k w)) = hostView w;
  journalDirect_quiet k t w : hostView (snd (journalDirect k t w)) = hostView w;
  journalChannel_quiet c t w : hostView (snd (journalChannel c t w)) = hostView w;
  (** NVS: a complete read returns the value; a write stores the new value or, when
      it fails, leaves the old or the new one. *)
  storedLength_law w : storedLength w = (length (stored w), snd (storedLength w)) /\
                       hostView (snd (storedLength w)) = hostView w;
  getStored_law n w : hostView (snd (getStored n w)) = hostView w /\
    (length (fst (getStored n w)) = length (stored w) -> fst (getStored n w) = stored w);
  putStored_law l w : bytesOk l ->
    effects (snd (putStored l w)) = effects w /\ clock (snd (putStored l w)) = clock w /\
    (stored (snd (putStored l w)) = l \/
     fst (putStored l w) <> length l /\ stored (snd (putStored l w)) = stored w);
  (** The trusted clock does not run backwards. *)
  currentEpoch_law w : clock w <= fst (currentEpoch w) /\ clock (snd (currentEpoch w)) = fst (currentEpoch w) /\
    stored (snd (currentEpoch w)) = stored w /\ effects (snd (currentEpoch w)) = effects w;
  (** A care action counts when it is attempted, a transmission when it is accepted. *)
  petWisp_law w : hostView (snd (petWisp w)) = (stored w, S (effects w), clock w);
  feedKitsu_law w : hostView (snd (feedKitsu w)) = (stored w, S (effects w), clock w);
  playKitsu_law w : hostView (snd (playKitsu w)) = (stored w, S (effects w), clock w);
  startListening_law d w : hostView (snd (startListening d w)) = (stored w, S (effects w), clock w);
  introduceOnce_law f w : hostView (snd (introduceOnce f w)) =
    (stored w, if bool_decide (fst (introduceOnce f w) = TsOk) then S (effects w) else effects w, clock w);
  sendDirect_law k t w : hostView (snd (sendDirectTextOnce k t w)) =
    (stored w, if bool_decide (fst (sendDirectTextOnce k t w) = TsOk) then S (effects w) else effects w, clock w);
  sendChannel_law c t w : hostView (snd (sendChannelTextOnce c t w)) =
    (stored w, if bool_decide (fst (sendChannelTextOnce c t w) = TsOk) then S (effects w) else effects w, clock w);
}.

Create HintDb quiet.
#[export] Hint Resolve storageReady_quiet packValid_quiet gameActive_quiet radioReady_quiet timeValid_quiet
  identityReady_quiet meshEnabled_quiet meshActive_quiet advertiseReadiness_quiet advertQueued_quiet
  ensureObservedContact_quiet journalDirect_quiet journalChannel_quiet : quiet.

Section Runs.
Context {W : Type} `{HL : ActionHostLaws W}.

Abbreviation State := (Globals * W)%type.

(** ** Running the host and the ledger *)

Lemma wp_host {A} (m : M W A) Q g w : Q (fst (m w)) (g, snd (m w)) -> wp (host m) Q (g, w).
Proof. unfold wp, host. simpl. by destruct (m w). Qed.

Lemma wp_quiet {A} (m : M W A) Q g w : (forall w, hostView (snd (m w)) = hostView w) ->
  (forall a w', hostView w' = hostView w -> Q a (g, w')) -> wp (host m) Q (g, w).
Proof. intros Hm HQ. by apply wp_host, HQ. Qed.

(** A guarded query. *)
Lemma wp_quiet_if {A} (c : bool) (m : M W A) (d : A) (Q : A -> State -> Prop) g w :
  (forall w, hostView (snd (m w)) = hostView w) ->
  (forall a w', hostView w' = hostView w -> Q a (g, w')) -> wp (if c then host m else ret d) Q (g, w).
Proof. intros Hm HQ. destruct c; [by apply wp_quiet|by apply wp_ret, HQ]. Qed.

Lemma wp_ledger {A} (m : M (Blob * W) A) Q g w :
  wp m (fun a s => Q a (set_cache (fst s) g, snd s)) (cache g, w) -> wp (ledger m) Q (g, w).
Proof. unfold wp, ledger. simpl. by destruct (m (cache g, w)) as [a [b w']]. Qed.

Lemma view_split w w' : hostView w' = hostView w ->
  stored w' = stored w /\ effects w' = effects w /\ clock w' = clock w.
Proof. by intros [= -> -> ->]. Qed.

(** ** The invariant *)

Definition heldBy (c : BleActionCommand) (b : Blob) : Prop := Exists (binds (commandKey c) c) (occupied b).

(** The commands performed so far whose deadline may still come. *)
Definition allHeld (P : list BleActionCommand) (now : Z) (b : Blob) : Prop :=
  forall c, c ∈ P -> now < expiresAtEpoch c -> heldBy c b.

Definition commandOk (c : BleActionCommand) : Prop := validReplayCommand c = true /\ idOk c.

Record Inv (P : list BleActionCommand) (s : State) : Prop := {
  inv_cache : ready (fst s) = true ->
    LedgerOk (cache (fst s)) /\ allHeld P (clock (snd s)) (cache (fst s));
  inv_stored c : c ∈ P -> clock (snd s) < expiresAtEpoch c ->
    length (stored (snd s)) = kBlobBytes /\ LedgerOk (blobOf (stored (snd s))) /\
    heldBy c (blobOf (stored (snd s)));
  inv_once : NoDup (map commandParts P);
  inv_commands : Forall commandOk P;
}.

(** The clock may advance, the rest of the host stays. *)
Lemma inv_later P g w w' : Inv P (g, w) -> stored w' = stored w -> clock w <= clock w' -> Inv P (g, w').
Proof.
  intros [I1 I2 I3 I4] Hs Hc. simpl in *. split; simpl; [|rewrite Hs|done|done].
  - intros Hr. destruct (I1 Hr) as [Hl Hh]. split; [done|]. intros c Hin He. apply Hh; [done|lia].
  - intros c Hin He. apply I2; [done|lia].
Qed.

Lemma inv_view P g w w' : Inv P (g, w) -> hostView w' = hostView w -> Inv P (g, w').
Proof. intros HI (Hs & _ & Hc)%view_split. apply (inv_later P g w); [done|done|lia]. Qed.

(** Giving the ledger up keeps what is stored. *)
Lemma inv_unready P g g' w : Inv P (g, w) -> ready g' = false -> Inv P (g', w).
Proof. intros [I1 I2 I3 I4] Hr. simpl in *. split; simpl; [by rewrite Hr|done..]. Qed.

(** A ledger that holds everything, in memory or stored. *)
Lemma inv_with P g w b : Inv P (g, w) -> LedgerOk b -> allHeld P (clock w) b -> cache g = b -> Inv P (g, w).
Proof. intros [I1 I2 I3 I4] Hb Hh Hc. simpl in *. split; simpl; [by rewrite Hc|done..]. Qed.

Lemma inv_cached P g g' w : Inv P (g, w) -> LedgerOk (cache g') -> allHeld P (clock w) (cache g') -> Inv P (g', w).
Proof. intros [I1 I2 I3 I4] Hb Hh. simpl in *. split; simpl; done. Qed.

Lemma inv_persisted P g w w' b : Inv P (g, w) -> LedgerOk b -> allHeld P (clock w) b ->
  clock w' = clock w -> stored w' = serialized b \/ stored w' = stored w -> Inv P (g, w').
Proof.
  intros [I1 I2 I3 I4] Hb Hh Hc Hs. simpl in *. split; simpl; rewrite ?Hc; [done| |done|done].
  intros c Hin He. destruct Hs as [->| ->]; [|by apply I2]. unfold serialized.
  rewrite blobOf_blobBytes, blobBytes_length by done. auto.
Qed.

(** ** Equal commands *)

Lemma same_parts c1 c2 : commandOk c1 -> commandOk c2 -> commandParts c1 = commandParts c2 ->
  actionId c1 = actionId c2 /\ expiresAtEpoch c1 = expiresAtEpoch c2 /\ commandKey c1 = commandKey c2.
Proof.
  intros [V1 [L1 _]] [V2 [L2 _]] E. assert (Ek : commandKey c1 = commandKey c2) by (unfold commandKey; by rewrite E).
  apply (f_equal (@concat Z)) in E. by apply command_digest_binds in E as (? & _ & ? & _).
Qed.

Lemma fresh_is_new P g w c now : Inv P (g, w) -> ready g = true -> commandOk c -> clock w = now ->
  decidedBy (cache g) c now Fresh -> commandParts c ∉ map commandParts P.
Proof.
  intros HI Hr Hc Hnow Hd. destruct (Hd (or_introl eq_refl)) as [[_ Ht] Hf]. intros Hin.
  apply list_elem_of_fmap in Hin as (c' & E & Hin'). pose proof (inv_commands _ _ HI) as Hall.
  rewrite Forall_forall in Hall. destruct (same_parts c c' Hc (Hall c' Hin') E) as (E1 & E2 & E3).
  destruct (inv_cache _ _ HI Hr) as [Hl Hh]. simpl in *. symmetry in Hf. revert Hf.
  apply held_not_fresh; [done|]. eapply Exists_impl; [apply (Hh c' Hin'); lia|].
  intros r (? & ? & ?). unfold binds. by rewrite E1, E2, E3.
Qed.

(** ** The storage of the ledger *)

Definition quietly (w w' : W) : Prop := effects w' = effects w /\ clock w' = clock w.

Lemma quietly_view w w' : hostView w' = hostView w -> quietly w w'.
Proof. by intros (_ & ? & ?)%view_split. Qed.
Lemma quietly_trans w1 w2 w3 : quietly w1 w2 -> quietly w2 w3 -> quietly w1 w3.
Proof. intros [E1 E2] [E3 E4]. split; congruence. Qed.

Lemma persistReplay_wp Q g w : LedgerOk (cache g) ->
  (forall ok w', quietly w w' -> stored w' = serialized (cache g) \/ stored w' = stored w ->
     (ok = true -> ready g = true /\ stored w' = serialized (cache g)) -> Q ok (g, w')) ->
  wp persistActionReplay Q (g, w).
Proof.
  intros Hl HQ. unfold persistActionReplay. apply wp_bind, wp_quiet; [auto with quiet|]. intros a w1 Hv.
  apply wp_bind, wp_gets. simpl fst. pose proof (view_split _ _ Hv) as (Hs & _ & _).
  apply wp_if; intros Er; [apply wp_ret, HQ; [by apply quietly_view|by right|done]|].
  apply orb_false_iff in Er as [_ Er%negb_false_iff].
  apply wp_bind, wp_host, wp_ret. destruct (putStored_law (serialized (cache g)) w1) as (He & Hc & Hp).
  { by apply blobBytes_ok. }
  apply HQ.
  - eapply quietly_trans; [by apply quietly_view|by split].
  - destruct Hp as [->|[_ ->]]; [by left|by right].
  - intros [_ Hw%Nat.eqb_eq]%andb_true_iff. split; [done|]. by destruct Hp as [?|[? _]].
Qed.

Lemma snapshot_wp (Q : bool -> State -> Prop) g w : LedgerOk (cache g) ->
  Q true (set_scratch (serialized (cache g)) g, w) -> wp snapshotActionReplay Q (g, w).
Proof.
  intros Hl HQ. unfold snapshotActionReplay. apply wp_bind, wp_gets. simpl fst.
  unfold serialized at 1. rewrite blobBytes_length by done. exact HQ.
Qed.

Lemma restore_wp (Q : bool -> State -> Prop) g w b : LedgerOk b -> scratch g = serialized b ->
  Q true (mkGlobals b zeroScratch (ready g), w) -> wp restoreActionReplaySnapshotInMemory Q (g, w).
Proof.
  intros Hl Hs HQ. unfold restoreActionReplaySnapshotInMemory. apply wp_bind, wp_gets. simpl fst.
  rewrite Hs, load_serialized by done. exact HQ.
Qed.

Lemma restoreSnapshot_wp Q g w b : LedgerOk b -> scratch g = serialized b ->
  (forall ok w', quietly w w' -> stored w' = serialized b \/ stored w' = stored w ->
     Q ok (mkGlobals b zeroScratch (ready g), w')) ->
  wp restoreActionReplaySnapshot Q (g, w).
Proof.
  intros Hl Hs HQ. unfold restoreActionReplaySnapshot. apply wp_bind. eapply restore_wp; [done..|].
  apply persistReplay_wp; [done|]. intros ok w' Hq Hst _. by apply HQ.
Qed.

(** ** Power-on *)

Definition reboot : @R W unit := updGlobal (fun _ => globals0) ;;; loadActionReplay.

Lemma reboot_wp P g w : Inv P (g, w) -> wp reboot (fun _ s => Inv P s /\ effects (snd s) = effects w) (g, w).
Proof.
  intros HI. unfold reboot, loadActionReplay. apply wp_bind, wp_modify. cbn [fst snd].
  apply wp_bind, wp_modify, wp_bind, wp_modify. cbn [fst snd].
  set (g1 := set_cache reset (set_ready false globals0)).
  assert (H1' : Inv P (g1, w)) by (by eapply inv_unready).
  apply wp_bind, wp_quiet; [auto with quiet|]. intros ok w1 Hv1. apply (inv_view _ _ _ w1) in H1'; [|done].
  pose proof (view_split _ _ Hv1) as (Hs1 & He1 & Hc1).
  apply wp_if; intros _; [by apply wp_ret|].
  apply wp_bind, wp_host. destruct (storedLength_law w1) as [Hlen Hv2]. rewrite Hlen. simpl fst. simpl snd.
  set (w2 := snd (storedLength w1)) in *. apply (inv_view _ _ _ w2) in H1'; [|done].
  pose proof (view_split _ _ Hv2) as (Hs2 & He2 & Hc2).
  apply wp_if; intros E0.
  { apply wp_modify. split; [|simpl; congruence]. apply Nat.eqb_eq in E0.
    eapply inv_cached; [exact H1'|apply reset_ok|]. intros c Hin He.
    destruct (inv_stored _ _ H1' c Hin He) as (Hn & _). simpl in Hn. rewrite Hs2, E0 in Hn. done. }
  apply wp_if; intros E1; [apply wp_ret; split; [done|simpl; congruence]|].
  apply negb_false_iff, Nat.eqb_eq in E1.
  apply wp_bind, wp_host. destruct (getStored_law kBlobBytes w2) as [Hv3 Hget].
  set (w3 := snd (getStored kBlobBytes w2)) in *. apply (inv_view _ _ _ w3) in H1'; [|done].
  pose proof (view_split _ _ Hv3) as (Hs3 & He3 & Hc3).
  apply wp_if; intros E2.
  { apply wp_modify. split; [by eapply inv_unready|simpl; congruence]. }
  apply negb_false_iff, Nat.eqb_eq in E2. rewrite Hget by congruence.
  destruct (load_cases (Some (stored w2))) as [->|(l & [= <-] & -> & Hl)].
  { intros l [= <-]. apply stored_bytes. }
  - apply wp_bind, wp_modify, wp_bind, wp_modify, wp_ret. split; [by eapply inv_unready|simpl; congruence].
  - apply wp_bind, wp_modify, wp_bind, wp_modify, wp_modify. split; [|simpl; congruence]. simpl.
    eapply inv_cached; [exact H1'|done|]. simpl. intros c Hin He.
    destruct (inv_stored _ _ H1' c Hin He) as (_ & _ & Hh). simpl in Hh. by rewrite Hs3 in Hh.
Qed.

(** ** Screening *)

(** What screening leaves: a decoded command the ledger finds fresh now. *)
Definition Screened (P : list BleActionCommand) (c : BleActionCommand) (now : Z) (s : State) : Prop :=
  Inv P s /\ ready (fst s) = true /\ clock (snd s) = now /\ decidedBy (cache (fst s)) c now Fresh.

Lemma decide_wp P n c now capacity g w : Inv P (g, w) -> ready g = true -> clock w = now \/ now = 0 ->
  effects w = n ->
  wp (decideAction c now capacity) (fun r s => Inv P s /\ effects (snd s) = n /\
    match r with inl _ => True | inr (c', now') => c' = c /\ Screened P c now' s end) (g, w).
Proof.
  intros HI Hr Hnow Hn. unfold decideAction. apply wp_bind, wp_ledger, (inspect_wp hostView sha_quiet).
  intros r w6 Hv6 Hd. cbn [fst snd]. replace (set_cache (cache g) g) with g by (by destruct g).
  apply (inv_view _ _ _ w6) in HI; [|done]. pose proof (view_split _ _ Hv6) as (_ & He6 & Hc6).
  destruct r; apply wp_ret; (split; [done|split; [simpl; congruence|try done]]).
  split; [done|]. split_and!; [done|done| |done]. destruct Hnow as [<-| ->]; [done|].
  destruct (Hd (or_introl eq_refl)) as [[Hx1 Hx2] _]. apply replay_expiry in Hx1. exfalso.
  assert (kBleActionMinimumTrustedEpoch = 1704067200 /\ kBleActionMaximumExpirySeconds = 120) by done. lia.
Qed.

Lemma screen_wp P payload capacity g w : Inv P (g, w) ->
  wp (screenAction payload capacity) (fun r s => Inv P s /\ effects (snd s) = effects w /\
    match r with
    | inl _ => True
    | inr (c, now) => decodeBleActionCommand payload = inr c /\ Screened P c now s
    end) (g, w).
Proof.
  intros HI. unfold screenAction. destruct (decodeBleActionCommand payload) as [[d c]|c] eqn:Hdec.
  { by apply wp_ret. }
  apply wp_if; intros _; [by apply wp_ret|].
  apply wp_bind, wp_quiet_if; [auto with quiet|]. intros pack w1 Hv1.
  apply (inv_view _ _ _ w1) in HI; [|done]. pose proof (view_split _ _ Hv1) as (_ & He1 & _).
  apply wp_if; intros _; [by apply wp_ret|].
  apply wp_bind, wp_quiet_if; [auto with quiet|]. intros game w2 Hv2.
  apply (inv_view _ _ _ w2) in HI; [|done]. pose proof (view_split _ _ Hv2) as (_ & He2 & _).
  apply wp_if; intros _; [apply wp_ret; split_and!; [done|simpl; congruence|done]|].
  apply wp_bind, wp_quiet_if; [auto with quiet|]. intros radio w3 Hv3.
  apply (inv_view _ _ _ w3) in HI; [|done]. pose proof (view_split _ _ Hv3) as (_ & He3 & _).
  apply wp_if; intros _; [apply wp_ret; split_and!; [done|simpl; congruence|done]|].
  apply wp_bind, wp_gets. simpl fst.
  apply wp_if; intros Hr; [apply wp_ret; split_and!; [done|simpl; congruence|done]|].
  apply negb_false_iff in Hr.
  apply wp_bind, wp_quiet; [auto with quiet|]. intros known w4 Hv4.
  apply (inv_view _ _ _ w4) in HI; [|done]. pose proof (view_split _ _ Hv4) as (_ & He4 & _).
  apply wp_bind. destruct (currentEpoch_law w4) as (T1 & T2 & T3 & T4).
  assert (Hmain : forall now w5, Inv P (g, w5) -> effects w5 = effects w -> clock w5 = now \/ now = 0 ->
    wp (decideAction c now capacity) (fun r s => Inv P s /\ effects (snd s) = effects w /\
      match r with inl _ => True | inr (c', now') => @inr (BleActionDecodeResult * BleActionCommand) _ c = inr c' /\ Screened P c' now' s end)
      (g, w5)).
  { intros now w5 HI5 He5 Hnow. eapply wp_mono; [by apply (decide_wp P (effects w))|].
    intros [r|[c' now']] s; [done|]. intros (? & ? & -> & ?). done. }
  destruct known.
  - apply wp_host, Hmain; [eapply inv_later; [exact HI|done|lia]|congruence|by left].
  - apply wp_ret, Hmain; [done|congruence|by right].
Qed.

(** ** Reserving *)

Lemma readiness_wp (Q : option string -> State -> Prop) (advertise : bool) g w :
  (forall r w', hostView w' = hostView w -> Q r (g, w')) ->
  wp (if advertise then bleAdvertiseReadinessError else ret None) Q (g, w).
Proof.
  intros HQ. destruct advertise; [|by apply wp_ret, HQ]. unfold bleAdvertiseReadinessError.
  apply wp_bind, wp_gets. apply wp_if; intros _; [by apply wp_ret, HQ|].
  do 4 (apply wp_bind, wp_quiet; [auto with quiet|]; intros ? ? ?;
        apply wp_if; intros _; [apply wp_ret, HQ; congruence|]).
  apply wp_bind, wp_quiet; [auto with quiet|]. intros ? ? ?. apply wp_ret, HQ. congruence.
Qed.

(** A command that is durably reserved and not performed; the scratch buffer holds
    the ledger to go back to. *)
Record Pending (P : list BleActionCommand) (c : BleActionCommand) (s : State) : Prop := {
  pen_inv : Inv P s;
  pen_ready : ready (fst s) = true;
  pen_held : heldBy c (cache (fst s));
  pen_stored : stored (snd s) = serialized (cache (fst s));
  pen_rollback : exists b, scratch (fst s) = serialized b /\ LedgerOk b /\ allHeld P (clock (snd s)) b;
}.

Lemma reserved_all P c now b b' : allHeld P now b -> Reserved b c now b' -> allHeld P now b'.
Proof.
  intros Hh HR c' Hin He. apply Exists_exists. destruct (proj1 (Exists_exists _ _) (Hh c' Hin He)) as (r & Hr & Hb).
  exists r. split; [|done]. apply (res_keeps _ _ _ _ HR); [done|]. destruct Hb as (_ & _ & ->). lia.
Qed.

Lemma reserve_wp P n c now capacity g w : Screened P c now (g, w) -> commandOk c -> effects w = n ->
  wp (reserveAction c now capacity) (fun r s => effects (snd s) = n /\
    match r with inl _ => Inv P s | inr c' => c' = c /\ Pending P c s end) (g, w).
Proof.
  intros (HI & Hr & Hnow & Hd) [_ Hid] Hn. cbn [fst snd] in Hr, Hnow, Hd. unfold reserveAction.
  apply wp_bind, readiness_wp. intros readiness w1 Hv1. pose proof (view_split _ _ Hv1) as (Hs1 & He1 & Hc1).
  apply (inv_view _ _ _ w1) in HI; [|done].
  destruct readiness as [error|]; [apply wp_ret; split; [simpl; congruence|done]|].
  destruct (inv_cache _ _ HI Hr) as [Hl Hh]. cbn [fst snd] in Hl, Hh.
  apply wp_bind, snapshot_wp; [done|]. cbn [negb]. set (b := cache g) in *.
  set (g1 := set_scratch (serialized b) g).
  assert (HIb : forall w', quietly w1 w' -> stored w' = stored w1 ->
    Inv P (mkGlobals b zeroScratch (ready g1), w')).
  { intros w' [_ Hc] Hs. eapply inv_cached; [eapply inv_later; [exact HI|done|lia]|done|].
    simpl. by rewrite Hc. }
  destruct (Hd (or_introl eq_refl)) as [[Hv Ht] Hf].
  apply wp_bind, wp_ledger, (remember_wp hostView sha_quiet); [done|done|..].
  - intros w2 _ [Hx|Hx]; [destruct (Hx (or_intror (or_introl eq_refl))) as [_ E]
      |destruct (Hx (or_intror (or_intror eq_refl))) as [_ E]];
      by discriminate (eq_trans E (eq_sym Hf)).
  - intros b' w2 Hv2 _. cbn [fst snd]. apply wp_if; intros E; [|done]. clear E.
    pose proof (view_split _ _ Hv2) as (Hs2 & He2 & Hc2).
    apply wp_bind, (restore_wp _ _ _ b); [done|done|]. apply wp_bind, wp_gets. simpl. rewrite Hr. simpl.
    apply wp_ret. split; [simpl; congruence|]. rewrite <- Hr. apply HIb; [by apply quietly_view|done].
  - intros b' w2 Hv2 _ HR. cbn [fst snd]. apply wp_if; intros E; [done|]. clear E.
    pose proof (view_split _ _ Hv2) as (Hs2 & He2 & Hc2).
    assert (Hl' : LedgerOk b') by apply HR.
    assert (Hall : allHeld P now b').
    { eapply reserved_all; [|exact HR]. rewrite <- Hnow, <- Hc1. exact Hh. }
    apply wp_bind, persistReplay_wp; [done|]. intros ok w3 [He3 Hc3] Hs3 Hok.
    assert (HI3 : forall g', cache g' = b' -> Inv P (g', w3)).
    { intros g' Hg'. eapply (inv_cached _ g1); [|by rewrite Hg'|rewrite Hg', Hc3, Hc2, Hc1, Hnow; exact Hall].
      eapply (inv_persisted P _ w1 w3 b'); [|done|by rewrite Hc1, Hnow|congruence|].
      - by apply (inv_cached _ g).
      - simpl in Hs3. rewrite Hs2 in Hs3. exact Hs3. }
    apply wp_if; intros Eok.
    + apply wp_bind, (restore_wp _ _ _ b); [done|done|]. apply wp_bind, wp_modify, wp_ret.
      split; [simpl; congruence|]. eapply (inv_unready _ (set_cache b' g1)); [by apply HI3|done].
    + apply negb_false_iff in Eok. destruct (Hok Eok) as [_ Hst]. apply wp_ret. split; [simpl; congruence|].
      split; [done|]. split; cbn [fst snd].
      * by apply HI3.
      * exact Hr.
      * by apply HR.
      * exact Hst.
      * exists b. split_and!; [done|done|]. rewrite Hc3, Hc2. exact Hh.
Qed.

(** ** Performing *)

Lemma pending_performed P c g w w' : Pending P c (g, w) -> commandOk c -> commandParts c ∉ map commandParts P ->
  stored w' = stored w -> clock w' = clock w -> Inv (P ++ [c]) (g, w').
Proof.
  intros [HI Hr Hc Hst _] Hok Hnew Hs Hck. simpl in *. destruct (inv_cache _ _ HI Hr) as [Hl Hh]. simpl in *.
  assert (Hall : allHeld (P ++ [c]) (clock w') (cache g)).
  { intros c' [Hin| ->%list_elem_of_singleton]%elem_of_app He; [|done]. apply Hh; [done|]. by rewrite <- Hck. }
  split; simpl.
  - done.
  - intros c' Hin He. rewrite Hs, Hst. unfold serialized. rewrite blobOf_blobBytes, blobBytes_length by done.
    split_and!; [done..|by apply Hall].
  - rewrite map_app. apply NoDup_app. split_and!; [apply HI| |apply NoDup_singleton].
    intros x Hx ->%list_elem_of_singleton. done.
  - apply Forall_app. split; [apply HI|by constructor].
Qed.

(** What performing leaves: at most one more effect when the handler goes on, none
    when the action was refused and its reservation withdrawn. *)
Definition Performed (P : list BleActionCommand) (c : BleActionCommand) (n : nat)
    (r : Response + bool) (s : State) : Prop :=
  match r with
  | inl _ => Inv P s /\ effects (snd s) = n
  | inr _ => Inv (P ++ [c]) s /\ ready (fst s) = true /\
             (effects (snd s) = n \/ effects (snd s) = S n)
  end.

Section Perform.
Variables (P : list BleActionCommand) (c : BleActionCommand) (capacity : nat) (g : Globals) (w : W).
Hypothesis Hpen : Pending P c (g, w).
Hypothesis Hcok : commandOk c.
Hypothesis Hnew : commandParts c ∉ map commandParts P.

Lemma performed_ok w' b : stored w' = stored w -> clock w' = clock w ->
  effects w' = effects w \/ effects w' = S (effects w) -> Performed P c (effects w) (inr b) (g, w').
Proof.
  intros Hs Hc He. split; [by apply (pending_performed _ _ _ w)|]. split; [apply Hpen|done].
Qed.

Lemma care_wp (m : M W bool) : (forall w, hostView (snd (m w)) = (stored w, S (effects w), clock w)) ->
  wp (applied <- host m ;; ret (inr applied)) (Performed P c (effects w)) (g, w).
Proof.
  intros Hm. apply wp_bind, wp_host, wp_ret. pose proof (Hm w) as [= Hs He Hc]. apply performed_ok; auto.
Qed.

Lemma rollbackAction_wp w' status : quietly w w' -> stored w' = stored w ->
  wp (rollbackAction c status capacity) (Performed P c (effects w)) (g, w').
Proof.
  intros [He Hc] Hs. destruct (pen_rollback _ _ _ Hpen) as (b & Hb & Hl & Hh). simpl in *.
  unfold rollbackAction. apply wp_bind, (restoreSnapshot_wp _ _ _ b); [done|done|].
  intros ok w2 [He2 Hc2] Hs2.
  assert (HI2 : forall g', ready g' = false \/ cache g' = b -> Inv P (g', w2)).
  { intros g' Hg'. assert (HI2 : Inv P (g, w2)).
    - eapply (inv_persisted P g w w2 b); [apply Hpen|done|done|congruence|]. by rewrite Hs in Hs2.
    - destruct Hg' as [Hg'|Hg']; [by eapply inv_unready|]. eapply inv_cached; [exact HI2|by rewrite Hg'|].
      rewrite Hg', Hc2, Hc. exact Hh. }
  apply wp_if; intros _.
  - apply wp_bind, wp_modify, wp_ret. split; [|simpl; congruence]. apply HI2. by left.
  - apply wp_ret. split; [|simpl; congruence]. apply HI2. by right.
Qed.

(** What a queue reports: accepted is one more effect, refused is none. *)
Definition Queued (status : TransportStatus) (s : State) : Prop :=
  fst s = g /\ stored (snd s) = stored w /\ clock (snd s) = clock w /\
  effects (snd s) = if bool_decide (status = TsOk) then S (effects w) else effects w.

Lemma queued_refused status w' : hostView w' = hostView w -> status <> TsOk -> Queued status (g, w').
Proof. intros (? & ? & ?)%view_split ?. unfold Queued. by rewrite bool_decide_false. Qed.

Lemma queueAdvert_wp : wp (queueBleAdvert c) Queued (g, w).
Proof.
  unfold queueBleAdvert. apply wp_if; intros _; [by apply wp_ret, queued_refused|].
  apply wp_bind, wp_host. pose proof (introduceOnce_law (advertScope c =? ScopeMesh) w) as [= Hs He Hc].
  destruct (introduceOnce _ w) as [status w1]; simpl in *.
  destruct (decide (status = TsOk)) as [->|Hne]; simpl in *.
  - apply wp_bind, wp_quiet; [auto with quiet|]. intros _ w2 (Hs2 & He2 & Hc2)%view_split.
    apply wp_ret. unfold Queued; simpl. split_and!; [done|congruence..].
  - rewrite !bool_decide_false by done. simpl. apply wp_ret. by unfold Queued.
Qed.

Lemma queueMessage_wp : wp (queueBleMessage c) (fun r s => Queued (fst r) s /\ (fst r = TsOk -> snd r = true)) (g, w).
Proof.
  unfold queueBleMessage. apply wp_if; intros _.
  - destruct (decodeCanonicalPeerKey c) as [key|]; [|apply wp_ret; split; [by apply queued_refused|done]].
    apply wp_bind, wp_quiet; [auto with quiet|]. intros status w1 Hv1.
    destruct (decide (status = TsOk)) as [->|Hne]; simpl.
    2: { rewrite bool_decide_false by done. simpl. apply wp_ret. split; [by apply queued_refused|done]. }
    pose proof (view_split _ _ Hv1) as (Hs1 & He1 & Hc1). apply wp_bind, wp_host.
    pose proof (sendDirect_law key (messageText c) w1) as [= Hs He Hc].
    destruct (sendDirectTextOnce _ _ w1) as [status w2]; simpl in *.
    destruct (decide (status = TsOk)) as [->|Hne]; simpl in *.
    + apply wp_bind, wp_quiet; [auto with quiet|]. intros _ w3 (Hs3 & He3 & Hc3)%view_split.
      apply wp_ret. split; [|done]. unfold Queued; simpl. split_and!; [done|congruence..].
    + rewrite !bool_decide_false in * by done. simpl. apply wp_ret. split; [|done]. unfold Queued; simpl.
      rewrite bool_decide_false by done. split_and!; [done|congruence..].
  - apply wp_if; intros _; [apply wp_ret; split; [by apply queued_refused|done]|].
    apply wp_bind, wp_host.
    pose proof (sendChannel_law (u8 (byte_at (messageTarget c) 0 - 48)) (messageText c) w) as [= Hs He Hc].
    destruct (sendChannelTextOnce _ _ w) as [status w2]; simpl in *.
    destruct (decide (status = TsOk)) as [->|Hne]; simpl in *.
    + apply wp_bind, wp_quiet; [auto with quiet|]. intros _ w3 (Hs3 & He3 & Hc3)%view_split.
      apply wp_ret. split; [|done]. unfold Queued; simpl. split_and!; [done|congruence..].
    + rewrite !bool_decide_false in * by done. simpl. apply wp_ret. split; [|done]. unfold Queued; simpl.
      rewrite bool_decide_false by done. split_and!; [done|congruence..].
Qed.

Lemma perform_wp : wp (performAction c capacity) (Performed P c (effects w)) (g, w).
Proof.
  unfold performAction.
  apply wp_if; intros _; [apply care_wp, petWisp_law|].
  apply wp_if; intros _; [apply care_wp, feedKitsu_law|].
  apply wp_if; intros _; [apply care_wp, playKitsu_law|].
  apply wp_if; intros _; [apply care_wp, startListening_law|].
  apply wp_if; intros _.
  { apply wp_bind. eapply wp_mono; [apply queueAdvert_wp|]. intros status [g' w'] (Hg & Hs & Hc & He).
    simpl in Hg, Hs, Hc, He. subst g'. destruct (bool_decide (status = TsOk)) eqn:E; simpl.
    - apply wp_ret, performed_ok; auto.
    - by apply rollbackAction_wp. }
  apply wp_if; intros _; [|apply wp_ret, performed_ok; auto].
  apply wp_bind. eapply wp_mono; [apply queueMessage_wp|]. intros [status b] [g' w'] [(Hg & Hs & Hc & He) _].
  simpl in Hg, Hs, Hc, He. subst g'. simpl. destruct (bool_decide (status = TsOk)) eqn:E; simpl.
  - apply wp_ret, performed_ok; auto.
  - by apply rollbackAction_wp.
Qed.
End Perform.

(** ** Committing *)

Lemma commit_wp P c applied capacity g w : Inv P (g, w) -> ready g = true ->
  wp (commitAction c applied capacity) (fun _ s => Inv P s /\ effects (snd s) = effects w) (g, w).
Proof.
  intros HI Hr. unfold commitAction. destruct (inv_cache _ _ HI Hr) as [Hl Hh]. simpl in Hl, Hh.
  assert (HIg : forall g', cache g' = cache g -> Inv P (g', w)).
  { intros g' Hg'. eapply inv_cached; [exact HI|by rewrite Hg'|by rewrite Hg']. }
  apply wp_if; intros _; [apply wp_bind, wp_modify, wp_ret; split; [by apply HIg|done]|].
  apply wp_bind, snapshot_wp; [done|]. cbn [negb]. set (b := cache g) in *.
  apply wp_bind, wp_ledger, (markApplied_wp hostView sha_quiet); [done|..].
  - intros w1 Hv1. cbn [fst snd]. apply wp_bind, wp_ret. apply wp_if; intros E; [|done].
    pose proof (view_split _ _ Hv1) as (Hs1 & He1 & Hc1).
    apply wp_bind, (restore_wp _ _ _ b); [done|done|]. apply wp_ret. split; [|done].
    eapply inv_view; [|exact Hv1]. by apply HIg.
  - intros b' w1 Hv1 Hl' Hk. cbn [fst snd]. pose proof (view_split _ _ Hv1) as (Hs1 & He1 & Hc1).
    assert (Hall : allHeld P (clock w) b') by (intros c' Hin He; apply Hk, Hh; done).
    apply wp_bind, persistReplay_wp; [done|]. intros ok w2 [He2 Hc2] Hs2 _. simpl in Hs2.
    assert (HI2 : forall g', LedgerOk (cache g') -> allHeld P (clock w) (cache g') -> Inv P (g', w2)).
    { intros g' Hl2 Hh2. eapply (inv_cached _ g); [|done|by rewrite Hc2, Hc1].
      eapply (inv_persisted P g w w2 b'); [done|done|done|congruence|]. by rewrite <- Hs1. }
    apply wp_if; intros _.
    + apply wp_bind, (restore_wp _ _ _ b); [done|done|]. apply wp_ret. split; [by apply HI2|simpl; congruence].
    + apply wp_bind, wp_modify, wp_ret. split; [by apply HI2|simpl; congruence].
Qed.

(** ** Requests, restarts and power losses *)

(** Power may be lost once the reservation is durable, or once the effect has
    happened; a loss inside a write is a write that failed. *)
Inductive Step :=
| Request (payload : list Z) (capacity : nat)
| Reboot
| LostAfterReservation (payload : list Z) (capacity : nat)
| LostAfterEffect (payload : list Z) (capacity : nat).

Definition runStep (x : Step) : @R W unit :=
  match x with
  | Request payload capacity => applyAction payload capacity ;;; ret tt
  | Reboot => reboot
  | LostAfterReservation payload capacity => admitAction payload capacity ;;; reboot
  | LostAfterEffect payload capacity =>
      admitted <- admitAction payload capacity ;;
      match admitted with
      | inl _ => reboot
      | inr c => performAction c capacity ;;; reboot
      end
  end.

Definition stepPayload (x : Step) : list Z :=
  match x with
  | Request p _ | LostAfterReservation p _ | LostAfterEffect p _ => p
  | Reboot => []
  end.

(** The commands whose effect happened in a step, one entry per effect. *)
Definition performedBy (x : Step) (s : State) : list BleActionCommand :=
  replicate (effects (snd (snd (runStep x s))) - effects (snd s))
    (decoded (stepPayload x)).

Fixpoint performedIn (xs : list Step) (s : State) : list BleActionCommand :=
  match xs with
  | [] => []
  | x :: xs' => performedBy x s ++ performedIn xs' (snd (runStep x s))
  end.

Lemma inv_prefix P P' s : Inv (P ++ P') s -> Inv P s.
Proof.
  intros [I1 I2 I3 I4]. split.
  - intros Hr. destruct (I1 Hr) as [Hl Hh]. split; [done|]. intros c Hin. apply Hh, elem_of_app. by left.
  - intros c Hin. apply I2, elem_of_app. by left.
  - rewrite map_app in I3. by apply NoDup_app in I3 as (? & _ & _).
  - by apply Forall_app in I4 as [? _].
Qed.

Lemma admit_wp P payload capacity g w : Inv P (g, w) ->
  wp (admitAction payload capacity) (fun r s => effects (snd s) = effects w /\
    match r with
    | inl _ => Inv P s
    | inr c => decoded payload = c /\ commandOk c /\ (commandParts c ∉ map commandParts P) /\ Pending P c s
    end) (g, w).
Proof.
  intros HI. unfold admitAction. apply wp_bind. eapply wp_mono; [by apply (screen_wp P)|].
  intros [r|[c now]] [g1 w1] (HI1 & He1 & Hx); [by apply wp_ret|]. destruct Hx as [Hdec Hs].
  assert (Hok : commandOk c).
  { destruct (decoded_command_replayable payload c Hdec) as (? & ? & ?). by split. }
  eapply wp_mono; [by apply (reserve_wp P (effects w))|]. intros [r|c'] s2 [He2 Hx]; [done|].
  destruct Hx as [-> Hpen]. split; [done|]. split_and!; [|done| |done].
  - unfold decoded. by rewrite Hdec.
  - destruct Hs as (_ & Hr & Hnow & Hd). by eapply fresh_is_new.
Qed.

(** What a step adds to the commands performed. *)
Definition Accounted (P : list BleActionCommand) (c : BleActionCommand) (n : nat) (s : State) : Prop :=
  Inv (P ++ replicate (effects (snd s) - n) c) s /\ (n <= effects (snd s))%nat.

Lemma accounted_none P c n s : Inv P s -> effects (snd s) = n -> Accounted P c n s.
Proof. intros HI <-. unfold Accounted. by rewrite Nat.sub_diag, app_nil_r. Qed.

Lemma accounted_performed P c n s : Inv (P ++ [c]) s -> effects (snd s) = n \/ effects (snd s) = S n ->
  Accounted P c n s.
Proof.
  intros HI [E|E]; [by apply accounted_none; [by eapply inv_prefix|]|]. unfold Accounted.
  rewrite E. replace (S n - n)%nat with 1%nat by lia. split; [done|lia].
Qed.

Lemma accounted_later P c n s s' : Accounted P c n s ->
  (forall P', Inv P' s -> Inv P' s') -> effects (snd s') = effects (snd s) -> Accounted P c n s'.
Proof. intros [HI Hn] Himp He. unfold Accounted. rewrite He. split; [by apply Himp|done]. Qed.

Lemma reboot_accounted P c n g w : Accounted P c n (g, w) -> wp reboot (fun _ s => Accounted P c n s) (g, w).
Proof.
  intros [HI Hn]. eapply wp_mono; [apply (reboot_wp _ _ _ HI)|]. intros _ s [HI' He]. unfold Accounted.
  simpl in *. by rewrite He.
Qed.

Lemma execute_wp P c capacity g w : Pending P c (g, w) -> commandOk c -> commandParts c ∉ map commandParts P ->
  wp (executeAction c capacity) (fun _ s => Accounted P c (effects w) s) (g, w).
Proof.
  intros Hp Hok Hnew. unfold executeAction. apply wp_bind. eapply wp_mono; [by apply (perform_wp P)|].
  intros [r|applied] [g1 w1]; simpl.
  - intros [HI He]. apply wp_ret. by apply accounted_none.
  - intros (HI & Hr & He). eapply wp_mono; [by apply commit_wp|]. intros _ s [HI2 He2].
    apply accounted_performed; [done|]. by rewrite He2.
Qed.

Lemma step_wp x P g w : Inv P (g, w) ->
  wp (runStep x) (fun _ s => Accounted P (decoded (stepPayload x)) (effects w) s) (g, w).
Proof.
  intros HI. destruct x as [payload cap| |payload cap|payload cap]; simpl.
  - unfold applyAction. apply wp_bind, wp_bind. eapply wp_mono; [by apply (admit_wp P)|].
    intros [r|c] [g1 w1] [He Hx]; simpl in He.
    + apply wp_ret, wp_ret. by apply accounted_none.
    + destruct Hx as (-> & Hok & Hnew & Hp). rewrite <- He. eapply wp_mono; [by apply execute_wp|].
      intros r s Hs. by apply wp_ret.
  - apply reboot_accounted. by apply accounted_none.
  - apply wp_bind. eapply wp_mono; [by apply (admit_wp P)|]. intros r [g1 w1] [He Hx]; simpl in He.
    apply reboot_accounted, accounted_none; [|done]. destruct r as [r|c]; [done|]. apply Hx.
  - apply wp_bind. eapply wp_mono; [by apply (admit_wp P)|]. intros [r|c] [g1 w1] [He Hx]; simpl in He.
    + by apply reboot_accounted, accounted_none.
    + destruct Hx as (-> & Hok & Hnew & Hp). rewrite <- He. apply wp_bind.
      eapply wp_mono; [by apply (perform_wp P)|]. intros [r|applied] [g2 w2]; simpl.
      * intros [HI2 He2]. by apply reboot_accounted, accounted_none.
      * intros (HI2 & _ & He2). by apply reboot_accounted, accounted_performed.
Qed.

Lemma performed_once xs P s : Inv P s -> NoDup (map commandParts (P ++ performedIn xs s)).
Proof.
  revert P s. induction xs as [|x xs IH]; intros P [g w] HI; simpl.
  - rewrite app_nil_r. apply HI.
  - rewrite app_assoc. apply IH. destruct (step_wp x P g w HI) as [HI' _]. exact HI'.
Qed.

(** C9: A BLE action is performed at most once.  Over any sequence of requests with
    arbitrary payloads, restarts, and power losses after the reservation or after the
    side effect, no command (identifier, kind, deadline and parameters) has its side
    effect twice, whatever NVS writes fail and whatever the rest of the device
    answers, as long as the trusted clock does not run backwards. *)
Theorem action_at_most_once xs w : NoDup (map commandParts (performedIn xs (globals0, w))).
Proof. apply (performed_once xs []). split; simpl; [done|by intros c []%elem_of_nil|constructor|constructor]. Qed.
End Runs.

(** ** A simulated device *)

Record Sim := mkSim { sim_stored : list Z; sim_effects : nat; sim_clock : Z }.

#[export] Instance SimDeviceSha : ActionSha256 Sim := {|
  actionSha256 ps := fun w => (Some (Sha256.sha256 (concat ps)), w);
|}.
#[export] Program Instance SimDeviceShaLaws : ActionSha256Laws Sim := {| shaOf ps := Sha256.sha256 (concat ps) |}.
Next Obligation. intros. apply Sha256.sha256_length. Qed.
Next Obligation. intros. apply Sha256.sha256_ok. Qed.
Next Obligation. intros ps w d w' [= <- _]. done. Qed.

(** Everything is ready, every action succeeds, every answer of the clock is one
    second later. *)
Definition simEffect {A} (a : A) : M Sim A :=
  fun w => (a, mkSim (sim_stored w) (S (sim_effects w)) (sim_clock w)).

#[export] Instance SimDevice : ActionHost Sim := {|
  storageReady := ret true;
  storedLength := gets (fun w => length (sim_stored w));
  getStored n := gets (fun w => take n (map u8 (sim_stored w)));
  putStored l := fun w => (length l, mkSim l (sim_effects w) (sim_clock w));
  packValid := ret true;
  gameActive := ret false;
  radioReady := ret true;
  timeValid := ret true;
  currentEpoch := fun w => (sim_clock w + 1, mkSim (sim_stored w) (sim_effects w) (sim_clock w + 1));
  identityReady := ret true;
  meshEnabled := ret true;
  meshActive := ret true;
  advertiseReadiness := ret TsOk;
  petWisp := simEffect true;
  feedKitsu := simEffect true;
  playKitsu := simEffect true;
  startListening _ := simEffect true;
  introduceOnce _ := simEffect TsOk;
  advertQueued := ret tt;
  ensureObservedContact _ := ret TsOk;
  sendDirectTextOnce _ _ := simEffect TsOk;
  sendChannelTextOnce _ _ := simEffect TsOk;
  journalDirect _ _ := ret tt;
  journalChannel _ _ := ret tt;
|}.

Lemma map_u8_id l : bytesOk l -> map u8 l = l.
Proof. induction 1 as [|b l Hb _ IH]; simpl; [done|]. unfold isByte in Hb. by rewrite u8_id, IH. Qed.

Lemma map_u8_ok l : bytesOk (map u8 l).
Proof. induction l; constructor; [apply u8_range|done]. Qed.

#[local] Obligation Tactic := intros; try reflexivity.

#[export] Program Instance SimDeviceLaws : ActionHostLaws Sim := {|
  stored w := map u8 (sim_stored w);
  effects := sim_effects;
  clock := sim_clock;
|}.
Next Obligation. apply map_u8_ok. Qed.
Next Obligation. cbn. unfold gets. cbn. by rewrite length_map. Qed.
Next Obligation.
  simpl. split; [done|]. rewrite length_take, length_map. intros Hn.
  apply take_ge. rewrite length_map. lia.
Qed.
Next Obligation. simpl. split_and!; [done|done|]. left. by apply map_u8_id. Qed.
Next Obligation. simpl. split_and!; [lia|done..]. Qed.

Definition exampleSteps : list Step :=
  [Reboot; Request exampleBody 200; Request exampleBody 200; Reboot; LostAfterEffect otherBody 200;
   Request messageBody 200].

(** The listening command is performed once, the message under the same identifier
    is refused. *)
Example example_performed :
  performedIn exampleSteps (globals0, mkSim [] 0 1704067240) = [exampleCommand].
Proof. vm_compute. reflexivity. Qed.

Lemma action_at_most_once_witness :
  NoDup (map commandParts (performedIn exampleSteps (globals0, mkSim [] 0 1704067240))).
Proof. exact (action_at_most_once exampleSteps (mkSim [] 0 1704067240)). Defined.
