(* ===== verification/ControlJson.v ===== *)
(** * Control frames of the BLE session

    The anonymous namespace of src/src/kitsu_ble_session.cpp: the parser of the
    flat objects of the handshake and of pairing, the schema tests and the
    writer of the answers.  A [cursor] is the list of the bytes not read yet. *)

From S2P Require Import Prelude CompanionText CompanionJson LengthFrame FlatJson Permissions.

Definition kMaximumControlFields : nat := 10.

Inductive FlatValueKind := FlatString | FlatUnsigned.

#[export] Instance FlatValueKind_eq_dec : EqDecision FlatValueKind.
Proof. solve_decision. Defined.

Record FlatField := mkFlat { key : Span; value : Span; kind : FlatValueKind }.

(** Keys are compared byte by byte; neither side may be escaped. *)
Definition sameSpan (left right : Span) : bool :=
  (length (span_data left) =? length (span_data right))%nat &&
  negb (span_escaped left) && negb (span_escaped right) &&
  beq (span_data left) (span_data right).

(** [while (cursor < bytes && json[cursor] >= '0' && json[cursor] <= '9')] *)
Fixpoint unsignedSpan (input : list Z) : list Z * list Z :=
  match input with
  | c :: rest =>
      if (48 <=? c) && (c <=? 57)
      then let '(digits, rest') := unsignedSpan rest in (c :: digits, rest')
      else ([], input)
  | [] => ([], [])
  end.

(** The value after the colon. *)
Definition parseFlatValue (input : list Z) : option (Span * FlatValueKind * list Z) :=
  if (0 <? length input)%nat && (byte_at input 0 =? 34) then
    '(v, rest) ← parseString input; Some (v, FlatString, rest)
  else
    let '(digits, rest) := unsignedSpan input in
    if (length digits =? 0)%nat || (1 <? length digits)%nat && (byte_at input 0 =? 48) then None
    else Some (mkSpan digits false, FlatUnsigned, rest).

(** The tests after the loop. *)
Definition flatEnd (fields : list FlatField) (input : list Z) : option (list FlatField) :=
  match skipWhitespace input with
  | [] => Some fields
  | _ :: _ => None
  end.

(** The loop over the members; [room] is what [fieldCount] leaves of
    [kMaximumControlFields]. *)
Fixpoint flatLoop (room : nat) (fields : list FlatField) (input : list Z)
  : option (list FlatField) :=
  match input with
  | [] => flatEnd fields input
  | _ :: _ =>
      match room with
      | O => None
      | S room' =>
          '(k, r1) ← parseString input;
          if span_escaped k || (length (span_data k) =? 0)%nat then None
          else if existsb (fun f => sameSpan (key f) k) fields then None
          else
            match skipWhitespace r1 with
            | [] => None
            | colon :: r2 =>
                if negb (colon =? 58) then None
                else
                  '(v, vk, r3) ← parseFlatValue (skipWhitespace r2);
                  let fields := fields ++ [mkFlat k v vk] in
                  match skipWhitespace r3 with
                  | [] => None
                  | c :: r4 =>
                      if c =? 125 then flatEnd fields r4
                      else if negb (c =? 44) then None
                      else flatLoop room' fields (skipWhitespace r4)
                  end
            end
      end
  end.

Definition parseFlatObject (json : list Z) : option (list FlatField) :=
  if (length json =? 0)%nat || (kMaximumHandshakeFrameBytes <? Z.of_nat (length json)) ||
     negb (validUtf8 json)
  then None
  else
    match skipWhitespace json with
    | [] => None
    | brace :: r1 =>
        if negb (brace =? 123) then None
        else
          let r2 := skipWhitespace r1 in
          if (0 <? length r2)%nat && (byte_at r2 0 =? 125) then None
          else flatLoop kMaximumControlFields [] r2
    end.

Definition findField (fields : list FlatField) (name : list Z) : option FlatField :=
  List.find (fun f => spanEquals (key f) name) fields.

Definition schemaMatches (fields : list FlatField) (names : list (list Z)) : bool :=
  (length fields =? length names)%nat &&
  forallb (fun name => match findField fields name with Some _ => true | None => false end) names.

Definition versionEquals (fields : list FlatField) (expected : Z) : bool :=
  match findField fields (bytes_of "v") with
  | Some version =>
      bool_decide (kind version = FlatUnsigned) && (length (span_data (value version)) =? 1)%nat &&
      (1 <=? expected) && (expected <=? 9) && (byte_at (span_data (value version)) 0 =? u8 (48 + expected))
  | None => false
  end.
Definition validVersion (fields : list FlatField) : bool := versionEquals fields 1.

Definition stringFieldEquals (fields : list FlatField) (fieldName expected : list Z) : bool :=
  match findField fields fieldName with
  | Some field => bool_decide (kind field = FlatString) && spanEquals (value field) expected
  | None => false
  end.

(** The bytes written when the call returns [true]. *)
Definition decodeExact (fields : list FlatField) (name : list Z) (expectedBytes : nat)
  : option (list Z) :=
  field ← findField fields name;
  if negb (bool_decide (kind field = FlatString)) || span_escaped (value field) then None
  else
    output ← decodeBase64Url (span_data (value field)) expectedBytes;
    if (length output =? expectedBytes)%nat then Some output else None.

Definition platformChar (c : Z) : bool :=
  (97 <=? c) && (c <=? 122) || (65 <=? c) && (c <=? 90) || (48 <=? c) && (c <=? 57) ||
  (c =? 46) || (c =? 95) || (c =? 45).
Definition validPlatform (v : Span) : bool :=
  if span_escaped v || (length (span_data v) =? 0)%nat || (16 <? length (span_data v))%nat
  then false else forallb platformChar (span_data v).

Definition validPairingRole (role : ControllerRole) : bool := (role =? Owner) || (role =? Caretaker).
Definition pairingVersionForRole (role : ControllerRole) : Z :=
  if role =? Owner then 1 else if role =? Caretaker then 2 else 0.

Definition validDeviceUid (uid : option (list Z)) : bool :=
  match uid with
  | None => false
  | Some uid =>
      (byte_at uid 0 =? 75) && (byte_at uid 1 =? 84) && (byte_at uid 6 =? 0) &&
      forallb (fun i => let c := byte_at uid i in
                 (48 <=? c) && (c <=? 57) || (65 <=? c) && (c <=? 70)) (seq 2 4)
  end.

Definition allZero (input : list Z) : bool := fold_left Z.lor input 0 =? 0.

(** ** The writer

    [class JsonWriter] over a buffer of [kMaximumHandshakeFrameBytes]: the text
    written so far, [None] once an append did not fit. *)

Definition JsonWriter : Type := option (list Z).
Definition writer0 : JsonWriter := Some [].
Definition token (text : list Z) (w : JsonWriter) : JsonWriter :=
  out ← w;
  if kMaximumHandshakeFrameBytes <? Z.of_nat (length out + length text) then None
  else Some (out ++ text).
Definition literal (text : string) : JsonWriter -> JsonWriter := token (js text).
Definition unsignedValue (v : Z) : JsonWriter -> JsonWriter := token (formatDecimal v).
Definition writeQuoted (text : list Z) (w : JsonWriter) : JsonWriter :=
  token [34] (token text (token [34] w)).
