(* ===== verification/ControlJsonFacts.v ===== *)
(** * The control frames read back what is written

    A reference printer of flat objects, and the parser of [ControlJson] on what it
    prints. *)

From S2P Require Import Prelude CompanionText CompanionJson LengthFrame FlatJson ControlJson.

(** ** The reference printer *)

(** A character that needs no escape. *)
Definition plainChar (c : Z) : Prop := 0x20 <= c <= 0x7e /\ c <> 34 /\ c <> 92.
Definition plain (l : list Z) : Prop := Forall plainChar l.
Definition isDigit (c : Z) : Prop := 48 <= c <= 57.
(** A canonical number. *)
Definition number (l : list Z) : Prop :=
  l <> [] /\ Forall isDigit l /\ ((1 < length l)%nat -> byte_at l 0 <> 48).

Definition quoted (l : list Z) : list Z := [34] ++ l ++ [34].
Definition printValue (f : FlatField) : list Z :=
  match kind f with FlatString => quoted (span_data (value f)) | FlatUnsigned => span_data (value f) end.
Definition printField (f : FlatField) : list Z := quoted (span_data (key f)) ++ [58] ++ printValue f.
Fixpoint printFields (fields : list FlatField) (last : Z) : list Z :=
  match fields with
  | [] => [last]
  | [f] => printField f ++ [last]
  | f :: rest => printField f ++ [44] ++ printFields rest last
  end.
(** [last] is the closing brace of a JSON object. *)
Definition printObject (fields : list FlatField) (last : Z) : list Z := [123] ++ printFields fields last.

Record fieldOk (f : FlatField) : Prop := {
  fo_key : plain (span_data (key f)) /\ span_data (key f) <> [] /\ span_escaped (key f) = false;
  fo_value : span_escaped (value f) = false /\
    match kind f with FlatString => plain (span_data (value f)) | FlatUnsigned => number (span_data (value f)) end;
}.

(** ** Tokens *)

Lemma plain_span l rest : plain l -> stringSpan (l ++ 34 :: rest) = Some (mkSpan l false, rest).
Proof.
  induction 1 as [|c l (Hc & Hq & Hb) Hl IH]; [done|]. cbn [app stringSpan].
  destruct (Z.eqb_spec c 34); [lia|]. destruct (Z.ltb_spec c 32); [lia|].
  destruct (Z.eqb_spec c 92); [lia|]. cbn [negb]. by rewrite IH.
Qed.
Lemma quoted_string l rest : plain l -> parseString (quoted l ++ rest) = Some (mkSpan l false, rest).
Proof. intros Hl. unfold quoted. rewrite <- !app_assoc. cbn. by apply plain_span. Qed.

(** Not a digit, so that a number ends before it. *)
Definition afterNumber (c : Z) : Prop := c = 44 \/ c = 125.

Lemma number_span l c rest : Forall isDigit l -> afterNumber c ->
  unsignedSpan (l ++ c :: rest) = (l, c :: rest).
Proof.
  intros Hl Hc. induction Hl as [|x l Hx Hl IH]; cbn [app unsignedSpan].
  - by destruct Hc as [-> | ->].
  - unfold isDigit in Hx. destruct (Z.leb_spec 48 x); [|lia]. destruct (Z.leb_spec x 57); [|lia].
    cbn [andb]. by rewrite IH.
Qed.

Lemma span_eta (s : Span) : span_escaped s = false -> mkSpan (span_data s) false = s.
Proof. destruct s. cbn. by intros ->. Qed.

Lemma value_parsed f c rest : fieldOk f -> afterNumber c ->
  parseFlatValue (printValue f ++ c :: rest) = Some (value f, kind f, c :: rest).
Proof.
  intros [_ [He Hv]] Hc. unfold parseFlatValue, printValue. destruct (kind f).
  - assert (E34 : (byte_at (quoted (span_data (value f)) ++ c :: rest) 0 =? 34) = true) by done.
    rewrite E34. rewrite quoted_string by done. cbn. by rewrite span_eta.
  - destruct Hv as (Hne & Hd & Hcan). destruct (span_data (value f)) as [|x l] eqn:El; [done|].
    inversion Hd as [|? ? Hx Hl]. unfold isDigit in Hx.
    assert (E34 : (byte_at ((x :: l) ++ c :: rest) 0 =? 34) = false) by (apply Z.eqb_neq; cbn; lia).
    rewrite E34, andb_false_r, number_span by done. cbn [length Nat.eqb orb].
    assert (E48 : (1 <? S (length l))%nat && (byte_at ((x :: l) ++ c :: rest) 0 =? 48) = false).
    { destruct (Nat.ltb_spec 1 (S (length l))); [|done]. cbn. apply Z.eqb_neq. by apply Hcan. }
    rewrite E48, <- El. by rewrite span_eta.
Qed.

(** The tokens begin with a character that is not white space. *)
Lemma skip_solid c rest : c <> 32 -> c <> 9 -> c <> 13 -> c <> 10 -> skipWhitespace (c :: rest) = c :: rest.
Proof.
  intros H1 H2 H3 H4. unfold skipWhitespace. cbn. unfold isWhitespace.
  repeat match goal with |- context [c =? ?k] => destruct (Z.eqb_spec c k); [done|] end. done.
Qed.
Lemma printValue_solid f rest : fieldOk f ->
  skipWhitespace (printValue f ++ rest) = printValue f ++ rest.
Proof.
  intros [_ [_ Hv]]. unfold printValue. destruct (kind f); [by apply skip_solid|].
  destruct Hv as (Hne & Hd & _). destruct (span_data (value f)) as [|x l]; [done|].
  inversion Hd as [|? ? Hx Hl]. unfold isDigit in Hx. cbn. apply skip_solid; lia.
Qed.

(** ** Objects *)

Lemma beq_span_neq (a b : FlatField) : span_data (key a) <> span_data (key b) -> sameSpan (key a) (key b) = false.
Proof.
  intros Hne. unfold sameSpan. apply beq_neq in Hne. by rewrite Hne, andb_false_r.
Qed.
Lemma new_key f fields : Forall (fun g => span_data (key g) <> span_data (key f)) fields ->
  existsb (fun g => sameSpan (key g) (key f)) fields = false.
Proof.
  induction 1 as [|g fields Hg Hf IH]; [done|]. cbn. by rewrite beq_span_neq, IH.
Qed.

(** What the loop does after a member: the end, or the next member. *)
Definition afterMember (room : nat) (fields : list FlatField) (c : Z) (rest : list Z) : option (list FlatField) :=
  if c =? 125 then flatEnd fields rest
  else if negb (c =? 44) then None else flatLoop room fields (skipWhitespace rest).

Lemma member_parsed room fields f c rest : fieldOk f -> afterNumber c ->
  Forall (fun g => span_data (key g) <> span_data (key f)) fields ->
  flatLoop (S room) fields (printField f ++ c :: rest) = afterMember room (fields ++ [f]) c rest.
Proof.
  intros Hf Hc Hnew. pose proof (fo_key f Hf) as (Hk & Hne & He).
  unfold printField. rewrite <- !app_assoc. cbn [app].
  assert (Eq : forall l, exists t, quoted (span_data (key f)) ++ l = 34 :: t) by (intros l; by eexists).
  destruct (Eq (58 :: printValue f ++ c :: rest)) as [t Et]. cbn [flatLoop]. rewrite Et. rewrite <- Et.
  rewrite quoted_string by done. cbn [mbind option_bind span_escaped span_data orb].
  destruct (Nat.eqb_spec (length (span_data (key f))) 0) as [E0|_]; [by apply length_zero_iff_nil in E0|].
  rewrite (span_eta (key f)) by done. rewrite new_key by done.
  rewrite skip_solid by done. cbn [Z.eqb Pos.eqb negb].
  change (58 =? 58) with true. cbn [negb]. rewrite printValue_solid, value_parsed by done.
  assert (Es : skipWhitespace (c :: rest) = c :: rest) by (destruct Hc as [-> | ->]; by apply skip_solid).
  cbn [mbind option_bind]. rewrite Es. unfold afterMember.
  by replace (mkFlat (key f) (value f) (kind f)) with f by (by destruct f).
Qed.

Lemma printField_solid f rest : skipWhitespace (printField f ++ rest) = printField f ++ rest.
Proof. by apply skip_solid. Qed.

(** The members are read one after another, up to a last byte that is a closing
    brace or a comma. *)
Lemma members_parsed fields : forall room before last, fields <> [] -> (length fields <= room)%nat ->
  Forall fieldOk fields -> NoDup (map (fun f => span_data (key f)) (before ++ fields)) -> afterNumber last ->
  flatLoop room before (printFields fields last) = Some (before ++ fields).
Proof.
  induction fields as [|f fields IH]; intros room before last Hne Hroom Hok Hnd Hlast; [done|].
  inversion Hok as [|? ? Hf Hfs]. destruct room as [|room]; [cbn in Hroom; lia|].
  assert (Hnew : Forall (fun g => span_data (key g) <> span_data (key f)) before).
  { apply List.Forall_forall. intros g Hg Heq. rewrite map_app in Hnd. apply NoDup_app in Hnd as (_ & Hd & _).
    apply (Hd (span_data (key g))); [apply list_elem_of_In; by apply (in_map (fun f => span_data (key f)))|]. rewrite Heq. by left. }
  destruct fields as [|g fields].
  - change (printFields [f] last) with (printField f ++ [last]). rewrite member_parsed by done.
    unfold afterMember. destruct Hlast as [-> | ->]; [|done]. cbn. by destruct room.
  - change (printFields (f :: g :: fields) last) with (printField f ++ 44 :: printFields (g :: fields) last).
    rewrite member_parsed by (try done; by left). unfold afterMember.
    assert (Hs : skipWhitespace (printFields (g :: fields) last) = printFields (g :: fields) last)
      by (destruct fields; apply printField_solid).
    change (44 =? 125) with false. change (44 =? 44) with true. cbn [negb]. rewrite Hs.
    rewrite IH; [by rewrite <- app_assoc|done|cbn in *; lia|done| |done].
    by rewrite <- app_assoc.
Qed.

(** *** ASCII text is valid *)

Definition ascii (l : list Z) : Prop := Forall (fun c => 0 < c <= 0x7f) l.
Lemma ascii_valid l : ascii l -> forall f, (length l <= f)%nat -> validUtf8Loop f l = true.
Proof.
  induction 1 as [|c l Hc Hl IH]; intros f Hf; [by destruct f|]. destruct f as [|f]; [cbn in Hf; lia|].
  cbn [validUtf8Loop]. destruct (Z.leb_spec c 127); [|lia]. destruct (Z.eqb_spec c 0); [lia|].
  apply IH. cbn in Hf. lia.
Qed.
Lemma plain_ascii l : plain l -> ascii l.
Proof. apply List.Forall_impl. intros c Hc. unfold plainChar in Hc. lia. Qed.
Lemma digits_ascii l : Forall isDigit l -> ascii l.
Proof. apply List.Forall_impl. intros c Hc. unfold isDigit in Hc. lia. Qed.
Lemma ascii_app a b : ascii a -> ascii b -> ascii (a ++ b).
Proof. apply Forall_app_2. Qed.
Lemma ascii_one c : 0 < c <= 0x7f -> ascii [c].
Proof. intros Hc. by apply Forall_singleton. Qed.

Lemma field_ascii f : fieldOk f -> ascii (printField f).
Proof.
  intros [(Hk & _ & _) [_ Hv]]. unfold printField, printValue, quoted.
  repeat (apply ascii_app); try (by apply ascii_one); [by apply plain_ascii|].
  destruct (kind f); [|by apply digits_ascii; apply Hv].
  repeat (apply ascii_app); try (by apply ascii_one). by apply plain_ascii.
Qed.
Lemma fields_ascii fields last : Forall fieldOk fields -> 0 < last <= 0x7f -> ascii (printFields fields last).
Proof.
  intros Hok Hl. induction Hok as [|f fields Hf Hfs IH]; [by apply ascii_one|].
  destruct fields as [|g fields].
  - apply ascii_app; [by apply field_ascii|by apply ascii_one].
  - change (printFields (f :: g :: fields) last) with (printField f ++ [44] ++ printFields (g :: fields) last).
    apply ascii_app; [by apply field_ascii|]. apply ascii_app; [by apply ascii_one|done].
Qed.


(** A client hello, as the phone prints it and cut short. *)
Definition textField (name text : list Z) : FlatField := mkFlat (mkSpan name false) (mkSpan text false) FlatString.
Definition helloFields : list FlatField :=
  [mkFlat (mkSpan (bytes_of "v") false) (mkSpan (bytes_of "1") false) FlatUnsigned;
   textField (bytes_of "type") (bytes_of "client_hello");
   textField (bytes_of "controller_id_b64") (bytes_of "AwMDAwMDAwMDAwMDAwMDAw");
   textField (bytes_of "client_nonce_b64") (bytes_of "TU1NTU1NTU1NTU1NTU1NTQ")].

