(* ===== verification/BleSession.v ===== *)
(** * The BLE application session (class KitsuBleSession)

    src/src/kitsu_ble_session.h, .cpp: handshake, pairing, authenticated requests
    and the closing of the link.  The members are grouped: the four link flags,
    the pairing window, the members [clearSessionSecrets] resets, those
    [clearPendingPairing] resets, the scheduled disconnection.  A cleared buffer
    is zero.  The scratch buffers are written before each use and not kept.  The
    transport queues what it is given and the delegate answers a request; neither
    calls the session back nor changes the controller table. *)

From S2P Require Import Prelude CompanionText LengthFrame FlatJson CompanionProtocol Permissions BleAction DeviceSecurity ControlJson.

Open Scope kitsu_scope.

Definition kBleHandshakeTotalTimeoutMs : Z := 10000.
Definition kBleControllerBackoffMs : Z := 30000.
Definition kBleMaximumProofFailures : Z := 3.
Definition kCloseDelayMs : Z := 250.
Definition kTransmitDrainTimeoutMs : Z := 2000.
(** [static_cast<ControllerRole>(0xFFU)] *)
Definition noRole : ControllerRole := 0xff.

Inductive BleSessionState := Disconnected | AwaitingHello | AwaitingClientAuth | Authenticated
  | PairingAwaitingPhysical | PairingAwaitingCommit | Closing | Backoff.

(** [enum class BleCloseCause] of kitsu_ble_gatt.h. *)
Inductive BleCloseCause := CauseNone | RemoteUserTerminated | SupervisionTimeout | CauseUnknown
  | LinkRejected | FrameTimedOut | ProtocolViolation | TransportFailure | SecureLinkRejected
  | HandshakeTimeout | AuthenticationFailed | SessionProtocolViolation | ResponseSendFailed
  | PairingFailed | PairingTimeout | ControllerForget | AuthenticationBackoff
  | ApplicationRequest | ControllerRecovery.

#[export] Instance BleSessionState_eq_dec : EqDecision BleSessionState.
Proof. solve_decision. Defined.
#[export] Instance BleCloseCause_eq_dec : EqDecision BleCloseCause.
Proof. solve_decision. Defined.

(** [class BleSessionTransport] and [class BleOperationDelegate]; [None] is a
    request the delegate did not handle, and a response is at most the capacity
    it is given or counts as none. *)
Class BleSessionTransport (W : Type) := {
  sendBleJson : list Z -> M W bool;
  setBleApplicationAuthenticated : bool -> M W bool;
  bleTransmitIdle : M W bool;
  disconnectBle : BleCloseCause -> M W unit;
}.
Class BleOperationDelegate (W : Type) := {
  handleAuthorizedBleRequest :
    ControllerRole -> DecodedEnvelope -> list Z -> nat -> M W (option (list Z));
}.

(** ** Members *)

Record Link := mkLink {
  secureConnections : bool;
  linkEncrypted : bool;
  linkAuthenticated : bool;
  linkBonded : bool;
}.
Definition noLink : Link := mkLink false false false false.
Definition secureLink (l : Link) : bool :=
  secureConnections l && linkEncrypted l && linkAuthenticated l && linkBonded l.

Record Window := mkWindow {
  pairingWindowOpen : bool;
  pairingWindowRole : ControllerRole;
  pairingWindowDeadline : Z;
}.
Definition noWindow : Window := mkWindow false noRole 0.

Record Secrets := mkSecrets {
  controllerId : list Z;
  controllerRoot : list Z;
  clientNonce : list Z;
  deviceNonce : list Z;
  clientToDeviceKey : list Z;
  deviceToClientKey : list Z;
  controllerKnown : bool;
  controllerRole : ControllerRole;
  authenticatedRequestBarrier : bool;
  expectedClientSequence : Z;
  nextDeviceSequence : Z;
}.
Definition noSecrets : Secrets :=
  mkSecrets (replicate 16 0) (replicate 32 0) (replicate 16 0) (replicate 16 0) (replicate 32 0)
    (replicate 32 0) false noRole false 1 1.

Record Pending := mkPending {
  pendingControllerId : list Z;
  pendingControllerRoot : list Z;
  pendingClientNonce : list Z;
  pendingDeviceNonce : list Z;
  pendingPairingRole : ControllerRole;
  pendingPairingVersion : Z;
}.
Definition noPending : Pending :=
  mkPending (replicate 16 0) (replicate 32 0) (replicate 16 0) (replicate 16 0) noRole 0.

Record Close := mkClose {
  closeAt : Z;
  closeAfterTransmit : bool;
  pendingCloseCause : BleCloseCause;
}.
Definition noClose : Close := mkClose 0 false CauseNone.

Record Session := mkSession {
  deviceUid : list Z;
  state : BleSessionState;
  begun_ : bool;
  link : Link;
  window : Window;
  secrets : Secrets;
  pending : Pending;
  close : Close;
  proofFailures : Z;
  stateDeadline : Z;
  backoffUntil : Z;
  pairingCompleted : bool;
  completedPairingRole : ControllerRole;
}.
(** The members of a new object. *)
Definition session0 : Session :=
  mkSession (replicate 7 0) Disconnected false noLink noWindow noSecrets noPending noClose
    0 0 0 false noRole.

Definition set_state (v : BleSessionState) (s : Session) : Session :=
  mkSession (deviceUid s) v (begun_ s) (link s) (window s) (secrets s) (pending s) (close s)
    (proofFailures s) (stateDeadline s) (backoffUntil s) (pairingCompleted s) (completedPairingRole s).
Definition set_begun (uid : list Z) (s : Session) : Session :=
  mkSession uid Disconnected true (link s) (window s) (secrets s) (pending s) (close s)
    (proofFailures s) (stateDeadline s) (backoffUntil s) (pairingCompleted s) (completedPairingRole s).
Definition set_link (v : Link) (s : Session) : Session :=
  mkSession (deviceUid s) (state s) (begun_ s) v (window s) (secrets s) (pending s) (close s)
    (proofFailures s) (stateDeadline s) (backoffUntil s) (pairingCompleted s) (completedPairingRole s).
Definition set_window (v : Window) (s : Session) : Session :=
  mkSession (deviceUid s) (state s) (begun_ s) (link s) v (secrets s) (pending s) (close s)
    (proofFailures s) (stateDeadline s) (backoffUntil s) (pairingCompleted s) (completedPairingRole s).
Definition on_secrets (f : Secrets -> Secrets) (s : Session) : Session :=
  mkSession (deviceUid s) (state s) (begun_ s) (link s) (window s) (f (secrets s)) (pending s) (close s)
    (proofFailures s) (stateDeadline s) (backoffUntil s) (pairingCompleted s) (completedPairingRole s).
Definition on_pending (f : Pending -> Pending) (s : Session) : Session :=
  mkSession (deviceUid s) (state s) (begun_ s) (link s) (window s) (secrets s) (f (pending s)) (close s)
    (proofFailures s) (stateDeadline s) (backoffUntil s) (pairingCompleted s) (completedPairingRole s).
Definition on_close (f : Close -> Close) (s : Session) : Session :=
  mkSession (deviceUid s) (state s) (begun_ s) (link s) (window s) (secrets s) (pending s) (f (close s))
    (proofFailures s) (stateDeadline s) (backoffUntil s) (pairingCompleted s) (completedPairingRole s).
Definition set_proofFailures (v : Z) (s : Session) : Session :=
  mkSession (deviceUid s) (state s) (begun_ s) (link s) (window s) (secrets s) (pending s) (close s)
    v (stateDeadline s) (backoffUntil s) (pairingCompleted s) (completedPairingRole s).
Definition set_stateDeadline (v : Z) (s : Session) : Session :=
  mkSession (deviceUid s) (state s) (begun_ s) (link s) (window s) (secrets s) (pending s) (close s)
    (proofFailures s) v (backoffUntil s) (pairingCompleted s) (completedPairingRole s).
Definition set_backoffUntil (v : Z) (s : Session) : Session :=
  mkSession (deviceUid s) (state s) (begun_ s) (link s) (window s) (secrets s) (pending s) (close s)
    (proofFailures s) (stateDeadline s) v (pairingCompleted s) (completedPairingRole s).
Definition set_completed (v : bool) (role : ControllerRole) (s : Session) : Session :=
  mkSession (deviceUid s) (state s) (begun_ s) (link s) (window s) (secrets s) (pending s) (close s)
    (proofFailures s) (stateDeadline s) (backoffUntil s) v role.

(** Assignments inside the groups. *)
Definition with_controllerId (v : list Z) (x : Secrets) : Secrets :=
  mkSecrets v (controllerRoot x) (clientNonce x) (deviceNonce x) (clientToDeviceKey x)
    (deviceToClientKey x) (controllerKnown x) (controllerRole x) (authenticatedRequestBarrier x)
    (expectedClientSequence x) (nextDeviceSequence x).
Definition with_root (v : list Z) (x : Secrets) : Secrets :=
  mkSecrets (controllerId x) v (clientNonce x) (deviceNonce x) (clientToDeviceKey x)
    (deviceToClientKey x) (controllerKnown x) (controllerRole x) (authenticatedRequestBarrier x)
    (expectedClientSequence x) (nextDeviceSequence x).
Definition with_clientNonce (v : list Z) (x : Secrets) : Secrets :=
  mkSecrets (controllerId x) (controllerRoot x) v (deviceNonce x) (clientToDeviceKey x)
    (deviceToClientKey x) (controllerKnown x) (controllerRole x) (authenticatedRequestBarrier x)
    (expectedClientSequence x) (nextDeviceSequence x).
Definition with_deviceNonce (v : list Z) (x : Secrets) : Secrets :=
  mkSecrets (controllerId x) (controllerRoot x) (clientNonce x) v (clientToDeviceKey x)
    (deviceToClientKey x) (controllerKnown x) (controllerRole x) (authenticatedRequestBarrier x)
    (expectedClientSequence x) (nextDeviceSequence x).
Definition with_keys (c2d d2c : list Z) (x : Secrets) : Secrets :=
  mkSecrets (controllerId x) (controllerRoot x) (clientNonce x) (deviceNonce x) c2d d2c
    (controllerKnown x) (controllerRole x) (authenticatedRequestBarrier x)
    (expectedClientSequence x) (nextDeviceSequence x).
Definition with_known (known : bool) (role : ControllerRole) (x : Secrets) : Secrets :=
  mkSecrets (controllerId x) (controllerRoot x) (clientNonce x) (deviceNonce x) (clientToDeviceKey x)
    (deviceToClientKey x) known role (authenticatedRequestBarrier x)
    (expectedClientSequence x) (nextDeviceSequence x).
Definition with_barrier (v : bool) (x : Secrets) : Secrets :=
  mkSecrets (controllerId x) (controllerRoot x) (clientNonce x) (deviceNonce x) (clientToDeviceKey x)
    (deviceToClientKey x) (controllerKnown x) (controllerRole x) v
    (expectedClientSequence x) (nextDeviceSequence x).
Definition with_sequences (client device : Z) (x : Secrets) : Secrets :=
  mkSecrets (controllerId x) (controllerRoot x) (clientNonce x) (deviceNonce x) (clientToDeviceKey x)
    (deviceToClientKey x) (controllerKnown x) (controllerRole x) (authenticatedRequestBarrier x)
    client device.
Definition with_pendingId (v : list Z) (x : Pending) : Pending :=
  mkPending v (pendingControllerRoot x) (pendingClientNonce x) (pendingDeviceNonce x)
    (pendingPairingRole x) (pendingPairingVersion x).
Definition with_pendingRoot (v : list Z) (x : Pending) : Pending :=
  mkPending (pendingControllerId x) v (pendingClientNonce x) (pendingDeviceNonce x)
    (pendingPairingRole x) (pendingPairingVersion x).
Definition with_pendingClientNonce (v : list Z) (x : Pending) : Pending :=
  mkPending (pendingControllerId x) (pendingControllerRoot x) v (pendingDeviceNonce x)
    (pendingPairingRole x) (pendingPairingVersion x).
Definition with_pendingDeviceNonce (v : list Z) (x : Pending) : Pending :=
  mkPending (pendingControllerId x) (pendingControllerRoot x) (pendingClientNonce x) v
    (pendingPairingRole x) (pendingPairingVersion x).
Definition with_pendingRole (role : ControllerRole) (version : Z) (x : Pending) : Pending :=
  mkPending (pendingControllerId x) (pendingControllerRoot x) (pendingClientNonce x)
    (pendingDeviceNonce x) role version.

Definition closeIn (at_ : Z) (afterTransmit : bool) (cause : BleCloseCause) (_ : Close) : Close :=
  mkClose at_ afterTransmit cause.

(** The content of a C string as text. *)
Definition text (s : list Z) : string :=
  String.string_of_list_ascii (map (fun b => Ascii.ascii_of_N (Z.to_N b)) s).

Section BleSession.
Context {W : Type} `{SecurityPlatform W} `{CompanionCrypto W} `{BleSessionTransport W}
  `{BleOperationDelegate W}.

(** The members, the device security object and the world. *)
Definition Sx : Type := (Session * (Sec * W))%type.

Definition me {A} (f : Session -> A) : M Sx A := gets (fun s => f (fst s)).
Definition set (f : Session -> Session) : M Sx unit := modify (fun s => (f (fst s), snd s)).
Definition security {A} (m : M (Sec * W) A) : M Sx A :=
  fun s => let '(a, d) := m (snd s) in (a, (fst s, d)).
Definition world {A} (m : M W A) : M Sx A :=
  fun s => let '(a, w) := m (snd (snd s)) in (a, (fst s, (fst (snd s), w))).

Definition begin (uid : option (list Z)) : M Sx bool :=
  started <- me begun_ ;;
  isReady <- security (self ready) ;;
  if negb isReady || negb (validDeviceUid uid) || started then ret false
  else set (set_begun (take 7 (default [] uid))) ;;; ret true.

Definition clearSessionSecrets : M Sx unit := set (on_secrets (fun _ => noSecrets)).
Definition clearPendingPairing : M Sx unit := set (on_pending (fun _ => noPending)).

Definition resetForSecureLink (nowMillis : Z) : M Sx unit :=
  clearSessionSecrets ;;;
  clearPendingPairing ;;;
  world (setBleApplicationAuthenticated false) ;;;
  set (set_state AwaitingHello) ;;;
  set (set_stateDeadline (u32 (nowMillis + kBleHandshakeTotalTimeoutMs))) ;;;
  set (on_close (closeIn 0 false CauseNone)).

(** ** Failing *)

Definition sendControlError (code : string) : M Sx bool :=
  let w := literal "{'v':1,'type':'error','code':" writer0 in
  let w := writeQuoted (bytes_of code) w in
  match literal "}" w with
  | Some json => world (sendBleJson json)
  | None => ret false
  end.

Definition failAndClose (nowMillis : Z) (cause : BleCloseCause) : M Sx unit :=
  clearPendingPairing ;;;
  clearSessionSecrets ;;;
  world (setBleApplicationAuthenticated false) ;;;
  set (on_close (fun c =>
    mkClose (closeAt c) (closeAfterTransmit c)
      (if bool_decide (pendingCloseCause c = CauseNone)
       then (if bool_decide (cause = CauseNone) then ApplicationRequest else cause)
       else pendingCloseCause c))) ;;;
  set (set_state Closing) ;;;
  set (on_close (fun c => mkClose (u32 (nowMillis + kCloseDelayMs)) false (pendingCloseCause c))).

Definition failProof (nowMillis : Z) : M Sx unit :=
  clearPendingPairing ;;;
  clearSessionSecrets ;;;
  world (setBleApplicationAuthenticated false) ;;;
  failures <- me proofFailures ;;
  when (failures <? 0xff) (set (set_proofFailures (failures + 1))) ;;;
  sendControlError "auth_failed" ;;;
  failures <- me proofFailures ;;
  if kBleMaximumProofFailures <=? failures then
    set (set_backoffUntil (u32 (nowMillis + kBleControllerBackoffMs))) ;;;
    set (set_state Closing) ;;;
    set (on_close (closeIn (u32 (nowMillis + kCloseDelayMs)) false AuthenticationFailed))
  else set (set_state AwaitingHello).

(** ** The link *)

Definition onSecureLinkEstablished (l : Link) (nowMillis : Z) : M Sx unit :=
  started <- me begun_ ;;
  if negb started then ret tt
  else
    set (set_link l) ;;;
    if negb (secureLink l) then failAndClose nowMillis SecureLinkRejected
    else
      until <- me backoffUntil ;;
      if negb (until =? 0) && negb (deadlineReached nowMillis until) then
        set (set_state Backoff) ;;;
        world (disconnectBle AuthenticationBackoff)
      else
        set (set_backoffUntil 0) ;;;
        resetForSecureLink nowMillis.

(** An expired window closes. *)
Definition expireWindow (nowMillis : Z) : M Sx unit :=
  win <- me window ;;
  when (pairingWindowOpen win && deadlineReached nowMillis (pairingWindowDeadline win))
    (set (set_window noWindow)).

Definition onLinkClosed (nowMillis : Z) : M Sx unit :=
  started <- me begun_ ;;
  if negb started then ret tt
  else
    clearPendingPairing ;;;
    clearSessionSecrets ;;;
    set (set_link noLink) ;;;
    expireWindow nowMillis ;;;
    set (set_stateDeadline 0) ;;;
    set (on_close (closeIn 0 false CauseNone)) ;;;
    until <- me backoffUntil ;;
    set (set_state (if until =? 0 then Disconnected else Backoff)).

Definition isPairing (s : BleSessionState) : bool :=
  bool_decide (s = PairingAwaitingPhysical) || bool_decide (s = PairingAwaitingCommit).

Definition setPairingWindow (open : bool) (remainingMs nowMillis : Z) (role : ControllerRole)
  : M Sx unit :=
  started <- me begun_ ;;
  if negb started then ret tt
  else
    let requestedOpen := open && validPairingRole role && negb (remainingMs =? 0) &&
                         (remainingMs <=? 60000) in
    st <- me state ;;
    when (isPairing st) (clearPendingPairing ;;; set (set_state AwaitingHello)) ;;;
    set (set_window (mkWindow requestedOpen (if requestedOpen then role else noRole)
                       (if requestedOpen then u32 (nowMillis + remainingMs) else 0))) ;;;
    set (set_completed false noRole).

(** ** The handshake *)

(** A frame the transport is given when the writer did not overflow. *)
Definition sendWriter (w : JsonWriter) : M Sx bool :=
  match w with Some json => world (sendBleJson json) | None => ret false end.

(** [encodeB64] into a buffer that holds [chars] characters and the NUL of the
    zero-initialised array, with the check of the length. *)
Definition encodeB64 (input : list Z) (chars : nat) : option (list Z) :=
  output ← encodeBase64Url input (S chars);
  if (length output =? chars)%nat then Some output else None.

(** The answer of [handleClientHello]. *)
Definition deviceHello (nonceB64 proofB64 : list Z) : JsonWriter :=
  let w := literal "{'v':1,'type':'device_hello','device_nonce_b64':" writer0 in
  let w := writeQuoted nonceB64 w in
  let w := literal ",'proof_b64':" w in
  let w := writeQuoted proofB64 w in
  literal "}" w.

(** [findControllerRoot] into the members, then a random root for a controller that
    is not known. *)
Definition loadRoot : M Sx bool :=
  x <- me secrets ;;
  found <- security (self (fun d => findControllerRoot d (Some (controllerId x)) true)) ;;
  match found with
  | Some (root, role) => set (on_secrets (fun x => with_known true role (with_root root x))) ;;; ret true
  | None =>
      set (on_secrets (fun x => with_known false noRole (with_root (replicate 32 0) x))) ;;;
      root <- world (ccRandomBytes 32) ;;
      match root with
      | Some root => set (on_secrets (with_root root)) ;;; ret true
      | None => ret false
      end
  end.

(** From the lookup of the controller on. *)
Definition answerHello : M Sx bool :=
  rooted <- loadRoot ;;
  if negb rooted then ret false
  else
    nonce <- world (ccRandomBytes 16) ;;
    match nonce with
    | None => ret false
    | Some nonce =>
        set (on_secrets (with_deviceNonce nonce)) ;;;
        x <- me secrets ;;
        proof <- world (makeHandshakeProof (controllerRoot x) "device" (controllerId x)
                          (clientNonce x) (deviceNonce x)) ;;
        match proof with
        | inl _ => ret false
        | inr proof =>
            match encodeB64 (deviceNonce x) 22, encodeB64 proof 43 with
            | Some nonceB64, Some proofB64 =>
                sent <- sendWriter (deviceHello nonceB64 proofB64) ;;
                if negb sent then ret false
                else set (set_state AwaitingClientAuth) ;;; ret true
            | _, _ => ret false
            end
        end
    end.

Definition names (l : list string) : list (list Z) := map bytes_of l.

Definition handleClientHello (json : list Z) : M Sx bool :=
  match parseFlatObject json with
  | None => ret false
  | Some fields =>
      if negb (schemaMatches fields (names ["v"; "type"; "controller_id_b64"; "client_nonce_b64"])) ||
         negb (validVersion fields) ||
         negb (stringFieldEquals fields (bytes_of "type") (bytes_of "client_hello"))
      then ret false
      else
        match decodeExact fields (bytes_of "controller_id_b64") 16 with
        | None => ret false
        | Some id =>
            set (on_secrets (with_controllerId id)) ;;;
            match decodeExact fields (bytes_of "client_nonce_b64") 16 with
            | None => ret false
            | Some nonce =>
                set (on_secrets (with_clientNonce nonce)) ;;;
                if allZero id then ret false else answerHello
            end
        end
  end.

Definition deviceOk (proofB64 : list Z) : JsonWriter :=
  let w := literal "{'v':1,'type':'device_ok','proof_b64':" writer0 in
  let w := writeQuoted proofB64 w in
  literal "}" w.

(** The proof a [client_auth] frame carries. *)
Definition suppliedProof (json : list Z) : option (list Z) :=
  fields ← parseFlatObject json;
  if negb (schemaMatches fields (names ["v"; "type"; "proof_b64"])) || negb (validVersion fields) ||
     negb (stringFieldEquals fields (bytes_of "type") (bytes_of "client_auth"))
  then None
  else decodeExact fields (bytes_of "proof_b64") 32.

(** From [setBleApplicationAuthenticated(true)] on. *)
Definition enterAuthenticated (proofB64 : list Z) : M Sx bool :=
  allowed <- world (setBleApplicationAuthenticated true) ;;
  if negb allowed then ret false
  else
    sent <- sendWriter (deviceOk proofB64) ;;
    if negb sent then world (setBleApplicationAuthenticated false) ;;; ret false
    else
      set (on_secrets (with_root (replicate 32 0))) ;;;
      set (set_proofFailures 0) ;;;
      set (on_secrets (with_sequences 1 1)) ;;;
      set (set_stateDeadline 0) ;;;
      set (set_state Authenticated) ;;;
      ret true.

Definition handleClientAuth (json : list Z) : M Sx bool :=
  match suppliedProof json with
  | None => ret false
  | Some supplied =>
      x <- me secrets ;;
      expected <- world (makeHandshakeProof (controllerRoot x) "client" (controllerId x)
                           (clientNonce x) (deviceNonce x)) ;;
      let valid := match expected with
                   | inr expected => controllerKnown x && constantTimeEqual expected supplied 32
                   | inl _ => false
                   end in
      if negb valid then ret false
      else
        keys <- world (deriveBleSessionKeys (controllerRoot x) (clientNonce x) (deviceNonce x)) ;;
        match keys with
        | inl _ => ret false
        | inr (c2d, d2c) =>
            set (on_secrets (with_keys c2d d2c)) ;;;
            ok <- world (makeHandshakeProof (controllerRoot x) "ok" (controllerId x)
                           (clientNonce x) (deviceNonce x)) ;;
            match ok with
            | inl _ => ret false
            | inr ok =>
                match encodeB64 ok 43 with
                | None => ret false
                | Some proofB64 => enterAuthenticated proofB64
                end
            end
        end
  end.

(** ** Pairing *)

Definition pairPending (version : Z) (nonceB64 : list Z) (remaining : Z) : JsonWriter :=
  let w := literal (if version =? 1 then "{'v':1,'type':'pair_pending','device_nonce_b64':"
             else "{'v':2,'type':'pair_pending','role':'caretaker','device_nonce_b64':") writer0 in
  let w := writeQuoted nonceB64 w in
  let w := literal ",'expires_in_ms':" w in
  let w := unsignedValue (if 60000 <? remaining then 60000 else remaining) w in
  literal "}" w.

(** From the test of the window on. *)
Definition answerPairRequest (requestVersion : Z) (nowMillis : Z) : M Sx bool :=
  win <- me window ;;
  if negb (pairingWindowOpen win) || deadlineReached nowMillis (pairingWindowDeadline win) then
    clearPendingPairing ;;; sendControlError "pairing_closed" ;;; ret true
  else if negb (requestVersion =? pairingVersionForRole (pairingWindowRole win)) then ret false
  else
    count <- security (self (fun d => controllerCount (status d))) ;;
    if Z.of_nat kKitsuControllerCapacity <=? count then
      clearPendingPairing ;;; sendControlError "controller_full" ;;; ret true
    else
      nonce <- world (ccRandomBytes 16) ;;
      match nonce with
      | None => ret false
      | Some nonce =>
          set (on_pending (with_pendingDeviceNonce nonce)) ;;;
          set (on_pending (with_pendingRole (pairingWindowRole win) requestVersion)) ;;;
          set (set_completed false noRole) ;;;
          match encodeB64 nonce 22 with
          | None => ret false
          | Some nonceB64 =>
              sent <- sendWriter (pairPending requestVersion nonceB64
                        (u32 (pairingWindowDeadline win - nowMillis))) ;;
              if negb sent then ret false
              else
                set (set_state PairingAwaitingPhysical) ;;;
                set (set_stateDeadline (pairingWindowDeadline win)) ;;;
                ret true
          end
      end.

(** The tests of the label and of the platform. *)
Definition pairRequestText (fields : list FlatField) : bool :=
  match findField fields (bytes_of "label"), findField fields (bytes_of "platform") with
  | Some label, Some platform =>
      bool_decide (ControlJson.kind label = FlatString) &&
      negb (length (span_data (value label)) =? 0)%nat &&
      (length (span_data (value label)) <=? 96)%nat &&
      bool_decide (ControlJson.kind platform = FlatString) && validPlatform (value platform)
  | _, _ => false
  end.

Definition handlePairRequest (json : list Z) (nowMillis : Z) : M Sx bool :=
  match parseFlatObject json with
  | None => ret false
  | Some fields =>
      if negb (schemaMatches fields (names ["v"; "type"; "client_nonce_b64"; "label"; "platform"])) ||
         negb (versionEquals fields 1) && negb (versionEquals fields 2) ||
         negb (stringFieldEquals fields (bytes_of "type") (bytes_of "pair_request"))
      then ret false
      else
        match decodeExact fields (bytes_of "client_nonce_b64") 16 with
        | None => ret false
        | Some nonce =>
            set (on_pending (with_pendingClientNonce nonce)) ;;;
            if negb (pairRequestText fields) then ret false
            else answerPairRequest (if versionEquals fields 1 then 1 else 2) nowMillis
        end
  end.

Definition makePendingPairingProof (proofRole : string) : M Sx (option (list Z)) :=
  s <- me id ;;
  let p := pending s in
  result <- (if (pendingPairingVersion p =? 1) && (pendingPairingRole p =? Owner) then
               world (makePairingProof (pendingControllerRoot p) proofRole (pendingControllerId p)
                        (deviceUid s) (pendingClientNonce p) (pendingDeviceNonce p))
             else if (pendingPairingVersion p =? 2) && (pendingPairingRole p =? Caretaker) then
               world (makeRoleBoundPairingProof (pendingControllerRoot p) proofRole "caretaker"
                        (pendingControllerId p) (deviceUid s) (pendingClientNonce p)
                        (pendingDeviceNonce p))
             else ret (inl PInvalidArgument)) ;;
  ret (match result with inr proof => Some proof | inl _ => None end).

(** The loop that draws an identifier no controller has; [attempts] are left. *)
Fixpoint drawControllerId (attempts : nat) : M Sx bool :=
  match attempts with
  | O => ret false
  | S attempts' =>
      drawn <- world (ccRandomBytes 16) ;;
      match drawn with
      | None => drawControllerId attempts'
      | Some id =>
          set (on_pending (with_pendingId id)) ;;;
          if allZero id then drawControllerId attempts'
          else
            found <- security (self (fun d => findControllerRoot d (Some id) true)) ;;
            match found with
            | None => ret true
            | Some _ => drawControllerId attempts'
            end
      end
  end.

Definition pairGrant (version : Z) (controllerB64 rootB64 uid clientNonceB64 deviceNonceB64 proofB64 : list Z)
  : JsonWriter :=
  let w := literal (if version =? 1 then "{'v':1,'type':'pair_grant','controller_id_b64':"
             else "{'v':2,'type':'pair_grant','role':'caretaker','controller_id_b64':") writer0 in
  let w := writeQuoted controllerB64 w in
  let w := literal ",'root_b64':" w in
  let w := writeQuoted rootB64 w in
  let w := literal ",'device_uid':" w in
  let w := writeQuoted (take 6 uid) w in
  let w := literal ",'client_nonce_b64':" w in
  let w := writeQuoted clientNonceB64 w in
  let w := literal ",'device_nonce_b64':" w in
  let w := writeQuoted deviceNonceB64 w in
  let w := literal ",'proof_b64':" w in
  let w := writeQuoted proofB64 w in
  literal "}" w.

(** The grant for the members and a proof; [None] when an encoding has the wrong
    length. *)
Definition grantFor (s : Session) (proof : list Z) : option JsonWriter :=
  let p := pending s in
  controllerB64 ← encodeB64 (pendingControllerId p) 22;
  rootB64 ← encodeB64 (pendingControllerRoot p) 43;
  clientNonceB64 ← encodeB64 (pendingClientNonce p) 22;
  deviceNonceB64 ← encodeB64 (pendingDeviceNonce p) 22;
  proofB64 ← encodeB64 proof 43;
  Some (pairGrant (pendingPairingVersion p) controllerB64 rootB64 (deviceUid s) clientNonceB64
          deviceNonceB64 proofB64).

(** [clearPendingPairing(); failAndClose(...); return false;] *)
Definition abandonPairing (nowMillis : Z) (cause : BleCloseCause) : M Sx bool :=
  clearPendingPairing ;;; failAndClose nowMillis cause ;;; ret false.

(** From the choice of the identifier on. *)
Definition grantPairing (nowMillis : Z) : M Sx bool :=
  unique <- drawControllerId 8 ;;
  if negb unique then abandonPairing nowMillis PairingFailed
  else
    proof <- makePendingPairingProof "device" ;;
    match proof with
    | None => abandonPairing nowMillis PairingFailed
    | Some proof =>
        s <- me id ;;
        match grantFor s proof with
        | None => abandonPairing nowMillis PairingFailed
        | Some w =>
            sent <- sendWriter w ;;
            if negb sent then abandonPairing nowMillis ResponseSendFailed
            else set (set_state PairingAwaitingCommit) ;;; ret true
        end
    end.

(** The guard of [confirmPendingPairing]. *)
Definition mayConfirm (nowMillis : Z) (s : Session) : bool :=
  begun_ s && bool_decide (state s = PairingAwaitingPhysical) && pairingWindowOpen (window s) &&
  negb (deadlineReached nowMillis (stateDeadline s)) && secureLink (link s) &&
  (pendingPairingRole (pending s) =? pairingWindowRole (window s)) &&
  (pendingPairingVersion (pending s) =? pairingVersionForRole (pairingWindowRole (window s))).

(** The error that says why a controller cannot be added. *)
Definition pairingError (full : bool) : string :=
  if full then "controller_full" else "auth_failed".

Definition confirmPendingPairing (nowMillis : Z) : M Sx bool :=
  s <- me id ;;
  if negb (mayConfirm nowMillis s) then ret false
  else
    let l := link s in
    result <- security (generatePendingControllerRoot (secureConnections l) (linkEncrypted l)
                          (linkBonded l) true true) ;;
    let '(r, root) := result in
    set (on_pending (with_pendingRoot root)) ;;;
    if negb (bool_decide (r = SecOk)) then
      clearPendingPairing ;;;
      count <- security (self (fun d => controllerCount (status d))) ;;
      sendControlError (pairingError (Z.of_nat kKitsuControllerCapacity <=? count)) ;;;
      ret false
    else grantPairing nowMillis.

Definition pairOk (version : Z) (proofB64 : list Z) : JsonWriter :=
  let w := literal (if version =? 1 then "{'v':1,'type':'pair_ok','proof_b64':"
             else "{'v':2,'type':'pair_ok','role':'caretaker','proof_b64':") writer0 in
  let w := writeQuoted proofB64 w in
  literal "}" w.

(** The proof of a [pair_commit] frame of the version and role asked for. *)
Definition suppliedCommit (json : list Z) (p : Pending) : option (list Z) :=
  let ownerV1 := (pendingPairingVersion p =? 1) && (pendingPairingRole p =? Owner) in
  let caretakerV2 := (pendingPairingVersion p =? 2) && (pendingPairingRole p =? Caretaker) in
  fields ← parseFlatObject json;
  if negb (if ownerV1
           then schemaMatches fields (names ["v"; "type"; "proof_b64"]) && versionEquals fields 1
           else caretakerV2 && schemaMatches fields (names ["v"; "type"; "role"; "proof_b64"]) &&
                versionEquals fields 2 &&
                stringFieldEquals fields (bytes_of "role") (bytes_of "caretaker")) ||
     negb (stringFieldEquals fields (bytes_of "type") (bytes_of "pair_commit"))
  then None
  else decodeExact fields (bytes_of "proof_b64") 32.

(** The commit of the pending controller and the answer with proof [okProof]. *)
Definition commitPairing (okProof : list Z) (nowMillis : Z) : M Sx bool :=
  s <- me id ;;
  let p := pending s in
  let l := link s in
  committed <- security (commitControllerAfterPairing (Some (pendingControllerId p))
                 (Some (pendingControllerRoot p)) (secureConnections l) (linkEncrypted l)
                 (linkBonded l) true true (pendingPairingRole p)) ;;
  if negb (bool_decide (committed = SecOk)) then
    clearPendingPairing ;;;
    sendControlError (pairingError (bool_decide (committed = ControllerTableFull))) ;;;
    ret false
  else
    match encodeB64 okProof 43 with
    | None => abandonPairing nowMillis PairingFailed
    | Some proofB64 =>
        sent <- sendWriter (pairOk (pendingPairingVersion p) proofB64) ;;
        set (set_completed true (pendingPairingRole p)) ;;;
        clearPendingPairing ;;;
        set (set_state AwaitingHello) ;;;
        when (negb sent) (failAndClose nowMillis ResponseSendFailed) ;;;
        ret sent
    end.

Definition handlePairCommit (json : list Z) (nowMillis : Z) : M Sx bool :=
  p <- me pending ;;
  match suppliedCommit json p with
  | None => ret false
  | Some supplied =>
      expected <- makePendingPairingProof "client" ;;
      let verified := match expected with
                      | Some expected => constantTimeEqual expected supplied 32
                      | None => false
                      end in
      if negb verified then ret false
      else
        okProof <- makePendingPairingProof "ok" ;;
        match okProof with
        | None => ret false
        | Some okProof => commitPairing okProof nowMillis
        end
  end.

Definition cancelPendingPairing : M Sx unit :=
  started <- me begun_ ;;
  if negb started then ret tt
  else
    clearPendingPairing ;;;
    st <- me state ;;
    when (isPairing st) (set (set_state AwaitingHello)).

(** ** Authenticated messages *)

Definition sendAuthenticated (channel : EnvelopeChannel) (requestId operation payload : list Z)
  : M Sx bool :=
  s <- me id ;;
  if negb (bool_decide (state s = Authenticated)) || (nextDeviceSequence (secrets s) =? UINT64_MAX)
  then ret false
  else
    nonce <- world (ccRandomBytes 16) ;;
    match nonce with
    | None => ret false
    | Some nonce =>
        encoded <- world (encodeEnvelope channel (nextDeviceSequence (secrets s)) nonce requestId
                            operation payload (deviceToClientKey (secrets s))
                            (Z.to_nat kMaximumFrameBytes)) ;;
        match encoded with
        | inl _ => ret false
        | inr json =>
            sent <- world (sendBleJson json) ;;
            if negb sent then ret false
            else
              set (on_secrets (fun x =>
                with_sequences (expectedClientSequence x) (u64 (nextDeviceSequence x + 1)) x)) ;;;
              ret true
        end
    end.

(** [actionAuthorized]: the body of an action must decode to a kind the role may
    perform. *)
Definition actionAuthorized (role : ControllerRole) (permission : ControllerPermission)
    (payload : list Z) : bool :=
  if bool_decide (permission = ActionRequired) then
    match decodeBleActionCommand payload with
    | inr command =>
        bool_decide (controllerPermission role (controllerBleAction (BleAction.kind command)) = Allowed)
    | inl _ => false
    end
  else true.

Definition requestPermission (role : ControllerRole) (operation : list Z) : ControllerPermission :=
  controllerPermission role (controllerOperation (Some (text operation))).

(** The tests between decoding and the delegate. *)
Definition requestAuthorized (x : Secrets) (request : DecodedEnvelope) (payload : list Z) : bool :=
  let permission := requestPermission (controllerRole x) (env_operation request) in
  (bool_decide (permission = Allowed) || bool_decide (permission = ActionRequired)) &&
  actionAuthorized (controllerRole x) permission payload &&
  negb (expectedClientSequence x =? UINT64_MAX).

Definition forgetAccepted : list Z := js "{'schema':'kitsu.controller-forget.v1','accepted':true}".
Definition forgetRejected : list Z :=
  js "{'schema':'kitsu.controller-forget.v1','accepted':false,'error':'storage_failed'}".
Definition requestRejected : list Z := js "{'ok':false,'error':'request_rejected'}".

(** A response that cannot be sent closes the link. *)
Definition respond (request : DecodedEnvelope) (response : list Z) (nowMillis : Z) : M Sx bool :=
  sent <- sendAuthenticated ChannelResponse (env_requestId request) (env_operation request) response ;;
  if negb sent then failAndClose nowMillis ResponseSendFailed ;;; ret false else ret true.

(** The branch of "controller.forget". *)
Definition forgetController (request : DecodedEnvelope) (payload : list Z) (nowMillis : Z)
  : M Sx bool :=
  x <- me secrets ;;
  revoked <- (if beq payload (js "{}")
              then security (revokeAuthenticatedController (Some (controllerId x)))
              else ret SecInvalidArgument) ;;
  retained <- security (self (fun d => findControllerRoot d (Some (controllerId x)) true)) ;;
  responded <- respond request
                 (if bool_decide (revoked = SecOk) then forgetAccepted else forgetRejected) nowMillis ;;
  if negb responded then ret false
  else
    when (bool_decide (revoked = SecOk) || match retained with Some _ => false | None => true end)
      (world (setBleApplicationAuthenticated false) ;;;
       clearSessionSecrets ;;;
       set (set_state Closing) ;;;
       set (on_close (closeIn (u32 (nowMillis + kTransmitDrainTimeoutMs)) true ControllerForget))) ;;;
    ret true.

(** The branch of every other operation. *)
Definition delegateRequest (request : DecodedEnvelope) (payload : list Z) (nowMillis : Z)
  : M Sx bool :=
  x <- me secrets ;;
  answer <- world (handleAuthorizedBleRequest (controllerRole x) request payload
                     kMaximumEnvelopePayloadBytes) ;;
  let response := match answer with
                  | Some r => if (length r =? 0)%nat || (kMaximumEnvelopePayloadBytes <? length r)%nat
                              then requestRejected else r
                  | None => requestRejected
                  end in
  responded <- respond request response nowMillis ;;
  if negb responded then ret false
  else set (on_secrets (with_barrier true)) ;;; ret true.

Definition handleAuthenticatedEnvelope (json : list Z) (nowMillis : Z) : M Sx bool :=
  x <- me secrets ;;
  decoded <- world (decodeAndVerifyEnvelope json (clientToDeviceKey x) ChannelRequest
                      (expectedClientSequence x) kMaximumEnvelopePayloadBytes) ;;
  let reject := set (set_backoffUntil (u32 (nowMillis + kBleControllerBackoffMs))) ;;;
                failAndClose nowMillis SessionProtocolViolation ;;;
                ret false in
  match decoded with
  | inl _ => reject
  | inr (request, payload) =>
      if negb (requestAuthorized x request payload) then reject
      else
        set (on_secrets (fun x =>
          with_sequences (u64 (expectedClientSequence x + 1)) (nextDeviceSequence x) x)) ;;;
        if beq (env_operation request) (bytes_of "controller.forget")
        then forgetController request payload nowMillis
        else delegateRequest request payload nowMillis
  end.

Definition sendEvent (operation payload : list Z) : M Sx bool :=
  x <- me secrets ;;
  if negb (authenticatedRequestBarrier x) then ret false
  else
    requestId <- world (ccRandomBytes 16) ;;
    match requestId with
    | None => ret false
    | Some requestId => sendAuthenticated ChannelEvent requestId operation payload
    end.

(** ** Frames and time *)

(** The case of [AwaitingHello]: the type of the frame selects the handler. *)
Definition handleHello (json : list Z) (nowMillis : Z) : M Sx bool :=
  match parseFlatObject json with
  | None => ret false
  | Some fields =>
      if validVersion fields && stringFieldEquals fields (bytes_of "type") (bytes_of "client_hello")
      then handleClientHello json
      else if (versionEquals fields 1 || versionEquals fields 2) &&
              stringFieldEquals fields (bytes_of "type") (bytes_of "pair_request")
      then handlePairRequest json nowMillis
      else ret false
  end.

(** The [switch] of [onFrame]. *)
Definition handleState (st : BleSessionState) (json : list Z) (nowMillis : Z) : M Sx bool :=
  match st with
  | AwaitingHello => handleHello json nowMillis
  | AwaitingClientAuth => handleClientAuth json
  | Authenticated => handleAuthenticatedEnvelope json nowMillis
  | PairingAwaitingCommit => handlePairCommit json nowMillis
  | PairingAwaitingPhysical | Closing | Backoff | Disconnected => ret false
  end.

Definition isHandshake (s : BleSessionState) : bool :=
  bool_decide (s = AwaitingHello) || bool_decide (s = AwaitingClientAuth).

Definition onFrame (json : list Z) (nowMillis : Z) : M Sx unit :=
  s <- me id ;;
  if negb (begun_ s) || (length json =? 0)%nat || negb (secureLink (link s)) then
    failAndClose nowMillis
      (if secureLink (link s) then SessionProtocolViolation else SecureLinkRejected)
  else if isHandshake (state s) && deadlineReached nowMillis (stateDeadline s) then
    sendControlError "timeout" ;;;
    failAndClose nowMillis HandshakeTimeout
  else
    handled <- handleState (state s) json nowMillis ;;
    st <- me state ;;
    when (negb handled && negb (bool_decide (st = Closing))) (failProof nowMillis).

(** The handshake and pairing timeout of [loop]. *)
Definition loopTimeout (nowMillis : Z) : M Sx unit :=
  s <- me id ;;
  when ((isHandshake (state s) || isPairing (state s)) && negb (stateDeadline s =? 0) &&
        deadlineReached nowMillis (stateDeadline s))
    (clearPendingPairing ;;;
     sendControlError "timeout" ;;;
     failAndClose nowMillis (if isPairing (state s) then PairingTimeout else HandshakeTimeout)).

Definition finishClose : M Sx unit :=
  set (on_close (fun c => mkClose 0 false (pendingCloseCause c))) ;;;
  c <- me close ;;
  world (disconnectBle (pendingCloseCause c)).

(** The disconnection of [loop]; the transport is asked only when the close waits
    for it. *)
Definition loopClose (nowMillis : Z) : M Sx unit :=
  s <- me id ;;
  let closing := bool_decide (state s = Closing) in
  drained <- (if closing && closeAfterTransmit (close s) then world bleTransmitIdle else ret false) ;;
  if drained then finishClose
  else when (closing && negb (closeAt (close s) =? 0) && deadlineReached nowMillis (closeAt (close s)))
         finishClose.

Definition loopBackoff (nowMillis : Z) : M Sx unit :=
  s <- me id ;;
  when (bool_decide (state s = Backoff) && negb (backoffUntil s =? 0) &&
        deadlineReached nowMillis (backoffUntil s))
    (set (set_backoffUntil 0) ;;; set (set_state Disconnected)).

Definition loop (nowMillis : Z) : M Sx unit :=
  started <- me begun_ ;;
  if negb started then ret tt
  else
    expireWindow nowMillis ;;;
    loopTimeout nowMillis ;;;
    loopClose nowMillis ;;;
    loopBackoff nowMillis.
End BleSession.

(** ** Status *)

Record BleSessionStatus := mkSessionStatus {
  st_state : BleSessionState;
  st_begun : bool;
  st_secureLink : bool;
  st_pairingWindowOpen : bool;
  st_physicalConfirmationPending : bool;
  st_pairingCompleted : bool;
  st_pairingRole : ControllerRole;
  st_applicationAuthenticated : bool;
  st_controllerRole : ControllerRole;
  st_authenticatedRequestBarrier : bool;
  st_proofFailures : Z;
  st_nextClientSequence : Z;
  st_nextDeviceSequence : Z;
  st_deadlineRemainingMs : Z;
  st_backoffRemainingMs : Z;
}.

(** A deadline that is set and not reached, less the time. *)
Definition remainingUntil (deadline nowMillis : Z) : Z :=
  if negb (deadline =? 0) && negb (deadlineReached nowMillis deadline)
  then u32 (deadline - nowMillis) else 0.

Definition sessionStatus (s : Session) (nowMillis : Z) : BleSessionStatus :=
  let w := window s in
  let open := pairingWindowOpen w && negb (deadlineReached nowMillis (pairingWindowDeadline w)) in
  let authenticated := bool_decide (state s = Authenticated) in
  mkSessionStatus (state s) (begun_ s) (secureLink (link s)) open
    (bool_decide (state s = PairingAwaitingPhysical)) (pairingCompleted s)
    (if open && validPairingRole (pairingWindowRole w) then pairingWindowRole w
     else if pairingCompleted s && validPairingRole (completedPairingRole s)
     then completedPairingRole s else noRole)
    authenticated (if authenticated then controllerRole (secrets s) else noRole)
    (authenticatedRequestBarrier (secrets s)) (proofFailures s)
    (expectedClientSequence (secrets s)) (nextDeviceSequence (secrets s))
    (remainingUntil (stateDeadline s) nowMillis) (remainingUntil (backoffUntil s) nowMillis).
