(* ===== verification/SessionTrace.v ===== *)
(** * Recording what the BLE session does to the outside

    Any platform, crypto provider, transport and delegate, with a log of the
    calls that leave the device or reach its operations.  The rules to run the
    session on such a world, and what every entry point leaves alone. *)

From S2P Require Import Prelude CompanionText LengthFrame FlatJson CompanionProtocol Permissions BleAction DeviceSecurity ControlJson BleSession.

Open Scope kitsu_scope.

(** [OutAuthenticated] is [setBleApplicationAuthenticated], [OutRequest] a call of
    the delegate. *)
Inductive Output :=
  | OutSent (json : list Z)
  | OutAuthenticated (on : bool)
  | OutDisconnect (cause : BleCloseCause)
  | OutRequest (role : ControllerRole) (request : DecodedEnvelope) (payload : list Z).

(** The newest call first. *)
Definition Recorded (W : Type) : Type := (W * list Output)%type.

(** Members, device security object, recorded world. *)
Abbreviation StateOf W := (Session * (Sec * Recorded W))%type.

Section Record.
Context {W : Type} `{SecurityPlatform W} `{CompanionCrypto W} `{BleSessionTransport W}
  `{BleOperationDelegate W}.

Definition silent {A} (m : M W A) : M (Recorded W) A :=
  fun s => let '(a, w) := m (fst s) in (a, (w, snd s)).
Definition record {A} (o : Output) (m : M W A) : M (Recorded W) A :=
  fun s => let '(a, w) := m (fst s) in (a, (w, o :: snd s)).

#[export] Instance RecSecurity : SecurityPlatform (Recorded W) := {|
  readSlot t n := silent (readSlot t n);
  writeSlot t b := silent (writeSlot t b);
  clearSlot t := silent (clearSlot t);
  securityMode w := securityMode (fst w);
  deriveWrappingKey hw := silent (deriveWrappingKey hw);
  randomBytes n := silent (randomBytes n);
  seal k g n p := silent (seal k g n p);
  open k g n p t := silent (open k g n p t);
  hkdfSha256 k s i n := silent (hkdfSha256 k s i n);
|}.
#[export] Instance RecCrypto : CompanionCrypto (Recorded W) := {|
  ccRandomBytes n := silent (ccRandomBytes n);
  ccSha256 ps := silent (ccSha256 ps);
  ccHmacSha256 k ps := silent (ccHmacSha256 k ps);
  ccHkdfSha256 k s i := silent (ccHkdfSha256 k s i);
|}.
#[export] Instance RecTransport : BleSessionTransport (Recorded W) := {|
  sendBleJson json := record (OutSent json) (sendBleJson json);
  setBleApplicationAuthenticated on := record (OutAuthenticated on) (setBleApplicationAuthenticated on);
  bleTransmitIdle := silent bleTransmitIdle;
  disconnectBle cause := record (OutDisconnect cause) (disconnectBle cause);
|}.
#[export] Instance RecDelegate : BleOperationDelegate (Recorded W) := {|
  handleAuthorizedBleRequest role request payload n :=
    record (OutRequest role request payload) (handleAuthorizedBleRequest role request payload n);
|}.

Abbreviation State := (StateOf W).

Definition session (s : State) : Session := fst s.
Definition device (s : State) : Sec := fst (snd s).
Definition outputs (s : State) : list Output := snd (snd (snd s)).

(** ** Relations the entry points keep *)

(** Nothing was logged. *)
Definition mute {A} (f : A -> list Output) (s s' : A) : Prop := f s' = f s.
(** The table of controllers is the same. *)
Definition sameTable (s s' : State) : Prop :=
  controllers (material_ (device s')) = controllers (material_ (device s)).
(** Neither a request nor an authentication was logged. *)
Definition calmOutput (o : Output) : bool :=
  match o with OutSent _ | OutDisconnect _ | OutAuthenticated false => true | _ => false end.
Definition calm (s s' : State) : Prop :=
  exists new, outputs s' = new ++ outputs s /\ forallb calmOutput new = true.

#[export] Instance mute_preorder {A} (f : A -> list Output) : PreOrder (mute f).
Proof. split; [done|]. unfold mute. intros x y z Hxy Hyz. congruence. Qed.
#[export] Instance sameTable_preorder : PreOrder sameTable.
Proof. split; [done|]. unfold sameTable. intros x y z Hxy Hyz. congruence. Qed.
#[export] Instance calm_preorder : PreOrder calm.
Proof.
  split; [by exists []|]. intros x y z (a & Ha & Ca) (b & Hb & Cb).
  exists (b ++ a). rewrite Hb, Ha, app_assoc, forallb_app. by rewrite Cb, Ca.
Qed.

(** *** Worlds *)

Lemma silent_mute {A} (m : M W A) : steady (mute snd) (silent m).
Proof. intros [w l]. unfold silent, mute. simpl. by destruct (m w). Qed.
#[local] Hint Extern 1 (steady (mute _) (silent _)) => apply silent_mute : steady.
#[local] Hint Extern 1 (steady (mute _) _) => apply silent_mute : steady.

Lemma encodeEnvelope_mute c n x r o p k m : steady (mute snd) (encodeEnvelope (W := Recorded W) c n x r o p k m).
Proof. unfold encodeEnvelope, calculateEnvelopeMac. steady. Qed.
Lemma decodeEnvelope_mute j k c e m :
  steady (mute snd) (decodeAndVerifyEnvelope (W := Recorded W) j k c e m).
Proof. unfold decodeAndVerifyEnvelope, decodeFields, calculateEnvelopeMac. steady. Qed.
Lemma handshakeProof_mute r role c x d : steady (mute snd) (makeHandshakeProof (W := Recorded W) r role c x d).
Proof. unfold makeHandshakeProof, proofOf. steady. Qed.
Lemma sessionKeys_mute r x d : steady (mute snd) (deriveBleSessionKeys (W := Recorded W) r x d).
Proof. unfold deriveBleSessionKeys. steady. Qed.
Lemma pairingProof_mute r role c u x d : steady (mute snd) (makePairingProof (W := Recorded W) r role c u x d).
Proof. unfold makePairingProof, proofOf. steady. Qed.
Lemma roleBoundProof_mute r role cr c u x d :
  steady (mute snd) (makeRoleBoundPairingProof (W := Recorded W) r role cr c u x d).
Proof. unfold makeRoleBoundPairingProof, proofOf. steady. Qed.
Lemma random_mute n : steady (mute snd) (ccRandomBytes (W := Recorded W) n).
Proof. apply silent_mute. Qed.
Lemma idle_mute : steady (mute snd) (bleTransmitIdle (W := Recorded W)).
Proof. apply silent_mute. Qed.

(** *** The device security object *)

(** The log under the members of the device security object. *)
Definition below (d : Sec * Recorded W) : list Output := snd (snd d).

Lemma plat_mute {A} (m : M (Recorded W) A) : steady (mute snd) m -> steady (mute below) (plat m).
Proof.
  intros Hm [d w]. unfold plat, mute, below. specialize (Hm w). unfold mute in Hm. simpl.
  destruct (m w). simpl in *. done.
Qed.
Lemma upd_mute f : steady (mute below) (upd (W := Recorded W) f).
Proof. by intros [d w]. Qed.
Lemma self_mute {A} (f : Sec -> A) : steady (mute below) (self (W := Recorded W) f).
Proof. by intros [d w]. Qed.
#[local] Hint Resolve plat_mute upd_mute self_mute : steady.
#[local] Hint Extern 1 (steady (mute _) (setResult _)) => unfold setResult, updStatus; steady : steady.
#[local] Hint Extern 1 (steady (mute _) (updStatus _)) => apply upd_mute : steady.
#[local] Hint Extern 1 (steady (mute _) (updMaterial _)) => apply upd_mute : steady.

Lemma validateSlot_mute t : steady (mute below) (validateSlot (W := Recorded W) t).
Proof. unfold validateSlot. steady. Qed.
Lemma encode_mute g : steady (mute below) (encode (W := Recorded W) g).
Proof. unfold encode. steady. Qed.
#[local] Hint Resolve validateSlot_mute encode_mute : steady.
Lemma persist_mute : steady (mute below) (persist (W := Recorded W)).
Proof. unfold persist. steady. Qed.
#[local] Hint Resolve persist_mute : steady.
Lemma retire_mute : steady (mute below) (retirePreviousSlot (W := Recorded W)).
Proof. unfold retirePreviousSlot. steady. Qed.
#[local] Hint Resolve retire_mute : steady.
Lemma commit_mute c r a b d e f role :
  steady (mute below) (commitControllerAfterPairing (W := Recorded W) c r a b d e f role).
Proof. unfold commitControllerAfterPairing. steady. Qed.
Lemma generate_mute a b c d e : steady (mute below) (generatePendingControllerRoot (W := Recorded W) a b c d e).
Proof. unfold generatePendingControllerRoot. steady. Qed.
Lemma revoke_mute c : steady (mute below) (revokeAuthenticatedController (W := Recorded W) c).
Proof. unfold revokeAuthenticatedController, revokeController, storeRevocation. steady. Qed.

(** ** Rules to run the session *)

Lemma wp_me {A} (f : Session -> A) (Q : A -> State -> Prop) s d : Q (f s) (s, d) -> wp (me f) Q (s, d).
Proof. auto. Qed.
Lemma wp_set (f : Session -> Session) (Q : unit -> State -> Prop) s d :
  Q tt (f s, d) -> wp (set f) Q (s, d).
Proof. auto. Qed.
Lemma wp_security_self {A} (f : Sec -> A) (Q : A -> State -> Prop) s d :
  Q (f (fst d)) (s, d) -> wp (security (self f)) Q (s, d).
Proof. by destruct d. Qed.
(** Keeping the result of the call as a computation on the state before it. *)
Lemma wp_world_run {A} (m : M (Recorded W) A) (Q : A -> State -> Prop) s d w :
  steady (mute snd) m ->
  (forall w', snd w' = snd w -> Q (fst (m w)) (s, (d, w'))) -> wp (world m) Q (s, (d, w)).
Proof.
  intros Hm HQ. unfold wp, world. simpl. specialize (Hm w). specialize (HQ (snd (m w)) Hm).
  by destruct (m w).
Qed.
Lemma wp_world {A} (m : M (Recorded W) A) (Q : A -> State -> Prop) s d w :
  steady (mute snd) m ->
  (forall a w', snd w' = snd w -> Q a (s, (d, w'))) -> wp (world m) Q (s, (d, w)).
Proof. intros Hm HQ. apply wp_world_run; auto. Qed.
Lemma wp_security {A} (m : M (Sec * Recorded W) A) (Q : A -> State -> Prop) s d w :
  steady (mute below) m ->
  (forall a d' w', snd w' = snd w -> Q a (s, (d', w'))) -> wp (security m) Q (s, (d, w)).
Proof.
  intros Hm HQ. unfold wp, security. simpl. specialize (Hm (d, w)). destruct (m (d, w)) as [a [d' w']].
  by apply HQ.
Qed.
Lemma wp_record {A} o (m : M W A) (Q : A -> State -> Prop) s d w :
  (forall a w', snd w' = o :: snd w -> Q a (s, (d, w'))) -> wp (world (record o m)) Q (s, (d, w)).
Proof. intros HQ. unfold wp, world, record. simpl. destruct (m (fst w)). by apply HQ. Qed.

(** ** What the entry points leave alone

    A relation is harmless when assignments, silent calls, calm outputs and the
    generation of a root keep it: [calm] and [sameTable] are. *)

Class Harmless (R : State -> State -> Prop) : Prop := {
  harmless_order :: PreOrder R;
  harmless_set f : steady R (set f);
  harmless_world A (m : M (Recorded W) A) : steady (mute snd) m -> steady R (world m);
  harmless_record A o (m : M W A) : calmOutput o = true -> steady R (world (record o m));
  harmless_self A (f : Sec -> A) : steady R (security (self f));
  harmless_generate a b c d e : steady R (security (generatePendingControllerRoot a b c d e));
}.

Lemma me_steady R `{PreOrder State R} {A} (f : Session -> A) : steady R (me f).
Proof. by apply steady_gets. Qed.
Lemma security_calm {A} (m : M (Sec * Recorded W) A) : steady (mute below) m -> steady calm (security m).
Proof.
  intros Hm [s d]. specialize (Hm d). unfold security. simpl. destruct (m d). exists []. by split.
Qed.

#[export] Instance calm_harmless : Harmless calm.
Proof.
  split; [typeclasses eauto|..].
  - intros f [s d]. by exists [].
  - intros A m Hm [s [d w]]. specialize (Hm w). unfold world. simpl. destruct (m w). exists []. by split.
  - intros A o m Ho [s [d w]]. unfold world, record. simpl. destruct (m (fst w)). exists [o].
    simpl. by rewrite Ho.
  - intros A f. apply security_calm, self_mute.
  - intros a b c d e. apply security_calm, generate_mute.
Qed.

#[export] Instance sameTable_harmless : Harmless sameTable.
Proof.
  split; [typeclasses eauto|..].
  - by intros f [s d].
  - intros A m _ [s [d w]]. unfold world, sameTable. simpl. by destruct (m w).
  - intros A o m _ [s [d w]]. unfold world, sameTable. simpl. by destruct (record o m w).
  - by intros A f [s [d w]].
  - intros a b c d e [s [x w]].
    unfold security, sameTable, device, generatePendingControllerRoot, setResult, plat.
    simpl. unfold bind, self, gets, ret, updStatus, upd, modify. simpl.
    repeat case_match; simplify_eq; reflexivity.
Qed.
End Record.

#[export] Hint Resolve silent_mute encodeEnvelope_mute decodeEnvelope_mute handshakeProof_mute
  sessionKeys_mute pairingProof_mute roleBoundProof_mute random_mute idle_mute : steady.
#[export] Hint Resolve self_mute commit_mute generate_mute revoke_mute security_calm : steady.
#[export] Hint Extern 1 (steady _ (me _)) => apply me_steady; typeclasses eauto : steady.
#[export] Hint Extern 1 (steady _ (set _)) => apply harmless_set : steady.
#[export] Hint Extern 2 (steady _ (world _)) => apply harmless_world : steady.
#[export] Hint Extern 1 (steady _ (security (self _))) => apply harmless_self : steady.
#[export] Hint Extern 1 (steady _ (security (generatePendingControllerRoot _ _ _ _ _))) =>
  apply harmless_generate : steady.
#[export] Hint Extern 1 (steady _ (world (sendBleJson _))) =>
  apply harmless_record; reflexivity : steady.
#[export] Hint Extern 1 (steady _ (world (disconnectBle _))) =>
  apply harmless_record; reflexivity : steady.
#[export] Hint Extern 1 (steady _ (world (setBleApplicationAuthenticated false))) =>
  apply harmless_record; reflexivity : steady.

Section Calm.
Context {W : Type} `{SecurityPlatform W} `{CompanionCrypto W} `{BleSessionTransport W}
  `{BleOperationDelegate W} (R : StateOf W -> StateOf W -> Prop) `{!Harmless R}.

#[local] Hint Extern 1 (steady _ clearSessionSecrets) => apply harmless_set : steady.
#[local] Hint Extern 1 (steady _ clearPendingPairing) => apply harmless_set : steady.

Lemma sendControlError_steady c : steady R (sendControlError c).
Proof. unfold sendControlError. steady. Qed.
Lemma sendWriter_steady w : steady R (sendWriter w).
Proof. unfold sendWriter. steady. Qed.
#[local] Hint Resolve sendControlError_steady sendWriter_steady : steady.
Lemma failAndClose_steady t c : steady R (failAndClose t c).
Proof. unfold failAndClose. steady. Qed.
Lemma failProof_steady t : steady R (failProof t).
Proof. unfold failProof. steady. Qed.
#[local] Hint Resolve failAndClose_steady failProof_steady : steady.
Lemma established_steady l t : steady R (onSecureLinkEstablished l t).
Proof. unfold onSecureLinkEstablished, resetForSecureLink. steady. Qed.
Lemma linkClosed_steady t : steady R (onLinkClosed t).
Proof. unfold onLinkClosed, expireWindow. steady. Qed.
Lemma pairingWindow_steady o r t role : steady R (setPairingWindow o r t role).
Proof. unfold setPairingWindow. steady. Qed.
Lemma clientHello_steady j : steady R (handleClientHello j).
Proof. unfold handleClientHello, answerHello, loadRoot. steady. Qed.
Lemma pairRequest_steady j t : steady R (handlePairRequest j t).
Proof. unfold handlePairRequest, answerPairRequest. steady. Qed.
#[local] Hint Resolve clientHello_steady pairRequest_steady : steady.
Lemma hello_steady j t : steady R (handleHello j t).
Proof. unfold handleHello. steady. Qed.
Lemma pendingProof_steady r : steady R (makePendingPairingProof r).
Proof. unfold makePendingPairingProof. steady. Qed.
Lemma drawControllerId_steady n : steady R (drawControllerId n).
Proof. induction n; simpl; steady. Qed.
#[local] Hint Resolve pendingProof_steady drawControllerId_steady : steady.
Lemma confirm_steady t : steady R (confirmPendingPairing t).
Proof. unfold confirmPendingPairing, grantPairing, abandonPairing. steady. Qed.
Lemma cancel_steady : steady R cancelPendingPairing.
Proof. unfold cancelPendingPairing. steady. Qed.
Lemma sendAuthenticated_steady c r o p : steady R (sendAuthenticated c r o p).
Proof. unfold sendAuthenticated. steady. Qed.
#[local] Hint Resolve sendAuthenticated_steady : steady.
Lemma respond_steady r p t : steady R (respond r p t).
Proof. unfold respond. steady. Qed.
Lemma sendEvent_steady o p : steady R (sendEvent o p).
Proof. unfold sendEvent. steady. Qed.
Lemma loop_steady t : steady R (loop t).
Proof. unfold loop, expireWindow, loopTimeout, loopClose, finishClose, loopBackoff. steady. Qed.
Lemma begin_steady u : steady R (begin u).
Proof. unfold begin. steady. Qed.
End Calm.

#[export] Hint Extern 1 (steady _ clearSessionSecrets) => apply harmless_set : steady.
#[export] Hint Extern 1 (steady _ clearPendingPairing) => apply harmless_set : steady.
#[export] Hint Resolve sendControlError_steady sendWriter_steady failAndClose_steady failProof_steady
  established_steady linkClosed_steady pairingWindow_steady clientHello_steady pairRequest_steady
  hello_steady pendingProof_steady confirm_steady cancel_steady sendAuthenticated_steady respond_steady
  sendEvent_steady loop_steady begin_steady : steady.

#[export] Hint Resolve calm_harmless sameTable_harmless : steady.

(** The two handlers that change the table are calm. *)
Section Changing.
Context {W : Type} `{SecurityPlatform W} `{CompanionCrypto W} `{BleSessionTransport W}
  `{BleOperationDelegate W}.

Lemma pairCommit_calm j t : steady calm (handlePairCommit (W := Recorded W) j t).
Proof. unfold handlePairCommit, commitPairing, abandonPairing. steady. Qed.
Lemma forget_calm r p t : steady calm (forgetController (W := Recorded W) r p t).
Proof. unfold forgetController. steady. Qed.
End Changing.
#[export] Hint Resolve pairCommit_calm forget_calm : steady.
