(* ===== verification/SessionRun.v ===== *)
(** * The outcomes of every entry point of the BLE session

    Each handler run symbolically: which members it leaves as they were, the state
    it ends in and what it read to get there. *)

From S2P Require Import Prelude CompanionText LengthFrame FlatJson CompanionProtocol Permissions BleAction DeviceSecurity ControlJson BleSession SessionTrace.

Open Scope kitsu_scope.

Create HintDb session.

(** ** Sessions after the common endings *)

(** After [failAndClose]. *)
Definition closed (now : Z) (cause : BleCloseCause) (s : Session) : Session :=
  let kept := pendingCloseCause (close s) in
  let why := if bool_decide (kept = CauseNone)
             then (if bool_decide (cause = CauseNone) then ApplicationRequest else cause) else kept in
  on_close (closeIn (u32 (now + kCloseDelayMs)) false why)
    (set_state Closing (on_secrets (fun _ => noSecrets) (on_pending (fun _ => noPending) s))).

(** After [failProof]. *)
Definition failed (now : Z) (s : Session) : Session :=
  let failures := if proofFailures s <? 0xff then proofFailures s + 1 else proofFailures s in
  let s := set_proofFailures failures (on_secrets (fun _ => noSecrets) (on_pending (fun _ => noPending) s)) in
  if kBleMaximumProofFailures <=? failures then
    on_close (closeIn (u32 (now + kCloseDelayMs)) false AuthenticationFailed)
      (set_state Closing (set_backoffUntil (u32 (now + kBleControllerBackoffMs)) s))
  else set_state AwaitingHello s.

(** Only secrets, pending pairing and the result of the last pairing changed. *)
Definition scratched (s s' : Session) : Prop :=
  exists x p b r, s' = set_completed b r (on_secrets (fun _ => x) (on_pending (fun _ => p) s)).

Lemma scratched_refl s : scratched s s.
Proof. exists (secrets s), (pending s), (pairingCompleted s), (completedPairingRole s). by destruct s. Qed.
Lemma scratched_secrets f s : scratched s (on_secrets f s).
Proof.
  exists (f (secrets s)), (pending s), (pairingCompleted s), (completedPairingRole s). by destruct s.
Qed.
Lemma scratched_pending f s : scratched s (on_pending f s).
Proof.
  exists (secrets s), (f (pending s)), (pairingCompleted s), (completedPairingRole s). by destruct s.
Qed.
Lemma scratched_completed b r s : scratched s (set_completed b r s).
Proof. exists (secrets s), (pending s), b, r. by destruct s. Qed.
Lemma scratched_trans a b c : scratched a b -> scratched b c -> scratched a c.
Proof. intros (x & p & v & r & ->) (x' & p' & v' & r' & ->). exists x', p', v', r'. by destruct a. Qed.
#[export] Instance scratched_preorder : PreOrder scratched.
Proof. split; [exact scratched_refl|exact scratched_trans]. Qed.
#[export] Hint Resolve scratched_refl scratched_secrets scratched_pending scratched_completed : session.

(** Two worlds whose logs differ by the outputs of a kind only. *)
Definition emits {W} (kind : Output -> bool) (w w' : Recorded W) : Prop :=
  exists new, snd w' = new ++ snd w /\ forallb kind new = true.
Abbreviation quietly := (emits calmOutput).

Section Run.
Context {W : Type} `{SecurityPlatform W} `{CompanionCrypto W} `{BleSessionTransport W}
  `{BleOperationDelegate W}.
Abbreviation State := (StateOf W).
Implicit Types (w : Recorded W).

#[export] Instance emits_preorder kind : PreOrder (emits (W := W) kind).
Proof.
  split; [by exists []|]. intros x y z (a & Ha & Ca) (b & Hb & Cb).
  exists (b ++ a). by rewrite Hb, Ha, app_assoc, forallb_app, Cb, Ca.
Qed.
Lemma quietly_same kind w w' : snd w' = snd w -> emits kind w w'.
Proof. exists []. by split. Qed.
Lemma quietly_cons kind o w w' : snd w' = o :: snd w -> kind o = true -> emits kind w w'.
Proof. intros Hw Ho. exists [o]. simpl. by rewrite Ho, Hw. Qed.
#[local] Hint Resolve quietly_same : session.

(** *** The endings *)

Lemma sendControlError_run c (Q : bool -> State -> Prop) s d w :
  (forall ok w', quietly w w' -> Q ok (s, (d, w'))) -> wp (sendControlError c) Q (s, (d, w)).
Proof.
  intros HQ. unfold sendControlError. cbv zeta. wp_step; [|apply wp_ret, HQ; reflexivity].
  apply wp_record. intros a w' E'. apply HQ. eapply quietly_cons; [eassumption|reflexivity].
Qed.

Lemma sendWriter_run x (Q : bool -> State -> Prop) s d w :
  (forall ok w', quietly w w' -> Q ok (s, (d, w'))) -> wp (sendWriter x) Q (s, (d, w)).
Proof.
  intros HQ. unfold sendWriter. wp_step; [|apply wp_ret, HQ; reflexivity].
  apply wp_record. intros a w' E'. apply HQ. eapply quietly_cons; [eassumption|reflexivity].
Qed.

Lemma failAndClose_run now cause (Q : unit -> State -> Prop) s d w :
  (forall w', snd w' = OutAuthenticated false :: snd w -> Q tt (closed now cause s, (d, w'))) ->
  wp (failAndClose now cause) Q (s, (d, w)).
Proof.
  intros HQ. unfold failAndClose, clearPendingPairing, clearSessionSecrets.
  apply wp_bind, wp_set, wp_bind, wp_set, wp_bind, wp_record. intros b w' Hw.
  apply wp_bind, wp_set, wp_bind, wp_set, wp_set. by apply HQ.
Qed.

Lemma failProof_run now (Q : unit -> State -> Prop) s d w :
  (forall w', quietly w w' -> Q tt (failed now s, (d, w'))) -> wp (failProof now) Q (s, (d, w)).
Proof.
  intros HQ. unfold failProof, clearPendingPairing, clearSessionSecrets.
  apply wp_bind, wp_set, wp_bind, wp_set, wp_bind, wp_record. intros b w' Hw.
  apply wp_bind, wp_me. cbn [proofFailures on_secrets on_pending].
  assert (Hq : quietly w w') by (eapply quietly_cons; [eassumption|reflexivity]).
  apply wp_bind. unfold failed, when in *. destruct (proofFailures s <? 255).
  - apply wp_set, wp_bind, sendControlError_run. intros ok w2 Hw2. apply wp_bind, wp_me.
    cbn [proofFailures set_proofFailures].
    destruct (kBleMaximumProofFailures <=? proofFailures s + 1).
    + apply wp_bind, wp_set, wp_bind, wp_set, wp_set. apply HQ. by etransitivity.
    + apply wp_set. apply HQ. by etransitivity.
  - apply wp_ret, wp_bind, sendControlError_run. intros ok w2 Hw2. apply wp_bind, wp_me.
    assert (Hs : set_proofFailures (proofFailures s) (on_secrets (fun _ => noSecrets) (on_pending (fun _ => noPending) s)) = on_secrets (fun _ => noSecrets) (on_pending (fun _ => noPending) s)) by (by destruct s).
    rewrite Hs in HQ. cbn [proofFailures on_secrets on_pending].
    destruct (kBleMaximumProofFailures <=? proofFailures s).
    + apply wp_bind, wp_set, wp_bind, wp_set, wp_set. apply HQ. by etransitivity.
    + apply wp_set. apply HQ. by etransitivity.
Qed.

(** *** Handlers

    A handler that returns [false] leaves a scratched session for its caller to
    clear; one that returns [true] leaves a session in [P]. *)
Definition ends s w (P : Session -> Prop) : bool -> State -> Prop :=
  fun b st => exists s1 d1 w1, st = (s1, (d1, w1)) /\ quietly w w1 /\ if b then P s1 else scratched s s1.

Lemma ends_false s d w P s1 w1 : quietly w w1 -> scratched s s1 -> wp (ret false) (ends s w P) (s1, (d, w1)).
Proof. intros Hq Hs. by exists s1, d, w1. Qed.
Lemma ends_true s d w (P : Session -> Prop) s1 w1 :
  quietly w w1 -> P s1 -> wp (ret true) (ends s w P) (s1, (d, w1)).
Proof. intros Hq Hs. by exists s1, d, w1. Qed.
Lemma wp_world_after {A} (m : M (Recorded W) A) (Q : A -> State -> Prop) s d w w1 :
  steady (mute snd) m -> quietly w w1 ->
  (forall a w2, quietly w w2 -> Q a (s, (d, w2))) -> wp (world m) Q (s, (d, w1)).
Proof.
  intros Hm Hq HQ. apply wp_world; [done|]. intros a w2 Hw. apply HQ. etransitivity; [exact Hq|].
  by apply quietly_same.
Qed.
Lemma wp_security_after {A} (m : M (Sec * Recorded W) A) (Q : A -> State -> Prop) s d w w1 :
  steady (mute below) m -> quietly w w1 ->
  (forall a d2 w2, quietly w w2 -> Q a (s, (d2, w2))) -> wp (security m) Q (s, (d, w1)).
Proof.
  intros Hm Hq HQ. apply wp_security; [done|]. intros a d2 w2 Hw. apply HQ. etransitivity; [exact Hq|].
  by apply quietly_same.
Qed.
Lemma sendWriter_after x (Q : bool -> State -> Prop) s d w w1 :
  quietly w w1 -> (forall ok w2, quietly w w2 -> Q ok (s, (d, w2))) -> wp (sendWriter x) Q (s, (d, w1)).
Proof. intros Hq HQ. apply sendWriter_run. intros ok w2 Hw. apply HQ. by etransitivity. Qed.
Lemma sendControlError_after c (Q : bool -> State -> Prop) s d w w1 :
  quietly w w1 -> (forall ok w2, quietly w w2 -> Q ok (s, (d, w2))) -> wp (sendControlError c) Q (s, (d, w1)).
Proof. intros Hq HQ. apply sendControlError_run. intros ok w2 Hw. apply HQ. by etransitivity. Qed.
Lemma failAndClose_after t c (Q : unit -> State -> Prop) s d w w1 :
  quietly w w1 -> (forall w2, quietly w w2 -> Q tt (closed t c s, (d, w2))) ->
  wp (failAndClose t c) Q (s, (d, w1)).
Proof.
  intros Hq HQ. apply failAndClose_run. intros w2 Hw. apply HQ. etransitivity; [exact Hq|].
  eapply quietly_cons; [exact Hw|reflexivity].
Qed.
Lemma failProof_after t (Q : unit -> State -> Prop) s d w w1 :
  quietly w w1 -> (forall w2, quietly w w2 -> Q tt (failed t s, (d, w2))) ->
  wp (failProof t) Q (s, (d, w1)).
Proof. intros Hq HQ. apply failProof_run. intros w2 Hw. apply HQ. by etransitivity. Qed.
Lemma wp_record_after {A} o (m : M W A) (Q : A -> State -> Prop) s d w w1 :
  calmOutput o = true -> quietly w w1 -> (forall a w2, quietly w w2 -> Q a (s, (d, w2))) ->
  wp (world (record o m)) Q (s, (d, w1)).
Proof.
  intros Ho Hq HQ. apply wp_record. intros a w2 Hw. apply HQ. etransitivity; [exact Hq|].
  by eapply quietly_cons.
Qed.
End Run.

(** [scratch] proves that a chain of assignments only scratches the session. *)
Ltac scratch :=
  repeat first
    [ apply scratched_refl
    | eapply scratched_trans;
      [|first [apply scratched_secrets|apply scratched_pending|apply scratched_completed]] ].

(** [handler] runs a handler, keeping what was logged, and closes the branches that
    return [false]. *)
Ltac handler_next w Hq := let w2 := fresh "w" in let Hw := fresh "Hq" in intros w2 Hw; clear Hq.
Ltac handler_step :=
  unfold when, clearPendingPairing, clearSessionSecrets, abandonPairing;
  lazymatch goal with
  | |- wp (bind _ _) _ _ => apply wp_bind
  | |- wp (me _) _ _ => apply wp_me
  | |- wp (set _) _ _ => apply wp_set
  | |- wp (security (self _)) _ _ => apply wp_security_self; cbn [fst]
  | Hq : quietly ?w ?w1 |- wp (sendWriter _) _ (_, (_, ?w1)) =>
      apply (sendWriter_after _ _ _ _ w w1 Hq); let ok := fresh "ok" in intros ok; handler_next w Hq
  | Hq : quietly ?w ?w1 |- wp (sendControlError _) _ (_, (_, ?w1)) =>
      apply (sendControlError_after _ _ _ _ w w1 Hq); let ok := fresh "ok" in intros ok; handler_next w Hq
  | Hq : quietly ?w ?w1 |- wp (failAndClose _ _) _ (_, (_, ?w1)) =>
      apply (failAndClose_after _ _ _ _ _ w w1 Hq); handler_next w Hq
  | Hq : quietly ?w ?w1 |- wp (failProof _) _ (_, (_, ?w1)) =>
      apply (failProof_after _ _ _ _ w w1 Hq); handler_next w Hq
  | Hq : quietly ?w ?w1 |- wp (world (sendBleJson _)) _ (_, (_, ?w1)) =>
      eapply (wp_record_after _ _ _ _ _ w w1); [reflexivity|exact Hq|];
      let a := fresh "a" in intros a; handler_next w Hq
  | Hq : quietly ?w ?w1 |- wp (world (disconnectBle _)) _ (_, (_, ?w1)) =>
      eapply (wp_record_after _ _ _ _ _ w w1); [reflexivity|exact Hq|];
      let a := fresh "a" in intros a; handler_next w Hq
  | Hq : quietly ?w ?w1 |- wp (world (setBleApplicationAuthenticated false)) _ (_, (_, ?w1)) =>
      eapply (wp_record_after _ _ _ _ _ w w1); [reflexivity|exact Hq|];
      let a := fresh "a" in intros a; handler_next w Hq
  | Hq : quietly ?w ?w1 |- wp (world _) _ (_, (_, ?w1)) =>
      eapply (wp_world_after _ _ _ _ w w1); [solve [eauto with steady]|exact Hq|];
      let a := fresh "a" in intros a; handler_next w Hq
  | Hq : quietly ?w ?w1 |- wp (security _) _ (_, (_, ?w1)) =>
      eapply (wp_security_after _ _ _ _ w w1); [solve [eauto with steady]|exact Hq|];
      let a := fresh "a" in let d2 := fresh "d" in intros a d2; handler_next w Hq
  | Hq : quietly ?w ?w1 |- wp (ret false) (ends _ ?w _) (_, (_, ?w1)) =>
      apply ends_false; [exact Hq|scratch]
  | |- wp (ret _) (fun _ _ => wp _ _ _) _ => apply wp_ret
  | |- wp (if ?c then _ else _) _ _ => let E := fresh "E" in destruct c eqn:E
  | |- wp (match ?x with _ => _ end) _ _ => let E := fresh "E" in destruct x eqn:E
  end; cbn [negb]; cbv beta zeta iota.
Ltac handler := repeat handler_step.

Section Handlers.
Context {W : Type} `{SecurityPlatform W} `{CompanionCrypto W} `{BleSessionTransport W}
  `{BleOperationDelegate W}.
Abbreviation State := (StateOf W).
Implicit Types (w : Recorded W).

(** What the secrets hold once the hello was answered. *)
Definition helloFor (d : Sec) (x : Secrets) : Prop :=
  match findControllerRoot d (Some (controllerId x)) true with
  | Some (root, role) => controllerKnown x = true /\ controllerRoot x = root /\ controllerRole x = role
  | None => controllerKnown x = false /\ controllerRole x = noRole
  end.
(** The members the hello leaves alone. *)
Definition sameCounters (x x' : Secrets) : Prop :=
  authenticatedRequestBarrier x' = authenticatedRequestBarrier x /\
  expectedClientSequence x' = expectedClientSequence x /\ nextDeviceSequence x' = nextDeviceSequence x.

Lemma clientHello_run json s d w :
  wp (handleClientHello json) (ends s w (fun s1 => exists x,
    s1 = set_state AwaitingClientAuth (on_secrets (fun _ => x) s) /\
    sameCounters (secrets s) x /\ helloFor d x)) (s, (d, w)).
Proof.
  assert (Hq : quietly w w) by reflexivity. unfold handleClientHello, answerHello, loadRoot. handler.
  - apply ends_true; [done|]. eexists. split; [reflexivity|]. split; [done|].
    unfold helloFor. cbn in E4 |- *. by rewrite E4.
  - apply ends_true; [done|]. eexists. split; [reflexivity|]. split; [done|].
    unfold helloFor. cbn in E4 |- *. by rewrite E4.
Qed.

(** The pairing window lets this role in. *)
Definition windowAdmits (now : Z) (s : Session) (p : Pending) : Prop :=
  pairingWindowOpen (window s) = true /\ deadlineReached now (pairingWindowDeadline (window s)) = false /\
  pendingPairingRole p = pairingWindowRole (window s) /\
  pendingPairingVersion p = pairingVersionForRole (pairingWindowRole (window s)) /\
  (pendingPairingVersion p = 1 \/ pendingPairingVersion p = 2).

Lemma pairRequest_run json now s d w :
  wp (handlePairRequest json now) (ends s w (fun s1 =>
    s1 = on_pending (fun _ => noPending) s \/
    exists p, windowAdmits now s p /\
      s1 = set_stateDeadline (pairingWindowDeadline (window s)) (set_state PairingAwaitingPhysical
             (set_completed false noRole (on_pending (fun _ => p) s))))) (s, (d, w)).
Proof.
  assert (Hq : quietly w w) by reflexivity. unfold handlePairRequest, answerPairRequest. handler.
  - apply ends_true; [done|]. by left.
  - apply ends_true; [done|]. by left.
  - apply ends_true; [done|]. right. eexists. split; [|reflexivity].
    apply orb_false_iff in E3 as [E3 E3']. apply negb_false_iff in E3, E4.
    apply Z.eqb_eq in E4. repeat split; try done. cbn. by destruct (versionEquals l 1); [left|right].
Qed.

(** An identifier that is not zero and that no controller has. *)
Definition freshId (d : Sec) (cid : list Z) : Prop :=
  allZero cid = false /\ findControllerRoot d (Some cid) true = None.

Lemma drawControllerId_run n (Q : bool -> State -> Prop) s d w w1 : quietly w w1 ->
  (forall b cid w', quietly w w' -> (b = true -> freshId d cid) ->
     Q b (on_pending (with_pendingId cid) s, (d, w'))) ->
  wp (drawControllerId n) Q (s, (d, w1)).
Proof.
  assert (Hid : forall s, on_pending (with_pendingId (pendingControllerId (pending s))) s = s)
    by (by intros [? ? ? ? ? ? []]).
  revert s w1. induction n as [|n IH]; intros s w1 Hq HQ; simpl.
  { apply wp_ret. rewrite <- (Hid s). by apply HQ. }
  handler; try (apply IH; [done|]; intros b cid w' Hw Hf).
  - apply (HQ b cid w' Hw Hf).
  - apply (HQ b cid w' Hw Hf).
  - apply wp_ret, HQ; [done|]. by intros _.
  - apply (HQ b cid w' Hw Hf).
Qed.

Lemma pendingProof_run r (Q : option (list Z) -> State -> Prop) s d w w1 : quietly w w1 ->
  (forall w', quietly w w' -> Q (fst (makePendingPairingProof r (s, (d, w1)))) (s, (d, w'))) ->
  wp (makePendingPairingProof r) Q (s, (d, w1)).
Proof.
  intros Hq HQ.
  assert (Hs : wp (makePendingPairingProof r) (fun _ st => exists w', st = (s, (d, w')) /\ quietly w w')
                 (s, (d, w1))).
  { unfold makePendingPairingProof. handler; apply wp_ret; eauto. }
  unfold wp in *. destruct Hs as (w' & -> & Hw). by apply HQ.
Qed.

(** The grant: the pending controller of a session the user may confirm. *)
Definition granted (now : Z) (d : Sec) (s s1 : Session) : Prop :=
  exists cid root, freshId d cid /\ mayConfirm now s = true /\
    s1 = set_state PairingAwaitingCommit
           (on_pending (fun p => with_pendingId cid (with_pendingRoot root p)) s).

(** After an operation that was abandoned. *)
Definition gaveUp (now : Z) (s s1 : Session) : Prop :=
  exists cause s2, scratched s s2 /\ s1 = closed now cause s2.

Lemma findControllerRoot_status r d cid :
  findControllerRoot (set_status (with_result r (status_ d)) d) cid true = findControllerRoot d cid true.
Proof. reflexivity. Qed.

Lemma generate_run a b c e (Q : SecurityResult * list Z -> State -> Prop) s d w w1 : quietly w w1 ->
  (forall r root w', quietly w w' -> Q (r, root) (s, (set_status (with_result r (status_ d)) d, w'))) ->
  wp (security (generatePendingControllerRoot a b c e true)) Q (s, (d, w1)).
Proof.
  intros Hq HQ. unfold wp, security, generatePendingControllerRoot, setResult, updStatus, upd, self, plat,
    modify, gets, bind, ret. simpl.
  destruct (begun (status_ d)); simpl; [|by apply HQ].
  destruct (negb a || negb b || negb c || negb e); simpl; [by apply HQ|].
  pose proof (silent_mute (randomBytes kKitsuSecretBytes) w1) as Hm. unfold mute in Hm.
  unfold silent in *. destruct (randomBytes kKitsuSecretBytes (fst w1)) as [r w2]. simpl in *.
  assert (Hq2 : quietly w (w2, snd w1)) by (etransitivity; [exact Hq|by apply quietly_same]).
  destruct r; simpl; by apply HQ.
Qed.

Lemma confirm_run now s d w :
  wp (confirmPendingPairing now) (fun b st => exists s1 r w1,
    st = (s1, (set_status r d, w1)) /\ quietly w w1 /\
    if b then granted now d s s1 else s1 = s /\ w1 = w \/
         mayConfirm now s = true /\ (s1 = on_pending (fun _ => noPending) s \/ gaveUp now s s1)) (s, (d, w)).
Proof.
  assert (Hq : quietly w w) by reflexivity. assert (Hst : set_status (status_ d) d = d) by (by destruct d).
  unfold confirmPendingPairing. apply wp_bind, wp_me. apply wp_if; intros Hc.
  { apply wp_ret. exists s, (status_ d), w. rewrite Hst. split; [done|split; [done|]]. by left. }
  apply negb_false_iff in Hc. cbv zeta. apply wp_bind, (generate_run _ _ _ _ _ _ _ w w Hq).
  intros r root w1 Hq1. apply wp_bind, wp_set.
  assert (Hgive : forall cause s2 w2, quietly w w2 -> scratched s s2 ->
    wp (abandonPairing now cause) (fun b st => exists s1 r w1,
      st = (s1, (set_status r d, w1)) /\ quietly w w1 /\
      if b then granted now d s s1 else s1 = s /\ w1 = w \/
         mayConfirm now s = true /\ (s1 = on_pending (fun _ => noPending) s \/ gaveUp now s s1))
      (s2, (set_status (with_result r (status_ d)) d, w2))).
  { intros cause s2 w2 Hw Hs. handler. apply wp_ret. eexists _, _, _. split; [reflexivity|]. split; [done|].
    right. split; [done|]. right. eexists _, _. split; [|reflexivity]. etransitivity; [exact Hs|]. scratch. }
  apply wp_if; intros Hr.
  { clear Hgive. handler; apply wp_ret; eexists _, _, _; (split; [reflexivity|]); (split; [done|]); right;
      (split; [done|]); by left. }
  unfold grantPairing. apply wp_bind, (drawControllerId_run _ _ _ _ w w1 Hq1).
  intros b cid w2 Hq2 Hfresh. destruct b; cbn [negb]; [|apply Hgive; [done|scratch]].
  apply wp_bind, (pendingProof_run _ _ _ _ w w2 Hq2). intros w3 Hq3.
  destruct (fst _) as [proof|]; [|apply Hgive; [done|scratch]].
  apply wp_bind, wp_me. destruct (grantFor _ _) as [x|]; [|apply Hgive; [done|scratch]].
  apply wp_bind, (sendWriter_after _ _ _ _ w w3 Hq3). intros ok w4 Hq4.
  destruct ok; cbn [negb]; [|apply Hgive; [done|scratch]].
  apply wp_bind, wp_set, wp_ret. eexists _, _, _. split; [reflexivity|]. split; [done|].
  exists cid, root. split; [|done]. by apply Hfresh.
Qed.

(** The frame proves knowledge of the pending root. *)
Definition commitProven (json : list Z) s d w : Prop :=
  exists supplied expected,
    suppliedCommit json (pending s) = Some supplied /\
    fst (makePendingPairingProof "client" (s, (d, w))) = Some expected /\
    constantTimeEqual expected supplied 32 = true.

Definition paired (s s1 : Session) : Prop :=
  s1 = set_state AwaitingHello
         (on_pending (fun _ => noPending) (set_completed true (pendingPairingRole (pending s)) s)).

Lemma pairCommit_run json now s d w :
  wp (handlePairCommit json now) (fun b st => exists s1 d1 w1,
    st = (s1, (d1, w1)) /\ quietly w w1 /\
    if b then commitProven json s d w /\ paired s s1 else scratched s s1 \/ gaveUp now s s1) (s, (d, w)).
Proof.
  assert (Hq : quietly w w) by reflexivity. unfold handlePairCommit. apply wp_bind, wp_me.
  destruct (suppliedCommit json (pending s)) as [supplied|] eqn:Es.
  2: { apply wp_ret. eexists _, _, _. split; [reflexivity|]. split; [done|]. left. scratch. }
  apply wp_bind, (pendingProof_run _ _ _ _ w w Hq). intros w1 Hq1. cbv zeta.
  destruct (fst (makePendingPairingProof "client" (s, (d, w)))) as [expected|] eqn:Ee; cbn [negb].
  2: { apply wp_ret. eexists _, _, _. split; [reflexivity|]. split; [done|]. left. scratch. }
  destruct (constantTimeEqual expected supplied 32) eqn:Ev; cbn [negb].
  2: { apply wp_ret. eexists _, _, _. split; [reflexivity|]. split; [done|]. left. scratch. }
  assert (Hproven : commitProven json s d w) by (by exists supplied, expected).
  clear Ee. apply wp_bind, (pendingProof_run _ _ _ _ w w1 Hq1). intros w2 Hq2.
  destruct (fst _) as [okProof|].
  2: { apply wp_ret. eexists _, _, _. split; [reflexivity|]. split; [done|]. left. scratch. }
  clear Hq Hq1. unfold commitPairing. handler; apply wp_ret; eexists _, _, _; (split; [reflexivity|]);
    (split; [done|]); try done.
  - left. scratch.
  - destruct ok; [discriminate|]. right. eexists _, (on_pending (fun _ => noPending) (set_completed true (pendingPairingRole (pending s)) s)).
    split; [|reflexivity]. scratch.
  - by destruct ok.
  - right. eexists _, _. split; [|reflexivity]. scratch.
Qed.

(** The frame proves knowledge of the root of a known controller. *)
Definition clientProven (json : list Z) s w : Prop :=
  let x := secrets s in
  exists supplied expected,
    suppliedProof json = Some supplied /\ controllerKnown x = true /\
    fst (makeHandshakeProof (controllerRoot x) "client" (controllerId x) (clientNonce x)
           (deviceNonce x) w) = inr expected /\
    constantTimeEqual expected supplied 32 = true.

(** The session after the handshake, with the keys derived. *)
Definition entered (c2d d2c : list Z) (s : Session) : Session :=
  set_state Authenticated (set_stateDeadline 0
    (on_secrets (fun x => with_sequences 1 1 (with_root (replicate 32 0) (with_keys c2d d2c x)))
       (set_proofFailures 0 s))).

Definition noRequest (o : Output) : bool := match o with OutRequest _ _ _ => false | _ => true end.

Lemma calm_noRequest w w' : quietly w w' -> emits noRequest w w'.
Proof.
  intros (new & Hw & Hc). exists new. split; [done|]. apply forallb_forall. intros o Ho.
  rewrite forallb_forall in Hc. by specialize (Hc o Ho); destruct o.
Qed.

Lemma clientAuth_run json s d w :
  wp (handleClientAuth json) (fun b st => exists s1 w1, st = (s1, (d, w1)) /\
    if b then clientProven json s w /\ (exists c2d d2c, s1 = entered c2d d2c s) /\
              exists j, snd w1 = OutSent j :: OutAuthenticated true :: snd w
    else scratched s s1 /\ emits noRequest w w1) (s, (d, w)).
Proof.
  assert (Hno : forall s1 w1, scratched s s1 -> quietly w w1 ->
    wp (ret false) (fun (b : bool) st => exists s1 w1, st = (s1, (d, w1)) /\
      if b then clientProven json s w /\ (exists c2d d2c, s1 = entered c2d d2c s) /\
              exists j, snd w1 = OutSent j :: OutAuthenticated true :: snd w
      else scratched s s1 /\ emits noRequest w w1) (s1, (d, w1))).
  { intros s1 w1 Hs Hq. apply wp_ret. exists s1, w1. split; [done|]. split; [done|]. by apply calm_noRequest. }
  unfold handleClientAuth. destruct (suppliedProof json) as [supplied|] eqn:Es; [|by apply Hno].
  apply wp_bind, wp_me, wp_bind, wp_world_run; [apply handshakeProof_mute|]. intros w1 Hw1. cbv zeta.
  destruct (fst _) as [|expected] eqn:Ee; [apply Hno; [done|by apply quietly_same]|].
  destruct (controllerKnown (secrets s)) eqn:Ek; cbn [andb]; [|apply Hno; [done|by apply quietly_same]].
  destruct (constantTimeEqual expected supplied 32) eqn:Ev; cbn [negb];
    [|apply Hno; [done|by apply quietly_same]].
  assert (Hp : clientProven json s w) by (by exists supplied, expected).
  clear Ee. apply wp_bind, wp_world; [apply sessionKeys_mute|]. intros keys w2 Hw2. rewrite Hw1 in Hw2.
  destruct keys as [|[c2d d2c]]; [apply Hno; [done|by apply quietly_same]|].
  apply wp_bind, wp_set, wp_bind, wp_world; [apply handshakeProof_mute|]. intros ok w3 Hw3. rewrite Hw2 in Hw3.
  destruct ok as [|okProof]; [apply Hno; [scratch|by apply quietly_same]|].
  destruct (encodeB64 okProof 43) as [proofB64|]; [|apply Hno; [scratch|by apply quietly_same]].
  clear Hno. unfold enterAuthenticated. apply wp_bind, wp_record. intros allowed w4 Hw4. rewrite Hw3 in Hw4.
  assert (Hn4 : emits noRequest w w4) by (by eapply quietly_cons).
  destruct allowed; cbn [negb].
  2: { apply wp_ret. eexists _, _. split; [reflexivity|]. split; [scratch|done]. }
  unfold sendWriter. destruct (deviceOk proofB64) as [j|].
  2: { apply wp_bind, wp_ret. cbn [negb]. apply wp_bind, wp_record. intros ok w5 Hw5. apply wp_ret.
       eexists _, _. split; [reflexivity|]. split; [scratch|]. etransitivity; [exact Hn4|].
       by eapply quietly_cons. }
  apply wp_bind, wp_record. intros sent w5 Hw5. destruct sent; cbn [negb].
  - do 5 apply wp_bind, wp_set. apply wp_ret. eexists _, _. split; [reflexivity|].
    split; [done|]. split; [by exists c2d, d2c|]. exists j. by rewrite Hw5, Hw4.
  - apply wp_bind, wp_record. intros ok w6 Hw6. apply wp_ret.
    eexists _, _. split; [reflexivity|]. split; [scratch|]. etransitivity; [exact Hn4|].
    exists [OutAuthenticated false; OutSent j]. by rewrite Hw6, Hw5.
Qed.

(** *** Authenticated messages *)

Definition sentOnly (o : Output) : bool := match o with OutSent _ => true | _ => false end.

Lemma sentOnly_calm w w' : emits sentOnly w w' -> quietly w w'.
Proof.
  intros (new & Hw & Hc). exists new. split; [done|]. apply forallb_forall. intros o Ho.
  rewrite forallb_forall in Hc. by specialize (Hc o Ho); destruct o.
Qed.

(** One more message sent. *)
Definition sentOne (s : Session) : Session :=
  on_secrets (fun x => with_sequences (expectedClientSequence x) (u64 (nextDeviceSequence x + 1)) x) s.

Lemma sendAuthenticated_run c r o p (Q : bool -> State -> Prop) s d w :
  (forall w', emits sentOnly w w' -> Q false (s, (d, w'))) ->
  (forall w', emits sentOnly w w' -> state s = Authenticated -> nextDeviceSequence (secrets s) <> UINT64_MAX ->
     Q true (sentOne s, (d, w'))) ->
  wp (sendAuthenticated c r o p) Q (s, (d, w)).
Proof.
  intros Hf Ht. assert (Hr : emits sentOnly w w) by reflexivity.
  unfold sendAuthenticated. apply wp_bind, wp_me.
  destruct (negb _ || _) eqn:E; [by apply wp_ret, Hf|].
  apply orb_false_iff in E as [Es En]. apply negb_false_iff, bool_decide_eq_true in Es.
  apply Z.eqb_neq in En.
  apply wp_bind, wp_world; [apply random_mute|]. intros nonce w1 Hw1.
  destruct nonce as [nonce|]; [|by apply wp_ret, Hf, quietly_same].
  apply wp_bind, wp_world; [apply encodeEnvelope_mute|]. intros e w2 Hw2. rewrite Hw1 in Hw2.
  destruct e as [|json]; [by apply wp_ret, Hf, quietly_same|].
  apply wp_bind, wp_record. intros sent w3 Hw3. rewrite Hw2 in Hw3.
  assert (Hq : emits sentOnly w w3) by (by eapply quietly_cons).
  destruct sent; cbn [negb]; [|by apply wp_ret, Hf]. apply wp_bind, wp_set, wp_ret. by apply Ht.
Qed.

Lemma respond_run r p now (Q : bool -> State -> Prop) s d w :
  (forall w', quietly w w' -> Q false (closed now ResponseSendFailed s, (d, w'))) ->
  (forall w', emits sentOnly w w' -> state s = Authenticated -> nextDeviceSequence (secrets s) <> UINT64_MAX ->
     Q true (sentOne s, (d, w'))) ->
  wp (respond r p now) Q (s, (d, w)).
Proof.
  intros Hf Ht. unfold respond. apply wp_bind, sendAuthenticated_run.
  - intros w1 Hq%sentOnly_calm. cbn [negb]. handler. by apply wp_ret, Hf.
  - intros w1 Hq Hs Hn. cbn [negb]. apply wp_ret. by apply Ht.
Qed.

(** A request the session passes on: its envelope verified, its operation allowed. *)
Definition requestProven (json : list Z) s w (request : DecodedEnvelope) (payload : list Z) : Prop :=
  let x := secrets s in
  fst (decodeAndVerifyEnvelope json (clientToDeviceKey x) ChannelRequest (expectedClientSequence x)
         kMaximumEnvelopePayloadBytes w) = inr (request, payload) /\
  requestAuthorized x request payload = true.

(** The session after a request was answered, and after "controller.forget". *)
Definition served (barrier : bool) (s : Session) : Session :=
  on_secrets (fun x => with_barrier barrier (with_sequences (u64 (expectedClientSequence x + 1))
                         (u64 (nextDeviceSequence x + 1)) x)) s.
Definition forgotten (now : Z) (s : Session) : Session :=
  on_close (closeIn (u32 (now + kTransmitDrainTimeoutMs)) true ControllerForget)
    (set_state Closing (on_secrets (fun _ => noSecrets) s)).

(** [wm] is the world once the delegate was called, if it was. *)
Definition passedOn (json : list Z) s w (wm : Recorded W) : Prop :=
  snd wm = snd w \/
  exists request payload, requestProven json s w request payload /\
    beq (env_operation request) (bytes_of "controller.forget") = false /\
    snd wm = OutRequest (controllerRole (secrets s)) request payload :: snd w.

Definition envelopePost (json : list Z) now s w (b : bool) (st : State) : Prop :=
  exists s1 d1 w1 wm, st = (s1, (d1, w1)) /\ passedOn json s w wm /\
    if b then
      (exists request payload, requestProven json s w request payload) /\
      state s = Authenticated /\ nextDeviceSequence (secrets s) <> UINT64_MAX /\
      ((exists barrier, s1 = served barrier s) /\ emits sentOnly wm w1 \/ s1 = forgotten now s /\ quietly wm w1)
    else (exists v, (v = backoffUntil s \/ v = u32 (now + kBleControllerBackoffMs)) /\
           gaveUp now (set_backoffUntil v s) s1) /\ quietly wm w1.

Lemma set_backoffUntil_same s : set_backoffUntil (backoffUntil s) s = s.
Proof. by destruct s. Qed.

Lemma envelope_run json now s d w :
  wp (handleAuthenticatedEnvelope json now) (envelopePost json now s w) (s, (d, w)).
Proof.
  unfold handleAuthenticatedEnvelope.
  apply wp_bind, wp_me, wp_bind, wp_world_run; [apply decodeEnvelope_mute|]. intros w1 Hw1. cbv zeta.
  assert (Hq : quietly w w1) by (by apply quietly_same).
  assert (Hreject : wp (set (set_backoffUntil (u32 (now + kBleControllerBackoffMs))) ;;;
                        failAndClose now SessionProtocolViolation ;;; ret false)
                      (envelopePost json now s w) (s, (d, w1))).
  { handler. apply wp_ret. eexists _, _, _, w. split; [reflexivity|]. split; [by left|].
    split; [|done]. eexists. split; [by right|]. eexists _, _. split; [|reflexivity]. scratch. }
  destruct (fst _) as [|[request payload]] eqn:Ed; [done|].
  destruct (requestAuthorized (secrets s) request payload) eqn:Ea; cbn [negb]; [|done].
  clear Hreject. assert (Hp : requestProven json s w request payload) by done.
  assert (Hgave : forall f now cause v, v = backoffUntil s -> gaveUp now (set_backoffUntil v s) (closed now cause (on_secrets f s))).
  { intros f now' cause v ->. rewrite set_backoffUntil_same. eexists _, _. split; [|reflexivity]. scratch. }
  apply wp_bind, wp_set. destruct (beq _ _) eqn:Ef.
  - unfold forgetController. apply wp_bind, wp_me, wp_bind.
    assert (Hforget : forall revoked d1 w2, snd w2 = snd w ->
      wp (retained <- security (self (fun d => findControllerRoot d (Some (controllerId (secrets s))) true)) ;;
          responded <- respond request
                 (if bool_decide (revoked = SecOk) then forgetAccepted else forgetRejected) now ;;
          if negb responded then ret false
          else
            when (bool_decide (revoked = SecOk) || match retained with Some _ => false | None => true end)
              (world (setBleApplicationAuthenticated false) ;;;
               clearSessionSecrets ;;;
               set (set_state Closing) ;;;
               set (on_close (closeIn (u32 (now + kTransmitDrainTimeoutMs)) true ControllerForget))) ;;;
            ret true) (envelopePost json now s w)
        (on_secrets (fun x => with_sequences (u64 (expectedClientSequence x + 1)) (nextDeviceSequence x) x) s,
         (d1, w2))).
    { intros revoked d1 w2 Hw2. apply wp_bind, wp_security_self, wp_bind, respond_run.
      - intros w3 Hq3. cbn [negb]. apply wp_ret. eexists _, _, _, w2. split; [reflexivity|].
        split; [by left|]. split; [|done]. exists (backoffUntil s). split; [by left|]. by apply Hgave.
      - intros w3 Hq3 Hs Hn. cbn [negb]. apply wp_bind. unfold when. apply wp_if; intros Hc.
        + apply sentOnly_calm in Hq3. handler. apply wp_ret. eexists _, _, _, w2. split; [reflexivity|].
          split; [by left|]. split; [by exists request, payload|]. split; [done|]. split; [done|]. by right.
        + apply wp_ret, wp_ret. eexists _, _, _, w2. split; [reflexivity|].
          split; [by left|]. split; [by exists request, payload|]. split; [done|]. split; [done|]. left.
          split; [|done]. exists (authenticatedRequestBarrier (secrets s)). by destruct s as [? ? ? ? ? []]. }
    destruct (beq payload (js "{}")).
    + apply wp_security; [apply revoke_mute|]. intros r d1 w2 Hw2. apply Hforget. by rewrite Hw2.
    + by apply wp_ret, Hforget.
  - unfold delegateRequest. apply wp_bind, wp_me, wp_bind, wp_record. intros answer w2 Hw2. cbv zeta.
    rewrite Hw1 in Hw2.
    assert (Hpass : passedOn json s w w2) by (right; by exists request, payload).
    apply wp_bind, respond_run.
    + intros w3 Hq3. cbn [negb]. apply wp_ret. eexists _, _, _, w2. split; [reflexivity|].
      split; [done|]. split; [|done]. exists (backoffUntil s). split; [by left|]. by apply Hgave.
    + intros w3 Hq3 Hs Hn. cbn [negb]. apply wp_bind, wp_set, wp_ret. eexists _, _, _, w2.
      split; [reflexivity|]. split; [done|]. split; [by exists request, payload|]. split; [done|].
      split; [done|]. left. split; [|done]. by exists true.
Qed.

(** ** Frames *)

(** The frame is looked at: the session has begun on a secure link. *)
Definition readsFrames (s : Session) : Prop := begun_ s = true /\ secureLink (link s) = true.

Inductive FrameOutcome (json : list Z) (now : Z) s d w : Session -> Recorded W -> Prop :=
  | frame_dropped s1 w1 : gaveUp now s s1 -> quietly w w1 ->
      FrameOutcome json now s d w s1 w1
  | frame_failed s2 w1 : scratched s s2 -> state s <> Closing -> readsFrames s -> emits noRequest w w1 ->
      FrameOutcome json now s d w (failed now s2) w1
  | frame_ignored w1 : state s = Closing -> quietly w w1 -> FrameOutcome json now s d w s w1
  | frame_hello x w1 : state s = AwaitingHello -> readsFrames s -> quietly w w1 ->
      sameCounters (secrets s) x -> helloFor d x ->
      FrameOutcome json now s d w (set_state AwaitingClientAuth (on_secrets (fun _ => x) s)) w1
  | frame_refused w1 : state s = AwaitingHello -> readsFrames s -> quietly w w1 ->
      FrameOutcome json now s d w (on_pending (fun _ => noPending) s) w1
  | frame_pending p w1 : state s = AwaitingHello -> readsFrames s -> quietly w w1 -> windowAdmits now s p ->
      FrameOutcome json now s d w
        (set_stateDeadline (pairingWindowDeadline (window s)) (set_state PairingAwaitingPhysical
           (set_completed false noRole (on_pending (fun _ => p) s)))) w1
  | frame_entered c2d d2c j w1 : state s = AwaitingClientAuth -> readsFrames s -> clientProven json s w ->
      snd w1 = OutSent j :: OutAuthenticated true :: snd w ->
      FrameOutcome json now s d w (entered c2d d2c s) w1
  | frame_paired s1 w1 : state s = PairingAwaitingCommit -> readsFrames s -> quietly w w1 ->
      commitProven json s d w -> paired s s1 -> FrameOutcome json now s d w s1 w1
  | frame_answered s1 wm w1 : state s = Authenticated -> readsFrames s -> passedOn json s w wm ->
      nextDeviceSequence (secrets s) <> UINT64_MAX ->
      (exists request payload, requestProven json s w request payload) ->
      (exists barrier, s1 = served barrier s) /\ emits sentOnly wm w1 \/ s1 = forgotten now s /\ quietly wm w1 ->
      FrameOutcome json now s d w s1 w1
  | frame_broken v s1 wm w1 : state s = Authenticated -> readsFrames s -> passedOn json s w wm ->
      v = backoffUntil s \/ v = u32 (now + kBleControllerBackoffMs) ->
      gaveUp now (set_backoffUntil v s) s1 -> quietly wm w1 -> FrameOutcome json now s d w s1 w1.

Lemma scratched_state s s1 : scratched s s1 -> state s1 = state s.
Proof. by intros (x & p & b & r & ->). Qed.
Lemma gaveUp_state now s s1 : gaveUp now s s1 -> state s1 = Closing.
Proof. by intros (c & s2 & _ & ->). Qed.

(** The session a handler leaves, before [onFrame] clears a failure. *)
Inductive StateOutcome (json : list Z) (now : Z) s d w : bool -> Session -> Recorded W -> Prop :=
  | state_done s1 w1 : FrameOutcome json now s d w s1 w1 -> StateOutcome json now s d w true s1 w1
  | state_gone s1 w1 : FrameOutcome json now s d w s1 w1 -> state s1 = Closing ->
      StateOutcome json now s d w false s1 w1
  | state_open s1 w1 : scratched s s1 -> emits noRequest w w1 -> (state s = Closing -> quietly w w1 /\ s1 = s) ->
      StateOutcome json now s d w false s1 w1.

Definition outcomePost (json : list Z) now s d w (b : bool) (st : State) : Prop :=
  exists s1 d1 w1, st = (s1, (d1, w1)) /\ StateOutcome json now s d w b s1 w1.

(** From what a handler ends in to an outcome. *)
Lemma ends_outcome json now s d w P m : readsFrames s -> state s <> Closing ->
  (forall s1 w1, quietly w w1 -> P s1 -> FrameOutcome json now s d w s1 w1) ->
  wp m (ends s w P) (s, (d, w)) -> wp m (outcomePost json now s d w) (s, (d, w)).
Proof.
  intros Hr Hs HP Hm. eapply wp_mono; [exact Hm|]. intros b st (s1 & d1 & w1 & -> & Hq & Hb).
  eexists _, _, _. split; [reflexivity|]. destruct b; [by apply state_done, HP|].
  apply state_open; [done|by apply calm_noRequest|by intros Hc].
Qed.

Lemma hello_run json now s d w : readsFrames s -> state s = AwaitingHello ->
  wp (handleHello json now) (outcomePost json now s d w) (s, (d, w)).
Proof.
  intros Hr Hs.
  assert (Hno : wp (ret false) (outcomePost json now s d w) (s, (d, w))).
  { apply wp_ret. eexists _, _, _. split; [reflexivity|]. by apply state_open. }
  unfold handleHello. destruct (parseFlatObject json) as [fields|]; [|done].
  destruct (_ && _).
  - eapply ends_outcome; [done|by rewrite Hs| |apply clientHello_run].
    intros s1 w1 Hq (x & -> & Hc & Hh). by apply frame_hello.
  - destruct (_ && _); [|done]. eapply ends_outcome; [done|by rewrite Hs| |apply pairRequest_run].
    intros s1 w1 Hq [->|(p & Hp & ->)]; [by apply frame_refused|by apply frame_pending].
Qed.

Lemma state_run json now s d w : readsFrames s ->
  wp (handleState (state s) json now) (outcomePost json now s d w) (s, (d, w)).
Proof.
  intros Hr.
  assert (Hno : wp (ret false) (outcomePost json now s d w) (s, (d, w))).
  { apply wp_ret. eexists _, _, _. split; [reflexivity|]. by apply state_open. }
  destruct (state s) eqn:Es; simpl; try done.
  - by apply hello_run.
  - eapply wp_mono; [apply clientAuth_run|]. intros b st (s1 & w1 & -> & Hb).
    eexists _, _, _. split; [reflexivity|]. destruct b.
    + destruct Hb as (Hp & (c2d & d2c & ->) & j & Hj). by eapply state_done, frame_entered.
    + destruct Hb as [Hb Hn]. apply state_open; [done|done|by rewrite Es].
  - eapply wp_mono; [apply envelope_run|].
    intros b st (s1 & d1 & w1 & wm & -> & Hm & Hb). eexists _, _, _. split; [reflexivity|]. destruct b.
    + destruct Hb as (Hp & _ & Hn & Hb). by eapply state_done, frame_answered.
    + destruct Hb as [(v & Hv & Hg) Hq]. apply state_gone; [by eapply frame_broken|by eapply gaveUp_state].
  - eapply wp_mono; [apply pairCommit_run|]. intros b st (s1 & d1 & w1 & -> & Hq & Hb).
    eexists _, _, _. split; [reflexivity|]. destruct b; [by destruct Hb; eapply state_done, frame_paired|].
    destruct Hb as [Hb|Hb]; [apply state_open; [done|by apply calm_noRequest|by rewrite Es]|].
    apply state_gone; [by eapply frame_dropped|by eapply gaveUp_state].
Qed.

Lemma onFrame_run json now s d w :
  wp (onFrame json now) (fun _ st => exists s1 d1 w1, st = (s1, (d1, w1)) /\
    FrameOutcome json now s d w s1 w1) (s, (d, w)).
Proof.
  assert (Hq : quietly w w) by reflexivity.
  assert (Hgave : forall cause, gaveUp now s (closed now cause s)).
  { intros cause. eexists _, _. split; [|reflexivity]. scratch. }
  unfold onFrame. apply wp_bind, wp_me. apply wp_if; intros Hb.
  { handler. eexists _, _, _. split; [reflexivity|]. by eapply frame_dropped. }
  apply orb_false_iff in Hb as [[Hb _]%orb_false_iff Hl]. apply negb_false_iff in Hb, Hl.
  apply wp_if; intros Hd.
  { handler. eexists _, _, _. split; [reflexivity|]. by eapply frame_dropped. }
  apply wp_bind. eapply wp_mono; [by apply state_run|].
  intros handled st (s1 & d1 & w1 & -> & Ho). apply wp_bind, wp_me.
  destruct Ho as [s1 w1 Ho|s1 w1 Ho Hs|s1 w1 Hs Hn Hc]; cbn [negb andb].
  - apply wp_ret. by eexists _, _, _.
  - rewrite bool_decide_eq_true_2 by done. apply wp_ret. by eexists _, _, _.
  - rewrite (scratched_state _ _ Hs). unfold when. apply wp_if; intros Hst.
    + apply negb_true_iff, bool_decide_eq_false in Hst. apply failProof_run. intros w2 Hw2.
      eexists _, _, _. split; [reflexivity|]. apply frame_failed; [done|done|done|].
      etransitivity; [exact Hn|by apply calm_noRequest].
    + apply negb_false_iff, bool_decide_eq_true in Hst. apply wp_ret. eexists _, _, _.
      destruct (Hc Hst) as [Hc1 ->]. split; [reflexivity|]. by apply frame_ignored.
Qed.

(** ** The link, the window and time *)

(** A new secure link. *)
Definition linkedUp (now : Z) (s : Session) : Session :=
  on_close (closeIn 0 false CauseNone)
    (set_stateDeadline (u32 (now + kBleHandshakeTotalTimeoutMs)) (set_state AwaitingHello
       (on_pending (fun _ => noPending) (on_secrets (fun _ => noSecrets) (set_backoffUntil 0 s))))).
Definition backingOff (now : Z) (s : Session) : bool :=
  negb (backoffUntil s =? 0) && negb (deadlineReached now (backoffUntil s)).
Definition established (l : Link) (now : Z) (s : Session) : Session :=
  if negb (begun_ s) then s
  else if negb (secureLink l) then closed now SecureLinkRejected (set_link l s)
  else if backingOff now s then set_state Backoff (set_link l s)
  else linkedUp now (set_link l s).

Lemma established_run l now s d w :
  wp (onSecureLinkEstablished l now) (fun _ st => exists w1, st = (established l now s, (d, w1)) /\ quietly w w1 /\
    (begun_ s && secureLink l && backingOff now s = true ->
       snd w1 = OutDisconnect AuthenticationBackoff :: snd w)) (s, (d, w)).
Proof.
  assert (Hq : quietly w w) by reflexivity. unfold onSecureLinkEstablished, established, resetForSecureLink, backingOff.
  apply wp_bind, wp_me. destruct (begun_ s); cbn [negb andb]; [|by apply wp_ret; exists w].
  apply wp_bind, wp_set. apply wp_if; intros Hl.
  { apply failAndClose_after with w; [done|]. intros w1 Hq1. exists w1.
    rewrite Hl. apply negb_true_iff in Hl. by rewrite Hl. }
  apply negb_false_iff in Hl. rewrite Hl. apply wp_bind, wp_me. cbn [backoffUntil set_link].
  destruct (_ && _).
  - apply wp_bind, wp_set, wp_record. intros u w1 Hw1. exists w1. split; [done|]. split; [|done].
    by eapply quietly_cons.
  - handler. eexists. split; [reflexivity|]. by split.
Qed.

Definition expired (now : Z) (s : Session) : Session :=
  if pairingWindowOpen (window s) && deadlineReached now (pairingWindowDeadline (window s))
  then set_window noWindow s else s.

Lemma expireWindow_run now s d w :
  wp (expireWindow now) (fun _ st => st = (expired now s, (d, w))) (s, (d, w)).
Proof. unfold expireWindow, expired. apply wp_bind, wp_me. unfold when. by destruct (_ && _). Qed.

Definition unlinked (now : Z) (s : Session) : Session :=
  if negb (begun_ s) then s
  else
    set_state (if backoffUntil s =? 0 then Disconnected else Backoff)
      (on_close (closeIn 0 false CauseNone) (set_stateDeadline 0 (expired now (set_link noLink
         (on_secrets (fun _ => noSecrets) (on_pending (fun _ => noPending) s)))))).

Lemma linkClosed_run now s d w :
  wp (onLinkClosed now) (fun _ st => st = (unlinked now s, (d, w))) (s, (d, w)).
Proof.
  unfold onLinkClosed, unlinked. apply wp_bind, wp_me. destruct (begun_ s); cbn [negb]; [|done].
  unfold clearPendingPairing, clearSessionSecrets. do 3 apply wp_bind, wp_set.
  apply wp_bind. eapply wp_mono; [apply expireWindow_run|]. intros u st ->.
  do 2 apply wp_bind, wp_set. apply wp_bind, wp_me, wp_set. unfold expired. cbn. by destruct (_ && _).
Qed.

Definition windowed (open : bool) (remaining now : Z) (role : ControllerRole) (s : Session) : Session :=
  if negb (begun_ s) then s
  else
    let admits := open && validPairingRole role && negb (remaining =? 0) && (remaining <=? 60000) in
    set_completed false noRole
      (set_window (mkWindow admits (if admits then role else noRole) (if admits then u32 (now + remaining) else 0))
        (if isPairing (state s) then set_state AwaitingHello (on_pending (fun _ => noPending) s) else s)).

Lemma pairingWindow_run open remaining now role s d w :
  wp (setPairingWindow open remaining now role) (fun _ st => st = (windowed open remaining now role s, (d, w)))
    (s, (d, w)).
Proof.
  unfold setPairingWindow, windowed. apply wp_bind, wp_me. destruct (begun_ s); cbn [negb]; [|done].
  cbv zeta. apply wp_bind, wp_me. apply wp_bind. unfold when. by destruct (isPairing (state s)).
Qed.

Definition cancelled (s : Session) : Session :=
  if negb (begun_ s) then s
  else let s1 := on_pending (fun _ => noPending) s in
       if isPairing (state s) then set_state AwaitingHello s1 else s1.

Lemma cancel_run s d w : wp cancelPendingPairing (fun _ st => st = (cancelled s, (d, w))) (s, (d, w)).
Proof.
  unfold cancelPendingPairing, cancelled. apply wp_bind, wp_me. destruct (begun_ s); cbn [negb]; [|done].
  unfold clearPendingPairing. apply wp_bind, wp_set, wp_bind, wp_me. unfold when. cbn.
  by destruct (isPairing (state s)).
Qed.

Lemma sendEvent_run o p (Q : bool -> State -> Prop) s d w :
  (forall w', emits sentOnly w w' -> Q false (s, (d, w'))) ->
  (forall w', emits sentOnly w w' -> state s = Authenticated -> authenticatedRequestBarrier (secrets s) = true ->
     nextDeviceSequence (secrets s) <> UINT64_MAX -> Q true (sentOne s, (d, w'))) ->
  wp (sendEvent o p) Q (s, (d, w)).
Proof.
  intros Hf Ht. unfold sendEvent. apply wp_bind, wp_me.
  destruct (authenticatedRequestBarrier (secrets s)); cbn [negb]; [|apply wp_ret, Hf; reflexivity].
  apply wp_bind, wp_world; [apply random_mute|]. intros r w1 Hw1.
  assert (Hq : emits sentOnly w w1) by (by apply quietly_same).
  destruct r as [r|]; [|by apply wp_ret, Hf].
  apply sendAuthenticated_run; intros w2 Hq2; [apply Hf|intros Hs Hn; apply Ht; try done]; by etransitivity.
Qed.

Definition timedOut (now : Z) (s : Session) : bool :=
  (isHandshake (state s) || isPairing (state s)) && negb (stateDeadline s =? 0) &&
  deadlineReached now (stateDeadline s).
Definition timeoutCause (s : Session) : BleCloseCause :=
  if isPairing (state s) then PairingTimeout else HandshakeTimeout.
(** After the timeout test of [loop]. *)
Definition checked (now : Z) (s : Session) : Session :=
  if timedOut now s then closed now (timeoutCause s) s else s.

Lemma loopTimeout_run now s d w :
  wp (loopTimeout now) (fun _ st => exists w1, st = (checked now s, (d, w1)) /\ quietly w w1 /\
    (timedOut now s = false -> w1 = w)) (s, (d, w)).
Proof.
  assert (Hq : quietly w w) by reflexivity.
  unfold loopTimeout, checked, timedOut, timeoutCause. apply wp_bind, wp_me.
  unfold when. apply wp_if; intros Hc; cbn [id] in Hc; rewrite Hc; [|by apply wp_ret; exists w].
  handler; by eexists.
Qed.

(** The disconnection is due: the queue is empty, or the delay is over. *)
Definition finished (s : Session) : Session :=
  on_close (fun c => mkClose 0 false (pendingCloseCause c)) s.
Definition closeDue (now : Z) (drained : bool) (s : Session) : bool :=
  bool_decide (state s = Closing) &&
  (closeAfterTransmit (close s) && drained ||
   negb (closeAt (close s) =? 0) && deadlineReached now (closeAt (close s))).

Lemma finishClose_run s d w :
  wp finishClose (fun _ st => exists w1, st = (finished s, (d, w1)) /\
    snd w1 = OutDisconnect (pendingCloseCause (close s)) :: snd w) (s, (d, w)).
Proof. unfold finishClose. apply wp_bind, wp_set, wp_bind, wp_me, wp_record. intros u w1 Hw1. by exists w1. Qed.

Lemma loopClose_run now s d w :
  wp (loopClose now) (fun _ st => exists w1 drained,
    st = (if closeDue now drained s then finished s else s, (d, w1)) /\
    (if closeDue now drained s then snd w1 = OutDisconnect (pendingCloseCause (close s)) :: snd w
     else snd w1 = snd w) /\ (closeAfterTransmit (close s) = true -> drained = fst (bleTransmitIdle w)))
    (s, (d, w)).
Proof.
  unfold loopClose, closeDue. apply wp_bind, wp_me. cbv zeta. change (id s) with s.
  destruct (bool_decide (state s = Closing)); cbn [andb].
  2: { apply wp_bind, wp_ret. unfold when. apply wp_ret. by exists w, (fst (bleTransmitIdle w)). }
  assert (Hlast : forall drained w0, snd w0 = snd w ->
    closeAfterTransmit (close s) && drained = false ->
    (closeAfterTransmit (close s) = true -> drained = fst (bleTransmitIdle w)) ->
    wp (when (negb (closeAt (close s) =? 0) && deadlineReached now (closeAt (close s))) finishClose)
      (fun _ st => exists w1 drained,
        st = (if closeAfterTransmit (close s) && drained ||
                 negb (closeAt (close s) =? 0) && deadlineReached now (closeAt (close s))
              then finished s else s, (d, w1)) /\
        (if closeAfterTransmit (close s) && drained ||
            negb (closeAt (close s) =? 0) && deadlineReached now (closeAt (close s))
         then snd w1 = OutDisconnect (pendingCloseCause (close s)) :: snd w else snd w1 = snd w) /\
        (closeAfterTransmit (close s) = true -> drained = fst (bleTransmitIdle w))) (s, (d, w0))).
  { intros drained w0 Hw Hd Hi. unfold when. apply wp_if; intros Hc.
    - eapply wp_mono; [apply finishClose_run|]. intros u st (w1 & -> & Hw1).
      exists w1, drained. by rewrite Hd, Hc, Hw1, Hw.
    - apply wp_ret. exists w0, drained. by rewrite Hd, Hc. }
  destruct (closeAfterTransmit (close s)) eqn:Ea; cbn [andb] in Hlast |- *.
  - apply wp_bind, wp_world_run; [apply idle_mute|]. intros w1 Hw1.
    destruct (fst (bleTransmitIdle w)) eqn:Ei.
    + eapply wp_mono; [apply finishClose_run|]. intros u st (w2 & -> & Hw2). exists w2, true.
      by rewrite Hw2, Hw1.
    + by eapply (Hlast false).
  - apply wp_bind, wp_ret. by apply (Hlast false).
Qed.

Definition recovered (now : Z) (s : Session) : Session :=
  if bool_decide (state s = Backoff) && negb (backoffUntil s =? 0) && deadlineReached now (backoffUntil s)
  then set_state Disconnected (set_backoffUntil 0 s) else s.

Lemma loopBackoff_run now s d w :
  wp (loopBackoff now) (fun _ st => st = (recovered now s, (d, w))) (s, (d, w)).
Proof. unfold loopBackoff, recovered. apply wp_bind, wp_me. unfold when. by destruct (_ && _). Qed.

(** The session after [loop]; [drained] tells whether the queue was empty. *)
Definition looped (now : Z) (drained : bool) (s : Session) : Session :=
  if negb (begun_ s) then s
  else
    let s1 := checked now (expired now s) in
    recovered now (if closeDue now drained s1 then finished s1 else s1).

Lemma loop_run now s d w :
  wp (loop now) (fun _ st => exists drained w1, st = (looped now drained s, (d, w1)) /\ quietly w w1 /\
    (begun_ s = true -> closeDue now drained (checked now (expired now s)) = true ->
       exists rest, snd w1 = OutDisconnect (pendingCloseCause (close (checked now (expired now s)))) :: rest) /\
    (timedOut now (expired now s) = false -> emits sentOnly w w1 \/ state s = Closing)) (s, (d, w)).
Proof.
  assert (Hr : quietly w w) by reflexivity.
  unfold loop, looped. apply wp_bind, wp_me. destruct (begun_ s); cbn [negb].
  2: { apply wp_ret. exists false, w. repeat split; try done. by left. }
  apply wp_bind. eapply wp_mono; [apply expireWindow_run|]. intros u st ->.
  set (s0 := expired now s). assert (Hst : state s0 = state s)
    by (unfold s0, expired; by destruct (_ && _)).
  apply wp_bind. eapply wp_mono; [apply loopTimeout_run|]. intros u1 st (w1 & -> & Hq1 & Hsame).
  apply wp_bind. eapply wp_mono; [apply loopClose_run|]. intros u2 st (w2 & drained & -> & Hw2 & _).
  eapply wp_mono; [apply loopBackoff_run|]. intros u3 st ->. exists drained, w2. split; [done|].
  destruct (closeDue now drained (checked now s0)) eqn:Ed.
  - split; [etransitivity; [exact Hq1|]; by eapply quietly_cons|].
    split; [by eexists|]. intros Ht. right. unfold checked in Ed. fold s0 in Ed. rewrite Ht in Ed.
    unfold closeDue in Ed. apply andb_true_iff in Ed as [Ed _]. apply bool_decide_eq_true in Ed. congruence.
  - split; [etransitivity; [exact Hq1|]; by apply quietly_same|]. split; [done|].
    intros Ht. left. rewrite (Hsame Ht) in Hw2. by apply quietly_same.
Qed.
End Handlers.
