(* ===== verification/SessionFacts.v ===== *)
(** * What the BLE session guarantees

    Over any sequence of calls of its entry points, with the rest of the firmware
    and the outside free to do anything in between: the invariant of the members,
    what a request must have passed to reach the delegate, who can become
    authenticated, how a controller is added, the lock-out after failed proofs. *)

From S2P Require Import Prelude CompanionText LengthFrame CompanionJson FlatJson CompanionProtocol Permissions BleAction DeviceSecurity ControlJson BleSession SessionTrace SessionRun.

Open Scope kitsu_scope.

(** ** Runs *)

(** A call of an entry point; [OpOther] is whatever the rest of the program does to
    the device security object and to the world between two calls. *)
Inductive SessionOp (W : Type) :=
  | OpBegin (uid : option (list Z))
  | OpLink (l : Link) (now : Z)
  | OpUnlink (now : Z)
  | OpWindow (open : bool) (remaining now : Z) (role : ControllerRole)
  | OpFrame (json : list Z) (now : Z)
  | OpConfirm (now : Z)
  | OpCancel
  | OpEvent (operation payload : list Z)
  | OpLoop (now : Z)
  | OpOther (d : Sec) (w : W).
Arguments OpBegin {W}. Arguments OpLink {W}. Arguments OpUnlink {W}. Arguments OpWindow {W}.
Arguments OpFrame {W}. Arguments OpConfirm {W}. Arguments OpCancel {W}. Arguments OpEvent {W}.
Arguments OpLoop {W}. Arguments OpOther {W}.

(** ** The members are consistent *)

Definition usesLink (st : BleSessionState) : bool :=
  match st with Disconnected | Closing | Backoff => false | _ => true end.
(** No handshake has left secrets behind; no pairing is pending. *)
Definition withoutSecrets (st : BleSessionState) : bool :=
  match st with AwaitingHello | PairingAwaitingPhysical | PairingAwaitingCommit | Closing => true | _ => false end.
Definition withoutPending (st : BleSessionState) : bool :=
  match st with AwaitingHello | AwaitingClientAuth | Authenticated | Closing => true | _ => false end.

Definition pendingMatches (p : Pending) : Prop :=
  pendingPairingRole p = Owner /\ pendingPairingVersion p = 1 \/
  pendingPairingRole p = Caretaker /\ pendingPairingVersion p = 2.

Record SessionOk (s : Session) : Prop := {
  ok_link : usesLink (state s) = true -> readsFrames s;
  ok_secrets : withoutSecrets (state s) = true -> secrets s = noSecrets;
  ok_pending : withoutPending (state s) = true -> pending s = noPending;
  ok_pairing : state s = PairingAwaitingCommit -> pendingMatches (pending s);
  ok_physical : state s = PairingAwaitingPhysical -> pending s = noPending \/ pendingMatches (pending s);
  ok_known : state s = Authenticated ->
    controllerKnown (secrets s) = true /\ controllerRoot (secrets s) = replicate 32 0 /\
    proofFailures s = 0 /\ stateDeadline s = 0;
  ok_barrier : authenticatedRequestBarrier (secrets s) = true ->
    state s = Authenticated \/ usesLink (state s) = false;
  ok_client : 1 <= expectedClientSequence (secrets s) <= UINT64_MAX;
  ok_device : 1 <= nextDeviceSequence (secrets s) <= UINT64_MAX;
  ok_failures : 0 <= proofFailures s <= 255;
  ok_cause : state s = Closing -> pendingCloseCause (close s) <> CauseNone;
  ok_window : if pairingWindowOpen (window s) then validPairingRole (pairingWindowRole (window s)) = true
              else window s = noWindow;
}.

Lemma session0_ok : SessionOk session0.
Proof. by split. Qed.

(** A session that differs in members the invariant does not read. *)
Ltac session_ok := split; cbn; try done; try congruence; try lia.

Lemma noSecrets_ok : 1 <= expectedClientSequence noSecrets <= UINT64_MAX /\ 1 <= nextDeviceSequence noSecrets <= UINT64_MAX.
Proof. done. Qed.

Lemma closed_ok now cause s : SessionOk s -> SessionOk (closed now cause s).
Proof. intros []. split; cbn; try done. intros _. by repeat case_bool_decide. Qed.

Lemma scratched_ok_parts s s2 : scratched s s2 ->
  link s2 = link s /\ begun_ s2 = begun_ s /\ window s2 = window s /\ proofFailures s2 = proofFailures s /\
  close s2 = close s /\ stateDeadline s2 = stateDeadline s /\ backoffUntil s2 = backoffUntil s.
Proof. by intros (x & p & b & r & ->). Qed.

Lemma gaveUp_ok now s s1 : SessionOk s -> gaveUp now s s1 -> SessionOk s1.
Proof.
  intros Hok (cause & s2 & Hs & ->). apply scratched_ok_parts in Hs as (El & Eb & Ew & Ef & Ec & _).
  destruct Hok. split; cbn; rewrite ?Ew, ?Ef; try done. intros _. by repeat case_bool_decide.
Qed.

Lemma backoff_ok v s : SessionOk s -> SessionOk (set_backoffUntil v s).
Proof. by intros []; split. Qed.

Lemma failed_ok now s s2 : SessionOk s -> readsFrames s -> scratched s s2 -> SessionOk (failed now s2).
Proof.
  intros Hok Hr Hs. apply scratched_ok_parts in Hs as (El & Eb & Ew & Ef & Ec & _).
  destruct Hok. unfold failed, readsFrames in *. rewrite Ef.
  destruct (Z.ltb_spec (proofFailures s) 255).
  all: destruct (kBleMaximumProofFailures <=? _).
  all: split; cbn; rewrite ?El, ?Eb, ?Ew; try done; try lia.
  all: intros _; unfold readsFrames; cbn; by rewrite El, Eb.
Qed.

Lemma served_ok b s : SessionOk s -> expectedClientSequence (secrets s) <> UINT64_MAX ->
  nextDeviceSequence (secrets s) <> UINT64_MAX -> state s = Authenticated -> SessionOk (served b s).
Proof.
  intros [] Hc Hn Hs. split; cbn; rewrite ?Hs; try done; try (by rewrite Hs in *; auto).
  all: unfold UINT64_MAX in *.
  - rewrite u64_id by lia. lia.
  - rewrite u64_id by lia. lia.
Qed.
Lemma sentOne_ok s : SessionOk s -> nextDeviceSequence (secrets s) <> UINT64_MAX -> state s = Authenticated ->
  SessionOk (sentOne s).
Proof.
  intros [] Hn Hs. split; cbn; rewrite ?Hs; try done; try (by rewrite Hs in *; auto).
  unfold UINT64_MAX in *. rewrite u64_id by lia. lia.
Qed.

Section Facts.
Context {W : Type} `{SecurityPlatform W} `{CompanionCrypto W} `{BleSessionTransport W}
  `{BleOperationDelegate W}.
Abbreviation State := (StateOf W).
Implicit Types (w : Recorded W).

Lemma requestProven_sequence json s w request payload : requestProven json s w request payload ->
  expectedClientSequence (secrets s) <> UINT64_MAX.
Proof. intros [_ Ha]. unfold requestAuthorized in Ha. apply andb_true_iff in Ha as [_ Ha]. by apply negb_true_iff, Z.eqb_neq in Ha. Qed.

Lemma frame_ok json now s d w s1 w1 : SessionOk s -> FrameOutcome json now s d w s1 w1 -> SessionOk s1.
Proof.
  intros Hok Ho. destruct Ho as [s1 w1 Hg Hq|s2 w1 Hs Hc Hr Hn|w1 Hs Hq|x w1 Hs Hr Hq Hx Hh|w1 Hs Hr Hq
    |p w1 Hs Hr Hq Hp|c2d d2c j w1 Hs Hr Hp Hw|s1 w1 Hs Hr Hq Hp ->|s1 wm w1 Hs Hr Hm Hn Hp Hb|v s1 wm w1 Hs Hr Hm Hv Hg Hq].
  - by eapply gaveUp_ok.
  - by eapply failed_ok.
  - done.
  - destruct Hok, Hx as (Eb & Ee & En). rewrite Hs in *. split; cbn; rewrite ?Eb, ?Ee, ?En; try done; auto.
    intros Hbar. by destruct (ok_barrier0 Hbar).
  - destruct Hok. rewrite Hs in *. split; cbn; try rewrite Hs; try done.
  - destruct Hok, Hp as (Hopen & _ & Hrole & Hver & Hv12). rewrite Hs in *. split; cbn; try done; auto.
    + intros _. right. unfold pendingMatches. rewrite Hrole, Hver in *. unfold pairingVersionForRole in *.
      destruct (Z.eqb_spec (pairingWindowRole (window s)) Owner); [by left|].
      destruct (Z.eqb_spec (pairingWindowRole (window s)) Caretaker); [by right|]. by destruct Hv12.
    + intros Hbar. by destruct (ok_barrier0 Hbar).
  - destruct Hok. destruct Hp as (sup & e & _ & Hk & _). rewrite Hs in *. split; cbn; try done; auto.
  - destruct Hok. rewrite Hs in *. split; cbn; try done; auto.
    intros Hbar. by destruct (ok_barrier0 Hbar).
  - destruct Hp as (q & pl & Hp%requestProven_sequence). destruct Hb as [[[b ->] _]|[-> _]].
    + by apply served_ok.
    + destruct Hok. rewrite Hs in *. split; cbn; try done; auto.
  - eapply gaveUp_ok; [by apply backoff_ok|done].
Qed.

Lemma expired_ok now s : SessionOk s -> SessionOk (expired now s).
Proof. intros Hok. unfold expired. destruct (_ && _); [|done]. destruct Hok. by split. Qed.
Lemma established_ok l now s : SessionOk s -> SessionOk (established l now s).
Proof.
  intros Hok. unfold established. destruct (begun_ s) eqn:Eb; cbn [negb]; [|done].
  destruct (secureLink l) eqn:El; cbn [negb].
  2: { destruct Hok. split; cbn; try done. intros _. by repeat case_bool_decide. }
  destruct (backingOff now s); destruct Hok; split; cbn; try done; auto.
Qed.
Lemma unlinked_ok now s : SessionOk s -> SessionOk (unlinked now s).
Proof.
  intros Hok. unfold unlinked. destruct (begun_ s); cbn [negb]; [|done].
  unfold expired. cbn. destruct (_ && _); destruct Hok; destruct (backoffUntil s =? 0); split; cbn; try done; auto.
Qed.
Lemma windowed_ok o r now role s : SessionOk s -> SessionOk (windowed o r now role s).
Proof.
  intros Hok. unfold windowed. destruct (begun_ s); cbn [negb]; [|done]. cbv zeta.
  set (admits := o && _ && _ && _).
  assert (Hw : if admits then validPairingRole role = true else True).
  { destruct admits eqn:E; [|done]. unfold admits in E. by apply andb_true_iff in E as [[[_ ?]%andb_true_iff _]%andb_true_iff _]. }
  destruct admits, (isPairing (state s)) eqn:Ep; destruct Hok; split; cbn; try done; auto.
  all: try (intros _; apply ok_link0 || apply ok_secrets0; by destruct (state s)).
  all: intros Hbar; right; by destruct (ok_barrier0 Hbar) as [Ha|Ha]; destruct (state s).
Qed.
Lemma cancelled_ok s : SessionOk s -> SessionOk (cancelled s).
Proof.
  intros Hok. unfold cancelled. destruct (begun_ s); cbn [negb]; [|done].
  destruct (isPairing (state s)) eqn:Ep; destruct Hok; split; cbn; try done; auto.
  all: try (intros _; apply ok_link0 || apply ok_secrets0; by destruct (state s)).
  all: try (intros Hbar; right; by destruct (ok_barrier0 Hbar) as [Ha|Ha]; destruct (state s)).
  intros Hs. by rewrite Hs in Ep.
Qed.
Lemma looped_ok now drained s : SessionOk s -> SessionOk (looped now drained s).
Proof.
  intros Hok. unfold looped. destruct (begun_ s); cbn [negb]; [|done]. cbv zeta.
  assert (Hc : SessionOk (checked now (expired now s))).
  { unfold checked. destruct (timedOut _ _); [apply closed_ok|]; by apply expired_ok. }
  set (s1 := checked now (expired now s)) in *.
  assert (Hf : SessionOk (if closeDue now drained s1 then finished s1 else s1)).
  { destruct (closeDue _ _ _); [|done]. destruct Hc. by split. }
  unfold recovered. destruct (_ && _) eqn:E; [|done]. destruct Hf. split; cbn; try done; auto.
Qed.
Lemma mayConfirm_spec now s : mayConfirm now s = true <->
  begun_ s = true /\ state s = PairingAwaitingPhysical /\ pairingWindowOpen (window s) = true /\
  deadlineReached now (stateDeadline s) = false /\ secureLink (link s) = true /\
  pendingPairingRole (pending s) = pairingWindowRole (window s) /\
  pendingPairingVersion (pending s) = pairingVersionForRole (pairingWindowRole (window s)).
Proof.
  unfold mayConfirm. rewrite !andb_true_iff, bool_decide_eq_true, negb_true_iff, !Z.eqb_eq. tauto.
Qed.

Lemma granted_ok now d s s1 : SessionOk s -> granted now d s s1 -> SessionOk s1.
Proof.
  intros Hok (cid & root & _ & (Hb & Hs & Ho & _ & _ & Hr & _)%mayConfirm_spec & ->).
  destruct Hok. rewrite Ho in ok_window0. rewrite Hs in *. split; cbn; rewrite ?Ho; try done; auto.
  - intros _. destruct (ok_physical0 eq_refl) as [Hn|Hn]; [|done].
    rewrite Hn in Hr. cbn in Hr. by rewrite <- Hr in ok_window0.
  - intros Hbar. by destruct (ok_barrier0 Hbar).
Qed.

(** ** Every call *)

Definition exec (op : SessionOp W) : M State unit :=
  match op with
  | OpBegin uid => begin uid ;;; ret tt
  | OpLink l now => onSecureLinkEstablished l now
  | OpUnlink now => onLinkClosed now
  | OpWindow open remaining now role => setPairingWindow open remaining now role
  | OpFrame json now => onFrame json now
  | OpConfirm now => confirmPendingPairing now ;;; ret tt
  | OpCancel => cancelPendingPairing
  | OpEvent operation payload => sendEvent operation payload ;;; ret tt
  | OpLoop now => loop now
  | OpOther d w => fun st => (tt, (fst st, (d, (w, snd (snd (snd st))))))
  end.

Definition runOps (ops : list (SessionOp W)) (st : State) : State :=
  fold_left (fun st op => snd (exec op st)) ops st.

(** The state before anything was called. *)
Definition power_on (d : Sec) (w : W) : State := (session0, (d, (w, []))).

(** What a call makes of a state. *)
Definition Outcome (op : SessionOp W) s d w (s1 : Session) (w1 : Recorded W) : Prop :=
  match op with
  | OpBegin uid => (s1 = s \/ begun_ s = false /\ s1 = set_begun (take 7 (default [] uid)) s) /\ w1 = w
  | OpLink l now => s1 = established l now s /\ quietly w w1 /\
      (begun_ s && secureLink l && backingOff now s = true ->
       snd w1 = OutDisconnect AuthenticationBackoff :: snd w)
  | OpUnlink now => s1 = unlinked now s /\ w1 = w
  | OpWindow open remaining now role => s1 = windowed open remaining now role s /\ w1 = w
  | OpFrame json now => FrameOutcome json now s d w s1 w1
  | OpConfirm now => (granted now d s s1 \/ s1 = s /\ w1 = w \/
       mayConfirm now s = true /\ (s1 = on_pending (fun _ => noPending) s \/ gaveUp now s s1)) /\ quietly w w1
  | OpCancel => s1 = cancelled s /\ w1 = w
  | OpEvent _ _ => (s1 = s \/ s1 = sentOne s /\ state s = Authenticated /\ nextDeviceSequence (secrets s) <> UINT64_MAX) /\
      emits sentOnly w w1
  | OpLoop now => exists drained, s1 = looped now drained s /\ quietly w w1 /\
      (begun_ s = true -> closeDue now drained (checked now (expired now s)) = true ->
       exists rest, snd w1 = OutDisconnect (pendingCloseCause (close (checked now (expired now s)))) :: rest) /\
      (timedOut now (expired now s) = false -> emits sentOnly w w1 \/ state s = Closing)
  | OpOther _ _ => s1 = s /\ snd w1 = snd w
  end.

Lemma begin_run uid s d w :
  wp (begin uid) (fun _ st => exists s1, st = (s1, (d, w)) /\
    (s1 = s \/ begun_ s = false /\ s1 = set_begun (take 7 (default [] uid)) s)) (s, (d, w)).
Proof.
  unfold begin. apply wp_bind, wp_me, wp_bind, wp_security_self. apply wp_if; intros Hc.
  - apply wp_ret. exists s. auto.
  - apply orb_false_iff in Hc as [_ Hb]. apply wp_bind, wp_set, wp_ret. eexists. split; [reflexivity|]. by right.
Qed.

Lemma exec_outcome op s d w : exists s1 d1 w1, snd (exec op (s, (d, w))) = (s1, (d1, w1)) /\ Outcome op s d w s1 w1.
Proof.
  change (wp (exec op) (fun _ st => exists s1 d1 w1, st = (s1, (d1, w1)) /\ Outcome op s d w s1 w1) (s, (d, w))).
  destruct op; simpl exec.
  - apply wp_bind. eapply wp_mono; [apply begin_run|]. intros b st (s1 & -> & Hs). apply wp_ret. by eexists _, _, _.
  - eapply wp_mono; [apply established_run|]. intros b st (w1 & -> & Hs). by eexists _, _, _.
  - eapply wp_mono; [apply linkClosed_run|]. intros b st ->. by eexists _, _, _.
  - eapply wp_mono; [apply pairingWindow_run|]. intros b st ->. by eexists _, _, _.
  - eapply wp_mono; [apply onFrame_run|]. intros b st (s1 & d1 & w1 & -> & Hs). by eexists _, _, _.
  - apply wp_bind. eapply wp_mono; [apply confirm_run|]. intros b st (s1 & r & w1 & -> & Hq & Hs). apply wp_ret.
    eexists _, _, _. split; [done|]. split; [|done]. destruct b; tauto.
  - eapply wp_mono; [apply cancel_run|]. intros b st ->. by eexists _, _, _.
  - apply wp_bind, sendEvent_run; intros; apply wp_ret; eexists _, _, _; (split; [done|]); (split; [|done]); tauto.
  - eapply wp_mono; [apply loop_run|]. intros b st (dr & w1 & -> & Hs). eexists _, _, _. split; [done|]. by exists dr.
  - by eexists _, _, _.
Qed.

Lemma outcome_ok op s d w s1 w1 : SessionOk s -> Outcome op s d w s1 w1 -> SessionOk s1.
Proof.
  intros Hok Ho. destruct op; simpl in Ho.
  - destruct Ho as [[->|[_ ->]] _]; [done|]. destruct Hok. split; cbn; try done; auto.
  - destruct Ho as [-> _]. by apply established_ok.
  - destruct Ho as [-> _]. by apply unlinked_ok.
  - destruct Ho as [-> _]. by apply windowed_ok.
  - by eapply frame_ok.
  - destruct Ho as [[Hg|[[-> _]|[Hm [->|Hg]]]] _]; [by eapply granted_ok|done| |by eapply gaveUp_ok].
    apply mayConfirm_spec in Hm as (_ & Hs & _). destruct Hok. rewrite Hs in *. split; cbn; rewrite ?Hs; try done; auto.
  - destruct Ho as [-> _]. by apply cancelled_ok.
  - destruct Ho as [[->|(-> & Hs & Hn)] _]; [done|by apply sentOne_ok].
  - destruct Ho as (dr & -> & _). by apply looped_ok.
  - by destruct Ho as [-> _].
Qed.

(** The state after one more call. *)
Lemma runOps_snoc ops op st : runOps (ops ++ [op]) st = snd (exec op (runOps ops st)).
Proof. unfold runOps. by rewrite fold_left_app. Qed.
Lemma runOps_app ops1 ops2 st : runOps (ops1 ++ ops2) st = runOps ops2 (runOps ops1 st).
Proof. unfold runOps. by rewrite fold_left_app. Qed.

(** Induction over a run: what holds at the start and is kept by every outcome. *)
Lemma runOps_ind (P : Session -> list Output -> Prop) ops st :
  P (session st) (outputs st) ->
  (forall op s d w s1 w1, P s (snd w) -> Outcome op s d w s1 w1 -> P s1 (snd w1)) ->
  P (session (runOps ops st)) (outputs (runOps ops st)).
Proof.
  intros H0' Hstep. induction ops as [|op ops IH] using rev_ind; [done|]. rewrite runOps_snoc.
  destruct (runOps ops st) as [s [d w]]. destruct (exec_outcome op s d w) as (s1 & d1 & w1 & -> & Ho).
  by eapply Hstep.
Qed.

Lemma runOps_ok ops st : SessionOk (session st) -> SessionOk (session (runOps ops st)).
Proof.
  intros Hst. apply (runOps_ind (fun s _ => SessionOk s)); [done|].
  intros op s d' w' s1 w1 Hok Ho. by eapply outcome_ok.
Qed.


(** The first call after which a property of the members holds for good. *)
Lemma first_call (P : State -> Prop) (Enter : SessionOp W -> State -> Prop) ops st :
  ~ P st ->
  (forall st op, SessionOk (session st) -> P (snd (exec op st)) -> P st \/ Enter op st) ->
  SessionOk (session st) ->
  P (runOps ops st) ->
  exists pre op mid, ops = pre ++ op :: mid /\ Enter op (runOps pre st) /\ SessionOk (session (runOps pre st)).
Proof.
  intros Hno Hstep Hok. induction ops as [|op ops IH] using rev_ind; [done|].
  rewrite runOps_snoc. intros HP.
  pose proof (runOps_ok ops st Hok) as Hok'.
  destruct (Hstep _ _ Hok' HP) as [Hbefore|Henter].
  - destruct (IH Hbefore) as (pre & op' & mid & -> & He). exists pre, op', (mid ++ [op]).
    by rewrite <- app_assoc.
  - by exists ops, op, [].
Qed.

(** ** Requests *)

Definition isRequest (o : Output) : bool := match o with OutRequest _ _ _ => true | _ => false end.
Definition requests (l : list Output) : list Output := List.filter isRequest l.

Lemma requests_app a b : requests (a ++ b) = requests a ++ requests b.
Proof. apply List.filter_app. Qed.
Lemma emits_requests w w1 new : emits noRequest w w1 -> snd w1 = new ++ snd w -> requests new = [].
Proof.
  intros (new' & Hw & Hn) Hw'. rewrite Hw in Hw'. apply app_inv_tail in Hw' as <-.
  clear Hw. induction new' as [|o l IH]; [done|]. cbn in Hn. apply andb_true_iff in Hn as [Ho Hl].
  by destruct o; cbn; auto.
Qed.

(** The requests of one frame: none, or the one its envelope carries. *)
Lemma frame_requests json now s d w s1 w1 new :
  FrameOutcome json now s d w s1 w1 -> snd w1 = new ++ snd w ->
  requests new = [] \/
  exists request payload, requests new = [OutRequest (controllerRole (secrets s)) request payload] /\
    state s = Authenticated /\ readsFrames s /\ requestProven json s w request payload.
Proof.
  assert (Hcalm : forall wm, passedOn json s w wm -> quietly wm w1 -> state s = Authenticated -> readsFrames s ->
    snd w1 = new ++ snd w -> requests new = [] \/
    exists request payload, requests new = [OutRequest (controllerRole (secrets s)) request payload] /\
    state s = Authenticated /\ readsFrames s /\ requestProven json s w request payload).
  { intros wm Hm Hq Hs Hr Hw. apply calm_noRequest in Hq as Hn. destruct Hm as [Hm|(q & pl & Hp & _ & Hm)].
    - left. eapply (emits_requests wm w1); [done|by rewrite Hm].
    - right. exists q, pl. split; [|done]. destruct Hn as (new' & Hn & Hf).
      assert (Hr' : requests new' = []) by (eapply (emits_requests wm w1); [by exists new'|done]).
      rewrite Hm, Hw in Hn. rewrite (cons_middle _ new') in Hn. rewrite app_assoc in Hn.
      apply app_inv_tail in Hn as ->. by rewrite requests_app, Hr'. }
  intros Ho Hw. destruct Ho as [s1 w1 Hg Hq|s2 w1 Hs Hc Hr Hn|w1 Hs Hq|x w1 Hs Hr Hq Hx Hh|w1 Hs Hr Hq
    |p w1 Hs Hr Hq Hp|c2d d2c j w1 Hs Hr Hp Hw1|s1 w1 Hs Hr Hq Hp Hs1|s1 wm w1 Hs Hr Hm Hn Hp Hb|v s1 wm w1 Hs Hr Hm Hv Hg Hq].
  all: try (left; eapply (emits_requests w w1); [first [done|by apply calm_noRequest]|done]).
  - left. eapply (emits_requests w w1); [|done]. exists [OutSent j; OutAuthenticated true]. by rewrite Hw1.
  - apply (Hcalm wm); try done. destruct Hb as [[_ Hb]|[_ Hb]]; [by apply sentOnly_calm|done].
  - by apply (Hcalm wm).
Qed.

(** C6: A frame reaches the operations of the firmware only in an authenticated
    session on a secure link, only when its envelope carries the MAC of the
    session's key and exactly the next sequence number, and only with the role the
    session was authenticated for, which the permission table grants the operation
    and, for an action, its kind.  A frame causes at most one call, and no other
    entry point causes any. *)
Theorem delegated_request_verified op s d w new :
  outputs (snd (exec op (s, (d, w)))) = new ++ snd w ->
  requests new = [] \/
  exists json now request payload, op = OpFrame json now /\
    requests new = [OutRequest (controllerRole (secrets s)) request payload] /\
    state s = Authenticated /\ readsFrames s /\
    fst (decodeAndVerifyEnvelope json (clientToDeviceKey (secrets s)) ChannelRequest
           (expectedClientSequence (secrets s)) kMaximumEnvelopePayloadBytes w) = inr (request, payload) /\
    requestAuthorized (secrets s) request payload = true.
Proof.
  destruct (exec_outcome op s d w) as (s1 & d1 & w1 & E & Ho). rewrite E. unfold outputs. cbn. intros Hw.
  assert (Hquiet : quietly w w1 -> requests new = []) by (intros Hq; eapply emits_requests; [by apply calm_noRequest|done]).
  assert (Hsame : snd w1 = snd w -> requests new = []) by (intros Hq; by apply Hquiet, quietly_same).
  destruct op; simpl in Ho.
  5: { destruct (frame_requests _ _ _ _ _ _ _ _ Ho Hw) as [Hn|(q & pl & Hn & Hs & Hr & Hp)]; [by left|].
       right. by exists json, now, q, pl; destruct Hp. }
  all: left.
  - apply Hsame. by destruct Ho as [_ ->].
  - apply Hquiet. by destruct Ho as (_ & Hq & _).
  - apply Hsame. by destruct Ho as [_ ->].
  - apply Hsame. by destruct Ho as [_ ->].
  - apply Hquiet. by destruct Ho.
  - apply Hsame. by destruct Ho as [_ ->].
  - apply Hquiet, sentOnly_calm. by destruct Ho.
  - apply Hquiet. by destruct Ho as (dr & _ & Hq & _).
  - apply Hsame. by destruct Ho.
Qed.

(** *** In order

    The promise to the delegate as a gate: shut, or open for the sequence numbers
    from [next] on. *)
Inductive Gate := Shut | Ajar (next : Z).

Definition gateStep (g : Gate) (o : Output) : option Gate :=
  match o with
  | OutAuthenticated true => Some (Ajar 1)
  | OutAuthenticated false => Some Shut
  | OutRequest _ request _ =>
      match g with
      | Ajar next => if next <=? env_sequence request then Some (Ajar (env_sequence request + 1)) else None
      | Shut => None
      end
  | OutSent _ | OutDisconnect _ => Some g
  end.

(** The gate after a log, newest first; [None] when a request passed a shut gate
    or repeated a number. *)
Fixpoint gate (log : list Output) : option Gate :=
  match log with
  | [] => Some Shut
  | o :: rest => g ← gate rest; gateStep g o
  end.

Lemma gate_sent new l g : forallb sentOnly new = true -> gate l = Some g -> gate (new ++ l) = Some g.
Proof.
  intros Hn Hl. induction new as [|o new IH]; [done|]. cbn in *. apply andb_true_iff in Hn as [Ho Hn].
  rewrite (IH Hn). by destruct o.
Qed.
Lemma gate_noRequest w w1 g : emits noRequest w w1 -> gate (snd w) = Some g -> exists g', gate (snd w1) = Some g'.
Proof.
  intros (new & -> & Hn) Hl. induction new as [|o new IH]; [by exists g|]. cbn in *. apply andb_true_iff in Hn as [Ho Hn].
  destruct (IH Hn) as [g' ->]. destruct o as [| [] | |]; try discriminate; by eexists.
Qed.

(** The gate is open in an authenticated session, up to its counter. *)
Definition Gated (s : Session) (log : list Output) : Prop :=
  SessionOk s /\ exists g, gate log = Some g /\
    (state s = Authenticated -> exists next, g = Ajar next /\ next <= expectedClientSequence (secrets s)).

Lemma gated_quiet w w1 s s1 : emits noRequest w w1 -> Gated s (snd w) -> SessionOk s1 -> state s1 <> Authenticated ->
  Gated s1 (snd w1).
Proof.
  intros Hn [_ (g & Hg & _)] Hok Hs. split; [done|].
  destruct (gate_noRequest w w1 g Hn Hg) as [g' Hg']. exists g'. by split.
Qed.
Lemma gated_sent w w1 s s1 : emits sentOnly w w1 -> Gated s (snd w) -> SessionOk s1 ->
  (state s1 = Authenticated -> state s = Authenticated /\
     expectedClientSequence (secrets s) <= expectedClientSequence (secrets s1)) ->
  Gated s1 (snd w1).
Proof.
  intros (new & -> & Hc) [_ (g & Hg & Ha)] Hok Hs. split; [done|].
  exists g. split; [by apply gate_sent|]. intros Hs1. destruct (Hs Hs1) as [Hs0 Hle].
  destruct (Ha Hs0) as (n & -> & Hn). exists n. split; [done|lia].
Qed.

Lemma decode_sequence json key e cap w request payload :
  fst (decodeAndVerifyEnvelope json key ChannelRequest e cap w) = inr (request, payload) ->
  env_sequence request = e.
Proof.
  unfold decodeAndVerifyEnvelope. destruct (_ =? 0)%nat; [done|]. destruct (_ <? _); [done|].
  destruct (parseOuterObject json) as [r|fields]; [done|]. unfold decodeFields. cbv zeta.
  destruct (_ || _); [done|].
  destruct (negb (length (field fields FieldChannel) =? 1)%nat || _ || _); [done|].
  destruct (negb (_ =? ChannelRequest)); [done|].
  destruct (parseDecimal _) as [sequence|]; [|done].
  destruct (Z.eqb_spec sequence e) as [->|]; [|done]. cbn [negb].
  destruct (decodeFixed (field fields FieldNonce) _ _) as [nonce|]; [|done].
  destruct (decodeFixed (field fields FieldRequestId) _ _) as [rid|]; [|done].
  destruct (operationValid _); [|done]. cbn [negb]. destruct (_ || _); [done|].
  destruct (decodeBase64Url _ _) as [body|]; [|done].
  destruct (decodeFixed (field fields FieldMac) _ _) as [mac|]; [|done].
  unfold bind. destruct (calculateEnvelopeMac _ _ _ _ _ _ _ w) as [[r|expectedMac] w1]; [done|].
  unfold ret. cbn [fst]. destruct (constantTimeEqual _ _ _); [|done]. destruct (validUtf8 body); [|done].
  destruct (jsonValid body); [|done]. cbn [negb]. by intros [= <- <-].
Qed.

Lemma frame_gated json now s d w s1 w1 : Gated s (snd w) -> FrameOutcome json now s d w s1 w1 -> Gated s1 (snd w1).
Proof.
  intros Hg Ho. pose proof (frame_ok _ _ _ _ _ _ _ (proj1 Hg) Ho) as Hok1.
  assert (Hpass : forall wm, passedOn json s w wm -> state s = Authenticated ->
    exists g, gate (snd wm) = Some g /\
      (expectedClientSequence (secrets s) < UINT64_MAX ->
       exists next, g = Ajar next /\ next <= expectedClientSequence (secrets s) + 1)).
  { intros wm Hm Hs. destruct Hg as [Hok (g & Hlog & Ha)]. destruct (Ha Hs) as (n & -> & Hn).
    destruct Hm as [Hm|(q & pl & Hp & _ & Hm)]; rewrite Hm.
    - exists (Ajar n). split; [done|]. intros _. exists n. split; [done|lia].
    - destruct Hp as [Hp _]. apply decode_sequence in Hp. cbn. rewrite Hlog. cbn. rewrite Hp.
      destruct (Z.leb_spec n (expectedClientSequence (secrets s))); [|lia].
      eexists. split; [done|]. intros _. eexists. split; [done|lia]. }
  assert (Hquiet : forall wm, passedOn json s w wm -> state s = Authenticated -> quietly wm w1 ->
    state s1 <> Authenticated -> Gated s1 (snd w1)).
  { intros wm Hm Hs Hq%calm_noRequest Hs1. split; [done|]. destruct (Hpass wm Hm Hs) as (g & Hlog & _).
    destruct (gate_noRequest wm w1 g Hq Hlog) as [g' Hg']. exists g'. by split. }
  destruct Ho as [s1 w1 Hgv Hq|s2 w1 Hs Hc Hr Hn|w1 Hs Hq|x w1 Hs Hr Hq Hx Hh|w1 Hs Hr Hq
    |p w1 Hs Hr Hq Hp|c2d d2c j w1 Hs Hr Hp Hw1|s1 w1 Hs Hr Hq Hp Hs1|s1 wm w1 Hs Hr Hm Hn Hp Hb|v s1 wm w1 Hs Hr Hm Hv Hgv Hq].
  - eapply gated_quiet; [by apply calm_noRequest|done|done|]. by rewrite (gaveUp_state _ _ _ Hgv).
  - eapply gated_quiet; [done|done|done|]. unfold failed. by destruct (kBleMaximumProofFailures <=? _).
  - eapply gated_quiet; [by apply calm_noRequest|done|done|]. by rewrite Hs.
  - by eapply gated_quiet; [by apply calm_noRequest|..].
  - eapply gated_quiet; [by apply calm_noRequest|done|done|]. cbn. by rewrite Hs.
  - by eapply gated_quiet; [by apply calm_noRequest|..].
  - destruct Hg as [_ (g & Hlog & _)]. split; [done|]. rewrite Hw1. cbn. rewrite Hlog. cbn.
    eexists. split; [done|]. intros _. by exists 1.
  - eapply gated_quiet; [by apply calm_noRequest|done|done|]. unfold paired in Hs1. by rewrite Hs1.
  - destruct Hb as [[[b ->] Hq]|[-> Hq]]; [|by apply (Hquiet wm)].
    split; [done|]. destruct (Hpass wm Hm Hs) as (g & Hlog & Hn1). destruct Hq as (new & -> & Hsent).
    exists g. split; [by apply gate_sent|]. intros _.
    destruct Hp as (q & pl & Hp%requestProven_sequence). pose proof (ok_client _ (proj1 Hg)) as Hrange.
    destruct Hn1 as (n & -> & Hn1); [lia|]. exists n. split; [done|]. cbn. unfold UINT64_MAX in *.
    rewrite u64_id by lia. done.
  - apply (Hquiet wm); try done. by rewrite (gaveUp_state _ _ _ Hgv).
Qed.

Lemma ok_begun s : SessionOk s -> begun_ s = false -> state s <> Authenticated.
Proof. intros Hok Hb Hs. destruct (ok_link s Hok) as [Hb' _]; [by rewrite Hs|]. congruence. Qed.

(** [loop] keeps an authenticated session as it is. *)
Lemma looped_authenticated now drained s : state (looped now drained s) = Authenticated ->
  state s = Authenticated /\ secrets (looped now drained s) = secrets s /\ timedOut now (expired now s) = false.
Proof.
  assert (He : state (expired now s) = state s /\ secrets (expired now s) = secrets s)
    by (unfold expired; by destruct (_ && _)).
  assert (Hn : state s = Authenticated -> timedOut now (expired now s) = false)
    by (intros Hs; unfold timedOut; by rewrite (proj1 He), Hs).
  unfold looped. destruct (begun_ s); cbn [negb]; [|tauto]. cbv zeta.
  unfold recovered. destruct (_ && _ && _); [done|]. intros Hs.
  assert (Hc : state (checked now (expired now s)) = Authenticated) by (by destruct (closeDue _ _ _)).
  unfold checked in *. destruct (timedOut _ _) eqn:Et; [done|].
  assert (Hs' : state s = Authenticated) by (by rewrite <- (proj1 He)).
  split; [done|]. split; [|done]. by destruct (closeDue _ _ _); apply He.
Qed.

(** C8: Over any run the requests the operations see are in order: each comes
    after the transport was told that the session is authenticated, with no loss of
    authentication in between, and the sequence numbers strictly increase from 1
    until the next authentication; so no envelope is acted on twice. *)
Theorem requests_in_order ops d (w : W) : exists g, gate (outputs (runOps ops (power_on d w))) = Some g.
Proof.
  enough (Hg : Gated (session (runOps ops (power_on d w))) (outputs (runOps ops (power_on d w))))
    by (destruct Hg as [_ (g & Hg & _)]; by exists g).
  apply runOps_ind. { split; [apply session0_ok|]. by exists Shut. }
  clear. intros op s d w s1 w1 Hg Ho. pose proof (outcome_ok _ _ _ _ _ _ (proj1 Hg) Ho) as Hok1.
  assert (Hquiet : quietly w w1 -> state s1 <> Authenticated -> Gated s1 (snd w1)).
  { intros Hq Hs. eapply gated_quiet; [by apply calm_noRequest|done..]. }
  assert (Hkeep : snd w1 = snd w -> (state s1 = Authenticated -> state s = Authenticated /\
     expectedClientSequence (secrets s) <= expectedClientSequence (secrets s1)) -> Gated s1 (snd w1)).
  { intros Hw Hs. eapply gated_sent; [by apply quietly_same|done..]. }
  destruct op; simpl in Ho.
  - destruct Ho as [[->|[_ ->]] ->]; [done|]. by apply Hkeep.
  - destruct Ho as (-> & Hq & _). apply Hquiet; [done|]. unfold established in *.
    destruct (begun_ s) eqn:Eb; cbn [negb] in *; [|by apply ok_begun; [apply Hg|]].
    by destruct (secureLink l), (backingOff now s).
  - destruct Ho as [-> ->]. apply Hquiet; [reflexivity|]. unfold unlinked in *.
    destruct (begun_ s) eqn:Eb; cbn [negb] in *; [|by apply ok_begun; [apply Hg|]].
    cbn. by destruct (backoffUntil s =? 0).
  - destruct Ho as [-> ->]. apply Hkeep; [done|]. unfold windowed. destruct (begun_ s); cbn [negb]; [|done].
    cbn. by destruct (isPairing (state s)).
  - by eapply frame_gated.
  - destruct Ho as [[(cid & root & _ & _ & ->)|[[-> ->]|[Hm [->|Hgv]]]] Hq]; [by apply Hquiet|done| |].
    + apply Hquiet; [done|]. cbn. apply mayConfirm_spec in Hm as (_ & Hs & _). by rewrite Hs.
    + apply Hquiet; [done|]. by rewrite (gaveUp_state _ _ _ Hgv).
  - destruct Ho as [-> ->]. apply Hkeep; [done|]. unfold cancelled. destruct (begun_ s); cbn [negb]; [|done].
    cbn. by destruct (isPairing (state s)).
  - destruct Ho as [[->|(-> & Hs & _)] Hq]; (eapply gated_sent; [done..|]); cbn; intros; (split; [done|lia]).
  - destruct Ho as (dr & -> & Hq & _ & Hsent). destruct (decide (state (looped now dr s) = Authenticated)) as [Ha|Ha];
      [|by apply Hquiet]. destruct (looped_authenticated _ _ _ Ha) as (Hs & Hsec & Ht).
    destruct (Hsent Ht) as [Hq'|Hc]; [|congruence]. eapply gated_sent; [done..|]. intros _. rewrite Hsec.
    split; [done|lia].
  - destruct Ho as [-> Hw]. apply Hkeep; [done|]. intros. split; [done|lia].
Qed.

(** ** Who is authenticated *)

(** The controller the session is with. *)
Definition identity (s : Session) : list Z * list Z * bool * ControllerRole :=
  let x := secrets s in (controllerId x, controllerRoot x, controllerKnown x, controllerRole x).
Definition inHandshake (st : BleSessionState) : bool :=
  match st with AwaitingClientAuth | Authenticated => true | _ => false end.

(** Only a frame starts or finishes a handshake. *)
Lemma outcome_identity op s d w s1 w1 : SessionOk s -> Outcome op s d w s1 w1 -> inHandshake (state s1) = true ->
  (forall json now, op <> OpFrame json now) -> state s1 = state s /\ identity s1 = identity s.
Proof.
  intros Hok Ho Hs1 Hnf. destruct op; simpl in Ho.
  - destruct Ho as [[->|[_ ->]] _]; done.
  - destruct Ho as (-> & _ & _). unfold established in *. destruct (begun_ s) eqn:Eb; cbn [negb] in *; [|done].
    by destruct (secureLink l), (backingOff now s).
  - destruct Ho as [-> _]. unfold unlinked in *. destruct (begun_ s); cbn [negb] in *; [|done].
    cbn in Hs1. by destruct (backoffUntil s =? 0).
  - destruct Ho as [-> _]. unfold windowed in *. destruct (begun_ s); cbn [negb] in *; [|done].
    cbn in *. by destruct (isPairing (state s)).
  - by destruct (Hnf json now).
  - destruct Ho as [[(cid & root & _ & _ & ->)|[[-> _]|[Hm [->|Hgv]]]] _]; [done|done| |].
    + cbn in Hs1. by apply mayConfirm_spec in Hm as (_ & Hs & _); rewrite Hs in Hs1.
    + by rewrite (gaveUp_state _ _ _ Hgv) in Hs1.
  - destruct Ho as [-> _]. unfold cancelled in *. destruct (begun_ s); cbn [negb] in *; [|done].
    cbn in *. by destruct (isPairing (state s)).
  - destruct Ho as [[->|(-> & _)] _]; done.
  - destruct Ho as (dr & -> & _). unfold looped in *. destruct (begun_ s); cbn [negb] in *; [|done].
    cbv zeta in *. unfold recovered in *. destruct (_ && _ && _); [done|].
    unfold checked, expired in *. destruct (timedOut _ _) eqn:Et; [by destruct (closeDue _ _ _)|].
    destruct (pairingWindowOpen (window s) && _), (closeDue _ _ _); done.
  - by destruct Ho as [-> _].
Qed.

(** A frame that leaves the session in the handshake or authenticated. *)
Lemma frame_identity json now s d w s1 w1 : FrameOutcome json now s d w s1 w1 ->
  match state s1 with
  | AwaitingClientAuth => state s = AwaitingHello /\ helloFor d (secrets s1)
  | Authenticated =>
      state s = Authenticated /\ identity s1 = identity s \/
      state s = AwaitingClientAuth /\ readsFrames s /\ clientProven json s w /\
      controllerId (secrets s1) = controllerId (secrets s) /\ controllerRole (secrets s1) = controllerRole (secrets s)
  | _ => True
  end.
Proof.
  intros [s2 w2 Hg Hq|s2 w2 Hs Hc Hr Hn|w2 Hs Hq|x w2 Hs Hr Hq Hx Hh|w2 Hs Hr Hq
    |p w2 Hs Hr Hq Hp|c2d d2c j w2 Hs Hr Hp Hw1|s2 w2 Hs Hr Hq Hp Hs1|s2 wm w2 Hs Hr Hm Hn Hp Hb|v s2 wm w2 Hs Hr Hm Hv Hg Hq].
  - by rewrite (gaveUp_state _ _ _ Hg).
  - unfold failed. by destruct (kBleMaximumProofFailures <=? _).
  - by rewrite Hs.
  - done.
  - cbn. by rewrite Hs.
  - done.
  - right. done.
  - unfold paired in Hs1. by rewrite Hs1.
  - destruct Hb as [[[b ->] _]|[-> _]]; [|done]. cbn. rewrite Hs. by left.
  - by rewrite (gaveUp_state _ _ _ Hg).
Qed.

Definition recordedWorld (st : State) : Recorded W := snd (snd st).

(** The controller [cid] was found in the table with [root] and [role] when a hello
    of its was answered. *)
Definition helloAnswered (cid root : list Z) (role : ControllerRole) (op : SessionOp W) (st : State) : Prop :=
  (exists json now, op = OpFrame json now) /\ state (session st) = AwaitingHello /\
  findControllerRoot (device st) (Some cid) true = Some (root, role).
Definition awaitingProof (cid root : list Z) (role : ControllerRole) (st : State) : Prop :=
  state (session st) = AwaitingClientAuth /\ identity (session st) = (cid, root, true, role).
(** A frame proved knowledge of the root. *)
Definition proofAccepted (cid : list Z) (role : ControllerRole) (op : SessionOp W) (st : State) : Prop :=
  exists json now root, op = OpFrame json now /\ awaitingProof cid root role st /\ readsFrames (session st) /\
    clientProven json (session st) (recordedWorld st).

Lemma hello_needed cid root role st op : SessionOk (session st) -> awaitingProof cid root role (snd (exec op st)) ->
  awaitingProof cid root role st \/ helloAnswered cid root role op st.
Proof.
  intros Hok [Hs Hi]. destruct st as [s [d w]]. destruct (exec_outcome op s d w) as (s1 & d1 & w1 & E & Ho).
  rewrite E in *. unfold session in *. cbn [fst] in *.
  destruct op; try (destruct (outcome_identity _ _ _ _ _ _ Hok Ho) as [Hs' Hi']; [by rewrite Hs|done|];
    left; split; unfold session; cbn [fst]; congruence).
  right. simpl in Ho. apply frame_identity in Ho. rewrite Hs in Ho. destruct Ho as [Hs0 Hh].
  split; [by eexists _, _|]. split; [done|]. unfold helloFor in Hh. injection Hi as <- <- Hk <-.
  destruct (findControllerRoot d _ true) as [[root' role']|] eqn:Ef; [|by destruct Hh; congruence].
  destruct Hh as (_ & <- & <-). exact Ef.
Qed.

Lemma proof_needed cid role st op : SessionOk (session st) ->
  state (session (snd (exec op st))) = Authenticated /\
  controllerId (secrets (session (snd (exec op st)))) = cid /\
  controllerRole (secrets (session (snd (exec op st)))) = role ->
  (state (session st) = Authenticated /\ controllerId (secrets (session st)) = cid /\
   controllerRole (secrets (session st)) = role) \/ proofAccepted cid role op st.
Proof.
  intros Hok (Hs & Hc & Hr). destruct st as [s [d w]]. destruct (exec_outcome op s d w) as (s1 & d1 & w1 & E & Ho).
  rewrite E in *. unfold session in *. cbn [fst] in *.
  destruct op; try (destruct (outcome_identity _ _ _ _ _ _ Hok Ho) as [Hs' Hi']; [by rewrite Hs|done|];
    left; injection Hi' as ? ? ? ?; split; [congruence|split; congruence]).
  simpl in Ho. apply frame_identity in Ho. rewrite Hs in Ho.
  destruct Ho as [[Hs0 Hi]|(Hs0 & Hreads & Hp & Hc' & Hr')].
  - left. injection Hi as ? ? ? ?. split; [done|]. split; congruence.
  - right. exists json, now, (controllerRoot (secrets s)). split; [done|]. split; [|done].
    split; [done|]. unfold identity, session. cbn [fst]. destruct Hp as (? & ? & _ & Hk & _). by rewrite Hk, <- Hc, <- Hr, Hc', Hr'.
Qed.

End Facts.
