(* ===== verification/SessionPairing.v ===== *)
(** * How a BLE session changes the controller table

    A controller is added only by a committed pairing that the user confirmed on
    the device, and removed only by the controller's own authenticated request. *)

From S2P Require Import Prelude Permissions DeviceSecurity DeviceSecurityProtocol CompanionText CompanionJson CompanionProtocol FlatJson BleAction ControlJson BleSession SessionTrace SessionRun SessionFacts.

Open Scope kitsu_scope.

Section Pairing.
Context {W : Type} `{SecurityPlatform W} `{CompanionCrypto W} `{BleSessionTransport W}
  `{BleOperationDelegate W}.
Abbreviation State := (StateOf W).
Implicit Types (w : Recorded W).

(** ** The table under the operations of the security object *)

Definition table (d : Sec) : list Controller := controllers (material_ d).
Definition keepsTable (x y : Sec * Recorded W) : Prop := table (fst y) = table (fst x).

#[local] Instance keepsTable_preorder : PreOrder keepsTable.
Proof. split; [done|]. unfold keepsTable. intros x y z Hxy Hyz. congruence. Qed.

Lemma plat_keeps {A} (m : M (Recorded W) A) : steady keepsTable (plat m).
Proof. intros [d w]. unfold plat, keepsTable. simpl. by destruct (m w). Qed.
Lemma self_keeps {A} (f : Sec -> A) : steady keepsTable (self f).
Proof. by intros [d w]. Qed.
Lemma updStatus_keeps f : steady keepsTable (updStatus f).
Proof. by intros [d w]. Qed.
Lemma setResult_keeps r : steady keepsTable (setResult r).
Proof. by intros [d w]. Qed.
#[local] Hint Resolve plat_keeps self_keeps updStatus_keeps setResult_keeps : steady.
Lemma validateSlot_keeps t : steady keepsTable (validateSlot t).
Proof. unfold validateSlot. steady. Qed.
Lemma encode_keeps g : steady keepsTable (encode g).
Proof. unfold encode. steady. Qed.
#[local] Hint Resolve validateSlot_keeps encode_keeps : steady.
Lemma persist_keeps : steady keepsTable persist.
Proof. unfold persist. steady. Qed.

Lemma commitTarget_lookup cs cid i : commitTarget cs cid = Some i -> is_Some (cs !! i).
Proof.
  unfold commitTarget. destruct (findController cs cid 0) as [[j c]|] eqn:Ef.
  - intros [= ->]. apply findController_some in Ef as (k & -> & Hk & _). by exists c.
  - intros Hf. apply freeController_some in Hf as (k & c & -> & Hk & _). by exists c.
Qed.

Lemma commit_table cid root a b c e f role d w :
  wp (commitControllerAfterPairing (Some cid) (Some root) a b c e f role)
    (fun _ x => table (fst x) = table d \/
       exists i, commitTarget (table d) cid = Some i /\
         table (fst x) = <[i := mkController true role cid root]> (table d)) (d, w).
Proof.
  unfold commitControllerAfterPairing. apply wp_bind, wp_sec_self. change (id d) with d.
  assert (Hno : forall r, wp (setResult r) (fun _ x => table (fst x) = table d \/
    exists i, commitTarget (table d) cid = Some i /\
         table (fst x) = <[i := mkController true role cid root]> (table d)) (d, w)) by (intros r; by left).
  destruct (begun (status_ d)); cbn [negb]; [|apply Hno].
  destruct (negb (role =? Owner) && _); [apply Hno|].
  destruct (_ || _ || _ || _ || _); [apply Hno|]. destruct (_ || _); [apply Hno|]. clear Hno. cbv zeta.
  change (controllers (material_ d)) with (table d).
  destruct (commitTarget (table d) cid) as [i|] eqn:Ei; [|by left].
  destruct (commitTarget_lookup _ _ _ Ei) as [old Hold].
  apply wp_bind. unfold updMaterial. apply wp_sec_upd. apply wp_bind.
  eapply wp_steady; [apply persist_keeps|]. intros r [d1 w1] Hk. unfold keepsTable in Hk. cbn in Hk.
  apply wp_bind. unfold when. apply wp_if; intros Hr.
  - apply wp_sec_upd, wp_ret. left. cbn. change (controllers (material_ d1)) with (table d1). rewrite Hk.
    unfold table. cbn. rewrite list_insert_insert_eq. apply list_insert_id.
    unfold table in Hold. rewrite Hold. f_equal. symmetry. by apply nth_lookup_Some.
  - apply wp_ret, wp_ret. right. exists i. split; [done|]. exact Hk.
Qed.

(** ** The table under a call *)

Lemma wp_security_wp {A} (m : M (Sec * Recorded W) A) (Q : A -> State -> Prop) s x :
  wp m (fun a x' => Q a (s, x')) x -> wp (security m) Q (s, x).
Proof. unfold wp, security. simpl. by destruct (m x). Qed.
Lemma world_table {A} (m : M (Recorded W) A) : steady sameTable (world m).
Proof. intros [s [d w]]. unfold world, sameTable. simpl. by destruct (m w). Qed.

(** The controller of a pending pairing in a free or its own place. *)
Definition pairedInto (cs cs' : list Controller) (p : Pending) : Prop :=
  exists i, commitTarget cs (pendingControllerId p) = Some i /\
    cs' = <[i := mkController true (pendingPairingRole p) (pendingControllerId p) (pendingControllerRoot p)]> cs.

(** The request of a controller to be forgotten. *)
Definition forgetRequested (json : list Z) s w : Prop :=
  state s = Authenticated /\ readsFrames s /\ exists request payload, requestProven json s w request payload /\
    beq (env_operation request) (bytes_of "controller.forget") = true /\ beq payload (js "{}") = true.
(** The frame that commits the pending pairing. *)
Definition commitAccepted (json : list Z) s d w (cs' : list Controller) : Prop :=
  state s = PairingAwaitingCommit /\ readsFrames s /\ commitProven json s d w /\ pairedInto (table d) cs' (pending s).

Definition tablePost (json : list Z) s d w (_ : bool) (st : State) : Prop :=
  table (device st) = table d \/ forgetRequested json s w \/ commitAccepted json s d w (table (device st)).

Lemma steady_table {A} (m : M State A) json s d w (st : State) (Q : A -> State -> Prop) :
  steady sameTable m -> tablePost json s d w true st ->
  (forall a st', tablePost json s d w true st' -> Q a st') -> wp m Q st.
Proof.
  intros Hm Ht HQ. eapply wp_steady; [exact Hm|]. intros a st' Hs. apply HQ.
  unfold tablePost, commitAccepted, sameTable, table in *. by rewrite Hs.
Qed.

Lemma forget_table request payload now json s d w :
  state s = Authenticated -> readsFrames s -> requestProven json s w request payload ->
  beq (env_operation request) (bytes_of "controller.forget") = true -> forall s1 w1,
  wp (forgetController request payload now) (fun _ st => tablePost json s d w true st) (s1, (d, w1)).
Proof.
  intros Hs Hr Hp Hf s1 w1. destruct (beq payload (js "{}")) eqn:Ej.
  - (* whatever the revocation does, it was asked for *)
    unfold wp. right. left. split; [done|]. split; [done|]. by exists request, payload.
  - eapply (wp_steady sameTable); [|].
    + unfold forgetController. rewrite Ej. apply steady_bind; [typeclasses eauto|steady|]. intros x.
      apply steady_bind; [typeclasses eauto|steady|]. intros r. steady.
    + intros a st Hst. left. exact Hst.
Qed.

Lemma envelope_table json now s d w : state s = Authenticated -> readsFrames s ->
  wp (handleAuthenticatedEnvelope json now) (tablePost json s d w) (s, (d, w)).
Proof.
  intros Hs Hr. unfold handleAuthenticatedEnvelope.
  apply wp_bind, wp_me, wp_bind, wp_world_run; [apply decodeEnvelope_mute|]. intros w1 Hw1. cbv zeta.
  assert (Hsteady : forall A (m : M State A) s1, steady sameTable m ->
    wp m (fun _ st => tablePost json s d w true st) (s1, (d, w1))).
  { intros A m s1 Hm. eapply steady_table; [exact Hm|by left|done]. }
  destruct (fst _) as [|[request payload]] eqn:Ed; [apply Hsteady; steady|].
  destruct (requestAuthorized (secrets s) request payload) eqn:Ea; cbn [negb]; [|apply Hsteady; steady].
  apply wp_bind, wp_set. destruct (beq _ _) eqn:Ef; [by apply (forget_table request payload)|].
  apply Hsteady. unfold delegateRequest.
  apply steady_bind; [typeclasses eauto|steady|]. intros x.
  apply steady_bind; [typeclasses eauto|apply world_table|]. intros a. steady.
Qed.

Lemma commitPairing_table okProof now json s d w s1 w1 :
  state s = PairingAwaitingCommit -> readsFrames s -> commitProven json s d w -> pending s1 = pending s ->
  wp (commitPairing okProof now) (fun _ st => tablePost json s d w true st) (s1, (d, w1)).
Proof.
  intros Hs Hr Hp He. unfold commitPairing. apply wp_bind, wp_me. cbv zeta. apply wp_bind.
  change (pending (id s1)) with (pending s1). rewrite He.
  assert (Hrest : forall A (m : M State A) d2 w2, steady sameTable m ->
    table d2 = table d \/ pairedInto (table d) (table d2) (pending s) ->
    wp m (fun _ st => tablePost json s d w true st) (s1, (d2, w2))).
  { intros A m d2 w2 Hm [Ht|Ht]; (eapply steady_table; [exact Hm| |done]); [by left|right; by right]. }
  apply wp_security_wp. eapply wp_mono; [apply commit_table|]. intros r [d2 w2] Ht.
  apply Hrest; [unfold abandonPairing; steady|exact Ht].
Qed.

Lemma pairCommit_table json now s d w : state s = PairingAwaitingCommit -> readsFrames s ->
  wp (handlePairCommit json now) (tablePost json s d w) (s, (d, w)).
Proof.
  intros Hs Hr. unfold handlePairCommit. apply wp_bind, wp_me.
  assert (Hq : quietly w w) by reflexivity.
  assert (Hno : forall w1, wp (ret false) (tablePost json s d w) (s, (d, w1))) by (intros w1; by left).
  destruct (suppliedCommit json (pending s)) as [supplied|] eqn:Es; [|apply Hno].
  apply wp_bind, (pendingProof_run _ _ _ _ w w Hq). intros w1 Hq1. cbv zeta.
  destruct (fst (makePendingPairingProof "client" (s, (d, w)))) as [expected|] eqn:Ee; cbn [negb]; [|apply Hno].
  destruct (constantTimeEqual expected supplied 32) eqn:Ev; cbn [negb]; [|apply Hno].
  assert (Hp : commitProven json s d w) by (by exists supplied, expected).
  clear Ee. apply wp_bind, (pendingProof_run _ _ _ _ w w1 Hq1). intros w2 Hq2.
  destruct (fst _) as [okProof|]; [|apply Hno]. by apply commitPairing_table.
Qed.

Lemma state_table json now s d w : readsFrames s ->
  wp (handleState (state s) json now) (tablePost json s d w) (s, (d, w)).
Proof.
  intros Hr.
  assert (Hsteady : forall (m : M State bool), steady sameTable m -> wp m (tablePost json s d w) (s, (d, w))).
  { intros m Hm. eapply steady_table; [exact Hm|by left|done]. }
  destruct (state s) eqn:Es; simpl; try (by left).
  - apply Hsteady. steady.
  - apply Hsteady. unfold handleClientAuth, enterAuthenticated. steady. apply world_table.
  - by apply envelope_table.
  - by apply pairCommit_table.
Qed.

(** The table after a call of the session is the one before, the one of a removed
    controller or the one with the pending controller added. *)
(** A call of the session, not of the rest of the program. *)
Definition sessionCall (op : SessionOp W) : bool := match op with OpOther _ _ => false | _ => true end.

Lemma exec_table op s d w : sessionCall op = true ->
  table (device (snd (exec op (s, (d, w))))) = table d \/
  exists json now, op = OpFrame json now /\
    (forgetRequested json s w \/
     commitAccepted json s d w (table (device (snd (exec op (s, (d, w))))))).
Proof.
  intros Hop.
  assert (Hsteady : forall A (m : M State A), steady sameTable m -> table (device (snd (m (s, (d, w))))) = table d)
    by (intros A m Hm; apply (Hm (s, (d, w)))).
  destruct op; simpl exec.
  5: { enough (Ht : wp (onFrame json now) (fun _ st => tablePost json s d w true st) (s, (d, w))).
       { destruct Ht as [Ht|[Ht|Ht]]; [by left|right; exists json, now; tauto..]. }
       unfold onFrame. apply wp_bind, wp_me.
       assert (Hs2 : forall A (m : M State A), steady sameTable m ->
         wp m (fun _ st => tablePost json s d w true st) (s, (d, w)))
         by (intros A m Hm; eapply steady_table; [exact Hm|by left|done]).
       apply wp_if; intros Hb; [apply Hs2; steady|]. apply wp_if; intros Hd; [apply Hs2; steady|].
       apply orb_false_iff in Hb as [[Hb _]%orb_false_iff Hl]. apply negb_false_iff in Hb, Hl.
       apply wp_bind. eapply wp_mono; [by apply state_table|]. intros b st Ht.
       eapply (steady_table (A := unit)); [steady|exact Ht|done]. }
  all: left; try (apply Hsteady; steady; fail).
  done.
Qed.

(** ** Confirmed on the device *)

(** A pairing with these parameters waits for its commit. *)
Definition awaitingCommit (p : Pending) (st : State) : Prop :=
  state (session st) = PairingAwaitingCommit /\ pending (session st) = p.

(** The user confirmed it: the pairing window was open for this role, the request
    was waiting, the link was secure, and the identifier is a new one. *)
Definition userConfirmed (p : Pending) (op : SessionOp W) (st : State) : Prop :=
  (exists now, op = OpConfirm now /\ mayConfirm now (session st) = true) /\
  pendingPairingRole p = pairingWindowRole (window (session st)) /\
  freshId (device st) (pendingControllerId p).

Lemma confirmation_needed p st op : SessionOk (session st) -> awaitingCommit p (snd (exec op st)) ->
  awaitingCommit p st \/ userConfirmed p op st.
Proof.
  intros Hok [Hs Hp]. destruct st as [s [d w]]. destruct (exec_outcome op s d w) as (s1 & d1 & w1 & E & Ho).
  rewrite E in *. unfold awaitingCommit, userConfirmed, session, device in *. cbn [fst snd] in *.
  destruct op; simpl in Ho.
  - destruct Ho as [[->|[_ ->]] _]; [by left|done].
  - destruct Ho as (-> & _ & _). unfold established in *. destruct (begun_ s); cbn [negb] in *; [|by left].
    by destruct (secureLink l), (backingOff now s).
  - destruct Ho as [-> _]. unfold unlinked in *. destruct (begun_ s); cbn [negb] in *; [|by left].
    cbn in Hs. by destruct (backoffUntil s =? 0).
  - destruct Ho as [-> _]. unfold windowed in *. destruct (begun_ s); cbn [negb] in *; [|by left].
    cbn in *. destruct (isPairing (state s)) eqn:Ei; [done|]. by rewrite Hs in Ei.
  - left. revert Hs Hp. destruct Ho as [s2 w2 Hg Hq|s2 w2 Hs Hc Hr Hn|w2 Hs Hq|x w2 Hs Hr Hq Hx Hh|w2 Hs Hr Hq
    |p' w2 Hs Hr Hq Hp|c2d d2c j w2 Hs Hr Hp Hw1|s2 w2 Hs Hr Hq Hp Hs1|s2 wm w2 Hs Hr Hm Hn Hp Hb|v s2 wm w2 Hs Hr Hm Hv Hg Hq].
    + by rewrite (gaveUp_state _ _ _ Hg).
    + unfold failed. by destruct (kBleMaximumProofFailures <=? _).
    + done.
    + done.
    + cbn. by rewrite Hs.
    + done.
    + done.
    + unfold paired in Hs1. by rewrite Hs1.
    + destruct Hb as [[[b ->] _]|[-> _]]; [|done]. cbn. by rewrite Hs.
    + by rewrite (gaveUp_state _ _ _ Hg).
  - destruct Ho as [[(cid & root & Hf & Hm & ->)|[[-> _]|[Hm [->|Hgv]]]] _].
    + right. split; [by exists now|]. subst p. cbn. split; [|done]. by apply mayConfirm_spec in Hm as (_ & _ & _ & _ & _ & Hr & _).
    + by left.
    + cbn in Hs. by apply mayConfirm_spec in Hm as (_ & Hs' & _); rewrite Hs' in Hs.
    + by rewrite (gaveUp_state _ _ _ Hgv) in Hs.
  - destruct Ho as [-> _]. unfold cancelled in *. destruct (begun_ s); cbn [negb] in *; [|by left].
    cbn in *. destruct (isPairing (state s)) eqn:Ei; [done|]. cbn in Hs. by rewrite Hs in Ei.
  - destruct Ho as [[->|(-> & Ha & _)] _]; [by left|]. cbn in Hs. by rewrite Ha in Hs.
  - destruct Ho as (dr & -> & _). left. unfold looped in *. destruct (begun_ s); cbn [negb] in *; [|done].
    cbv zeta in *. unfold recovered in *. destruct (_ && _ && _); [done|].
    unfold checked, expired in *. destruct (timedOut _ _) eqn:Et; [by destruct (closeDue _ _ _)|].
    destruct (pairingWindowOpen (window s) && _), (closeDue _ _ _); done.
  - destruct Ho as [-> _]. by left.
Qed.

End Pairing.

(** ** Lock-out and closing of a BLE session

    The third failed proof in a row shuts the handshake for thirty seconds; a
    session that closes has its link dropped by the loop. *)

(** The time of a call that looks at the clock. *)
Definition opTime {W} (op : SessionOp W) : option Z :=
  match op with
  | OpLink _ now | OpUnlink now | OpWindow _ _ now _ | OpFrame _ now | OpConfirm now | OpLoop now => Some now
  | OpBegin _ | OpCancel | OpEvent _ _ | OpOther _ _ => None
  end.

(** Instants of one counter period. *)
Lemma deadlineReached_early now deadline : 0 <= now -> now < deadline -> deadline < now + 2 ^ 31 ->
  deadlineReached now deadline = false.
Proof.
  intros Hn Hl Hd. unfold deadlineReached, s32, u32.
  rewrite <- (Z.mod_add (now - deadline) 1) by done.
  change (2 ^ 31) with 2147483648 in *. change (2 ^ 32) with 4294967296 in *.
  rewrite Z.mod_small by lia. destruct (Z.ltb_spec (now - deadline + 1 * 4294967296) 2147483648); [lia|].
  apply Z.leb_gt. lia.
Qed.
Lemma deadlineReached_late now deadline : 0 <= deadline -> deadline <= now -> now < deadline + 2 ^ 31 ->
  deadlineReached (u32 now) deadline = true.
Proof.
  intros Hd Hl Hn. unfold deadlineReached, s32, u32. rewrite Zminus_mod_idemp_l.
  change (2 ^ 31) with 2147483648 in *. change (2 ^ 32) with 4294967296 in *.
  rewrite Z.mod_small by lia. destruct (Z.ltb_spec (now - deadline) 2147483648); [|lia].
  apply Z.leb_le. lia.
Qed.

Section Time.
Context {W : Type} `{SecurityPlatform W} `{CompanionCrypto W} `{BleSessionTransport W}
  `{BleOperationDelegate W}.
Abbreviation State := (StateOf W).
Implicit Types (w : Recorded W).

Lemma frame_begun json now s d w s1 w1 : FrameOutcome json now s d w s1 w1 -> begun_ s1 = begun_ s.
Proof.
  assert (Hg : forall s0 s2, gaveUp now s0 s2 -> begun_ s2 = begun_ s0)
    by (intros s0 s2 (c & s3 & (x & p & b & r & ->) & ->); done).
  intros [s2 w2 Hgv Hq|s2 w2 (x & p & b & r & ->) Hc Hr Hno|w2 Hs Hq|x w2 Hs Hr Hq Hx Hh|w2 Hs Hr Hq
    |p w2 Hs Hr Hq Hp|c2d d2c j w2 Hs Hr Hp Hw2|s2 w2 Hs Hr Hq Hp ->|s2 wm w2 Hs Hr Hm Hnx Hp Hb|v s2 wm w2 Hs Hr Hm Hv Hgv Hq];
    try done.
  - by apply Hg.
  - unfold failed. by destruct (kBleMaximumProofFailures <=? _).
  - by destruct Hb as [[[b ->] _]|[-> _]].
  - by rewrite (Hg _ _ Hgv).
Qed.

(** ** Lock-out *)

(** Out of the handshake until a time in the minute after [T]. *)
Record Locked (T : Z) (s : Session) : Prop := {
  lock_state : state s = Closing \/ state s = Backoff;
  lock_until : T + kBleControllerBackoffMs <= backoffUntil s < T + 2 * kBleControllerBackoffMs;
  lock_failures : kBleMaximumProofFailures <= proofFailures s;
}.

Section Lock.
Context (T : Z) (T_low : 0 <= T) (T_high : T + 2 * kBleControllerBackoffMs < 2 ^ 32).

(** Within thirty seconds of [T]. *)
Definition within (now : Z) : Prop := T <= now < T + kBleControllerBackoffMs.

Lemma locked_early now s : Locked T s -> within now -> deadlineReached now (backoffUntil s) = false.
Proof using T_low.
  intros [_ Hu _] Hn. unfold within, kBleControllerBackoffMs in *. apply deadlineReached_early; lia.
Qed.
Lemma locked_nonzero s : Locked T s -> (backoffUntil s =? 0) = false.
Proof using T_low. intros [_ Hu _]. unfold kBleControllerBackoffMs in *. apply Z.eqb_neq. lia. Qed.

Lemma closed_locked now cause s s2 : Locked T s -> scratched s s2 -> Locked T (closed now cause s2).
Proof. intros [] (x & p & b & r & ->). split; cbn; [by left|done|done]. Qed.

Lemma frame_locked json now s d w s1 w1 : within now -> Locked T s -> FrameOutcome json now s d w s1 w1 -> Locked T s1.
Proof using T_low T_high.
  intros Hn Hl Ho. destruct (lock_state _ _ Hl) as [Hst|Hst].
  all: destruct Ho as [s1 w1 Hg Hq|s2 w1 Hs Hc Hr Hno|w1 Hs Hq|x w1 Hs Hr Hq Hx Hh|w1 Hs Hr Hq
    |p w1 Hs Hr Hq Hp|c2d d2c j w1 Hs Hr Hp Hw1|s1 w1 Hs Hr Hq Hp Hs1|s1 wm w1 Hs Hr Hm Hnx Hp Hb|v s1 wm w1 Hs Hr Hm Hv Hg Hq];
    try congruence; try done.
  - destruct Hg as (c & s2 & Hs & ->). by eapply closed_locked.
  - destruct Hg as (c & s2 & Hs & ->). by eapply closed_locked.
  - apply scratched_ok_parts in Hs as (_ & _ & _ & Ef & _ & _ & _). destruct Hl as [_ Hu Hf].
    unfold failed. rewrite Ef. unfold within, kBleControllerBackoffMs, kBleMaximumProofFailures in *.
    change (2 ^ 32) with 4294967296 in *.
    assert (Hmax : (3 <=? (if proofFailures s <? 255 then proofFailures s + 1 else proofFailures s)) = true).
    { apply Z.leb_le. destruct (proofFailures s <? 255); lia. }
    rewrite Hmax. unfold kBleControllerBackoffMs. split; unfold kBleControllerBackoffMs; cbn -[Z.mul];
      [by left|rewrite u32_id by lia; lia|by apply Z.leb_le].
Qed.

(** No call in these thirty seconds ends the lock-out. *)
Lemma outcome_locked op s d w s1 w1 : begun_ s = true -> (forall now, opTime op = Some now -> within now) ->
  Locked T s -> Outcome op s d w s1 w1 -> Locked T s1 /\ begun_ s1 = true.
Proof using T_low T_high.
  intros Hb Hn Hl Ho. pose proof (locked_nonzero _ Hl) as Hz.
  assert (Hnp : isPairing (state s) = false /\ isHandshake (state s) = false)
    by (destruct (lock_state _ _ Hl) as [-> | ->]; done).
  destruct op; simpl in Ho, Hn; try specialize (Hn _ eq_refl).
  - destruct Ho as [[->|[Hb' _]] _]; [done|congruence].
  - destruct Ho as (-> & _ & _). unfold established, backingOff.
    rewrite Hb. cbn [negb backoffUntil set_link]. rewrite Hz, (locked_early now s Hl Hn). cbn.
    destruct (secureLink l); cbn; (split; [|done]); destruct Hl; split; cbn; auto.
  - destruct Ho as [-> _]. unfold unlinked, expired. rewrite Hb. cbn. rewrite Hz.
    destruct (_ && _); (split; [|done]); destruct Hl; split; cbn; auto.
  - destruct Ho as [-> _]. unfold windowed. rewrite Hb. cbn. rewrite (proj1 Hnp).
    split; [|done]. destruct Hl; split; cbn; auto.
  - split; [by eapply frame_locked|]. by rewrite (frame_begun _ _ _ _ _ _ _ Ho).
  - destruct Ho as [[(cid & root & _ & Hm & ->)|[[-> _]|[Hm _]]] _]; [|done|];
      apply mayConfirm_spec in Hm as (_ & Hs & _); rewrite Hs in Hnp; by destruct Hnp.
  - destruct Ho as [-> _]. unfold cancelled. rewrite Hb. cbn. rewrite (proj1 Hnp).
    split; [|done]. destruct Hl; split; cbn; auto.
  - destruct Ho as [[->|(_ & Hs & _)] _]; [done|]. destruct (lock_state _ _ Hl); congruence.
  - destruct Ho as (dr & -> & _). unfold looped, recovered, checked. rewrite Hb. cbn [negb]. cbv zeta.
    assert (He : Locked T (expired now s) /\ begun_ (expired now s) = true /\ state (expired now s) = state s).
    { unfold expired. destruct (_ && _); [|done]. split; [|done]. destruct Hl; split; cbn; auto. }
    destruct He as (He & Hbe & Hse). assert (Ht : timedOut now (expired now s) = false).
    { unfold timedOut. rewrite Hse. destruct Hnp as [-> ->]. done. }
    rewrite Ht. set (s2 := if closeDue now dr (expired now s) then _ else _).
    assert (Hs2 : Locked T s2 /\ begun_ s2 = true).
    { unfold s2. destruct (closeDue _ _ _); [|done]. split; [|done]. destruct He; split; cbn; auto. }
    rewrite (locked_early now s2 (proj1 Hs2) Hn), andb_false_r. exact Hs2.
  - destruct Ho as [-> _]. done.
Qed.
End Lock.

Lemma runOps_locked T ops st : 0 <= T -> T + 2 * kBleControllerBackoffMs < 2 ^ 32 ->
  Forall (fun op => forall now, opTime op = Some now -> within T now) ops ->
  Locked T (session st) -> begun_ (session st) = true -> Locked T (session (runOps ops st)).
Proof.
  intros Hlow Hhigh Hops Hl Hb.
  enough (Locked T (session (runOps ops st)) /\ begun_ (session (runOps ops st)) = true) by tauto.
  revert st Hl Hb. induction Hops as [|op ops Hop Hops IH]; intros st Hl Hb; [done|].
  simpl. destruct st as [s [d w]]. destruct (exec_outcome op s d w) as (s1 & d1 & w1 & E & Ho). rewrite E.
  destruct (outcome_locked T Hlow Hhigh op s d w s1 w1 Hb Hop Hl Ho) as [Hl1 Hb1].
  by apply (IH (s1, (d1, w1))).
Qed.


(** ** Closing *)

(** What a frame that closes the session leaves for the loop. *)
Lemma frame_closing json T s d w s1 w1 : SessionOk s -> FrameOutcome json T s d w s1 w1 ->
  state s <> Closing -> state s1 = Closing ->
  (closeAt (close s1) = u32 (T + kCloseDelayMs) \/ closeAt (close s1) = u32 (T + kTransmitDrainTimeoutMs)) /\
  pendingCloseCause (close s1) <> CauseNone.
Proof.
  intros Hok Ho Hs0 Hs1. split; [|by apply (ok_cause s1 (frame_ok _ _ _ _ _ _ _ Hok Ho))].
  destruct Ho as [s1 w1 (c & s2 & Hx & ->) Hq|s2 w1 Hs Hc Hr Hno|w1 Hs Hq|x w1 Hs Hr Hq Hx Hh|w1 Hs Hr Hq
    |p w1 Hs Hr Hq Hp|c2d d2c j w1 Hs Hr Hp Hw1|s1 w1 Hs Hr Hq Hp ->|s1 wm w1 Hs Hr Hm Hnx Hp Hb
    |v s1 wm w1 Hs Hr Hm Hv (c & s2 & Hx & ->) Hq]; cbn in *; try congruence; try by left.
  - unfold failed in *. destruct (kBleMaximumProofFailures <=? _); [by left|done].
  - destruct Hb as [[[b ->] _]|[-> _]]; [cbn in Hs1; congruence|by right].
Qed.


(** ** Two deadlines that are never due *)

(** The close delay that ends when the clock reads zero is taken for no delay: the
    loop never drops the link. *)
Theorem close_deadline_zero cause s now drained :
  closeDue now drained (closed (2 ^ 32 - kCloseDelayMs) cause s) = false.
Proof. done. Qed.

(** A frame in the back-off state, before the first proof failures, goes back to the
    handshake while the back-off runs; its deadline is zero, which lies in the
    future for the upper half of the clock, so the hello that follows is answered. *)
Theorem backoff_left_by_a_frame json now s d w : readsFrames s -> state s = Backoff -> json <> [] ->
  proofFailures s < 2 -> 2 ^ 31 <= now < 2 ^ 32 -> stateDeadline s = 0 -> backingOff now s = true ->
  let s1 := session (snd (onFrame json now (s, (d, w)))) in
  state s1 = AwaitingHello /\ backingOff now s1 = true /\ deadlineReached now (stateDeadline s1) = false.
Proof.
  intros [Hb0 Hl] Hs Hj Hp Hn Hd Hb. cbv zeta.
  change (wp (onFrame json now) (fun _ st => state (session st) = AwaitingHello /\
    backingOff now (session st) = true /\ deadlineReached now (stateDeadline (session st)) = false) (s, (d, w))).
  unfold onFrame. apply wp_bind, wp_me. change (id s) with s. rewrite Hb0, Hl, Hs.
  destruct json as [|c json]; [done|]. cbn [negb orb length Nat.eqb isHandshake andb].
  apply wp_bind. cbn [handleState]. apply wp_ret, wp_bind, wp_me. rewrite Hs. apply failProof_run.
  intros w1 _. unfold session, failed, backingOff in *. cbn [fst].
  destruct (Z.ltb_spec (proofFailures s) 255); [|lia].
  assert (Hmax : (kBleMaximumProofFailures <=? proofFailures s + 1) = false)
    by (unfold kBleMaximumProofFailures; apply Z.leb_gt; lia).
  rewrite Hmax. cbn. split; [done|]. split; [done|]. rewrite Hd. change (2 ^ 31) with 2147483648 in *.
  change (2 ^ 32) with 4294967296 in *. unfold deadlineReached, s32, u32. rewrite Z.sub_0_r, Z.mod_small by lia.
  change (2 ^ 31) with 2147483648. destruct (Z.ltb_spec now 2147483648); [lia|]. apply Z.leb_gt. lia.
Qed.
End Time.
