(* ===== verification/SessionSim.v ===== *)
(** * BLE sessions run on a simulated device

    The device of [DeviceSecuritySim], a toy MAC and a transport that always sends:
    a phone that was paired opens a session and makes a request, another one is
    paired, a third guesses proofs.  The theorems about the session are applied to
    these runs. *)

From S2P Require Import Prelude OtaCodec OtaCodecFacts Permissions DeviceSecurity DeviceSecurityFacts DeviceSecuritySim CompanionText CompanionTextFacts CompanionJson CompanionProtocol CompanionProtocolFacts FlatJson BleAction ControlJson BleSession SessionTrace SessionRun SessionFacts SessionPairing.

Open Scope kitsu_scope.

#[export] Instance SimSessionCrypto : CompanionCrypto SimStore := {|
  ccRandomBytes n := randomBytes n;
  ccSha256 parts := ret (Some (simMac [] (concat parts)));
  ccHmacSha256 key parts := ret (Some (simMac key (concat parts)));
  ccHkdfSha256 key salt info := ret (Some (simMac key (salt ++ info)));
|}.
#[export] Instance SimTransport : BleSessionTransport SimStore := {|
  sendBleJson json := ret true;
  setBleApplicationAuthenticated on := ret true;
  bleTransmitIdle := ret true;
  disconnectBle cause := ret tt;
|}.
#[export] Instance SimDelegate : BleOperationDelegate SimStore := {|
  handleAuthorizedBleRequest role request payload n := ret (Some (js "{'ok':true}"));
|}.

Definition simOp : Type := SessionOp SimStore.
Abbreviation run ops := (runOps (W := SimStore) ops (power_on demoSec demoStore)).

Definition simUid : list Z := bytes_of "KT12AB" ++ [0].
Definition secure : Link := mkLink true true true true.
Definition linked : list simOp := [OpBegin (Some simUid); OpLink secure 1000].

Lemma state_eta (st : StateOf SimStore) : (session st, (device st, recordedWorld st)) = st.
Proof. by destruct st as [s [d w]]. Qed.

Lemma outputs_recorded (st : StateOf SimStore) : snd (recordedWorld st) = outputs st.
Proof. reflexivity. Qed.

(** ** The phone *)

Definition phoneNonce : list Z := replicate 16 77.
Definition clientHello : list Z :=
  js "{'v':1,'type':'client_hello','controller_id_b64':'" ++ base64url demoCid ++
  js "','client_nonce_b64':'" ++ base64url phoneNonce ++ js "'}".
(** The proof with the device's nonce, which is the first random draw. *)
Definition drawn (n : nat) (k : Z) : list Z := replicate n (40 + k).
Definition demoRoot : list Z := replicate 32 4.
Definition clientAuth : list Z :=
  js "{'v':1,'type':'client_auth','proof_b64':'" ++
  base64url (simMac demoRoot (concat (handshakeParts "client" demoCid phoneNonce (drawn 16 0)))) ++ js "'}".
Definition phoneKey : list Z :=
  simMac demoRoot (simMac [] (phoneNonce ++ drawn 16 0) ++ bytes_of "kitsu868/ble/c2d/v1").
Definition phoneRequest : list Z :=
  match fst (encodeEnvelope ChannelRequest 1 exampleNonce exampleRequestId (bytes_of "state.get")
               (js "{}") phoneKey 1024 demoStore) with
  | inr json => json
  | inl _ => []
  end.

Definition opened : list simOp := linked ++ [OpFrame clientHello 1100; OpFrame clientAuth 1200].

Lemma opened_authenticated : state (session (run opened)) = Authenticated.
Proof. vm_compute. reflexivity. Qed.


(** ** A request *)

Abbreviation requestOp := (OpFrame (W := SimStore) phoneRequest 1300).
Abbreviation beforeRequest := (run opened).
Definition requestOutputs : list Output :=
  let all := outputs (snd (exec requestOp beforeRequest)) in
  take (length all - length (outputs beforeRequest)) all.

Lemma request_delegated : length (requests requestOutputs) = 1%nat /\
  outputs (snd (exec requestOp beforeRequest)) = requestOutputs ++ outputs beforeRequest.
Proof. vm_compute. by split. Qed.

Lemma delegated_request_verified_witness :
  exists json now request payload, requestOp = OpFrame json now /\
    requests requestOutputs = [OutRequest (controllerRole (secrets (session beforeRequest))) request payload] /\
    state (session beforeRequest) = Authenticated /\ readsFrames (session beforeRequest) /\
    fst (decodeAndVerifyEnvelope json (clientToDeviceKey (secrets (session beforeRequest))) ChannelRequest
           (expectedClientSequence (secrets (session beforeRequest))) kMaximumEnvelopePayloadBytes
           (recordedWorld beforeRequest)) = inr (request, payload) /\
    requestAuthorized (secrets (session beforeRequest)) request payload = true.
Proof.
  assert (Hw : outputs (snd (exec requestOp (session beforeRequest, (device beforeRequest, recordedWorld beforeRequest)))) =
    requestOutputs ++ snd (recordedWorld beforeRequest)).
  { rewrite (state_eta beforeRequest), (outputs_recorded beforeRequest). exact (proj2 request_delegated). }
  destruct (delegated_request_verified requestOp (session beforeRequest) (device beforeRequest)
    (recordedWorld beforeRequest) requestOutputs Hw) as [Hno|Hyes]; [|exact Hyes].
  pose proof (proj1 request_delegated) as Hl. rewrite Hno in Hl. discriminate Hl.
Defined.

(** ** Pairing a new phone *)

Definition pairRequest : list Z :=
  js "{'v':1,'type':'pair_request','client_nonce_b64':'" ++ base64url phoneNonce ++
  js "','label':'phone','platform':'android'}".
(** The device draws its nonce, the root and the identifier. *)
Definition grantedRoot : list Z := drawn 32 1.
Definition grantedId : list Z := drawn 16 2.
Definition pairCommit : list Z :=
  js "{'v':1,'type':'pair_commit','proof_b64':'" ++
  base64url (simMac grantedRoot (concat (pairingParts "client" grantedId grantedRoot simUid phoneNonce (drawn 16 0)))) ++
  js "'}".
Definition confirmed : list simOp :=
  linked ++ [OpWindow true 60000 1000 Owner; OpFrame pairRequest 1100; OpConfirm 1200].
Abbreviation commitOp := (OpFrame (W := SimStore) pairCommit 1300).

Lemma pairing_adds : table (device (snd (exec commitOp (run confirmed)))) <> table (device (run confirmed)).
Proof. intros E. apply (f_equal (fun t => countValid t)) in E. vm_compute in E. discriminate E. Qed.


(** ** Guessing *)

Definition guess : list Z := js "{'v':1}".
Abbreviation twoGuesses := (run (linked ++ [OpFrame guess 1100; OpFrame guess 1200])).
Definition lockedOps : list simOp := [OpLoop 1600; OpUnlink 1700; OpLink secure 2000; OpFrame clientHello 2100].

Lemma twoGuesses_ok : SessionOk (session twoGuesses).
Proof. apply runOps_ok, session0_ok. Qed.


