(* ===== verification/Pack.v ===== *)
(** * Companion packs (src/src/companion_pack.h, companion_pack.cpp)

    The artwork of a companion is an image in the flash partition "spiffs": a
    64-byte header, a table of clips, a table of steps and the frames.  Class
    CompanionPack checks the image once at start-up and then selects clips and
    frames by reading the flash again.  A packed structure is its bytes and its
    members are read at their offsets; an enumeration cast from a byte is that
    byte.  [partition_] is the size of the partition found.  A flash read that
    fails is [None]: every caller then gives up before it uses the buffer.
    [yield()] and the getters that only return a member have no definition. *)

From S2P Require Import Prelude Crc.

Open Scope Z_scope.
Open Scope kitsu_scope.

(** ** Data *)

Definition KITSU_FRAME_WIDTH : Z := 64.
Definition KITSU_PACK_V1_FRAME_HEIGHT : Z := 64.
Definition KITSU_PACK_V2_FRAME_HEIGHT : Z := 80.
Definition KITSU_PACK_V1_FRAME_BYTES : Z := 512.
Definition KITSU_PACK_V2_FRAME_BYTES : Z := 640.
Definition KITSU_PACK_V1 : Z := 1.
Definition KITSU_PACK_V2 : Z := 2.
Definition KITSU_PACK_HEADER_BYTES : Z := 64.
Definition sizeofClip : Z := 12.
Definition sizeofStep : Z := 4.

Definition PACK_MAGIC : list Z := bytes_of "K868PK1" ++ [0].
Definition MAX_CLIPS : Z := 512.
Definition MAX_STEPS : Z := 65535.
Definition MAX_STEPS_PER_CLIP : Z := 256.
Definition MIN_STEP_MS : Z := 100.
Definition MAX_STEP_MS : Z := 60000.

(** [CompanionRole]: the first and the last of its twelve values. *)
Definition Idle : Z := 0.
Definition Evolve : Z := 11.

(** [PackPlayback]. *)
Definition Hold : Z := 0.
Definition Once : Z := 1.
Definition Loop : Z := 2.
Definition PingPong : Z := 3.

Definition KITSU_PLAYBACK_ANY : Z :=
  Z.lor (Z.shiftl 1 Hold) (Z.lor (Z.shiftl 1 Once) (Z.lor (Z.shiftl 1 Loop) (Z.shiftl 1 PingPong))).

Module Header.
Definition magic (h : list Z) : list Z := slice 0 8 h.
Definition formatVersion (h : list Z) : Z := get16 (drop 8 h).
Definition headerBytes (h : list Z) : Z := get16 (drop 10 h).
Definition totalBytes (h : list Z) : Z := get32 (drop 12 h).
Definition payloadCrc32 (h : list Z) : Z := get32 (drop 16 h).
Definition headerCrc32 (h : list Z) : Z := get32 (drop 20 h).
Definition packId (h : list Z) : Z := get32 (drop 24 h).
Definition revision (h : list Z) : Z := get32 (drop 28 h).
Definition width (h : list Z) : Z := get16 (drop 32 h).
Definition height (h : list Z) : Z := get16 (drop 34 h).
Definition frameCount (h : list Z) : Z := get16 (drop 36 h).
Definition clipCount (h : list Z) : Z := get16 (drop 38 h).
Definition stepCount (h : list Z) : Z := get32 (drop 40 h).
Definition flags (h : list Z) : Z := get32 (drop 44 h).
Definition displayName (h : list Z) : list Z := slice 48 16 h.
End Header.

Module Clip.
Definition role (c : list Z) : Z := byte_at c 0.
Definition appearanceVariant (c : list Z) : Z := byte_at c 1.
Definition mode (c : list Z) : Z := byte_at c 2.
Definition weight (c : list Z) : Z := byte_at c 3.
Definition firstStep (c : list Z) : Z := get32 (drop 4 c).
Definition stepCount (c : list Z) : Z := get16 (drop 8 c).
Definition reserved (c : list Z) : Z := get16 (drop 10 c).
End Clip.

Module Step.
Definition frameIndex (s : list Z) : Z := get16 s.
Definition durationMs (s : list Z) : Z := get16 (drop 2 s).
End Step.

Record CompanionClipActivation := mkActivation {
  requestedRole : Z;
  clipRole : Z;
  activationMode : Z;
  token : Z;
  forwardDurationMs : Z;
  cycleDurationMs : Z;
}.

(** The members that describe the selected clip. *)
Record Active := mkActive {
  activeClipValid_ : bool;
  activeRole_ : Z;
  activeVariant_ : Z;
  activeToken_ : Z;
  activeClip_ : list Z;
  activeForwardDurationMs_ : Z;
  activeCycleDurationMs_ : Z;
}.

Record Pack := mkPack {
  partition_ : option Z;
  header_ : list Z;
  displayName_ : list Z;
  present_ : bool;
  valid_ : bool;
  error_ : string;
  active_ : Active;
  cachedFrameIndex_ : Z;
  frameBytes_ : Z;
  frameBuffer_ : list Z;
}.

Definition noActive : Active := mkActive false Idle 0 0 (replicate 12 0) 0 0.
Definition pack0 : Pack :=
  mkPack None (replicate 64 0) (bytes_of "None" ++ replicate 13 0) false false "not-started"
         noActive 0xffff 0 (replicate 640 0).

(** ** The flash and the random source *)

Class PackPlatform (W : Type) := {
  findSpiffs : M W (option Z);
  esp_partition_read : Z -> Z -> M W (option (list Z));
  esp_random : M W Z;
}.

Definition set_active (a : Active) (p : Pack) : Pack :=
  mkPack (partition_ p) (header_ p) (displayName_ p) (present_ p) (valid_ p) (error_ p) a
         (cachedFrameIndex_ p) (frameBytes_ p) (frameBuffer_ p).
Definition set_clipValid (b : bool) (a : Active) : Active :=
  mkActive b (activeRole_ a) (activeVariant_ a) (activeToken_ a) (activeClip_ a)
           (activeForwardDurationMs_ a) (activeCycleDurationMs_ a).
Definition set_partition (x : option Z) (p : Pack) : Pack :=
  mkPack x (header_ p) (displayName_ p) (present_ p) (valid_ p) (error_ p) (active_ p)
         (cachedFrameIndex_ p) (frameBytes_ p) (frameBuffer_ p).
Definition set_header (h : list Z) (p : Pack) : Pack :=
  mkPack (partition_ p) h (displayName_ p) (present_ p) (valid_ p) (error_ p) (active_ p)
         (cachedFrameIndex_ p) (frameBytes_ p) (frameBuffer_ p).
Definition set_present (b : bool) (p : Pack) : Pack :=
  mkPack (partition_ p) (header_ p) (displayName_ p) b (valid_ p) (error_ p) (active_ p)
         (cachedFrameIndex_ p) (frameBytes_ p) (frameBuffer_ p).
Definition set_frameBytes (n : Z) (p : Pack) : Pack :=
  mkPack (partition_ p) (header_ p) (displayName_ p) (present_ p) (valid_ p) (error_ p) (active_ p)
         (cachedFrameIndex_ p) n (frameBuffer_ p).
Definition set_cached (i : Z) (p : Pack) : Pack :=
  mkPack (partition_ p) (header_ p) (displayName_ p) (present_ p) (valid_ p) (error_ p) (active_ p)
         i (frameBytes_ p) (frameBuffer_ p).
Definition set_frameBuffer (b : list Z) (p : Pack) : Pack :=
  mkPack (partition_ p) (header_ p) (displayName_ p) (present_ p) (valid_ p) (error_ p) (active_ p)
         (cachedFrameIndex_ p) (frameBytes_ p) b.

(** [void CompanionPack::fail(reason)]. *)
Definition failed (reason : string) (p : Pack) : Pack :=
  let a := active_ p in
  mkPack (partition_ p) (header_ p) (displayName_ p) (present_ p) false reason
         (mkActive false (activeRole_ a) (activeVariant_ a) (activeToken_ a) (activeClip_ a) 0 0)
         0xffff 0 (frameBuffer_ p).

(** The end of [begin]: the name is copied and the pack becomes live. *)
Definition accepted (p : Pack) : Pack :=
  mkPack (partition_ p) (header_ p) (Header.displayName (header_ p) ++ [0]) (present_ p) true "none"
         (set_clipValid false (active_ p)) 0xffff (frameBytes_ p) (frameBuffer_ p).

(** [bool isPrintableName(name, length)]. *)
Fixpoint printableLoop (foundTerminator foundCharacter : bool) (name : list Z) : bool :=
  match name with
  | [] => foundCharacter
  | value :: name' =>
      if value =? 0 then printableLoop true foundCharacter name'
      else if foundTerminator || (value <? 0x20) || (0x7e <? value) then false
      else printableLoop foundTerminator true name'
  end.
Definition isPrintableName (name : list Z) : bool := printableLoop false false name.

Definition expectedBytes (h : list Z) (frameBytes : Z) : Z :=
  KITSU_PACK_HEADER_BYTES + u64 (Header.clipCount h) * sizeofClip +
  u64 (Header.stepCount h) * sizeofStep + u64 (Header.frameCount h) * frameBytes.

Section Pack.
Context {W : Type} `{PackPlatform W}.

Definition P : Type := Pack * W.
Definition me {A} (f : Pack -> A) : M P A := gets (fun s => f (fst s)).
Definition set (f : Pack -> Pack) : M P unit := modify (fun s => (f (fst s), snd s)).
Definition world {A} (m : M W A) : M P A := fun s => let '(a, w) := m (snd s) in (a, (fst s, w)).
Definition fail (reason : string) : M P unit := set (failed reason).

Definition readAt (offset length : Z) : M P (option (list Z)) :=
  partition <- me partition_ ;;
  match partition with
  | None => ret None
  | Some size =>
      if size <? u64 (offset + length) then ret None
      else world (esp_partition_read offset length)
  end.

(** ** Validation *)

Definition frameBytesFor (h : list Z) : option Z :=
  if (Header.formatVersion h =? KITSU_PACK_V1) && (Header.width h =? KITSU_FRAME_WIDTH) &&
     (Header.height h =? KITSU_PACK_V1_FRAME_HEIGHT)
  then Some KITSU_PACK_V1_FRAME_BYTES
  else if (Header.formatVersion h =? KITSU_PACK_V2) && (Header.width h =? KITSU_FRAME_WIDTH) &&
          (Header.height h =? KITSU_PACK_V2_FRAME_HEIGHT)
  then Some KITSU_PACK_V2_FRAME_BYTES
  else None.

(** The header with its own checksum cleared, after the magic. *)
Definition headerCrcInput (h : list Z) : list Z := drop 8 (take 20 h ++ replicate 4 0 ++ drop 24 h).

Definition reject (reason : string) : M P bool := fail reason ;;; ret false.

Definition validateHeader : M P bool :=
  h <- me header_ ;;
  partition <- me partition_ ;;
  if negb (Header.headerBytes h =? KITSU_PACK_HEADER_BYTES) then reject "version"
  else
    match frameBytesFor h with
    | None => reject "format"
    | Some frameBytes =>
        set (set_frameBytes frameBytes) ;;;
        if negb (Header.flags h =? 0) || (Header.packId h =? 0) || (Header.revision h =? 0)
        then reject "format"
        else if (Header.frameCount h =? 0) || (Header.clipCount h =? 0) ||
                (MAX_CLIPS <? Header.clipCount h) || (Header.stepCount h =? 0) ||
                (MAX_STEPS <? Header.stepCount h)
        then reject "counts"
        else
          let expected := expectedBytes h frameBytes in
          if negb (expected =? Header.totalBytes h) || (default 0 partition <? expected)
          then reject "size"
          else if negb (isPrintableName (Header.displayName h)) then reject "name"
          else if negb (crc32 (headerCrcInput h) =? Header.headerCrc32 h) then reject "header-crc"
          else ret true
    end.

(** [while (remaining)]: 512 bytes a turn, so the fuel is the number of turns. *)
Fixpoint payloadLoop (fuel : nat) (remaining offset crc : Z) : M P bool :=
  if remaining =? 0 then
    h <- me header_ ;;
    if negb (Z.lxor crc 0xffffffff =? Header.payloadCrc32 h) then reject "payload-crc" else ret true
  else
    match fuel with
    | O => ret false
    | S fuel' =>
        let amount := if remaining <? 512 then remaining else 512 in
        scratch <- readAt offset amount ;;
        match scratch with
        | None => reject "payload-read"
        | Some scratch =>
            payloadLoop fuel' (u32 (remaining - amount)) (u32 (offset + amount)) (crc32Update crc scratch)
        end
    end.
Definition payloadFuel (remaining : Z) : nat := Z.to_nat ((remaining + 511) / 512).
Definition validatePayload : M P bool :=
  h <- me header_ ;;
  let remaining := u32 (Header.totalBytes h - KITSU_PACK_HEADER_BYTES) in
  payloadLoop (payloadFuel remaining) remaining KITSU_PACK_HEADER_BYTES 0xffffffff.

Definition readClip (index : Z) : M P (option (list Z)) :=
  h <- me header_ ;;
  if Header.clipCount h <=? index then ret None
  else readAt (u32 (KITSU_PACK_HEADER_BYTES + index * sizeofClip)) sizeofClip.

Definition readStep (index : Z) : M P (option (list Z)) :=
  h <- me header_ ;;
  if Header.stepCount h <=? index then ret None
  else
    let stepsOffset := u32 (KITSU_PACK_HEADER_BYTES + Header.clipCount h * sizeofClip) in
    readAt (u32 (stepsOffset + index * sizeofStep)) sizeofStep.

Definition clipOk (c : list Z) : bool :=
  negb ((Evolve <? Clip.role c) || (PingPong <? Clip.mode c) || (Clip.weight c =? 0) ||
        (Clip.stepCount c =? 0) || (MAX_STEPS_PER_CLIP <? Clip.stepCount c) ||
        negb (Clip.reserved c =? 0)).
Definition clipRangeOk (h c : list Z) : bool :=
  negb ((Header.stepCount h <? u64 (Clip.firstStep c + Clip.stepCount c)) ||
        ((Clip.mode c =? Hold) && negb (Clip.stepCount c =? 1))).
Definition isIdle (c : list Z) : bool := (Clip.role c =? Idle) && (Clip.appearanceVariant c =? 0).

(** [for (index = 0; index < clipCount; ++index)]; [None] after [fail]. *)
Fixpoint clipsLoop (n : nat) (index : Z) (hasIdle : bool) : M P (option bool) :=
  match n with
  | O => ret (Some hasIdle)
  | S n' =>
      clip <- readClip index ;;
      match clip with
      | None => fail "clip-read" ;;; ret None
      | Some clip =>
          h <- me header_ ;;
          if negb (clipOk clip) then fail "clip" ;;; ret None
          else if negb (clipRangeOk h clip) then fail "clip-range" ;;; ret None
          else clipsLoop n' (u16 (index + 1)) (hasIdle || isIdle clip)
      end
  end.

Definition stepOk (h s : list Z) : bool :=
  negb ((Header.frameCount h <=? Step.frameIndex s) || (Step.durationMs s <? MIN_STEP_MS) ||
        (MAX_STEP_MS <? Step.durationMs s)).

Fixpoint stepsLoop (n : nat) (index : Z) : M P bool :=
  match n with
  | O => ret true
  | S n' =>
      step <- readStep index ;;
      match step with
      | None => reject "step-read"
      | Some step =>
          h <- me header_ ;;
          if negb (stepOk h step) then reject "step" else stepsLoop n' (u32 (index + 1))
      end
  end.

Definition validateTables : M P bool :=
  h <- me header_ ;;
  clips <- clipsLoop (Z.to_nat (Header.clipCount h)) 0 false ;;
  match clips with
  | None => ret false
  | Some hasIdle =>
      if negb hasIdle then reject "no-idle"
      else stepsLoop (Z.to_nat (Header.stepCount h)) 0
  end.

Definition begin : M P bool :=
  found <- world findSpiffs ;;
  set (set_partition found) ;;;
  match found with
  | None => reject "no-partition"
  | Some _ =>
      header <- readAt 0 KITSU_PACK_HEADER_BYTES ;;
      match header with
      | None => reject "header-read"
      | Some h =>
          set (set_header h) ;;;
          let erased := forallb (fun value => value =? 0xff) (Header.magic h) in
          if negb (beq (Header.magic h) PACK_MAGIC) then
            set (set_present false) ;;;
            reject (if erased then "empty" else "magic")
          else
            set (set_present true) ;;;
            header <- validateHeader ;;
            if negb header then ret false
            else
              payload <- validatePayload ;;
              if negb payload then ret false
              else
                tables <- validateTables ;;
                if negb tables then ret false
                else set accepted ;;; ret true
      end
  end.

Definition quarantineUnapprovedReplacement : M P unit := fail "replacement-not-authorized".

(** ** Clip selection *)

Definition eligible (role appearanceVariant playbackMask : Z) (c : list Z) : bool :=
  (Clip.role c =? role) && (Clip.appearanceVariant c =? appearanceVariant) &&
  negb (Z.land playbackMask (Z.shiftl 1 (Clip.mode c)) =? 0).

Fixpoint weightLoop (role variant mask : Z) (n : nat) (index total : Z) : M P (option Z) :=
  match n with
  | O => ret (Some total)
  | S n' =>
      clip <- readClip index ;;
      match clip with
      | None => ret None
      | Some clip =>
          weightLoop role variant mask n' (u16 (index + 1))
            (if eligible role variant mask clip then u32 (total + Clip.weight clip) else total)
      end
  end.

Fixpoint chooseLoop (role variant mask : Z) (n : nat) (index choice : Z) : M P (option (list Z)) :=
  match n with
  | O => ret None
  | S n' =>
      clip <- readClip index ;;
      match clip with
      | None => ret None
      | Some clip =>
          if negb (eligible role variant mask clip) then
            chooseLoop role variant mask n' (u16 (index + 1)) choice
          else if choice <? Clip.weight clip then ret (Some clip)
          else chooseLoop role variant mask n' (u16 (index + 1)) (u32 (choice - Clip.weight clip))
      end
  end.

Definition chooseExactClip (role appearanceVariant playbackMask : Z) : M P (option (list Z)) :=
  h <- me header_ ;;
  let n := Z.to_nat (Header.clipCount h) in
  total <- weightLoop role appearanceVariant playbackMask n 0 0 ;;
  match total with
  | None => ret None
  | Some totalWeight =>
      if totalWeight =? 0 then ret None
      else
        r <- world esp_random ;;
        chooseLoop role appearanceVariant playbackMask n 0 (r mod totalWeight)
  end.

(** [if (attempt) return true; rest]. *)
Definition orElse (attempt rest : M P (option (list Z))) : M P (option (list Z)) :=
  result <- attempt ;;
  match result with
  | Some clip => ret (Some clip)
  | None => rest
  end.

Definition chooseClip (role appearanceVariant playbackMask : Z) (allowIdleFallback : bool)
  : M P (option (list Z)) :=
  orElse (chooseExactClip role appearanceVariant playbackMask)
    (orElse (if negb (appearanceVariant =? 0) then chooseExactClip role 0 playbackMask else ret None)
       (if negb allowIdleFallback || (role =? Idle) then ret None
        else orElse (chooseExactClip Idle appearanceVariant KITSU_PLAYBACK_ANY)
               (chooseExactClip Idle 0 KITSU_PLAYBACK_ANY))).

(** ** Timing *)

(** [for (index...; n turns) duration += readStep(firstStep + index).durationMs]. *)
Fixpoint durationLoop (firstStep : Z) (n : nat) (index duration : Z) : M P (option Z) :=
  match n with
  | O => ret (Some duration)
  | S n' =>
      step <- readStep (u32 (firstStep + index)) ;;
      match step with
      | None => ret None
      | Some step => durationLoop firstStep n' (u16 (index + 1)) (u64 (duration + Step.durationMs step))
      end
  end.
Definition saturated32 (duration : option Z) : Z :=
  match duration with
  | None => 0
  | Some d => if UINT32_MAX <? d then UINT32_MAX else d
  end.

Definition clipDurationMs (clip : list Z) : M P Z :=
  duration <- durationLoop (Clip.firstStep clip) (Z.to_nat (Clip.stepCount clip)) 0 0 ;;
  ret (saturated32 duration).

Definition clipCycleDurationMs (clip : list Z) : M P Z :=
  forwardDuration <- clipDurationMs clip ;;
  if (forwardDuration =? 0) || negb (Clip.mode clip =? PingPong) || (Clip.stepCount clip <=? 2)
  then ret forwardDuration
  else
    duration <- durationLoop (Clip.firstStep clip) (Z.to_nat (Clip.stepCount clip - 2)) 1
                  forwardDuration ;;
    ret (saturated32 duration).

(** The return leg of a ping-pong clip, [index] from [stepCount - 2] down to 1:
    the step, or the time left for the forward leg. *)
Fixpoint returnLoop (firstStep : Z) (index : nat) (cursor : Z) : M P (option (list Z + Z)) :=
  match index with
  | O => ret (Some (inr cursor))
  | S index' =>
      step <- readStep (u32 (firstStep + Z.of_nat index)) ;;
      match step with
      | None => ret None
      | Some step =>
          if cursor <? Step.durationMs step then ret (Some (inl step))
          else returnLoop firstStep index' (u32 (cursor - Step.durationMs step))
      end
  end.

Fixpoint forwardLoop (clip : list Z) (n : nat) (index cursor : Z) : M P (option (list Z)) :=
  match n with
  | O => readStep (u32 (Clip.firstStep clip + Clip.stepCount clip - 1))
  | S n' =>
      step <- readStep (u32 (Clip.firstStep clip + index)) ;;
      match step with
      | None => ret None
      | Some step =>
          if cursor <? Step.durationMs step then ret (Some step)
          else forwardLoop clip n' (u16 (index + 1)) (u32 (cursor - Step.durationMs step))
      end
  end.

Definition stepForElapsed (clip : list Z) (elapsedMs forwardDuration cycleDuration : Z)
  : M P (option (list Z)) :=
  let mode := Clip.mode clip in
  let forward := forwardLoop clip (Z.to_nat (Clip.stepCount clip)) 0 in
  if mode =? Hold then readStep (Clip.firstStep clip)
  else if forwardDuration =? 0 then ret None
  else if mode =? Loop then forward (elapsedMs mod forwardDuration)
  else if (mode =? PingPong) && (1 <? Clip.stepCount clip) then
    if cycleDuration =? 0 then ret None
    else
      let cursor := elapsedMs mod cycleDuration in
      if cursor <? forwardDuration then forward cursor
      else
        back <- returnLoop (Clip.firstStep clip) (Z.to_nat (Clip.stepCount clip - 2))
                  (u32 (cursor - forwardDuration)) ;;
        match back with
        | None => ret None
        | Some (inl step) => ret (Some step)
        | Some (inr cursor) => forward cursor
        end
  else if forwardDuration <=? elapsedMs then
    readStep (u32 (Clip.firstStep clip + Clip.stepCount clip - 1))
  else forward elapsedMs.

(** ** Playing *)

Definition activateClip (role tok appearanceVariant playbackMask : Z) (allowIdleFallback : bool)
  : M P (option CompanionClipActivation) :=
  valid <- me valid_ ;;
  if negb valid then ret None
  else
    selected <- chooseClip role appearanceVariant playbackMask allowIdleFallback ;;
    match selected with
    | None => ret None
    | Some selected =>
        forwardDuration <- clipDurationMs selected ;;
        cycleDuration <- clipCycleDurationMs selected ;;
        if (forwardDuration =? 0) || (cycleDuration =? 0) then fail "clip-runtime" ;;; ret None
        else
          set (set_active (mkActive true (Clip.role selected) (Clip.appearanceVariant selected) tok
                             selected forwardDuration cycleDuration)) ;;;
          set (set_cached 0xffff) ;;;
          ret (Some (mkActivation role (Clip.role selected) (Clip.mode selected) tok
                       forwardDuration cycleDuration))
    end.

Definition frameOffset (h : list Z) (frameBytes frameIndex : Z) : Z :=
  u32 (KITSU_PACK_HEADER_BYTES + Header.clipCount h * sizeofClip + Header.stepCount h * sizeofStep +
       frameIndex * frameBytes).

Definition activeFrame (elapsedMs : Z) : M P (option (list Z)) :=
  p <- me id ;;
  if negb (valid_ p) || negb (activeClipValid_ (active_ p)) then ret None
  else
    let a := active_ p in
    step <- stepForElapsed (activeClip_ a) elapsedMs (activeForwardDurationMs_ a)
              (activeCycleDurationMs_ a) ;;
    match step with
    | None => fail "step-runtime" ;;; ret None
    | Some step =>
        if Step.frameIndex step =? cachedFrameIndex_ p then ret (Some (frameBuffer_ p))
        else
          frame <- readAt (frameOffset (header_ p) (frameBytes_ p) (Step.frameIndex step)) (frameBytes_ p) ;;
          match frame with
          | None => fail "frame-read" ;;; ret None
          | Some frame =>
              set (set_frameBuffer (frame ++ drop (length frame) (frameBuffer_ p))) ;;;
              set (set_cached (Step.frameIndex step)) ;;;
              ret (Some (frame ++ drop (length frame) (frameBuffer_ p)))
          end
    end.

End Pack.
