(* ===== verification/PackFacts.v ===== *)
(** * A checked companion pack plays (proofs for [Pack])

    On a flash that keeps its contents, a pack that [begin] accepted never fails
    later: every activation with the idle fallback finds a clip and every frame
    request returns the frame of the step that a reference timeline shows. *)

From S2P Require Import Prelude Crc Pack.

Open Scope Z_scope.
Open Scope kitsu_scope.

(** ** The reference timeline *)

(** The step shown [t] milliseconds into a sequence of steps. *)
Fixpoint at_time (steps : list (list Z)) (t : Z) : option (list Z) :=
  match steps with
  | [] => None
  | s :: steps' => if t <? Step.durationMs s then Some s else at_time steps' (t - Step.durationMs s)
  end.

Definition total (steps : list (list Z)) : Z := foldr Z.add 0 (map Step.durationMs steps).

(** The way back of a ping-pong clip visits the inner steps in reverse order. *)
Definition back (steps : list (list Z)) : list (list Z) := rev (removelast (tail steps)).

(** What a clip of playback mode [mode] shows at time [t]. *)
Definition showing (mode : Z) (steps : list (list Z)) (t : Z) : option (list Z) :=
  if mode =? Hold then head steps
  else if mode =? Loop then at_time steps (t mod total steps)
  else if mode =? PingPong then
    let around := steps ++ back steps in at_time around (t mod total around)
  else match at_time steps t with Some s => Some s | None => List.last (map Some steps) None end.

(** ** The image *)

Section Image.
Context (image : list Z).

Definition packHeader : list Z := slice 0 64 image.
Definition clips : Z := Header.clipCount packHeader.
Definition steps : Z := Header.stepCount packHeader.
Definition frames : Z := Header.frameCount packHeader.
Definition clipAt (i : Z) : list Z := slice (Z.to_nat (64 + i * 12)) 12 image.
Definition stepAt (i : Z) : list Z := slice (Z.to_nat (64 + clips * 12 + i * 4)) 4 image.
Definition clipSteps (c : list Z) : list (list Z) :=
  map (fun k => stepAt (Clip.firstStep c + Z.of_nat k)) (seq 0 (Z.to_nat (Clip.stepCount c))).
Definition frameAt (frameBytes i : Z) : list Z :=
  slice (Z.to_nat (64 + clips * 12 + steps * 4 + i * frameBytes)) (Z.to_nat frameBytes) image.

(** What [begin] has checked. *)
Record Sound (frameBytes : Z) : Prop := {
  sound_bytes : bytesOk image;
  sound_frameBytes : frameBytes = 512 \/ frameBytes = 640;
  sound_clips : 0 < clips <= MAX_CLIPS;
  sound_steps : 0 < steps <= MAX_STEPS;
  sound_frames : 0 < frames;
  sound_size : 64 + clips * 12 + steps * 4 + frames * frameBytes <= Z.of_nat (length image) < 2 ^ 32;
  sound_clip : forall i, 0 <= i < clips ->
    clipOk (clipAt i) = true /\ clipRangeOk packHeader (clipAt i) = true;
  sound_step : forall i, 0 <= i < steps -> stepOk packHeader (stepAt i) = true;
  sound_idle : exists i, 0 <= i < clips /\ isIdle (clipAt i) = true;
}.
End Image.

(** A flash that keeps its contents and whose reads inside the partition succeed. *)
Class SteadyFlash (W : Type) `{PackPlatform W} (image : list Z) : Prop := {
  image_bytes : bytesOk image;
  image_size : Z.of_nat (length image) < 2 ^ 32;
  found_size : forall w n, fst (findSpiffs w) = Some n -> n = Z.of_nat (length image);
  reads_image : forall offset n w, 0 <= offset -> 0 <= n -> offset + n <= Z.of_nat (length image) ->
    fst (esp_partition_read offset n w) = Some (slice (Z.to_nat offset) (Z.to_nat n) image);
  random_word : forall w, 0 <= fst (esp_random w) < 2 ^ 32;
}.

(** ** Reads *)

Section Reads.
Context {W : Type} `{PackPlatform W} (image : list Z) `{!SteadyFlash W image}.

(** The members after the header has been read. *)
Definition Loaded (p : Pack) : Prop :=
  partition_ p = Some (Z.of_nat (length image)) /\ header_ p = packHeader image.

Lemma wp_packMember {A} (f : Pack -> A) Q (s : P (W := W)) : Q (f (fst s)) s -> wp (me f) Q s.
Proof. done. Qed.
Lemma wp_packSet f Q (s : P (W := W)) : Q tt (f (fst s), snd s) -> wp (set f) Q s.
Proof. done. Qed.
Lemma wp_packFlash {A} (m : M W A) Q (p : Pack) w :
  (forall w', Q (fst (m w)) (p, w')) -> wp (world m) Q (p, w).
Proof. unfold wp, world. cbn. destruct (m w) as [a w']. cbn. auto. Qed.

Lemma wp_readAt offset n p w Q : Loaded p -> 0 <= offset -> 0 <= n -> offset + n <= Z.of_nat (length image) ->
  (forall w', Q (Some (slice (Z.to_nat offset) (Z.to_nat n) image)) (p, w')) ->
  wp (readAt offset n) Q (p, w).
Proof.
  intros [Hp _] Ho Hn Hle HQ. unfold readAt. apply wp_bind, wp_packMember. cbn [fst]. rewrite Hp.
  pose proof image_size. rewrite u64_id by lia. rewrite (proj2 (Z.ltb_ge _ _)) by lia.
  apply wp_packFlash. intros w'. rewrite reads_image by lia. apply HQ.
Qed.

Section Tables.
Context (frameBytes : Z).
(** The header checks alone bound the tables. *)
Hypothesis clips_range : 0 < clips image <= MAX_CLIPS.
Hypothesis steps_range : 0 < steps image <= MAX_STEPS.
Hypothesis tables_fit : 64 + clips image * 12 + steps image * 4 <= Z.of_nat (length image).

Lemma wp_readClip i p w Q : Loaded p -> 0 <= i < clips image ->
  (forall w', Q (Some (clipAt image i)) (p, w')) -> wp (readClip i) Q (p, w).
Proof.
  intros Hl Hi HQ. unfold readClip. apply wp_bind, wp_packMember. cbn [fst]. rewrite (proj2 Hl).
  fold (clips image). rewrite (proj2 (Z.leb_gt _ _)) by lia.
  unfold MAX_CLIPS, KITSU_PACK_HEADER_BYTES, sizeofClip in *. rewrite u32_id by lia.
  apply wp_readAt; [done|lia..|exact HQ].
Qed.

Lemma wp_readStep i p w Q : Loaded p -> 0 <= i < steps image ->
  (forall w', Q (Some (stepAt image i)) (p, w')) -> wp (readStep i) Q (p, w).
Proof.
  intros Hl Hi HQ. unfold readStep. apply wp_bind, wp_packMember. cbn [fst]. rewrite (proj2 Hl).
  fold (steps image) (clips image). rewrite (proj2 (Z.leb_gt _ _)) by lia.
  unfold MAX_CLIPS, MAX_STEPS, KITSU_PACK_HEADER_BYTES, sizeofClip, sizeofStep in *. cbv zeta.
  rewrite (u32_id (64 + _)) by lia. rewrite u32_id by lia.
  apply wp_readAt; [done|lia..|exact HQ].
Qed.
End Tables.

(** ** What [begin] checks *)

(** The facts the header checks establish. *)
Record HeaderOk (fb : Z) : Prop := {
  header_frameBytes : fb = 512 \/ fb = 640;
  header_clips : 0 < clips image <= MAX_CLIPS;
  header_steps : 0 < steps image <= MAX_STEPS;
  header_frames : 0 < frames image;
  header_total : Header.totalBytes (packHeader image) =
    64 + clips image * 12 + steps image * 4 + frames image * fb;
  header_size : 64 + clips image * 12 + steps image * 4 + frames image * fb <= Z.of_nat (length image);
}.

Lemma wp_reject reason (Q : bool -> P (W := W) -> Prop) s : (forall s', Q false s') -> wp (reject reason) Q s.
Proof. intros HQ. apply wp_bind, wp_packSet, wp_ret, HQ. Qed.

Lemma got16_range l : 0 <= get16 l < 65536.
Proof. apply u16_range. Qed.
Lemma got32_range l : 0 <= get32 l < 4294967296.
Proof. apply u32_range. Qed.

Lemma validateHeader_run p w (Q : bool -> P (W := W) -> Prop) : Loaded p ->
  (forall fb, HeaderOk fb -> Q true (set_frameBytes fb p, w)) -> (forall s, Q false s) ->
  wp validateHeader Q (p, w).
Proof.
  intros [Hp Hh] HQ Hf. unfold validateHeader. apply wp_bind, wp_packMember, wp_bind, wp_packMember. cbn [fst].
  rewrite Hh, Hp. wp_step; [by apply wp_reject|].
  destruct (frameBytesFor (packHeader image)) as [fb|] eqn:Hfb; [|by apply wp_reject].
  apply wp_bind, wp_packSet. cbn [fst snd].
  do 2 (wp_step; [by apply wp_reject|]). cbv zeta. cbn [default]. unfold id.
  do 3 (wp_step; [by apply wp_reject|]). apply wp_ret, HQ.
  fold (clips image) (steps image) (frames image) in *.
  unfold expectedBytes, KITSU_PACK_HEADER_BYTES, sizeofClip, sizeofStep in *.
  fold (clips image) (steps image) (frames image) in *.
  pose proof (got16_range (drop 36 (packHeader image)) : 0 <= frames image < _).
  pose proof (got16_range (drop 38 (packHeader image)) : 0 <= clips image < _).
  pose proof (got32_range (drop 40 (packHeader image)) : 0 <= steps image < _).
  assert (fb = 512 \/ fb = 640).
  { unfold frameBytesFor in Hfb. destruct (_ && _ && _); [left; by injection Hfb|].
    destruct (_ && _ && _); [right; by injection Hfb|done]. }
  rewrite !u64_id in E2 by lia.
  constructor; unfold MAX_CLIPS, MAX_STEPS in *; lia.
Qed.

Lemma payloadLoop_run fuel remaining offset crc p w (Q : bool -> P (W := W) -> Prop) :
  Loaded p -> 0 <= offset -> 0 <= remaining -> offset + remaining <= Z.of_nat (length image) ->
  (forall w', Q true (p, w')) -> (forall s, Q false s) ->
  wp (payloadLoop fuel remaining offset crc) Q (p, w).
Proof.
  intros Hl. revert remaining offset crc w.
  induction fuel as [|fuel IH]; intros remaining offset crc w Ho Hr Hle HQ Hf; simpl.
  - destruct (remaining =? 0); [|by apply wp_ret]. apply wp_bind, wp_packMember.
    wp_step; [by apply wp_reject|by apply wp_ret].
  - destruct (Z.eqb_spec remaining 0) as [|Hz].
    { apply wp_bind, wp_packMember. wp_step; [by apply wp_reject|by apply wp_ret]. }
    assert (Ha : 0 < (if remaining <? 512 then remaining else 512) <= remaining)
      by (destruct (Z.ltb_spec remaining 512); lia).
    pose proof image_size. apply wp_bind. apply wp_readAt; [done|lia..|]. intros w'.
    rewrite !u32_id by lia. apply IH; [lia..|done|done].
Qed.

Section Validated.
Context (fb : Z) (Hok : HeaderOk fb).

Lemma tables_inside : 64 + clips image * 12 + steps image * 4 <= Z.of_nat (length image).
Proof.
  pose proof (header_size _ Hok). pose proof (header_frames _ Hok).
  destruct (header_frameBytes _ Hok); subst; lia.
Qed.

Lemma at_readClip i p w Q : Loaded p -> 0 <= i < clips image ->
  (forall w', Q (Some (clipAt image i)) (p, w')) -> wp (readClip i) Q (p, w).
Proof.
  apply wp_readClip; [apply (header_clips _ Hok)|apply (header_steps _ Hok)|apply tables_inside].
Qed.
Lemma at_readStep i p w Q : Loaded p -> 0 <= i < steps image ->
  (forall w', Q (Some (stepAt image i)) (p, w')) -> wp (readStep i) Q (p, w).
Proof.
  apply wp_readStep; [apply (header_clips _ Hok)|apply (header_steps _ Hok)|apply tables_inside].
Qed.

Definition clipGood (i : Z) : Prop :=
  clipOk (clipAt image i) = true /\ clipRangeOk (packHeader image) (clipAt image i) = true.

Lemma clipsLoop_run n index seen p w (Q : option bool -> P (W := W) -> Prop) :
  Loaded p -> 0 <= index -> index + Z.of_nat n = clips image ->
  (forall i, 0 <= i < index -> clipGood i) ->
  (seen = true -> exists i, 0 <= i < index /\ isIdle (clipAt image i) = true) ->
  (forall idle w', (forall i, 0 <= i < clips image -> clipGood i) ->
     (idle = true -> exists i, 0 <= i < clips image /\ isIdle (clipAt image i) = true) -> Q (Some idle) (p, w')) ->
  (forall s, Q None s) -> wp (clipsLoop n index seen) Q (p, w).
Proof.
  intros Hl. pose proof (header_clips _ Hok) as Hc. unfold MAX_CLIPS in Hc. revert index seen w.
  induction n as [|n IH]; intros index seen w Hi Hn Hgood Hseen HQ Hf; simpl.
  - apply wp_ret. replace index with (clips image) in * by lia. by apply HQ.
  - apply wp_bind. apply at_readClip; [done|lia|]. intros w'. apply wp_bind, wp_packMember. cbn [fst].
    rewrite (proj2 Hl). wp_step; [by apply wp_bind, wp_packSet, wp_ret|].
    wp_step; [by apply wp_bind, wp_packSet, wp_ret|]. rewrite u16_id by lia.
    apply negb_false_iff in E, E0.
    apply IH; [lia|lia| | |done|done].
    + intros i Hi'. destruct (Z.eq_dec i index) as [->|]; [by split|apply Hgood; lia].
    + intros [Hs|Hs]%orb_true_iff; [destruct (Hseen Hs) as (i & ? & ?); exists i|exists index]; (split; [lia|done]).
Qed.

Lemma stepsLoop_run n index p w (Q : bool -> P (W := W) -> Prop) :
  Loaded p -> 0 <= index -> index + Z.of_nat n = steps image ->
  (forall i, 0 <= i < index -> stepOk (packHeader image) (stepAt image i) = true) ->
  (forall w', (forall i, 0 <= i < steps image -> stepOk (packHeader image) (stepAt image i) = true) -> Q true (p, w')) ->
  (forall s, Q false s) -> wp (stepsLoop n index) Q (p, w).
Proof.
  intros Hl. pose proof (header_steps _ Hok) as Hc. unfold MAX_STEPS in Hc. revert index w.
  induction n as [|n IH]; intros index w Hi Hn Hgood HQ Hf; simpl.
  - apply wp_ret. replace index with (steps image) in * by lia. by apply HQ.
  - apply wp_bind. apply at_readStep; [done|lia|]. intros w'. apply wp_bind, wp_packMember. cbn [fst].
    rewrite (proj2 Hl). wp_step; [by apply wp_reject|]. rewrite u32_id by lia.
    apply negb_false_iff in E. apply IH; [lia|lia| |done|done].
    intros i Hi'. destruct (Z.eq_dec i index) as [->|]; [done|apply Hgood; lia].
Qed.

Lemma validateTables_run p w (Q : bool -> P (W := W) -> Prop) : Loaded p ->
  (forall w', Sound image fb -> Q true (p, w')) -> (forall s, Q false s) -> wp validateTables Q (p, w).
Proof.
  intros Hl HQ Hf. unfold validateTables. apply wp_bind, wp_packMember. cbn [fst]. rewrite (proj2 Hl).
  pose proof (header_clips _ Hok). pose proof (header_steps _ Hok). fold (clips image) (steps image).
  apply wp_bind. apply clipsLoop_run; [done|lia|lia|intros; lia|done| |intros s'; apply wp_ret, Hf].
  intros idle w' Hclip Hidle. wp_step; [by apply wp_reject|]. apply negb_false_iff in E.
  apply stepsLoop_run; [done|lia|lia|intros; lia| |done]. intros w2 Hstep. apply HQ.
  pose proof image_size. pose proof (header_size _ Hok).
  destruct Hok; constructor; try done; [apply image_bytes|auto].
Qed.
End Validated.

(** An accepted pack: the members agree with a sound image. *)
Record Playable (p : Pack) : Prop := {
  playable_loaded : Loaded p;
  playable_sound : Sound image (frameBytes_ p);
  playable_valid : valid_ p = true;
}.

Lemma begin_playable p w :
  wp begin (fun r s => r = true -> Playable (fst s) /\
    activeClipValid_ (active_ (fst s)) = false /\ cachedFrameIndex_ (fst s) = 0xffff) (p, w).
Proof.
  unfold begin. apply wp_bind. unfold wp at 1, world. cbn [snd fst].
  pose proof (found_size w) as Hfound. destruct (findSpiffs w) as [found w']. cbn [fst snd] in *.
  apply wp_bind, wp_packSet. cbn [fst snd]. destruct found as [size|]; [|by apply wp_reject].
  rewrite (Hfound size eq_refl). unfold readAt. do 2 apply wp_bind. apply wp_packMember. cbn [fst].
  change (partition_ (set_partition ?x ?q)) with x. cbn match.
  rewrite u64_id by (unfold KITSU_PACK_HEADER_BYTES; lia).
  destruct (Z.ltb_spec (Z.of_nat (length image)) (0 + KITSU_PACK_HEADER_BYTES)) as [|Hsize];
    [by apply wp_ret, wp_reject|].
  unfold KITSU_PACK_HEADER_BYTES in *. apply wp_packFlash. intros w2. rewrite reads_image by lia.
  apply wp_bind, wp_packSet. cbn [fst snd]. wp_step.
  { by apply wp_bind, wp_packSet, wp_reject. }
  apply wp_bind, wp_packSet. cbn [fst snd]. apply wp_bind.
  apply validateHeader_run; [done| |by intros; apply wp_ret]. intros fb Hok. cbn [negb].
  apply wp_bind. unfold validatePayload. apply wp_bind, wp_packMember. cbn [fst].
  set (q := set_frameBytes fb _). assert (Hl : Loaded q) by done.
  pose proof (header_total _ Hok) as Ht. pose proof (header_size _ Hok). pose proof (header_clips _ Hok).
  pose proof (header_steps _ Hok). pose proof (header_frames _ Hok). pose proof image_size.
  assert (0 < frames image * fb) by (destruct (header_frameBytes _ Hok); subst; lia).
  unfold MAX_CLIPS, MAX_STEPS, KITSU_PACK_HEADER_BYTES in *.
  change (header_ q) with (packHeader image). rewrite u32_id by lia.
  apply payloadLoop_run; [done|lia..| |by intros; apply wp_ret]. intros w3. cbn [negb].
  apply wp_bind. apply (validateTables_run fb Hok); [done| |by intros; apply wp_ret].
  intros w4 Hs. apply wp_bind, wp_packSet, wp_ret. done.
Qed.
End Reads.

(** ** Playing a checked companion pack (proofs for [Pack])

    Clip selection, the step at a time and the frame delivered, against the
    reference timeline of [PackFacts]; and a small image on which they run. *)

(** ** The reference timeline *)

Lemma duration_nonneg s : 0 <= Step.durationMs s.
Proof. apply u16_range. Qed.
Lemma total_nonneg l : 0 <= total l.
Proof. induction l as [|s l IH]; [done|]. unfold total in *. cbn. pose proof (duration_nonneg s). lia. Qed.
Lemma total_cons s l : total (s :: l) = Step.durationMs s + total l.
Proof. done. Qed.
Lemma total_app a b : total (a ++ b) = total a + total b.
Proof. induction a as [|s a IH]; [done|]. cbn [app]. rewrite !total_cons. lia. Qed.

Lemma at_time_before a b t : 0 <= t < total a -> at_time (a ++ b) t = at_time a t.
Proof.
  revert t. induction a as [|s a IH]; intros t Ht; [by cbn in Ht; lia|].
  rewrite total_cons in Ht. cbn. destruct (Z.ltb_spec t (Step.durationMs s)); [done|]. apply IH. lia.
Qed.
Lemma at_time_after a b t : total a <= t -> at_time (a ++ b) t = at_time b (t - total a).
Proof.
  revert t. induction a as [|s a IH]; intros t Ht; [by rewrite Z.sub_0_r|].
  rewrite total_cons in *. cbn. pose proof (total_nonneg a).
  rewrite (proj2 (Z.ltb_ge _ _)) by lia. rewrite IH by lia. f_equal. lia.
Qed.
Lemma at_time_some l t : 0 <= t < total l -> exists s, at_time l t = Some s /\ s ∈ l.
Proof.
  revert t. induction l as [|s l IH]; intros t Ht; [by cbn in Ht; lia|].
  rewrite total_cons in Ht. cbn. destruct (Z.ltb_spec t (Step.durationMs s)); [exists s; split; [done|left]|].
  destruct (IH (t - Step.durationMs s)) as (x & ? & ?); [lia|]. exists x. split; [done|by right].
Qed.
Lemma at_time_end l t : total l <= t -> at_time l t = None.
Proof.
  revert t. induction l as [|s l IH]; intros t Ht; [done|]. rewrite total_cons in Ht. cbn.
  pose proof (total_nonneg l). rewrite (proj2 (Z.ltb_ge _ _)) by lia. apply IH. lia.
Qed.

Lemma at_time_single s t : 0 <= t < total [s] -> at_time [s] t = Some s.
Proof. intros Ht. unfold total in Ht. cbn in *. by rewrite (proj2 (Z.ltb_lt _ _)) by lia. Qed.

(** The inner steps in reverse order, by index. *)
Lemma back_seq {A} (f : nat -> A) n :
  rev (removelast (tail (map f (seq 0 n)))) = map f (rev (seq 1 (n - 2))).
Proof.
  rewrite map_rev. f_equal. destruct n as [|[|n]]; [done..|]. cbn [seq map tail].
  change (f 1%nat :: map f (seq 2 n)) with (map f (seq 1 (S n))).
  rewrite seq_S, map_app. cbn [map]. rewrite removelast_last. by rewrite Nat.sub_succ, Nat.sub_succ, Nat.sub_0_r.
Qed.

(** ** Selection *)

Section Playing.
Context {W : Type} `{PackPlatform W} (image : list Z) `{!SteadyFlash W image}.
Context (fb : Z) (Hs : Sound image fb).

Lemma tables_fit : 64 + clips image * 12 + steps image * 4 <= Z.of_nat (length image).
Proof.
  pose proof (sound_size _ _ Hs). pose proof (sound_frames _ _ Hs).
  destruct (sound_frameBytes _ _ Hs); subst; lia.
Qed.
Lemma play_readClip i p w Q : Loaded image p -> 0 <= i < clips image ->
  (forall w', Q (Some (clipAt image i)) (p, w')) -> wp (readClip i) Q (p, w).
Proof. apply (wp_readClip image); [apply Hs|apply Hs|apply tables_fit]. Qed.
Lemma play_readStep i p w Q : Loaded image p -> 0 <= i < steps image ->
  (forall w', Q (Some (stepAt image i)) (p, w')) -> wp (readStep i) Q (p, w).
Proof. apply (wp_readStep image); [apply Hs|apply Hs|apply tables_fit]. Qed.

Lemma weight_range i : 0 <= i < clips image -> 0 < Clip.weight (clipAt image i) < 256.
Proof.
  intros Hi. destruct (sound_clip _ _ Hs i Hi) as [Hc _]. unfold clipOk in Hc.
  assert (isByte (Clip.weight (clipAt image i))) by apply byte_at_ok, slice_ok, Hs.
  unfold isByte in *. lia.
Qed.

(** The weight of the eligible clips from [index] on. *)
Fixpoint weights (role variant mask : Z) (n : nat) (index : Z) : Z :=
  match n with
  | O => 0
  | S n' => (if eligible role variant mask (clipAt image index) then Clip.weight (clipAt image index) else 0) +
            weights role variant mask n' (index + 1)
  end.
Lemma weights_range role variant mask n index : 0 <= index -> index + Z.of_nat n <= clips image ->
  0 <= weights role variant mask n index <= 255 * Z.of_nat n.
Proof.
  revert index. induction n as [|n IH]; intros index Hi Hn; [done|]. cbn [weights].
  specialize (IH (index + 1)). pose proof (weight_range index). destruct (eligible _ _ _ _); lia.
Qed.
Lemma weights_zero role variant mask n index : 0 <= index -> index + Z.of_nat n <= clips image ->
  weights role variant mask n index = 0 ->
  forall i, index <= i < index + Z.of_nat n -> eligible role variant mask (clipAt image i) = false.
Proof.
  revert index. induction n as [|n IH]; intros index Hi Hn Hz i Hr; [lia|]. cbn [weights] in Hz.
  pose proof (weights_range role variant mask n (index + 1)). pose proof (weight_range index).
  destruct (Z.eq_dec i index) as [->|Hne].
  - destruct (eligible _ _ _ _) eqn:E; [lia|done].
  - apply (IH (index + 1)); [lia| |destruct (eligible _ _ _ _)|]; lia.
Qed.

Lemma weightLoop_run role variant mask n index tot p w Q :
  Loaded image p -> 0 <= index -> index + Z.of_nat n = clips image -> 0 <= tot <= 255 * index ->
  (forall w', Q (Some (tot + weights role variant mask n index)) (p, w')) ->
  wp (weightLoop role variant mask n index tot) Q (p, w).
Proof.
  intros Hl. pose proof (sound_clips _ _ Hs) as Hc. unfold MAX_CLIPS in Hc. revert index tot w.
  induction n as [|n IH]; intros index tot w Hi Hn Ht HQ; simpl.
  - apply wp_ret. by rewrite Z.add_0_r in HQ.
  - apply wp_bind. apply play_readClip; [done|lia|]. intros w'. rewrite u16_id by lia.
    pose proof (weight_range index). cbn [weights] in HQ. apply IH; [lia|lia| |].
    + destruct (eligible _ _ _ _); [rewrite u32_id by lia|]; lia.
    + intros w2. destruct (eligible _ _ _ _); [rewrite u32_id by lia|];
        [rewrite <- Z.add_assoc|rewrite Z.add_0_l in HQ]; apply HQ.
Qed.

Definition chosen (role variant mask : Z) (c : list Z) : Prop :=
  exists i, 0 <= i < clips image /\ c = clipAt image i /\ eligible role variant mask c = true.

Lemma chooseLoop_run role variant mask n index choice p w Q :
  Loaded image p -> 0 <= index -> index + Z.of_nat n = clips image ->
  0 <= choice < weights role variant mask n index ->
  (forall c w', chosen role variant mask c -> Q (Some c) (p, w')) ->
  wp (chooseLoop role variant mask n index choice) Q (p, w).
Proof.
  intros Hl. pose proof (sound_clips _ _ Hs) as Hc. unfold MAX_CLIPS in Hc. revert index choice w.
  induction n as [|n IH]; intros index choice w Hi Hn Ht HQ; cbn [chooseLoop weights] in *; [lia|].
  apply wp_bind. apply play_readClip; [done|lia|]. intros w'. rewrite u16_id by lia.
  pose proof (weight_range index). pose proof (weights_range role variant mask n (index + 1)).
  destruct (eligible role variant mask (clipAt image index)) eqn:E; cbn [negb].
  - destruct (Z.ltb_spec choice (Clip.weight (clipAt image index))).
    + apply wp_ret, HQ. exists index. split; [lia|done].
    + rewrite u32_id by lia. apply IH; [lia|lia|lia|done].
  - apply IH; [lia|lia|lia|done].
Qed.

(** A selection: the clip is eligible, or no clip is. *)
Definition selection (role variant mask : Z) (r : option (list Z)) : Prop :=
  match r with
  | Some c => chosen role variant mask c
  | None => forall i, 0 <= i < clips image -> eligible role variant mask (clipAt image i) = false
  end.

Lemma chooseExactClip_run role variant mask p w Q : Loaded image p ->
  (forall r w', selection role variant mask r -> Q r (p, w')) ->
  wp (chooseExactClip role variant mask) Q (p, w).
Proof.
  intros Hl HQ. unfold chooseExactClip. apply wp_bind, wp_packMember. cbn [fst]. rewrite (proj2 Hl).
  fold (clips image). pose proof (sound_clips _ _ Hs) as Hc. unfold MAX_CLIPS in Hc. cbv zeta.
  apply wp_bind. apply weightLoop_run; [done|lia..|]. intros w'. rewrite Z.add_0_l.
  set (n := Z.to_nat (clips image)). pose proof (weights_range role variant mask n 0).
  destruct (Z.eqb_spec (weights role variant mask n 0) 0) as [Hz|Hz].
  - apply wp_ret, HQ. intros i Hi. apply (weights_zero role variant mask n 0); try done; lia.
  - apply wp_bind, wp_packFlash. intros w2. apply chooseLoop_run; [done|lia|lia| |].
    + apply Z.mod_pos_bound. lia.
    + intros c w3 Hch. by apply HQ.
Qed.

(** The clip [chooseClip] settles on for a request. *)
Definition suits (role variant mask : Z) (fallback : bool) (c : list Z) : Prop :=
  chosen role variant mask c \/ chosen role 0 mask c \/
  fallback = true /\ (chosen Idle variant KITSU_PLAYBACK_ANY c \/ chosen Idle 0 KITSU_PLAYBACK_ANY c).

(** A request that must find a clip: the fallback is allowed and does not ask for
    idle clips of some modes only. *)
Definition answered (role mask : Z) (fallback : bool) : Prop :=
  fallback = true /\ (role <> Idle \/ mask = KITSU_PLAYBACK_ANY).

Lemma idle_selected r : selection Idle 0 KITSU_PLAYBACK_ANY r -> r <> None.
Proof.
  intros Hr ->. destruct (sound_idle _ _ Hs) as (i & Hi & Hidle). specialize (Hr i Hi).
  destruct (sound_clip _ _ Hs i Hi) as [Hc _]. unfold eligible in Hr. unfold isIdle in Hidle. rewrite Hidle in Hr.
  assert (Hm : 0 <= Clip.mode (clipAt image i) <= 3).
  { unfold clipOk, PingPong in Hc. assert (isByte (Clip.mode (clipAt image i))) by apply byte_at_ok, slice_ok, Hs.
    unfold isByte in *. lia. }
  assert (Hcases : Clip.mode (clipAt image i) = 0 \/ Clip.mode (clipAt image i) = 1 \/
    Clip.mode (clipAt image i) = 2 \/ Clip.mode (clipAt image i) = 3) by lia.
  by destruct Hcases as [E|[E|[E|E]]]; rewrite E in Hr.
Qed.

Lemma wp_orElse a b Q (s : Pack.P (W := W)) :
  wp a (fun r s' => match r with Some c => Q (Some c) s' | None => wp b Q s' end) s -> wp (orElse a b) Q s.
Proof. intros Ha. apply wp_bind. eapply wp_mono; [exact Ha|]. intros [c|] s' Hc; [by apply wp_ret|done]. Qed.

Lemma chooseClip_run role variant mask fallback p w Q : Loaded image p ->
  (forall r w', (forall c, r = Some c -> suits role variant mask fallback c) ->
     (answered role mask fallback -> r <> None) -> Q r (p, w')) ->
  wp (chooseClip role variant mask fallback) Q (p, w).
Proof.
  intros Hl HQ. unfold chooseClip. apply wp_orElse, chooseExactClip_run; [done|]. intros [c|] w1 H1.
  { apply HQ; [|done]. intros c' [= <-]. by left. }
  apply wp_orElse. apply (wp_mono _ (fun r s' => fst s' = p /\ (variant <> 0 -> selection role 0 mask r) /\
    (variant = 0 -> r = None))).
  { destruct (Z.eqb_spec variant 0) as [|Hv]; [by apply wp_ret|]. cbn [negb].
    apply chooseExactClip_run; [done|]. intros r w2 H2. done. }
  intros r [q w2] (Hq & Hv & H0); cbn in Hq; subst q. destruct r as [c|].
  { apply HQ; [|done]. intros c' [= <-]. right. left. apply Hv. intros Hz. by specialize (H0 Hz). }
  destruct fallback; cbn [negb orb].
  2:{ apply wp_ret, HQ; [done|]. by intros [? _]. }
  destruct (Z.eqb_spec role Idle) as [->|Hrole].
  { apply wp_ret, HQ; [done|]. intros [_ [?| ->]]; [done|].
    apply idle_selected. destruct (Z.eq_dec variant 0) as [->|Hne]; [done|by apply Hv]. }
  apply wp_orElse, chooseExactClip_run; [done|]. intros [c|] w3 H3.
  { apply HQ; [|done]. intros c' [= <-]. right; right. split; [done|]. by left. }
  apply chooseExactClip_run; [done|]. intros r w4 H4. apply HQ; [|intros _; by apply idle_selected].
  intros c ->. right; right. split; [done|]. by right.
Qed.

(** ** Timing *)

(** The clips of the table: their steps are in the table and last long enough. *)
Definition inTable (c : list Z) : Prop := exists i, 0 <= i < clips image /\ c = clipAt image i.

Lemma suits_inTable role variant mask fallback c : suits role variant mask fallback c -> inTable c.
Proof. intros [(i & ? & ? & _)|[(i & ? & ? & _)|[_ [(i & ? & ? & _)|(i & ? & ? & _)]]]]; by exists i. Qed.

Record ClipFacts (c : list Z) : Prop := {
  clip_count : 0 < Clip.stepCount c <= MAX_STEPS_PER_CLIP;
  clip_steps : 0 <= Clip.firstStep c /\ Clip.firstStep c + Clip.stepCount c <= steps image;
  clip_hold : Clip.mode c = Hold -> Clip.stepCount c = 1;
}.

Lemma inTable_facts c : inTable c -> ClipFacts c.
Proof.
  intros (i & Hi & ->). destruct (sound_clip _ _ Hs i Hi) as [Hc Hr].
  pose proof (got16_range (drop 8 (clipAt image i)) : 0 <= Clip.stepCount (clipAt image i) < _).
  pose proof (got32_range (drop 4 (clipAt image i)) : 0 <= Clip.firstStep (clipAt image i) < _).
  unfold clipOk, clipRangeOk in *. rewrite u64_id in Hr by lia. fold (steps image) in Hr.
  constructor; [lia|lia|]. intros Hm. rewrite Hm in Hr. change (Hold =? Hold) with true in Hr. lia.
Qed.

Lemma step_duration i : 0 <= i < steps image -> MIN_STEP_MS <= Step.durationMs (stepAt image i) <= MAX_STEP_MS.
Proof. intros Hi. pose proof (sound_step _ _ Hs i Hi) as Hst. unfold stepOk in Hst. lia. Qed.

(** The steps [k] of a clip for [k] in [l]. *)
Definition stepsOf (c : list Z) (l : list nat) : list (list Z) :=
  map (fun k => stepAt image (Clip.firstStep c + Z.of_nat k)) l.
Definition within (c : list Z) (l : list nat) : Prop := Forall (fun k => Z.of_nat k < Clip.stepCount c) l.

Lemma within_seq c a n : Z.of_nat (a + n) <= Clip.stepCount c -> within c (seq a n).
Proof. intros Hn. apply List.Forall_forall. intros k Hk%in_seq. lia. Qed.

Lemma stepsOf_total c l : ClipFacts c -> within c l ->
  MIN_STEP_MS * Z.of_nat (length l) <= total (stepsOf c l) <= MAX_STEP_MS * Z.of_nat (length l).
Proof.
  intros [_ Hst _]. induction 1 as [|k l Hk _ IH]; [done|]. unfold stepsOf in *. cbn [map length].
  rewrite total_cons. pose proof (step_duration (Clip.firstStep c + Z.of_nat k)). lia.
Qed.

Lemma durationLoop_run c n index d p w Q : Loaded image p -> ClipFacts c ->
  Z.of_nat (index + n) <= Clip.stepCount c -> 0 <= d <= MAX_STEP_MS * 256 + MAX_STEP_MS * Z.of_nat index ->
  (forall w', Q (Some (d + total (stepsOf c (seq index n)))) (p, w')) ->
  wp (durationLoop (Clip.firstStep c) n (Z.of_nat index) d) Q (p, w).
Proof.
  intros Hl Hc. pose proof (clip_count _ Hc). pose proof (clip_steps _ Hc). pose proof (sound_steps _ _ Hs).
  unfold MAX_STEPS_PER_CLIP, MAX_STEPS, MAX_STEP_MS in *. revert index d w.
  induction n as [|n IH]; intros index d w Hn Hd HQ; cbn [durationLoop].
  - apply wp_ret. by rewrite Z.add_0_r in HQ.
  - rewrite u32_id by lia. apply wp_bind, play_readStep; [done|lia|]. intros w'.
    pose proof (step_duration (Clip.firstStep c + Z.of_nat index)) as Hdur. unfold MIN_STEP_MS, MAX_STEP_MS in Hdur.
    rewrite u16_id, u64_id by lia. replace (Z.of_nat index + 1) with (Z.of_nat (S index)) by lia.
    apply IH; [lia|lia|]. intros w2. unfold stepsOf. cbn [seq map] in HQ. unfold stepsOf in HQ. cbn [seq map] in HQ.
    rewrite total_cons, Z.add_assoc in HQ. apply HQ.
Qed.

Definition count (c : list Z) : nat := Z.to_nat (Clip.stepCount c).
Lemma clipSteps_eq c : clipSteps image c = stepsOf c (seq 0 (count c)).
Proof. done. Qed.
Lemma back_eq c : back (clipSteps image c) = stepsOf c (rev (seq 1 (count c - 2))).
Proof. unfold back. apply (back_seq (fun k => stepAt image (Clip.firstStep c + Z.of_nat k))). Qed.

Definition cycleOf (c : list Z) : Z :=
  total (clipSteps image c) + (if Clip.mode c =? PingPong then total (back (clipSteps image c)) else 0).

Lemma forward_range c : ClipFacts c -> 0 < total (clipSteps image c) <= MAX_STEP_MS * 256.
Proof.
  intros Hc. pose proof (clip_count _ Hc). rewrite clipSteps_eq.
  pose proof (stepsOf_total c (seq 0 (count c)) Hc) as Ht. rewrite length_seq in Ht.
  specialize (Ht ltac:(apply within_seq; unfold count; lia)).
  unfold count, MIN_STEP_MS, MAX_STEP_MS, MAX_STEPS_PER_CLIP in *. lia.
Qed.

Lemma total_rev c l : total (stepsOf c (rev l)) = total (stepsOf c l).
Proof.
  induction l as [|k l IH]; [done|]. cbn [rev]. unfold stepsOf in *. rewrite map_app, total_app, IH.
  cbn [map]. rewrite !total_cons. cbn. lia.
Qed.
Lemma back_range c : ClipFacts c -> 0 <= total (back (clipSteps image c)) <= MAX_STEP_MS * 256.
Proof.
  intros Hc. pose proof (clip_count _ Hc). rewrite back_eq, total_rev.
  pose proof (stepsOf_total c (seq 1 (count c - 2)) Hc) as Ht. rewrite length_seq in Ht.
  destruct (decide (2 <= count c)%nat).
  - specialize (Ht ltac:(apply within_seq; unfold count in *; lia)).
    unfold count, MIN_STEP_MS, MAX_STEP_MS, MAX_STEPS_PER_CLIP in *. lia.
  - replace (count c - 2)%nat with 0%nat by lia. cbn. unfold MAX_STEP_MS. lia.
Qed.

Lemma clipDurationMs_run c p w Q : Loaded image p -> ClipFacts c ->
  (forall w', Q (total (clipSteps image c)) (p, w')) -> wp (clipDurationMs c) Q (p, w).
Proof.
  intros Hl Hc HQ. pose proof (clip_count _ Hc). apply wp_bind.
  apply (durationLoop_run c (Z.to_nat (Clip.stepCount c)) 0); [done|done|lia|unfold MAX_STEP_MS; lia|].
  intros w'. apply wp_ret. rewrite Z.add_0_l. unfold saturated32.
  pose proof (forward_range c Hc). rewrite clipSteps_eq in *. unfold count, MAX_STEP_MS, UINT32_MAX in *.
  rewrite (proj2 (Z.ltb_ge _ _)) by lia. apply HQ.
Qed.

Lemma clipCycleDurationMs_run c p w Q : Loaded image p -> ClipFacts c ->
  (forall w', Q (cycleOf c) (p, w')) -> wp (clipCycleDurationMs c) Q (p, w).
Proof.
  intros Hl Hc HQ. pose proof (clip_count _ Hc) as Hn. pose proof (forward_range c Hc) as Hf.
  pose proof (back_range c Hc) as Hb. unfold cycleOf in *. rewrite back_eq, total_rev in *.
  apply wp_bind, clipDurationMs_run; [done|done|]. intros w'.
  rewrite (proj2 (Z.eqb_neq _ _)) by lia. cbn [orb].
  destruct (Clip.mode c =? PingPong); cbn [negb orb]; [|rewrite Z.add_0_r in HQ; apply wp_ret, HQ].
  destruct (Z.leb_spec (Clip.stepCount c) 2) as [H2|H2].
  - apply wp_ret. replace (count c - 2)%nat with 0%nat in HQ by (unfold count; lia).
    change (total (stepsOf c (seq 1 0))) with 0 in HQ. rewrite Z.add_0_r in HQ. apply HQ.
  - apply wp_bind. apply (durationLoop_run c _ 1);
      [done|done|unfold MAX_STEPS_PER_CLIP in *; lia|unfold MAX_STEP_MS in *; lia|].
    intros w2. apply wp_ret. unfold saturated32.
    replace (Z.to_nat (Clip.stepCount c - 2)) with (count c - 2)%nat by (unfold count; lia).
    unfold MAX_STEP_MS, UINT32_MAX in *. rewrite (proj2 (Z.ltb_ge _ _)) by lia. apply HQ.
Qed.

Lemma forwardLoop_run c n index t p w Q : Loaded image p -> ClipFacts c ->
  Z.of_nat (index + n) <= Clip.stepCount c -> 0 <= t < total (stepsOf c (seq index n)) ->
  (forall w', Q (at_time (stepsOf c (seq index n)) t) (p, w')) ->
  wp (forwardLoop c n (Z.of_nat index) t) Q (p, w).
Proof.
  intros Hl Hc. pose proof (clip_count _ Hc). pose proof (clip_steps _ Hc). pose proof (sound_steps _ _ Hs).
  unfold MAX_STEPS_PER_CLIP, MAX_STEPS in *. revert index t w.
  induction n as [|n IH]; intros index t w Hn Ht HQ; [by cbn in Ht; lia|]. cbn [forwardLoop].
  rewrite u32_id by lia. apply wp_bind, play_readStep; [done|lia|]. intros w'.
  unfold stepsOf in *. cbn [seq map at_time] in *. rewrite total_cons in Ht.
  destruct (Z.ltb_spec t (Step.durationMs (stepAt image (Clip.firstStep c + Z.of_nat index)))) as [|Hge].
  - apply wp_ret, HQ.
  - pose proof (step_duration (Clip.firstStep c + Z.of_nat index)) as Hdur. unfold MIN_STEP_MS, MAX_STEP_MS in Hdur.
    pose proof (stepsOf_total c (seq (S index) n) Hc ltac:(apply within_seq; lia)) as Hrest.
    unfold stepsOf, MAX_STEP_MS in Hrest. rewrite length_seq in Hrest.
    rewrite u16_id, u32_id by lia. replace (Z.of_nat index + 1) with (Z.of_nat (S index)) by lia.
    apply IH; [lia|lia|done].
Qed.

Lemma returnLoop_run c k t p w Q : Loaded image p -> ClipFacts c ->
  Z.of_nat k < Clip.stepCount c -> 0 <= t < total (stepsOf c (rev (seq 1 k))) ->
  (forall s w', at_time (stepsOf c (rev (seq 1 k))) t = Some s -> Q (Some (inl s)) (p, w')) ->
  wp (returnLoop (Clip.firstStep c) k t) Q (p, w).
Proof.
  intros Hl Hc. pose proof (clip_count _ Hc). pose proof (clip_steps _ Hc). pose proof (sound_steps _ _ Hs).
  unfold MAX_STEPS_PER_CLIP, MAX_STEPS in *. revert t w.
  induction k as [|k IH]; intros t w Hn Ht HQ; [by cbn in Ht; lia|]. cbn [returnLoop].
  rewrite u32_id by lia. apply wp_bind, play_readStep; [done|lia|]. intros w'.
  rewrite seq_S in *. rewrite rev_unit in *. unfold stepsOf in *. cbn [map at_time Nat.add] in *.
  rewrite total_cons in Ht.
  destruct (Z.ltb_spec t (Step.durationMs (stepAt image (Clip.firstStep c + Z.of_nat (S k))))) as [|Hge].
  - by apply wp_ret, HQ.
  - pose proof (step_duration (Clip.firstStep c + Z.of_nat (S k))) as Hdur. unfold MIN_STEP_MS, MAX_STEP_MS in Hdur.
    pose proof (stepsOf_total c (seq 1 k) Hc ltac:(apply within_seq; lia)) as Hrest.
    pose proof (total_rev c (seq 1 k)) as Hrev. unfold stepsOf, MAX_STEP_MS in Hrest, Hrev. rewrite length_seq in Hrest.
    rewrite u32_id by lia. apply IH; [lia|lia|done].
Qed.

Definition inSteps (s : list Z) : Prop := exists k, 0 <= k < steps image /\ s = stepAt image k.

Lemma stepsOf_in c l s : ClipFacts c -> within c l -> s ∈ stepsOf c l -> inSteps s.
Proof.
  intros [_ Hst _] Hw Hin. unfold stepsOf in Hin. apply list_elem_of_fmap in Hin as (k & -> & Hk).
  unfold within in Hw. rewrite Forall_forall in Hw. specialize (Hw k Hk). eexists. split; [|done]. lia.
Qed.

Lemma forward_run c t p w Q : Loaded image p -> ClipFacts c -> 0 <= t < total (clipSteps image c) ->
  (forall s w', at_time (clipSteps image c) t = Some s -> inSteps s -> Q (Some s) (p, w')) ->
  wp (forwardLoop c (Z.to_nat (Clip.stepCount c)) 0 t) Q (p, w).
Proof.
  intros Hl Hc Ht HQ. pose proof (clip_count _ Hc).
  apply (forwardLoop_run c _ 0); [done|done|lia|done|]. intros w'.
  destruct (at_time_some _ _ Ht) as (s & Es & Hin). rewrite clipSteps_eq in *. unfold count in *. rewrite Es.
  apply HQ; [done|]. eapply stepsOf_in; [done| |exact Hin]. apply within_seq. lia.
Qed.

Lemma last_step c : ClipFacts c -> List.last (map Some (clipSteps image c)) None =
  Some (stepAt image (Clip.firstStep c + Clip.stepCount c - 1)).
Proof.
  intros Hc. pose proof (clip_count _ Hc). rewrite clipSteps_eq.
  replace (count c) with (S (count c - 1)) by (unfold count; lia).
  rewrite seq_S. unfold stepsOf. rewrite !map_app. cbn [map]. rewrite List.last_last. do 2 f_equal. unfold count. lia.
Qed.

Lemma lastStep_run c p w Q : Loaded image p -> ClipFacts c ->
  (forall s w', List.last (map Some (clipSteps image c)) None = Some s -> inSteps s -> Q (Some s) (p, w')) ->
  wp (readStep (u32 (Clip.firstStep c + Clip.stepCount c - 1))) Q (p, w).
Proof.
  intros Hl Hc HQ. pose proof (clip_count _ Hc). pose proof (clip_steps _ Hc).
  pose proof (sound_steps _ _ Hs). unfold MAX_STEPS in *. rewrite u32_id by lia.
  apply play_readStep; [done|lia|]. intros w'. apply HQ; [by apply last_step|]. eexists. split; [|done]. lia.
Qed.

Lemma single_step c : ClipFacts c -> Clip.stepCount c = 1 -> clipSteps image c = [stepAt image (Clip.firstStep c)].
Proof.
  intros _ H1. rewrite clipSteps_eq. unfold count, stepsOf. rewrite H1.
  change (seq 0 (Z.to_nat 1)) with [0%nat]. cbn [map]. do 2 f_equal. lia.
Qed.

(** The step shown is the one of the timeline. *)
Lemma stepForElapsed_run c t p w Q : Loaded image p -> ClipFacts c -> 0 <= t ->
  (forall s w', showing (Clip.mode c) (clipSteps image c) t = Some s -> inSteps s -> Q (Some s) (p, w')) ->
  wp (stepForElapsed c t (total (clipSteps image c)) (cycleOf c)) Q (p, w).
Proof.
  intros Hl Hc Ht HQ. pose proof (clip_count _ Hc) as Hn. pose proof (forward_range c Hc) as Hf.
  pose proof (back_range c Hc) as Hb. unfold stepForElapsed. cbv zeta. unfold showing in HQ.
  destruct (Z.eqb_spec (Clip.mode c) Hold) as [Hm|_].
  { pose proof (clip_steps _ Hc). rewrite (single_step c Hc (clip_hold _ Hc Hm)) in HQ.
    apply play_readStep; [done|lia|]. intros w'. apply HQ; [done|]. exists (Clip.firstStep c). split; [lia|done]. }
  rewrite (proj2 (Z.eqb_neq _ 0)) by lia.
  destruct (Z.eqb_spec (Clip.mode c) Loop) as [_|_].
  { apply forward_run; [done|done| |done]. apply Z.mod_pos_bound. lia. }
  destruct (Z.eqb_spec (Clip.mode c) PingPong) as [Hm|_]; cbn [andb].
  - unfold cycleOf. rewrite Hm. change (PingPong =? PingPong) with true. cbv zeta in HQ. rewrite total_app in HQ.
    set (cyc := total (clipSteps image c) + total (back (clipSteps image c))) in *.
    pose proof (Z.mod_pos_bound t cyc ltac:(lia)) as Hmod.
    destruct (Z.ltb_spec 1 (Clip.stepCount c)).
    + assert (Hcyc : cyc = total (clipSteps image c) + total (back (clipSteps image c))) by done.
      clearbody cyc. rewrite (proj2 (Z.eqb_neq _ 0)) by lia. wp_step.
      * apply forward_run; [done|done|lia|]. intros s w' Es. apply HQ. by rewrite at_time_before by lia.
      * unfold MAX_STEP_MS in *. rewrite u32_id by lia. rewrite at_time_after in HQ by lia. rewrite back_eq in *.
        replace (Z.to_nat (Clip.stepCount c - 2)) with (count c - 2)%nat by (unfold count; lia).
        apply wp_bind, returnLoop_run; [done|done|unfold count; lia|lia|]. intros s w' Es. apply wp_ret, HQ; [done|].
        destruct (at_time_some (stepsOf c (rev (seq 1 (count c - 2)))) (t mod cyc - total (clipSteps image c)) ltac:(lia)) as (s' & Es' & Hin).
        rewrite Es in Es'. injection Es' as <-. eapply stepsOf_in; [done| |exact Hin].
        unfold within. apply List.Forall_forall. intros k Hk%in_rev%in_seq. unfold count in *. lia.
    + assert (H1 : Clip.stepCount c = 1) by lia. assert (Hback : back (clipSteps image c) = []).
      { rewrite back_eq. unfold count. by rewrite H1. }
      unfold cyc in *. rewrite Hback in *. change (total []) with 0 in *. rewrite Z.add_0_r, app_nil_r in *.
      assert (Honly : forall s, inSteps s -> List.last (map Some (clipSteps image c)) None = Some s ->
        forall w', Q (Some s) (p, w')).
      { intros s Hin Es w'. apply HQ; [|done]. rewrite (single_step c Hc H1) in *. injection Es as <-.
        by apply at_time_single. }
      wp_step; [apply lastStep_run; auto|]. apply forward_run; [done|done|lia|]. intros s w' Es Hin. apply Honly; [done|].
      rewrite (single_step c Hc H1) in *. by rewrite at_time_single in Es by lia.
  - wp_step; [apply lastStep_run; [done|done|]|apply forward_run; [done|done|lia|]]; intros s w' Es; apply HQ.
    + by rewrite at_time_end by lia.
    + by rewrite Es.
Qed.

(** ** Playing *)

(** The members between the calls that play the pack. *)
Record Live (p : Pack) : Prop := {
  live_loaded : Loaded image p;
  live_valid : valid_ p = true;
  live_frameBytes : frameBytes_ p = fb;
  live_active : activeClipValid_ (active_ p) = true -> inTable (activeClip_ (active_ p)) /\
    activeForwardDurationMs_ (active_ p) = total (clipSteps image (activeClip_ (active_ p))) /\
    activeCycleDurationMs_ (active_ p) = cycleOf (activeClip_ (active_ p));
  live_cache : cachedFrameIndex_ p <> 0xffff ->
    take (Z.to_nat fb) (frameBuffer_ p) = frameAt image fb (cachedFrameIndex_ p);
}.

Lemma activateClip_run role tok variant mask fallback p w Q : Live p ->
  (forall r s, Live (fst s) ->
     (forall a, r = Some a -> activeClipValid_ (active_ (fst s)) = true /\
        suits role variant mask fallback (activeClip_ (active_ (fst s)))) ->
     (answered role mask fallback -> r <> None) -> Q r s) ->
  wp (activateClip role tok variant mask fallback) Q (p, w).
Proof.
  intros Hp HQ. unfold activateClip. apply wp_bind, wp_packMember. cbn [fst]. rewrite (live_valid _ Hp). cbn [negb].
  apply wp_bind, chooseClip_run; [apply Hp|]. intros [c|] w1 Hc Hr.
  2:{ apply wp_ret, HQ; [done|done|]. intros Ha _. by apply Hr in Ha. }
  specialize (Hc c eq_refl). pose proof (suits_inTable _ _ _ _ _ Hc) as Hin. pose proof (inTable_facts c Hin) as Hf.
  pose proof (forward_range c Hf). pose proof (back_range c Hf).
  apply wp_bind, clipDurationMs_run; [apply Hp|done|]. intros w2.
  apply wp_bind, clipCycleDurationMs_run; [apply Hp|done|]. intros w3.
  assert (Hcyc : 0 < cycleOf c) by (unfold cycleOf; destruct (_ =? _); lia).
  rewrite !(proj2 (Z.eqb_neq _ 0)) by lia. cbn [orb].
  apply wp_bind, wp_packSet, wp_bind, wp_packSet, wp_ret, HQ; cbn [fst snd].
  - destruct Hp. by constructor.
  - by intros a _.
  - done.
Qed.

Lemma frameAt_read k w p Q : Loaded image p -> 0 <= k < frames image ->
  (forall w', Q (Some (frameAt image fb k)) (p, w')) ->
  wp (readAt (frameOffset (header_ p) fb k) fb) Q (p, w).
Proof.
  intros Hl Hk HQ. pose proof (sound_size _ _ Hs). pose proof (sound_clips _ _ Hs). pose proof (sound_steps _ _ Hs).
  unfold frameOffset. rewrite (proj2 Hl). fold (clips image) (steps image).
  unfold MAX_CLIPS, MAX_STEPS, KITSU_PACK_HEADER_BYTES, sizeofClip, sizeofStep in *.
  pose proof (sound_frameBytes _ _ Hs). assert (k * fb + fb <= frames image * fb) by nia.
  assert (0 <= k * fb) by nia.
  rewrite u32_id by lia. apply (wp_readAt image); [done|lia..|exact HQ].
Qed.

Lemma activeFrame_run t p w Q : Live p -> activeClipValid_ (active_ p) = true -> 0 <= t ->
  (forall s p' w' buffer, Live p' -> active_ p' = active_ p ->
     let c := activeClip_ (active_ p) in
     showing (Clip.mode c) (clipSteps image c) t = Some s ->
     take (Z.to_nat fb) buffer = frameAt image fb (Step.frameIndex s) -> Q (Some buffer) (p', w')) ->
  wp (activeFrame t) Q (p, w).
Proof.
  intros Hp Ha Ht HQ. unfold activeFrame. apply wp_bind, wp_packMember. cbn [fst]. change (id p) with p.
  rewrite (live_valid _ Hp), Ha. cbn [negb orb]. destruct (live_active _ Hp Ha) as (Hin & -> & ->).
  apply wp_bind, stepForElapsed_run; [apply Hp|by apply inTable_facts|done|]. intros s w1 Hshow (k & Hk & Hstep).
  assert (Hframe : 0 <= Step.frameIndex s < frames image).
  { pose proof (sound_step _ _ Hs k Hk) as Hst. rewrite <- Hstep in Hst. unfold stepOk in Hst.
    fold (frames image) in Hst. pose proof (got16_range s : 0 <= Step.frameIndex s < _). lia. }
  pose proof (got16_range (drop 36 (packHeader image)) : 0 <= frames image < _).
  destruct (Z.eqb_spec (Step.frameIndex s) (cachedFrameIndex_ p)) as [Hcached|_].
  { apply wp_ret, (HQ s); [done|done|done|]. rewrite Hcached. apply Hp. lia. }
  rewrite (live_frameBytes _ Hp). apply wp_bind, frameAt_read; [apply Hp|done|]. intros w2.
  apply wp_bind, wp_packSet, wp_bind, wp_packSet, wp_ret. cbn [fst snd].
  assert (Hlen : length (frameAt image fb (Step.frameIndex s)) = Z.to_nat fb).
  { apply slice_length. pose proof (sound_size _ _ Hs). pose proof (sound_clips _ _ Hs).
    pose proof (sound_steps _ _ Hs). pose proof (sound_frameBytes _ _ Hs).
    assert (Step.frameIndex s * fb + fb <= frames image * fb) by nia.
    assert (0 <= Step.frameIndex s * fb) by nia. lia. }
  assert (Htake : forall rest, take (Z.to_nat fb) (frameAt image fb (Step.frameIndex s) ++ rest) =
    frameAt image fb (Step.frameIndex s)) by (intros; rewrite <- Hlen; apply take_app_length).
  apply (HQ s); [|done|done|apply Htake].
  destruct Hp. constructor; try done. intros _. apply Htake.
Qed.
End Playing.

(** ** A pack that plays *)

Inductive PackOp :=
  | Activate (role tok variant mask : Z) (fallback : bool)
  | Show (elapsedMs : Z).

Section Always.
Context {W : Type} `{PackPlatform W} (image : list Z) `{!SteadyFlash W image}.

Definition playOp (op : PackOp) (st : Pack.P (W := W)) : Pack.P :=
  match op with
  | Activate role tok variant mask fallback => snd (activateClip role tok variant mask fallback st)
  | Show elapsedMs => snd (activeFrame elapsedMs st)
  end.
Definition play (ops : list PackOp) (st : Pack.P (W := W)) : Pack.P := fold_left (fun s op => playOp op s) ops st.
Definition timely (op : PackOp) : Prop := match op with Show t => 0 <= t | _ => True end.

Lemma play_live fb (Hs : Sound image fb) ops (st : Pack.P (W := W)) :
  Forall timely ops -> Live image fb (fst st) -> Live image fb (fst (play ops st)).
Proof.
  intros Hops. revert st. induction Hops as [|op ops Hop _ IH]; intros [p w] Hp; [done|].
  cbn [play fold_left]. apply IH. destruct op as [role tok variant mask fallback|t]; cbn [playOp].
  - by apply (activateClip_run image fb Hs role tok variant mask fallback p w (fun _ s => Live image fb (fst s))).
  - cbn in Hop, Hp. destruct (activeClipValid_ (active_ p)) eqn:Ha.
    + by apply (activeFrame_run image fb Hs t p w (fun _ s => Live image fb (fst s))).
    + unfold activeFrame, bind, me, gets. cbn [fst]. change (id p) with p. rewrite Ha. by rewrite orb_true_r.
Qed.

(** C24: A pack that [begin] accepts plays: on a flash that keeps its contents, after
    any activations and frame requests it is still valid, a request that may fall
    back to an idle clip finds a clip, and a frame request delivers exactly the frame
    of the step that the clip's timeline shows at that moment. *)
Theorem pack_plays ops (st0 : Pack.P (W := W)) :
  fst (begin st0) = true -> Forall timely ops ->
  let st := play ops (snd (begin st0)) in
  let p := fst st in
  valid_ p = true /\
  (forall role tok variant mask, answered role mask true ->
     exists a st1, activateClip role tok variant mask true st = (Some a, st1)) /\
  (activeClipValid_ (active_ p) = true -> forall t, 0 <= t ->
     exists s buffer st1, activeFrame t st = (Some buffer, st1) /\
       showing (Clip.mode (activeClip_ (active_ p))) (clipSteps image (activeClip_ (active_ p))) t = Some s /\
       take (Z.to_nat (frameBytes_ p)) buffer = frameAt image (frameBytes_ p) (Step.frameIndex s)).
Proof.
  intros Hb Hops st p. pose proof (begin_playable image (fst st0) (snd st0)) as Hbegin.
  rewrite <- surjective_pairing in Hbegin. destruct (Hbegin Hb) as (Hp & Ha & Hc).
  set (fb := frameBytes_ (fst (snd (begin st0)))) in *. pose proof (playable_sound _ _ Hp) as Hs.
  assert (Hlive : Live image fb (fst st)).
  { apply play_live; [done|done|]. destruct Hp. constructor; first [done|by rewrite Ha|by rewrite Hc]. }
  fold p in Hlive. assert (Est : st = (p, snd st)) by apply surjective_pairing.
  split; [apply Hlive|]. split.
  - intros role tok variant mask Hans. rewrite Est.
    pose proof (activateClip_run image fb Hs role tok variant mask true p (snd st)
      (fun r _ => exists a, r = Some a) Hlive) as Hrun. unfold wp in Hrun.
    destruct (activateClip role tok variant mask true (p, snd st)) as [r st1]. cbn [fst snd] in Hrun.
    destruct Hrun as [a ->]; [|by exists a, st1]. intros [a|] s _ _ Hr; [by exists a|by apply Hr in Hans].
  - intros Hact t Ht. rewrite Est. rewrite (live_frameBytes _ _ _ Hlive).
    pose proof (activeFrame_run image fb Hs t p (snd st) (fun r _ => exists s buffer, r = Some buffer /\
      showing (Clip.mode (activeClip_ (active_ p))) (clipSteps image (activeClip_ (active_ p))) t = Some s /\
      take (Z.to_nat fb) buffer = frameAt image fb (Step.frameIndex s)) Hlive Hact Ht) as Hrun.
    unfold wp in Hrun. destruct (activeFrame t (p, snd st)) as [r st1]. cbn [fst snd] in Hrun.
    destruct Hrun as (s & buffer & -> & Hshow & Hframe); [|by exists s, buffer, st1].
    intros s p' w' buffer _ _ Hshow Hframe. by exists s, buffer.
Qed.
End Always.

(** ** A small pack

    Two frames, two clips (idle, and a ping-pong greeting) and four steps. *)

Definition exampleTables : list Z :=
  [0; 0; 0; 1] ++ put32 0 ++ put16 1 ++ put16 0 ++
  [10; 0; 3; 5] ++ put32 1 ++ put16 3 ++ put16 0 ++
  put16 0 ++ put16 100 ++ put16 0 ++ put16 100 ++ put16 1 ++ put16 200 ++ put16 0 ++ put16 150.
Definition examplePayload : list Z := exampleTables ++ replicate 512 85 ++ replicate 512 170.
Definition exampleHead (headerCrc : Z) : list Z :=
  PACK_MAGIC ++ put16 1 ++ put16 64 ++ put32 1128 ++ put32 (crc32 examplePayload) ++ put32 headerCrc ++
  put32 0x1234 ++ put32 1 ++ put16 64 ++ put16 64 ++ put16 2 ++ put16 2 ++ put32 4 ++ put32 0 ++
  bytes_of "Kitsu" ++ replicate 11 0.
Definition exampleImage : list Z :=
  Eval vm_compute in exampleHead (crc32 (headerCrcInput (exampleHead 0))) ++ examplePayload.

#[export] Instance exampleFlash : PackPlatform Z := {
  findSpiffs := fun w => (Some (Z.of_nat (length exampleImage)), w);
  esp_partition_read offset n := fun w =>
    (if offset + n <=? Z.of_nat (length exampleImage)
     then Some (slice (Z.to_nat offset) (Z.to_nat n) exampleImage) else None, w);
  esp_random := fun w => (u32 w, w + 1);
}.
#[export] Instance exampleSteady : SteadyFlash Z exampleImage.
Proof.
  split.
  - by apply allByte_literal.
  - done.
  - by intros w n [= <-].
  - intros offset n w _ _ Hle%Z.leb_le. unfold esp_partition_read, exampleFlash. by rewrite Hle.
  - intros w. apply u32_range.
Qed.

Lemma pack_plays_witness :
  let st0 := (pack0, 7) in
  let st := play [Activate 10 1 0 KITSU_PLAYBACK_ANY true; Show 90] (snd (begin st0)) in
  fst (begin st0) = true /\ Clip.mode (activeClip_ (active_ (fst st))) = PingPong /\
  exists s buffer st1, activeFrame 480 st = (Some buffer, st1) /\
    Step.frameIndex s = 1 /\ showing PingPong (clipSteps exampleImage (activeClip_ (active_ (fst st)))) 480 = Some s /\
    take (Z.to_nat (frameBytes_ (fst st))) buffer = frameAt exampleImage (frameBytes_ (fst st)) (Step.frameIndex s).
Proof.
  intros st0 st. assert (Hb : fst (begin st0) = true) by (vm_compute; reflexivity).
  assert (Ha : activeClipValid_ (active_ (fst st)) = true) by (vm_compute; reflexivity).
  assert (Hm : Clip.mode (activeClip_ (active_ (fst st))) = PingPong) by (vm_compute; reflexivity).
  assert (Hops : Forall timely [Activate 10 1 0 KITSU_PLAYBACK_ANY true; Show 90])
    by (repeat constructor; discriminate).
  destruct (pack_plays exampleImage _ st0 Hb Hops) as (_ & _ & Hframe).
  destruct (Hframe Ha 480 ltac:(lia)) as (s & buffer & st1 & Hrun & Hshow & Htake).
  split; [exact Hb|]. split; [exact Hm|]. exists s, buffer, st1. split; [exact Hrun|].
  split; [|split; [by rewrite <- Hm|exact Htake]].
  assert (Es : showing (Clip.mode (activeClip_ (active_ (fst st))))
    (clipSteps exampleImage (activeClip_ (active_ (fst st)))) 480 = Some (put16 1 ++ put16 200)) by (vm_compute; reflexivity).
  assert (E : Some s = Some (put16 1 ++ put16 200)) by (etransitivity; [symmetry; exact Hshow|exact Es]).
  injection E as ->. vm_compute. reflexivity.
Defined.
