(* ===== verification/CoreState.v ===== *)
(** * The core record of the companion (src/src/main.cpp)

    The identity and the care state of the companion are one 37-byte record in
    NVS, written and read back by [saveState] and loaded at start by the first
    part of [loadState].  A member of a [String] type is its bytes; warnings
    printed on the serial port are left out.  The calls of the Arduino
    Preferences library are the class [CorePrefs]: a write returns the bytes
    stored, a read the bytes copied to the buffer. *)

From S2P Require Import Prelude Crc.

Open Scope Z_scope.
Open Scope kitsu_scope.

Definition LEGACY_STATE_MAGIC : Z := 0x57535031.
Definition CORE_STATE_MAGIC : Z := 0x4b433732.
Definition kTraitCount : Z := 16.
Definition kGiftCount : Z := 12.
Definition sizeofCoreStateV2 : nat := 37.

Record CoreStateV2 := mkCore {
  magic : Z;
  recordBytes : Z;
  reserved : Z;
  uid : list Z;
  energy : Z;
  curiosity : Z;
  affection : Z;
  sleeping : Z;
  lastTrait : Z;
  lastGift : Z;
  pets : Z;
  packId : Z;
  traits : Z;
  gifts : Z;
  crc32_ : Z;
}.

(** The packed structure up to [crc32], and whole. *)
Definition corePrefix (s : CoreStateV2) : list Z :=
  put32 (magic s) ++ put16 (recordBytes s) ++ put16 (reserved s) ++ uid s ++
  [energy s; curiosity s; affection s; sleeping s; lastTrait s; lastGift s] ++
  put32 (pets s) ++ put32 (packId s) ++ put16 (traits s) ++ put16 (gifts s).
Definition coreBytes (s : CoreStateV2) : list Z := corePrefix s ++ put32 (crc32_ s).
Definition coreOf (l : list Z) : CoreStateV2 :=
  mkCore (get32 l) (get16 (drop 4 l)) (get16 (drop 6 l)) (slice 8 7 l)
         (byte_at l 15) (byte_at l 16) (byte_at l 17) (byte_at l 18) (byte_at l 19) (byte_at l 20)
         (get32 (drop 21 l)) (get32 (drop 25 l)) (get16 (drop 29 l)) (get16 (drop 31 l)) (get32 (drop 33 l)).

(** [crc32Prefix] over the bytes before the checksum. *)
Definition coreStateCrc (s : CoreStateV2) : Z := crc32 (corePrefix s).

Definition upperHex (value : Z) : bool :=
  ((48 <=? value) && (value <=? 57)) || ((65 <=? value) && (value <=? 70)).

Definition validCoreState (s : CoreStateV2) : bool :=
  if negb (magic s =? CORE_STATE_MAGIC) || negb (recordBytes s =? Z.of_nat sizeofCoreStateV2) ||
     negb (reserved s =? 0) || negb (byte_at (uid s) 0 =? 75) || negb (byte_at (uid s) 1 =? 84) ||
     negb (byte_at (uid s) 6 =? 0) || (100 <? energy s) || (100 <? curiosity s) ||
     (100 <? affection s) || (1 <? sleeping s) || negb (Z.land (gifts s) 0xf000 =? 0) ||
     (negb (lastTrait s =? 0xff) && (kTraitCount <=? lastTrait s)) ||
     (negb (lastGift s =? 0xff) && (kGiftCount <=? lastGift s))
  then false
  else if negb (forallb upperHex (slice 2 4 (uid s))) then false
  else crc32_ s =? coreStateCrc s.

(** The globals: [wisp], the pack identity and what was collected. *)
Record Core := mkGlobals {
  wispUid : list Z;
  wispEnergy : Z;
  wispCuriosity : Z;
  wispAffection : Z;
  wispPets : Z;
  wispBoots : Z;
  wispSleeping : bool;
  collectiblePackId : Z;
  unlockedTraits : Z;
  collectedGifts : Z;
  lastEncounterTrait : Z;
  lastEncounterGift : Z;
  storageReady : bool;
  firstHatch : bool;
}.

Definition core0 : Core := mkGlobals [] 72 14 5 0 0 false 0 0 0 0xff 0xff false false.

Definition set_storageReady (b : bool) (g : Core) : Core :=
  mkGlobals (wispUid g) (wispEnergy g) (wispCuriosity g) (wispAffection g) (wispPets g) (wispBoots g)
            (wispSleeping g) (collectiblePackId g) (unlockedTraits g) (collectedGifts g)
            (lastEncounterTrait g) (lastEncounterGift g) b (firstHatch g).
Definition set_firstHatch (b : bool) (g : Core) : Core :=
  mkGlobals (wispUid g) (wispEnergy g) (wispCuriosity g) (wispAffection g) (wispPets g) (wispBoots g)
            (wispSleeping g) (collectiblePackId g) (unlockedTraits g) (collectedGifts g)
            (lastEncounterTrait g) (lastEncounterGift g) (storageReady g) b.
Definition set_uid (u : list Z) (g : Core) : Core :=
  mkGlobals u (wispEnergy g) (wispCuriosity g) (wispAffection g) (wispPets g) (wispBoots g)
            (wispSleeping g) (collectiblePackId g) (unlockedTraits g) (collectedGifts g)
            (lastEncounterTrait g) (lastEncounterGift g) (storageReady g) (firstHatch g).
Definition set_boots (n : Z) (g : Core) : Core :=
  mkGlobals (wispUid g) (wispEnergy g) (wispCuriosity g) (wispAffection g) (wispPets g) n
            (wispSleeping g) (collectiblePackId g) (unlockedTraits g) (collectedGifts g)
            (lastEncounterTrait g) (lastEncounterGift g) (storageReady g) (firstHatch g).

Definition applyCoreState (s : CoreStateV2) (g : Core) : Core :=
  mkGlobals (cstr (uid s)) (energy s) (curiosity s) (affection s) (pets s) (wispBoots g)
            (negb (sleeping s =? 0)) (packId s) (traits s) (gifts s) (lastTrait s) (lastGift s)
            (storageReady g) (firstHatch g).

(** The record [saveState] builds. *)
Definition coreRecord (g : Core) : CoreStateV2 :=
  let name := take 6 (wispUid g) in
  let s crc := mkCore CORE_STATE_MAGIC (Z.of_nat sizeofCoreStateV2) 0
    (name ++ replicate (7 - length name) 0) (wispEnergy g) (wispCuriosity g) (wispAffection g)
    (if wispSleeping g then 1 else 0) (lastEncounterTrait g) (lastEncounterGift g) (wispPets g)
    (collectiblePackId g) (unlockedTraits g) (collectedGifts g) crc in
  s (coreStateCrc (s 0)).

(** ** NVS *)

Class CorePrefs (W : Type) := {
  prefsBegin : M W bool;
  getEfuseMac : M W Z;
  putBytes : list Z -> M W Z;
  getBytesLength : M W Z;
  getBytes : M W (list Z);
  getNumber : string -> Z -> M W Z;
  getText : string -> M W (list Z);
  putNumber : string -> Z -> M W unit;
}.

Section CoreState.
Context {W : Type} `{CorePrefs W}.

Definition C : Type := Core * W.
Definition global {A} (f : Core -> A) : M C A := gets (fun s => f (fst s)).
Definition assign (f : Core -> Core) : M C unit := modify (fun s => (f (fst s), snd s)).
Definition prefs {A} (m : M W A) : M C A := fun s => let '(a, w) := m (snd s) in (a, (fst s, w)).

Definition saveState : M C bool :=
  ready <- global storageReady ;;
  if negb ready then ret false
  else
    state <- global coreRecord ;;
    stored <- prefs (putBytes (coreBytes state)) ;;
    if negb (stored =? Z.of_nat sizeofCoreStateV2) then ret false
    else
      length_ <- prefs getBytesLength ;;
      if negb (length_ =? Z.of_nat sizeofCoreStateV2) then ret false
      else
        verification <- prefs getBytes ;;
        ret ((length verification =? sizeofCoreStateV2)%nat && validCoreState (coreOf verification) &&
             beq verification (coreBytes state)).

(** [deviceUid()]: "KT" and the low half of the MAC as four upper-case digits. *)
Definition hexDigit (v : Z) : Z := if v <? 10 then 48 + v else 55 + v.
Definition uidOf (mac : Z) : list Z :=
  let low := Z.land mac 0xffff in
  bytes_of "KT" ++ map (fun shift => hexDigit (Z.land (Z.shiftr low shift) 15)) [12; 8; 4; 0].

(** The v0.6 layout, one NVS key per member. *)
Definition loadLegacy : M C unit :=
  storedUid <- prefs (getText "uid") ;;
  when ((length storedUid =? 6)%nat && beq (take 2 storedUid) (bytes_of "KT")) (assign (set_uid storedUid)) ;;;
  energy <- prefs (getNumber "energy" 72) ;;
  curiosity <- prefs (getNumber "curious" 14) ;;
  affection <- prefs (getNumber "affection" 5) ;;
  pets <- prefs (getNumber "pets" 0) ;;
  sleeping <- prefs (getNumber "sleeping" 0) ;;
  traits <- prefs (getNumber "traits" 0) ;;
  gifts <- prefs (getNumber "gifts" 0) ;;
  trait <- prefs (getNumber "last_tr" 0xff) ;;
  gift <- prefs (getNumber "last_gf" 0xff) ;;
  pack <- prefs (getNumber "col_pid" 0) ;;
  assign (fun g => mkGlobals (wispUid g) (Z.min 100 energy) (Z.min 100 curiosity) (Z.min 100 affection)
    pets (wispBoots g) (negb (sleeping =? 0)) pack traits (Z.land gifts 0x0fff)
    (if kTraitCount <=? trait then 0xff else trait) (if kGiftCount <=? gift then 0xff else gift)
    (storageReady g) (firstHatch g)).

(** [loadState] up to the boot counter; the records it loads after that have no
    part in the identity. *)
Definition loadState : M C unit :=
  ready <- prefs prefsBegin ;;
  assign (set_storageReady ready) ;;;
  mac <- prefs getEfuseMac ;;
  assign (set_uid (uidOf mac)) ;;;
  if negb ready then ret tt
  else
    length_ <- prefs getBytesLength ;;
    bytes <- (if length_ =? Z.of_nat sizeofCoreStateV2 then prefs getBytes else ret []) ;;
    let loadedCore := (length bytes =? sizeofCoreStateV2)%nat && validCoreState (coreOf bytes) in
    (if loadedCore then
       assign (set_firstHatch false) ;;;
       assign (applyCoreState (coreOf bytes))
     else
       legacy <- prefs (getNumber "magic" 0) ;;
       assign (set_firstHatch (negb (legacy =? LEGACY_STATE_MAGIC)))) ;;;
    hatch <- global firstHatch ;;
    when (negb loadedCore && negb hatch) loadLegacy ;;;
    (if loadedCore then ret tt else saveState ;;; ret tt) ;;;
    boots <- prefs (getNumber "boots" 0) ;;
    assign (set_boots (u32 (boots + 1))) ;;;
    prefs (putNumber "boots" (u32 (boots + 1))).

End CoreState.
