(* ===== verification/Replacement.v ===== *)
(** * Replacing the companion pack (src/src/companion_replacement_intent.h, .cpp;
      kitsu_legacy_connectivity_retirement.h, .cpp; setup() of main.cpp)

    The flasher records a pack replacement in two sectors of the retired partition
    "kitsu_conn": PREPARED before it writes the pack, COMMITTED after it read the
    pack back.  At start the firmware reads both, erases the rest of the partition,
    loads the companion and, if the pack in flash is another one, resets the
    companion only when both records name exactly this replacement.  A packed
    record is its bytes; the partition is reached through the class [ConnFlash],
    NVS through [ReplayNvs]. *)

From S2P Require Import Prelude Crc Pack CoreState.

Open Scope Z_scope.
Open Scope kitsu_scope.

(** ** Records *)

Definition KITSU_REPLACEMENT_PREPARED_FLASH_OFFSET : Z := 0x7b0000.
Definition KITSU_REPLACEMENT_INTENT_SECTOR_BYTES : Z := 0x1000.
Definition KITSU_REPLACEMENT_TRANSACTION_BYTES : Z := 0x2000.
Definition KITSU_COMPANION_PACK_MAX_BYTES : Z := 0x140000.
Definition KITSU_REPLACEMENT_INTENT_SCHEMA : Z := 1.
Definition sizeofIntent : Z := 40.
Definition kIntentMagic : list Z := bytes_of "K868RP1" ++ [0].

Module Intent.
Definition magic (i : list Z) : list Z := slice 0 8 i.
Definition schema (i : list Z) : Z := get16 (drop 8 i).
Definition recordBytes (i : list Z) : Z := get16 (drop 10 i).
Definition sourcePackId (i : list Z) : Z := get32 (drop 12 i).
Definition targetPackId (i : list Z) : Z := get32 (drop 16 i).
Definition targetRevision (i : list Z) : Z := get32 (drop 20 i).
Definition targetBytes (i : list Z) : Z := get32 (drop 24 i).
Definition targetPayloadCrc32 (i : list Z) : Z := get32 (drop 28 i).
Definition targetHeaderCrc32 (i : list Z) : Z := get32 (drop 32 i).
Definition recordCrc32 (i : list Z) : Z := get32 (drop 36 i).
End Intent.

(** The checksum covers the record after its magic, its own field cleared. *)
Definition companionReplacementIntentCrc32 (intent : list Z) : Z :=
  crc32 (drop 8 (take 36 intent) ++ put32 0).

Definition validRecord (intent : list Z) : bool :=
  if negb (beq (Intent.magic intent) kIntentMagic) ||
     negb (Intent.schema intent =? KITSU_REPLACEMENT_INTENT_SCHEMA) ||
     negb (Intent.recordBytes intent =? sizeofIntent) || (Intent.sourcePackId intent =? 0) ||
     (Intent.targetPackId intent =? 0) || (Intent.targetRevision intent =? 0) ||
     (Intent.targetBytes intent =? 0) || (KITSU_COMPANION_PACK_MAX_BYTES <? Intent.targetBytes intent) ||
     (Intent.sourcePackId intent =? Intent.targetPackId intent)
  then false
  else companionReplacementIntentCrc32 intent =? Intent.recordCrc32 intent.

Definition targetMatches (intent : list Z) (packId revision bytes payloadCrc headerCrc : Z) : bool :=
  (Intent.targetPackId intent =? packId) && (Intent.targetRevision intent =? revision) &&
  (Intent.targetBytes intent =? bytes) && (Intent.targetPayloadCrc32 intent =? payloadCrc) &&
  (Intent.targetHeaderCrc32 intent =? headerCrc).

Record CompanionReplacementTransaction := mkTransaction { prepared : list Z; committed : list Z }.
Definition noTransaction : CompanionReplacementTransaction :=
  mkTransaction (replicate 40 0) (replicate 40 0).

Definition companionReplacementIntentValid (intent : list Z) : bool := validRecord intent.
Definition companionReplacementTransactionValid (t : CompanionReplacementTransaction) : bool :=
  validRecord (prepared t) && validRecord (committed t) && beq (prepared t) (committed t).
Definition companionReplacementIntentAuthorizes (intent : list Z)
  (storedPackId packId revision bytes payloadCrc headerCrc : Z) : bool :=
  validRecord intent && (Intent.sourcePackId intent =? storedPackId) &&
  targetMatches intent packId revision bytes payloadCrc headerCrc.
Definition companionReplacementTransactionAuthorizes (t : CompanionReplacementTransaction)
  (storedPackId packId revision bytes payloadCrc headerCrc : Z) : bool :=
  companionReplacementTransactionValid t &&
  companionReplacementIntentAuthorizes (committed t) storedPackId packId revision bytes payloadCrc headerCrc.

(** ** The retired partition *)

Definition kLegacyConnectivityPartitionLabel : list Z := bytes_of "kitsu_conn".
Definition kLegacyConnectivityPartitionType : Z := 0x01.
Definition kLegacyConnectivityPartitionSubtype : Z := 0x40.
Definition kLegacyConnectivityPartitionAddress : Z := 0x7b0000.
Definition kLegacyConnectivityPartitionBytes : Z := 0x40000.
Definition kVerificationChunkBytes : Z := 512.

(** [esp_partition_t] and [LegacyConnectivityPartition]; the label up to its NUL. *)
Record Partition := mkPartition {
  label : list Z;
  type : Z;
  subtype : Z;
  address : Z;
  size : Z;
}.

Definition exactPartition (p : Partition) : bool :=
  beq (label p) kLegacyConnectivityPartitionLabel && (type p =? kLegacyConnectivityPartitionType) &&
  (subtype p =? kLegacyConnectivityPartitionSubtype) &&
  (address p =? kLegacyConnectivityPartitionAddress) && (size p =? kLegacyConnectivityPartitionBytes).

(** The ESP-IDF partition calls on the partition found, and the NVS calls on the
    name space "kitsu_lan_act". *)
Class ConnFlash (W : Type) := {
  findConn : M W (option Partition);
  connRead : Z -> Z -> M W (option (list Z));
  connErase : Z -> Z -> M W bool;
}.
Inductive esp_err := ESP_OK | ESP_ERR_NVS_NOT_FOUND | ESP_FAIL.
#[export] Instance esp_err_eq_dec : EqDecision esp_err.
Proof. solve_decision. Defined.
Class ReplayNvs (W : Type) := {
  nvsOpen : bool -> M W (esp_err * Z);
  nvsUsedEntries : Z -> M W (esp_err * Z);
  nvsEraseAll : Z -> M W esp_err;
  nvsCommit : Z -> M W esp_err;
  nvsClose : Z -> M W unit;
}.

Definition ok (e : esp_err) : bool := bool_decide (e = ESP_OK).

(** ** Retirement *)

Inductive LegacyConnectivityRetirementResult :=
  | OkAlreadyClean | OkRetired | InvalidPartition | PartitionReadFailed | PartitionEraseFailed
  | PartitionReadbackFailed | ReplayNamespaceFailed.

Inductive LegacyConnectivityPreservation := PreserveNone | PreservePrepared | PreserveTransaction.

Definition legacyConnectivityRetirementSucceeded (r : LegacyConnectivityRetirementResult) : bool :=
  match r with OkAlreadyClean | OkRetired => true | _ => false end.

Definition legacyConnectivityRetirementResultName (r : LegacyConnectivityRetirementResult) : string :=
  match r with
  | OkAlreadyClean => "already_clean" | OkRetired => "retired" | InvalidPartition => "invalid_partition"
  | PartitionReadFailed => "partition_read_failed" | PartitionEraseFailed => "partition_erase_failed"
  | PartitionReadbackFailed => "partition_readback_failed"
  | ReplayNamespaceFailed => "replay_namespace_failed"
  end.

Definition preservedPrefixBytes (p : LegacyConnectivityPreservation) : Z :=
  match p with
  | PreserveNone => 0
  | PreservePrepared => KITSU_REPLACEMENT_INTENT_SECTOR_BYTES
  | PreserveTransaction => KITSU_REPLACEMENT_TRANSACTION_BYTES
  end.

Definition erasedBytes (l : list Z) : bool := forallb (fun b => b =? 0xff) l.

Class RetirementPlatform (W : Type) := {
  inspectPartition : M W (option Partition);
  readPartition : Z -> Z -> M W (option (list Z));
  eraseEntirePartition : M W bool;
  eraseAfterReplacementPrepared : M W bool;
  eraseAfterReplacementTransaction : M W bool;
  clearLegacyReplayNamespace : M W (bool * bool);
}.

Section Retirement.
Context {W : Type} `{RetirementPlatform W}.

(** The read-back loop: [n] chunks from [offset] on; [None] when a read fails. *)
Fixpoint verifyLoop (n : nat) (offset : Z) (erased : bool) : M W (option bool) :=
  match n with
  | O => ret (Some erased)
  | S n' =>
      chunk <- readPartition offset kVerificationChunkBytes ;;
      match chunk with
      | None => ret None
      | Some chunk => verifyLoop n' (offset + kVerificationChunkBytes) (erased && erasedBytes chunk)
      end
  end.
Definition verifyChunks (firstByte : Z) : nat :=
  Z.to_nat ((kLegacyConnectivityPartitionBytes - firstByte + 511) / 512).
Definition verifyErased (firstByte : Z) : M W (option bool) :=
  verifyLoop (verifyChunks firstByte) firstByte true.

Definition eraseRetired (p : LegacyConnectivityPreservation) : M W bool :=
  match p with
  | PreserveNone => eraseEntirePartition
  | PreservePrepared => eraseAfterReplacementPrepared
  | PreserveTransaction => eraseAfterReplacementTransaction
  end.

(** [KitsuLegacyConnectivityRetirement::run]. *)
Definition finishRetirement (retired : bool) : M W LegacyConnectivityRetirementResult :=
  r <- clearLegacyReplayNamespace ;;
  let '(cleared, replayNamespaceChanged) := r in
  if negb cleared then ret ReplayNamespaceFailed
  else ret (if retired || replayNamespaceChanged then OkRetired else OkAlreadyClean).

Definition runRetirement (preservation : LegacyConnectivityPreservation)
  : M W LegacyConnectivityRetirementResult :=
  partition <- inspectPartition ;;
  if negb (match partition with Some p => exactPartition p | None => false end) then ret InvalidPartition
  else
    let firstRetiredByte := preservedPrefixBytes preservation in
    before <- verifyErased firstRetiredByte ;;
    match before with
    | None => ret PartitionReadFailed
    | Some true => finishRetirement false
    | Some false =>
        erased <- eraseRetired preservation ;;
        if negb erased then ret PartitionEraseFailed
        else
          after <- verifyErased firstRetiredByte ;;
          match after with
          | Some true => finishRetirement true
          | _ => ret PartitionReadbackFailed
          end
    end.
End Retirement.

(** The ESP32 platform; its member is [partition_]. *)
Section Esp32.
Context {W : Type} `{ConnFlash W} `{ReplayNvs W}.

Definition E : Type := option Partition * W.
Definition idf {A} (m : M W A) : M E A := fun s => let '(a, w) := m (snd s) in (a, (fst s, w)).
Definition exactEsp32Partition : M E bool :=
  gets (fun s => match fst s with Some p => exactPartition p | None => false end).
Definition eraseFrom (offset : Z) : M E bool :=
  exact <- exactEsp32Partition ;;
  if exact then idf (connErase offset (kLegacyConnectivityPartitionBytes - offset)) else ret false.

(** The namespace is opened read-only first, so that checking creates nothing. *)
Definition clearReplayEntries (handle : Z) : M W (bool * bool) :=
  erased <- nvsEraseAll handle ;;
  committed <- (if ok erased then nvsCommit handle else ret erased) ;;
  verified <- (if ok committed then nvsUsedEntries handle else ret (committed, 0)) ;;
  nvsClose handle ;;;
  let '(verified, remainingEntries) := verified in
  ret (if negb (ok erased) || negb (ok committed) || negb (ok verified) || negb (remainingEntries =? 0)
       then (false, false) else (true, true)).
Definition clearReplay : M W (bool * bool) :=
  opened <- nvsOpen false ;;
  let '(opened, handle) := opened in
  if bool_decide (opened = ESP_ERR_NVS_NOT_FOUND) then ret (true, false)
  else if negb (ok opened) then ret (false, false)
  else
    counted <- nvsUsedEntries handle ;;
    nvsClose handle ;;;
    let '(counted, usedEntries) := counted in
    if negb (ok counted) then ret (false, false)
    else if usedEntries =? 0 then ret (true, false)
    else
      opened <- nvsOpen true ;;
      let '(opened, handle) := opened in
      if negb (ok opened) then ret (false, false) else clearReplayEntries handle.

Definition readChecked (offset n : Z) : M E (option (list Z)) :=
  exact <- exactEsp32Partition ;;
  if negb exact || (kLegacyConnectivityPartitionBytes <? offset) ||
     (kLegacyConnectivityPartitionBytes - offset <? n)
  then ret None
  else idf (connRead offset n).

#[export] Instance Esp32LegacyConnectivityRetirementPlatform : RetirementPlatform E := {
  inspectPartition :=
    found <- idf findConn ;; modify (fun s => (found, snd s)) ;;; ret found;
  readPartition := readChecked;
  eraseEntirePartition := eraseFrom 0;
  eraseAfterReplacementPrepared := eraseFrom KITSU_REPLACEMENT_INTENT_SECTOR_BYTES;
  eraseAfterReplacementTransaction := eraseFrom KITSU_REPLACEMENT_TRANSACTION_BYTES;
  clearLegacyReplayNamespace := idf clearReplay;
}.
End Esp32.

(** ** The transaction sectors

    Class CompanionReplacementTransactionStorage: its members and a world. *)

Record Storage := mkStorage {
  partition_ : option Partition;
  preparedSectorCanonical_ : bool;
  committedSectorCanonical_ : bool;
}.
Definition storage0 : Storage := mkStorage None false false.

Section Sectors.
Context {W : Type} `{ConnFlash W}.

Definition T : Type := Storage * W.
Definition member {A} (f : Storage -> A) : M T A := gets (fun s => f (fst s)).
Definition store (f : Storage -> Storage) : M T unit := modify (fun s => (f (fst s), snd s)).
Definition flash {A} (m : M W A) : M T A := fun s => let '(a, w) := m (snd s) in (a, (fst s, w)).

(** Chunks of 256 bytes up to [last], each read and all 0xff. *)
Fixpoint erasedLoop (n : nat) (offset last : Z) : M T bool :=
  match n with
  | O => ret true
  | S n' =>
      let amount := if last - offset <? 256 then last - offset else 256 in
      scratch <- flash (connRead offset amount) ;;
      match scratch with
      | None => ret false
      | Some scratch =>
          if negb (erasedBytes scratch) then ret false else erasedLoop n' (offset + amount) last
      end
  end.

Definition sectorPaddingErased (sectorOffset : Z) : M T bool :=
  erasedLoop 16 (sectorOffset + sizeofIntent) (sectorOffset + KITSU_REPLACEMENT_INTENT_SECTOR_BYTES).

Definition hasExactPartition : M T bool :=
  member (fun s => match partition_ s with Some p => exactPartition p | None => false end).

Definition beginAndRead : M T (bool * CompanionReplacementTransaction) :=
  store (fun s => mkStorage (partition_ s) false false) ;;;
  found <- flash findConn ;;
  store (fun s => mkStorage found (preparedSectorCanonical_ s) (committedSectorCanonical_ s)) ;;;
  exact <- hasExactPartition ;;
  if negb exact then
    store (fun s => mkStorage None (preparedSectorCanonical_ s) (committedSectorCanonical_ s)) ;;;
    ret (false, noTransaction)
  else
    first <- flash (connRead 0 sizeofIntent) ;;
    match first with
    | None => ret (false, noTransaction)
    | Some prepared =>
        second <- flash (connRead KITSU_REPLACEMENT_INTENT_SECTOR_BYTES sizeofIntent) ;;
        match second with
        | None => ret (false, mkTransaction prepared (replicate 40 0))
        | Some committed =>
            preparedCanonical <- sectorPaddingErased 0 ;;
            store (fun s => mkStorage (partition_ s) preparedCanonical (committedSectorCanonical_ s)) ;;;
            committedCanonical <- sectorPaddingErased KITSU_REPLACEMENT_INTENT_SECTOR_BYTES ;;
            store (fun s => mkStorage (partition_ s) (preparedSectorCanonical_ s) committedCanonical) ;;;
            ret (true, mkTransaction prepared committed)
        end
    end.

Definition consume : M T bool :=
  exact <- hasExactPartition ;;
  if negb exact then ret false
  else
    erased <- flash (connErase 0 KITSU_REPLACEMENT_TRANSACTION_BYTES) ;;
    if negb erased then ret false
    else erasedLoop 32 0 KITSU_REPLACEMENT_TRANSACTION_BYTES.
End Sectors.
