(* ===== verification/PackBoot.v ===== *)
(** * Start-up of the companion (src/src/main.cpp, setup())

    The part of [setup()] that reads the replacement record, retires the old
    partition, loads the core record, checks the pack and decides whether the
    companion is kept, replaced or blocked.  The state is every object the part
    uses and a world; what is printed is left out, and the start-up calls in
    between that touch none of these objects are [preparePairingStorage] and the one
    call [startOthers]. *)

From S2P Require Import Prelude Crc Pack CoreState Replacement.

Open Scope Z_scope.
Open Scope kitsu_scope.

Class BootHost (W : Type) := {
  clearStoredState : M W bool;
  preparePairingStorage : M W unit;
  startOthers : M W unit;
}.

Record Boot := mkBoot {
  core : Core;
  companionPack : Pack;
  retirement_partition : option Partition;
  transactionStorage : Storage;
  legacyConnectivityRetirementReady : bool;
}.
Definition boot0 : Boot := mkBoot core0 pack0 None storage0 false.

Definition set_core (g : Core) (b : Boot) : Boot :=
  mkBoot g (companionPack b) (retirement_partition b) (transactionStorage b) (legacyConnectivityRetirementReady b).
Definition set_pack (p : Pack) (b : Boot) : Boot :=
  mkBoot (core b) p (retirement_partition b) (transactionStorage b) (legacyConnectivityRetirementReady b).
Definition set_retirement (p : option Partition) (b : Boot) : Boot :=
  mkBoot (core b) (companionPack b) p (transactionStorage b) (legacyConnectivityRetirementReady b).
Definition set_storage (t : Storage) (b : Boot) : Boot :=
  mkBoot (core b) (companionPack b) (retirement_partition b) t (legacyConnectivityRetirementReady b).
Definition set_ready (r : bool) (b : Boot) : Boot :=
  mkBoot (core b) (companionPack b) (retirement_partition b) (transactionStorage b) r.

(** The getters of CompanionPack. *)
Definition packId (p : Pack) : Z := if valid_ p then Header.packId (header_ p) else 0.
Definition packRevision (p : Pack) : Z := if valid_ p then Header.revision (header_ p) else 0.
Definition packBytes (p : Pack) : Z := if valid_ p then Header.totalBytes (header_ p) else 0.
Definition packPayloadCrc32 (p : Pack) : Z := if valid_ p then Header.payloadCrc32 (header_ p) else 0.
Definition packHeaderCrc32 (p : Pack) : Z := if valid_ p then Header.headerCrc32 (header_ p) else 0.

(** A companion of another species starts afresh. *)
Definition replaced (installedPackId : Z) (g : Core) : Core :=
  mkGlobals (wispUid g) 72 14 5 0 (wispBoots g) false installedPackId 0 0 0xff 0xff
            (storageReady g) (firstHatch g).
(** The first pack keeps the vitals. *)
Definition firstAssigned (installedPackId : Z) (g : Core) : Core :=
  mkGlobals (wispUid g) (wispEnergy g) (wispCuriosity g) (wispAffection g) (wispPets g) (wispBoots g)
            (wispSleeping g) installedPackId 0 0 0xff 0xff (storageReady g) (firstHatch g).

Section Setup.
Context {W : Type} `{PackPlatform W} `{CorePrefs W} `{ConnFlash W} `{ReplayNvs W} `{BootHost W}.

Definition B : Type := Boot * W.
Definition look {A} (f : Boot -> A) : M B A := gets (fun s => f (fst s)).
Definition update (f : Boot -> Boot) : M B unit := modify (fun s => (f (fst s), snd s)).
Definition host {A} (m : M W A) : M B A := fun s => let '(a, w) := m (snd s) in (a, (fst s, w)).
Definition inCore {A} (m : M (Core * W) A) : M B A :=
  fun s => let '(a, (g, w)) := m (core (fst s), snd s) in (a, (set_core g (fst s), w)).
Definition inPack {A} (m : M (Pack * W) A) : M B A :=
  fun s => let '(a, (p, w)) := m (companionPack (fst s), snd s) in (a, (set_pack p (fst s), w)).
Definition inRetirement {A} (m : M (option Partition * W) A) : M B A :=
  fun s => let '(a, (p, w)) := m (retirement_partition (fst s), snd s) in (a, (set_retirement p (fst s), w)).
Definition inStorage {A} (m : M (Storage * W) A) : M B A :=
  fun s => let '(a, (t, w)) := m (transactionStorage (fst s), snd s) in (a, (set_storage t (fst s), w)).

(** The transaction as it is in flash, and what of it is valid. *)
Record Found := mkFound {
  transaction : CompanionReplacementTransaction;
  preparedValid : bool;
  committedValid : bool;
}.

Definition readTransaction : M B Found :=
  r <- inStorage beginAndRead ;;
  let '(readable, t) := r in
  preparedCanonical <- look (fun b => preparedSectorCanonical_ (transactionStorage b)) ;;
  committedCanonical <- look (fun b => committedSectorCanonical_ (transactionStorage b)) ;;
  let preparedValid := readable && preparedCanonical && companionReplacementIntentValid (prepared t) in
  let committedValid := preparedValid && committedCanonical && companionReplacementTransactionValid t in
  ret (mkFound t preparedValid committedValid).

Definition preservationOf (f : Found) : LegacyConnectivityPreservation :=
  if committedValid f then PreserveTransaction
  else if preparedValid f then PreservePrepared else PreserveNone.

Definition retire (f : Found) : M B unit :=
  result <- inRetirement (runRetirement (preservationOf f)) ;;
  update (set_ready (legacyConnectivityRetirementSucceeded result)).

Definition transactionMatches (f : Found) (b : Boot) : bool :=
  let stored := collectiblePackId (core b) in
  let p := companionPack b in
  negb (stored =? 0) && legacyConnectivityRetirementReady b && committedValid f &&
  companionReplacementTransactionAuthorizes (transaction f) stored (packId p) (packRevision p)
    (packBytes p) (packPayloadCrc32 p) (packHeaderCrc32 p).

(** The pack in flash is not the stored one; the result is whether a replacement
    was attempted. *)
Definition reconcile (f : Found) : M B bool :=
  b <- look id ;;
  let installedPackId := packId (companionPack b) in
  if transactionMatches f b then
    host clearStoredState ;;;
    update (fun b => set_core (replaced installedPackId (core b)) b) ;;;
    packIdentityStateSaved <- inCore saveState ;;
    when packIdentityStateSaved (inStorage consume ;;; ret tt) ;;;
    ret true
  else if collectiblePackId (core b) =? 0 then
    update (fun b => set_core (firstAssigned installedPackId (core b)) b) ;;;
    inCore saveState ;;;
    ret false
  else inPack quarantineUnapprovedReplacement ;;; ret false.

(** A completed or stale transaction is no longer a retry source. *)
Definition cleanUp (f : Found) (attempted : bool) : M B unit :=
  b <- look id ;;
  when (negb attempted && legacyConnectivityRetirementReady b && preparedValid f &&
        negb (Intent.sourcePackId (prepared (transaction f)) =? collectiblePackId (core b)))
    (inStorage consume ;;; ret tt).

Definition setupCompanion : M B unit :=
  f <- readTransaction ;;
  retire f ;;;
  host preparePairingStorage ;;;
  inCore loadState ;;;
  host startOthers ;;;
  inPack begin ;;;
  b <- look id ;;
  attempted <- (if valid_ (companionPack b) &&
                   negb (collectiblePackId (core b) =? packId (companionPack b))
                then reconcile f else ret false) ;;
  cleanUp f attempted.

End Setup.
