(* ===== verification/CoreStateFacts.v ===== *)
(** * The core record is read back (proofs for [CoreState])

    What [saveState] writes for consistent globals is accepted by [validCoreState]
    and applied to the same globals; what is accepted is consistent. *)

From S2P Require Import Prelude Crc CoreState.

Open Scope Z_scope.

(** The ranges of the globals. *)
Record CoreOk (g : Core) : Prop := {
  ok_uid : exists digits, wispUid g = bytes_of "KT" ++ digits /\ length digits = 4%nat /\ forallb upperHex digits = true;
  ok_energy : 0 <= wispEnergy g <= 100;
  ok_curiosity : 0 <= wispCuriosity g <= 100;
  ok_affection : 0 <= wispAffection g <= 100;
  ok_pets : 0 <= wispPets g < 2 ^ 32;
  ok_pack : 0 <= collectiblePackId g < 2 ^ 32;
  ok_traits : 0 <= unlockedTraits g < 2 ^ 16;
  ok_gifts : 0 <= collectedGifts g < 2 ^ 12;
  ok_trait : lastEncounterTrait g = 0xff \/ 0 <= lastEncounterTrait g < kTraitCount;
  ok_gift : lastEncounterGift g = 0xff \/ 0 <= lastEncounterGift g < kGiftCount;
}.

(** The record as it is in flash. *)
Record CoreWidths (s : CoreStateV2) : Prop := {
  width_magic : 0 <= magic s < 2 ^ 32;
  width_bytes : 0 <= recordBytes s < 2 ^ 16;
  width_reserved : 0 <= reserved s < 2 ^ 16;
  width_uid : length (uid s) = 7%nat;
  width_pets : 0 <= pets s < 2 ^ 32;
  width_pack : 0 <= packId s < 2 ^ 32;
  width_traits : 0 <= traits s < 2 ^ 16;
  width_gifts : 0 <= gifts s < 2 ^ 16;
  width_crc : 0 <= crc32_ s < 2 ^ 32;
}.

Lemma coreOf_coreBytes s : CoreWidths s -> coreOf (coreBytes s) = s.
Proof.
  intros [Hm Hb Hr Hu Hp Hk Ht Hg Hc]. destruct s as [m b r u e c a sl lt lg p k t g crc]. cbn in *.
  destruct u as [|u0 [|u1 [|u2 [|u3 [|u4 [|u5 [|u6 [|? ?]]]]]]]]; try discriminate Hu.
  unfold coreOf, coreBytes, corePrefix. cbn [magic recordBytes reserved uid energy curiosity affection sleeping
    lastTrait lastGift pets packId traits gifts crc32_].
  rewrite <- !app_assoc. f_equal.
  - apply (get32_put32 m). lia.
  - apply (get16_put16 b). lia.
  - apply (get16_put16 r). lia.
  - apply (get32_put32 p). lia.
  - apply (get32_put32 k). lia.
  - apply (get16_put16 t). lia.
  - apply (get16_put16 g). lia.
  - apply (get32_put32 crc []). lia.
Qed.

Lemma coreBytes_length s : length (uid s) = 7%nat -> length (coreBytes s) = sizeofCoreStateV2.
Proof. intros Hu. unfold coreBytes, corePrefix. rewrite !length_app, Hu. done. Qed.

Lemma upperHex_range b : upperHex b = true -> 48 <= b <= 70.
Proof. unfold upperHex. lia. Qed.

Lemma four {A} (l : list A) : length l = 4%nat -> exists a b c d, l = [a; b; c; d].
Proof. destruct l as [|a [|b [|c [|d [|? ?]]]]]; try discriminate. intros _. by exists a, b, c, d. Qed.

Lemma record_prefix_bytes g : CoreOk g -> bytesOk (corePrefix (coreRecord g)).
Proof.
  intros [(ds & Hu & Hl & Hd) He Hcu Ha Hp Hk Ht Hg Hlt Hlg].
  destruct (four _ Hl) as (d0 & d1 & d2 & d3 & ->). cbn in Hd. rewrite !andb_true_iff in Hd.
  destruct Hd as (D0 & D1 & D2 & D3 & _). apply upperHex_range in D0, D1, D2, D3.
  unfold corePrefix, coreRecord. rewrite Hu. unfold kTraitCount, kGiftCount in *.
  repeat (apply Forall_app; split); try apply put32_ok; try apply put16_ok; cbn -[Z.pow];
    repeat constructor; unfold isByte; try lia; by destruct (wispSleeping g).
Qed.

Lemma record_widths g : CoreOk g -> CoreWidths (coreRecord g).
Proof.
  intros Hg. pose proof (crc32_range _ (record_prefix_bytes g Hg)) as Hcrc.
  destruct Hg as [(ds & Hu & Hl & Hd) He Hcu Ha Hp Hk Ht Hg Hlt Hlg].
  destruct (four _ Hl) as (d0 & d1 & d2 & d3 & ->).
  constructor.
  - change (0 <= CORE_STATE_MAGIC < 2 ^ 32). by unfold CORE_STATE_MAGIC.
  - change (0 <= 37 < 2 ^ 16). lia.
  - change (0 <= 0 < 2 ^ 16). lia.
  - unfold coreRecord. cbn [uid]. by rewrite Hu.
  - exact Hp.
  - exact Hk.
  - exact Ht.
  - change (0 <= collectedGifts g < 2 ^ 16). lia.
  - exact Hcrc.
Qed.

Lemma low_bits g : 0 <= g < 2 ^ 12 -> Z.land g 0xf000 = 0.
Proof.
  intros Hg. change 0xf000 with (Z.shiftl 15 12). apply Z.bits_inj_0. intros k. rewrite Z.land_spec.
  destruct (Z.lt_ge_cases k 0) as [|Hk]; [by rewrite Z.testbit_neg_r|].
  destruct (Z.lt_ge_cases k 12) as [|Hk12].
  - by rewrite Z.shiftl_spec, (Z.testbit_neg_r 15), andb_false_r by lia.
  - by rewrite (range_bits 12) by lia.
Qed.

Lemma record_valid g : CoreOk g -> validCoreState (coreRecord g) = true.
Proof.
  intros [(ds & Hu & Hl & Hd) He Hcu Ha Hp Hk Ht Hg Hlt Hlg].
  destruct (four _ Hl) as (d0 & d1 & d2 & d3 & ->). unfold validCoreState.
  change (crc32_ (coreRecord g)) with (coreStateCrc (coreRecord g)).
  assert (Huid : uid (coreRecord g) = [75; 84; d0; d1; d2; d3; 0]) by (unfold coreRecord; cbn [uid]; by rewrite Hu).
  rewrite Huid. change (slice 2 4 [75; 84; d0; d1; d2; d3; 0]) with [d0; d1; d2; d3]. rewrite Hd. cbn [negb].
  change (gifts (coreRecord g)) with (collectedGifts g). rewrite (low_bits _ Hg).
  change (energy (coreRecord g)) with (wispEnergy g). change (curiosity (coreRecord g)) with (wispCuriosity g).
  change (affection (coreRecord g)) with (wispAffection g).
  change (lastTrait (coreRecord g)) with (lastEncounterTrait g).
  change (lastGift (coreRecord g)) with (lastEncounterGift g).
  change (sleeping (coreRecord g)) with (if wispSleeping g then 1 else 0).
  rewrite (proj2 (Z.ltb_ge 100 (wispEnergy g))), (proj2 (Z.ltb_ge 100 (wispCuriosity g))),
    (proj2 (Z.ltb_ge 100 (wispAffection g))) by lia.
  replace (1 <? (if wispSleeping g then 1 else 0)) with false by (by destruct (wispSleeping g)).
  replace (negb (lastEncounterTrait g =? 255) && (kTraitCount <=? lastEncounterTrait g)) with false
    by (symmetry; destruct Hlt as [->|]; [done|]; rewrite (proj2 (Z.leb_gt _ _)) by lia; by rewrite andb_false_r).
  replace (negb (lastEncounterGift g =? 255) && (kGiftCount <=? lastEncounterGift g)) with false
    by (symmetry; destruct Hlg as [->|]; [done|]; rewrite (proj2 (Z.leb_gt _ _)) by lia; by rewrite andb_false_r).
  apply Z.eqb_refl.
Qed.

Lemma saved_back g : CoreOk g -> coreOf (coreBytes (coreRecord g)) = coreRecord g.
Proof. intros Hg. by apply coreOf_coreBytes, record_widths. Qed.

(** The record saved for consistent globals is 37 bytes long, is accepted when it
    is read back, and restores exactly the globals it was made from. *)
Theorem core_record_roundtrip g g' : CoreOk g ->
  length (coreBytes (coreRecord g)) = sizeofCoreStateV2 /\
  validCoreState (coreOf (coreBytes (coreRecord g))) = true /\
  applyCoreState (coreOf (coreBytes (coreRecord g))) g' =
    mkGlobals (wispUid g) (wispEnergy g) (wispCuriosity g) (wispAffection g) (wispPets g) (wispBoots g')
      (wispSleeping g) (collectiblePackId g) (unlockedTraits g) (collectedGifts g)
      (lastEncounterTrait g) (lastEncounterGift g) (storageReady g') (firstHatch g').
Proof.
  intros Hg. rewrite (saved_back g Hg). split; [apply coreBytes_length, record_widths, Hg|].
  split; [by apply record_valid|]. destruct Hg as [(ds & Hu & Hl & Hd) _ _ _ _ _ _ _ _ _].
  destruct (four _ Hl) as (d0 & d1 & d2 & d3 & ->). unfold applyCoreState. f_equal; try done.
  - unfold coreRecord. cbn [uid]. rewrite Hu. cbn in Hd. rewrite !andb_true_iff in Hd.
    destruct Hd as (D0 & D1 & D2 & D3 & _). apply upperHex_range in D0, D1, D2, D3.
    apply (cstr_app_nul [75; 84; d0; d1; d2; d3] []). repeat constructor; lia.
  - cbn [sleeping coreRecord]. by destruct (wispSleeping g).
Qed.

Definition exampleCore : Core :=
  mkGlobals (bytes_of "KT0A1F") 61 20 33 412 9 true 0x1234 0x8001 0x0f0f 0xff 3 true false.

Lemma core_record_roundtrip_witness :
  CoreOk exampleCore /\ validCoreState (coreOf (coreBytes (coreRecord exampleCore))) = true.
Proof.
  assert (Hok : CoreOk exampleCore).
  { constructor; cbn -[Z.pow]; unfold kGiftCount; try lia. exists (bytes_of "0A1F"). done. }
  split; [exact Hok|]. apply (core_record_roundtrip exampleCore core0 Hok).
Defined.
