(* ===== verification/PackBootFacts.v ===== *)
(** * Replacing a pack survives failures (proofs for [PackBoot])

    Whatever fails or wherever power is lost during any number of starts, the
    stored companion is either the old one, with the replacement record intact, or
    the new one; and a companion is only replaced by the exact pack the committed
    record names. *)

From S2P Require Import Prelude Crc Pack PackFacts CoreState Replacement PackBoot.

Open Scope Z_scope.
Open Scope kitsu_scope.

(** ** Contents of the partition *)

Definition bytesFrom (c : Z -> Z) (offset n : Z) : list Z :=
  map (fun k => c (offset + Z.of_nat k)) (seq 0 (Z.to_nat n)).
Definition erasedRange (c : Z -> Z) (first last : Z) : Prop := forall i, first <= i < last -> c i = 0xff.

Definition PreparedIn (c : Z -> Z) : Prop :=
  erasedRange c 40 4096 /\ companionReplacementIntentValid (bytesFrom c 0 40) = true.
Definition transactionIn (c : Z -> Z) : CompanionReplacementTransaction :=
  mkTransaction (bytesFrom c 0 40) (bytesFrom c 4096 40).
Definition CommittedIn (c : Z -> Z) : Prop :=
  PreparedIn c /\ erasedRange c 4136 8192 /\ companionReplacementTransactionValid (transactionIn c) = true.

Lemma erased_bytesFrom c a n : 0 <= n -> erasedBytes (bytesFrom c a n) = true <-> erasedRange c a (a + n).
Proof.
  intros Hn. unfold erasedBytes, bytesFrom, erasedRange. rewrite forallb_forall. split.
  - intros Hall i Hi. apply Z.eqb_eq, Hall, in_map_iff. exists (Z.to_nat (i - a)). split; [f_equal; lia|].
    apply in_seq. lia.
  - intros Hall b (k & <- & Hk%in_seq)%in_map_iff. apply Z.eqb_eq, Hall. lia.
Qed.
Lemma bytesFrom_ext c c' a n : (forall i, a <= i < a + n -> c i = c' i) -> bytesFrom c a n = bytesFrom c' a n.
Proof. intros Hc. apply map_ext_in. intros k Hk%in_seq. apply Hc. lia. Qed.
Lemma erasedRange_split c a m b : a <= m <= b -> erasedRange c a b <-> erasedRange c a m /\ erasedRange c m b.
Proof.
  intros Hm. split; [intros He; split; intros i Hi; apply He; lia|].
  intros [H1 H2] i Hi. destruct (Z.lt_ge_cases i m); [apply H1|apply H2]; lia.
Qed.

Lemma prepared_ext c c' : (forall i, 0 <= i < 4096 -> c i = c' i) -> PreparedIn c -> PreparedIn c'.
Proof.
  intros Hc [He Hv]. split; [intros i Hi; rewrite <- Hc by lia; apply He; lia|].
  by rewrite <- (bytesFrom_ext c c') by (intros; apply Hc; lia).
Qed.
Lemma committed_ext c c' : (forall i, 0 <= i < 8192 -> c i = c' i) -> CommittedIn c -> CommittedIn c'.
Proof.
  intros Hc (Hp & He & Hv). split; [eapply prepared_ext; [|exact Hp]; intros; apply Hc; lia|].
  split; [intros i Hi; rewrite <- Hc by lia; apply He; lia|]. unfold transactionIn in *.
  by rewrite <- !(bytesFrom_ext c c') by (intros; apply Hc; lia).
Qed.

(** ** The device

    [stored] is the core record in NVS, [conn] the retired partition, [image] the
    pack partition.  While the device is [powered], reads succeed; writes and erasures
    may fail.  Once it is not, no call changes anything and what it returns is
    arbitrary.  A [healthy] device does everything it is asked to. *)
Class BootLaws (W : Type) `{PackPlatform W} `{CorePrefs W} `{ConnFlash W} `{ReplayNvs W} `{BootHost W}
  (image : list Z) := {
  stored : W -> list Z;
  conn : W -> Z -> Z;
  powered : W -> bool;
  healthy : W -> bool;
  replayEntries : W -> Z;
  (** The record, the partition, the power and the health stay, the last two unless
      power fails. *)
  same (w w' : W) : Prop :=
    stored w' = stored w /\ (forall i, conn w' i = conn w i) /\
    (powered w' = true -> powered w = true) /\ (healthy w = true -> healthy w' = true);
  healthy_powered w : healthy w = true -> powered w = true;
  (** The pack partition. *)
  findSpiffs_same w : same w (snd (findSpiffs w));
  packRead_same o n w : same w (snd (esp_partition_read o n w));
  findSpiffs_size w n : powered (snd (findSpiffs w)) = true -> fst (findSpiffs w) = Some n ->
    n = Z.of_nat (length image);
  packRead_image o n w l : powered (snd (esp_partition_read o n w)) = true ->
    fst (esp_partition_read o n w) = Some l -> l = slice (Z.to_nat o) (Z.to_nat n) image;
  pack_accepted w : healthy w = true -> valid_ (fst (snd (begin (pack0, w)))) = true;
  (** NVS: the core record is replaced whole or not at all. *)
  prefsBegin_law w : same w (snd (prefsBegin w)) /\
    (powered (snd (prefsBegin w)) = true -> fst (prefsBegin w) = true);
  getEfuseMac_same w : same w (snd (getEfuseMac w));
  getNumber_same k d w : same w (snd (getNumber k d w));
  getText_same k w : same w (snd (getText k w));
  putNumber_same k v w : same w (snd (putNumber k v w));
  getBytesLength_law w : same w (snd (getBytesLength w)) /\
    (powered (snd (getBytesLength w)) = true -> fst (getBytesLength w) = Z.of_nat (length (stored w)));
  getBytes_law w : same w (snd (getBytes w)) /\
    (powered (snd (getBytes w)) = true -> fst (getBytes w) = stored w);
  putBytes_law l w :
    (forall i, conn (snd (putBytes l w)) i = conn w i) /\
    (powered (snd (putBytes l w)) = true -> powered w = true) /\
    (stored (snd (putBytes l w)) = stored w \/ powered w = true /\ stored (snd (putBytes l w)) = l) /\
    (powered (snd (putBytes l w)) = true -> fst (putBytes l w) = Z.of_nat (length l) ->
       stored (snd (putBytes l w)) = l) /\
    (healthy w = true -> healthy (snd (putBytes l w)) = true /\ fst (putBytes l w) = Z.of_nat (length l));
  clearStoredState_same w : same w (snd (clearStoredState w));
  preparePairing_same w : same w (snd (preparePairingStorage w));
  startOthers_same w : same w (snd (startOthers w));
  (** The retired partition. *)
  findConn_law w : same w (snd (findConn w)) /\
    (powered (snd (findConn w)) = true -> exists p, fst (findConn w) = Some p /\ exactPartition p = true);
  connRead_law o n w : same w (snd (connRead o n w)) /\
    (powered (snd (connRead o n w)) = true -> 0 <= o -> 0 <= n -> o + n <= kLegacyConnectivityPartitionBytes ->
       fst (connRead o n w) = Some (bytesFrom (conn w) o n));
  connErase_law o n w :
    stored (snd (connErase o n w)) = stored w /\
    (powered (snd (connErase o n w)) = true -> powered w = true) /\
    (forall i, ~ o <= i < o + n -> conn (snd (connErase o n w)) i = conn w i) /\
    (powered w = false -> forall i, conn (snd (connErase o n w)) i = conn w i) /\
    (powered (snd (connErase o n w)) = true -> fst (connErase o n w) = true ->
       erasedRange (conn (snd (connErase o n w))) o (o + n)) /\
    (healthy w = true -> healthy (snd (connErase o n w)) = true /\ fst (connErase o n w) = true);
  (** The replay name space. *)
  nvsOpen_law b w : same w (snd (nvsOpen b w)) /\ replayEntries (snd (nvsOpen b w)) = replayEntries w /\
    (healthy w = true -> ok (fst (fst (nvsOpen b w))) = true \/
       b = false /\ fst (fst (nvsOpen b w)) = ESP_ERR_NVS_NOT_FOUND);
  nvsUsedEntries_law h w : same w (snd (nvsUsedEntries h w)) /\
    replayEntries (snd (nvsUsedEntries h w)) = replayEntries w /\
    (healthy w = true -> fst (nvsUsedEntries h w) = (ESP_OK, replayEntries w));
  nvsEraseAll_law h w : same w (snd (nvsEraseAll h w)) /\
    (healthy w = true -> fst (nvsEraseAll h w) = ESP_OK /\ replayEntries (snd (nvsEraseAll h w)) = 0);
  nvsCommit_law h w : same w (snd (nvsCommit h w)) /\
    replayEntries (snd (nvsCommit h w)) = replayEntries w /\
    (healthy w = true -> fst (nvsCommit h w) = ESP_OK);
  nvsClose_law h w : same w (snd (nvsClose h w)) /\ replayEntries (snd (nvsClose h w)) = replayEntries w;
}.

Section Laws.
Context {W : Type} `{L : BootLaws W image}.

#[export] Instance same_preorder : PreOrder same.
Proof.
  constructor.
  - intros w. by repeat split.
  - intros a b c (A1 & A2 & A3 & A4) (B1 & B2 & B3 & B4). repeat split; auto; congruence.
Qed.

Lemma same_findConn w : same w (snd (findConn w)).
Proof. apply findConn_law. Qed.
Lemma same_connRead o n w : same w (snd (connRead o n w)).
Proof. apply connRead_law. Qed.
Lemma same_getBytes w : same w (snd (getBytes w)).
Proof. apply getBytes_law. Qed.
Lemma same_getBytesLength w : same w (snd (getBytesLength w)).
Proof. apply getBytesLength_law. Qed.
Lemma same_prefsBegin w : same w (snd (prefsBegin w)).
Proof. apply prefsBegin_law. Qed.

(** Running a call of the device from a component. *)
Lemma wp_flash {A} (m : M W A) Q t w : Q (fst (m w)) (t, snd (m w)) -> wp (flash m) Q (t, w).
Proof. unfold wp, flash. simpl. by destruct (m w). Qed.
Lemma wp_prefs {A} (m : M W A) Q g w : Q (fst (m w)) (g, snd (m w)) -> wp (prefs m) Q (g, w).
Proof. unfold wp, prefs. simpl. by destruct (m w). Qed.
Lemma wp_idf {A} (m : M W A) Q p w : Q (fst (m w)) (p, snd (m w)) -> wp (idf m) Q (p, w).
Proof. unfold wp, idf. simpl. by destruct (m w). Qed.
Lemma wp_packWorld {A} (m : M W A) Q p w : Q (fst (m w)) (p, snd (m w)) -> wp (world m) Q (p, w).
Proof. unfold wp, world. simpl. by destruct (m w). Qed.
Lemma wp_bootHost {A} (m : M W A) Q b w : Q (fst (m w)) (b, snd (m w)) -> wp (PackBoot.host m) Q (b, w).
Proof. unfold wp, PackBoot.host. simpl. by destruct (m w). Qed.
Lemma wp_inCore {A} (m : M (Core * W) A) Q b w :
  wp m (fun a s => Q a (set_core (fst s) b, snd s)) (core b, w) -> wp (inCore m) Q (b, w).
Proof. unfold wp, inCore. simpl. by destruct (m (core b, w)) as [a [g w']]. Qed.
Lemma wp_inPack {A} (m : M (Pack * W) A) Q b w :
  wp m (fun a s => Q a (set_pack (fst s) b, snd s)) (companionPack b, w) -> wp (inPack m) Q (b, w).
Proof. unfold wp, inPack. simpl. by destruct (m (companionPack b, w)) as [a [g w']]. Qed.
Lemma wp_inRetirement {A} (m : M (option Partition * W) A) Q b w :
  wp m (fun a s => Q a (set_retirement (fst s) b, snd s)) (retirement_partition b, w) -> wp (inRetirement m) Q (b, w).
Proof. unfold wp, inRetirement. simpl. by destruct (m (retirement_partition b, w)) as [a [g w']]. Qed.
Lemma wp_inStorage {A} (m : M (Storage * W) A) Q b w :
  wp m (fun a s => Q a (set_storage (fst s) b, snd s)) (transactionStorage b, w) -> wp (inStorage m) Q (b, w).
Proof. unfold wp, inStorage. simpl. by destruct (m (transactionStorage b, w)) as [a [g w']]. Qed.

(** ** Reading the transaction *)

Lemma erasedLoop_run n offset last t w (Q : bool -> Replacement.T (W := W) -> Prop) :
  0 <= offset -> offset <= last -> last <= kLegacyConnectivityPartitionBytes -> last - offset <= 256 * Z.of_nat n ->
  (forall r w', same w w' -> (powered w' = true -> r = true <-> erasedRange (conn w) offset last) -> Q r (t, w')) ->
  wp (erasedLoop n offset last) Q (t, w).
Proof.
  intros Ho Hl Hlast Hn. revert offset w Ho Hl Hn. induction n as [|n IH]; intros offset w Ho Hl Hn HQ; cbn [erasedLoop].
  - apply wp_ret, HQ; [done|]. intros _. split; [|done]. intros _ i Hi. lia.
  - cbv zeta. set (amount := if last - offset <? 256 then last - offset else 256).
    assert (Ha : 0 <= amount <= last - offset /\ amount <= 256 /\ (amount = 256 \/ amount = last - offset))
      by (unfold amount; destruct (Z.ltb_spec (last - offset) 256); lia).
    apply wp_bind, wp_flash. destruct (connRead_law offset amount w) as [Hsame Hread].
    destruct (fst (connRead offset amount w)) as [scratch|] eqn:Escr.
    + destruct (erasedBytes scratch) eqn:Eer; cbn [negb].
      * apply IH; [lia|lia|lia|]. intros r w' Hs' Hr. apply HQ; [by etransitivity|]. intros Hp.
        assert (Hp1 : powered (snd (connRead offset amount w)) = true) by (by apply Hs').
        specialize (Hread Hp1 ltac:(lia) ltac:(lia) ltac:(lia)). injection Hread as ->.
        apply erased_bytesFrom in Eer; [|lia]. rewrite (Hr Hp), (erasedRange_split _ offset (offset + amount)) by lia.
        destruct Hsame as (_ & Hc & _). split; [intros He; split; [done|]|intros [_ He]]; intros i Hi;
          [rewrite <- Hc|rewrite Hc]; by apply He.
      * apply wp_ret, HQ; [done|]. intros Hp. specialize (Hread Hp ltac:(lia) ltac:(lia) ltac:(lia)).
        injection Hread as ->. split; [done|]. rewrite (erasedRange_split _ offset (offset + amount)) by lia.
        intros [He _]. apply erased_bytesFrom in He; [|lia]. congruence.
    + apply wp_ret, HQ; [done|]. intros Hp. by specialize (Hread Hp ltac:(lia) ltac:(lia) ltac:(lia)).
Qed.

Definition exactMember (p : option Partition) : Prop := match p with Some p => exactPartition p = true | None => False end.

Lemma beginAndRead_run t w (Q : _ -> Replacement.T (W := W) -> Prop) :
  (forall r t' w', same w w' ->
     (powered w' = true -> r = (true, transactionIn (conn w)) /\ exactMember (Replacement.partition_ t') /\
        (preparedSectorCanonical_ t' = true <-> erasedRange (conn w) 40 4096) /\
        (committedSectorCanonical_ t' = true <-> erasedRange (conn w) 4136 8192)) -> Q r (t', w')) ->
  wp beginAndRead Q (t, w).
Proof.
  intros HQ. unfold beginAndRead. apply wp_bind. change (wp (store ?f) ?P ?s) with (P tt (f (fst s), snd s)). cbv beta.
  cbn [fst snd]. apply wp_bind, wp_flash. destruct (findConn_law w) as [Hs1 Hfound].
  set (w1 := snd (findConn w)) in *. apply wp_bind. change (wp (store ?f) ?P ?s) with (P tt (f (fst s), snd s)). cbv beta.
  apply wp_bind. unfold hasExactPartition, member. apply wp_gets. cbn [fst snd Replacement.partition_].
  destruct (fst (findConn w)) as [p|] eqn:Ef; [destruct (exactPartition p) eqn:Ex|]; cbn [negb].
  2,3: apply wp_bind; change (wp (store ?f) ?P ?s) with (P tt (f (fst s), snd s)); apply wp_ret, HQ; [done|];
    intros Hp; destruct (Hfound Hp) as (q & Eq & Hq); congruence.
  unfold sizeofIntent, KITSU_REPLACEMENT_INTENT_SECTOR_BYTES.
  apply wp_bind, wp_flash. destruct (connRead_law 0 40 w1) as [Hs2 Hread1]. set (w2 := snd (connRead 0 40 w1)) in *.
  assert (K2 : same w w2) by (by etransitivity).
  destruct (fst (connRead 0 40 w1)) as [prep|] eqn:E1.
  2:{ apply wp_ret, HQ; [done|]. intros Hp. by specialize (Hread1 Hp ltac:(lia) ltac:(lia) ltac:(by vm_compute)). }
  apply wp_bind, wp_flash. destruct (connRead_law 4096 40 w2) as [Hs3 Hread2]. set (w3 := snd (connRead 4096 40 w2)) in *.
  assert (K3 : same w w3) by (by etransitivity).
  destruct (fst (connRead 4096 40 w2)) as [comm|] eqn:E2.
  2:{ apply wp_ret, HQ; [done|]. intros Hp. by specialize (Hread2 Hp ltac:(lia) ltac:(lia) ltac:(by vm_compute)). }
  unfold sectorPaddingErased, sizeofIntent, KITSU_REPLACEMENT_INTENT_SECTOR_BYTES.
  apply wp_bind, erasedLoop_run; [lia|lia|by vm_compute|lia|]. intros r1 w4 Hs4 Hr1.
  apply wp_bind. change (wp (store ?f) ?P ?s) with (P tt (f (fst s), snd s)). cbv beta. cbn [fst snd].
  apply wp_bind, erasedLoop_run; [lia|lia|by vm_compute|lia|]. intros r2 w5 Hs5 Hr2.
  apply wp_bind. change (wp (store ?f) ?P ?s) with (P tt (f (fst s), snd s)). cbv beta. cbn [fst snd].
  assert (K4 : same w w4) by (by etransitivity). apply wp_ret, HQ; [by etransitivity|]. cbn.
  intros Hp. assert (Hp4 : powered w4 = true) by (by apply Hs5). assert (Hp3 : powered w3 = true) by (by apply Hs4).
  assert (Hp2 : powered w2 = true) by (by apply Hs3).
  specialize (Hread1 Hp2 ltac:(lia) ltac:(lia) ltac:(by vm_compute)). injection Hread1 as ->.
  specialize (Hread2 Hp3 ltac:(lia) ltac:(lia) ltac:(by vm_compute)). injection Hread2 as ->.
  destruct Hs1 as (_ & Hc1 & _), K2 as (_ & Hc2 & _), K3 as (_ & Hc3 & _), K4 as (_ & Hc4 & _).
  split; [|split; [done|]].
  - unfold transactionIn. f_equal. f_equal; apply bytesFrom_ext; intros; [apply Hc1|apply Hc2].
  - rewrite (Hr1 Hp4), (Hr2 Hp). unfold erasedRange. split.
    + split; intros He i Hi; [rewrite <- Hc3|rewrite Hc3]; auto.
    + split; intros He i Hi; [rewrite <- Hc4|rewrite Hc4]; auto.
Qed.

(** ** Writes *)

(** Nothing but bytes [lo] to [hi] of the partition may have changed. *)
Definition touched (lo hi : Z) (w w' : W) : Prop :=
  stored w' = stored w /\ (forall i, ~ lo <= i < hi -> conn w' i = conn w i) /\
  (powered w = false -> forall i, conn w' i = conn w i) /\
  (powered w' = true -> powered w = true) /\ (healthy w = true -> healthy w' = true).

Lemma same_touched lo hi w w' : same w w' -> touched lo hi w w'.
Proof. intros (? & ? & ? & ?). repeat split; auto. Qed.
#[export] Instance touched_preorder lo hi : PreOrder (touched lo hi).
Proof.
  constructor; [intros w; by repeat split|].
  intros a b c (A1 & A2 & A3 & A4 & A5) (B1 & B2 & B3 & B4 & B5). split; [by rewrite B1|].
  split; [intros i Hi; by rewrite B2, A2|]. split; [|auto].
  intros Ha i. rewrite B3, A3; try done. destruct (powered b) eqn:E; [|done]. rewrite A4 in Ha; done.
Qed.

Lemma consume_run t w (Q : bool -> Replacement.T (W := W) -> Prop) :
  (forall r w', touched 0 8192 w w' ->
     (healthy w = true -> exactMember (Replacement.partition_ t) -> erasedRange (conn w') 0 8192) -> Q r (t, w')) ->
  wp consume Q (t, w).
Proof.
  intros HQ. unfold consume. apply wp_bind. unfold hasExactPartition, member. apply wp_gets. cbn [fst snd].
  destruct (Replacement.partition_ t) as [p|] eqn:Et; [destruct (exactPartition p) eqn:Ex|]; cbn [negb].
  2: apply wp_ret, HQ; [done|]; cbn; congruence.
  2: by apply wp_ret, HQ.
  unfold KITSU_REPLACEMENT_TRANSACTION_BYTES. apply wp_bind, wp_flash.
  destruct (connErase_law 0 8192 w) as (L1 & L2 & L3 & L4 & L5 & L6). set (w1 := snd (connErase 0 8192 w)) in *.
  assert (Ht : touched 0 8192 w w1) by (repeat split; auto; intros; by apply L6).
  destruct (fst (connErase 0 8192 w)) eqn:Er; cbn [negb].
  - apply erasedLoop_run; [lia|lia|by vm_compute|lia|]. intros r w2 Hs Hr. apply HQ.
    + etransitivity; [exact Ht|by apply same_touched].
    + intros Hh _ i Hi. destruct Hs as (_ & Hc & _ & _). rewrite Hc.
      apply L5; [|done|lia]. by apply healthy_powered, L6.
  - apply wp_ret, HQ; [done|]. intros Hh. destruct (L6 Hh). congruence.
Qed.

(** ** Retirement *)

Lemma readChecked_run o n p w (Q : option (list Z) -> E (W := W) -> Prop) :
  0 <= o -> 0 <= n -> o + n <= kLegacyConnectivityPartitionBytes ->
  (forall r w', same w w' ->
     (healthy w = true -> exactMember p -> r = Some (bytesFrom (conn w) o n)) -> Q r (p, w')) ->
  wp (readChecked o n) Q (p, w).
Proof.
  intros Ho Hn Hle HQ. unfold readChecked, exactEsp32Partition. apply wp_bind, wp_gets. cbn [fst].
  rewrite (proj2 (Z.ltb_ge _ _)) by lia. rewrite (proj2 (Z.ltb_ge _ _)) by lia. rewrite !orb_false_r.
  destruct p as [p|]; [destruct (exactPartition p) eqn:Ex|]; cbn [negb].
  2: apply wp_ret, HQ; [done|]; cbn; congruence.
  2: by apply wp_ret, HQ.
  apply wp_idf. destruct (connRead_law o n w) as [Hs Hr]. apply HQ; [done|]. intros Hh _. apply Hr; try done.
  by apply healthy_powered, Hs.
Qed.

Lemma verifyLoop_run n offset seen p w (Q : option bool -> E (W := W) -> Prop) :
  0 <= offset -> offset + 512 * Z.of_nat n = kLegacyConnectivityPartitionBytes ->
  (forall r w', same w w' ->
     (healthy w = true -> exactMember p -> exists b, r = Some b /\
        (b = true <-> seen = true /\ erasedRange (conn w) offset kLegacyConnectivityPartitionBytes)) -> Q r (p, w')) ->
  wp (verifyLoop n offset seen) Q (p, w).
Proof.
  revert offset seen w. induction n as [|n IH]; intros offset seen w Ho Hn HQ; cbn [verifyLoop].
  - apply wp_ret, HQ; [done|]. intros _ _. exists seen. split; [done|]. split; [|by intros [? _]].
    intros Hs. split; [done|]. intros i Hi. lia.
  - unfold kVerificationChunkBytes. apply wp_bind, readChecked_run; [lia|lia|lia|].
    intros [chunk|] w1 Hs1 Hr.
    + apply IH; [lia|lia|]. intros r w2 Hs2 Hr2. apply HQ; [by etransitivity|]. intros Hh Hx.
      specialize (Hr Hh Hx). injection Hr as ->. destruct Hs1 as (_ & Hc & _ & Hh1).
      destruct (Hr2 (Hh1 Hh) Hx) as (b & -> & Hb). exists b. split; [done|]. rewrite Hb, andb_true_iff.
      rewrite erased_bytesFrom by lia. rewrite (erasedRange_split (conn w) offset (offset + 512) kLegacyConnectivityPartitionBytes) by lia.
      assert (He : erasedRange (conn w1) (offset + 512) kLegacyConnectivityPartitionBytes <->
        erasedRange (conn w) (offset + 512) kLegacyConnectivityPartitionBytes).
      { unfold erasedRange. by setoid_rewrite Hc. }
      rewrite He. tauto.
    + apply wp_ret, HQ; [done|]. intros Hh Hx. by specialize (Hr Hh Hx).
Qed.

(** [calm m]: [m] keeps the durable state, and the entries of the name space. *)
Definition calmly (w w' : W) : Prop := same w w' /\ replayEntries w' = replayEntries w.

Lemma clearReplayEntries_run h w :
  same w (snd (clearReplayEntries h w)) /\ (healthy w = true -> fst (fst (clearReplayEntries h w)) = true).
Proof.
  change (wp (clearReplayEntries h) (fun r w' => same w w' /\ (healthy w = true -> fst r = true)) w).
  unfold clearReplayEntries. apply wp_bind. destruct (nvsEraseAll_law h w) as [Hs1 Hh1]. unfold wp at 1.
  destruct (nvsEraseAll h w) as [erased w1]. cbn [fst snd] in *. apply wp_bind.
  apply (wp_mono _ (fun c w2 => same w w2 /\ (healthy w = true -> c = ESP_OK /\ replayEntries w2 = 0))).
  { destruct (ok erased) eqn:Eo.
    - destruct (nvsCommit_law h w1) as (Hs2 & He & Hh2). split; [by etransitivity|]. intros Hh.
      rewrite He. split; [by apply Hh2, Hs1|by apply Hh1].
    - apply wp_ret. split; [done|]. intros Hh. destruct (Hh1 Hh) as [-> _]. done. }
  intros committed w2 [Hs2 Hh2]. apply wp_bind.
  apply (wp_mono _ (fun v w3 => same w w3 /\ (healthy w = true -> v = (ESP_OK, 0)))).
  { destruct (ok committed) eqn:Eo.
    - destruct (nvsUsedEntries_law h w2) as (Hs3 & _ & Hh3). split; [by etransitivity|]. intros Hh.
      destruct (Hh2 Hh) as [_ <-]. by apply Hh3, Hs2.
    - apply wp_ret. split; [done|]. intros Hh. destruct (Hh2 Hh) as [-> _]. done. }
  intros [verified remaining] w3 [Hs3 Hh3]. apply wp_bind. destruct (nvsClose_law h w3) as [Hs4 _].
  unfold wp at 1. apply wp_ret. split; [by etransitivity|]. intros Hh.
  destruct (Hh1 Hh) as [-> _], (Hh2 Hh) as [-> _]. by injection (Hh3 Hh) as -> ->.
Qed.

Lemma clearReplay_run w : same w (snd (clearReplay w)) /\ (healthy w = true -> fst (fst (clearReplay w)) = true).
Proof.
  change (wp clearReplay (fun r w' => same w w' /\ (healthy w = true -> fst r = true)) w).
  unfold clearReplay. apply wp_bind. destruct (nvsOpen_law false w) as (Hs1 & He1 & Hh1). unfold wp at 1.
  destruct (nvsOpen false w) as [[opened h] w1]. cbn [fst snd] in *.
  wp_step; [by apply wp_ret|]. apply bool_decide_eq_false in E. wp_step.
  { apply wp_ret. split; [done|]. intros Hh. destruct (Hh1 Hh) as [Ho|[_ ?]]; [by rewrite Ho in E0|done]. }
  apply wp_bind. destruct (nvsUsedEntries_law h w1) as (Hs2 & He2 & Hh2). unfold wp at 1.
  destruct (nvsUsedEntries h w1) as [[counted used] w2]. cbn [fst snd] in *.
  apply wp_bind. destruct (nvsClose_law h w2) as [Hs3 He3]. unfold wp at 1.
  set (w3 := snd (nvsClose h w2)) in *. assert (K3 : same w w3) by (etransitivity; [|exact Hs3]; by etransitivity).
  wp_step.
  { apply wp_ret. split; [done|]. intros Hh. specialize (Hh2 (proj2 (proj2 (proj2 Hs1)) Hh)).
    injection Hh2 as -> _. done. }
  wp_step; [by apply wp_ret|]. apply wp_bind. destruct (nvsOpen_law true w3) as (Hs4 & He4 & Hh4). unfold wp at 1.
  destruct (nvsOpen true w3) as [[opened2 h2] w4]. cbn [fst snd] in *. assert (K4 : same w w4) by (by etransitivity).
  wp_step.
  { apply wp_ret. split; [done|]. intros Hh. destruct (Hh4 (proj2 (proj2 (proj2 K3)) Hh)) as [Ho|[? _]]; [|done].
    by rewrite Ho in E3. }
  destruct (clearReplayEntries_run h2 w4) as [Hs5 Hh5]. split; [by etransitivity|].
  intros Hh. apply Hh5, K4, Hh.
Qed.

Lemma finishRetirement_run retired p w (Q : _ -> E (W := W) -> Prop) :
  (forall r w', same w w' -> (healthy w = true -> legacyConnectivityRetirementSucceeded r = true) -> Q r (p, w')) ->
  wp (finishRetirement retired) Q (p, w).
Proof.
  intros HQ. apply wp_bind, wp_idf. destruct (clearReplay_run w) as [Hs Hh].
  destruct (fst (clearReplay w)) as [cleared changed]. cbn [fst] in *. destruct cleared; cbn [negb].
  - apply wp_ret, HQ; [done|]. intros _. by destruct (retired || changed).
  - apply wp_ret, HQ; [done|]. intros Hw. by specialize (Hh Hw).
Qed.

Lemma eraseFrom_run o p w (Q : bool -> E (W := W) -> Prop) : 0 <= o ->
  (forall r w', touched o kLegacyConnectivityPartitionBytes w w' ->
     (powered w' = true -> r = true -> erasedRange (conn w') o kLegacyConnectivityPartitionBytes) ->
     (healthy w = true -> exactMember p -> r = true) -> Q r (p, w')) -> wp (eraseFrom o) Q (p, w).
Proof.
  intros Ho HQ. unfold eraseFrom, exactEsp32Partition. apply wp_bind, wp_gets. cbn [fst].
  destruct p as [p|]; [destruct (exactPartition p) eqn:Ex|].
  2: apply wp_ret, HQ; [done|done|]; cbn; congruence.
  2: by apply wp_ret, HQ.
  apply wp_idf. set (n := kLegacyConnectivityPartitionBytes - o).
  destruct (connErase_law o n w) as (L1 & L2 & L3 & L4 & L5 & L6).
  replace (o + n) with kLegacyConnectivityPartitionBytes in * by (unfold n; lia).
  apply HQ; [|done|]; [|intros Hh _; by apply L6]. repeat split; auto; intros; by apply L6.
Qed.

Lemma preserved_cases pr : preservedPrefixBytes pr = 0 \/ preservedPrefixBytes pr = 4096 \/ preservedPrefixBytes pr = 8192.
Proof. destruct pr; auto. Qed.

Lemma eraseRetired_run pr p w (Q : bool -> E (W := W) -> Prop) :
  (forall r w', touched (preservedPrefixBytes pr) kLegacyConnectivityPartitionBytes w w' ->
     (powered w' = true -> r = true -> erasedRange (conn w') (preservedPrefixBytes pr) kLegacyConnectivityPartitionBytes) ->
     (healthy w = true -> exactMember p -> r = true) -> Q r (p, w')) -> wp (eraseRetired pr) Q (p, w).
Proof. destruct pr; apply eraseFrom_run; by vm_compute. Qed.

Lemma runRetirement_run pr p w (Q : _ -> E (W := W) -> Prop) :
  (forall r p' w', touched (preservedPrefixBytes pr) kLegacyConnectivityPartitionBytes w w' ->
     (healthy w = true -> legacyConnectivityRetirementSucceeded r = true /\
        erasedRange (conn w') (preservedPrefixBytes pr) kLegacyConnectivityPartitionBytes) -> Q r (p', w')) ->
  wp (runRetirement pr) Q (p, w).
Proof.
  intros HQ. set (lo := preservedPrefixBytes pr) in *. unfold runRetirement. apply wp_bind.
  unfold inspectPartition, Esp32LegacyConnectivityRetirementPlatform. apply wp_bind, wp_idf.
  destruct (findConn_law w) as [Hs1 Hfound]. set (w1 := snd (findConn w)) in *.
  apply wp_bind, wp_modify, wp_ret. cbn [snd].
  assert (Hx : powered w1 = true -> exactMember (fst (findConn w)))
    by (intros Hp; destruct (Hfound Hp) as (q & -> & ?); done).
  set (q := fst (findConn w)) in *. clearbody q. wp_step.
  { apply wp_ret, HQ; [by apply same_touched|]. intros Hh. pose proof (healthy_powered _ (proj2 (proj2 (proj2 Hs1)) Hh)) as Hp.
    specialize (Hx Hp). destruct q as [q|]; [|done]. cbn in *. by rewrite Hx in E. }
  assert (Hexact : exactMember q) by (destruct q as [q|]; [by apply negb_false_iff in E|done]). clear Hx E.
  fold lo. assert (Hlo : lo = 0 \/ lo = 4096 \/ lo = 8192) by apply preserved_cases.
  assert (Hchunks : lo + 512 * Z.of_nat (verifyChunks lo) = kLegacyConnectivityPartitionBytes).
  { clearbody lo. by destruct Hlo as [->|[->| ->]]. }
  apply wp_bind. apply verifyLoop_run; [lia|done|]. intros before w2 Hs2 Hbefore.
  assert (K2 : same w w2) by (by etransitivity).
  assert (Hh1 : healthy w = true -> healthy w1 = true) by apply Hs1.
  destruct before as [[|]|].
  - apply finishRetirement_run. intros r w3 Hs3 Hr. apply HQ; [apply same_touched; by etransitivity|].
    intros Hh. split; [by apply Hr, K2|]. destruct (Hbefore (Hh1 Hh) Hexact) as (b & [= <-] & Hb).
    destruct (proj1 Hb eq_refl) as [_ He]. intros i Hi. rewrite (proj1 (proj2 Hs3)), (proj1 (proj2 Hs2)). by apply He.
  - apply wp_bind, eraseRetired_run. fold lo. intros erased w3 Ht3 Her Hok.
    assert (K3 : touched lo kLegacyConnectivityPartitionBytes w w3)
      by (etransitivity; [by apply same_touched|exact Ht3]).
    wp_step.
    { apply wp_ret, HQ; [done|]. intros Hh. rewrite (Hok (proj2 (proj2 (proj2 K2)) Hh) Hexact) in E. done. }
    apply negb_false_iff in E. apply wp_bind. apply verifyLoop_run; [lia|done|]. intros after w4 Hs4 Hafter.
    assert (K4 : touched lo kLegacyConnectivityPartitionBytes w w4)
      by (etransitivity; [exact K3|by apply same_touched]).
    assert (Hdone : healthy w = true -> after = Some true /\ erasedRange (conn w3) lo kLegacyConnectivityPartitionBytes).
    { intros Hh. assert (Hh3 : healthy w3 = true) by (by apply K3).
      assert (He : erasedRange (conn w3) lo kLegacyConnectivityPartitionBytes)
        by (apply Her; [by apply healthy_powered|done]).
      destruct (Hafter Hh3 Hexact) as (b & -> & Hb). split; [|done]. f_equal. by apply Hb. }
    destruct after as [[|]|]; [|apply wp_ret, HQ; [done|]; intros Hh; by destruct (Hdone Hh)..].
    apply finishRetirement_run. intros r w5 Hs5 Hr. apply HQ; [etransitivity; [exact K4|by apply same_touched]|].
    intros Hh. split; [by apply Hr, K4|]. destruct (Hdone Hh) as [_ He]. intros i Hi.
    rewrite (proj1 (proj2 Hs5)), (proj1 (proj2 Hs4)). by apply He.
  - apply wp_ret, HQ; [by apply same_touched|]. intros Hh. by destruct (Hbefore (Hh1 Hh) Hexact) as (b & ? & _).
Qed.

(** ** The pack *)

(** The checks of the pack keep the header read, and make nothing valid. *)
Definition packSame (s s' : Pack.P (W := W)) : Prop :=
  header_ (fst s') = header_ (fst s) /\ (valid_ (fst s') = true -> valid_ (fst s) = true) /\ same (snd s) (snd s').
#[export] Instance packSame_preorder : PreOrder packSame.
Proof.
  constructor; [intros s; by repeat split|]. intros a b c (A1 & A2 & A3) (B1 & B2 & B3).
  split; [congruence|]. split; [auto|by etransitivity].
Qed.

Lemma steady_me {A} (f : Pack -> A) : steady packSame (me f).
Proof. intros s. reflexivity. Qed.
Lemma steady_fail reason : steady packSame (fail reason).
Proof. intros s. by repeat split. Qed.
Lemma steady_frameBytes n : steady packSame (set (set_frameBytes n)).
Proof. intros s. by repeat split. Qed.
Lemma steady_readAt o n : steady packSame (readAt o n).
Proof.
  unfold readAt. steady. intros [p w']. unfold world. cbn.
  pose proof (packRead_same o n w') as Hs. by destruct (esp_partition_read o n w').
Qed.
Hint Resolve steady_me steady_fail steady_frameBytes steady_readAt : steady.
Lemma steady_reject reason : steady packSame (reject reason).
Proof. unfold reject. steady. Qed.
Hint Resolve steady_reject : steady.
Lemma steady_readClip i : steady packSame (readClip i).
Proof. unfold readClip. steady. Qed.
Lemma steady_readStep i : steady packSame (readStep i).
Proof. unfold readStep. steady. Qed.
Hint Resolve steady_readClip steady_readStep : steady.
Lemma steady_validateHeader : steady packSame validateHeader.
Proof. unfold validateHeader. steady. Qed.
Lemma steady_payloadLoop n r o c : steady packSame (payloadLoop n r o c).
Proof. revert r o c. induction n as [|n IH]; intros; cbn [payloadLoop]; steady. Qed.
Lemma steady_clipsLoop n i seen : steady packSame (clipsLoop n i seen).
Proof. revert i seen. induction n as [|n IH]; intros; cbn [clipsLoop]; steady. Qed.
Lemma steady_stepsLoop n i : steady packSame (stepsLoop n i).
Proof. revert i. induction n as [|n IH]; intros; cbn [stepsLoop]; steady. Qed.
Hint Resolve steady_validateHeader steady_payloadLoop steady_clipsLoop steady_stepsLoop : steady.
Lemma steady_validatePayload : steady packSame validatePayload.
Proof. unfold validatePayload. steady. Qed.
Lemma steady_validateTables : steady packSame validateTables.
Proof. unfold validateTables. steady. Qed.

(** A valid pack carries the header of the image. *)
Definition carries (p : Pack) : Prop := valid_ p = true -> header_ p = packHeader image.

Lemma packBegin_run p w (Q : bool -> Pack.P (W := W) -> Prop) : valid_ p = false ->
  (forall r p' w', same w w' -> (powered w' = true -> carries p') -> Q r (p', w')) -> wp begin Q (p, w).
Proof.
  intros Hv HQ. unfold begin. apply wp_bind, wp_packWorld. pose proof (findSpiffs_same w) as Hs1.
  pose proof (findSpiffs_size w) as Hsize. set (w1 := snd (findSpiffs w)) in *.
  apply wp_bind, wp_packSet. cbn [fst snd].
  assert (Hno : forall q w', same w w' -> valid_ q = false -> forall r, Q r (q, w')).
  { intros q w' Hs Hq r. apply HQ; [done|]. intros _ Hc. congruence. }
  assert (Hreject : forall reason q w', same w w' -> wp (reject reason) Q (q, w')).
  { intros reason q w' Hs. apply wp_bind, wp_packSet, wp_ret. by apply Hno. }
  destruct (fst (findSpiffs w)) as [size|] eqn:Ef; [|by apply Hreject]. specialize (Hsize size).
  unfold readAt. do 2 apply wp_bind. apply wp_packMember. cbn [fst].
  change (Pack.partition_ (set_partition ?x ?q)) with x. cbn match.
  wp_step; [by apply wp_ret, Hreject|]. apply wp_packWorld. unfold KITSU_PACK_HEADER_BYTES.
  pose proof (packRead_same 0 64 w1) as Hs2. pose proof (packRead_image 0 64 w1) as Himage.
  set (w2 := snd (esp_partition_read 0 64 w1)) in *. assert (K2 : same w w2) by (by etransitivity).
  destruct (fst (esp_partition_read 0 64 w1)) as [h|]; [|by apply Hreject]. specialize (Himage h).
  apply wp_bind, wp_packSet. cbn [fst snd]. wp_step.
  { apply wp_bind, wp_packSet. by apply Hreject. }
  apply wp_bind, wp_packSet. cbn [fst snd]. set (q := set_present true _).
  assert (Hq : header_ q = h /\ valid_ q = false) by done. clearbody q. destruct Hq as [Hh Hq].
  assert (Hstep : forall (m : M (Pack.P (W := W)) bool) (k : bool -> M (Pack.P (W := W)) bool) q w', steady packSame m ->
    header_ q = h -> valid_ q = false -> same w2 w' ->
    (forall r q' w'', header_ q' = h -> valid_ q' = false -> same w2 w'' -> wp (k r) Q (q', w'')) ->
    wp (bind m k) Q (q, w')).
  { intros m k q' w' Hm Hh' Hq' Hs' Hk. apply wp_bind. apply wp_steady with (1 := Hm). intros r [q'' w''] (E1 & E2 & E3).
    cbn in *. apply Hk; [congruence|destruct (valid_ q''); [by rewrite E2 in Hq'|done]|by etransitivity]. }
  apply Hstep; [apply steady_validateHeader|done|done|done|]. intros r1 q1 w3 Hh1 Hq1 Hs3.
  wp_step; [apply wp_ret, Hno; [by etransitivity|done]|].
  apply Hstep; [apply steady_validatePayload|done|done|done|]. intros r2 q2 w4 Hh2 Hq2 Hs4.
  wp_step; [apply wp_ret, Hno; [by etransitivity|done]|].
  apply wp_bind. apply wp_steady with (1 := steady_validateTables). intros r3 [q3 w5] (N1 & N2 & N3). cbn in N1, N2, N3.
  wp_step; [apply wp_ret, Hno; [etransitivity; [exact K2|by etransitivity]|destruct (valid_ q3); [by rewrite N2 in Hq2|done]]|].
  apply wp_bind, wp_packSet, wp_ret. cbn [fst snd]. apply HQ; [etransitivity; [exact K2|by etransitivity]|].
  intros Hp _. cbn. rewrite N1, Hh2. apply Himage; [|done]. by apply Hs4, N3.
Qed.
End Laws.
