(* ===== verification/PackBootSafe.v ===== *)
(** * Replacing a pack survives failures: the start as a whole

    The core record under the laws of [PackBootFacts], one start, and any number of
    starts with failures and power losses. *)

From S2P Require Import Prelude Crc Pack PackFacts CoreState CoreStateFacts Replacement PackBoot PackBootFacts.

Open Scope Z_scope.
Open Scope kitsu_scope.

(** A core record that loads. *)
Definition RecordOk (l : list Z) : Prop := length l = sizeofCoreStateV2 /\ validCoreState (coreOf l) = true.

Lemma record_uid l : RecordOk l -> exists digits,
  cstr (uid (coreOf l)) = bytes_of "KT" ++ digits /\ length digits = 4%nat /\ forallb upperHex digits = true.
Proof.
  intros [Hlen Hv].
  assert (Hu : length (uid (coreOf l)) = 7%nat)
    by (unfold coreOf; cbn [uid]; apply slice_length; unfold sizeofCoreStateV2 in Hlen; lia).
  set (u := uid (coreOf l)) in *. unfold validCoreState in Hv. fold u in Hv. clearbody u.
  destruct u as [|u0 [|u1 [|u2 [|u3 [|u4 [|u5 [|u6 [|? ?]]]]]]]]; try discriminate Hu.
  destruct (_ || _) eqn:Ec in Hv; [done|]. rewrite !orb_false_iff, !negb_false_iff in Ec.
  destruct Ec as ((((((((((((_ & _) & _) & E0) & E1) & E6) & _) & _) & _) & _) & _) & _) & _).
  apply Z.eqb_eq in E0, E1, E6. cbn in E0, E1, E6. subst.
  destruct (forallb upperHex (slice 2 4 _)) eqn:Eh; cbn [negb] in Hv; [|done].
  exists [u2; u3; u4; u5]. change (slice 2 4 [75; 84; u2; u3; u4; u5; 0]) with [u2; u3; u4; u5] in Eh.
  split; [|done]. cbn in Eh. rewrite !andb_true_iff in Eh. destruct Eh as (D0 & D1 & D2 & D3 & _).
  apply upperHex_range in D0, D1, D2, D3.
  apply (cstr_app_nul [75; 84; u2; u3; u4; u5] []). repeat constructor; lia.
Qed.

(** The record of a replacement: the same device, a fresh companion. *)
Definition newRecord (old : list Z) (target : Z) : list Z :=
  coreBytes (coreRecord (replaced target (applyCoreState (coreOf old) core0))).

(** What the globals hold once [old] is loaded. *)
Definition loadedFrom (old : list Z) (g : Core) : Prop :=
  storageReady g = true /\ wispUid g = cstr (uid (coreOf old)) /\ collectiblePackId g = CoreState.packId (coreOf old).

Lemma replaced_ok old target g : RecordOk old -> 0 <= target < 2 ^ 32 -> wispUid g = cstr (uid (coreOf old)) ->
  CoreOk (replaced target g).
Proof.
  intros Hr Ht Hu. constructor; cbn -[Z.pow]; try lia. rewrite Hu. by apply record_uid.
Qed.
Lemma replaced_record old target g : wispUid g = cstr (uid (coreOf old)) ->
  coreBytes (coreRecord (replaced target g)) = newRecord old target.
Proof. intros Hu. unfold newRecord, coreRecord. cbn [replaced wispUid applyCoreState]. by rewrite Hu. Qed.
Lemma newRecord_ok old target : RecordOk old -> 0 <= target < 2 ^ 32 ->
  RecordOk (newRecord old target) /\ CoreState.packId (coreOf (newRecord old target)) = target.
Proof.
  intros Hr Ht. pose proof (replaced_ok old target (applyCoreState (coreOf old) core0) Hr Ht eq_refl) as Hok.
  unfold RecordOk, newRecord. rewrite (saved_back _ Hok).
  split; [split; [by apply coreBytes_length, record_widths|by apply record_valid]|done].
Qed.

Section Safe.
Context {W : Type} `{L : BootLaws W image}.

Lemma wp_global {A} (f : Core -> A) Q (s : C (W := W)) : Q (f (fst s)) s -> wp (global f) Q s.
Proof. done. Qed.
Lemma wp_assign f Q (s : C (W := W)) : Q tt (f (fst s), snd s) -> wp (assign f) Q s.
Proof. done. Qed.

Lemma saveState_run g w (Q : bool -> C (W := W) -> Prop) :
  (forall r w', (forall i, conn w' i = conn w i) -> (powered w' = true -> powered w = true) ->
     (stored w' = stored w \/ powered w = true /\ stored w' = coreBytes (coreRecord g)) ->
     (healthy w = true -> healthy w' = true) ->
     (powered w' = true -> r = true -> CoreOk g -> stored w' = coreBytes (coreRecord g)) ->
     (healthy w = true -> storageReady g = true -> CoreOk g -> r = true /\ stored w' = coreBytes (coreRecord g)) ->
     Q r (g, w')) ->
  wp saveState Q (g, w).
Proof.
  intros HQ. unfold saveState. apply wp_bind, wp_global. cbn [fst].
  destruct (storageReady g) eqn:Er; cbn [negb]; [|apply wp_ret, HQ; auto; congruence].
  apply wp_bind, wp_global. cbn [fst]. set (l := coreBytes (coreRecord g)) in *.
  apply wp_bind, wp_prefs. destruct (putBytes_law l w) as (P1 & P2 & P3 & P4 & P5).
  set (w1 := snd (putBytes l w)) in *.
  assert (Hlen : CoreOk g -> length l = sizeofCoreStateV2) by (intros Hg; by apply coreBytes_length, record_widths).
  assert (Hst : healthy w = true -> stored w1 = l).
  { intros Hh. destruct (P5 Hh) as [Hh1 Hn]. apply P4; [by apply healthy_powered|done]. }
  wp_step.
  { apply wp_ret, HQ; auto; [intros Hh; by apply P5|done|]. intros Hh _ Hg. destruct (P5 Hh) as [_ Hn].
    by rewrite Hn, Hlen, Z.eqb_refl in E. }
  apply wp_bind, wp_prefs. destruct (getBytesLength_law w1) as [Hs2 Hl2]. set (w2 := snd (getBytesLength w1)) in *.
  wp_step.
  { destruct Hs2 as (E1 & E2 & E3 & E4). apply wp_ret, HQ; auto.
    - intros i. by rewrite E2.
    - by rewrite E1.
    - intros Hh. by apply E4, P5.
    - done.
    - intros Hh _ Hg. rewrite Hl2, (Hst Hh), (Hlen Hg), Z.eqb_refl in E0; [done|]. by apply healthy_powered, E4, P5. }
  apply wp_bind, wp_prefs. destruct (getBytes_law w2) as [Hs3 Hl3]. set (w3 := snd (getBytes w2)) in *.
  assert (Hs : same w1 w3) by (by etransitivity). destruct Hs as (E1 & E2 & E3 & E4). apply wp_ret, HQ; auto.
  - intros i. by rewrite E2.
  - by rewrite E1.
  - intros Hh. by apply E4, P5.
  - intros Hp _ Hg. rewrite E1. apply P4; [by apply E3|]. rewrite (Hlen Hg). lia.
  - intros Hh _ Hg. rewrite E1, (Hst Hh). split; [|done].
    rewrite Hl3 by (by apply healthy_powered, E4, P5). destruct Hs2 as (-> & _). rewrite (Hst Hh), (Hlen Hg), beq_refl.
    unfold l. rewrite (saved_back g Hg), (record_valid g Hg). done.
Qed.

Definition sameC (s s' : C (W := W)) : Prop := same (snd s) (snd s').
#[export] Instance sameC_preorder : PreOrder sameC.
Proof. constructor; [intros s|intros a b c ? ?]; unfold sameC in *; [reflexivity|by etransitivity]. Qed.
Lemma steady_prefs {A} (m : M W A) : (forall w, same w (snd (m w))) -> steady sameC (prefs m).
Proof. intros Hm [g w]. unfold prefs, sameC. cbn. specialize (Hm w). by destruct (m w). Qed.
Lemma steady_assign f : steady sameC (assign f).
Proof. intros [g w]. change (same w w). reflexivity. Qed.
Lemma steady_loadLegacy : steady sameC loadLegacy.
Proof.
  unfold loadLegacy. repeat (apply steady_bind; [typeclasses eauto| |intros ?]);
    first [apply steady_prefs; intros; first [apply getNumber_same|apply getText_same]|apply steady_assign
          |unfold when; destruct (_ && _); [apply steady_assign|apply steady_ret; typeclasses eauto]].
Qed.

Lemma loadState_run g w (Q : unit -> C (W := W) -> Prop) : RecordOk (stored w) ->
  (forall g' w', same w w' -> (powered w' = true -> loadedFrom (stored w) g') -> Q tt (g', w')) ->
  wp loadState Q (g, w).
Proof.
  intros Hok HQ. unfold loadState. apply wp_bind, wp_prefs. destruct (prefsBegin_law w) as [Hs1 Hready].
  set (w1 := snd (prefsBegin w)) in *. set (ready := fst (prefsBegin w)) in *. clearbody ready.
  apply wp_bind, wp_assign, wp_bind, wp_prefs. cbn [fst snd]. pose proof (getEfuseMac_same w1) as Hs2.
  set (w2 := snd (getEfuseMac w1)) in *. apply wp_bind, wp_assign. cbn [fst snd].
  assert (K2 : same w w2) by (by etransitivity). assert (Hr : powered w2 = true -> ready = true) by (intros; by apply Hready, Hs2).
  destruct ready; cbn [negb].
  2:{ apply wp_ret, HQ; [done|]. intros Hp. by specialize (Hr Hp). }
  apply wp_bind, wp_prefs. destruct (getBytesLength_law w2) as [Hs3 Hlen]. set (w3 := snd (getBytesLength w2)) in *.
  assert (K3 : same w w3) by (by etransitivity). apply wp_bind.
  apply (wp_mono _ (fun bytes s => fst s = set_uid (uidOf (fst (getEfuseMac w1))) (set_storageReady true g) /\
    same w (snd s) /\ (powered (snd s) = true -> bytes = stored w))).
  { wp_step.
    - apply wp_prefs. destruct (getBytes_law w3) as [Hs4 Hb]. split; [done|]. split; [by etransitivity|].
      intros Hp. rewrite (Hb Hp). apply K3.
    - apply wp_ret. split; [done|]. split; [done|]. intros Hp. cbn in Hp. rewrite (Hlen Hp) in E.
      rewrite (proj1 K2), (proj1 Hok), Z.eqb_refl in E. done. }
  intros bytes [g4 w4] (Hg4 & K4 & Hbytes). cbn [fst snd] in *. subst g4. cbv zeta.
  destruct ((length bytes =? sizeofCoreStateV2)%nat && validCoreState (coreOf bytes)) eqn:Eloaded.
  - do 2 apply wp_bind. apply wp_assign, wp_assign, wp_bind, wp_global. cbn [fst snd negb andb].
    unfold when. apply wp_bind, wp_ret, wp_bind, wp_ret, wp_bind, wp_prefs.
    pose proof (getNumber_same "boots" 0 w4) as Hs5. set (w5 := snd (getNumber "boots" 0 w4)) in *.
    apply wp_bind, wp_assign, wp_prefs. cbn [fst snd]. set (n := u32 _).
    pose proof (putNumber_same "boots" n w5) as Hs6. set (w6 := snd (putNumber "boots" n w5)) in *.
    destruct (fst (putNumber "boots" n w5)).
    apply HQ; [etransitivity; [exact K4|by etransitivity]|]. intros Hp.
    rewrite (Hbytes (proj1 (proj2 (proj2 Hs5)) (proj1 (proj2 (proj2 Hs6)) Hp))). done.
  - assert (Hoff : powered w4 = false).
    { destruct (powered w4); [|done]. rewrite (Hbytes eq_refl), (proj1 Hok), (proj2 Hok) in Eloaded. done. }
    do 2 apply wp_bind. apply wp_prefs. pose proof (getNumber_same "magic" 0 w4) as Hs5.
    set (w5 := snd (getNumber "magic" 0 w4)) in *. apply wp_assign, wp_bind, wp_global. cbn [fst snd].
    apply wp_bind. apply (wp_steady sameC).
    { cbn [negb andb]. unfold when. destruct (negb _); [apply steady_loadLegacy|apply steady_ret; typeclasses eauto]. }
    intros _ [g6 w6] Hs6. unfold sameC in Hs6. cbn [snd] in Hs6. assert (K6 : same w4 w6) by (by etransitivity).
    do 2 apply wp_bind. apply saveState_run. intros r w7 C1 C2 C3 C4 _ _.
    assert (Hoff6 : powered w6 = false).
    { destruct (powered w6) eqn:E6; [|done]. rewrite (proj1 (proj2 (proj2 K6)) E6) in Hoff. done. }
    assert (Hs7 : same w6 w7).
    { split; [destruct C3 as [|[? _]]; [done|congruence]|auto]. }
    apply wp_ret, wp_bind, wp_prefs.
    pose proof (getNumber_same "boots" 0 w7) as Hs8. set (w8 := snd (getNumber "boots" 0 w7)) in *.
    apply wp_bind, wp_assign, wp_prefs. cbn [fst snd]. set (n := u32 _).
    pose proof (putNumber_same "boots" n w8) as Hs9. set (w9 := snd (putNumber "boots" n w8)) in *.
    assert (K9 : same w4 w9) by (etransitivity; [exact K6|etransitivity; [exact Hs7|by etransitivity]]).
    destruct (fst (putNumber "boots" n w8)).
    apply HQ; [by etransitivity|]. intros Hp. by rewrite (proj1 (proj2 (proj2 K9)) Hp) in Hoff.
Qed.
(** ** One start *)

Abbreviation S := (B (W := W)).

Definition FoundIn (c : Z -> Z) (f : Found) : Prop :=
  transaction f = transactionIn c /\ (preparedValid f = true <-> PreparedIn c) /\
  (committedValid f = true <-> CommittedIn c).

Lemma readTransaction_run b w (Q : Found -> S -> Prop) :
  (forall f b' w', same w w' -> core b' = core b -> companionPack b' = companionPack b ->
     (powered w' = true -> FoundIn (conn w) f /\ exactMember (Replacement.partition_ (transactionStorage b'))) ->
     Q f (b', w')) ->
  wp readTransaction Q (b, w).
Proof.
  intros HQ. unfold readTransaction. apply wp_bind, wp_inStorage, beginAndRead_run. intros [readable t] t' w' Hs Ht.
  cbn [fst snd]. apply wp_bind, wp_gets, wp_bind, wp_gets, wp_ret, HQ; [done|done|done|]. intros Hp.
  destruct (Ht Hp) as (E & Hx & Hp1 & Hp2). injection E as -> ->. split; [|exact Hx].
  cbn [fst snd core companionPack transactionStorage set_storage].
  assert (Hprep : preparedSectorCanonical_ t' && companionReplacementIntentValid (bytesFrom (conn w) 0 40) = true <->
    PreparedIn (conn w)) by (rewrite andb_true_iff, Hp1; done).
  split; [done|]. split; [exact Hprep|]. cbn [committedValid transaction prepared transactionIn].
  rewrite !andb_true_iff in *. unfold CommittedIn. rewrite Hp2, <- Hprep. tauto.
Qed.

Lemma retire_run f b w (Q : unit -> S -> Prop) :
  (forall b' w', touched (preservedPrefixBytes (preservationOf f)) kLegacyConnectivityPartitionBytes w w' ->
     core b' = core b -> companionPack b' = companionPack b -> transactionStorage b' = transactionStorage b ->
     (healthy w = true -> legacyConnectivityRetirementReady b' = true) -> Q tt (b', w')) ->
  wp (retire f) Q (b, w).
Proof.
  intros HQ. apply wp_bind, wp_inRetirement, runRetirement_run. intros r p' w' Ht Hh. cbn [fst snd].
  apply wp_modify, HQ; try done. intros Hw. by apply Hh.
Qed.

(** The committed record names the stored companion and exactly the pack in flash. *)
Definition Authorized (c : Z -> Z) (old : list Z) : Prop :=
  let record := bytesFrom c 4096 40 in
  let h := packHeader image in
  CommittedIn c /\ Intent.sourcePackId record = CoreState.packId (coreOf old) /\
  targetMatches record (Header.packId h) (Header.revision h) (Header.totalBytes h)
    (Header.payloadCrc32 h) (Header.headerCrc32 h) = true.

Lemma committed_record c : CommittedIn c -> bytesFrom c 0 40 = bytesFrom c 4096 40 /\
  let record := bytesFrom c 4096 40 in
  Intent.sourcePackId record <> 0 /\ Intent.targetPackId record <> 0 /\
  Intent.sourcePackId record <> Intent.targetPackId record.
Proof.
  intros (_ & _ & Hv). unfold companionReplacementTransactionValid, transactionIn in Hv. cbn [prepared committed] in Hv.
  rewrite !andb_true_iff, beq_eq in Hv. destruct Hv as [[_ Hv] Heq]. split; [done|]. cbv zeta.
  unfold validRecord in Hv. destruct (_ || _) eqn:E in Hv; [done|]. rewrite !orb_false_iff in E. lia.
Qed.

(** The requests a start makes of the partition before it has saved a replacement. *)
Record Before (old : list Z) (c : Z -> Z) (f : Found) (b : Boot) (w : W) : Prop := {
  before_stored : stored w = old;
  before_loaded : powered w = true -> loadedFrom old (core b);
  before_pack : powered w = true -> carries (image := image) (companionPack b);
  before_found : powered w = true -> FoundIn c f;
  before_exact : powered w = true -> exactMember (Replacement.partition_ (transactionStorage b));
}.

Definition target : Z := Header.packId (packHeader image).
Lemma target_range : 0 <= target < 2 ^ 32.
Proof. apply u32_range. Qed.

Lemma matches_authorized old c f b : loadedFrom old (core b) -> carries (image := image) (companionPack b) ->
  FoundIn c f -> valid_ (companionPack b) = true -> transactionMatches f b = true -> Authorized c old.
Proof.
  intros (_ & _ & Hid) Hc (Ht & _ & Hcom) Hv Hm. unfold transactionMatches in Hm. rewrite !andb_true_iff in Hm.
  destruct Hm as (((_ & _) & Hcv) & Ha). unfold companionReplacementTransactionAuthorizes,
    companionReplacementIntentAuthorizes in Ha. rewrite !andb_true_iff in Ha. destruct Ha as (_ & (_ & Hsrc) & Htgt).
  unfold packId, packRevision, packBytes, packPayloadCrc32, packHeaderCrc32 in Htgt. rewrite Hv, (Hc Hv), Ht in Htgt.
  rewrite Ht, Hid in Hsrc. split; [by apply Hcom|]. split; [by apply Z.eqb_eq in Hsrc|exact Htgt].
Qed.

Lemma same_dark w w' : same w w' -> powered w = false -> powered w' = false.
Proof. intros (_ & _ & Hp & _) Hw. destruct (powered w'); [by rewrite Hp in Hw|done]. Qed.

(** How [reconcile] and the clean-up after it may end. *)
Definition Ended (old : list Z) (c : Z -> Z) (w w' : W) (attempted : bool) : Prop :=
  powered w = false /\ stored w' = old /\ (forall i, conn w' i = conn w i) /\ powered w' = false \/
  attempted = true /\ Authorized c old /\
    (stored w' = old /\ (forall i, conn w' i = conn w i) \/ stored w' = newRecord old target) /\
    (healthy w = true -> stored w' = newRecord old target /\ erasedRange (conn w') 0 8192).

Lemma reconcile_run old c f b w (Q : bool -> S -> Prop) :
  RecordOk old -> CoreState.packId (coreOf old) <> 0 -> valid_ (companionPack b) = true -> Before old c f b w ->
  (forall attempted b' w', Ended old c w w' attempted \/
     attempted = false /\ transactionMatches f b = false /\ same w w' /\ core b' = core b /\
       transactionStorage b' = transactionStorage b /\ valid_ (companionPack b') = false -> Q attempted (b', w')) ->
  wp (reconcile f) Q (b, w).
Proof.
  intros Hold Hid Hv [Bs Bl Bp Bf Bx] HQ. unfold reconcile. apply wp_bind, wp_gets. cbn [fst]. change (id b) with b.
  destruct (transactionMatches f b) eqn:Em; [|destruct (collectiblePackId (core b) =? 0) eqn:E0].
  - apply wp_bind, wp_bootHost. pose proof (clearStoredState_same w) as Hs1. set (w1 := snd (clearStoredState w)) in *.
    apply wp_bind, wp_modify. cbn [fst snd]. set (g := replaced (packId (companionPack b)) (core b)).
    apply wp_bind, wp_inCore. apply saveState_run. cbn [core set_core].
    intros r w2 C1 C2 C3 C4 C5 C6. cbn [fst snd].
    assert (Hnew : powered w = true -> coreBytes (coreRecord g) = newRecord old target /\ CoreOk g /\
      storageReady g = true /\ Authorized c old).
    { intros Hp. destruct (Bl Hp) as (L1 & L2 & L3). unfold g, packId. rewrite Hv, (Bp Hp Hv).
      split; [by apply replaced_record|]. split; [by apply (replaced_ok old); [|apply target_range|]|].
      split; [done|]. eapply matches_authorized; eauto. }
    assert (Hc : forall i, conn w2 i = conn w i) by (intros i; rewrite C1; apply Hs1).
    assert (Hst : stored w2 = old \/ powered w = true /\ stored w2 = newRecord old target).
    { destruct C3 as [E|[Hp E]]; [left; by rewrite E, (proj1 Hs1)|right].
      assert (Hp' : powered w = true) by (by apply Hs1). split; [done|]. by rewrite E, (proj1 (Hnew Hp')). }
    assert (Hend : forall b3 w3, touched 0 8192 w2 w3 -> (r = false -> w3 = w2) ->
      (healthy w = true -> exactMember (Replacement.partition_ (transactionStorage b)) -> erasedRange (conn w3) 0 8192) ->
      Q true (b3, w3)).
    { intros b3 w3 (T1 & T2 & T3 & T4 & T5) Hr Her. apply HQ. left.
      destruct (powered w) eqn:Ep; [right|left].
      - destruct (Hnew eq_refl) as (N1 & N2 & N3 & N4). split; [done|]. split; [done|]. split.
        + destruct Hst as [E|[_ E]]; [|right; by rewrite T1].
          destruct (powered w2) eqn:E2.
          * destruct r; [right; rewrite T1, <- N1; by apply C5|]. rewrite (Hr eq_refl). left. by split.
          * left. split; [by rewrite T1|]. intros i. by rewrite T3, Hc.
        + intros Hh. destruct (C6 (proj2 (proj2 (proj2 Hs1)) Hh) N3 N2) as [_ E]. split; [by rewrite T1, E|].
          by apply Her, Bx.
      - assert (E2 : powered w2 = false).
        { destruct (powered w2); [|done]. by rewrite (proj1 (proj2 (proj2 Hs1)) (C2 eq_refl)) in Ep. }
        destruct Hst as [E|[? _]]; [|done]. split; [done|]. split; [by rewrite T1|].
        split; [intros i; by rewrite T3, Hc|]. destruct (powered w3); [by rewrite T4 in E2|done]. }
    apply wp_bind. unfold when. destruct r.
    + apply wp_bind, wp_inStorage, consume_run. intros r3 w3 Ht Her. cbn [fst snd]. apply wp_ret, wp_ret.
      apply Hend; [done|done|]. intros Hh Hx. apply Her; [by apply C4, Hs1|done].
    + apply wp_ret, wp_ret. apply Hend; [done|done|]. intros Hh _.
      destruct (Hnew (healthy_powered _ Hh)) as (N1 & N2 & N3 & _). by destruct (C6 (proj2 (proj2 (proj2 Hs1)) Hh) N3 N2).
  - apply wp_bind, wp_modify. cbn [fst snd]. apply wp_bind, wp_inCore, saveState_run. cbn [core set_core].
    intros r w2 C1 C2 C3 C4 _ _. cbn [fst snd]. apply wp_ret, HQ. left. left.
    assert (Ep : powered w = false).
    { destruct (powered w); [|done]. destruct (Bl eq_refl) as (_ & _ & L3). lia. }
    split; [done|]. split; [destruct C3 as [->|[? _]]; [done|congruence]|]. split; [done|].
    destruct (powered w2); [by rewrite C2 in Ep|done].
  - apply wp_bind, wp_inPack. apply wp_packSet. cbn [fst snd]. apply wp_ret, HQ. by right.
Qed.

(** The clean-up consumes nothing while the record is a retry source. *)
Lemma cleanUp_run old c f b w (Q : unit -> S -> Prop) : Before old c f b w ->
  (forall b' w', touched 0 8192 w w' ->
     (Intent.sourcePackId (bytesFrom c 0 40) = CoreState.packId (coreOf old) ->
        forall i, conn w' i = conn w i) -> Q tt (b', w')) ->
  wp (cleanUp f false) Q (b, w).
Proof.
  intros [Bs Bl Bp Bf Bx] HQ. unfold cleanUp. apply wp_bind, wp_gets. cbn [fst]. change (id b) with b.
  unfold when. wp_step; [|by apply wp_ret, HQ].
  apply wp_bind, wp_inStorage, consume_run. intros r w' Ht _. apply wp_ret, HQ; [done|]. intros Hsrc.
  destruct (powered w) eqn:Ep; [|by apply Ht].
  destruct (Bl eq_refl) as (_ & _ & Hid), (Bf eq_refl) as (Htr & _). rewrite Htr, Hid in E.
  cbn [transactionIn prepared] in E. rewrite Hsrc, Z.eqb_refl, andb_false_r in E. done.
Qed.

(** One start from power-on. *)
Definition bootOnce (w : W) : W := snd (snd (setupCompanion (boot0, w))).

Record StartFacts (old : list Z) (w w' : W) : Prop := {
  start_stored : stored w' = old \/ Authorized (conn w) old /\ stored w' = newRecord old target;
  start_kept : stored w' = old -> Authorized (conn w) old -> forall i, 0 <= i < 8192 -> conn w' i = conn w i;
  start_done : healthy w = true -> Authorized (conn w) old ->
    stored w' = newRecord old target /\ erasedRange (conn w') 0 8192;
}.

Lemma preserved_committed f : committedValid f = true -> preservedPrefixBytes (preservationOf f) = 8192.
Proof. unfold preservationOf. by intros ->. Qed.

Lemma authorized_target c old : Authorized c old ->
  Intent.sourcePackId (bytesFrom c 0 40) = CoreState.packId (coreOf old) /\
  CoreState.packId (coreOf old) <> 0 /\ CoreState.packId (coreOf old) <> target.
Proof.
  intros (Hc & Hs & Ht). destruct (committed_record c Hc) as (Heq & Hsrc & _ & Hne).
  unfold targetMatches in Ht. rewrite !andb_true_iff in Ht. destruct Ht as ((((Ht & _) & _) & _) & _).
  apply Z.eqb_eq in Ht. unfold target. rewrite Heq, <- Hs, <- Ht. done.
Qed.

Lemma authorized_matches c old f b : loadedFrom old (core b) -> carries (image := image) (companionPack b) ->
  FoundIn c f -> valid_ (companionPack b) = true -> legacyConnectivityRetirementReady b = true ->
  Authorized c old -> transactionMatches f b = true.
Proof.
  intros (_ & _ & Hid) Hc (Ht & _ & Hcom) Hv Hr Ha. pose proof (authorized_target _ _ Ha) as (_ & Hnz & _).
  destruct Ha as (Hcm & Hs & Htgt). pose proof Hcm as (_ & _ & Htv).
  unfold transactionMatches, packId, packRevision, packBytes, packPayloadCrc32, packHeaderCrc32.
  rewrite Hv, (Hc Hv), Ht, Hid, Hr. rewrite (proj2 (Z.eqb_neq _ 0)) by done. rewrite (proj2 Hcom) by done. cbn [negb andb].
  unfold companionReplacementTransactionAuthorizes, companionReplacementIntentAuthorizes.
  rewrite Htv. cbn [transactionIn committed andb]. rewrite Hs, Z.eqb_refl, Htgt, !andb_true_r.
  unfold companionReplacementTransactionValid in Htv. rewrite !andb_true_iff in Htv. apply Htv.
Qed.

Lemma finish_facts old w f b w5 : RecordOk old -> CoreState.packId (coreOf old) <> 0 ->
  Before old (conn w) f b w5 ->
  (Authorized (conn w) old -> forall i, 0 <= i < 8192 -> conn w5 i = conn w i) ->
  (healthy w = true -> healthy w5 = true /\ valid_ (companionPack b) = true /\ legacyConnectivityRetirementReady b = true) ->
  wp (b <- look id ;;
      attempted <- (if valid_ (companionPack b) && negb (collectiblePackId (core b) =? packId (companionPack b))
                    then reconcile f else ret false) ;;
      cleanUp f attempted) (fun _ s => StartFacts old w (snd s)) (b, w5).
Proof.
  intros Hold Hid Hb Hkept Hhealthy. apply wp_bind, wp_gets. cbn [fst]. change (id b) with b.
  assert (Hclean : forall b6 w6, Before old (conn w) f b6 w6 ->
    (Authorized (conn w) old -> forall i, 0 <= i < 8192 -> conn w6 i = conn w i) ->
    ~ (healthy w = true /\ Authorized (conn w) old) ->
    wp (cleanUp f false) (fun _ s => StartFacts old w (snd s)) (b6, w6)).
  { intros b6 w6 Hb6 Hk6 Hno. apply (cleanUp_run old (conn w)); [done|]. intros b7 w7 Ht7 Hc7. cbn [snd].
    assert (Hst : stored w7 = old) by (rewrite (proj1 Ht7); apply Hb6). constructor; [by left| |tauto].
    intros _ Ha i Hi. rewrite Hc7 by (apply authorized_target, Ha). by apply Hk6. }
  destruct (valid_ (companionPack b)) eqn:Ev; cbn [andb].
  2:{ apply wp_bind, wp_ret, Hclean; [done|done|]. intros [Hh _]. by destruct (Hhealthy Hh) as (_ & ? & _). }
  destruct (collectiblePackId (core b) =? packId (companionPack b)) eqn:Ee; cbn [negb].
  { apply wp_bind, wp_ret, Hclean; [done|done|]. intros [Hh Ha]. destruct (Hhealthy Hh) as (Hh5 & _).
    destruct Hb as [_ Bl Bp _ _]. specialize (Bl (healthy_powered _ Hh5)). specialize (Bp (healthy_powered _ Hh5)).
    destruct (authorized_target _ _ Ha) as (_ & _ & Hne). apply Z.eqb_eq in Ee. destruct Bl as (_ & _ & Bid).
    unfold packId in Ee. rewrite Ev, (Bp Ev), Bid in Ee. done. }
  apply wp_bind, (reconcile_run old (conn w)); [done|done|done|done|].
  intros attempted b6 w6 [[(Hp & Hst & Hc & Hp6)|(-> & Ha & Hst & Hdone)]|(-> & Hm & Hs & Hcore & Hstor & Hv6)].
  - assert (Hno : ~ (healthy w = true /\ Authorized (conn w) old)).
    { intros [Hh _]. destruct (Hhealthy Hh) as (Hh5 & _). apply healthy_powered in Hh5. congruence. }
    assert (Hk6 : Authorized (conn w) old -> forall i, 0 <= i < 8192 -> conn w6 i = conn w i)
      by (intros Ha i Hi; rewrite Hc; by apply Hkept).
    destruct attempted; [|apply Hclean; [constructor; try done; congruence|done|done]].
    unfold cleanUp. apply wp_bind, wp_gets, wp_ret. cbn [snd]. constructor; [by left|auto|tauto].
  - unfold cleanUp. apply wp_bind, wp_gets, wp_ret. cbn [snd]. constructor.
    + destruct Hst as [[? _]|?]; [by left|by right].
    + intros Hold6 _ i Hi. destruct Hst as [[_ Hc]|Hnew]; [rewrite Hc; by apply Hkept|].
      destruct (newRecord_ok old target Hold target_range) as [_ Hpk]. rewrite <- Hnew, Hold6 in Hpk.
      by destruct (authorized_target _ _ Ha) as (_ & _ & Hne).
    + intros Hh _. by apply Hdone, Hhealthy.
  - apply Hclean.
    + destruct Hb as [Bs Bl Bp Bf Bx]. destruct Hs as (S1 & S2 & S3 & _). constructor.
      * by rewrite S1.
      * intros Hp. rewrite Hcore. auto.
      * intros Hp Hv. congruence.
      * auto.
      * intros Hp. rewrite Hstor. auto.
    + intros Ha i Hi. rewrite (proj1 (proj2 Hs)). by apply Hkept.
    + intros [Hh Ha]. destruct (Hhealthy Hh) as (Hh5 & _ & Hr). apply healthy_powered in Hh5.
      destruct Hb as [Bs Bl Bp Bf Bx]. rewrite (authorized_matches (conn w) old) in Hm; auto. done.
Qed.

Lemma begin_post w : let s := snd (begin (pack0, w)) in
  same w (snd s) /\ (powered (snd s) = true -> carries (image := image) (fst s)).
Proof. by apply (packBegin_run pack0 w (fun _ s => same w (snd s) /\ (powered (snd s) = true -> carries (image := image) (fst s)))). Qed.

Lemma setup_facts old w : RecordOk old -> CoreState.packId (coreOf old) <> 0 -> stored w = old ->
  StartFacts old w (bootOnce w).
Proof.
  intros Hold Hid Hw. change (wp setupCompanion (fun _ s => StartFacts old w (snd s)) (boot0, w)).
  unfold setupCompanion. apply wp_bind, readTransaction_run. intros f b1 w1 Hs1 Hc1 Hp1 Hf1. cbn in Hc1, Hp1.
  apply wp_bind, retire_run. intros b2 w2 Ht2 Hc2 Hp2 Hst2 Hr2.
  apply wp_bind, wp_bootHost. pose proof (preparePairing_same w2) as Hs2'. set (w2' := snd (preparePairingStorage w2)) in *.
  assert (Ht2' : touched (preservedPrefixBytes (preservationOf f)) kLegacyConnectivityPartitionBytes w1 w2')
    by (etransitivity; [exact Ht2|by apply same_touched]).
  clearbody w2'. clear Hs2' Ht2. rename Ht2' into Ht2.
  apply wp_bind, wp_inCore, loadState_run; [by rewrite (proj1 Ht2), (proj1 Hs1), Hw|].
  intros g3 w3 Hs3 Hl3. rewrite (proj1 Ht2), (proj1 Hs1), Hw in Hl3. cbn [fst snd].
  apply wp_bind, wp_bootHost. pose proof (startOthers_same w3) as Hs4. set (w4 := snd (startOthers w3)) in *.
  apply wp_bind, wp_inPack. cbn [companionPack set_core]. rewrite Hp2, Hp1.
  pose proof (pack_accepted w4) as Haccept. destruct (begin_post w4) as [Hs5 Hp5]. unfold wp at 1.
  set (p5 := fst (snd (begin (pack0, w4)))) in *. set (w5 := snd (snd (begin (pack0, w4)))) in *.
  assert (K5 : same w2' w5) by (etransitivity; [exact Hs3|by etransitivity]).
  assert (Hup : powered w5 = true -> powered w1 = true) by (intros Hp; by apply Ht2, K5).
  apply finish_facts; [done|done| | |].
  - constructor; cbn [core companionPack transactionStorage set_pack set_core].
    + change (stored w5 = old). by rewrite (proj1 K5), (proj1 Ht2), (proj1 Hs1).
    + intros Hp. apply Hl3. by apply Hs4, Hs5.
    + done.
    + intros Hp. by apply Hf1, Hup.
    + intros Hp. rewrite Hst2. by apply Hf1, Hup.
  - intros Ha i Hi. rewrite (proj1 (proj2 K5)). transitivity (conn w1 i); [|apply Hs1].
    destruct Ht2 as (_ & T2 & T3 & _). destruct (powered w1) eqn:E1; [|by apply T3].
    destruct (Hf1 eq_refl) as [(_ & _ & Hcom) _]. apply T2. rewrite preserved_committed by apply Hcom, Ha. lia.
  - intros Hh. assert (Hh1 : healthy w1 = true) by (by apply Hs1). assert (Hh2 : healthy w2' = true) by (by apply Ht2).
    split; [by apply K5|]. cbn. split; [apply Haccept; by apply Hs4, Hs3|by apply Hr2].
Qed.

(** ** Any number of starts *)

(** Power returns with the flash as it was left. *)
Definition restarted (w w' : W) : Prop := stored w' = stored w /\ forall i, conn w' i = conn w i.

Inductive starts : W -> W -> Prop :=
  | starts_none w : starts w w
  | starts_again w w1 w2 : restarted (bootOnce w) w1 -> starts w1 w2 -> starts w w2.

Lemma authorized_ext c c' old : (forall i, 0 <= i < 8192 -> c' i = c i) -> Authorized c old -> Authorized c' old.
Proof.
  intros Hc (Ha & Hs & Ht). unfold Authorized.
  rewrite (bytesFrom_ext c' c) by (intros; apply Hc; lia). split; [|done].
  eapply committed_ext; [|exact Ha]. intros i Hi. by rewrite Hc.
Qed.

(** C10: The stored companion is replaced by a start only when both replacement
    sectors hold the same valid record with nothing after it, and the record names
    the stored companion and exactly the pack in flash (identity, revision, size and
    both checksums); the record saved is then that of a fresh companion of the new
    pack.  This holds whatever writes fail and wherever power is lost. *)
Theorem replacement_authorized w : RecordOk (stored w) -> CoreState.packId (coreOf (stored w)) <> 0 ->
  stored (bootOnce w) <> stored w ->
  Authorized (conn w) (stored w) /\ stored (bootOnce w) = newRecord (stored w) target.
Proof.
  intros Hr Hid Hne. destruct (start_stored _ _ _ (setup_facts (stored w) w Hr Hid eq_refl)) as [?|?]; done.
Qed.

(** Pending, with the sectors [c]; or done. *)
Definition settled (old : list Z) (c : Z -> Z) (w : W) : Prop :=
  stored w = old /\ (forall i, 0 <= i < 8192 -> conn w i = c i) \/ stored w = newRecord old target.

Lemma done_stays old w : RecordOk old -> target <> 0 -> stored w = newRecord old target ->
  stored (bootOnce w) = newRecord old target.
Proof.
  intros Hold Htz Hw. destruct (newRecord_ok old target Hold target_range) as [Hnew Hpk].
  destruct (start_stored _ _ _ (setup_facts _ w Hnew ltac:(by rewrite Hpk) Hw)) as [?|[Hau _]]; [done|].
  destruct (authorized_target _ _ Hau) as (_ & _ & Hne). congruence.
Qed.

Lemma starts_settled old c w w1 : RecordOk old -> Authorized c old -> target <> 0 -> starts w w1 ->
  settled old c w -> settled old c w1.
Proof.
  intros Hold Ha Htz Hstarts. induction Hstarts as [w|w w1 w2 [Hr1 Hr2] _ IH]; [done|]. intros Hw. apply IH.
  destruct Hw as [[Hw Hc]|Hw]; [|right; rewrite Hr1; by apply done_stays].
  assert (Haw : Authorized (conn w) old) by (by apply (authorized_ext c)).
  pose proof (setup_facts old w Hold (proj1 (proj2 (authorized_target _ _ Ha))) Hw) as [F1 F2 _].
  destruct F1 as [F1|[_ F1]]; [left|right; by rewrite Hr1].
  split; [by rewrite Hr1|]. intros i Hi. rewrite Hr2, F2; auto.
Qed.

(** C11: A committed replacement survives interruption: after any number of starts,
    each with arbitrary write failures and power losses, either the old companion is
    stored and both replacement sectors are as the flasher left them, or the new one
    is stored; and a start in which nothing fails stores the new companion and, if it
    was pending, erases the sectors. *)
Theorem replacement_survives old w w1 : RecordOk old -> stored w = old -> Authorized (conn w) old ->
  starts w w1 ->
  (stored w1 = old /\ (forall i, 0 <= i < 8192 -> conn w1 i = conn w i) \/ stored w1 = newRecord old target) /\
  (healthy w1 = true -> stored (bootOnce w1) = newRecord old target /\
     (stored w1 = old -> erasedRange (conn (bootOnce w1)) 0 8192)).
Proof.
  intros Hold Hst Ha Hstarts. destruct (authorized_target _ _ Ha) as (_ & Hid & Hne).
  assert (Htz : target <> 0).
  { destruct Ha as (Hc & _ & Ht). destruct (committed_record _ Hc) as (_ & _ & Htz & _).
    unfold targetMatches in Ht. rewrite !andb_true_iff in Ht. unfold target. lia. }
  assert (Hw1 : settled old (conn w) w1) by (apply (starts_settled old (conn w) w); try done; by left).
  split; [exact Hw1|]. intros Hh. destruct Hw1 as [[Hw Hc]|Hw].
  - assert (Ha1 : Authorized (conn w1) old) by (by apply (authorized_ext (conn w))).
    destruct (start_done _ _ _ (setup_facts old w1 Hold Hid Hw) Hh Ha1). done.
  - split; [by apply done_stays|]. intros Hw'. destruct (newRecord_ok old target Hold target_range) as [_ Hpk].
    rewrite <- Hw, Hw' in Hpk. done.
Qed.

(** A start whose NVS does not open loads no identity, so the pack counts as a first
    one and the record of a pending replacement as stale: the retry source is erased
    while the old companion is still stored. *)
Theorem record_lost_without_nvs f b w : healthy w = true -> valid_ (companionPack b) = true ->
  collectiblePackId (core b) = 0 -> storageReady (core b) = false ->
  legacyConnectivityRetirementReady b = true -> preparedValid f = true ->
  packId (companionPack b) <> 0 -> Intent.sourcePackId (prepared (transaction f)) <> packId (companionPack b) ->
  exactMember (Replacement.partition_ (transactionStorage b)) ->
  wp (attempted <- reconcile f ;; cleanUp f attempted)
     (fun _ s => stored (snd s) = stored w /\ erasedRange (conn (snd s)) 0 8192) (b, w).
Proof.
  intros Hh Hv Hid Hst Hr Hf Hnz Hsrc Hx. unfold reconcile. apply wp_bind, wp_bind, wp_gets. cbn [fst].
  change (id b) with b. unfold transactionMatches at 1. rewrite Hid, Z.eqb_refl. cbn [negb andb].
  apply wp_bind, wp_modify, wp_bind, wp_inCore. cbn [fst snd core set_core]. unfold saveState.
  apply wp_bind, wp_global. cbn [fst firstAssigned storageReady]. rewrite Hst. cbn [negb]. apply wp_ret, wp_ret.
  unfold cleanUp. apply wp_bind, wp_gets. cbn [fst snd]. change (id ?x) with x.
  cbn [core set_core legacyConnectivityRetirementReady collectiblePackId firstAssigned negb andb]. rewrite Hr, Hf.
  rewrite (proj2 (Z.eqb_neq _ _)) by done. cbn [negb andb]. unfold when.
  apply wp_bind, wp_inStorage, consume_run. intros r w' Ht He. apply wp_ret. split; [apply Ht|by apply He].
Qed.
End Safe.
