(* ===== verification/PackBootSim.v ===== *)
(** * A simulated start-up for [PackBoot]

    The core record, the retired partition and the number of writes before power
    fails; the pack partition holds the example of [PackFacts]. *)

From S2P Require Import Prelude Crc Pack PackFacts CoreState Replacement PackBoot CoreStateFacts PackBootFacts PackBootSafe.

Open Scope Z_scope.

(** [None]: nothing fails; [Some n]: power fails after [n] more writes. *)
Record Dev := mkDev { d_core : list Z; d_conn : Z -> Z; d_writes : option nat }.

Definition d_powered (d : Dev) : bool := match d_writes d with Some O => false | _ => true end.
Definition d_healthy (d : Dev) : bool := match d_writes d with None => true | _ => false end.
Definition spend (n : option nat) : option nat := option_map Nat.pred n.

#[export] Instance simPack : PackPlatform Dev := {
  findSpiffs := fun d => (Some (Z.of_nat (length exampleImage)), d);
  esp_partition_read o n := fun d => (Some (slice (Z.to_nat o) (Z.to_nat n) exampleImage), d);
  esp_random := fun d => (4, d);
}.
#[export] Instance simPrefs : CorePrefs Dev := {
  prefsBegin := fun d => (true, d);
  getEfuseMac := fun d => (0x0a1f, d);
  putBytes l := fun d =>
    if d_powered d then (Z.of_nat (length l), mkDev l (d_conn d) (spend (d_writes d))) else (0, d);
  getBytesLength := fun d => (Z.of_nat (length (d_core d)), d);
  getBytes := fun d => (d_core d, d);
  getNumber key default := fun d => (default, d);
  getText key := fun d => ([], d);
  putNumber key v := fun d => (tt, d);
}.
#[export] Instance simConn : ConnFlash Dev := {
  findConn := fun d =>
    (Some (mkPartition kLegacyConnectivityPartitionLabel 1 0x40 0x7b0000 kLegacyConnectivityPartitionBytes), d);
  connRead o n := fun d => (Some (bytesFrom (d_conn d) o n), d);
  connErase o n := fun d =>
    if d_powered d
    then (true, mkDev (d_core d) (fun i => if (o <=? i) && (i <? o + n) then 0xff else d_conn d i) (spend (d_writes d)))
    else (false, d);
}.
#[export] Instance simNvs : ReplayNvs Dev := {
  nvsOpen rw := fun d => ((if rw : bool then ESP_OK else ESP_ERR_NVS_NOT_FOUND, 1), d);
  nvsUsedEntries h := fun d => ((ESP_OK, 0), d);
  nvsEraseAll h := fun d => (ESP_OK, d);
  nvsCommit h := fun d => (ESP_OK, d);
  nvsClose h := fun d => (tt, d);
}.
#[export] Instance simHost : BootHost Dev := {
  clearStoredState := fun d => (true, d);
  preparePairingStorage := fun d => (tt, d);
  startOthers := fun d => (tt, d);
}.

Lemma sim_accepted d : valid_ (fst (snd (begin (pack0, d)))) = true.
Proof. vm_compute. reflexivity. Qed.

Lemma spend_powered d l c : d_powered (mkDev l c (spend (d_writes d))) = true -> d_powered d = true.
Proof. destruct d as [? ? [[|n]|]]; done. Qed.
Lemma healthy_spent d l c : d_healthy d = true -> d_healthy (mkDev l c (spend (d_writes d))) = true.
Proof. destruct d as [? ? [n|]]; done. Qed.
Lemma sim_healthy d : d_healthy d = true -> d_powered d = true.
Proof. destruct d as [? ? [n|]]; done. Qed.

#[export] Instance simLaws : BootLaws Dev exampleImage.
Proof.
  refine {| stored := d_core; conn := d_conn; powered := d_powered; healthy := d_healthy; replayEntries _ := 0 |};
    try (intros; cbn; by repeat split).
  - exact sim_healthy.
  - intros w n _. cbn [fst findSpiffs simPack]. congruence.
  - intros o n w l _. cbn [fst esp_partition_read simPack]. congruence.
  - intros l w. cbn. destruct (d_powered w) eqn:Ep; cbn; split_and!; try done.
    + by right.
    + intros Hh. split; [by apply healthy_spent|done].
    + congruence.
    + by left.
    + congruence.
    + intros Hh%sim_healthy. congruence.
  - intros w. split; [by repeat split|]. intros _. eexists. split; [reflexivity|]. by vm_compute.
  - intros o n w. cbn. destruct (d_powered w) eqn:Ep; cbn; split_and!; try done.
    + intros i Hi. destruct (Z.leb_spec o i), (Z.ltb_spec i (o + n)); try done; lia.
    + intros _ _ i Hi. by rewrite (proj2 (Z.leb_le _ _)), (proj2 (Z.ltb_lt _ _)) by lia.
    + intros Hh. split; [by apply healthy_spent|done].
    + congruence.
    + intros Hh%sim_healthy. congruence.
  - intros b w. split_and!; try done. intros _. destruct b; [by left|by right].
Defined.

(** ** A pending replacement, interrupted once *)

(** The stored companion is the one of pack 0xAAAA. *)
Definition exampleOld : list Z :=
  Eval vm_compute in coreBytes (coreRecord (mkGlobals (bytes_of "KT0A1F") 61 20 33 412 9 true 0xAAAA 0x8001 0x0f0f 0xff 3 true false)).
Definition exampleIntent : list Z :=
  Eval vm_compute in
    let h := packHeader exampleImage in
    let body crc := kIntentMagic ++ put16 KITSU_REPLACEMENT_INTENT_SCHEMA ++ put16 sizeofIntent ++ put32 0xAAAA ++
      put32 (Header.packId h) ++ put32 (Header.revision h) ++ put32 (Header.totalBytes h) ++
      put32 (Header.payloadCrc32 h) ++ put32 (Header.headerCrc32 h) ++ put32 crc in
    body (companionReplacementIntentCrc32 (body 0)).

(** Both sectors hold the record; the rest of the partition is erased. *)
Definition exampleSectors (i : Z) : Z :=
  if (0 <=? i) && (i <? 40) then nth (Z.to_nat i) exampleIntent 0
  else if (4096 <=? i) && (i <? 4136) then nth (Z.to_nat (i - 4096)) exampleIntent 0 else 0xff.

Lemma exampleSectors_erased a b : (40 <= a /\ b <= 4096) \/ 4136 <= a -> erasedRange exampleSectors a b.
Proof.
  intros Hab i Hi. unfold exampleSectors.
  destruct (Z.leb_spec 0 i), (Z.ltb_spec i 40), (Z.leb_spec 4096 i), (Z.ltb_spec i 4136); try lia; done.
Qed.
Lemma exampleOld_ok : RecordOk exampleOld /\ CoreState.packId (coreOf exampleOld) <> 0.
Proof. split; [split; by vm_compute|by vm_compute]. Qed.
Lemma exampleSectors_authorized : Authorized (image := exampleImage) exampleSectors exampleOld.
Proof.
  split; [|by vm_compute]. split; [split; [apply exampleSectors_erased; lia|by vm_compute]|].
  split; [apply exampleSectors_erased; lia|by vm_compute].
Qed.

(** Power fails after one write: after the unused part of the partition is erased. *)
Definition exampleStart : Dev := mkDev exampleOld exampleSectors (Some 1%nat).
Definition powerReturns (d : Dev) : Dev := mkDev (d_core d) (d_conn d) None.
Definition exampleSecond : Dev := powerReturns (bootOnce exampleStart).

Lemma sim_restarted (d : Dev) : restarted (image := exampleImage) d (powerReturns d).
Proof. by split. Qed.
Lemma sim_returned (d : Dev) : healthy (image := exampleImage) (powerReturns d) = true.
Proof. done. Qed.

Lemma replacement_survives_witness :
  starts (image := exampleImage) exampleStart exampleSecond /\
  stored (image := exampleImage) (bootOnce exampleSecond) = newRecord exampleOld (target (image := exampleImage)).
Proof.
  assert (Hs : starts (image := exampleImage) exampleStart exampleSecond)
    by exact (starts_again _ exampleSecond _ (sim_restarted (bootOnce exampleStart)) (starts_none _)).
  split; [exact Hs|].
  exact (proj1 (proj2 (replacement_survives exampleOld exampleStart exampleSecond (proj1 exampleOld_ok) eq_refl
    exampleSectors_authorized Hs) (sim_returned (bootOnce exampleStart)))).
Defined.

Definition exampleSteadyStart : Dev := mkDev exampleOld exampleSectors None.
Lemma sim_replaced : stored (image := exampleImage) (bootOnce exampleSteadyStart) <> exampleOld.
Proof.
  pose proof (setup_facts (image := exampleImage) exampleOld exampleSteadyStart) as Hstart.
  destruct (start_done _ _ _ (Hstart (proj1 exampleOld_ok) (proj2 exampleOld_ok) eq_refl)
    (sim_returned (mkDev exampleOld exampleSectors None)) exampleSectors_authorized) as [Hnew _].
  rewrite Hnew. intros E%(f_equal (fun l => CoreState.packId (coreOf l))).
  rewrite (proj2 (newRecord_ok exampleOld _ (proj1 exampleOld_ok) (target_range (image := exampleImage)))) in E.
  by vm_compute in E.
Qed.

Lemma replacement_authorized_witness :
  stored (image := exampleImage) (bootOnce exampleSteadyStart) <> exampleOld /\
  Authorized (image := exampleImage) exampleSectors exampleOld.
Proof.
  split; [exact sim_replaced|].
  exact (proj1 (replacement_authorized (image := exampleImage) exampleSteadyStart
    (proj1 exampleOld_ok) (proj2 exampleOld_ok) sim_replaced)).
Defined.
