(* ===== verification/Clock.v ===== *)
(** * Wall clock (src/src/kitsu_clock.h, kitsu_clock.cpp)

    The calendar, the ISO-8601 and decimal texts, class KitsuClock and the one-button
    editor.  A C string is the list of its bytes, which ends where the list or a NUL
    ends; sources and trusts are cast from stored bytes and stay numbers; signed
    arithmetic is far inside its width and written without wrap-around. *)

From S2P Require Import Prelude Crc.

Open Scope Z_scope.
Open Scope kitsu_scope.

Definition kMinimumClockUnixSeconds : Z := 1704067200.
Definition kMaximumClockUnixSeconds : Z := 4102444800.
Definition kMinimumUtcOffsetMinutes : Z := -840.
Definition kMaximumUtcOffsetMinutes : Z := 840.
Definition kClockIso8601BufferBytes : Z := 30.
Definition kClockSnapshotSchemaVersion : Z := 1.
Definition kClockSnapshotBytes : Z := 32.

(** [enum class ClockSource : uint8_t] *)
Definition SourceNone : Z := 0.
Definition ManualSerial : Z := 1.
Definition ManualDevice : Z := 2.
Definition NetworkTime : Z := 3.
Definition AuthenticatedApp : Z := 4.

(** [enum class ClockTrust : uint8_t] *)
Definition Unset : Z := 0.
Definition RestoredStale : Z := 1.
Definition Trusted : Z := 2.

Inductive ClockResult :=
  | ClockOk | NotSet | InvalidArgument | InvalidSource | InvalidIso8601 | InvalidUnixText
  | OutOfRange | NetworkTimeNotSynchronized | MonotonicDiscontinuity | BadSnapshotMagic
  | UnsupportedSnapshot | CorruptSnapshot | InvalidSnapshot.
#[export] Instance ClockResult_eq_dec : EqDecision ClockResult.
Proof. solve_decision. Defined.

Record ParsedIso8601 := mkParsed { p_unixSeconds : Z; p_millisecond : Z; p_utcOffsetMinutes : Z }.
Record NetworkTimeSample := mkSample { n_unixSeconds : Z; n_millisecond : Z; n_synchronized : bool }.
Record ClockReading := mkReading {
  r_unixSeconds : Z;
  r_millisecond : Z;
  r_utcOffsetMinutes : Z;
  r_source : Z;
  r_trust : Z;
  r_monotonicHealthy : bool;
}.

(** ** Ranges *)

Definition validSource (source : Z) : bool := (ManualSerial <=? source) && (source <=? AuthenticatedApp).
Definition validDirectSource (source : Z) : bool :=
  (source =? ManualSerial) || (source =? ManualDevice) || (source =? AuthenticatedApp).
Definition validOffset (offset : Z) : bool :=
  (kMinimumUtcOffsetMinutes <=? offset) && (offset <=? kMaximumUtcOffsetMinutes).
Definition validInstant (unixSeconds millisecond : Z) : bool :=
  if (unixSeconds <? kMinimumClockUnixSeconds) || (kMaximumClockUnixSeconds <? unixSeconds) || (999 <? millisecond)
  then false
  else negb (unixSeconds =? kMaximumClockUnixSeconds) || (millisecond =? 0).

(** ** Calendar *)

Definition leapYear (year : Z) : bool :=
  (year mod 4 =? 0) && (negb (year mod 100 =? 0) || (year mod 400 =? 0)).
Definition kDays : list Z := [31; 28; 31; 30; 31; 30; 31; 31; 30; 31; 30; 31].
Definition monthDays (year month : Z) : Z :=
  if (month <? 1) || (12 <? month) then 0
  else if (month =? 2) && leapYear year then 29
  else byte_at kDays (Z.to_nat (month - 1)).

(** Signed division truncates. *)
Definition daysFromCivil (year0 month day : Z) : Z :=
  let year := year0 - (if month <=? 2 then 1 else 0) in
  let era := Z.quot (if 0 <=? year then year else year - 399) 400 in
  let yearOfEra := u32 (year - era * 400) in
  let adjustedMonth := if 2 <? month then u32 (month - 3) else u32 (month + 9) in
  let dayOfYear := u32 (u32 (153 * adjustedMonth + 2) / 5 + day - 1) in
  let dayOfEra := u32 (yearOfEra * 365 + yearOfEra / 4 - yearOfEra / 100 + dayOfYear) in
  era * 146097 + dayOfEra - 719468.

Definition civilFromDays (days0 : Z) : Z * Z * Z :=
  let days := days0 + 719468 in
  let era := Z.quot (if 0 <=? days then days else days - 146096) 146097 in
  let dayOfEra := u32 (days - era * 146097) in
  let yearOfEra := u32 (dayOfEra - dayOfEra / 1460 + dayOfEra / 36524 - dayOfEra / 146096) / 365 in
  let dayOfYear := u32 (dayOfEra - u32 (365 * yearOfEra + yearOfEra / 4 - yearOfEra / 100)) in
  let monthPrime := u32 (5 * dayOfYear + 2) / 153 in
  let day := u8 (dayOfYear - u32 (153 * monthPrime + 2) / 5 + 1) in
  let resultMonth := monthPrime + (if monthPrime <? 10 then 3 else -9) in
  let resultYear := yearOfEra + era * 400 + (if resultMonth <=? 2 then 1 else 0) in
  (u16 resultYear, u8 resultMonth, day).

Record Civil := mkCivil {
  c_year : Z; c_month : Z; c_day : Z; c_hour : Z; c_minute : Z; c_second : Z;
}.

Definition civilToUnix (c : Civil) (utcOffsetMinutes : Z) : option Z :=
  if (c_month c <? 1) || (12 <? c_month c) || (c_day c <? 1) || (monthDays (c_year c) (c_month c) <? c_day c) ||
     (23 <? c_hour c) || (59 <? c_minute c) || (59 <? c_second c) || negb (validOffset utcOffsetMinutes)
  then None
  else
    let localSeconds := daysFromCivil (c_year c) (c_month c) (c_day c) * 86400 +
      c_hour c * 3600 + c_minute c * 60 + c_second c in
    let utcSeconds := localSeconds - utcOffsetMinutes * 60 in
    if utcSeconds <? 0 then None else Some utcSeconds.

Definition unixToCivil (unixSeconds utcOffsetMinutes : Z) : Civil :=
  let localSeconds := unixSeconds + utcOffsetMinutes * 60 in
  let days0 := Z.quot localSeconds 86400 in
  let second0 := Z.rem localSeconds 86400 in
  let days := if second0 <? 0 then days0 - 1 else days0 in
  let secondsOfDay := if second0 <? 0 then second0 + 86400 else second0 in
  let '(year, month, day) := civilFromDays days in
  mkCivil year month day (u8 (Z.quot secondsOfDay 3600)) (u8 (Z.quot (Z.rem secondsOfDay 3600) 60))
    (u8 (Z.rem (Z.rem secondsOfDay 3600) 60)).

(** ** Texts *)

Definition isDigit (b : Z) : bool := (48 <=? b) && (b <=? 57).
(** [*cursor == '\0'] *)
Definition atEnd (cursor : list Z) : bool := match cursor with [] => true | b :: _ => b =? 0 end.

Fixpoint digitsLoop (count : nat) (value : Z) (cursor : list Z) : option (Z * list Z) :=
  match count with
  | O => Some (value, cursor)
  | S count' =>
      match cursor with
      | digit :: cursor' =>
          if isDigit digit then digitsLoop count' (u32 (value * 10 + (digit - 48))) cursor' else None
      | [] => None
      end
  end.
Definition parseDigits (count : nat) (cursor : list Z) : option (Z * list Z) := digitsLoop count 0 cursor.
Definition consume (expected : Z) (cursor : list Z) : option (list Z) :=
  match cursor with
  | b :: cursor' => if b =? expected then Some cursor' else None
  | [] => None
  end.

(** The digits of a fraction, at most three. *)
Fixpoint fractionLoop (digits : nat) (millisecond : Z) (cursor : list Z) : option (nat * Z * list Z) :=
  match cursor with
  | b :: cursor' =>
      if isDigit b
      then if (3 <=? digits)%nat then None
           else fractionLoop (S digits) (u16 (millisecond * 10 + (b - 48))) cursor'
      else Some (digits, millisecond, cursor)
  | [] => Some (digits, millisecond, cursor)
  end.
Definition parseFraction (cursor : list Z) : option (Z * list Z) :=
  match cursor with
  | 46 :: cursor' =>
      '(digits, millisecond, rest) ← fractionLoop 0 0 cursor';
      if (digits =? 0)%nat then None
      else Some (Nat.iter (3 - digits) (fun ms => u16 (ms * 10)) millisecond, rest)
  | _ => Some (0, cursor)
  end.

Definition parseZone (cursor : list Z) : option (Z * list Z) :=
  match cursor with
  | 90 :: cursor' => Some (0, cursor')
  | sign :: cursor' =>
      if (sign =? 43) || (sign =? 45) then
        '(offsetHour, c1) ← parseDigits 2 cursor';
        c2 ← consume 58 c1;
        '(offsetMinute, c3) ← parseDigits 2 c2;
        if (14 <? offsetHour) || (59 <? offsetMinute) || ((offsetHour =? 14) && negb (offsetMinute =? 0))
        then None
        else
          let magnitude := offsetHour * 60 + offsetMinute in
          Some (if sign =? 45 then - magnitude else magnitude, c3)
      else None
  | [] => None
  end.

(** The fields of the text, in its order. *)
Definition parseFields (cursor : list Z) : option (Civil * Z * Z) :=
  '(year, c1) ← parseDigits 4 cursor; c2 ← consume 45 c1;
  '(month, c3) ← parseDigits 2 c2; c4 ← consume 45 c3;
  '(day, c5) ← parseDigits 2 c4; c6 ← consume 84 c5;
  '(hour, c7) ← parseDigits 2 c6; c8 ← consume 58 c7;
  '(minute, c9) ← parseDigits 2 c8; c10 ← consume 58 c9;
  '(second, c11) ← parseDigits 2 c10;
  '(millisecond, c12) ← parseFraction c11;
  '(offsetMinutes, c13) ← parseZone c12;
  if negb (atEnd c13) || (UINT16_MAX <? year) || (255 <? month) || (255 <? day) || (255 <? hour) ||
     (255 <? minute) || (255 <? second)
  then None else Some (mkCivil year month day hour minute second, millisecond, offsetMinutes).

Definition parseIso8601 (input : option (list Z)) : ClockResult + ParsedIso8601 :=
  match input with
  | None => inl InvalidIso8601
  | Some cursor =>
      match parseFields cursor with
      | None => inl InvalidIso8601
      | Some (civil, millisecond, offsetMinutes) =>
          match civilToUnix civil offsetMinutes with
          | None => inl InvalidIso8601
          | Some unixSeconds =>
              if negb (validInstant unixSeconds millisecond) then inl OutOfRange
              else inr (mkParsed unixSeconds millisecond offsetMinutes)
          end
      end
  end.

Fixpoint unixTextLoop (candidate : Z) (cursor : list Z) : ClockResult + Z :=
  match cursor with
  | [] => inr candidate
  | b :: cursor' =>
      if b =? 0 then inr candidate
      else if negb (isDigit b) then inl InvalidUnixText
      else
        let digit := u8 (b - 48) in
        if (2 ^ 64 - 1 - digit) / 10 <? candidate then inl OutOfRange
        else unixTextLoop (u64 (candidate * 10 + digit)) cursor'
  end.
Definition parseUnixText (input : option (list Z)) : ClockResult + Z :=
  match input with
  | None => inl InvalidUnixText
  | Some text =>
      if atEnd text then inl InvalidUnixText
      else
        match unixTextLoop 0 text with
        | inl e => inl e
        | inr candidate => if negb (validInstant candidate 0) then inl OutOfRange else inr candidate
        end
  end.

(** [printf("%0<width>u")]: ten digits hold any 32-bit value. *)
Fixpoint decimalLoop (fuel : nat) (n : Z) (text : list Z) : list Z :=
  match fuel with
  | O => text
  | S fuel' => if n <? 10 then (48 + n) :: text else decimalLoop fuel' (n / 10) ((48 + n mod 10) :: text)
  end.
Definition padded (width : nat) (n : Z) : list Z :=
  let text := decimalLoop 10 n [] in replicate (width - length text) 48 ++ text.

(** The text in the buffer; it is empty unless the result is [ClockOk]. *)
Definition formatIso8601 (unixSeconds millisecond utcOffsetMinutes : Z) (outputBytes : option Z)
  : ClockResult * list Z :=
  match outputBytes with
  | None => (InvalidArgument, [])
  | Some outputBytes =>
      if outputBytes =? 0 then (InvalidArgument, [])
      else if negb (validOffset utcOffsetMinutes) || negb (validInstant unixSeconds millisecond)
      then (OutOfRange, [])
      else
        let c := unixToCivil unixSeconds utcOffsetMinutes in
        let stamp := padded 4 (c_year c) ++ [45] ++ padded 2 (c_month c) ++ [45] ++ padded 2 (c_day c) ++ [84] ++
          padded 2 (c_hour c) ++ [58] ++ padded 2 (c_minute c) ++ [58] ++ padded 2 (c_second c) in
        let fraction := if millisecond =? 0 then [] else [46] ++ padded 3 millisecond in
        let magnitude := u16 (Z.abs utcOffsetMinutes) in
        let zone :=
          if utcOffsetMinutes =? 0 then [90]
          else [if utcOffsetMinutes <? 0 then 45 else 43] ++ padded 2 (magnitude / 60) ++ [58] ++
               padded 2 (magnitude mod 60) in
        let text := stamp ++ fraction ++ zone in
        if outputBytes <=? Z.of_nat (length text) then (InvalidArgument, []) else (ClockOk, text)
  end.

(** ** Snapshot *)

Record ClockSnapshot := mkSnapshot {
  s_magic : Z;
  s_schemaVersion : Z;
  s_bytes : Z;
  s_source : Z;
  s_savedTrust : Z;
  s_generation : Z;
  s_millisecond : Z;
  s_utcOffsetMinutes : Z;
  s_unixSeconds : Z;
  s_reserved : list Z;
  s_crc32 : Z;
}.
Definition kSnapshotMagic : Z := 0x314C434B.

(** The packed record before its checksum; [int16_t] in two's complement. *)
Definition snapshotPrefix (s : ClockSnapshot) : list Z :=
  put32 (s_magic s) ++ [s_schemaVersion s; s_bytes s; s_source s; s_savedTrust s] ++ put32 (s_generation s) ++
  put16 (s_millisecond s) ++ put16 (u16 (s_utcOffsetMinutes s)) ++
  put32 (s_unixSeconds s) ++ put32 (Z.shiftr (s_unixSeconds s) 32) ++ s_reserved s.
Definition snapshotBytes (s : ClockSnapshot) : list Z := snapshotPrefix s ++ put32 (s_crc32 s).
Definition s16 (v : Z) : Z := if v <? 2 ^ 15 then v else v - 2 ^ 16.
Definition snapshotOf (l : list Z) : ClockSnapshot :=
  mkSnapshot (get32 l) (byte_at l 4) (byte_at l 5) (byte_at l 6) (byte_at l 7) (get32 (drop 8 l))
    (get16 (drop 12 l)) (s16 (get16 (drop 14 l)))
    (get32 (drop 16 l) + 2 ^ 32 * get32 (drop 20 l)) (slice 24 4 l) (get32 (drop 28 l)).
Definition snapshotCrc (s : ClockSnapshot) : Z := crc32 (snapshotPrefix s).

Definition validateSnapshot (s : ClockSnapshot) : ClockResult :=
  if negb (s_magic s =? kSnapshotMagic) then BadSnapshotMagic
  else if negb (s_schemaVersion s =? kClockSnapshotSchemaVersion) || negb (s_bytes s =? kClockSnapshotBytes)
  then UnsupportedSnapshot
  else if negb (s_crc32 s =? snapshotCrc s) then CorruptSnapshot
  else if negb (validSource (s_source s)) ||
          (negb (s_savedTrust s =? Trusted) && negb (s_savedTrust s =? RestoredStale)) ||
          negb (validInstant (s_unixSeconds s) (s_millisecond s)) || negb (validOffset (s_utcOffsetMinutes s)) ||
          negb (beq (s_reserved s) [0; 0; 0; 0])
  then InvalidSnapshot
  else ClockOk.

Definition generationAfter (candidate reference : Z) : bool := 0 <? s32 (candidate - reference).

(** ** Class KitsuClock *)

Record Clock := mkClock {
  unixSeconds_ : Z;
  millisecond_ : Z;
  utcOffsetMinutes_ : Z;
  lastMillis_ : Z;
  restoredGeneration_ : Z;
  source_ : Z;
  trust_ : Z;
  lastResult_ : ClockResult;
  monotonicHealthy_ : bool;
}.

(** The members after [reset]. *)
Definition clock0 : Clock := mkClock 0 0 0 0 0 SourceNone Unset NotSet false.

(** [lastResult_ = r; return lastResult_;] *)
Definition report (r : ClockResult) : M Clock ClockResult := fun c =>
  (r, mkClock (unixSeconds_ c) (millisecond_ c) (utcOffsetMinutes_ c) (lastMillis_ c) (restoredGeneration_ c)
        (source_ c) (trust_ c) r (monotonicHealthy_ c)).
Definition isSet (c : Clock) : bool := negb (trust_ c =? Unset).
Definition trusted (c : Clock) : bool := trust_ c =? Trusted.

Definition reset : M Clock unit := modify (fun _ => clock0).

(** An anchor: the time is [unixSeconds] and [millisecond] now. *)
Definition anchored (unixSeconds millisecond source utcOffsetMinutes nowMillis generation trust : Z) : M Clock unit :=
  modify (fun c => mkClock unixSeconds millisecond utcOffsetMinutes nowMillis generation source trust
    (lastResult_ c) true).

Definition setAnchor (unixSeconds millisecond source utcOffsetMinutes nowMillis : Z) : M Clock ClockResult :=
  if negb (validDirectSource source) then report InvalidSource
  else if negb (validOffset utcOffsetMinutes) then report OutOfRange
  else if negb (validInstant unixSeconds millisecond) then report OutOfRange
  else
    generation <- gets restoredGeneration_ ;;
    anchored unixSeconds millisecond source utcOffsetMinutes nowMillis generation Trusted ;;;
    report ClockOk.

Definition setFromIso8601 (input : option (list Z)) (source nowMillis : Z) : M Clock ClockResult :=
  if negb (validDirectSource source) then report InvalidSource
  else
    match parseIso8601 input with
    | inl e => report e
    | inr parsed =>
        setAnchor (p_unixSeconds parsed) (p_millisecond parsed) source (p_utcOffsetMinutes parsed) nowMillis
    end.

Definition setFromUnixText (input : option (list Z)) (source utcOffsetMinutes nowMillis : Z)
  : M Clock ClockResult :=
  if negb (validDirectSource source) then report InvalidSource
  else
    match parseUnixText input with
    | inl e => report e
    | inr unixSeconds => setAnchor unixSeconds 0 source utcOffsetMinutes nowMillis
    end.

Definition setFromUnixSeconds (unixSeconds millisecond source utcOffsetMinutes nowMillis : Z)
  : M Clock ClockResult := setAnchor unixSeconds millisecond source utcOffsetMinutes nowMillis.

Definition acceptNtp (sample : NetworkTimeSample) (nowMillis : Z) : M Clock ClockResult :=
  if negb (n_synchronized sample) then report NetworkTimeNotSynchronized
  else if negb (validInstant (n_unixSeconds sample) (n_millisecond sample)) then report OutOfRange
  else
    c <- gets id ;;
    anchored (n_unixSeconds sample) (n_millisecond sample) NetworkTime (utcOffsetMinutes_ c) nowMillis
      (restoredGeneration_ c) Trusted ;;;
    report ClockOk.

Definition set_utcOffset (minutes : Z) (c : Clock) : Clock :=
  mkClock (unixSeconds_ c) (millisecond_ c) minutes (lastMillis_ c) (restoredGeneration_ c)
    (source_ c) (trust_ c) (lastResult_ c) (monotonicHealthy_ c).
Definition setUtcOffsetMinutes (utcOffsetMinutes : Z) : M Clock ClockResult :=
  if negb (validOffset utcOffsetMinutes) then report OutOfRange
  else modify (set_utcOffset utcOffsetMinutes) ;;; report ClockOk.

(** The time is moved on; [distrust] also gives up its trust. *)
Definition set_time (unixSeconds millisecond nowMillis : Z) (c : Clock) : Clock :=
  mkClock unixSeconds millisecond (utcOffsetMinutes_ c) nowMillis (restoredGeneration_ c)
    (source_ c) (trust_ c) (lastResult_ c) (monotonicHealthy_ c).
Definition distrust (c : Clock) : Clock :=
  mkClock (unixSeconds_ c) (millisecond_ c) (utcOffsetMinutes_ c) (lastMillis_ c) (restoredGeneration_ c)
    (source_ c) RestoredStale (lastResult_ c) false.

Definition INT32_MAX : Z := 2147483647.

Definition advance (nowMillis : Z) : M Clock ClockResult :=
  c <- gets id ;;
  if negb (isSet c) then report NotSet
  else
    let delta := u32 (nowMillis - lastMillis_ c) in
    if INT32_MAX <? delta then
      modify (fun c => distrust (set_time (unixSeconds_ c) (millisecond_ c) nowMillis c)) ;;;
      report MonotonicDiscontinuity
    else
      let totalMilliseconds := u64 (millisecond_ c + delta) in
      let addedSeconds := totalMilliseconds / 1000 in
      let nextMillisecond := u16 (totalMilliseconds mod 1000) in
      if (u64 (kMaximumClockUnixSeconds - unixSeconds_ c) <? addedSeconds) ||
         ((u64 (unixSeconds_ c + addedSeconds) =? kMaximumClockUnixSeconds) && negb (nextMillisecond =? 0))
      then
        modify (fun c => distrust (set_time kMaximumClockUnixSeconds 0 nowMillis c)) ;;;
        report OutOfRange
      else
        modify (set_time (u64 (unixSeconds_ c + addedSeconds)) nextMillisecond nowMillis) ;;;
        report ClockOk.

Definition reading (c : Clock) : ClockReading :=
  mkReading (if isSet c then unixSeconds_ c else 0) (if isSet c then millisecond_ c else 0)
    (utcOffsetMinutes_ c) (source_ c) (trust_ c) (monotonicHealthy_ c).
Definition read (nowMillis : Z) : M Clock (ClockResult * ClockReading) :=
  result <- advance nowMillis ;;
  output <- gets reading ;;
  ret (result, output).

Definition snapshotAt (generation : Z) (c : Clock) : ClockSnapshot :=
  let s crc := mkSnapshot kSnapshotMagic kClockSnapshotSchemaVersion kClockSnapshotBytes (source_ c) (trust_ c)
    generation (millisecond_ c) (utcOffsetMinutes_ c) (unixSeconds_ c) [0; 0; 0; 0] crc in
  s (snapshotCrc (s 0)).
(** The snapshot is [None] when the caller's record is left alone. *)
Definition makeSnapshot (nowMillis generation : Z) : M Clock (ClockResult * option ClockSnapshot) :=
  advanced <- advance nowMillis ;;
  if negb (bool_decide (advanced = ClockOk)) then ret (advanced, None)
  else
    candidate <- gets (snapshotAt generation) ;;
    result <- report ClockOk ;;
    ret (result, Some candidate).

Definition restore (s : ClockSnapshot) (nowMillis : Z) : M Clock ClockResult :=
  let valid := validateSnapshot s in
  if negb (bool_decide (valid = ClockOk)) then report valid
  else
    anchored (s_unixSeconds s) (s_millisecond s) (s_source s) (s_utcOffsetMinutes s) nowMillis (s_generation s)
      RestoredStale ;;;
    report ClockOk.

(** ** Class OneButtonClockEditor *)

Definition kClockEditorMinimumYear : Z := 2024.
Definition kClockEditorMaximumYear : Z := 2099.
Definition kClockEditorMinimumOffsetMinutes : Z := -720.
Definition kClockEditorMaximumOffsetMinutes : Z := 840.
Definition kClockEditorOffsetStepMinutes : Z := 15.

Inductive ClockEditorField :=
  | FieldInactive | FieldYear | FieldMonth | FieldDay | FieldHour | FieldMinute | FieldUtcOffset | FieldReview.
#[export] Instance ClockEditorField_eq_dec : EqDecision ClockEditorField.
Proof. solve_decision. Defined.
Inductive ClockEditorEvent := EditIgnored | EditChanged | EditAdvanced | CommitRequested.
#[export] Instance ClockEditorEvent_eq_dec : EqDecision ClockEditorEvent.
Proof. solve_decision. Defined.

Record ClockEditorView := mkView {
  v_active : bool;
  v_commitReady : bool;
  v_field : ClockEditorField;
  v_year : Z;
  v_month : Z;
  v_day : Z;
  v_hour : Z;
  v_minute : Z;
  v_utcOffsetMinutes : Z;
}.
Definition view0 : ClockEditorView := mkView false false FieldInactive kClockEditorMinimumYear 1 1 0 0 0.

Definition cancel : M ClockEditorView unit := modify (fun _ => view0).

Definition editorBegin (seedUnixSeconds utcOffsetMinutes : Z) : M ClockEditorView ClockResult :=
  if negb (validOffset utcOffsetMinutes) || negb (validInstant seedUnixSeconds 0)
  then cancel ;;; ret OutOfRange
  else
    let c := unixToCivil seedUnixSeconds utcOffsetMinutes in
    if (c_year c <? kClockEditorMinimumYear) || (kClockEditorMaximumYear <? c_year c) ||
       (utcOffsetMinutes <? kClockEditorMinimumOffsetMinutes) ||
       (kClockEditorMaximumOffsetMinutes <? utcOffsetMinutes)
    then cancel ;;; ret OutOfRange
    else
      modify (fun _ => mkView true false FieldYear (c_year c) (c_month c) (c_day c) (c_hour c) (c_minute c)
        utcOffsetMinutes) ;;;
      ret ClockOk.

Definition clampDay (v : ClockEditorView) : ClockEditorView :=
  let maximum := monthDays (v_year v) (v_month v) in
  mkView (v_active v) (v_commitReady v) (v_field v) (v_year v) (v_month v)
    (if maximum <? v_day v then maximum else v_day v) (v_hour v) (v_minute v) (v_utcOffsetMinutes v).

Definition set_commit (b : bool) (v : ClockEditorView) : ClockEditorView :=
  mkView (v_active v) b (v_field v) (v_year v) (v_month v) (v_day v) (v_hour v) (v_minute v) (v_utcOffsetMinutes v).
Definition set_field (f : ClockEditorField) (v : ClockEditorView) : ClockEditorView :=
  mkView (v_active v) (v_commitReady v) f (v_year v) (v_month v) (v_day v) (v_hour v) (v_minute v)
    (v_utcOffsetMinutes v).
Definition set_date (year month day : Z) (v : ClockEditorView) : ClockEditorView :=
  mkView (v_active v) (v_commitReady v) (v_field v) year month day (v_hour v) (v_minute v) (v_utcOffsetMinutes v).
Definition set_clock (hour minute utcOffsetMinutes : Z) (v : ClockEditorView) : ClockEditorView :=
  mkView (v_active v) (v_commitReady v) (v_field v) (v_year v) (v_month v) (v_day v) hour minute utcOffsetMinutes.

(** One press on the selected field: the members after it. *)
Definition bump (v : ClockEditorView) : ClockEditorView :=
  match v_field v with
  | FieldYear =>
      clampDay (set_date (if kClockEditorMaximumYear <=? v_year v then kClockEditorMinimumYear
                          else u16 (v_year v + 1)) (v_month v) (v_day v) v)
  | FieldMonth => clampDay (set_date (v_year v) (if 12 <=? v_month v then 1 else u8 (v_month v + 1)) (v_day v) v)
  | FieldDay =>
      set_date (v_year v) (v_month v)
        (if monthDays (v_year v) (v_month v) <=? v_day v then 1 else u8 (v_day v + 1)) v
  | FieldHour =>
      set_clock (if 23 <=? v_hour v then 0 else u8 (v_hour v + 1)) (v_minute v) (v_utcOffsetMinutes v) v
  | FieldMinute =>
      set_clock (v_hour v) (if 59 <=? v_minute v then 0 else u8 (v_minute v + 1)) (v_utcOffsetMinutes v) v
  | FieldUtcOffset =>
      set_clock (v_hour v) (v_minute v)
        (if kClockEditorMaximumOffsetMinutes - kClockEditorOffsetStepMinutes <? v_utcOffsetMinutes v
         then kClockEditorMinimumOffsetMinutes
         else v_utcOffsetMinutes v + kClockEditorOffsetStepMinutes) v
  | FieldReview => set_field FieldYear v
  | FieldInactive => v
  end.
Definition bumpEvent (f : ClockEditorField) : ClockEditorEvent :=
  match f with FieldReview => EditAdvanced | FieldInactive => EditIgnored | _ => EditChanged end.

Definition shortPress : M ClockEditorView ClockEditorEvent :=
  active <- gets v_active ;;
  if negb active then ret EditIgnored
  else
    modify (set_commit false) ;;;
    field <- gets v_field ;;
    modify bump ;;;
    ret (bumpEvent field).

(** [static_cast<ClockEditorField>(static_cast<uint8_t>(field) + 1U)] *)
Definition nextField (f : ClockEditorField) : ClockEditorField :=
  match f with
  | FieldInactive => FieldYear | FieldYear => FieldMonth | FieldMonth => FieldDay | FieldDay => FieldHour
  | FieldHour => FieldMinute | FieldMinute => FieldUtcOffset | FieldUtcOffset => FieldReview
  | FieldReview => FieldReview
  end.

Definition longPress : M ClockEditorView ClockEditorEvent :=
  active <- gets v_active ;;
  if negb active then ret EditIgnored
  else
    field <- gets v_field ;;
    match field with
    | FieldReview => modify (set_commit true) ;;; ret CommitRequested
    | FieldInactive => ret EditIgnored
    | _ => modify (fun v => set_field (nextField field) (set_commit false v)) ;;; ret EditAdvanced
    end.

Definition value (v : ClockEditorView) : option (Z * Z) :=
  if negb (v_active v) || negb (v_commitReady v) || negb (bool_decide (v_field v = FieldReview)) then None
  else
    candidate ← civilToUnix (mkCivil (v_year v) (v_month v) (v_day v) (v_hour v) (v_minute v) 0)
                  (v_utcOffsetMinutes v);
    if negb (validInstant candidate 0) then None else Some (candidate, v_utcOffsetMinutes v).
