(* ===== verification/ClockCalendar.v ===== *)
(** * The calendar of [Clock] is the Gregorian one

    The arithmetic day conversions against a reference that counts days one by one,
    on every day the clock can show, and the conversions of instants. *)

From S2P Require Import Prelude Clock.

Open Scope Z_scope.

Lemma date_eq (y m d y' m' d' : Z) : y = y' -> m = m' -> d = d' -> (y, m, d) = (y', m', d').
Proof. by intros -> -> ->. Qed.

(** The day after a date. *)
Definition nextDay (date : Z * Z * Z) : Z * Z * Z :=
  let '(year, month, day) := date in
  if day <? monthDays year month then (year, month, day + 1)
  else if month <? 12 then (year, month + 1, 1) else (year + 1, 1, 1).
Definition dateOk (date : Z * Z * Z) : bool :=
  let '(year, month, day) := date in
  (1 <=? month) && (month <=? 12) && (1 <=? day) && (day <=? monthDays year month).
Definition sameDate (a b : Z * Z * Z) : bool :=
  let '(y1, m1, d1) := a in let '(y2, m2, d2) := b in (y1 =? y2) && (m1 =? m2) && (d1 =? d2).

Lemma sameDate_eq a b : sameDate a b = true <-> a = b.
Proof.
  destruct a as [[y1 m1] d1], b as [[y2 m2] d2]. unfold sameDate. rewrite !andb_true_iff, !Z.eqb_eq.
  split; [intros [[-> ->] ->]|intros [= -> -> ->]]; done.
Qed.

(** The days of the clock: 2000-03-01 to 2100-02-28, one century of an era. *)
Definition firstDay : Z := 11017.
Definition lastDay : Z := 47540.

(** A day of the century is a year of it, that starts on 1 March, and a day of that
    year; only the years before a leap day have 366. *)
Lemma year_split k : 0 <= k < 36524 ->
  let yoe := (k - k / 1460 + k / 36524 - k / 146096) / 365 in
  let doy := k - (365 * yoe + yoe / 4 - yoe / 100) in
  0 <= yoe <= 99 /\ yoe / 100 = 0 /\ 0 <= doy <= 365 /\ (doy = 365 -> yoe mod 4 = 3 /\ yoe <> 99).
Proof.
  intros Hk. rewrite (Z.div_small k 36524), (Z.div_small k 146096) by lia. rewrite Z.add_0_r, Z.sub_0_r.
  intros yoe doy. assert (Hy : 0 <= yoe <= 99) by (unfold yoe; Z.to_euclidean_division_equations; lia).
  assert (Hc : yoe / 100 = 0) by (apply Z.div_small; lia). unfold doy. rewrite Hc, Z.sub_0_r.
  split; [done|]. split; [done|]. unfold yoe in *. Z.to_euclidean_division_equations; lia.
Qed.

(** A day of such a year is a month and a day of that month. *)
Definition monthStart (mp : Z) : Z := (153 * mp + 2) / 5.
Lemma month_split doy : 0 <= doy <= 365 ->
  let mp := (5 * doy + 2) / 153 in
  0 <= mp <= 11 /\ monthStart mp <= doy < monthStart (mp + 1).
Proof. intros Hd mp. unfold monthStart, mp. Z.to_euclidean_division_equations; lia. Qed.
Lemma month_unique doy mp : 0 <= mp <= 11 -> monthStart mp <= doy < monthStart (mp + 1) ->
  (5 * doy + 2) / 153 = mp.
Proof. unfold monthStart. intros. Z.to_euclidean_division_equations; lia. Qed.
Lemma year_unique k yoe doy : 0 <= yoe <= 99 -> 0 <= doy <= 365 -> (doy = 365 -> yoe mod 4 = 3 /\ yoe <> 99) ->
  k = 365 * yoe + yoe / 4 - yoe / 100 + doy ->
  0 <= k < 36524 /\ (k - k / 1460 + k / 36524 - k / 146096) / 365 = yoe.
Proof.
  intros Hy Hd Hl ->. rewrite (Z.div_small yoe 100), Z.sub_0_r by lia. set (k := 365 * yoe + yoe / 4 + doy).
  assert (Hk : 0 <= k < 36524) by (unfold k; Z.to_euclidean_division_equations; lia).
  split; [done|]. rewrite (Z.div_small k 36524), (Z.div_small k 146096), Z.add_0_r, Z.sub_0_r by lia.
  unfold k in *. Z.to_euclidean_division_equations; lia.
Qed.

(** The date of year [yoe], month [mp] and day [d] of the century. *)
Definition dateOf (yoe mp d : Z) : Z * Z * Z :=
  if mp <? 10 then (2000 + yoe, mp + 3, d) else (2001 + yoe, mp - 9, d).

Lemma civilFromDays_century k : 0 <= k < 36524 ->
  let yoe := (k - k / 1460 + k / 36524 - k / 146096) / 365 in
  let doy := k - (365 * yoe + yoe / 4 - yoe / 100) in
  let mp := (5 * doy + 2) / 153 in
  civilFromDays (firstDay + k) = dateOf yoe mp (doy - monthStart mp + 1).
Proof.
  intros Hk yoe doy mp. destruct (year_split k Hk) as (Hy & Hc & Hd & _). fold yoe in Hy, Hc, Hd. fold doy in Hd.
  destruct (month_split doy Hd) as [Hm Hs]. fold mp in Hm, Hs. unfold civilFromDays, firstDay.
  replace (11017 + k + 719468) with (5 * 146097 + k) by lia. rewrite (proj2 (Z.leb_le _ _)) by lia.
  replace (Z.quot (5 * 146097 + k) 146097) with 5
    by (rewrite Z.quot_div_nonneg, Z.div_add_l, Z.div_small by lia; lia).
  replace (5 * 146097 + k - 5 * 146097) with k by lia. rewrite (u32_id k) by lia.
  rewrite (u32_id (k - k / 1460 + k / 36524 - k / 146096)) by (Z.to_euclidean_division_equations; lia).
  fold yoe. rewrite (u32_id (365 * yoe + yoe / 4 - yoe / 100)) by (Z.to_euclidean_division_equations; lia).
  fold doy. rewrite (u32_id doy), (u32_id (5 * doy + 2)) by lia. fold mp. rewrite (u32_id (153 * mp + 2)) by lia.
  fold (monthStart mp). assert (Hlen : monthStart (mp + 1) - monthStart mp <= 31)
    by (unfold monthStart; Z.to_euclidean_division_equations; lia).
  rewrite (u8_id (doy - _ + 1)) by lia. unfold dateOf. destruct (Z.ltb_spec mp 10).
  - rewrite (proj2 (Z.leb_gt _ _)) by lia. rewrite u16_id, u8_id by lia. f_equal. f_equal. lia.
  - rewrite (proj2 (Z.leb_le _ _)) by lia. rewrite u16_id, u8_id by lia. f_equal. f_equal; lia.
Qed.

Lemma daysFromCivil_century yoe mp d : 0 <= yoe <= 99 -> 0 <= mp <= 11 -> 1 <= d <= 31 ->
  (let '(y, m, d) := dateOf yoe mp d in daysFromCivil y m d) =
  firstDay + (365 * yoe + yoe / 4 - yoe / 100 + (monthStart mp + d - 1)).
Proof.
  intros Hy Hm Hd.
  assert (Hs : 0 <= monthStart mp <= 337) by (unfold monthStart; Z.to_euclidean_division_equations; lia).
  assert (Hq : 0 <= 365 * yoe + yoe / 4 - yoe / 100 <= 36200) by (Z.to_euclidean_division_equations; lia).
  assert (Hall : forall y m, y - (if m <=? 2 then 1 else 0) = 2000 + yoe ->
    (if 2 <? m then u32 (m - 3) else u32 (m + 9)) = mp ->
    daysFromCivil y m d = firstDay + (365 * yoe + yoe / 4 - yoe / 100 + (monthStart mp + d - 1))).
  { intros y m E1 E2. unfold daysFromCivil. rewrite E1, E2. rewrite (proj2 (Z.leb_le 0 _)) by lia.
    replace (Z.quot (2000 + yoe) 400) with 5
      by (rewrite Z.quot_div_nonneg by lia; apply (Z.div_unique_pos _ _ _ yoe); lia).
    replace (2000 + yoe - 5 * 400) with yoe by lia. rewrite (u32_id yoe), (u32_id (153 * mp + 2)) by lia.
    fold (monthStart mp). rewrite (u32_id (monthStart mp + d - 1)) by lia. rewrite u32_id by lia.
    unfold firstDay. lia. }
  unfold dateOf. destruct (Z.ltb_spec mp 10); apply Hall.
  - rewrite (proj2 (Z.leb_gt _ _)) by lia. lia.
  - rewrite (proj2 (Z.ltb_lt _ _)) by lia. rewrite u32_id by lia. lia.
  - rewrite (proj2 (Z.leb_le _ _)) by lia. lia.
  - rewrite (proj2 (Z.ltb_ge _ _)) by lia. rewrite u32_id by lia. lia.
Qed.


Lemma month_cases mp : 0 <= mp <= 11 ->
  mp = 0 \/ mp = 1 \/ mp = 2 \/ mp = 3 \/ mp = 4 \/ mp = 5 \/ mp = 6 \/ mp = 7 \/ mp = 8 \/ mp = 9 \/ mp = 10 \/ mp = 11.
Proof. lia. Qed.

(** February is the last month of these years. *)
Definition monthLength (yoe mp : Z) : Z :=
  if mp =? 11 then (if (yoe mod 4 =? 3) && negb (yoe =? 99) then 29 else 28)
  else monthStart (mp + 1) - monthStart mp.
Lemma monthDays_century yoe mp d : 0 <= yoe <= 99 -> 0 <= mp <= 11 ->
  (let '(y, m, _) := dateOf yoe mp d in monthDays y m) = monthLength yoe mp.
Proof.
  intros Hy Hm. assert (Hl : leapYear (2001 + yoe) = (yoe mod 4 =? 3) && negb (yoe =? 99)).
  { unfold leapYear. apply eq_true_iff_eq.
    rewrite !andb_true_iff, orb_true_iff, !negb_true_iff, !Z.eqb_eq, !Z.eqb_neq.
    Z.to_euclidean_division_equations; lia. }
  unfold monthLength, monthDays. rewrite <- Hl. clear Hl.
  destruct (month_cases mp Hm) as [-> |[-> |[-> |[-> |[-> |[-> |[-> |[-> |[-> |[-> |[-> | ->]]]]]]]]]]]; try done.
Qed.

(** ** Every day of the century *)

(** Day [n] is the date of a valid year, month and day of the century. *)
Inductive DayOf (n : Z) : Z * Z * Z -> Prop :=
  | day_of yoe mp d : 0 <= yoe <= 99 -> 0 <= mp <= 11 -> 1 <= d <= monthLength yoe mp ->
      n = firstDay + (365 * yoe + yoe / 4 - yoe / 100 + (monthStart mp + d - 1)) ->
      DayOf n (dateOf yoe mp d).

Lemma dayOf_civil n : firstDay <= n <= lastDay -> DayOf n (civilFromDays n).
Proof.
  unfold firstDay, lastDay. intros Hn. replace n with (firstDay + (n - 11017)) at 2 by (unfold firstDay; lia).
  set (k := n - 11017). assert (Hk : 0 <= k < 36524) by (unfold k; lia). rewrite (civilFromDays_century k Hk).
  destruct (year_split k Hk) as (Hy & Hc & Hd & Hl). cbv zeta in *. set (yoe := (k - _ + _ - _) / 365) in *.
  set (doy := k - (365 * yoe + yoe / 4 - yoe / 100)) in *. destruct (month_split doy Hd) as [Hm Hs]. cbv zeta in *.
  set (mp := (5 * doy + 2) / 153) in *. constructor; [done|done| |unfold doy, k, firstDay; lia].
  split; [lia|]. unfold monthLength. destruct (Z.eqb_spec mp 11) as [E|]; [|lia]. rewrite E in *.
  change (monthStart 11) with 337 in *. destruct (Z.eq_dec doy 365) as [E5|]; [|destruct (_ && _); lia].
  destruct (Hl E5) as [-> Hn9]. rewrite (proj2 (Z.eqb_neq _ _) Hn9). cbn. lia.
Qed.

Lemma monthLength_le yoe mp : 0 <= yoe <= 99 -> 0 <= mp <= 11 -> 28 <= monthLength yoe mp <= 31 /\
  (mp < 11 -> monthLength yoe mp = monthStart (mp + 1) - monthStart mp).
Proof.
  intros Hy Hm. unfold monthLength.
  destruct (month_cases mp Hm) as [-> |[-> |[-> |[-> |[-> |[-> |[-> |[-> |[-> |[-> |[-> | ->]]]]]]]]]]]; try by split; vm_compute.
  change (11 =? 11) with true. cbv iota. case_match; lia.
Qed.

Lemma civil_dayOf n date : DayOf n date -> firstDay <= n <= lastDay /\ civilFromDays n = date /\
  (let '(y, m, d) := date in daysFromCivil y m d) = n.
Proof.
  intros [yoe mp d Hy Hm Hd ->]. destruct (monthLength_le yoe mp Hy Hm) as [Hlen Hmid].
  rewrite daysFromCivil_century by lia. set (doy := monthStart mp + d - 1).
  assert (Hdoy : monthStart mp <= doy < monthStart (mp + 1) /\ 0 <= doy <= 365 /\
    (doy = 365 -> yoe mod 4 = 3 /\ yoe <> 99)).
  { assert (0 <= monthStart mp) by (unfold monthStart; Z.to_euclidean_division_equations; lia).
    destruct (Z.eq_dec mp 11) as [E|]; [|specialize (Hmid ltac:(lia)); unfold doy;
      assert (monthStart (mp + 1) <= 337) by (unfold monthStart; Z.to_euclidean_division_equations; lia); lia].
    unfold doy. rewrite E in *. change (monthStart 11) with 337. change (monthStart (11 + 1)) with 367.
    unfold monthLength in Hd. cbn [Z.eqb Pos.eqb] in Hd. destruct (_ && _) eqn:El; [|lia].
    rewrite andb_true_iff, negb_true_iff, Z.eqb_eq, Z.eqb_neq in El. lia. }
  destruct Hdoy as (Hs & Hr & Hl).
  destruct (year_unique (365 * yoe + yoe / 4 - yoe / 100 + doy) yoe doy Hy Hr Hl eq_refl) as [Hk Eyoe].
  split; [unfold firstDay, lastDay; lia|]. split; [|done]. rewrite (civilFromDays_century _ Hk). cbv zeta.
  rewrite Eyoe. replace (365 * yoe + yoe / 4 - yoe / 100 + doy - (365 * yoe + yoe / 4 - yoe / 100)) with doy by lia.
  rewrite (month_unique doy mp Hm Hs). f_equal. unfold doy. lia.
Qed.

(** The next day of the calendar is the next day of the reference. *)
Lemma next_dayOf n date : DayOf n date -> n < lastDay -> DayOf (n + 1) (nextDay date).
Proof.
  intros [yoe mp d Hy Hm Hd ->] Hn. pose proof (monthDays_century yoe mp d Hy Hm) as Hlen.
  destruct (monthLength_le yoe mp Hy Hm) as [_ Hmid].
  assert (Hnext : nextDay (dateOf yoe mp d) =
    if d <? monthLength yoe mp then dateOf yoe mp (d + 1)
    else if mp =? 11 then dateOf (yoe + 1) 0 1 else dateOf yoe (mp + 1) 1).
  { unfold dateOf, nextDay in *. destruct (Z.ltb_spec mp 10).
    - rewrite Hlen. destruct (d <? _); [done|]. rewrite (proj2 (Z.eqb_neq mp 11)) by lia.
      destruct (Z.ltb_spec (mp + 3) 12), (Z.ltb_spec (mp + 1) 10); try lia; apply date_eq; lia.
    - rewrite Hlen. destruct (d <? _); [done|]. rewrite (proj2 (Z.ltb_lt (mp - 9) 12)) by lia.
      destruct (Z.eqb_spec mp 11) as [->|]; [cbn; apply date_eq; lia|].
      rewrite (proj2 (Z.ltb_ge (mp + 1) 10)) by lia. apply date_eq; lia. }
  rewrite Hnext. destruct (Z.ltb_spec d (monthLength yoe mp)); [constructor; [done|done|lia|lia]|].
  assert (d = monthLength yoe mp) by lia. destruct (Z.eqb_spec mp 11) as [E|].
  - assert (Hyoe : yoe <> 99).
    { intros ->. subst mp d. change (monthLength 99 11) with 28 in *. change (monthStart 11) with 337 in Hn.
      change (365 * 99 + 99 / 4 - 99 / 100) with 36159 in Hn. unfold firstDay, lastDay in Hn. lia. }
    constructor; [lia|lia|pose proof (monthLength_le (yoe + 1) 0 ltac:(lia) ltac:(lia)); lia|].
    subst mp d. change (monthStart 11) with 337. change (monthStart 0) with 0. unfold monthLength.
    cbn [Z.eqb Pos.eqb]. destruct (_ && _) eqn:El; rewrite ?andb_true_iff, ?andb_false_iff, ?negb_true_iff,
      ?negb_false_iff, ?Z.eqb_eq, ?Z.eqb_neq in El; Z.to_euclidean_division_equations; lia.
  - specialize (Hmid ltac:(lia)). constructor; [done|lia|pose proof (monthLength_le yoe (mp + 1) Hy ltac:(lia)); lia|lia].
Qed.

(** Day [n] of the calendar is the day reached by counting from 2000-03-01. *)
Lemma calendar_reference n : firstDay + Z.of_nat n <= lastDay ->
  civilFromDays (firstDay + Z.of_nat n) = Nat.iter n nextDay (2000, 3, 1).
Proof.
  intros Hn. apply civil_dayOf. induction n as [|n IH].
  - rewrite Z.add_0_r. change (2000, 3, 1) with (dateOf 0 0 1). constructor; try done; lia.
  - change (Nat.iter (S n) nextDay (2000, 3, 1)) with (nextDay (Nat.iter n nextDay (2000, 3, 1))).
    replace (firstDay + Z.of_nat (S n)) with (firstDay + Z.of_nat n + 1) by lia. apply next_dayOf; [apply IH; lia|lia].
Qed.

(** A day of the clock has a valid date, and the date is that day. *)
Lemma day_facts n y m d : firstDay <= n <= lastDay -> civilFromDays n = (y, m, d) ->
  daysFromCivil y m d = n /\ dateOk (y, m, d) = true /\ 2000 <= y <= 2100.
Proof.
  intros Hn E. pose proof (dayOf_civil n Hn) as Hd. rewrite E in Hd. split; [apply (civil_dayOf n _ Hd)|].
  inversion Hd as [yoe mp d' Hy Hm Hd' _ E']. pose proof (monthDays_century yoe mp d' Hy Hm) as Hlen.
  rewrite E' in *. unfold dateOk. rewrite !andb_true_iff, !Z.leb_le, Hlen.
  unfold dateOf in E'. destruct (Z.ltb_spec mp 10); injection E' as <- <- <-; lia.
Qed.

(** A valid date of these years is a day of the century. *)
Lemma date_facts y m d : 2001 <= y <= 2099 -> dateOk (y, m, d) = true ->
  civilFromDays (daysFromCivil y m d) = (y, m, d) /\ firstDay <= daysFromCivil y m d <= lastDay.
Proof.
  intros Hy Hok. unfold dateOk in Hok. rewrite !andb_true_iff, !Z.leb_le in Hok.
  assert (Hdate : exists yoe mp, 0 <= yoe <= 99 /\ 0 <= mp <= 11 /\ (y, m, d) = dateOf yoe mp d).
  { destruct (Z.leb_spec m 2).
    - exists (y - 2001), (m + 9). unfold dateOf. rewrite (proj2 (Z.ltb_ge _ _)) by lia. repeat split; try lia. apply date_eq; lia.
    - exists (y - 2000), (m - 3). unfold dateOf. rewrite (proj2 (Z.ltb_lt _ _)) by lia. repeat split; try lia. apply date_eq; lia. }
  destruct Hdate as (yoe & mp & Hyoe & Hmp & E). pose proof (monthDays_century yoe mp d Hyoe Hmp) as Hlen.
  rewrite <- E in Hlen.
  destruct (civil_dayOf _ _ (day_of _ yoe mp d Hyoe Hmp ltac:(lia) eq_refl)) as (Hn & Hc & Hb).
  rewrite <- E in Hc, Hb. rewrite Hb. done.
Qed.
(** ** Instants *)

(** An instant of the clock at an offset of the clock. *)
Definition inClock (unixSeconds offset : Z) : Prop :=
  kMinimumClockUnixSeconds <= unixSeconds <= kMaximumClockUnixSeconds /\
  kMinimumUtcOffsetMinutes <= offset <= kMaximumUtcOffsetMinutes.

Lemma validOffset_iff offset : validOffset offset = true <->
  kMinimumUtcOffsetMinutes <= offset <= kMaximumUtcOffsetMinutes.
Proof. unfold validOffset. rewrite andb_true_iff, !Z.leb_le. done. Qed.
Lemma validInstant_iff s ms : 0 <= ms -> validInstant s ms = true <->
  kMinimumClockUnixSeconds * 1000 <= s * 1000 + ms <= kMaximumClockUnixSeconds * 1000 /\ ms <= 999.
Proof.
  unfold validInstant, kMinimumClockUnixSeconds, kMaximumClockUnixSeconds. intros.
  destruct (_ || _) eqn:E.
  - rewrite !orb_true_iff, !Z.ltb_lt in E. split; [done|]. lia.
  - rewrite !orb_false_iff, !Z.ltb_ge in E. rewrite orb_true_iff, negb_true_iff, Z.eqb_neq, Z.eqb_eq. lia.
Qed.

Lemma local_day s offset : inClock s offset -> firstDay <= (s + offset * 60) / 86400 <= lastDay.
Proof.
  unfold inClock, kMinimumClockUnixSeconds, kMaximumClockUnixSeconds, kMinimumUtcOffsetMinutes,
    kMaximumUtcOffsetMinutes, firstDay, lastDay. intros Hin. Z.to_euclidean_division_equations. lia.
Qed.

(** The local day and the seconds of it. *)
Lemma local_time s offset : inClock s offset ->
  let l := s + offset * 60 in
  unixToCivil s offset =
    let '(y, m, d) := civilFromDays (l / 86400) in
    mkCivil y m d (l mod 86400 / 3600) (l mod 86400 mod 3600 / 60) (l mod 86400 mod 3600 mod 60).
Proof.
  intros Hin l. unfold inClock, kMinimumClockUnixSeconds, kMaximumClockUnixSeconds, kMinimumUtcOffsetMinutes,
    kMaximumUtcOffsetMinutes in Hin. unfold unixToCivil. fold l.
  rewrite !Z.quot_div_nonneg, !Z.rem_mod_nonneg by lia.
  pose proof (Z.mod_pos_bound l 86400 ltac:(lia)) as Hs. rewrite (proj2 (Z.ltb_ge _ _)) by lia.
  rewrite !Z.rem_mod_nonneg, !Z.quot_div_nonneg by (try lia; apply Z.mod_pos_bound; lia).
  set (t := l mod 86400) in *.
  pose proof (Z.mod_pos_bound t 3600 ltac:(lia)). pose proof (Z.mod_pos_bound (t mod 3600) 60 ltac:(lia)).
  assert (0 <= t / 3600 < 24) by (split; [apply Z.div_pos|apply Z.div_lt_upper_bound]; lia).
  assert (0 <= t mod 3600 / 60 < 60) by (split; [apply Z.div_pos|apply Z.div_lt_upper_bound]; lia).
  rewrite !u8_id by lia. by destruct (civilFromDays _) as [[? ?] ?].
Qed.

(** The fields of a civil time, valid and from 2000 to 2100. *)
Definition civilOk (c : Civil) : Prop :=
  2000 <= c_year c <= 2100 /\ dateOk (c_year c, c_month c, c_day c) = true /\
  0 <= c_hour c <= 23 /\ 0 <= c_minute c <= 59 /\ 0 <= c_second c <= 59.

Lemma unixToCivil_ok s offset : inClock s offset -> civilOk (unixToCivil s offset).
Proof.
  intros Hin. rewrite local_time by done. cbv zeta. set (l := s + offset * 60).
  pose proof (local_day s offset Hin) as Hl. fold l in Hl.
  destruct (civilFromDays (l / 86400)) as [[y m] d] eqn:E. destruct (day_facts _ _ _ _ Hl E) as (_ & ? & ?).
  pose proof (Z.mod_pos_bound l 86400 ltac:(lia)). set (t := l mod 86400) in *.
  pose proof (Z.mod_pos_bound t 3600 ltac:(lia)). pose proof (Z.mod_pos_bound (t mod 3600) 60 ltac:(lia)).
  assert (0 <= t / 3600 < 24) by (split; [apply Z.div_pos|apply Z.div_lt_upper_bound]; lia).
  assert (0 <= t mod 3600 / 60 < 60) by (split; [apply Z.div_pos|apply Z.div_lt_upper_bound]; lia).
  repeat split; try done; cbn; lia.
Qed.

Lemma civilToUnix_ok c offset : civilOk c -> validOffset offset = true ->
  civilToUnix c offset =
    let s := daysFromCivil (c_year c) (c_month c) (c_day c) * 86400 + c_hour c * 3600 + c_minute c * 60 +
      c_second c - offset * 60 in
    if s <? 0 then None else Some s.
Proof.
  intros (_ & Hd & Hh & Hm & Hs) Ho. unfold dateOk in Hd. rewrite !andb_true_iff, !Z.leb_le in Hd.
  unfold civilToUnix. rewrite Ho. cbn [negb]. rewrite orb_false_r.
  destruct (_ || _) eqn:E; [rewrite !orb_true_iff, !Z.ltb_lt in E; lia|done].
Qed.

(** An instant shown as a civil time is that instant again. *)
Lemma civil_unix_inverse s offset : inClock s offset -> civilToUnix (unixToCivil s offset) offset = Some s.
Proof.
  intros Hin. pose proof (unixToCivil_ok s offset Hin) as Hok.
  rewrite civilToUnix_ok by (try done; apply validOffset_iff, Hin). rewrite local_time in * by done. cbv zeta in *.
  set (l := s + offset * 60) in *.
  pose proof (local_day s offset Hin) as Hl. fold l in Hl.
  destruct (civilFromDays (l / 86400)) as [[y m] d] eqn:E. destruct (day_facts _ _ _ _ Hl E) as (Hd & _).
  cbn [c_year c_month c_day c_hour c_minute c_second]. rewrite Hd.
  pose proof (Z.div_mod l 86400). pose proof (Z.div_mod (l mod 86400) 3600).
  pose proof (Z.div_mod (l mod 86400 mod 3600) 60).
  replace (l / 86400 * 86400 + l mod 86400 / 3600 * 3600 + l mod 86400 mod 3600 / 60 * 60 +
    l mod 86400 mod 3600 mod 60 - offset * 60) with s by lia.
  unfold inClock, kMinimumClockUnixSeconds in Hin. rewrite (proj2 (Z.ltb_ge _ _)) by lia. done.
Qed.

(** A civil time read as an instant is shown as that civil time again. *)
Lemma unix_civil_inverse c offset s : civilOk c -> 2001 <= c_year c <= 2099 -> civilToUnix c offset = Some s ->
  inClock s offset -> unixToCivil s offset = c.
Proof.
  intros Hok Hy Hs Hin. rewrite civilToUnix_ok in Hs by (try done; apply validOffset_iff, Hin).
  cbv zeta in Hs. destruct (_ <? 0); [done|]. injection Hs as Hs. rewrite local_time by done. cbv zeta.
  destruct Hok as (Hy1 & Hd & Hh & Hm & Hsec).
  destruct (date_facts _ _ _ Hy Hd) as [Hback Hrange].
  set (n := daysFromCivil (c_year c) (c_month c) (c_day c)) in *.
  set (t := c_hour c * 3600 + c_minute c * 60 + c_second c).
  assert (Ht : 0 <= t < 86400) by (unfold t; lia).
  replace (s + offset * 60) with (n * 86400 + t) by (unfold t; lia).
  rewrite Z.div_add_l, (Z.div_small t), Z.add_0_r, Hback by lia.
  rewrite Z.add_comm, Z.mod_add, (Z.mod_small t) by lia.
  assert (E1 : t / 3600 = c_hour c) by (symmetry; apply (Z.div_unique_pos _ _ _ (c_minute c * 60 + c_second c)); unfold t; lia).
  assert (E2 : t mod 3600 = c_minute c * 60 + c_second c)
    by (symmetry; apply (Z.mod_unique_pos _ _ (c_hour c)); unfold t; lia).
  rewrite E1, E2. rewrite Z.div_add_l, (Z.div_small (c_second c)), Z.add_0_r by lia.
  rewrite Z.add_comm, Z.mod_add, Z.mod_small by lia. by destruct c.
Qed.

(** ** ISO-8601 texts of [Clock]

    What is formatted is parsed back, and what is parsed is an instant of the clock. *)

(** ** Padded decimals *)

Definition digitOf (n : Z) : Z := 48 + n mod 10.
Lemma digitOf_range n : 48 <= digitOf n <= 57.
Proof. unfold digitOf. pose proof (Z.mod_pos_bound n 10 ltac:(lia)). lia. Qed.
Lemma digitOf_isDigit n : isDigit (digitOf n) = true.
Proof. unfold isDigit. pose proof (digitOf_range n). rewrite andb_true_iff, !Z.leb_le. lia. Qed.
Lemma digitOf_small n : 0 <= n < 10 -> 48 + n = digitOf n.
Proof. intros Hn. unfold digitOf. by rewrite Z.mod_small. Qed.

Lemma padded_2 n : 0 <= n < 100 -> padded 2 n = [digitOf (n / 10); digitOf n].
Proof.
  intros Hn. unfold padded. cbn [decimalLoop]. destruct (Z.ltb_spec n 10) as [H|H].
  - cbn. by rewrite (Z.div_small n 10), (digitOf_small n) by lia.
  - assert (n / 10 < 10) by (apply Z.div_lt_upper_bound; lia). rewrite (proj2 (Z.ltb_lt _ _)) by lia. cbn.
    rewrite digitOf_small by (split; [apply Z.div_pos|]; lia). done.
Qed.
Lemma padded_3 n : 0 <= n < 1000 -> padded 3 n = [digitOf (n / 10 / 10); digitOf (n / 10); digitOf n].
Proof.
  intros Hn. unfold padded. cbn [decimalLoop]. destruct (Z.ltb_spec n 10) as [H|H].
  - cbn. rewrite (Z.div_small n 10), (digitOf_small n) by lia. done.
  - assert (0 <= n / 10 < 100) by (split; [apply Z.div_pos|apply Z.div_lt_upper_bound]; lia).
    destruct (Z.ltb_spec (n / 10) 10) as [H1|H1]; cbn.
    + rewrite (Z.div_small (n / 10) 10), digitOf_small by lia. done.
    + assert (0 <= n / 10 / 10 < 10) by (split; [apply Z.div_pos|apply Z.div_lt_upper_bound]; lia).
      rewrite (proj2 (Z.ltb_lt _ _)) by lia. cbn. by rewrite (digitOf_small (n / 10 / 10)) by lia.
Qed.
Lemma padded_4 n : 1000 <= n < 10000 ->
  padded 4 n = [digitOf (n / 10 / 10 / 10); digitOf (n / 10 / 10); digitOf (n / 10); digitOf n].
Proof.
  intros Hn. assert (100 <= n / 10 < 1000) by (split; [apply Z.div_le_lower_bound|apply Z.div_lt_upper_bound]; lia).
  assert (10 <= n / 10 / 10 < 100) by (split; [apply Z.div_le_lower_bound|apply Z.div_lt_upper_bound]; lia).
  assert (0 <= n / 10 / 10 / 10 < 10) by (split; [apply Z.div_pos|apply Z.div_lt_upper_bound]; lia).
  unfold padded. cbn [decimalLoop]. rewrite (proj2 (Z.ltb_ge n 10)), (proj2 (Z.ltb_ge (n / 10) 10)),
    (proj2 (Z.ltb_ge (n / 10 / 10) 10)), (proj2 (Z.ltb_lt (n / 10 / 10 / 10) 10)) by lia.
  cbn. by rewrite (digitOf_small (n / 10 / 10 / 10)) by lia.
Qed.

Lemma digitsLoop_digit count v n rest : 0 <= v -> v * 10 + 9 < 2 ^ 32 ->
  digitsLoop (S count) v (digitOf n :: rest) = digitsLoop count (v * 10 + n mod 10) rest.
Proof.
  intros Hv Hm. cbn [digitsLoop]. rewrite digitOf_isDigit. f_equal. unfold digitOf.
  pose proof (Z.mod_pos_bound n 10 ltac:(lia)). rewrite u32_id by lia. lia.
Qed.

Lemma parse_2 n rest : 0 <= n < 100 -> parseDigits 2 (padded 2 n ++ rest) = Some (n, rest).
Proof.
  intros Hn. rewrite padded_2 by done. cbn [app]. unfold parseDigits.
  assert (0 <= n / 10 < 10) by (split; [apply Z.div_pos|apply Z.div_lt_upper_bound]; lia).
  rewrite !digitsLoop_digit by (rewrite ?(Z.mod_small (n / 10)); lia). cbn [digitsLoop]. do 2 f_equal.
  rewrite (Z.mod_small (n / 10)) by lia. pose proof (Z.div_mod n 10). lia.
Qed.
Lemma parse_4 n rest : 1000 <= n < 10000 -> parseDigits 4 (padded 4 n ++ rest) = Some (n, rest).
Proof.
  intros Hn. rewrite padded_4 by done. cbn [app]. unfold parseDigits.
  pose proof (Z.div_mod n 10). pose proof (Z.div_mod (n / 10) 10). pose proof (Z.div_mod (n / 10 / 10) 10).
  pose proof (Z.mod_pos_bound n 10). pose proof (Z.mod_pos_bound (n / 10) 10).
  pose proof (Z.mod_pos_bound (n / 10 / 10) 10).
  rewrite !digitsLoop_digit by (rewrite ?(Z.mod_small (n / 10 / 10 / 10)); lia). cbn [digitsLoop]. do 2 f_equal.
  rewrite (Z.mod_small (n / 10 / 10 / 10)) by lia. lia.
Qed.

(** A fraction is parsed up to the first byte that is no digit. *)
Definition noDigit (rest : list Z) : Prop := match rest with [] => True | b :: _ => isDigit b = false end.
Lemma fractionLoop_end digits ms rest : noDigit rest -> fractionLoop digits ms rest = Some (digits, ms, rest).
Proof. destruct rest as [|b rest]; [done|]. cbn. by intros ->. Qed.
Lemma fractionLoop_digit digits ms n rest : (digits < 3)%nat -> 0 <= ms -> ms * 10 + 9 < 2 ^ 16 ->
  fractionLoop digits ms (digitOf n :: rest) = fractionLoop (S digits) (ms * 10 + n mod 10) rest.
Proof.
  intros Hd Hms Hm. cbn [fractionLoop]. rewrite digitOf_isDigit, (proj2 (Nat.leb_gt 3 digits)) by done. f_equal.
  unfold digitOf. pose proof (Z.mod_pos_bound n 10 ltac:(lia)). rewrite u16_id by lia. lia.
Qed.
Lemma parse_fraction ms rest : 0 <= ms < 1000 -> noDigit rest -> (match rest with 46 :: _ => False | _ => True end) ->
  parseFraction ((if ms =? 0 then [] else [46] ++ padded 3 ms) ++ rest) = Some (ms, rest).
Proof.
  intros Hms Hrest Hdot. destruct (Z.eqb_spec ms 0) as [->|Hn].
  - cbn [app]. destruct rest as [|b rest]; [done|]. unfold parseFraction.
    destruct (Z.eq_dec b 46) as [->|Hb]; [done|]. by destruct b as [|p|p]; try (repeat (destruct p as [p|p|]; try done)).
  - rewrite padded_3 by done. cbn [app parseFraction].
    assert (0 <= ms / 10 < 100) by (split; [apply Z.div_pos|apply Z.div_lt_upper_bound]; lia).
    assert (0 <= ms / 10 / 10 < 10) by (split; [apply Z.div_pos|apply Z.div_lt_upper_bound]; lia).
    pose proof (Z.div_mod ms 10). pose proof (Z.div_mod (ms / 10) 10).
    pose proof (Z.mod_pos_bound ms 10). pose proof (Z.mod_pos_bound (ms / 10) 10).
    rewrite !fractionLoop_digit by (rewrite ?(Z.mod_small (ms / 10 / 10)); lia).
    rewrite fractionLoop_end by done. cbn. do 2 f_equal. rewrite (Z.mod_small (ms / 10 / 10)) by lia. lia.
Qed.

(** The zone as it is formatted. *)
Definition zoneText (offset : Z) : list Z :=
  let magnitude := u16 (Z.abs offset) in
  if offset =? 0 then [90]
  else [if offset <? 0 then 45 else 43] ++ padded 2 (magnitude / 60) ++ [58] ++ padded 2 (magnitude mod 60).
Lemma parse_zone offset rest : validOffset offset = true -> parseZone (zoneText offset ++ rest) = Some (offset, rest).
Proof.
  rewrite validOffset_iff. unfold kMinimumUtcOffsetMinutes, kMaximumUtcOffsetMinutes, zoneText. intros Ho.
  destruct (Z.eqb_spec offset 0) as [->|Hn]; [done|]. rewrite u16_id by lia. set (m := Z.abs offset).
  assert (Hm : 0 < m <= 840) by lia. rewrite <- !app_assoc.
  assert (0 <= m / 60 <= 14) by (split; [apply Z.div_pos|apply Z.div_le_upper_bound]; lia).
  pose proof (Z.mod_pos_bound m 60 ltac:(lia)). pose proof (Z.div_mod m 60 ltac:(lia)).
  assert (Hz : forall sign, sign = 43 \/ sign = 45 ->
    parseZone ([sign] ++ padded 2 (m / 60) ++ [58] ++ padded 2 (m mod 60) ++ rest) =
    Some (if sign =? 45 then - m else m, rest)).
  { intros sign Hs. cbn [app parseZone]. destruct Hs as [-> | ->]; cbn -[padded parseDigits];
      rewrite parse_2 by lia; cbn -[padded parseDigits]; rewrite parse_2 by lia; cbn -[padded parseDigits];
      destruct (_ || _) eqn:E; try (rewrite !orb_true_iff, andb_true_iff, negb_true_iff, !Z.ltb_lt, Z.eqb_eq, Z.eqb_neq in E; lia);
      do 2 f_equal; lia. }
  destruct (Z.ltb_spec offset 0); rewrite Hz by auto; cbn; do 2 f_equal; lia.
Qed.

(** ** The whole text *)

Definition stampText (c : Civil) : list Z :=
  padded 4 (c_year c) ++ [45] ++ padded 2 (c_month c) ++ [45] ++ padded 2 (c_day c) ++ [84] ++
  padded 2 (c_hour c) ++ [58] ++ padded 2 (c_minute c) ++ [58] ++ padded 2 (c_second c).
Definition isoText (c : Civil) (ms offset : Z) : list Z :=
  stampText c ++ (if ms =? 0 then [] else [46] ++ padded 3 ms) ++ zoneText offset.

Lemma consume_here b rest : consume b (b :: rest) = Some rest.
Proof. cbn. by rewrite Z.eqb_refl. Qed.

Lemma zone_start offset rest : noDigit (zoneText offset ++ rest) /\
  match zoneText offset ++ rest with 46 :: _ => False | _ => True end.
Proof. unfold zoneText. destruct (offset =? 0); [done|]. by destruct (offset <? 0). Qed.

Lemma civil_ranges c : civilOk c -> 2000 <= c_year c <= 2100 /\ 0 <= c_month c < 100 /\ 0 <= c_day c < 100 /\
  0 <= c_hour c < 100 /\ 0 <= c_minute c < 100 /\ 0 <= c_second c < 100.
Proof.
  intros (Hy & Hd & Hh & Hm & Hs). unfold dateOk in Hd. rewrite !andb_true_iff, !Z.leb_le in Hd.
  assert (monthDays (c_year c) (c_month c) <= 31).
  { unfold monthDays. destruct (_ || _); [lia|]. destruct (_ && _); [lia|].
    destruct (month_cases (c_month c - 1) ltac:(lia)) as
      [-> |[-> |[-> |[-> |[-> |[-> |[-> |[-> |[-> |[-> |[-> | ->]]]]]]]]]]]; by vm_compute. }
  lia.
Qed.

Lemma parse_fields c ms offset rest : civilOk c -> 0 <= ms < 1000 -> validOffset offset = true -> atEnd rest = true ->
  parseFields (isoText c ms offset ++ rest) = Some (c, ms, offset).
Proof.
  intros Hc Hms Ho Hrest. destruct (civil_ranges c Hc) as (R1 & R2 & R3 & R4 & R5 & R6).
  destruct (zone_start offset rest) as [Hz1 Hz2]. unfold isoText, stampText. rewrite <- !app_assoc. unfold parseFields.
  rewrite parse_4 by lia. cbn -[padded parseDigits consume zoneText parseFraction parseZone].
  repeat (rewrite consume_here; cbn -[padded parseDigits consume zoneText parseFraction parseZone];
    rewrite parse_2 by lia; cbn -[padded parseDigits consume zoneText parseFraction parseZone]).
  rewrite parse_fraction by done. cbn -[zoneText parseZone]. rewrite parse_zone by done. cbn. rewrite Hrest. cbn.
  unfold UINT16_MAX. destruct (_ || _) eqn:E; [rewrite !orb_true_iff, !Z.ltb_lt in E; lia|]. by destruct c.
Qed.

Lemma isoText_length c ms offset : civilOk c -> 0 <= ms < 1000 -> validOffset offset = true ->
  (length (isoText c ms offset) <= 29)%nat.
Proof.
  intros Hc Hms Ho. destruct (civil_ranges c Hc) as (R1 & R2 & R3 & R4 & R5 & R6).
  rewrite validOffset_iff in Ho. unfold kMinimumUtcOffsetMinutes, kMaximumUtcOffsetMinutes in Ho.
  assert (Hz : Z.of_nat (length (zoneText offset)) <= 6).
  { unfold zoneText. destruct (offset =? 0); [cbn; lia|]. rewrite u16_id by lia.
    pose proof (Z.mod_pos_bound (Z.abs offset) 60 ltac:(lia)).
    assert (0 <= Z.abs offset / 60 < 100) by (split; [apply Z.div_pos|apply Z.div_lt_upper_bound]; lia).
    rewrite !padded_2 by lia. cbn. lia. }
  unfold isoText, stampText. rewrite padded_4, !padded_2 by lia.
  destruct (ms =? 0); [|rewrite padded_3 by lia]; rewrite ?length_app in *; cbn [length app] in *; lia.
Qed.

Lemma format_text s ms offset capacity : 0 <= ms -> validInstant s ms = true -> validOffset offset = true ->
  kClockIso8601BufferBytes <= capacity ->
  formatIso8601 s ms offset (Some capacity) = (ClockOk, isoText (unixToCivil s offset) ms offset).
Proof.
  intros Hms Hi Ho Hcap. assert (Hin : inClock s offset).
  { split; [|by apply validOffset_iff]. apply validInstant_iff in Hi; [|done]. lia. }
  pose proof (isoText_length (unixToCivil s offset) ms offset (unixToCivil_ok s offset Hin)) as Hlen.
  apply validInstant_iff in Hi as Hr; [|done]. specialize (Hlen ltac:(lia) Ho).
  unfold kClockIso8601BufferBytes in Hcap. unfold formatIso8601. rewrite (proj2 (Z.eqb_neq capacity 0)) by lia.
  rewrite Ho, Hi. cbn [negb orb]. cbv zeta. revert Hlen. generalize (unixToCivil s offset). intros c Hlen.
  transitivity (if capacity <=? Z.of_nat (length (isoText c ms offset)) then (InvalidArgument, [])
    else (ClockOk, isoText c ms offset)); [reflexivity|].
  by rewrite (proj2 (Z.leb_gt capacity (Z.of_nat (length (isoText c ms offset))))) by lia.
Qed.

(** C31: An instant of the clock formatted in any offset, into the buffer the code
    reserves, gives a text that parses to the same instant, millisecond and offset,
    whatever follows its NUL; and whatever text is accepted denotes an instant and an
    offset the clock can hold. *)
Theorem iso8601_roundtrip s ms offset capacity after : 0 <= ms -> validInstant s ms = true ->
  validOffset offset = true -> kClockIso8601BufferBytes <= capacity ->
  (exists text, formatIso8601 s ms offset (Some capacity) = (ClockOk, text) /\
     parseIso8601 (Some (text ++ 0 :: after)) = inr (mkParsed s ms offset)) /\
  (forall text p, parseIso8601 (Some text) = inr p ->
     validInstant (p_unixSeconds p) (p_millisecond p) = true /\ validOffset (p_utcOffsetMinutes p) = true).
Proof.
  intros Hms Hi Ho Hcap. split.
  - exists (isoText (unixToCivil s offset) ms offset). split; [by apply format_text|].
    apply validInstant_iff in Hi as Hr; [|done].
    assert (Hin : inClock s offset) by (split; [lia|by apply validOffset_iff]).
    unfold parseIso8601. rewrite parse_fields by first [done|by apply unixToCivil_ok|lia].
    rewrite civil_unix_inverse by done. by rewrite Hi.
  - intros text p. unfold parseIso8601. destruct (parseFields text) as [[[c ms'] o]|]; [|done].
    unfold civilToUnix. destruct (_ || _) eqn:E; [done|]. rewrite !orb_false_iff, negb_false_iff in E.
    destruct (_ <? 0); [done|]. destruct (validInstant _ ms') eqn:Ei; [|done]. intros [= <-]. cbn. split; [done|]. apply E.
Qed.

Lemma iso8601_roundtrip_witness :
  validInstant 1789000000 250 = true /\
  exists text, formatIso8601 1789000000 250 (-210) (Some 30) = (ClockOk, text) /\
    parseIso8601 (Some (text ++ [0; 65])) = inr (mkParsed 1789000000 250 (-210)).
Proof.
  split; [by vm_compute|].
  exact (proj1 (iso8601_roundtrip 1789000000 250 (-210) 30 [65] ltac:(lia) ltac:(by vm_compute) ltac:(by vm_compute) ltac:(by vm_compute))).
Defined.
