(* ===== verification/ClockFacts.v ===== *)
(** * The clock refines a wall clock

    [KitsuClock] keeps an instant, the counter value at which it was taken and a 32-bit
    counter that wraps.  The specification is one number: how far the wall clock is
    ahead of the time since power-on, which does not wrap. *)

From S2P Require Import Prelude Crc Clock ClockCalendar.

Open Scope Z_scope.
Open Scope kitsu_scope.

(** ** The calls of a program on its clock *)

Inductive Op :=
  | OpReset
  | OpIso (text : option (list Z)) (source : Z)
  | OpUnixText (text : option (list Z)) (source offset : Z)
  | OpUnixSeconds (unixSeconds millisecond source offset : Z)
  | OpNtp (sample : NetworkTimeSample)
  | OpOffset (offset : Z)
  | OpRead
  | OpSnapshot (generation : Z)
  | OpRestore (s : ClockSnapshot).

(** What a call returns: a result, and what it reads. *)
Inductive Out :=
  | OutResult (r : ClockResult)
  | OutReading (r : ClockResult) (reading : ClockReading)
  | OutSnapshot (r : ClockResult) (s : option ClockSnapshot).

Definition runOp (op : Op) (now : Z) : M Clock Out :=
  match op with
  | OpReset => reset ;;; ret (OutResult ClockOk)
  | OpIso text source => r <- setFromIso8601 text source now ;; ret (OutResult r)
  | OpUnixText text source offset => r <- setFromUnixText text source offset now ;; ret (OutResult r)
  | OpUnixSeconds s ms source offset => r <- setFromUnixSeconds s ms source offset now ;; ret (OutResult r)
  | OpNtp sample => r <- acceptNtp sample now ;; ret (OutResult r)
  | OpOffset offset => r <- setUtcOffsetMinutes offset ;; ret (OutResult r)
  | OpRead => r <- read now ;; ret (OutReading (fst r) (snd r))
  | OpSnapshot generation => r <- makeSnapshot now generation ;; ret (OutSnapshot (fst r) (snd r))
  | OpRestore s => r <- restore s now ;; ret (OutResult r)
  end.

(** The arguments are values of their C types. *)
Definition opTyped (op : Op) : Prop :=
  match op with
  | OpUnixSeconds _ ms _ _ => 0 <= ms
  | OpNtp sample => 0 <= n_millisecond sample
  | OpRestore s => 0 <= s_millisecond s
  | _ => True
  end.

(** ** The specification *)

(** [w_ahead]: milliseconds the wall clock is ahead of the time since power-on;
    [w_last]: when the clock was last looked at or set. *)
Record Wall := mkWall {
  w_ahead : Z;
  w_last : Z;
  w_offset : Z;
  w_source : Z;
  w_trust : Z;
  w_healthy : bool;
}.
Definition wall0 : Wall := mkWall 0 0 0 SourceNone Unset false.

Definition maximumMs : Z := kMaximumClockUnixSeconds * 1000.

(** The clock is set at time [t]; it keeps what it had when the input is refused. *)
Definition wallSet (t : Z) (input : ClockResult + (Z * Z * Z)) (trust : Z) (w : Wall) : Out * Wall :=
  match input with
  | inl e => (OutResult e, w)
  | inr (instant, source, offset) => (OutResult ClockOk, mkWall (instant - t) t offset source trust true)
  end.

(** What a call sets, or why it refuses. *)
Definition direct (source : Z) (rest : ClockResult + (Z * Z * Z)) : ClockResult + (Z * Z * Z) :=
  if validDirectSource source then rest else inl InvalidSource.
Definition inputOf (s ms source offset : Z) : ClockResult + (Z * Z * Z) :=
  if validOffset offset && validInstant s ms then inr (s * 1000 + ms, source, offset) else inl OutOfRange.
Definition opInput (op : Op) (w : Wall) : ClockResult + (Z * Z * Z) :=
  match op with
  | OpIso text source =>
      direct source (match parseIso8601 text with
                     | inl e => inl e
                     | inr p => inputOf (p_unixSeconds p) (p_millisecond p) source (p_utcOffsetMinutes p)
                     end)
  | OpUnixText text source offset =>
      direct source (match parseUnixText text with inl e => inl e | inr s => inputOf s 0 source offset end)
  | OpUnixSeconds s ms source offset => direct source (inputOf s ms source offset)
  | OpNtp sample =>
      if negb (n_synchronized sample) then inl NetworkTimeNotSynchronized
      else if validInstant (n_unixSeconds sample) (n_millisecond sample)
      then inr (n_unixSeconds sample * 1000 + n_millisecond sample, NetworkTime, w_offset w)
      else inl OutOfRange
  | OpRestore s =>
      match validateSnapshot s with
      | ClockOk => inr (s_unixSeconds s * 1000 + s_millisecond s, s_source s, s_utcOffsetMinutes s)
      | e => inl e
      end
  | _ => inl InvalidArgument
  end.

(** Looking at the clock: the time since the last look is believed up to half the range
    of the counter, and the clock stops at its maximum. *)
Definition wallLook (t : Z) (w : Wall) : ClockResult * Wall :=
  if w_trust w =? Unset then (NotSet, w)
  else if INT32_MAX <? t - w_last w then
    (MonotonicDiscontinuity,
     mkWall (w_ahead w + w_last w - t) t (w_offset w) (w_source w) RestoredStale false)
  else if maximumMs <? w_ahead w + t then
    (OutOfRange, mkWall (maximumMs - t) t (w_offset w) (w_source w) RestoredStale false)
  else (ClockOk, mkWall (w_ahead w) t (w_offset w) (w_source w) (w_trust w) (w_healthy w)).

Definition wallReading (t : Z) (w : Wall) : ClockReading :=
  let instant := if w_trust w =? Unset then 0 else w_ahead w + t in
  mkReading (instant / 1000) (instant mod 1000) (w_offset w) (w_source w) (w_trust w) (w_healthy w).
Definition wallSnapshot (t generation : Z) (w : Wall) : ClockSnapshot :=
  let instant := w_ahead w + t in
  let s crc := mkSnapshot kSnapshotMagic kClockSnapshotSchemaVersion kClockSnapshotBytes (w_source w) (w_trust w)
    generation (instant mod 1000) (w_offset w) (instant / 1000) [0; 0; 0; 0] crc in
  s (snapshotCrc (s 0)).

Definition wallOp (op : Op) (t : Z) (w : Wall) : Out * Wall :=
  match op with
  | OpReset => (OutResult ClockOk, mkWall 0 t 0 SourceNone Unset false)
  | OpOffset offset =>
      if validOffset offset
      then (OutResult ClockOk, mkWall (w_ahead w) (w_last w) offset (w_source w) (w_trust w) (w_healthy w))
      else (OutResult OutOfRange, w)
  | OpRead => let '(r, w') := wallLook t w in (OutReading r (wallReading t w'), w')
  | OpSnapshot generation =>
      let '(r, w') := wallLook t w in
      (OutSnapshot r (if bool_decide (r = ClockOk) then Some (wallSnapshot t generation w') else None), w')
  | OpRestore s => wallSet t (opInput op w) RestoredStale w
  | _ => wallSet t (opInput op w) Trusted w
  end.

(** ** Runs *)

(** Calls with the time since power-on in milliseconds. *)
Fixpoint runClock (calls : list (Z * Op)) (c : Clock) : list Out * Clock :=
  match calls with
  | [] => ([], c)
  | (t, op) :: rest =>
      let '(out, c') := runOp op (u32 t) c in
      let '(outs, c'') := runClock rest c' in (out :: outs, c'')
  end.
Fixpoint runWall (calls : list (Z * Op)) (w : Wall) : list Out * Wall :=
  match calls with
  | [] => ([], w)
  | (t, op) :: rest =>
      let '(out, w') := wallOp op t w in
      let '(outs, w'') := runWall rest w' in (out :: outs, w'')
  end.

(** Time does not run backwards, and a set clock is looked at before the counter has
    gone round once (49.7 days). *)
Fixpoint timely (calls : list (Z * Op)) (w : Wall) : Prop :=
  match calls with
  | [] => True
  | (t, op) :: rest =>
      opTyped op /\ w_last w <= t /\ (w_trust w <> Unset -> t - w_last w < 2 ^ 32) /\
      timely rest (snd (wallOp op t w))
  end.

(** ** The simulation *)

(** The clock shows the wall clock. *)
Record Shows (c : Clock) (w : Wall) : Prop := {
  shows_offset : utcOffsetMinutes_ c = w_offset w;
  shows_source : source_ c = w_source w;
  shows_trust : trust_ c = w_trust w;
  shows_healthy : monotonicHealthy_ c = w_healthy w;
  shows_time : w_trust w <> Unset ->
    lastMillis_ c = u32 (w_last w) /\ unixSeconds_ c * 1000 + millisecond_ c = w_ahead w + w_last w /\
    0 <= millisecond_ c <= 999 /\ 0 <= unixSeconds_ c <= kMaximumClockUnixSeconds /\
    w_ahead w + w_last w <= maximumMs;
}.

(** An instant is its seconds and the milliseconds in them. *)
Lemma split_instant s ms : 0 <= ms <= 999 -> (s * 1000 + ms) / 1000 = s /\ (s * 1000 + ms) mod 1000 = ms.
Proof. intros. split; [rewrite Z.div_add_l, Z.div_small by lia; lia|rewrite Z.add_comm, Z.mod_add, Z.mod_small by lia; lia]. Qed.

Lemma report_run r c : report r c = (r, mkClock (unixSeconds_ c) (millisecond_ c) (utcOffsetMinutes_ c) (lastMillis_ c)
  (restoredGeneration_ c) (source_ c) (trust_ c) r (monotonicHealthy_ c)).
Proof. done. Qed.
Lemma shows_report r c w : Shows c w -> Shows (snd (report r c)) w.
Proof. by intros [? ? ? ? ?]. Qed.

Lemma elapsed_u32 t last : 0 <= t - last < 2 ^ 32 -> u32 (u32 t - u32 last) = t - last.
Proof. intros He. unfold u32. rewrite <- Zminus_mod. by apply Z.mod_small. Qed.

Lemma advance_look t c w : Shows c w -> w_last w <= t -> (w_trust w <> Unset -> t - w_last w < 2 ^ 32) ->
  let '(r, w') := wallLook t w in
  fst (advance (u32 t) c) = r /\ Shows (snd (advance (u32 t) c)) w' /\ (w_trust w' <> Unset -> w_last w' = t).
Proof.
  intros Hs Ht Hgap. unfold wallLook, advance, bind, gets, id. pose proof (shows_trust _ _ Hs) as Etrust.
  unfold isSet. rewrite Etrust. destruct (Z.eqb_spec (w_trust w) Unset) as [Eu|Hset]; cbn [negb].
  { rewrite report_run. cbn [fst snd]. split; [done|]. split; [by apply (shows_report NotSet)|done]. }
  destruct (shows_time _ _ Hs Hset) as (El & Et & Hms & Hu & Hmax). specialize (Hgap Hset).
  rewrite El, elapsed_u32 by lia. set (delta := t - w_last w) in *. unfold maximumMs, kMaximumClockUnixSeconds in *.
  destruct Hs as [So Ss St Sh _]. destruct (INT32_MAX <? delta) eqn:Ed.
  { cbn. split; [done|]. split; [|done]. constructor; try done. cbn. intros _.
    unfold maximumMs, kMaximumClockUnixSeconds. split_and!; try done; lia. }
  apply Z.ltb_ge in Ed. rewrite (u64_id (millisecond_ c + delta)) by (unfold delta; lia).
  assert (Hq : (millisecond_ c + delta) / 1000 * 1000 + (millisecond_ c + delta) mod 1000 = millisecond_ c + delta)
    by (pose proof (Z.div_mod (millisecond_ c + delta) 1000 ltac:(lia)); lia).
  pose proof (Z.mod_pos_bound (millisecond_ c + delta) 1000 ltac:(lia)) as Hr.
  set (q := (millisecond_ c + delta) / 1000) in *. set (r := (millisecond_ c + delta) mod 1000) in *.
  assert (Hq0 : 0 <= q) by (unfold q; apply Z.div_pos; lia).
  rewrite (u16_id r), (u64_id (4102444800 - unixSeconds_ c)) by lia.
  assert (Eover : (4102444800 - unixSeconds_ c <? q) || ((u64 (unixSeconds_ c + q) =? 4102444800) && negb (r =? 0)) =
    (4102444800 * 1000 <? w_ahead w + t)).
  { apply eq_true_iff_eq. rewrite orb_true_iff, andb_true_iff, negb_true_iff, !Z.ltb_lt, Z.eqb_eq, Z.eqb_neq.
    destruct (Z.le_gt_cases (unixSeconds_ c + q) 4102444800) as [Hle|Hgt].
    - rewrite u64_id by lia. unfold delta in *. lia.
    - unfold delta in *. lia. }
  rewrite Eover. destruct (4102444800 * 1000 <? w_ahead w + t) eqn:Em.
  { cbn. split; [done|]. split; [|done]. constructor; try done. cbn. intros _. unfold maximumMs, kMaximumClockUnixSeconds.
    split_and!; try done; lia. }
  apply Z.ltb_ge in Em. rewrite u64_id by (unfold delta in *; lia). cbn. split; [done|]. split; [|done].
  constructor; cbn; [done|done|by rewrite St|done|]. intros _. unfold kMaximumClockUnixSeconds, maximumMs, delta in *.
  split_and!; try done; lia.
Qed.

(** ** Setting *)

Lemma shows_set instant s ms source offset t trust : instant = s * 1000 + ms -> 0 <= ms ->
  validInstant s ms = true -> trust <> Unset -> forall generation r,
  Shows (mkClock s ms offset (u32 t) generation source trust r true) (mkWall (instant - t) t offset source trust true).
Proof.
  intros -> Hms Hi Htr generation r. apply validInstant_iff in Hi; [|done].
  unfold kMinimumClockUnixSeconds, kMaximumClockUnixSeconds in Hi. constructor; try done. cbn. intros _.
  unfold maximumMs, kMaximumClockUnixSeconds. split_and!; try done; lia.
Qed.

Lemma setAnchor_wall s ms source offset t c w : 0 <= ms -> Shows c w ->
  let run := setAnchor s ms source offset (u32 t) c in
  let spec := wallSet t (direct source (inputOf s ms source offset)) Trusted w in
  OutResult (fst run) = fst spec /\ Shows (snd run) (snd spec).
Proof.
  intros Hms Hs. unfold setAnchor, direct, inputOf. destruct (validDirectSource source); cbn [negb].
  2: split; [done|by apply shows_report].
  destruct (validOffset offset); cbn [negb andb]; [|split; [done|by apply shows_report]].
  destruct (validInstant s ms) eqn:Ei; cbn [negb]; [|split; [done|by apply shows_report]].
  cbn. split; [done|]. by apply shows_set.
Qed.

Lemma fractionLoop_range cursor : forall digits ms out, fractionLoop digits ms cursor = Some out -> 0 <= ms ->
  0 <= snd (fst out).
Proof.
  induction cursor as [|b cursor IH]; intros digits ms out; cbn [fractionLoop]; [by intros [= <-]|].
  destruct (isDigit b); [|by intros [= <-]]. destruct (3 <=? digits)%nat; [done|]. intros E _. eapply IH; [exact E|].
  apply u16_range.
Qed.
Lemma parseFraction_range cursor ms rest : parseFraction cursor = Some (ms, rest) -> 0 <= ms.
Proof.
  intros E. assert (Hcase : parseFraction cursor = Some (0, cursor) \/ exists cursor', cursor = 46 :: cursor').
  { destruct cursor as [|b cursor]; [by left|]. destruct (Z.eq_dec b 46) as [->|Hb]; [right; by eexists|left].
    unfold parseFraction. destruct b as [|p|p]; try done. repeat (destruct p as [p|p|]; try done). }
  destruct Hcase as [E0|[cursor' ->]]; [rewrite E in E0; by injection E0 as -> _|].
  cbn [parseFraction] in E. apply bind_Some in E as ([[digits ms'] rest'] & Ef & E).
  apply fractionLoop_range in Ef; [|done]. cbn in Ef. destruct (digits =? 0)%nat; [done|]. injection E as <- _.
  generalize (3 - digits)%nat. intros [|n]; [done|]. apply u16_range.
Qed.
Lemma parsed_range text p : parseIso8601 text = inr p -> 0 <= p_millisecond p.
Proof.
  destruct text as [cursor|]; [|done]. cbn [parseIso8601].
  destruct (parseFields cursor) as [[[c ms] o]|] eqn:Ef; [|done].
  assert (Hms : 0 <= ms).
  { unfold parseFields in Ef.
    do 5 (apply bind_Some in Ef as ([? ?] & _ & Ef); apply bind_Some in Ef as (? & _ & Ef)).
    apply bind_Some in Ef as ([? ?] & _ & Ef). apply bind_Some in Ef as ([ms' ?] & Ep & Ef).
    apply bind_Some in Ef as ([? ?] & _ & Ef). destruct (_ || _); [done|]. injection Ef as _ <- _.
    by eapply parseFraction_range. }
  destruct (civilToUnix c o); [|done]. destruct (negb _); [done|]. by intros [= <-].
Qed.

Lemma validateSnapshot_ok s : validateSnapshot s = ClockOk ->
  validSource (s_source s) = true /\ (s_savedTrust s = Trusted \/ s_savedTrust s = RestoredStale) /\
  validInstant (s_unixSeconds s) (s_millisecond s) = true /\ validOffset (s_utcOffsetMinutes s) = true /\
  s_crc32 s = snapshotCrc s.
Proof.
  unfold validateSnapshot. destruct (negb (s_magic s =? _)); [done|].
  destruct (negb (s_schemaVersion s =? _) || _); [done|].
  destruct (s_crc32 s =? snapshotCrc s) eqn:Ec; cbn [negb]; [|done].
  destruct (_ || _) eqn:E; [done|]. intros _. apply Z.eqb_eq in Ec.
  rewrite !orb_false_iff, !negb_false_iff, andb_false_iff, !negb_false_iff, !Z.eqb_eq in E. tauto.
Qed.

(** ** One call, and every run *)

Lemma look_reading t c w : Shows c w -> (w_trust w <> Unset -> w_last w = t) -> reading c = wallReading t w.
Proof.
  intros [So Ss St Sh Stime] Hl. unfold reading, wallReading, isSet. rewrite So, Ss, St, Sh.
  destruct (Z.eqb_spec (w_trust w) Unset) as [E|Hn]; [done|]. cbn [negb].
  destruct (Stime Hn) as (_ & Et & Hms & _). rewrite <- (Hl Hn), <- Et.
  destruct (split_instant (unixSeconds_ c) (millisecond_ c) Hms) as [-> ->]. done.
Qed.

Lemma look_snapshot t generation c w : Shows c w -> w_trust w <> Unset -> w_last w = t ->
  snapshotAt generation c = wallSnapshot t generation w.
Proof.
  intros [So Ss St Sh Stime] Hn Hl. destruct (Stime Hn) as (_ & Et & Hms & _). unfold snapshotAt, wallSnapshot.
  rewrite So, Ss, St, <- Hl, <- Et. destruct (split_instant (unixSeconds_ c) (millisecond_ c) Hms) as [-> ->]. done.
Qed.

Lemma step_refines op t c w : Shows c w -> opTyped op -> w_last w <= t ->
  (w_trust w <> Unset -> t - w_last w < 2 ^ 32) ->
  let run := runOp op (u32 t) c in
  fst run = fst (wallOp op t w) /\ Shows (snd run) (snd (wallOp op t w)).
Proof.
  intros Hs Hty Ht Hgap. pose proof (advance_look t c w Hs Ht Hgap) as Hlook.
  destruct op as [|text source|text source offset|s ms source offset|sample|offset| |generation|s].
  - cbn. split; [done|]. by constructor.
  - cbn. unfold setFromIso8601, bind. destruct (validDirectSource source) eqn:Ed; cbn [negb].
    2: unfold direct; rewrite Ed; split; [done|by apply shows_report].
    destruct (parseIso8601 text) as [e|p] eqn:Ep; [unfold direct; rewrite Ed; split; [done|by apply shows_report]|].
    pose proof (setAnchor_wall (p_unixSeconds p) (p_millisecond p) source (p_utcOffsetMinutes p) t c w
      (parsed_range _ _ Ep) Hs) as [H1 H2]. destruct (setAnchor _ _ _ _ _ c). done.
  - cbn. unfold setFromUnixText, bind. destruct (validDirectSource source) eqn:Ed; cbn [negb].
    2: unfold direct; rewrite Ed; split; [done|by apply shows_report].
    destruct (parseUnixText text) as [e|s]; [unfold direct; rewrite Ed; split; [done|by apply shows_report]|].
    pose proof (setAnchor_wall s 0 source offset t c w ltac:(lia) Hs) as [H1 H2].
    destruct (setAnchor _ _ _ _ _ c). done.
  - cbn in *. unfold setFromUnixSeconds, bind. pose proof (setAnchor_wall s ms source offset t c w Hty Hs) as [H1 H2].
    destruct (setAnchor _ _ _ _ _ c). done.
  - cbn in *. unfold acceptNtp. destruct (n_synchronized sample); cbn [negb]; [|split; [done|by apply shows_report]].
    destruct (validInstant _ _) eqn:Ei; cbn [negb]; [|split; [done|by apply shows_report]]. cbn. split; [done|].
    rewrite (shows_offset _ _ Hs). by apply shows_set.
  - cbn. unfold setUtcOffsetMinutes, bind. destruct (validOffset offset); cbn [negb]; [|split; [done|by apply shows_report]].
    cbn. split; [done|]. by destruct Hs.
  - cbn [runOp wallOp]. unfold read, bind. destruct (wallLook t w) as [r w']. destruct (advance (u32 t) c) as [r' c'].
    cbn in *. destruct Hlook as (-> & Hs' & Hl). split; [by rewrite (look_reading t c' w')|done].
  - cbn [runOp wallOp]. unfold makeSnapshot, bind. destruct (wallLook t w) as [r w'] eqn:El.
    destruct (advance (u32 t) c) as [r' c']. cbn [fst snd] in *. destruct Hlook as (-> & Hs' & Hl).
    destruct (decide (r = ClockOk)) as [->|Hr]; [|rewrite bool_decide_eq_false_2 by done; done].
    rewrite bool_decide_eq_true_2 by done. cbn. split; [|by apply shows_report]. do 2 f_equal.
    assert (Hn : w_trust w' <> Unset).
    { unfold wallLook in El. destruct (Z.eqb_spec (w_trust w) Unset); [done|]. destruct (_ <? _); [done|].
      destruct (_ <? _); [done|]. by injection El as <-. }
    by apply look_snapshot; auto.
  - cbn in *. unfold restore, bind. destruct (validateSnapshot s) eqn:Ev.
    all: try (rewrite bool_decide_eq_false_2 by done; cbn; split; [done|by apply shows_report]).
    rewrite bool_decide_eq_true_2 by done. cbn. split; [done|]. apply shows_set; [done|done| |done].
    by apply validateSnapshot_ok.
Qed.

Lemma clock_simulation calls c w : Shows c w -> timely calls w ->
  fst (runClock calls c) = fst (runWall calls w) /\ Shows (snd (runClock calls c)) (snd (runWall calls w)).
Proof.
  revert c w. induction calls as [|[t op] rest IH]; intros c w Hs Ht; [done|]. cbn [timely] in Ht.
  destruct Ht as (Hty & Hle & Hgap & Hrest). pose proof (step_refines op t c w Hs Hty Hle Hgap) as [H1 H2].
  cbn [runClock runWall]. destruct (runOp op (u32 t) c) as [out c'], (wallOp op t w) as [out' w'].
  cbn in *. subst out'. destruct (IH c' w' H2 Hrest) as [H3 H4].
  destruct (runClock rest c'), (runWall rest w'). cbn in *. by rewrite H3.
Qed.
Lemma shows_reset : Shows clock0 wall0.
Proof. by constructor. Qed.

(** C25: The clock is a wall clock.  Over any sequence of calls (setting it from texts,
    numbers or network time, reading, snapshots, restoring, resetting), with a counter
    that wraps every 49.7 days and only runs forward between calls, every result,
    reading and snapshot is that of a clock that keeps one unbounded offset from the
    time since power-on: it loses no millisecond over the wrap, notices a gap longer
    than half the counter range, and stops at its maximum. *)
Theorem clock_refines_wall calls : timely calls wall0 ->
  fst (runClock calls clock0) = fst (runWall calls wall0) /\
  Shows (snd (runClock calls clock0)) (snd (runWall calls wall0)).
Proof. apply clock_simulation, shows_reset. Qed.

Definition exampleCalls : list (Z * Op) :=
  [(1000, OpUnixSeconds 1789000000 250 AuthenticatedApp 120); (2 ^ 31 - 1, OpRead); (2 ^ 32 - 500, OpRead);
   (2 ^ 32 + 1700, OpRead)].
Lemma exampleCalls_timely : timely exampleCalls wall0.
Proof. vm_compute. repeat split; intros; try discriminate; done. Qed.
Lemma clock_refines_wall_witness :
  timely exampleCalls wall0 /\ fst (runClock exampleCalls clock0) = fst (runWall exampleCalls wall0) /\
  fst (runWall exampleCalls wall0) <> [].
Proof.
  split; [exact exampleCalls_timely|]. split; [exact (proj1 (clock_refines_wall exampleCalls exampleCalls_timely))|].
  vm_compute. discriminate.
Defined.

(** ** What a trusted reading says *)

(** The instant an accepted setting gives the clock, in milliseconds. *)
Definition opInstant (op : Op) : option Z :=
  match op with
  | OpIso _ _ | OpUnixText _ _ _ | OpUnixSeconds _ _ _ _ | OpNtp _ =>
      match opInput op wall0 with inr (instant, _, _) => Some instant | inl _ => None end
  | _ => None
  end.
(** A call that leaves the setting alone. *)
Definition leaves (op : Op) : Prop :=
  opInstant op = None /\
  match op with OpReset => False | OpRestore s => validateSnapshot s <> ClockOk | _ => True end.

(** The last accepted setting was at [t0] to [instant]. *)
Definition lastSetting (calls : list (Z * Op)) (t0 instant : Z) : Prop :=
  exists before op after, calls = before ++ (t0, op) :: after /\ opInstant op = Some instant /\
    Forall (fun call => leaves (snd call)) after.

Lemma runWall_app a b w : runWall (a ++ b) w =
  let '(o1, w1) := runWall a w in let '(o2, w2) := runWall b w1 in (o1 ++ o2, w2).
Proof.
  revert w. induction a as [|[t op] a IH]; intros w; cbn [app runWall]; [by destruct (runWall b w)|].
  destruct (wallOp op t w) as [o w']. rewrite IH. destruct (runWall a w') as [o1 w1]. by destruct (runWall b w1).
Qed.
Lemma runClock_app a b c : runClock (a ++ b) c =
  let '(o1, c1) := runClock a c in let '(o2, c2) := runClock b c1 in (o1 ++ o2, c2).
Proof.
  revert c. induction a as [|[t op] a IH]; intros c; cbn [app runClock]; [by destruct (runClock b c)|].
  destruct (runOp op (u32 t) c) as [o c']. rewrite IH. destruct (runClock a c') as [o1 c1]. by destruct (runClock b c1).
Qed.
Lemma timely_app a b w : timely (a ++ b) w -> timely a w /\ timely b (snd (runWall a w)).
Proof.
  revert w. induction a as [|[t op] a IH]; intros w; cbn [app timely runWall]; [done|].
  intros (? & ? & ? & Hr). destruct (wallOp op t w) as [o w']. destruct (IH w' Hr) as [? ?].
  destruct (runWall a w') as [o1 w1]. done.
Qed.

Lemma setting_leaves calls t op t0 instant : lastSetting calls t0 instant -> leaves op ->
  lastSetting (calls ++ [(t, op)]) t0 instant.
Proof.
  intros (before & op0 & after & -> & Hi & Hall) Hop. exists before, op0, (after ++ [(t, op)]).
  rewrite <- app_assoc. split; [done|]. split; [done|]. apply Forall_app. split; [done|]. by constructor.
Qed.
Lemma setting_now calls t op instant : opInstant op = Some instant -> lastSetting (calls ++ [(t, op)]) t instant.
Proof. intros Hi. exists calls, op, []. by split. Qed.

(** A trusted wall clock is ahead by what the last setting made it. *)
Lemma trusted_setting calls : let w := snd (runWall calls wall0) in
  w_trust w = Trusted -> exists t0 instant, lastSetting calls t0 instant /\ w_ahead w = instant - t0.
Proof.
  induction calls as [|[t op] calls IH] using rev_ind; [done|]. rewrite runWall_app.
  destruct (runWall calls wall0) as [outs w] eqn:E. cbn [snd] in IH. cbn [runWall].
  destruct (wallOp op t w) as [out w'] eqn:Eop. cbn [snd]. intros Htr.
  assert (Hkeep : w_trust w = Trusted -> w_ahead w' = w_ahead w -> leaves op ->
    exists t0 instant, lastSetting (calls ++ [(t, op)]) t0 instant /\ w_ahead w' = instant - t0).
  { intros Hw Ha Hl. destruct (IH Hw) as (t0 & instant & Hset & Hah). exists t0, instant.
    split; [by apply setting_leaves|]. by rewrite Ha. }
  assert (Hset : forall trust, wallSet t (opInput op w) trust w = (out, w') ->
    opInstant op = match opInput op w with inr (instant, _, _) => Some instant | inl _ => None end ->
    (opInstant op = None -> leaves op) ->
    exists t0 instant, lastSetting (calls ++ [(t, op)]) t0 instant /\ w_ahead w' = instant - t0).
  { intros trust. unfold wallSet. destruct (opInput op w) as [e|[[instant source] offset]]; intros [= <- <-] Hi Hn.
    - apply Hkeep; [done|done|by apply Hn].
    - exists t, instant. split; [by apply setting_now|done]. }
  assert (Hlook : forall r, wallLook t w = (r, w') -> leaves op ->
    exists t0 instant, lastSetting (calls ++ [(t, op)]) t0 instant /\ w_ahead w' = instant - t0).
  { intros r. unfold wallLook. destruct (w_trust w =? Unset) eqn:Eu; [intros [= <- <-]; by apply Hkeep|].
    destruct (_ <? _); [intros [= <- <-]; done|]. destruct (_ <? _); [intros [= <- <-]; done|].
    intros [= <- <-] Hl. by apply Hkeep. }
  destruct op as [|text source|text source offset|s ms source offset|sample|offset| |generation|s]; cbn [wallOp] in Eop.
  - injection Eop as <- <-. done.
  - by apply (Hset _ Eop).
  - by apply (Hset _ Eop).
  - by apply (Hset _ Eop).
  - apply (Hset _ Eop); [|done]. cbn. destruct (negb _); [done|]. by destruct (validInstant _ _).
  - destruct (validOffset offset); injection Eop as <- <-; by apply Hkeep.
  - destruct (wallLook t w) as [r w1] eqn:El. injection Eop as <- <-. by apply (Hlook r).
  - destruct (wallLook t w) as [r w1] eqn:El. injection Eop as <- <-. by apply (Hlook r).
  - unfold wallSet in Eop. cbn [opInput] in Eop. destruct (validateSnapshot s) eqn:Ev; injection Eop as <- <-; try done;
      (apply Hkeep; [done|done|split; [done|by rewrite Ev]]).
Qed.

(** C29: A reading that says it is trusted is exact: some accepted setting preceded it,
    the clock was not set, restored or reset since, and the instant read is the one set
    plus exactly the milliseconds that passed, however often the 32-bit counter
    wrapped.  Network time, texts and numbers count alike; a restored snapshot never
    does. *)
Theorem trusted_reading_exact calls t result r : timely (calls ++ [(t, OpRead)]) wall0 ->
  let c := snd (runClock calls clock0) in
  fst (read (u32 t) c) = (result, r) -> r_trust r = Trusted ->
  result = ClockOk /\ exists t0 instant, lastSetting calls t0 instant /\
    r_unixSeconds r * 1000 + r_millisecond r = instant + (t - t0).
Proof.
  intros Ht c Hread Htr. destruct (timely_app _ _ _ Ht) as [Hcalls (_ & Hle & Hgap & _)].
  destruct (clock_simulation calls _ _ shows_reset Hcalls) as [_ Hs]. fold c in Hs.
  set (w := snd (runWall calls wall0)) in *. pose proof (advance_look t c w Hs Hle Hgap) as Hlook.
  destruct (wallLook t w) as [r0 w'] eqn:El. unfold read, bind in Hread.
  destruct (advance (u32 t) c) as [r1 c']. cbn in *. destruct Hlook as (-> & Hs' & Hl). injection Hread as <- <-.
  rewrite (look_reading t c' w' Hs' Hl) in Htr |- *. cbn in Htr.
  assert (Hw : w_trust w = Trusted /\ w_ahead w' = w_ahead w /\ r0 = ClockOk).
  { unfold wallLook in El. destruct (Z.eqb_spec (w_trust w) Unset) as [Eu|]; [injection El as <- <-; by rewrite Eu in Htr|].
    destruct (_ <? _); [injection El as <- <-; done|]. destruct (_ <? _); [injection El as <- <-; done|].
    injection El as <- <-. done. }
  destruct Hw as (Hw & Ha & Hr). split; [done|].
  destruct (trusted_setting calls Hw) as (t0 & instant & Hset & Hah). exists t0, instant. split; [done|].
  unfold wallReading. cbn. rewrite Htr. change (Trusted =? Unset) with false. cbv iota. fold w in Hah.
  pose proof (Z.div_mod (w_ahead w' + t) 1000 ltac:(lia)). lia.
Qed.

Lemma trusted_reading_exact_witness :
  let calls := take 2 exampleCalls in
  let t := 2 ^ 32 - 500 in
  exists result r, fst (read (u32 t) (snd (runClock calls clock0))) = (result, r) /\ r_trust r = Trusted /\
    exists t0 instant, lastSetting calls t0 instant /\ r_unixSeconds r * 1000 + r_millisecond r = instant + (t - t0).
Proof.
  intros calls t. eexists _, _. split; [reflexivity|]. split; [vm_compute; reflexivity|].
  assert (Ht : timely (calls ++ [(t, OpRead)]) wall0) by (vm_compute; repeat split; intros; try discriminate; done).
  exact (proj2 (trusted_reading_exact calls t _ _ Ht eq_refl ltac:(vm_compute; reflexivity))).
Defined.

(** ** The one-button editor of [Clock]

    Whatever is pressed, the editor shows a date and time that exist, and what it
    commits is the instant it shows. *)

Inductive Press := Short | Long | Cancel.
Definition press (p : Press) : M ClockEditorView unit :=
  match p with
  | Short => shortPress ;;; ret tt
  | Long => longPress ;;; ret tt
  | Cancel => cancel
  end.
Definition pressAll (presses : list Press) (v : ClockEditorView) : ClockEditorView :=
  fold_left (fun v p => snd (press p v)) presses v.

(** The civil time shown. *)
Definition shown (v : ClockEditorView) : Civil :=
  mkCivil (v_year v) (v_month v) (v_day v) (v_hour v) (v_minute v) 0.

(** An active editor shows an existing time in its ranges. *)
Definition EditorOk (v : ClockEditorView) : Prop :=
  v_active v = true ->
  civilOk (shown v) /\ kClockEditorMinimumYear <= v_year v <= kClockEditorMaximumYear /\
  kClockEditorMinimumOffsetMinutes <= v_utcOffsetMinutes v <= kClockEditorMaximumOffsetMinutes.

Lemma monthDays_valid y m : 1 <= m <= 12 -> 28 <= monthDays y m <= 31.
Proof.
  intros Hm. unfold monthDays. rewrite (proj2 (Z.ltb_ge m 1)), (proj2 (Z.ltb_ge 12 m)) by lia. cbn [orb].
  destruct (_ && _); [lia|].
  destruct (month_cases (m - 1) ltac:(lia)) as
    [-> |[-> |[-> |[-> |[-> |[-> |[-> |[-> |[-> |[-> |[-> | ->]]]]]]]]]]]; by vm_compute.
Qed.

Lemma dateOk_iff y m d : dateOk (y, m, d) = true <-> 1 <= m <= 12 /\ 1 <= d <= monthDays y m.
Proof. unfold dateOk. rewrite !andb_true_iff, !Z.leb_le. lia. Qed.

(** What an active editor shows, as ranges. *)
Lemma editorOk_iff v : EditorOk v <-> (v_active v = true ->
  (2024 <= v_year v <= 2099 /\ 1 <= v_month v <= 12 /\ 1 <= v_day v <= monthDays (v_year v) (v_month v)) /\
  0 <= v_hour v <= 23 /\ 0 <= v_minute v <= 59 /\ -720 <= v_utcOffsetMinutes v <= 840).
Proof.
  unfold EditorOk, civilOk, shown, kClockEditorMinimumYear, kClockEditorMaximumYear, kClockEditorMinimumOffsetMinutes,
    kClockEditorMaximumOffsetMinutes. cbn [c_year c_month c_day c_hour c_minute c_second]. rewrite dateOk_iff.
  split; intros Hv Ha; specialize (Hv Ha); lia.
Qed.

Lemma bump_ok v : EditorOk v -> EditorOk (bump v).
Proof.
  rewrite !editorOk_iff. intros Hv. unfold bump.
  destruct (v_field v); cbn; intros Ha; specialize (Hv Ha); destruct Hv as ((Hy & Hm & Hd) & Hh & Hmin & Ho);
    unfold kClockEditorMinimumYear, kClockEditorMaximumYear, kClockEditorMinimumOffsetMinutes,
      kClockEditorMaximumOffsetMinutes, kClockEditorOffsetStepMinutes in *; try lia.
  - set (y := if _ <=? _ then _ else _). assert (2024 <= y <= 2099).
    { unfold y. destruct (Z.leb_spec 2099 (v_year v)); [lia|]. rewrite u16_id by lia. lia. }
    pose proof (monthDays_valid y (v_month v) Hm). destruct (Z.ltb_spec (monthDays y (v_month v)) (v_day v)); lia.
  - set (m := if _ <=? _ then _ else _). assert (1 <= m <= 12).
    { unfold m. destruct (Z.leb_spec 12 (v_month v)); [lia|]. rewrite u8_id by lia. lia. }
    pose proof (monthDays_valid (v_year v) m ltac:(done)).
    destruct (Z.ltb_spec (monthDays (v_year v) m) (v_day v)); lia.
  - pose proof (monthDays_valid (v_year v) (v_month v) Hm).
    destruct (Z.leb_spec (monthDays (v_year v) (v_month v)) (v_day v)); [lia|]. rewrite u8_id by lia. lia.
  - destruct (Z.leb_spec 23 (v_hour v)); [lia|]. rewrite u8_id by lia. lia.
  - destruct (Z.leb_spec 59 (v_minute v)); [lia|]. rewrite u8_id by lia. lia.
  - destruct (Z.ltb_spec (840 - 15) (v_utcOffsetMinutes v)); lia.
Qed.

Lemma editorOk_shown v w : shown v = shown w -> v_utcOffsetMinutes v = v_utcOffsetMinutes w -> v_active v = v_active w ->
  EditorOk w -> EditorOk v.
Proof.
  unfold EditorOk. intros Hs Ho -> Hw Ha. specialize (Hw Ha). rewrite Hs, Ho. injection Hs as -> _ _ _ _. done.
Qed.

Lemma press_ok p v : EditorOk v -> EditorOk (snd (press p v)).
Proof.
  intros Hv. destruct p; cbn.
  - unfold shortPress, bind, gets. destruct (v_active v); cbn; [|done]. apply bump_ok.
    by eapply editorOk_shown; [| | |exact Hv].
  - unfold longPress, bind, gets. destruct (v_active v); cbn; [|done].
    destruct (v_field v); cbn; try done; by eapply editorOk_shown; [| | |exact Hv].
  - done.
Qed.

Lemma begin_ok seed offset v : EditorOk (snd (editorBegin seed offset v)).
Proof.
  unfold editorBegin. destruct (validOffset offset) eqn:Eo; cbn [negb orb]; [|done].
  destruct (validInstant seed 0) eqn:Ei; cbn [negb]; [|done].
  assert (Hin : inClock seed offset).
  { apply validInstant_iff in Ei; [|lia]. split; [lia|by apply validOffset_iff]. }
  destruct (unixToCivil_ok seed offset Hin) as (H1 & H2 & H3 & H4 & H5). cbv zeta.
  generalize dependent (unixToCivil seed offset). intros c H1 H2 H3 H4 H5. destruct (_ || _) eqn:E; [done|].
  rewrite !orb_false_iff, !Z.ltb_ge in E. unfold EditorOk, shown. cbn. intros _.
  split; [|lia]. unfold civilOk. cbn. split_and!; try done; lia.
Qed.

Lemma pressAll_ok presses v : EditorOk v -> EditorOk (pressAll presses v).
Proof. revert v. induction presses as [|p presses IH]; intros v Hv; [done|]. cbn. by apply IH, press_ok. Qed.

Lemma value_shown v s o : EditorOk v -> value v = Some (s, o) ->
  o = v_utcOffsetMinutes v /\ inClock s o /\ unixToCivil s o = shown v.
Proof.
  intros Hok. unfold value. destruct (v_active v) eqn:Ea; [|done]. destruct (v_commitReady v); [|done].
  destruct (bool_decide _); [|done]. cbn [negb orb]. specialize (Hok Ea) as (Hc & Hy & Ho).
  unfold kClockEditorMinimumYear, kClockEditorMaximumYear, kClockEditorMinimumOffsetMinutes,
    kClockEditorMaximumOffsetMinutes in *. fold (shown v).
  destruct (civilToUnix (shown v) (v_utcOffsetMinutes v)) as [c|] eqn:Ec; [|done]. cbn [mbind option_bind].
  destruct (validInstant c 0) eqn:Ei; [|done]. intros [= <- <-]. split; [done|].
  assert (Hin : inClock c (v_utcOffsetMinutes v)).
  { apply validInstant_iff in Ei; [|lia]. unfold inClock, kMinimumUtcOffsetMinutes, kMaximumUtcOffsetMinutes. lia. }
  split; [done|]. apply unix_civil_inverse; try done. cbn. lia.
Qed.

(** Long presses on an editor that was not edited reach its commit. *)
Definition begun (c : Civil) (offset : Z) : ClockEditorView :=
  mkView true false FieldYear (c_year c) (c_month c) (c_day c) (c_hour c) (c_minute c) offset.
Lemma begin_begun seed offset v0 : fst (editorBegin seed offset v0) = ClockOk ->
  snd (editorBegin seed offset v0) = begun (unixToCivil seed offset) offset /\
  validInstant seed 0 = true /\ validOffset offset = true.
Proof.
  unfold editorBegin. destruct (validOffset offset); cbn [negb orb]; [|done].
  destruct (validInstant seed 0); cbn [negb]; [|done]. cbv zeta. generalize (unixToCivil seed offset). intros c.
  by destruct (_ || _).
Qed.
Lemma begun_value c offset : value (pressAll (replicate 7 Long) (begun c offset)) =
  (candidate ← civilToUnix (mkCivil (c_year c) (c_month c) (c_day c) (c_hour c) (c_minute c) 0) offset;
   if negb (validInstant candidate 0) then None else Some (candidate, offset)).
Proof. reflexivity. Qed.

Lemma civil_minute s offset : inClock s offset ->
  let c := unixToCivil s offset in
  civilToUnix (mkCivil (c_year c) (c_month c) (c_day c) (c_hour c) (c_minute c) 0) offset = Some (s - s mod 60).
Proof.
  intros Hin. cbv zeta. pose proof (unixToCivil_ok s offset Hin) as Hok. pose proof (civil_unix_inverse s offset Hin) as Hinv.
  pose proof (local_time s offset Hin) as Hlocal. cbv zeta in Hlocal.
  unfold inClock, kMinimumClockUnixSeconds, kMaximumClockUnixSeconds in Hin. destruct Hin as [Hs Ho].
  assert (Hsec : c_second (unixToCivil s offset) = s mod 60).
  { rewrite Hlocal. destruct (civilFromDays _) as [[? ?] ?]. cbn.
    unfold kMinimumUtcOffsetMinutes, kMaximumUtcOffsetMinutes in Ho. Z.to_euclidean_division_equations. lia. }
  clear Hlocal. generalize dependent (unixToCivil s offset). intros c Hok Hinv Hsec.
  apply validOffset_iff in Ho. rewrite civilToUnix_ok in Hinv by done.
  rewrite civilToUnix_ok by (try done; destruct Hok as (? & ? & ? & ? & ?); repeat split; cbn; try done; lia).
  cbn [c_year c_month c_day c_hour c_minute c_second]. cbv zeta in *. rewrite Hsec in Hinv.
  pose proof (Z.mod_pos_bound s 60 ltac:(lia)). set (n := daysFromCivil _ _ _ * 86400) in *. clearbody n.
  destruct (_ <? 0) in Hinv; [done|]. injection Hinv as Hinv.
  destruct (Z.ltb_spec (n + c_hour c * 3600 + c_minute c * 60 + 0 - offset * 60) 0); [lia|]. f_equal. lia.
Qed.

Lemma unedited_value seed offset v0 : fst (editorBegin seed offset v0) = ClockOk ->
  value (pressAll (replicate 7 Long) (snd (editorBegin seed offset v0))) = Some (seed - seed mod 60, offset).
Proof.
  intros Hb. destruct (begin_begun seed offset v0 Hb) as (-> & Hi & Ho). clear Hb.
  apply validInstant_iff in Hi; [|lia]. apply validOffset_iff in Ho.
  rewrite begun_value, civil_minute by (split; [lia|done]). cbn [mbind option_bind].
  assert (Hv : validInstant (seed - seed mod 60) 0 = true).
  { apply validInstant_iff; [lia|]. unfold kMinimumClockUnixSeconds, kMaximumClockUnixSeconds in *.
    Z.to_euclidean_division_equations. lia. }
  by rewrite Hv.
Qed.

(** The editor shows only times that exist, and commits what it shows.  After any
    sequence of presses and cancellations on an editor begun at any instant, an active
    editor shows an existing date and time within its years and offsets; whatever value
    it hands out is an instant of the clock that is displayed, in the offset chosen, as
    exactly the time shown; and an editor that is not edited hands out the minute it
    was begun with. *)
Theorem editor_commits_shown seed offset v0 presses :
  let v := pressAll presses (snd (editorBegin seed offset v0)) in
  EditorOk v /\
  (forall s o, value v = Some (s, o) ->
     o = v_utcOffsetMinutes v /\ inClock s o /\ unixToCivil s o = shown v) /\
  (fst (editorBegin seed offset v0) = ClockOk -> presses = replicate 7 Long ->
     value v = Some (seed - seed mod 60, offset)).
Proof.
  intros v. assert (Hv : EditorOk v) by (apply pressAll_ok, begin_ok). split; [done|]. split.
  - intros s o. by apply value_shown.
  - intros Hb ->. by apply unedited_value.
Qed.

(** The month of a leap day is confirmed, the year moved on: the day is clamped. *)
Lemma editor_example :
  let v := pressAll ([Short] ++ replicate 7 Long) (snd (editorBegin 1835397000 0 view0)) in
  shown v = mkCivil 2029 2 28 0 30 0 /\ value v = Some (1866933000, 0).
Proof. split; by vm_compute. Qed.
