(* ===== verification/Focus.v ===== *)
(** * Focus sessions (kitsu_focus_session.h/.cpp)

    Class FocusSession: a timer of focus and break that survives restarts.  Its state
    is the record it is stored as, [FocusState]; the phase and the two kinds are bytes of
    that record and stay bytes, because a stored record is untrusted.  [view] and
    [prompt] are here too. *)

From S2P Require Import Prelude Crc.

Open Scope Z_scope.
Open Scope kitsu_scope.

Definition kFocusStateSchemaVersion : Z := 1.
Definition kMinimumFocusMinutes : Z := 5.
Definition kMaximumFocusMinutes : Z := 120.
Definition kTwentyFiveMinutePreset : Z := 25.
Definition kFiftyMinutePreset : Z := 50.
Definition kMinimumTrustedUnixSeconds : Z := 1577836800.
Definition kMaximumTrustedUnixSeconds : Z := 4102444800.

(** Phase *)
Definition Idle : Z := 0.
Definition Focus : Z := 1.
Definition Break : Z := 2.
Definition Completed : Z := 3.

(** DurationKind *)
Definition TwentyFiveMinutes : Z := 0.
Definition FiftyMinutes : Z := 1.
Definition Custom : Z := 2.

(** CompletionKind *)
Definition NotCompleted : Z := 0.
Definition Natural : Z := 1.
Definition Stopped : Z := 2.
Definition Cancelled : Z := 3.

Inductive Status :=
  | FocusOk | Duplicate | InvalidArgument | Busy | Conflict | WrongSession | WrongPhase | ClockRollback
  | InvalidClock.
#[export] Instance Status_eq_dec : EqDecision Status.
Proof. solve_decision. Defined.

Inductive RestoreStatus :=
  | RestoreOk | BadMagic | UnsupportedSchema | InvalidState | BadCrc | RestoreClockRollback | RestoreInvalidClock.
#[export] Instance RestoreStatus_eq_dec : EqDecision RestoreStatus.
Proof. solve_decision. Defined.

Record ClockSample := mkSample { monotonicMs : Z; unixTrusted : bool; unixSeconds : Z }.
Record StartRequest := mkStart { q_sessionId : Z; q_duration : Z; q_customMinutes : Z }.
Record Update := mkUpdate {
  before : Z;
  after : Z;
  changed : bool;
  focusCompleted : bool;
  sessionCompleted : bool;
  recommendPulseBreathing : bool;
}.
Record Prompt := mkPrompt { title : list Z; detail : list Z; recommendBreathing : bool }.

Record FocusState := mkState {
  magic : Z;
  bytes : Z;
  schemaVersion : Z;
  phase_ : Z;
  durationKind : Z;
  completionKind : Z;
  focusMinutes : Z;
  breakMinutes : Z;
  reserved : Z;
  elapsedMs : Z;
  anchorElapsedMs : Z;
  sessionId : Z;
  anchorUnixSeconds : Z;
  sequence : Z;
  crc : Z;
}.

Definition kFocusStateMagic : Z := 0x3153464B.
Definition kMillisecondsPerMinute : Z := 60000.
Definition kMaximumMonotonicDelta : Z := 0x7FFFFFFF.
Definition sizeofFocusState : nat := 48.

Definition validPhase (value : Z) : bool := value <=? Completed.
Definition validDurationKind (value : Z) : bool := value <=? Custom.
Definition validCompletionKind (value : Z) : bool := value <=? Cancelled.
Definition validTrustedUnix (unixSeconds : Z) : bool :=
  (kMinimumTrustedUnixSeconds <=? unixSeconds) && (unixSeconds <=? kMaximumTrustedUnixSeconds).
Definition validateClock (clock : ClockSample) : bool :=
  negb (unixTrusted clock) || validTrustedUnix (unixSeconds clock).
Definition durationMs (minutes : Z) : Z := u32 (minutes * kMillisecondsPerMinute).
Definition focusMs (state : FocusState) : Z := durationMs (focusMinutes state).
Definition totalMs (state : FocusState) : Z := durationMs (u16 (focusMinutes state + breakMinutes state)).

Definition recommendedBreakMinutes (minutes : Z) : Z :=
  if minutes <=? 25 then 5 else if minutes <=? 50 then 10 else 15.

(** The focus and the break minutes; [None] where the code returns false. *)
Definition normalizeDuration (request : StartRequest) : option (Z * Z) :=
  minutes ←
    (if q_duration request =? TwentyFiveMinutes
     then if negb (q_customMinutes request =? 0) then None else Some kTwentyFiveMinutePreset
     else if q_duration request =? FiftyMinutes
     then if negb (q_customMinutes request =? 0) then None else Some kFiftyMinutePreset
     else if q_duration request =? Custom
     then if (q_customMinutes request <? kMinimumFocusMinutes) || (kMaximumFocusMinutes <? q_customMinutes request)
          then None else Some (q_customMinutes request)
     else None);
  Some (minutes, recommendedBreakMinutes minutes).

Definition validStoredDuration (state : FocusState) : bool :=
  let kind := durationKind state in
  match normalizeDuration (mkStart (sessionId state) kind (if kind =? Custom then focusMinutes state else 0)) with
  | Some (focus, break) => (focus =? focusMinutes state) && (break =? breakMinutes state)
  | None => false
  end.

Definition validStateSemantics (s : FocusState) : bool :=
  if negb (validPhase (phase_ s)) || negb (validDurationKind (durationKind s)) ||
     negb (validCompletionKind (completionKind s)) || negb (reserved s =? 0)
  then false
  else if sessionId s =? 0 then
    (phase_ s =? Idle) && (completionKind s =? NotCompleted) && (focusMinutes s =? 0) && (breakMinutes s =? 0) &&
    (elapsedMs s =? 0) && (anchorElapsedMs s =? 0) && (anchorUnixSeconds s =? 0) && (sequence s =? 0)
  else if (sequence s =? 0) || negb (validStoredDuration s) then false
  else
    let focusDuration := focusMs s in
    let totalDuration := totalMs s in
    if (totalDuration <? elapsedMs s) || (elapsedMs s <? anchorElapsedMs s) then false
    else if (if anchorUnixSeconds s =? 0 then negb (anchorElapsedMs s =? 0)
             else negb (validTrustedUnix (anchorUnixSeconds s)))
    then false
    else if phase_ s =? Focus then (completionKind s =? NotCompleted) && (elapsedMs s <? focusDuration)
    else if phase_ s =? Break then
      (completionKind s =? NotCompleted) && (focusDuration <=? elapsedMs s) && (elapsedMs s <? totalDuration)
    else if phase_ s =? Completed then
      if negb (anchorElapsedMs s =? 0) || negb (anchorUnixSeconds s =? 0) then false
      else if completionKind s =? Natural then elapsedMs s =? totalDuration
      else (completionKind s =? Stopped) && (elapsedMs s <? totalDuration)
    else if phase_ s =? Idle then
      if negb (anchorElapsedMs s =? 0) || negb (anchorUnixSeconds s =? 0) then false
      else if completionKind s =? Natural then elapsedMs s =? totalDuration
      else if (completionKind s =? Stopped) || (completionKind s =? Cancelled) then elapsedMs s <? totalDuration
      else false
    else false.

Definition recoveredElapsed (state : FocusState) (currentUnixSeconds : Z) : Z :=
  let totalDuration := totalMs state in
  if anchorUnixSeconds state =? 0 then elapsedMs state
  else
    let deltaSeconds := u64 (currentUnixSeconds - anchorUnixSeconds state) in
    let remaining := u32 (totalDuration - anchorElapsedMs state) in
    let secondsToEnd := (remaining + 999) / 1000 in
    let fromUnix :=
      if deltaSeconds <? secondsToEnd then u32 (anchorElapsedMs state + u32 (deltaSeconds * 1000))
      else totalDuration in
    if elapsedMs state <? fromUnix then fromUnix else elapsedMs state.

(** The packed record before its checksum. *)
Definition statePrefix (s : FocusState) : list Z :=
  put32 (magic s) ++ put16 (bytes s) ++ [schemaVersion s; phase_ s; durationKind s; completionKind s] ++
  put16 (focusMinutes s) ++ put16 (breakMinutes s) ++ put16 (reserved s) ++ put32 (elapsedMs s) ++
  put32 (anchorElapsedMs s) ++ put32 (sessionId s) ++ put32 (Z.shiftr (sessionId s) 32) ++
  put32 (anchorUnixSeconds s) ++ put32 (Z.shiftr (anchorUnixSeconds s) 32) ++ put32 (sequence s).
Definition stateBytes (s : FocusState) : list Z := statePrefix s ++ put32 (crc s).
Definition stateOf (l : list Z) : FocusState :=
  mkState (get32 l) (get16 (drop 4 l)) (byte_at l 6) (byte_at l 7) (byte_at l 8) (byte_at l 9)
    (get16 (drop 10 l)) (get16 (drop 12 l)) (get16 (drop 14 l)) (get32 (drop 16 l)) (get32 (drop 20 l))
    (get32 (drop 24 l) + 2 ^ 32 * get32 (drop 28 l)) (get32 (drop 32 l) + 2 ^ 32 * get32 (drop 36 l))
    (get32 (drop 40 l)) (get32 (drop 44 l)).

Definition focusStateCrc (s : FocusState) : Z := crc32 (statePrefix s).
Definition validateFocusState (s : FocusState) : bool :=
  (magic s =? kFocusStateMagic) && (bytes s =? Z.of_nat sizeofFocusState) &&
  (schemaVersion s =? kFocusStateSchemaVersion) && (crc s =? focusStateCrc s) && validStateSemantics s.

(** ** The members and their assignments *)

(** [FocusState{}] with the given members assigned. *)
Definition freshState (phase durationKind focusMinutes breakMinutes sessionId anchorUnixSeconds sequence : Z)
  : FocusState :=
  mkState kFocusStateMagic (Z.of_nat sizeofFocusState) kFocusStateSchemaVersion phase durationKind NotCompleted
    focusMinutes breakMinutes 0 0 0 sessionId anchorUnixSeconds sequence 0.
Definition state0 : FocusState := freshState Idle TwentyFiveMinutes 0 0 0 0 0.

Record FocusSession := mkSession {
  state_ : FocusState;
  bootAnchorMs_ : Z;
  bootAnchorElapsedMs_ : Z;
  timingArmed_ : bool;
}.
Definition F : Type -> Type := M FocusSession.
Definition members {A} (f : FocusState -> A) : F A := gets (fun s => f (state_ s)).
Definition assign (f : FocusState -> FocusState) : F unit :=
  modify (fun s => mkSession (f (state_ s)) (bootAnchorMs_ s) (bootAnchorElapsedMs_ s) (timingArmed_ s)).

Definition set_elapsed (v : Z) (s : FocusState) : FocusState :=
  mkState (magic s) (bytes s) (schemaVersion s) (phase_ s) (durationKind s) (completionKind s) (focusMinutes s)
    (breakMinutes s) (reserved s) v (anchorElapsedMs s) (sessionId s) (anchorUnixSeconds s) (sequence s) (crc s).
Definition set_phase (v : Z) (s : FocusState) : FocusState :=
  mkState (magic s) (bytes s) (schemaVersion s) v (durationKind s) (completionKind s) (focusMinutes s)
    (breakMinutes s) (reserved s) (elapsedMs s) (anchorElapsedMs s) (sessionId s) (anchorUnixSeconds s) (sequence s)
    (crc s).
Definition set_completion (v : Z) (s : FocusState) : FocusState :=
  mkState (magic s) (bytes s) (schemaVersion s) (phase_ s) (durationKind s) v (focusMinutes s)
    (breakMinutes s) (reserved s) (elapsedMs s) (anchorElapsedMs s) (sessionId s) (anchorUnixSeconds s) (sequence s)
    (crc s).
Definition set_anchor (unix elapsed : Z) (s : FocusState) : FocusState :=
  mkState (magic s) (bytes s) (schemaVersion s) (phase_ s) (durationKind s) (completionKind s) (focusMinutes s)
    (breakMinutes s) (reserved s) (elapsedMs s) elapsed (sessionId s) unix (sequence s) (crc s).
Definition set_sequence (v : Z) (s : FocusState) : FocusState :=
  mkState (magic s) (bytes s) (schemaVersion s) (phase_ s) (durationKind s) (completionKind s) (focusMinutes s)
    (breakMinutes s) (reserved s) (elapsedMs s) (anchorElapsedMs s) (sessionId s) (anchorUnixSeconds s) v (crc s).
Definition set_crc (v : Z) (s : FocusState) : FocusState :=
  mkState (magic s) (bytes s) (schemaVersion s) (phase_ s) (durationKind s) (completionKind s) (focusMinutes s)
    (breakMinutes s) (reserved s) (elapsedMs s) (anchorElapsedMs s) (sessionId s) (anchorUnixSeconds s) (sequence s) v.

(** ** Class FocusSession *)

Definition initializeUpdate (phase : Z) : Update := mkUpdate phase phase false false false false.
(** [update.changed = true;] and [update.changed = true; update.after = after;] *)
Definition update_changed (u : Update) : Update :=
  mkUpdate (before u) (after u) true (focusCompleted u) (sessionCompleted u) (recommendPulseBreathing u).
Definition update_after (phase : Z) (u : Update) : Update :=
  mkUpdate (before u) phase (changed u) (focusCompleted u) (sessionCompleted u) (recommendPulseBreathing u).
(** [update.sessionCompleted = false; update.recommendPulseBreathing = false;] *)
Definition update_quiet (u : Update) : Update :=
  mkUpdate (before u) (after u) (changed u) (focusCompleted u) false false.

Definition phase : F Z := members phase_.
Definition refreshCrc : F unit := assign (fun s => set_crc (focusStateCrc s) s).
Definition bumpSequence : F unit :=
  assign (fun s => let next := u32 (sequence s + 1) in set_sequence (if next =? 0 then 1 else next) s).
Definition arm (monotonic : Z) : F unit :=
  modify (fun s => mkSession (state_ s) monotonic (elapsedMs (state_ s)) true).
Definition disarm : F unit := modify (fun s => mkSession (state_ s) 0 0 false).
Definition reset : F unit := assign (fun _ => state0) ;;; disarm ;;; refreshCrc.
(** The members before the constructor calls [reset]. *)
Definition session0 : FocusSession := mkSession state0 0 0 false.

Definition start (request : StartRequest) (clock : ClockSample) : F (Status * Update) :=
  p <- phase ;;
  let update := initializeUpdate p in
  match (if q_sessionId request =? 0 then None else normalizeDuration request) with
  | None => ret (InvalidArgument, update)
  | Some (requestedFocus, requestedBreak) =>
      s <- members id ;;
      if sessionId s =? q_sessionId request then
        ret (if (durationKind s =? q_duration request) && (focusMinutes s =? requestedFocus) &&
                (breakMinutes s =? requestedBreak)
             then Duplicate else Conflict, update)
      else if negb (p =? Idle) then ret (Busy, update)
      else if negb (validateClock clock) then ret (InvalidClock, update)
      else
        assign (fun s => freshState Focus (q_duration request) requestedFocus requestedBreak (q_sessionId request)
          (if unixTrusted clock then unixSeconds clock else 0) (sequence s)) ;;;
        bumpSequence ;;;
        refreshCrc ;;;
        arm (monotonicMs clock) ;;;
        ret (FocusOk, update_after Focus (update_changed update))
  end.

Definition applyElapsed (elapsed : Z) (update : Update) : F Update :=
  oldPhase <- phase ;;
  focusDuration <- members focusMs ;;
  totalDuration <- members totalMs ;;
  assign (set_elapsed (if totalDuration <? elapsed then totalDuration else elapsed)) ;;;
  now <- members elapsedMs ;;
  newPhase <-
    (if totalDuration <=? now then
       assign (set_completion Natural) ;;; assign (set_anchor 0 0) ;;; disarm ;;; ret Completed
     else if focusDuration <=? now then ret Break
     else ret Focus) ;;
  assign (set_phase newPhase) ;;;
  ret (mkUpdate (before update) newPhase (changed update)
         ((oldPhase =? Focus) && negb (newPhase =? Focus))
         ((newPhase =? Completed) && negb (oldPhase =? Completed))
         ((oldPhase =? Focus) && (newPhase =? Break))).

Definition running (p : Z) : bool := (p =? Focus) || (p =? Break).

(** The members whose change is a new revision of the record. *)
Definition sameProgress (s t : FocusState) : bool :=
  (elapsedMs s =? elapsedMs t) && (phase_ s =? phase_ t) && (completionKind s =? completionKind t) &&
  (anchorElapsedMs s =? anchorElapsedMs t) && (anchorUnixSeconds s =? anchorUnixSeconds t).
Definition markChanged (reference : FocusState) (update : Update) : F Update :=
  s <- members id ;;
  if negb (sameProgress s reference) then bumpSequence ;;; refreshCrc ;;; ret (update_changed update)
  else ret update.

Definition tick (clock : ClockSample) : F (Status * Update) :=
  p <- phase ;;
  let update := initializeUpdate p in
  if negb (running p) then ret (FocusOk, update)
  else if negb (validateClock clock) then ret (InvalidClock, update)
  else
    s <- members id ;;
    if unixTrusted clock && negb (anchorUnixSeconds s =? 0) && (unixSeconds clock <? anchorUnixSeconds s)
    then ret (ClockRollback, update)
    else
      armed <- gets timingArmed_ ;;
      if negb armed then ret (InvalidClock, update)
      else
        bootAnchor <- gets bootAnchorMs_ ;;
        let monotonicDelta := u32 (monotonicMs clock - bootAnchor) in
        if kMaximumMonotonicDelta <? monotonicDelta then ret (ClockRollback, update)
        else
          bootElapsed <- gets bootAnchorElapsedMs_ ;;
          let totalDuration := totalMs s in
          let elapsed :=
            if monotonicDelta <? u32 (totalDuration - bootElapsed) then u32 (bootElapsed + monotonicDelta)
            else totalDuration in
          update <- applyElapsed elapsed update ;;
          p' <- phase ;;
          when (running p' && unixTrusted clock)
            (assign (fun t => set_anchor (unixSeconds clock) (elapsedMs t) t)) ;;;
          update <- markChanged s update ;;
          ret (FocusOk, update).

(** The part [stop] and [cancel] share; the phase and completion they end in. *)
Definition finish (endPhase completion sessionId_ : Z) (clock : ClockSample) : F (Status * Update) :=
  p <- phase ;;
  let update := initializeUpdate p in
  s <- members id ;;
  if (sessionId_ =? 0) || negb (sessionId_ =? sessionId s) then ret (WrongSession, update)
  else if negb (running p) then ret (WrongPhase, update)
  else
    ticked <- tick clock ;;
    let '(tickStatus, update) := ticked in
    p' <- phase ;;
    if negb (bool_decide (tickStatus = FocusOk)) || (p' =? Completed) then ret (tickStatus, update)
    else
      assign (set_phase endPhase) ;;;
      assign (set_completion completion) ;;;
      assign (set_anchor 0 0) ;;;
      disarm ;;;
      bumpSequence ;;;
      refreshCrc ;;;
      ret (FocusOk, update_quiet (update_after endPhase (update_changed update))).
Definition stop : Z -> ClockSample -> F (Status * Update) := finish Completed Stopped.
Definition cancel : Z -> ClockSample -> F (Status * Update) := finish Idle Cancelled.

Definition acknowledge (sessionId_ : Z) : F Status :=
  s <- members id ;;
  if (sessionId_ =? 0) || negb (sessionId_ =? sessionId s) then ret WrongSession
  else
    p <- phase ;;
    if negb (p =? Completed) then ret WrongPhase
    else
      assign (set_phase Idle) ;;;
      bumpSequence ;;;
      refreshCrc ;;;
      ret FocusOk.

Definition restore (saved : FocusState) (clock : ClockSample) : F (RestoreStatus * Update) :=
  p <- phase ;;
  let update := initializeUpdate p in
  if negb (magic saved =? kFocusStateMagic) then ret (BadMagic, update)
  else if negb (bytes saved =? Z.of_nat sizeofFocusState) || negb (schemaVersion saved =? kFocusStateSchemaVersion)
  then ret (UnsupportedSchema, update)
  else if negb (crc saved =? focusStateCrc saved) then ret (BadCrc, update)
  else if negb (validStateSemantics saved) then ret (InvalidState, update)
  else
    let update := initializeUpdate (phase_ saved) in
    let active := running (phase_ saved) in
    if active && negb (validateClock clock) then ret (RestoreInvalidClock, update)
    else if active && unixTrusted clock && negb (anchorUnixSeconds saved =? 0) &&
            (unixSeconds clock <? anchorUnixSeconds saved)
    then ret (RestoreClockRollback, update)
    else
      assign (fun _ => saved) ;;;
      disarm ;;;
      update <-
        (if active then
           update <- applyElapsed (if unixTrusted clock then recoveredElapsed saved (unixSeconds clock)
                                   else elapsedMs saved) update ;;
           p' <- phase ;;
           when (running p')
             (assign (fun t => if unixTrusted clock then set_anchor (unixSeconds clock) (elapsedMs t) t
                               else set_anchor 0 0 t) ;;;
              arm (monotonicMs clock)) ;;;
           ret update
         else ret update) ;;
      update <- markChanged saved update ;;
      ret (RestoreOk, update).

Definition prompt (s : FocusState) : Prompt :=
  if phase_ s =? Focus then mkPrompt (js "FOCUS TIME") (js "STAY WITH IT") false
  else if phase_ s =? Break then mkPrompt (js "FOCUS COMPLETE") (js "TRY PULSE BREATHING") true
  else if phase_ s =? Completed then
    if completionKind s =? Stopped then mkPrompt (js "SESSION STOPPED") (js "READY WHEN YOU ARE") false
    else mkPrompt (js "SESSION COMPLETE") (js "NICE WORK") false
  else mkPrompt [] [] false.

Record View := mkView {
  v_phase : Z;
  v_duration : Z;
  v_completion : Z;
  v_sessionId : Z;
  v_focusMinutes : Z;
  v_breakMinutes : Z;
  v_elapsedMs : Z;
  v_remainingMs : Z;
  v_sequence : Z;
  v_prompt : Prompt;
}.
Definition view (s : FocusState) : View :=
  mkView (phase_ s) (durationKind s) (completionKind s) (sessionId s) (focusMinutes s) (breakMinutes s) (elapsedMs s)
    (if running (phase_ s) then u32 (totalMs s - elapsedMs s) else 0) (sequence s) (prompt s).
