(* ===== verification/FocusFacts.v ===== *)
(** * The focus session is a timer

    The specification of [Focus]: a session is blank, running since it was armed, or
    ended; the record, its checksum and its revision number are functions of that.  Its
    time is the unbounded number of milliseconds since power-on, of which the class
    sees the low 32 bits. *)

From S2P Require Import Prelude Crc Focus.

Open Scope Z_scope.
Open Scope kitsu_scope.

(** ** The specification *)

(** A session: its id, kind, minutes of focus and of break. *)
Record Session := mkS { sid : Z; kind : Z; focusMin : Z; breakMin : Z }.
Definition focusOf (s : Session) : Z := focusMin s * 60000.
Definition totalOf (s : Session) : Z := (focusMin s + breakMin s) * 60000.
(** What may be asked for: 25 or 50 minutes, or 5 to 120 of one's own. *)
Definition sessionOk (s : Session) : Prop :=
  0 < sid s < 2 ^ 64 /\ breakMin s = recommendedBreakMinutes (focusMin s) /\
  (kind s = TwentyFiveMinutes /\ focusMin s = 25 \/ kind s = FiftyMinutes /\ focusMin s = 50 \/
   kind s = Custom /\ 5 <= focusMin s <= 120).

(** [Running s armed base seen unix unixAt]: armed at the time [armed] with
    [base] milliseconds gone; [seen] at the last tick; [unix] is the wall clock when it
    was last trusted and [unixAt] the time gone then, zero if never. *)
Inductive Timer :=
  | Blank (kind : Z)
  | Running (s : Session) (armed base seen unix unixAt : Z)
  | Ended (s : Session) (how elapsed : Z) (acknowledged : bool).

Definition phaseAt (s : Session) (e : Z) : Z := if focusOf s <=? e then Break else Focus.
Definition phaseOf (tm : Timer) : Z :=
  match tm with
  | Blank _ => Idle
  | Running s _ _ e _ _ => phaseAt s e
  | Ended _ _ _ ack => if ack then Idle else Completed
  end.

(** [last]: the time of the last call. *)
Definition timerOk (last : Z) (tm : Timer) : Prop :=
  match tm with
  | Blank k => 0 <= k <= Custom
  | Running s armed base seen unix unixAt =>
      sessionOk s /\ armed <= last /\ 0 <= base < totalOf s /\ base <= seen < totalOf s /\
      seen <= base + (last - armed) /\ 0 <= unixAt <= seen /\ (unix = 0 /\ unixAt = 0 \/ validTrustedUnix unix = true)
  | Ended s how e ack =>
      sessionOk s /\ 0 <= e /\
      (how = Natural /\ e = totalOf s \/ how = Stopped /\ e < totalOf s \/
       how = Cancelled /\ ack = true /\ e < totalOf s)
  end.

(** The record of a timer, with its revision and checksum. *)
Definition record (tm : Timer) (seq c : Z) : FocusState :=
  match tm with
  | Blank k => mkState kFocusStateMagic 48 kFocusStateSchemaVersion Idle k NotCompleted 0 0 0 0 0 0 0 seq c
  | Running s _ _ e unix unixAt =>
      mkState kFocusStateMagic 48 kFocusStateSchemaVersion (phaseAt s e) (kind s) NotCompleted (focusMin s)
        (breakMin s) 0 e unixAt (sid s) unix seq c
  | Ended s how e ack =>
      mkState kFocusStateMagic 48 kFocusStateSchemaVersion (if ack then Idle else Completed) (kind s) how (focusMin s)
        (breakMin s) 0 e 0 (sid s) 0 seq c
  end.
Definition sealed (tm : Timer) (seq : Z) : FocusState := record tm seq (focusStateCrc (record tm seq 0)).
Definition seqOk (tm : Timer) (seq : Z) : Prop :=
  0 <= seq < 2 ^ 32 /\ match tm with Blank _ => seq = 0 | _ => seq <> 0 end.
Definition nextSeq (seq : Z) : Z := if u32 (seq + 1) =? 0 then 1 else u32 (seq + 1).

(** The class holds the timer. *)
Definition session (tm : Timer) (seq : Z) : FocusSession :=
  match tm with
  | Running _ armed base _ _ _ => mkSession (sealed tm seq) (u32 armed) base true
  | _ => mkSession (sealed tm seq) 0 0 false
  end.

(** What a call reports. *)
Definition progress (tm : Timer) : Z * Z * Z * Z * Z :=
  let s := record tm 0 0 in (elapsedMs s, phase_ s, completionKind s, anchorElapsedMs s, anchorUnixSeconds s).
Definition moved (tm tm' : Timer) : bool := negb (bool_decide (progress tm = progress tm')).
Definition quiet (tm : Timer) : Update := initializeUpdate (phaseOf tm).
(** The update of a timer that went from [tm] to [tm'] by itself. *)
Definition passed (tm tm' : Timer) : Update :=
  let '(p, p') := (phaseOf tm, phaseOf tm') in
  mkUpdate p p' (moved tm tm') ((p =? Focus) && negb (p' =? Focus)) ((p' =? Completed) && negb (p =? Completed))
    ((p =? Focus) && (p' =? Break)).

(** The session with [e] milliseconds gone. *)
Definition settle (s : Session) (armed base e unix unixAt : Z) : Timer :=
  if totalOf s <=? e then Ended s Natural (totalOf s) false else Running s armed base e unix unixAt.

Definition timerStart (request : StartRequest) (clock : ClockSample) (tm : Timer) : Status * Update * Timer :=
  match (if q_sessionId request =? 0 then None else normalizeDuration request) with
  | None => (InvalidArgument, quiet tm, tm)
  | Some (focus, break) =>
      let s := mkS (q_sessionId request) (q_duration request) focus break in
      match (match tm with Blank _ => None | Running s0 _ _ _ _ _ | Ended s0 _ _ _ =>
               if sid s0 =? sid s then Some s0 else None end) with
      | Some s0 =>
          (if (kind s0 =? kind s) && (focusMin s0 =? focusMin s) then Duplicate else Conflict, quiet tm, tm)
      | None =>
          if negb (phaseOf tm =? Idle) then (Busy, quiet tm, tm)
          else if negb (validateClock clock) then (InvalidClock, quiet tm, tm)
          else (FocusOk, mkUpdate Idle Focus true false false false,
                Running s (monotonicMs clock) 0 0 (if unixTrusted clock then unixSeconds clock else 0) 0)
      end
  end.

(** The wall clock is trusted and before the last one that was. *)
Definition rolledBack (clock : ClockSample) (unix : Z) : bool :=
  unixTrusted clock && negb (unix =? 0) && (unixSeconds clock <? unix).

Definition timerTick (clock : ClockSample) (tm : Timer) : Status * Update * Timer :=
  match tm with
  | Running s armed base seen unix unixAt =>
      if negb (validateClock clock) then (InvalidClock, quiet tm, tm)
      else if rolledBack clock unix then (ClockRollback, quiet tm, tm)
      else
        if 2 ^ 31 <=? monotonicMs clock - armed then (ClockRollback, quiet tm, tm)
        else
          let e := base + (monotonicMs clock - armed) in
          let '(unix', unixAt') := if unixTrusted clock then (unixSeconds clock, e) else (unix, unixAt) in
          let tm' := settle s armed base e unix' unixAt' in
          (FocusOk, passed tm tm', tm')
  | _ => (FocusOk, quiet tm, tm)
  end.

Definition timerFinish (endPhase how id : Z) (clock : ClockSample) (tm : Timer) : Status * Update * Timer :=
  match tm with
  | Blank _ => (WrongSession, quiet tm, tm)
  | Ended s _ _ _ => (if sid s =? id then WrongPhase else WrongSession, quiet tm, tm)
  | Running s _ _ _ _ _ =>
      if negb (sid s =? id) then (WrongSession, quiet tm, tm)
      else
        match timerTick clock tm with
        | (FocusOk, update, Running s armed base e unix unixAt) =>
            (FocusOk, mkUpdate (before update) endPhase true (focusCompleted update) false false,
             Ended s how e (endPhase =? Idle))
        | result => result
        end
  end.

Definition timerAcknowledge (id : Z) (tm : Timer) : Status * Timer :=
  match tm with
  | Blank _ => (WrongSession, tm)
  | Running s _ _ _ _ _ => (if sid s =? id then WrongPhase else WrongSession, tm)
  | Ended s how e ack =>
      if negb (sid s =? id) then (WrongSession, tm)
      else if ack then (WrongPhase, tm) else (FocusOk, Ended s how e true)
  end.

(** Whole seconds of a trusted wall clock make up for the time without power. *)
Definition recovered (s : Session) (seen unix unixAt now : Z) : Z :=
  if unix =? 0 then seen else Z.max seen (Z.min (totalOf s) (unixAt + (now - unix) * 1000)).

Definition timerResume (clock : ClockSample) (tm : Timer) : RestoreStatus * Update * Timer :=
  match tm with
  | Running s _ _ seen unix unixAt =>
      if negb (validateClock clock) then (RestoreInvalidClock, quiet tm, tm)
      else if rolledBack clock unix then (RestoreClockRollback, quiet tm, tm)
      else
        let e := if unixTrusted clock then recovered s seen unix unixAt (unixSeconds clock) else seen in
        let '(unix', unixAt') := if unixTrusted clock then (unixSeconds clock, e) else (0, 0) in
        let tm' := settle s (monotonicMs clock) e e unix' unixAt' in
        (RestoreOk, passed tm tm', tm')
  | _ => (RestoreOk, quiet tm, tm)
  end.

(** ** Sessions and records *)

(** What the class sees of a sample of unbounded time. *)
Definition wrap (clock : ClockSample) : ClockSample :=
  mkSample (u32 (monotonicMs clock)) (unixTrusted clock) (unixSeconds clock).
(** Time does not run backwards, and a running timer is looked at within 49 days. *)
Definition timely (last : Z) (tm : Timer) (clock : ClockSample) : Prop :=
  last <= monotonicMs clock /\ 0 <= unixSeconds clock < 2 ^ 64 /\
  match tm with Running _ armed _ _ _ _ => monotonicMs clock - armed < 2 ^ 32 | _ => True end.

Lemma breakMinutes_range m : 5 <= recommendedBreakMinutes m <= 15.
Proof. unfold recommendedBreakMinutes. repeat case_match; lia. Qed.
Lemma sessionOk_range s : sessionOk s -> 5 <= focusMin s <= 120 /\ 5 <= breakMin s <= 15.
Proof. intros (_ & -> & H). pose proof (breakMinutes_range (focusMin s)). lia. Qed.
Lemma session_ms s : sessionOk s ->
  durationMs (focusMin s) = focusOf s /\ durationMs (u16 (focusMin s + breakMin s)) = totalOf s /\
  300000 <= focusOf s < totalOf s /\ totalOf s <= 8100000.
Proof.
  intros H%sessionOk_range. unfold durationMs, focusOf, totalOf, kMillisecondsPerMinute.
  rewrite u16_id by lia. rewrite !u32_id by lia. lia.
Qed.
Lemma session_duration s : sessionOk s ->
  normalizeDuration (mkStart (sid s) (kind s) (if kind s =? Custom then focusMin s else 0)) =
  Some (focusMin s, breakMin s).
Proof.
  intros (_ & Hb & [[Hk Hf]|[[Hk Hf]|[Hk Hf]]]); unfold normalizeDuration; cbn; rewrite Hk, ?Hb, ?Hf; try reflexivity.
  cbn. unfold kMinimumFocusMinutes, kMaximumFocusMinutes.
  destruct (Z.ltb_spec (focusMin s) 5); [lia|]. by destruct (Z.ltb_spec 120 (focusMin s)); [lia|].
Qed.
(** A request is accepted exactly when it describes a session. *)
Lemma request_session request focus break : 0 <= q_sessionId request < 2 ^ 64 ->
  (if q_sessionId request =? 0 then None else normalizeDuration request) = Some (focus, break) ->
  sessionOk (mkS (q_sessionId request) (q_duration request) focus break).
Proof.
  intros Hid. destruct (Z.eqb_spec (q_sessionId request) 0); [done|]. unfold normalizeDuration, sessionOk. cbn.
  unfold kMinimumFocusMinutes, kMaximumFocusMinutes, kTwentyFiveMinutePreset, kFiftyMinutePreset.
  destruct (Z.eqb_spec (q_duration request) TwentyFiveMinutes);
    [|destruct (Z.eqb_spec (q_duration request) FiftyMinutes);
      [|destruct (Z.eqb_spec (q_duration request) Custom); [|done]]].
  1,2: destruct (_ =? 0); [|done]; intros [= <- <-]; split; [lia|]; split; [done|]; tauto.
  destruct (Z.ltb_spec (q_customMinutes request) 5); [done|].
  destruct (Z.ltb_spec 120 (q_customMinutes request)); [done|]. intros [= <- <-].
  split; [lia|]. split; [done|]. right; right. split; [done|lia].
Qed.

Lemma record_crc tm seq c : focusStateCrc (record tm seq c) = focusStateCrc (record tm seq 0).
Proof. unfold focusStateCrc. apply f_equal. by destruct tm. Qed.
#[local] Opaque focusStateCrc.
Lemma record_phase tm seq c : phase_ (record tm seq c) = phaseOf tm.
Proof. destruct tm; reflexivity. Qed.
Lemma sealed_phase tm seq : phase_ (sealed tm seq) = phaseOf tm.
Proof. apply record_phase. Qed.
Lemma session_state tm seq : state_ (session tm seq) = sealed tm seq.
Proof. destruct tm; reflexivity. Qed.
Lemma running_iff last tm : timerOk last tm ->
  running (phaseOf tm) = match tm with Running _ _ _ _ _ _ => true | _ => false end.
Proof.
  destruct tm as [k|s ? ? e ? ?|s h e a]; cbn; intros H; [done| |].
  - unfold phaseAt. by destruct (_ <=? _).
  - by destruct a.
Qed.
Lemma nextSeq_ok tm seq : match tm with Blank _ => False | _ => True end -> seqOk tm (nextSeq seq).
Proof.
  intros Htm. unfold seqOk, nextSeq. pose proof (u32_range (seq + 1)). destruct (Z.eqb_spec (u32 (seq + 1)) 0) as [E|E].
  - split; [lia|]. by destruct tm.
  - split; [lia|]. by destruct tm.
Qed.

(** ** Statements on the record of a timer *)

(** [bumpSequence] and [refreshCrc] seal the record again. *)
Lemma record_sequence tm seq c n : set_sequence n (record tm seq c) = record tm n c.
Proof. destruct tm; reflexivity. Qed.
Lemma record_sequence_of tm seq c : sequence (record tm seq c) = seq.
Proof. destruct tm; reflexivity. Qed.
Lemma record_seal tm seq c d : set_crc d (record tm seq c) = record tm seq d.
Proof. destruct tm; reflexivity. Qed.
Lemma reseal_run {A} tm seq c a b t (k : F A) : let f := mkSession (record tm seq c) a b t in
  (bumpSequence ;;; refreshCrc ;;; k) f = k (mkSession (sealed tm (nextSeq seq)) a b t).
Proof.
  unfold bumpSequence, refreshCrc, assign, modify, bind. cbv beta iota zeta.
  cbn [state_ bootAnchorMs_ bootAnchorElapsedMs_ timingArmed_].
  rewrite record_sequence_of. fold (nextSeq seq). rewrite record_sequence, record_crc, record_seal. done.
Qed.

Lemma sameProgress_moved tm tm' seq c seq' c' :
  sameProgress (record tm' seq' c') (record tm seq c) = negb (moved tm tm').
Proof.
  transitivity (sameProgress (record tm' 0 0) (record tm 0 0)); [destruct tm, tm'; reflexivity|].
  unfold moved, progress, sameProgress. cbv zeta. rewrite negb_involutive.
  generalize (record tm 0 0), (record tm' 0 0). intros r r'. apply eq_true_iff_eq.
  rewrite !andb_true_iff, !Z.eqb_eq, bool_decide_eq_true. split.
  - intros [[[[-> ->] ->] ->] ->]. done.
  - intros [= -> -> -> -> ->]. done.
Qed.

(** [applyElapsed] on a running timer settles it. *)
Lemma applyElapsed_run s armed base seen unix unixAt seq c a b t e u :
  sessionOk s -> 0 <= e -> let tm := Running s armed base seen unix unixAt in
  let tm' := settle s armed base e unix unixAt in
  applyElapsed e u (mkSession (record tm seq c) a b t) =
  (mkUpdate (before u) (phaseOf tm') (changed u) (focusCompleted (passed tm tm')) (sessionCompleted (passed tm tm'))
     (recommendPulseBreathing (passed tm tm')),
   if totalOf s <=? e then mkSession (record tm' seq c) 0 0 false else mkSession (record tm' seq c) a b t).
Proof.
  intros Hs He. cbn zeta. destruct (session_ms s Hs) as (Hf & Ht & ? & ?).
  unfold applyElapsed, phase, members, assign, disarm, gets, modify, bind, ret.
  cbn -[Z.leb Z.ltb]. unfold totalMs, focusMs. cbn -[Z.leb Z.ltb]. rewrite Hf, Ht. unfold settle.
  destruct (Z.ltb_spec (totalOf s) e) as [Hlt|Hge].
  { rewrite (proj2 (Z.leb_le _ _) (Z.le_refl (totalOf s))), (proj2 (Z.leb_le (totalOf s) e)) by lia. reflexivity. }
  destruct (Z.leb_spec (totalOf s) e) as [Hle|Hlt].
  { assert (e = totalOf s) as -> by lia. reflexivity. }
  cbn. unfold phaseAt. destruct (Z.leb_spec (focusOf s) e); reflexivity.
Qed.

(** A timer that did not move has the same record. *)
Lemma settle_still s armed base seen unix unixAt armed' base' e unix' unixAt' seq c :
  let tm := Running s armed base seen unix unixAt in let tm' := settle s armed' base' e unix' unixAt' in
  moved tm tm' = false -> record tm' seq c = record tm seq c.
Proof.
  cbv zeta. unfold moved. rewrite negb_false_iff, bool_decide_eq_true. unfold settle.
  destruct (_ <=? _); unfold progress; cbn; [unfold phaseAt; by destruct (_ <=? seen)|].
  intros [= -> _ -> ->]. done.
Qed.
Lemma markChanged_run tm tm' seq c a b t u : (moved tm tm' = false -> sealed tm' seq = record tm' seq c) ->
  markChanged (sealed tm seq) u (mkSession (record tm' seq c) a b t) =
  if moved tm tm' then (update_changed u, mkSession (sealed tm' (nextSeq seq)) a b t)
  else (u, mkSession (sealed tm' seq) a b t).
Proof.
  intros Hstill. unfold markChanged, members, gets. unfold bind at 1. cbn [state_]. unfold id.
 unfold sealed at 1. rewrite sameProgress_moved, negb_involutive.
  destruct (moved tm tm'); [apply reseal_run|]. by rewrite Hstill.
Qed.
Lemma settle_session s armed base e unix unixAt seq : session (settle s armed base e unix unixAt) seq =
  mkSession (sealed (settle s armed base e unix unixAt) seq)
    (if totalOf s <=? e then 0 else u32 armed) (if totalOf s <=? e then 0 else base) (negb (totalOf s <=? e)).
Proof. unfold settle. by destruct (_ <=? _). Qed.
Lemma settle_ok last s armed base e unix unixAt : sessionOk s -> armed <= last -> 0 <= base < totalOf s ->
  base <= e <= base + (last - armed) -> 0 <= unixAt <= e -> (unix = 0 /\ unixAt = 0 \/ validTrustedUnix unix = true) ->
  timerOk last (settle s armed base e unix unixAt).
Proof.
  intros Hs Ha Hb He Hu Hx. unfold settle. pose proof (session_ms s Hs). destruct (Z.leb_spec (totalOf s) e); cbn.
  - split; [done|]. split; [lia|]. by left.
  - split; [done|]. repeat (split; [lia|]). done.
Qed.
Definition seqAfter (changed : bool) (seq : Z) : Z := if changed then nextSeq seq else seq.

(** ** Each call is a call of the timer *)

Lemma clock_unix clock : validateClock clock = true -> unixTrusted clock = true ->
  validTrustedUnix (unixSeconds clock) = true.
Proof. unfold validateClock. intros H Ht. by rewrite Ht in H. Qed.
Lemma timerOk_later last now tm : timerOk last tm -> last <= now -> timerOk now tm.
Proof.
  intros Hok Hle. destruct tm; [done| |done]. destruct Hok as (? & ? & ? & ? & ? & ? & ?). cbn.
  split; [done|]. repeat (split; [lia|]). done.
Qed.
Lemma timerTick_ok last clock tm : timerOk last tm -> timely last tm clock ->
  timerOk (monotonicMs clock) (snd (timerTick clock tm)).
Proof.
  intros Hok (Hle & _ & Ht). pose proof (timerOk_later last (monotonicMs clock) tm Hok Hle).
  destruct tm as [k|s armed base seen unix unixAt|s h e a]; [done| |done]. cbn [timerTick].
  destruct Hok as (Hs & Ha & Hb & He & Hse & Hu & Hux). destruct (validateClock clock) eqn:Ev; [|done]. cbn [negb].
  destruct (rolledBack clock unix); [done|]. destruct (Z.leb_spec (2 ^ 31) (monotonicMs clock - armed)); [done|].
  destruct (unixTrusted clock) eqn:Et; cbn [snd].
  - apply settle_ok; [done|lia..|right; by apply clock_unix].
  - apply settle_ok; [done|lia..|done].
Qed.

Lemma wrapped_delta t armed : armed <= t < armed + 2 ^ 32 -> u32 (u32 t - u32 armed) = t - armed.
Proof. intros H. unfold u32. rewrite <- Zminus_mod. apply Z.mod_small. lia. Qed.

(** The end of [tick]: the anchor follows a trusted wall clock, and what moved is sealed. *)
Definition tickTail (clock : ClockSample) (s : FocusState) (update : Update) : F (Status * Update) :=
  p' <- gets (fun f => phase_ (state_ f)) ;;
  when (running p' && unixTrusted clock) (assign (fun t => set_anchor (unixSeconds clock) (elapsedMs t) t)) ;;;
  update <- markChanged s update ;;
  ret (FocusOk, update).
Lemma passed_marked tm tm' : (if moved tm tm' then update_changed else id)
  (mkUpdate (phaseOf tm) (phaseOf tm') false (focusCompleted (passed tm tm')) (sessionCompleted (passed tm tm'))
     (recommendPulseBreathing (passed tm tm'))) = passed tm tm'.
Proof. unfold passed. by destruct (moved tm tm'). Qed.
Lemma moved_end s armed base seen unix unixAt s' how e ack :
  moved (Running s armed base seen unix unixAt) (Ended s' how e ack) = true.
Proof.
  unfold moved. rewrite bool_decide_eq_false_2; [done|]. unfold progress. cbn.
  intros [= _ H _]. unfold phaseAt in H. destruct ack, (focusOf s <=? seen); discriminate H.
Qed.
Section Tail.
Context (clock : ClockSample) (tm : Timer) (seq c a b : Z) (t : bool) (u : Update).
Definition sealedTo (tm' : Timer) : Status * Update * FocusSession :=
  ((FocusOk, if moved tm tm' then update_changed u else u), mkSession (sealed tm' (seqAfter (moved tm tm') seq)) a b t).
Definition stillSealed (tm' : Timer) : Prop := moved tm tm' = false -> sealed tm' seq = record tm' seq c.

Lemma tickTail_still tm' : running (phaseOf tm') && unixTrusted clock = false -> stillSealed tm' ->
  tickTail clock (sealed tm seq) u (mkSession (record tm' seq c) a b t) = sealedTo tm'.
Proof.
  intros Hr Hs. unfold tickTail, bind, gets, when. cbn [state_]. rewrite record_phase, Hr. unfold ret.
  rewrite markChanged_run by exact Hs. unfold sealedTo, seqAfter. by destruct (moved tm tm').
Qed.
Lemma tickTail_anchored s armed base e unix unixAt : let tm' := Running s armed base e (unixSeconds clock) e in
  running (phaseAt s e) && unixTrusted clock = true -> stillSealed tm' ->
  tickTail clock (sealed tm seq) u (mkSession (record (Running s armed base e unix unixAt) seq c) a b t) = sealedTo tm'.
Proof.
  intros tm' Hr Hs. unfold tickTail, bind, gets, when. cbn [state_]. rewrite record_phase. cbn [phaseOf].
  rewrite Hr. unfold assign, modify, ret. cbn [state_ bootAnchorMs_ bootAnchorElapsedMs_ timingArmed_].
  change (set_anchor _ _ _) with (record tm' seq c).
  rewrite markChanged_run by exact Hs. unfold sealedTo, seqAfter. by destruct (moved tm tm').
Qed.
End Tail.

Lemma settle_sealed s armed base seen unix unixAt armed' base' e unix' unixAt' seq :
  let tm := Running s armed base seen unix unixAt in let tm' := settle s armed' base' e unix' unixAt' in
  stillSealed tm seq (focusStateCrc (record tm seq 0)) tm'.
Proof.
  intros tm tm' Hm. unfold sealed. pose proof (settle_still s armed base seen unix unixAt armed' base' e unix' unixAt' seq) as H.
  cbv zeta in H. fold tm tm' in H. by rewrite (H 0 Hm).
Qed.

Lemma tick_applied clock s armed base seen unix unixAt seq e X : let tm := Running s armed base seen unix unixAt in
  sessionOk s -> 0 <= e -> X = Z.min e (totalOf s) ->
  let '(unix', unixAt') := if unixTrusted clock then (unixSeconds clock, e) else (unix, unixAt) in
  let tm' := settle s armed base e unix' unixAt' in
  (update <- applyElapsed X (initializeUpdate (phaseOf tm)) ;; tickTail clock (sealed tm seq) update) (session tm seq) =
  ((FocusOk, passed tm tm'), session tm' (seqAfter (changed (passed tm tm')) seq)).
Proof.
  intros tm Hs He ->. pose proof (session_ms s Hs). unfold bind at 1.
  change (session tm seq) with (mkSession (record tm seq (focusStateCrc (record tm seq 0))) (u32 armed) base true).
  unfold tm at 2. rewrite applyElapsed_run by (done || lia). fold tm.
  pose proof (fun u' a' => settle_sealed s armed base seen unix unixAt armed base e u' a' seq) as Hstill.
  cbv zeta in Hstill. fold tm in Hstill. unfold settle in *. destruct (Z.leb_spec (totalOf s) e) as [Hge|Hlt].
  - rewrite (Z.min_r e) by lia. rewrite (proj2 (Z.leb_le _ _) (Z.le_refl (totalOf s))).
    rewrite tickTail_still; [|reflexivity|apply (Hstill 0 0)]. unfold sealedTo, session.
    assert (Hm : moved tm (Ended s Natural (totalOf s) false) = true) by apply moved_end.
    destruct (unixTrusted clock); unfold seqAfter, passed; cbn [changed]; by rewrite Hm.
  - rewrite (Z.min_l e), (proj2 (Z.leb_gt (totalOf s) e)) by lia.
    assert (Hr : running (phaseAt s e) = true) by (unfold phaseAt; by destruct (_ <=? _)).
    destruct (unixTrusted clock) eqn:Et.
    + rewrite tickTail_anchored; [|by rewrite Hr, Et|apply Hstill]. unfold sealedTo, session, passed, seqAfter.
      cbn [changed]. by destruct (moved tm _).
    + rewrite tickTail_still; [|by rewrite Et, andb_false_r|apply Hstill]. unfold sealedTo, session, passed, seqAfter.
      cbn [changed]. by destruct (moved tm _).
Qed.
Lemma tick_sim last clock tm seq : timerOk last tm -> timely last tm clock ->
  let '(status, update, tm') := timerTick clock tm in
  tick (wrap clock) (session tm seq) = ((status, update), session tm' (seqAfter (changed update) seq)).
Proof.
  intros Hok (Hle & Hx & Ht). unfold tick, phase, members. unfold bind at 1, gets at 1.
  rewrite session_state, sealed_phase, (running_iff last tm Hok).
  destruct tm as [k|s armed base seen unix unixAt|s h e a]; [done| |done]. cbn [timerTick negb].
  change (validateClock (wrap clock)) with (validateClock clock).
  destruct Hok as (Hs & Ha & Hb & He & Hse & Hu & Hux). destruct (validateClock clock) eqn:Ev; [|done]. cbn [negb].
  unfold bind at 1, gets at 1. set (f := session _ seq).
  change (id (state_ f)) with (sealed (Running s armed base seen unix unixAt) seq).
  change (unixTrusted (wrap clock) && _ && _) with (rolledBack clock unix).
  destruct (rolledBack clock unix) eqn:Er; [done|].
  unfold bind at 1, gets at 1. change (timingArmed_ f) with true. cbn [negb].
  unfold bind at 1, gets at 1. change (bootAnchorMs_ f) with (u32 armed).
  change (monotonicMs (wrap clock)) with (u32 (monotonicMs clock)). rewrite wrapped_delta by lia.
  destruct (session_ms s Hs) as (Hf & Htot & Hrange & Hmax).
  assert (Hcmp : (kMaximumMonotonicDelta <? monotonicMs clock - armed) = (2 ^ 31 <=? monotonicMs clock - armed)).
  { unfold kMaximumMonotonicDelta. apply eq_true_iff_eq. rewrite Z.ltb_lt, Z.leb_le. lia. }
  rewrite Hcmp. destruct (Z.leb_spec (2 ^ 31) (monotonicMs clock - armed)) as [|Hd]; [done|].
  unfold bind at 1, gets at 1. change (bootAnchorElapsedMs_ f) with base.
  set (tm := Running s armed base seen unix unixAt) in *. change (totalMs (sealed tm seq)) with (durationMs (u16 (focusMin s + breakMin s))).
  rewrite Htot. set (e := base + (monotonicMs clock - armed)).
  change (let '(status, update, tm') := let '(unix', unixAt') := if unixTrusted (wrap clock) then (unixSeconds (wrap clock), e) else (unix, unixAt) in
     (FocusOk, passed tm (settle s armed base e unix' unixAt'), settle s armed base e unix' unixAt') in
   (update0 <- applyElapsed (if monotonicMs clock - armed <? u32 (totalOf s - base) then u32 e else totalOf s)
      (initializeUpdate (phaseOf tm)) ;; tickTail (wrap clock) (sealed tm seq) update0) f =
   (status, update, session tm' (seqAfter (changed update) seq))).
  pose proof (tick_applied (wrap clock) s armed base seen unix unixAt seq e
    (if monotonicMs clock - armed <? u32 (totalOf s - base) then u32 e else totalOf s) Hs ltac:(lia)) as Hrun.
  fold tm in Hrun. cbv zeta in Hrun. destruct (if unixTrusted _ then _ else _) as [unix' unixAt']. apply Hrun.
  rewrite u32_id by lia. destruct (Z.ltb_spec (monotonicMs clock - armed) (totalOf s - base)); [rewrite u32_id by lia|]; lia.
Qed.

Lemma fresh_run {A} s now unix f (x : A) : sessionOk s ->
  (assign (fun st => freshState Focus (kind s) (focusMin s) (breakMin s) (sid s) unix (sequence st)) ;;;
   bumpSequence ;;; refreshCrc ;;; arm (u32 now) ;;; ret x) f =
  (x, session (Running s now 0 0 unix 0) (nextSeq (sequence (state_ f)))).
Proof.
  intros Hs. pose proof (session_ms s Hs). unfold bind at 1, assign at 1, modify at 1. cbv beta iota zeta.
  replace (freshState _ _ _ _ _ _ _) with (record (Running s now 0 0 unix 0) (sequence (state_ f)) 0).
  - rewrite reseal_run. reflexivity.
  - unfold freshState, record, phaseAt. by rewrite (proj2 (Z.leb_gt (focusOf s) 0)) by lia.
Qed.
Lemma same_request s0 s : sessionOk s0 -> sessionOk s ->
  (kind s0 =? kind s) && (focusMin s0 =? focusMin s) && (breakMin s0 =? breakMin s) =
  (kind s0 =? kind s) && (focusMin s0 =? focusMin s).
Proof.
  intros (_ & -> & _) (_ & -> & _). destruct (Z.eqb_spec (focusMin s0) (focusMin s)) as [->|]; [|by rewrite !andb_false_r].
  by rewrite Z.eqb_refl, !andb_true_r.
Qed.
Lemma start_sim request clock tm seq last : timerOk last tm -> timely last tm clock -> 0 <= q_sessionId request < 2 ^ 64 ->
  let '(status, update, tm') := timerStart request clock tm in
  start request (wrap clock) (session tm seq) = ((status, update), session tm' (seqAfter (changed update) seq)) /\
  timerOk (monotonicMs clock) tm'.
Proof.
  intros Hok (Hle & Hx & _) Hid. pose proof (timerOk_later _ _ _ Hok Hle) as Hnow.
  unfold start, timerStart, phase, members. unfold bind at 1, gets at 1. rewrite session_state, sealed_phase.
  pose proof (request_session request) as Hreq. destruct (Z.eqb_spec (q_sessionId request) 0) as [|Hid0]; [done|].
  destruct (normalizeDuration request) as [[focus break]|]; [|done].
  specialize (Hreq focus break Hid eq_refl). set (s := mkS _ _ focus break) in *. cbv zeta.
  unfold bind at 1, gets at 1. unfold id. rewrite session_state. change (q_sessionId request) with (sid s).
  change (q_duration request) with (kind s). change focus with (focusMin s). change break with (breakMin s).
  change (validateClock (wrap clock)) with (validateClock clock).
  assert (Hgo : let '(status, update, tm') :=
      if negb (phaseOf tm =? Idle) then (Busy, quiet tm, tm)
      else if negb (validateClock clock) then (InvalidClock, quiet tm, tm)
      else (FocusOk, mkUpdate Idle Focus true false false false,
            Running s (monotonicMs clock) 0 0 (if unixTrusted clock then unixSeconds clock else 0) 0) in
    (if negb (phaseOf tm =? Idle) then ret (Busy, initializeUpdate (phaseOf tm))
     else if negb (validateClock clock) then ret (InvalidClock, initializeUpdate (phaseOf tm))
     else assign (fun st => freshState Focus (kind s) (focusMin s) (breakMin s) (sid s)
            (if unixTrusted (wrap clock) then unixSeconds (wrap clock) else 0) (sequence st)) ;;;
          bumpSequence ;;; refreshCrc ;;; arm (monotonicMs (wrap clock)) ;;;
          ret (FocusOk, update_after Focus (update_changed (initializeUpdate (phaseOf tm))))) (session tm seq) =
    ((status, update), session tm' (seqAfter (changed update) seq)) /\ timerOk (monotonicMs clock) tm').
  { destruct (Z.eqb_spec (phaseOf tm) Idle) as [Hp|]; [|done]. cbn [negb].
    destruct (validateClock clock) eqn:Ev; [|done]. cbn [negb].
    change (monotonicMs (wrap clock)) with (u32 (monotonicMs clock)). rewrite fresh_run by done.
    rewrite session_state. unfold sealed at 1. rewrite record_sequence_of, Hp. split; [reflexivity|]. cbn. pose proof (session_ms s Hreq).
    split; [done|]. repeat (split; [lia|]). destruct (unixTrusted clock) eqn:Et; [right; by apply clock_unix|by left]. }
  pose proof (fun s0 => same_request s0 s) as Hsame.
  destruct tm as [k|s0 armed base seen unix unixAt|s0 h e a].
  - replace (sessionId _ =? sid s) with false by (symmetry; apply Z.eqb_neq; cbn; lia). exact Hgo.
  - change (sessionId (sealed _ _)) with (sid s0). destruct (sid s0 =? sid s); [|exact Hgo]. split; [|done].
    unfold ret. change (durationKind _) with (kind s0). change (focusMinutes _) with (focusMin s0).
    change (breakMinutes _) with (breakMin s0). rewrite Hsame by (done || apply Hok). reflexivity.
  - change (sessionId (sealed _ _)) with (sid s0). destruct (sid s0 =? sid s); [|exact Hgo]. split; [|done].
    unfold ret. change (durationKind _) with (kind s0). change (focusMinutes _) with (focusMin s0).
    change (breakMinutes _) with (breakMin s0). rewrite Hsame by (done || apply Hok). reflexivity.
Qed.

(** ** The class holds a timer *)

Definition Holds (last : Z) (f : FocusSession) (tm : Timer) : Prop :=
  exists seq, f = session tm seq /\ seqOk tm seq /\ timerOk last tm.
(** A call of the class is a call of the timer. *)
Definition does {A} (now : Z) (m : F A) (f : FocusSession) (spec : A * Timer) : Prop :=
  exists f', m f = (fst spec, f') /\ Holds now f' (snd spec).
Definition isBlank (tm : Timer) : bool := match tm with Blank _ => true | _ => false end.

Lemma seqAfter_ok (tm tm' : Timer) (c : bool) (seq : Z) : seqOk tm seq -> (if c then isBlank tm' = false else isBlank tm' = isBlank tm) ->
  seqOk tm' (seqAfter c seq).
Proof.
  intros [Hr Hs] Hb. destruct c; cbn.
  - apply nextSeq_ok. by destruct tm'.
  - split; [done|]. by destruct tm, tm'.
Qed.
Lemma does_intro {A} now (m : F A) (tm tm' : Timer) (seq : Z) (c : bool) (a : A) : m (session tm seq) = (a, session tm' (seqAfter c seq)) ->
  seqOk tm seq -> (if c then isBlank tm' = false else isBlank tm' = isBlank tm) -> timerOk now tm' ->
  does now m (session tm seq) (a, tm').
Proof.
  intros Hm Hs Hb Hok. exists (session tm' (seqAfter c seq)). split; [done|]. exists (seqAfter c seq).
  split; [done|]. split; [by eapply seqAfter_ok|done].
Qed.

Lemma tick_does last clock f tm : Holds last f tm -> timely last tm clock ->
  does (monotonicMs clock) (tick (wrap clock)) f (timerTick clock tm).
Proof.
  intros (seq & -> & Hs & Hok) Ht. pose proof (tick_sim last clock tm seq Hok Ht) as Hrun.
  pose proof (timerTick_ok last clock tm Hok Ht) as Hok'.
  assert (Hb : isBlank (snd (timerTick clock tm)) = isBlank tm).
  { destruct tm; [done| |done]. cbn. repeat case_match; unfold settle; cbn; repeat case_match; done. }
  destruct (timerTick clock tm) as [[status update] tm'] eqn:E. cbn in Hb, Hok'. apply (does_intro _ _ _ _ _ (changed update));
    [done..| |done]. destruct (changed update) eqn:Ec; [|done]. rewrite Hb. destruct tm; [|done|done].
  cbn in E. injection E as <- <- <-. done.
Qed.
Lemma start_does last request clock f tm : Holds last f tm -> timely last tm clock -> 0 <= q_sessionId request < 2 ^ 64 ->
  does (monotonicMs clock) (start request (wrap clock)) f (timerStart request clock tm).
Proof.
  intros (seq & -> & Hs & Hok) Ht Hid. pose proof (start_sim request clock tm seq last Hok Ht Hid) as Hrun.
  assert (Hb : let '(_, update, tm') := timerStart request clock tm in
    if changed update then isBlank tm' = false else isBlank tm' = isBlank tm).
  { unfold timerStart. repeat case_match; try done; simplify_eq; done. }
  destruct (timerStart request clock tm) as [[status update] tm']. destruct Hrun as [Hrun Hok'].
  by apply (does_intro _ _ _ _ _ (changed update)).
Qed.

Lemma does_ret {A} last now (m : F A) f tm (a : A) : Holds last f tm -> last <= now -> m f = (a, f) -> does now m f (a, tm).
Proof.
  intros (seq & Hf & Hs & Hok) Hle Hm. exists f. split; [done|]. exists seq. split_and!; [done|done|].
  by apply (timerOk_later last).
Qed.
Lemma Holds_session last f tm : Holds last f tm -> exists seq, f = session tm seq /\ seqOk tm seq /\ timerOk last tm.
Proof. done. Qed.
Definition idOf (tm : Timer) : Z := match tm with Blank _ => 0 | Running s _ _ _ _ _ | Ended s _ _ _ => sid s end.
Lemma session_id tm seq : sessionId (sealed tm seq) = idOf tm.
Proof. destruct tm; reflexivity. Qed.
Lemma id_refused last tm id : timerOk last tm ->
  (id =? 0) || negb (id =? idOf tm) = isBlank tm || negb (idOf tm =? id).
Proof.
  intros Hok. assert (Hp : isBlank tm = false -> 0 < idOf tm) by (destruct tm; [done|intros _; cbn; apply Hok..]).
  destruct (isBlank tm) eqn:Eb.
  - destruct tm; try done. cbn. by destruct (id =? 0).
  - specialize (Hp eq_refl). cbn. rewrite (Z.eqb_sym (idOf tm)). destruct (Z.eqb_spec id 0); [|done].
    subst id. by destruct (Z.eqb_spec 0 (idOf tm)); [lia|].
Qed.

Lemma end_run {A} s armed base e unix unixAt seq endPhase how (x : A) :
  endPhase = Completed \/ endPhase = Idle -> 
  (assign (set_phase endPhase) ;;; assign (set_completion how) ;;; assign (set_anchor 0 0) ;;; disarm ;;;
   bumpSequence ;;; refreshCrc ;;; ret x) (session (Running s armed base e unix unixAt) seq) =
  (x, session (Ended s how e (endPhase =? Idle)) (nextSeq seq)).
Proof.
  intros Hp. cbn [session]. unfold sealed at 1. set (c := focusStateCrc _).
  do 4 (unfold bind at 1; unfold assign at 1 || unfold disarm at 1; unfold modify at 1; cbv beta iota zeta;
        cbn [state_ bootAnchorMs_ bootAnchorElapsedMs_ timingArmed_]).
  replace (set_anchor 0 0 _) with (record (Ended s how e (endPhase =? Idle)) seq c); [by rewrite reseal_run|].
  destruct Hp as [-> | ->]; reflexivity.
Qed.

Lemma timerTick_shape clock tm : match tm with Running s armed base _ _ _ =>
    exists e unix unixAt, snd (timerTick clock tm) = Running s armed base e unix unixAt \/
      snd (timerTick clock tm) = Ended s Natural (totalOf s) false /\ fst (fst (timerTick clock tm)) = FocusOk
  | _ => True end.
Proof.
  destruct tm as [|s armed base seen unix unixAt|]; [done| |done]. cbn.
  destruct (negb _); [by eexists _, _, _; left|]. destruct (rolledBack _ _); [by eexists _, _, _; left|].
  destruct (_ <=? _); [by eexists _, _, _; left|]. destruct (if unixTrusted clock then _ else _) as [u a].
  unfold settle. cbn. destruct (_ <=? _); [exists 0, 0, 0; by right|by eexists _, _, _; left].
Qed.

Definition finishRest (endPhase how : Z) (clock : ClockSample) : F (Status * Update) :=
  ticked <- tick clock ;;
  let '(tickStatus, update) := ticked in
  p' <- phase ;;
  if negb (bool_decide (tickStatus = FocusOk)) || (p' =? Completed) then ret (tickStatus, update)
  else
    assign (set_phase endPhase) ;;; assign (set_completion how) ;;; assign (set_anchor 0 0) ;;; disarm ;;;
    bumpSequence ;;; refreshCrc ;;; ret (FocusOk, update_quiet (update_after endPhase (update_changed update))).
Lemma finish_run last endPhase how id clock tm seq : timerOk last tm ->
  finish endPhase how id clock (session tm seq) =
  if isBlank tm || negb (idOf tm =? id) then ((WrongSession, quiet tm), session tm seq)
  else match tm with
       | Running _ _ _ _ _ _ => finishRest endPhase how clock (session tm seq)
       | _ => ((WrongPhase, quiet tm), session tm seq)
       end.
Proof.
  intros Hok. unfold finish, phase, members. unfold bind at 1, gets at 1. unfold bind at 1, gets at 1.
  rewrite session_state, sealed_phase. unfold Datatypes.id. rewrite session_id, (id_refused last), (running_iff last) by done.
  destruct (_ || _); [done|]. by destruct tm.
Qed.
Lemma acknowledge_run last id tm seq : timerOk last tm ->
  acknowledge id (session tm seq) =
  if isBlank tm || negb (idOf tm =? id) then (WrongSession, session tm seq)
  else if negb (phaseOf tm =? Completed) then (WrongPhase, session tm seq)
  else (assign (set_phase Idle) ;;; bumpSequence ;;; refreshCrc ;;; ret FocusOk) (session tm seq).
Proof.
  intros Hok. unfold acknowledge, phase, members. unfold bind at 1, gets at 1.
  rewrite session_state. unfold Datatypes.id. rewrite session_id, (id_refused last) by done.
  destruct (_ || _); [done|]. unfold bind at 1, gets at 1. rewrite session_state, sealed_phase. by destruct (negb _).
Qed.

Lemma finish_does last endPhase how id clock f tm : Holds last f tm -> timely last tm clock ->
  (endPhase = Completed /\ how = Stopped \/ endPhase = Idle /\ how = Cancelled) ->
  does (monotonicMs clock) (finish endPhase how id (wrap clock)) f (timerFinish endPhase how id clock tm).
Proof.
  intros Hh Ht Hend. pose proof (tick_does last clock _ tm Hh Ht) as (f' & Hrun & Hh').
  destruct (Holds_session _ _ _ Hh) as (seq & -> & Hs & Hok).
  pose proof (finish_run last endPhase how id (wrap clock) tm seq Hok) as Hfin.
  destruct tm as [k|s armed base seen unix unixAt|s h e a]; cbn [isBlank idOf orb timerFinish] in *.
  - apply (does_ret last); [done|apply Ht|done].
  - destruct (sid s =? id); cbn [negb] in *; [|apply (does_ret last); [done|apply Ht|done]].
    pose proof (timerTick_shape clock (Running s armed base seen unix unixAt)) as (e & ux & ua & Hshape).
    unfold does. rewrite Hfin. unfold finishRest. unfold bind at 1. rewrite Hrun.
    destruct (timerTick clock _) as [[status update] tm1]. cbn [fst snd] in *.
    destruct Hh' as (seq' & -> & Hs' & Hok'). unfold bind at 1, phase, members, gets at 1. rewrite session_state, sealed_phase.
    destruct Hshape as [-> | [-> ->]].
    + cbn [phaseOf]. replace (phaseAt s e =? Completed) with false by (unfold phaseAt; by destruct (_ <=? e)).
      rewrite orb_false_r. destruct (bool_decide_reflect (status = FocusOk)) as [->|Hne]; cbn [negb].
      * rewrite end_run by tauto. eexists. split; [reflexivity|]. eexists. split; [reflexivity|].
        split; [by apply nextSeq_ok|]. cbn in Hok' |- *. split; [apply Hok'|]. split; [lia|].
        destruct Hend as [[-> ->] | [-> ->]]; cbn; [right; left|right; right]; split_and?; lia || done.
      * eexists. destruct status; [done|..]; (split; [reflexivity|]); eexists; split_and!; done.
    + rewrite orb_true_r. eexists. split; [reflexivity|]. eexists. split_and!; [reflexivity|done|done].
  - destruct (sid s =? id); cbn [negb] in *; (apply (does_ret last); [done|apply Ht|done]).
Qed.

Lemma acknowledge_does last now id f tm : Holds last f tm -> last <= now ->
  does now (acknowledge id) f (timerAcknowledge id tm).
Proof.
  intros Hh Hle. destruct (Holds_session _ _ _ Hh) as (seq & -> & Hs & Hok).
  pose proof (acknowledge_run last id tm seq Hok) as Hack.
  destruct tm as [k|s armed base seen unix unixAt|s h e a]; cbn [isBlank idOf orb timerAcknowledge phaseOf] in *.
  - by apply (does_ret last).
  - destruct (sid s =? id); cbn [negb] in *; [|by apply (does_ret last)].
    apply (does_ret last); [done|done|]. rewrite Hack. unfold phaseAt. by destruct (_ <=? _).
  - destruct (sid s =? id); cbn [negb] in *; [|by apply (does_ret last)]. destruct a; [by apply (does_ret last)|].
    unfold does. rewrite Hack. cbn [negb Z.eqb Completed Pos.eqb].
    unfold bind at 1, assign at 1, modify at 1. cbv beta iota zeta. cbn [session state_ bootAnchorMs_ bootAnchorElapsedMs_ timingArmed_].
    unfold sealed at 1. set (c := focusStateCrc _).
    change (set_phase Idle _) with (record (Ended s h e true) seq c). rewrite reseal_run.
    eexists. split; [reflexivity|]. exists (nextSeq seq). split; [reflexivity|]. split; [by apply nextSeq_ok|].
    cbn in Hok |- *. destruct Hok as (? & ? & [?|[?|(? & ? & ?)]]); tauto.
Qed.

(** ** Stored records *)

(** The fields are values of their C types. *)
Definition typed (s : FocusState) : Prop :=
  0 <= phase_ s /\ 0 <= durationKind s /\ 0 <= completionKind s /\ 0 <= elapsedMs s /\ 0 <= anchorElapsedMs s /\
  0 <= sessionId s < 2 ^ 64 /\ 0 <= sequence s < 2 ^ 32.
(** The timer of a record; its time of arming is not in it. *)
Definition timerOf (s : FocusState) : Timer :=
  if sessionId s =? 0 then Blank (durationKind s)
  else
    let ss := mkS (sessionId s) (durationKind s) (focusMinutes s) (breakMinutes s) in
    if running (phase_ s) then Running ss 0 0 (elapsedMs s) (anchorUnixSeconds s) (anchorElapsedMs s)
    else Ended ss (completionKind s) (elapsedMs s) (phase_ s =? Idle).
Definition storedOk (tm : Timer) : Prop :=
  match tm with
  | Running s _ _ seen unix unixAt =>
      sessionOk s /\ 0 <= seen < totalOf s /\ 0 <= unixAt <= seen /\
      (unix = 0 /\ unixAt = 0 \/ validTrustedUnix unix = true)
  | _ => timerOk 0 tm
  end.

Lemma stored_session s : typed s -> sessionId s <> 0 -> validStoredDuration s = true ->
  sessionOk (mkS (sessionId s) (durationKind s) (focusMinutes s) (breakMinutes s)).
Proof.
  intros Ht Hid. unfold validStoredDuration. cbv zeta. set (q := mkStart _ _ _).
  destruct (normalizeDuration q) as [[focus break]|] eqn:E; [|done]. rewrite andb_true_iff, !Z.eqb_eq. intros [-> ->].
  apply (request_session q); [apply Ht|]. destruct (Z.eqb_spec (q_sessionId q) 0); [done|exact E].
Qed.
Lemma validDuration_session s seq tm : sessionOk s -> record tm seq 0 = record tm seq 0 ->
  sessionId (record tm seq 0) = sid s -> durationKind (record tm seq 0) = kind s ->
  focusMinutes (record tm seq 0) = focusMin s -> breakMinutes (record tm seq 0) = breakMin s ->
  validStoredDuration (record tm seq 0) = true.
Proof.
  intros Hs _ H1 H2 H3 H4. unfold validStoredDuration. rewrite H1, H2, H3, H4. rewrite session_duration by done.
  by rewrite !Z.eqb_refl.
Qed.
Lemma semantics_crc tm seq c : validStateSemantics (record tm seq c) = validStateSemantics (record tm seq 0).
Proof. destruct tm; reflexivity. Qed.

Lemma validUnix_positive unix : validTrustedUnix unix = true -> 1577836800 <= unix.
Proof. unfold validTrustedUnix. rewrite andb_true_iff, !Z.leb_le. unfold kMinimumTrustedUnixSeconds. lia. Qed.
(** Decides the comparisons of a goal one by one. *)
Ltac tests := repeat match goal with
  | |- context [?a =? ?b] => destruct (Z.eqb_spec a b); cbn [negb andb orb]; try lia
  | |- context [?a <? ?b] => destruct (Z.ltb_spec a b); cbn [negb andb orb]; try lia
  | |- context [?a <=? ?b] => destruct (Z.leb_spec a b); cbn [negb andb orb]; try lia
  end.
Ltac names := unfold validPhase, validDurationKind, validCompletionKind, Idle, Focus, Break, Completed, NotCompleted,
  Natural, Stopped, Cancelled, TwentyFiveMinutes, FiftyMinutes, Custom in *.

Lemma sealed_valid tm seq : storedOk tm -> seqOk tm seq -> validStateSemantics (record tm seq 0) = true.
Proof.
  intros Hok [Hseq Hz]. destruct tm as [k|s armed base seen unix unixAt|s h e a].
  - subst seq. cbn in Hok. unfold validStateSemantics, validDurationKind. cbn. rewrite (proj2 (Z.leb_le k Custom)) by lia. done.
  - destruct Hok as (Hs & He & Hu & Hx). destruct (session_ms s Hs) as (Hf & Ht & Hr & _).
    pose proof (validDuration_session s seq (Running s armed base seen unix unixAt) Hs eq_refl eq_refl eq_refl eq_refl eq_refl) as Hd.
    unfold validStateSemantics. rewrite Hd. unfold focusMs, totalMs. cbn [record sessionId sequence phase_ durationKind completionKind reserved
      focusMinutes breakMinutes elapsedMs anchorElapsedMs anchorUnixSeconds]. rewrite Hf, Ht.
    destruct Hs as (Hid & _ & Hk). clear Hd. unfold phaseAt. destruct (Z.leb_spec (focusOf s) seen).
    all: destruct Hx as [[-> ->]|Hx]; [|pose proof (validUnix_positive _ Hx); rewrite Hx]; names; tests; done.
  - destruct Hok as (Hs & He & Hh). destruct (session_ms s Hs) as (Hf & Ht & Hr & _).
    pose proof (validDuration_session s seq (Ended s h e a) Hs eq_refl eq_refl eq_refl eq_refl eq_refl) as Hd.
    unfold validStateSemantics. rewrite Hd. unfold focusMs, totalMs. cbn [record sessionId sequence phase_ durationKind completionKind reserved
      focusMinutes breakMinutes elapsedMs anchorElapsedMs anchorUnixSeconds]. rewrite Hf, Ht.
    destruct Hs as (Hid & _ & Hk). destruct Hh as [[Hh He']|[[Hh He']|(Hh & Ha & He')]]; subst; try destruct a; names; tests; done.
Qed.

Lemma sealed_validates tm seq : storedOk tm -> seqOk tm seq -> validateFocusState (sealed tm seq) = true.
Proof.
  intros Hok Hseq. unfold validateFocusState, sealed. rewrite semantics_crc, (sealed_valid tm seq Hok Hseq), (record_crc tm seq (focusStateCrc (record tm seq 0))).
  assert (Hc : crc (record tm seq (focusStateCrc (record tm seq 0))) = focusStateCrc (record tm seq 0)) by (destruct tm; reflexivity).
  rewrite Hc, Z.eqb_refl. destruct tm; reflexivity.
Qed.

(** A record is accepted only if it is that of a timer. *)
Ltac ended := first [done | lia | by left | by right; left | by right; right].
Lemma semantics_timer s : typed s -> magic s = kFocusStateMagic -> bytes s = 48 ->
  schemaVersion s = kFocusStateSchemaVersion -> validStateSemantics s = true ->
  s = record (timerOf s) (sequence s) (crc s) /\ storedOk (timerOf s) /\ seqOk (timerOf s) (sequence s).
Proof.
  intros Hty Hm Hb Hv. unfold validStateSemantics, timerOf. destruct (negb (validPhase _) || _ || _ || _) eqn:E0; [done|].
  rewrite !orb_false_iff, !negb_false_iff in E0. destruct E0 as [[[Hp Hk] Hc] Hres%Z.eqb_eq].
  destruct s as [m b v p k cm f br rv e ae id au sq c]. cbn in *. subst.
  destruct (Z.eqb_spec id 0) as [->|Hid].
  - rewrite !andb_true_iff, !Z.eqb_eq. intros [[[[[[[-> ->] ->] ->] ->] ->] ->] ->]. unfold validDurationKind in Hk.
    apply Z.leb_le in Hk. destruct Hty as (? & ? & ? & ? & ? & ? & ?). cbn in *. split_and!; lia || done.
  - destruct ((sq =? 0) || _) eqn:E1; [done|]. rewrite orb_false_iff, Z.eqb_neq, negb_false_iff in E1. destruct E1 as [Hsq Hd].
    apply stored_session in Hd as Hs; [|done|done]. cbn in Hs. destruct (session_ms _ Hs) as (Hf & Ht & Hr & _). cbn in Hf, Ht.
    unfold focusMs, totalMs. cbn. rewrite Hf, Ht.
    set (ss := mkS id k f br) in *.
    destruct ((totalOf ss <? e) || _) eqn:E2; [done|]. rewrite orb_false_iff, !Z.ltb_ge in E2. destruct E2 as [Het Hae].
    assert (Hsq' : seqOk (Ended ss 0 0 true) sq) by (split; [apply Hty|done]).
    destruct (if au =? 0 then _ else _) eqn:E3; [done|].
    assert (Hau : au = 0 /\ ae = 0 \/ validTrustedUnix au = true).
    { destruct (Z.eqb_spec au 0); [left|right]; by apply negb_false_iff in E3; rewrite ?Z.eqb_eq in E3. }
    destruct Hty as (_ & _ & _ & He0 & Ha0 & _). cbn in He0, Ha0. unfold running.
    destruct (Z.eqb_spec p Focus) as [->|].
    { rewrite andb_true_iff, Z.eqb_eq, Z.ltb_lt. intros [-> He]. cbn.
      unfold phaseAt. rewrite (proj2 (Z.leb_gt (focusOf ss) e)) by lia. split_and!; try done; lia. }
    destruct (Z.eqb_spec p Break) as [->|].
    { rewrite !andb_true_iff, Z.eqb_eq, Z.leb_le, Z.ltb_lt. intros [[-> He] He']. cbn.
      unfold phaseAt. rewrite (proj2 (Z.leb_le (focusOf ss) e)) by lia. split_and!; try done; lia. }
    assert (Hzero : forall r, (if negb (ae =? 0) || negb (au =? 0) then false else r) = true -> ae = 0 /\ au = 0 /\ r = true).
    { intros r. destruct (Z.eqb_spec ae 0), (Z.eqb_spec au 0); cbn; intros; by try split_and!. }
    destruct (Z.eqb_spec p Completed) as [->|].
    { intros (-> & -> & Hr')%Hzero. destruct (Z.eqb_spec cm Natural) as [->|].
      - apply Z.eqb_eq in Hr'. cbn; split_and!; ended.
      - rewrite andb_true_iff, Z.eqb_eq, Z.ltb_lt in Hr'. destruct Hr' as [-> Hr'].
        cbn; split_and!; ended. }
    destruct (Z.eqb_spec p Idle) as [->|]; [|done]. intros (-> & -> & Hr')%Hzero.
    destruct (Z.eqb_spec cm Natural) as [->|].
    { apply Z.eqb_eq in Hr'. cbn; split_and!; ended. }
    destruct ((cm =? Stopped) || _) eqn:E4; [|done]. rewrite orb_true_iff, !Z.eqb_eq in E4. apply Z.ltb_lt in Hr'.
    destruct E4 as [-> | ->]; cbn; split_and!; ended.
Qed.
Lemma validate_timer s : typed s -> validateFocusState s = true ->
  s = sealed (timerOf s) (sequence s) /\ storedOk (timerOf s) /\ seqOk (timerOf s) (sequence s).
Proof.
  intros Hty. unfold validateFocusState. rewrite !andb_true_iff, !Z.eqb_eq. intros [[[[Hm Hb] Hs] Hc] Hv].
  destruct (semantics_timer s Hty Hm Hb Hs Hv) as (Heq & Hst & Hsq). split; [|done].
  unfold sealed. rewrite <- (record_crc (timerOf s) (sequence s) (crc s)), <- Heq, <- Hc. exact Heq.
Qed.

Definition refuse (saved : FocusState) : option RestoreStatus :=
  if negb (magic saved =? kFocusStateMagic) then Some BadMagic
  else if negb (bytes saved =? Z.of_nat sizeofFocusState) || negb (schemaVersion saved =? kFocusStateSchemaVersion)
  then Some UnsupportedSchema
  else if negb (crc saved =? focusStateCrc saved) then Some BadCrc
  else if negb (validStateSemantics saved) then Some InvalidState
  else None.
Definition timerRestore (saved : FocusState) (clock : ClockSample) (tm : Timer) : RestoreStatus * Update * Timer :=
  match refuse saved with
  | Some status => (status, quiet tm, tm)
  | None =>
      match timerResume clock (timerOf saved) with
      | (RestoreOk, update, tm') => (RestoreOk, update, tm')
      | (status, update, _) => (status, update, tm)
      end
  end.

Lemma refuse_validate saved : refuse saved = None <-> validateFocusState saved = true.
Proof.
  unfold refuse, validateFocusState. destruct (magic saved =? _); [|done]. destruct (bytes saved =? _); [|done].
  destruct (schemaVersion saved =? _); [|done]. destruct (crc saved =? _); [|done]. cbn [negb orb andb].
  by destruct (validStateSemantics saved).
Qed.

(** [recoveredElapsed] in integers. *)
Lemma recovered_exact s armed base seen unix unixAt seq c now : storedOk (Running s armed base seen unix unixAt) ->
  (unix <> 0 -> unix <= now < 2 ^ 64) ->
  recoveredElapsed (record (Running s armed base seen unix unixAt) seq c) now = recovered s seen unix unixAt now.
Proof.
  intros (Hs & He & Hu & Hx) Hnow. destruct (session_ms s Hs) as (_ & Ht & Hr & Hm).
  unfold recoveredElapsed, recovered, totalMs. cbn [record focusMinutes breakMinutes anchorUnixSeconds elapsedMs anchorElapsedMs].
  rewrite Ht. destruct (Z.eqb_spec unix 0) as [->|Hne]; [done|]. specialize (Hnow Hne).
  assert (0 <= unix) by (destruct Hx as [[-> _]|Hx%validUnix_positive]; lia).
  cbv zeta. rewrite (u64_id (now - unix)) by lia. rewrite (u32_id (totalOf s - unixAt)) by lia.
  destruct (Z.ltb_spec (now - unix) ((totalOf s - unixAt + 999) / 1000)) as [Hlt|Hge].
  - assert ((now - unix) * 1000 < totalOf s - unixAt) by (Z.to_euclidean_division_equations; lia).
    rewrite (u32_id ((now - unix) * 1000)), (u32_id (unixAt + _)) by lia. destruct (Z.ltb_spec seen (unixAt + (now - unix) * 1000)); lia.
  - assert (totalOf s <= unixAt + (now - unix) * 1000) by (Z.to_euclidean_division_equations; lia).
    destruct (Z.ltb_spec seen (totalOf s)); lia.
Qed.

(** What [restore] does with an accepted record of a running timer. *)
Definition resume (saved : FocusState) (clock : ClockSample) : F Update :=
  update <- applyElapsed (if unixTrusted clock then recoveredElapsed saved (unixSeconds clock) else elapsedMs saved)
              (initializeUpdate (phase_ saved)) ;;
  p' <- phase ;;
  when (running p')
    (assign (fun t => if unixTrusted clock then set_anchor (unixSeconds clock) (elapsedMs t) t else set_anchor 0 0 t) ;;;
     arm (monotonicMs clock)) ;;;
  ret update.

Lemma resume_run s armed base seen unix unixAt seq clock e u' a' : let tm := Running s armed base seen unix unixAt in
  sessionOk s -> 0 <= e ->
  (if unixTrusted clock then recoveredElapsed (sealed tm seq) (unixSeconds clock) else seen) = e ->
  (u', a') = (if unixTrusted clock then (unixSeconds clock, e) else (0, 0)) ->
  let tm' := settle s (monotonicMs clock) e e u' a' in
  (update <- resume (sealed tm seq) (wrap clock) ;; update <- markChanged (sealed tm seq) update ;; ret (RestoreOk, update))
    (mkSession (sealed tm seq) 0 0 false) =
  ((RestoreOk, passed tm tm'), session tm' (seqAfter (changed (passed tm tm')) seq)).
Proof.
  intros tm Hs He Helapsed Hanchor tm'. unfold resume. unfold bind at 1. unfold bind at 1.
  change (unixTrusted (wrap clock)) with (unixTrusted clock). change (unixSeconds (wrap clock)) with (unixSeconds clock).
  change (elapsedMs (sealed tm seq)) with seen. rewrite Helapsed, sealed_phase.
  change (mkSession (sealed tm seq) 0 0 false) with (mkSession (record tm seq (focusStateCrc (record tm seq 0))) 0 0 false).
  pose proof (applyElapsed_run s armed base seen unix unixAt seq (focusStateCrc (record tm seq 0)) 0 0 false e
    (initializeUpdate (phaseOf tm)) Hs He) as Happly. cbv zeta in Happly. fold tm in Happly. rewrite Happly. clear Happly.
  pose proof (settle_sealed s armed base seen unix unixAt (monotonicMs clock) e e u' a' seq) as Hstill.
  cbv zeta in Hstill. fold tm tm' in Hstill. unfold tm' in *. clear tm'. unfold settle in *.
  destruct (Z.leb_spec (totalOf s) e) as [Hge|Hlt].
  - unfold bind at 1, phase, members, gets at 1. cbn [state_]. rewrite record_phase. cbn [phaseOf].
    unfold bind at 1. cbn [running orb Z.eqb Completed Focus Break Pos.eqb when]. unfold ret at 1 2. unfold bind at 1.
    rewrite markChanged_run by exact Hstill.
    assert (Hm : moved tm (Ended s Natural (totalOf s) false) = true) by apply moved_end.
    rewrite Hm. unfold passed, seqAfter, session, ret. cbn [changed]. by rewrite Hm.
  - unfold bind at 1, phase, members, gets at 1. cbn [state_]. rewrite record_phase. cbn [phaseOf].
    assert (Hr : running (phaseAt s e) = true) by (unfold phaseAt; by destruct (_ <=? _)).
    rewrite Hr. unfold when. unfold bind at 1. unfold bind at 1, assign, modify at 1. cbv beta iota zeta.
    unfold arm, modify. cbn [state_ bootAnchorMs_ bootAnchorElapsedMs_ timingArmed_].
    set (c := focusStateCrc (record tm seq 0)) in *.
    replace (if unixTrusted clock then _ else _) with (record (Running s (monotonicMs clock) e e u' a') seq c)
      by (destruct (unixTrusted clock); injection Hanchor as -> ->; reflexivity).
    change (elapsedMs (record (Running s (monotonicMs clock) e e u' a') seq c)) with e.
    unfold ret at 1. unfold bind at 1. rewrite markChanged_run by exact Hstill.
    unfold passed, seqAfter, session, ret. cbn [changed]. by destruct (moved tm _).
Qed.

Lemma settle_resumed s now e u' a' : sessionOk s -> 0 <= e -> 0 <= a' <= e ->
  (u' = 0 /\ a' = 0 \/ validTrustedUnix u' = true) -> timerOk now (settle s now e e u' a').
Proof.
  intros Hs He Ha Hu. unfold settle. pose proof (session_ms s Hs). destruct (Z.leb_spec (totalOf s) e); cbn.
  - split; [done|]. split; [lia|]. by left.
  - split; [done|]. repeat (split; [lia|]). done.
Qed.
Lemma anchor_ok clock e u' a' : validateClock clock = true -> 0 <= e ->
  (if unixTrusted clock then (unixSeconds clock, e) else (0, 0)) = (u', a') ->
  0 <= a' <= e /\ (u' = 0 /\ a' = 0 \/ validTrustedUnix u' = true).
Proof.
  intros Hv He. destruct (unixTrusted clock) eqn:Et; intros [= <- <-].
  - split; [lia|]. right. by apply clock_unix.
  - split; [lia|]. by left.
Qed.
Lemma settle_blank s armed base e u' a' : isBlank (settle s armed base e u' a') = false.
Proof. unfold settle. by destruct (_ <=? _). Qed.

Lemma restore_run saved clock f : refuse saved = None ->
  restore saved clock f =
  if running (phase_ saved) && negb (validateClock clock) then ((RestoreInvalidClock, initializeUpdate (phase_ saved)), f)
  else if running (phase_ saved) && rolledBack clock (anchorUnixSeconds saved)
  then ((RestoreClockRollback, initializeUpdate (phase_ saved)), f)
  else (update <- (if running (phase_ saved) then resume saved clock else ret (initializeUpdate (phase_ saved))) ;;
        update <- markChanged saved update ;; ret (RestoreOk, update)) (mkSession saved 0 0 false).
Proof.
  intros Hr. unfold restore, phase, members. unfold bind at 1, gets at 1. revert Hr. unfold refuse.
  destruct (negb (magic saved =? _)); [done|]. destruct (negb (bytes saved =? _) || _); [done|].
  destruct (negb (crc saved =? _)); [done|]. destruct (negb (validStateSemantics saved)); [done|]. intros _. cbv zeta.
  destruct (running (phase_ saved) && negb _); [done|]. unfold rolledBack. rewrite !andb_assoc.
  destruct (_ && _ && _ && _); [done|]. reflexivity.
Qed.
Lemma restore_refused saved clock f status : refuse saved = Some status ->
  restore saved clock f = ((status, initializeUpdate (phase_ (state_ f))), f).
Proof.
  unfold restore, phase, members, refuse. unfold bind at 1, gets at 1.
  destruct (negb (magic saved =? _)); [by intros [= <-]|]. destruct (negb (bytes saved =? _) || _); [by intros [= <-]|].
  destruct (negb (crc saved =? _)); [by intros [= <-]|]. destruct (negb (validStateSemantics saved)); [by intros [= <-]|done].
Qed.

Lemma idle_resumed last tm seq now : timerOk last tm -> seqOk tm seq ->
  match tm with Running _ _ _ _ _ _ => False | _ => True end -> 
  exists f', (update <- ret (initializeUpdate (phaseOf tm)) ;; update <- markChanged (sealed tm seq) update ;;
     ret (RestoreOk, update)) (mkSession (sealed tm seq) 0 0 false) = ((RestoreOk, quiet tm), f') /\ Holds now f' tm.
Proof.
  intros Hok Hseq Hid. exists (mkSession (sealed tm seq) 0 0 false). split.
  - unfold bind at 1, ret at 1. unfold bind at 1.
    pose proof (markChanged_run tm tm seq (focusStateCrc (record tm seq 0)) 0 0 false (initializeUpdate (phaseOf tm))) as Hm.
    assert (Hmv : moved tm tm = false) by (unfold moved; by rewrite bool_decide_eq_true_2).
    rewrite Hmv in Hm. unfold sealed at 2. rewrite Hm by done. done.
  - exists seq. destruct tm; done.
Qed.

Lemma restore_does last saved clock f tm : Holds last f tm -> timely last tm clock -> typed saved ->
  does (monotonicMs clock) (restore saved (wrap clock)) f (timerRestore saved clock tm).
Proof.
  intros Hh Ht Hty. unfold timerRestore. destruct (refuse saved) as [status|] eqn:Er.
  - apply (does_ret last); [done|apply Ht|]. rewrite (restore_refused saved (wrap clock) f status Er).
    destruct Hh as (seq & -> & _). by rewrite session_state, sealed_phase.
  - destruct (validate_timer saved Hty (proj1 (refuse_validate saved) Er)) as (Heq & Hst & Hseq).
    pose proof (restore_run saved (wrap clock) f Er) as Hrun. set (tm0 := timerOf saved) in *. set (q := sequence saved) in *.
    rewrite Heq in Hrun |- *. clearbody tm0 q. rewrite sealed_phase in Hrun.
    change (validateClock (wrap clock)) with (validateClock clock) in Hrun.
    change (rolledBack (wrap clock)) with (rolledBack clock) in Hrun.
    destruct tm0 as [k|s armed base seen unix unixAt|s h e a].
    + cbn [phaseOf running andb orb Z.eqb Idle Focus Break] in Hrun. unfold does. rewrite Hrun. by apply (idle_resumed 0).
    + assert (Hrn : running (phaseOf (Running s armed base seen unix unixAt)) = true)
        by (cbn [phaseOf]; unfold phaseAt; by destruct (_ <=? _)).
      rewrite Hrn in Hrun. cbn [andb timerResume] in *.
      destruct (validateClock clock) eqn:Ev; cbn [negb] in *; [|by apply (does_ret last); [|apply Ht|]].
      change (anchorUnixSeconds (sealed _ _)) with unix in Hrun.
      destruct (rolledBack clock unix) eqn:Erb; [by apply (does_ret last); [|apply Ht|]|].
      pose proof Hst as (Hs & He & Hu & Hx). 
      set (e := if unixTrusted clock then recovered s seen unix unixAt (unixSeconds clock) else seen).
      assert (Hse : seen <= e) by (unfold e, recovered; destruct (unixTrusted clock), (unix =? 0); lia).
      destruct (if unixTrusted clock then (unixSeconds clock, e) else (0, 0)) as [u' a'] eqn:Ea.
      unfold does. rewrite Hrun. rewrite (resume_run s armed base seen unix unixAt q clock e u' a' Hs ltac:(lia)); [..|done].
      * eexists. split; [reflexivity|]. eexists. split; [reflexivity|]. split.
        { apply (seqAfter_ok (Running s armed base seen unix unixAt)); [done|]. destruct (changed _); apply settle_blank. }
        { destruct (anchor_ok clock e u' a' Ev ltac:(lia) Ea). by apply settle_resumed; [|lia|..]. }
      * clear Hrun Heq. unfold e. destruct (unixTrusted clock) eqn:Et; [|reflexivity]. unfold sealed.
        apply recovered_exact; [exact Hst|].
        intros Hne. destruct Ht as (_ & Hrange & _). unfold rolledBack in Erb. rewrite Et in Erb.
        destruct (Z.eqb_spec unix 0); [contradiction|]. destruct (Z.ltb_spec (unixSeconds clock) unix); [discriminate|lia].
    + assert (Hrn : running (phaseOf (Ended s h e a)) = false) by (by destruct a).
      rewrite Hrn in Hrun. cbn [andb timerResume] in *. unfold does. rewrite Hrun. by apply (idle_resumed 0).
Qed.

(** ** Runs *)

Inductive Call :=
  | CallReset
  | CallStart (request : StartRequest)
  | CallTick
  | CallStop (id : Z)
  | CallCancel (id : Z)
  | CallAcknowledge (id : Z)
  | CallRestore (saved : FocusState).
Inductive Out :=
  | OutDone
  | OutStatus (status : Status) (update : option Update)
  | OutRestore (status : RestoreStatus) (update : Update).
Definition outOf (r : Status * Update) : Out := OutStatus (fst r) (Some (snd r)).

Definition runCall (call : Call) (clock : ClockSample) : F Out :=
  match call with
  | CallReset => reset ;;; ret OutDone
  | CallStart request => r <- start request clock ;; ret (outOf r)
  | CallTick => r <- tick clock ;; ret (outOf r)
  | CallStop id => r <- stop id clock ;; ret (outOf r)
  | CallCancel id => r <- cancel id clock ;; ret (outOf r)
  | CallAcknowledge id => status <- acknowledge id ;; ret (OutStatus status None)
  | CallRestore saved => r <- restore saved clock ;; ret (OutRestore (fst r) (snd r))
  end.
Definition timerCall (call : Call) (clock : ClockSample) (tm : Timer) : Out * Timer :=
  match call with
  | CallReset => (OutDone, Blank TwentyFiveMinutes)
  | CallStart request => let '(r, tm') := timerStart request clock tm in (outOf r, tm')
  | CallTick => let '(r, tm') := timerTick clock tm in (outOf r, tm')
  | CallStop id => let '(r, tm') := timerFinish Completed Stopped id clock tm in (outOf r, tm')
  | CallCancel id => let '(r, tm') := timerFinish Idle Cancelled id clock tm in (outOf r, tm')
  | CallAcknowledge id => let '(status, tm') := timerAcknowledge id tm in (OutStatus status None, tm')
  | CallRestore saved => let '(r, tm') := timerRestore saved clock tm in (OutRestore (fst r) (snd r), tm')
  end.
(** The arguments are values of their C types. *)
Definition callTyped (call : Call) : Prop :=
  match call with
  | CallStart request => 0 <= q_sessionId request < 2 ^ 64
  | CallRestore saved => typed saved
  | _ => True
  end.

Fixpoint runCalls (calls : list (Call * ClockSample)) : F (list Out) :=
  match calls with
  | [] => ret []
  | (call, clock) :: rest => out <- runCall call (wrap clock) ;; outs <- runCalls rest ;; ret (out :: outs)
  end.
Fixpoint timerCalls (calls : list (Call * ClockSample)) (tm : Timer) : list Out * Timer :=
  match calls with
  | [] => ([], tm)
  | (call, clock) :: rest =>
      let '(out, tm1) := timerCall call clock tm in
      let '(outs, tm2) := timerCalls rest tm1 in (out :: outs, tm2)
  end.
(** Calls of typed arguments at the times of a clock that does not run backwards; a
    running timer is looked at within 49 days of its start. *)
Fixpoint timelyCalls (last : Z) (calls : list (Call * ClockSample)) (tm : Timer) : Prop :=
  match calls with
  | [] => True
  | (call, clock) :: rest =>
      callTyped call /\ timely last tm clock /\ timelyCalls (monotonicMs clock) rest (snd (timerCall call clock tm))
  end.
Definition lastTime (last : Z) (calls : list (Call * ClockSample)) : Z :=
  fold_left (fun _ c => monotonicMs (snd c)) calls last.

Lemma reset_session f : reset f = (tt, session (Blank TwentyFiveMinutes) 0).
Proof. reflexivity. Qed.
Lemma does_out {A} now (m : F A) f (spec : A * Timer) (g : A -> Out) : does now m f spec ->
  does now (r <- m ;; ret (g r)) f (g (fst spec), snd spec).
Proof. intros (f' & Hm & Hh). exists f'. unfold bind. by rewrite Hm. Qed.
Lemma call_does last call clock f tm : Holds last f tm -> callTyped call -> timely last tm clock ->
  does (monotonicMs clock) (runCall call (wrap clock)) f (timerCall call clock tm).
Proof.
  intros Hh Hc Ht. destruct call as [|request| |id|id|id|saved]; cbn [runCall timerCall].
  - exists (session (Blank TwentyFiveMinutes) 0). split; [reflexivity|]. exists 0. split; [reflexivity|].
    split; [done|]. cbn. unfold Custom, TwentyFiveMinutes. lia.
  - pose proof (does_out _ _ _ _ outOf (start_does last request clock f tm Hh Ht Hc)) as H.
    by destruct (timerStart request clock tm).
  - pose proof (does_out _ _ _ _ outOf (tick_does last clock f tm Hh Ht)) as H. by destruct (timerTick clock tm).
  - pose proof (does_out _ _ _ _ outOf (finish_does last Completed Stopped id clock f tm Hh Ht ltac:(tauto))) as H.
    by destruct (timerFinish Completed Stopped id clock tm).
  - pose proof (does_out _ _ _ _ outOf (finish_does last Idle Cancelled id clock f tm Hh Ht ltac:(tauto))) as H.
    by destruct (timerFinish Idle Cancelled id clock tm).
  - pose proof (does_out _ _ _ _ (fun s => OutStatus s None) (acknowledge_does last (monotonicMs clock) id f tm Hh (proj1 Ht))) as H.
    by destruct (timerAcknowledge id tm).
  - pose proof (does_out _ _ _ _ (fun r => OutRestore (fst r) (snd r)) (restore_does last saved clock f tm Hh Ht Hc)) as H.
    by destruct (timerRestore saved clock tm).
Qed.
Lemma calls_do last calls f tm : Holds last f tm -> timelyCalls last calls tm ->
  does (lastTime last calls) (runCalls calls) f (timerCalls calls tm).
Proof.
  revert last f tm. induction calls as [|[call clock] rest IH]; intros last f tm Hh; cbn [timelyCalls runCalls timerCalls].
  - intros _. by exists f.
  - intros (Hc & Ht & Hrest). destruct (call_does last call clock f tm Hh Hc Ht) as (f1 & Hrun & Hh1).
    destruct (timerCall call clock tm) as [out tm1]. cbn [fst snd] in *.
    destruct (IH _ f1 tm1 Hh1 Hrest) as (f2 & Hrun2 & Hh2). destruct (timerCalls rest tm1) as [outs tm2].
    exists f2. split; [|done]. unfold bind. by rewrite Hrun, Hrun2.
Qed.
Definition blank : Timer := Blank TwentyFiveMinutes.
Definition booted : FocusSession := snd (reset session0).
Lemma booted_holds : Holds 0 booted blank.
Proof. exists 0. split; [reflexivity|]. split; [done|]. cbn. unfold Custom, TwentyFiveMinutes. lia. Qed.

(** C27: The focus session is a timer.  Over any sequence of calls (starting, ticking,
    stopping, cancelling, acknowledging, restoring any record whatever), made at the
    times of a clock that does not run backwards, with any wall clock samples, every
    status and update the class returns is that of a timer of unbounded time: the
    elapsed time is the time since the start, the phases follow it, wrapped counters
    lose nothing and a wall clock set back is refused.  The record kept is the one of
    that timer at every step, valid and sealed. *)
Theorem focus_refines_timer calls : timelyCalls 0 calls blank ->
  let '(outs, f) := runCalls calls booted in
  let '(timerOuts, tm) := timerCalls calls blank in
  outs = timerOuts /\ (exists seq, state_ f = sealed tm seq) /\ validateFocusState (state_ f) = true.
Proof.
  intros Ht. destruct (calls_do 0 calls booted blank booted_holds Ht) as (f & Hrun & (seq & -> & Hseq & Hok)).
  rewrite Hrun. destruct (timerCalls calls blank) as [outs tm]. cbn [fst snd] in *. split; [done|].
  rewrite session_state. split; [by exists seq|]. apply sealed_validates; [|done].
  destruct tm as [k|s armed base seen unix unixAt|s h e a]; [done| |done]. destruct Hok as (? & ? & ? & ? & ? & ? & ?).
  cbn. split_and!; done || lia.
Qed.

Definition exampleFocus : list (Call * ClockSample) :=
  [(CallStart (mkStart 7 Custom 5), mkSample (2 ^ 32 - 100000) false 0);
   (CallTick, mkSample (2 ^ 32 - 40000) true 1700000000); (CallTick, mkSample (2 ^ 32 + 200000) true 1700000240);
   (CallTick, mkSample (2 ^ 32 + 500001) true 1700000540)].
Lemma exampleFocus_timely : timelyCalls 0 exampleFocus blank.
Proof. cbn. repeat split; try done; lia. Qed.
Lemma focus_refines_timer_witness :
  timelyCalls 0 exampleFocus blank /\
  fst (runCalls exampleFocus booted) = fst (timerCalls exampleFocus blank) /\
  snd (timerCalls exampleFocus blank) = Ended (mkS 7 Custom 5 5) Natural 600000 false.
Proof.
  split; [exact exampleFocus_timely|]. split; [|reflexivity]. generalize (focus_refines_timer exampleFocus exampleFocus_timely).
  destruct (runCalls exampleFocus booted), (timerCalls exampleFocus blank). cbn. intros [H _]. exact H.
Defined.

(** ** When a session completes *)

Definition reports (p : Update -> bool) (out : Out) : bool :=
  match out with OutStatus _ (Some u) => p u | _ => false end.
Definition countOuts (p : Update -> bool) (outs : list Out) : nat := length (filter (fun out => reports p out = true) outs).
Definition ticks (samples : list ClockSample) : list (Call * ClockSample) := map (fun clock => (CallTick, clock)) samples.
(** Wall clock values are possible ones and, where trusted, do not go back. *)
Fixpoint steadyWall (unix : Z) (samples : list ClockSample) : Prop :=
  match samples with
  | [] => True
  | clock :: rest =>
      validateClock clock = true /\ rolledBack clock unix = false /\
      steadyWall (if unixTrusted clock then unixSeconds clock else unix) rest
  end.
Definition within (t0 : Z) (samples : list ClockSample) : Prop :=
  Forall (fun clock => monotonicMs clock - t0 < 2 ^ 31) samples.
Definition endTime (last : Z) (samples : list ClockSample) : Z := fold_left (fun _ c => monotonicMs c) samples last.
Definition isOk (out : Out) : Prop := match out with OutStatus FocusOk _ => True | _ => False end.

Lemma endTime_le last samples tm : timelyCalls last (ticks samples) tm -> last <= endTime last samples.
Proof.
  revert last tm. induction samples as [|clock rest IH]; intros last tm; cbn; [lia|].
  intros (_ & (Hle & _) & Hrest). unfold endTime. cbn. specialize (IH _ _ Hrest). unfold endTime in IH. lia.
Qed.
Lemma countOuts_cons (p : Update -> bool) status u outs :
  countOuts p (OutStatus status (Some u) :: outs) = ((if p u then 1 else 0) + countOuts p outs)%nat.
Proof. unfold countOuts. rewrite filter_cons. cbn [reports]. destruct (p u); [by rewrite decide_True|by rewrite decide_False]. Qed.
Lemma ticks_ended samples s how e ack :
  let r := timerCalls (ticks samples) (Ended s how e ack) in
  snd r = Ended s how e ack /\ Forall isOk (fst r) /\
  countOuts focusCompleted (fst r) = 0%nat /\ countOuts sessionCompleted (fst r) = 0%nat.
Proof.
  cbv zeta. induction samples as [|clock rest IH]; [by cbn|]. cbn [ticks map timerCalls timerCall timerTick].
  fold (ticks rest). destruct (timerCalls (ticks rest) _) as [outs tm]. cbn [fst snd] in *.
  destruct IH as (-> & Hok & Hf & Hs). split; [done|]. split; [by constructor|].
  unfold outOf. cbn [fst snd]. rewrite !countOuts_cons. by rewrite Hf, Hs.
Qed.

Lemma ticks_run samples last s t0 e unix unixAt : let tm := Running s t0 0 e unix unixAt in
  sessionOk s -> 0 <= e < totalOf s -> e = last - t0 ->
  timelyCalls last (ticks samples) tm -> steadyWall unix samples -> within t0 samples ->
  let r := timerCalls (ticks samples) tm in let now := endTime last samples - t0 in
  Forall isOk (fst r) /\ idOf (snd r) = sid s /\ elapsedMs (record (snd r) 0 0) = Z.min (totalOf s) now /\
  phaseOf (snd r) = (if totalOf s <=? now then Completed else phaseAt s now) /\
  countOuts focusCompleted (fst r) = (if (e <? focusOf s) && (focusOf s <=? now) then 1%nat else 0%nat) /\
  countOuts sessionCompleted (fst r) = (if totalOf s <=? now then 1%nat else 0%nat).
Proof.
  revert last e unix unixAt. induction samples as [|clock rest IH]; intros last e unix unixAt tm Hs He Hlast Ht Hw Hin; cbv zeta.
  - cbn. rewrite (proj2 (Z.leb_gt (totalOf s) (last - t0))) by lia. subst e. split; [constructor|]. split; [done|]. split; [lia|].
    split; [done|]. split; [|done]. destruct (Z.ltb_spec (last - t0) (focusOf s)), (Z.leb_spec (focusOf s) (last - t0)); done || lia.
  - destruct Ht as (_ & (Hle & Hx & Hgap) & Hrest). destruct Hw as (Hv & Hroll & Hw). inversion_clear Hin as [|? ? Hnow Hin'].
    cbn [ticks map timerCalls]. fold (ticks rest) in *. unfold endTime. cbn [fold_left]. fold (endTime (monotonicMs clock) rest).
    unfold tm in *. revert Hrest. cbn [timerCall timerTick]. rewrite Hv, Hroll. cbn [negb].
    rewrite (proj2 (Z.leb_gt (2 ^ 31) (monotonicMs clock - t0))) by lia. rewrite Z.add_0_l.
    set (e1 := monotonicMs clock - t0). destruct (if unixTrusted clock then (unixSeconds clock, e1) else (unix, unixAt)) as [u' a'] eqn:Ea.
    assert (Hu' : u' = (if unixTrusted clock then unixSeconds clock else unix)) by (destruct (unixTrusted clock); by injection Ea as <- <-).
    cbn [fst snd]. intros Hrest. pose proof (session_ms s Hs) as (_ & _ & Hr & _).
    pose proof (endTime_le _ _ _ Hrest) as Hend. unfold settle in *. destruct (Z.leb_spec (totalOf s) e1) as [Hge|Hlt].
    + destruct (ticks_ended rest s Natural (totalOf s) false) as (Hsnd & Hok & Hf & Hse).
      destruct (timerCalls (ticks rest) _) as [outs tm2]. cbn [fst snd] in *. subst tm2.
      rewrite (proj2 (Z.leb_le (totalOf s) (endTime (monotonicMs clock) rest - t0))) by lia.
      rewrite (proj2 (Z.leb_le (focusOf s) (endTime (monotonicMs clock) rest - t0))) by lia.
      split; [by constructor|]. split; [done|]. split; [cbn; lia|]. split; [done|]. unfold outOf. cbn [fst snd]. rewrite !countOuts_cons, Hf, Hse.
      cbn [passed phaseOf focusCompleted sessionCompleted]. unfold phaseAt. destruct (Z.leb_spec (focusOf s) e), (Z.ltb_spec e (focusOf s)); done || lia.
    + subst u'. destruct (IH (monotonicMs clock) e1 _ a' Hs ltac:(lia) eq_refl Hrest Hw Hin') as (Hok & Hid & Hel & Hph & Hf & Hse).
      destruct (timerCalls (ticks rest) _) as [outs tm2]. cbn [fst snd] in *.
      split; [by constructor|]. split; [exact Hid|]. split; [exact Hel|]. split; [exact Hph|]. unfold outOf. cbn [fst snd].
      rewrite !countOuts_cons, Hf, Hse. cbn [passed phaseOf focusCompleted sessionCompleted]. unfold phaseAt.
      assert (e <= e1) by lia.
      destruct (Z.leb_spec (focusOf s) e), (Z.leb_spec (focusOf s) e1), (Z.ltb_spec e (focusOf s)), (Z.ltb_spec e1 (focusOf s)),
        (Z.leb_spec (focusOf s) (endTime (monotonicMs clock) rest - t0)); done || lia.
Qed.

Lemma timerCalls_app calls1 calls2 tm : timerCalls (calls1 ++ calls2) tm =
  let '(outs1, tm1) := timerCalls calls1 tm in let '(outs2, tm2) := timerCalls calls2 tm1 in (outs1 ++ outs2, tm2).
Proof.
  revert tm. induction calls1 as [|[call clock] rest IH]; intros tm; cbn.
  - by destruct (timerCalls calls2 tm).
  - destruct (timerCall call clock tm) as [out tm1]. rewrite IH. destruct (timerCalls rest tm1) as [outs1 tm2].
    by destruct (timerCalls calls2 tm2).
Qed.
Lemma timelyCalls_app last calls1 calls2 tm : timelyCalls last (calls1 ++ calls2) tm ->
  timelyCalls last calls1 tm /\ timelyCalls (lastTime last calls1) calls2 (snd (timerCalls calls1 tm)).
Proof.
  revert last tm. induction calls1 as [|[call clock] rest IH]; intros last tm; [done|]. cbn.
  intros (Hc & Ht & Hrest). destruct (IH _ _ Hrest) as [H1 H2]. split; [done|]. unfold lastTime in *. cbn.
  destruct (timerCall call clock tm) as [out tm1]. cbn in *. by destruct (timerCalls rest tm1).
Qed.
Lemma start_accepted request clock tm u tm' : timerStart request clock tm = (FocusOk, u, tm') ->
  exists m b, normalizeDuration request = Some (m, b) /\ q_sessionId request <> 0 /\
    tm' = Running (mkS (q_sessionId request) (q_duration request) m b) (monotonicMs clock) 0 0
            (if unixTrusted clock then unixSeconds clock else 0) 0.
Proof.
  unfold timerStart. destruct (Z.eqb_spec (q_sessionId request) 0); [done|].
  destruct (normalizeDuration request) as [[m b]|]; [|done]. cbv zeta.
  destruct (match tm with Blank _ => None | _ => _ end) as [s0|]; [by destruct (_ && _)|].
  destruct (negb _); [done|]. destruct (negb _); [done|]. intros [= <- <-]. by exists m, b.
Qed.


