(* ===== verification/MainJson.v ===== *)
(** * Request bodies and record files of the application shell (main.cpp)

    The tokenizer of namespace companion_api, the bodies of one or two numbers it is
    used for here, the escaping of response texts, and the two templates through which
    records reach the NVS store.  A cursor is the list of the bytes not read yet. *)

From S2P Require Import Prelude CompanionText.

Open Scope Z_scope.
Open Scope kitsu_scope.

Definition isSpace (c : Z) : bool := (c =? 32) || (c =? 9) || (c =? 13) || (c =? 10).
Fixpoint skipWhitespace (input : list Z) : list Z :=
  match input with
  | c :: rest => if isSpace c then skipWhitespace rest else input
  | [] => []
  end.
Definition consume (expected : Z) (input : list Z) : option (list Z) :=
  match skipWhitespace input with
  | c :: rest => if c =? expected then Some rest else None
  | [] => None
  end.

(** The loop of [parseAsciiString] after the opening quote. *)
Fixpoint asciiLoop (input : list Z) : option (list Z * list Z) :=
  match input with
  | [] => None
  | c :: rest =>
      if c =? 34 then Some ([], rest)
      else if (c <? 0x20) || (0x7e <? c) || (c =? 92) then None
      else '(token, rest) ← asciiLoop rest; Some (c :: token, rest)
  end.
Definition parseAsciiString (input : list Z) : option (list Z * list Z) :=
  rest ← consume 34 input; asciiLoop rest.
Definition sameToken (token : list Z) (expected : string) : bool := beq token (js expected).

Definition isDigit (c : Z) : bool := (48 <=? c) && (c <=? 57).
Fixpoint uintLoop (value : Z) (input : list Z) : option Z :=
  match input with
  | [] => Some value
  | c :: rest =>
      if negb (isDigit c) then None
      else
        let value := u64 (value * 10 + (c - 48)) in
        if UINT32_MAX <? value then None else uintLoop value rest
  end.
Definition parseUint32Token (token : list Z) : option Z :=
  match token with
  | [] => None
  | first :: _ =>
      if (10 <? length token)%nat || ((1 <? length token)%nat && (first =? 48)) then None else uintLoop 0 token
  end.
Fixpoint digitSpan (input : list Z) : list Z * list Z :=
  match input with
  | c :: rest => if isDigit c then let '(token, rest) := digitSpan rest in (c :: token, rest) else ([], input)
  | [] => ([], [])
  end.
Definition parseNeighborUint32 (input : list Z) : option (Z * list Z) :=
  let '(token, rest) := digitSpan (skipWhitespace input) in
  value ← parseUint32Token token;
  Some (value, rest).

(** [skipWhitespace(input, bytes, cursor); return cursor == bytes;] *)
Definition atEnd (input : list Z) : bool := match skipWhitespace input with [] => true | _ => false end.

(** A request body is null or its bytes. *)
Definition textOf (payload : option (list Z)) : option (list Z) :=
  input ← payload;
  if validUtf8 input then Some input else None.

Definition emptyObject (payload : option (list Z)) : bool :=
  match (input ← textOf payload; rest ← consume 123 input; consume 125 rest) with
  | Some rest => atEnd rest
  | None => false
  end.
Definition parseSingleUintObject (payload : option (list Z)) (expectedKey : string) : option Z :=
  input ← textOf payload;
  rest ← consume 123 input;
  '(key, rest) ← parseAsciiString rest;
  if negb (sameToken key expectedKey) then None
  else
    rest ← consume 58 rest;
    '(value, rest) ← parseNeighborUint32 rest;
    rest ← consume 125 rest;
    if atEnd rest then Some value else None.
(** [parseClockSync] spells out the same steps. *)
Definition parseClockSync (payload : option (list Z)) : option Z :=
  input ← textOf payload;
  rest ← consume 123 input;
  '(key, rest) ← parseAsciiString rest;
  if negb (sameToken key "epoch") then None
  else
    rest ← consume 58 rest;
    let '(token, rest) := digitSpan (skipWhitespace rest) in
    epoch ← parseUint32Token token;
    rest ← consume 125 rest;
    if atEnd rest then Some epoch else None.

Definition hexUpper (digit : Z) : Z := if digit <? 10 then 48 + digit else 55 + digit.
Definition escapeByte (c : Z) : list Z :=
  if c =? 34 then [92; 34]
  else if c =? 92 then [92; 92]
  else if c =? 8 then [92; 98]
  else if c =? 12 then [92; 102]
  else if c =? 10 then [92; 110]
  else if c =? 13 then [92; 114]
  else if c =? 9 then [92; 116]
  else if (c <? 0x20) || (c =? 0x7f) then [92; 117; 48; 48; hexUpper (c / 16); hexUpper (c mod 16)]
  else [c].
Definition jsonEscaped (value : list Z) : list Z := concat (map escapeByte value).

(** ** Records in NVS *)

(** Preferences: a write returns the bytes stored, a read the bytes copied. *)
Class RecordStore (W : Type) := {
  putBytes : string -> list Z -> M W Z;
  getBytesLength : string -> M W Z;
  getBytes : string -> M W (list Z);
}.

Section Records.
Context {W : Type} `{RecordStore W}.

Definition writePreferenceRecord (storageReady : bool) (key : string) (value : list Z) : M W bool :=
  if negb storageReady then ret false
  else
    stored <- putBytes key value ;;
    if negb (stored =? Z.of_nat (length value)) then ret false
    else
      bytes <- getBytesLength key ;;
      if negb (bytes =? Z.of_nat (length value)) then ret false
      else
        check <- getBytes key ;;
        ret ((length check =? length value)%nat && beq value check).

Definition readPreferenceRecord (storageReady : bool) (key : string) (size : nat) : M W (option (list Z)) :=
  if negb storageReady then ret None
  else
    bytes <- getBytesLength key ;;
    if negb (bytes =? Z.of_nat size) then ret None
    else
      value <- getBytes key ;;
      ret (if (length value =? size)%nat then Some value else None).
End Records.

(** The laws of a store that answers truthfully: reads give what is stored; a write
    stores its bytes and says so, or stores nothing and does not. *)
Class TruthfulStore (W : Type) {store : RecordStore W} := {
  stored : W -> string -> option (list Z);
  length_stored w key : getBytesLength key w = (Z.of_nat (length (default [] (stored w key))), w);
  get_stored w key : getBytes key w = (default [] (stored w key), w);
  put_stored w key value : exists w',
    (putBytes key value w = (Z.of_nat (length value), w') /\ stored w' key = Some value \/
     (exists r, putBytes key value w = (r, w') /\ r <> Z.of_nat (length value)) /\ stored w' key = stored w key) /\
    forall key', key' <> key -> stored w' key' = stored w key';
}.

Section RecordFacts.
Context {W : Type} `{TruthfulStore W}.

(** A record is written and read back, or the one there stays. *)
Lemma write_record ready key value w : exists w' (ok : bool), writePreferenceRecord ready key value w = (ok, w') /\
  stored w' key = (if ok then Some value else stored w key) /\ (forall key', key' <> key -> stored w' key' = stored w key') /\
  (ok = true -> ready = true).
Proof.
  unfold writePreferenceRecord. destruct ready; cbn [negb]; [|by exists w, false].
  unfold bind at 1. destruct (put_stored w key value) as (w' & [[Hp Hs]|[[r [Hp Hr]] Hs]] & Hother); rewrite Hp.
  - rewrite Z.eqb_refl. cbn [negb]. unfold bind at 1. rewrite length_stored, Hs. cbn [default from_option].
    change (id value) with value. rewrite Z.eqb_refl. cbn [negb]. unfold bind at 1. rewrite get_stored, Hs. cbn.
    unfold id. rewrite Nat.eqb_refl, beq_refl. by exists w', true.
  - apply Z.eqb_neq in Hr. rewrite Hr. cbn [negb]. by exists w', false.
Qed.
Lemma read_record key size w : readPreferenceRecord true key size w =
  (match stored w key with Some v => if (length v =? size)%nat then Some v else None | None => if (size =? 0)%nat then Some [] else None end, w).
Proof.
  unfold readPreferenceRecord. cbn [negb]. unfold bind at 1. rewrite length_stored.
  destruct (stored w key) as [v|] eqn:E; cbn [default from_option]; unfold id.
  - destruct (Z.eqb_spec (Z.of_nat (length v)) (Z.of_nat size)) as [Hl|Hl]; cbn [negb].
    + unfold bind at 1. rewrite get_stored, E. cbn. unfold id. apply Nat2Z.inj in Hl. by rewrite Hl, Nat.eqb_refl.
    + destruct (Nat.eqb_spec (length v) size); [by subst|done].
  - destruct size as [|size]; [|done]. cbn [length]. rewrite Z.eqb_refl. cbn [negb]. unfold bind at 1.
    by rewrite get_stored, E.
Qed.
End RecordFacts.
