(* ===== verification/ClockStore.v ===== *)
(** * The wall clock of the application shell (main.cpp)

    How main.cpp keeps [Clock]: the two snapshots in NVS, the mutation that is stored,
    applied to the system time and the mesh, or rolled back, the synchronization by the
    phone, by network time and by the one-button editor, and what the rest of the
    program reads.  NVS, Wi-Fi, SNTP, the system time, the mesh client and the screen
    are the classes [RecordStore] and [ClockHost].  Serial commands are left out: they
    call the same mutation with values scanned from an Arduino String. *)

From S2P Require Import Prelude CompanionText Clock MainJson.

Open Scope Z_scope.
Open Scope kitsu_scope.

Definition CLOCK_NTP_STABILITY_MS : Z := 2000.
Definition CLOCK_NTP_RESYNC_MS : Z := 6 * 60 * 60 * 1000.
Definition CLOCK_SYNC_TOLERANCE_SECONDS : Z := 2.

(** The globals. *)
Record ClockMain := mkMain {
  storageReady : bool;
  clockStateReady : bool;
  kitsuClock : Clock;
  clockSnapshotGeneration : Z;
  clockSnapshotSlot : Z;
  clockEditor : ClockEditorView;
  clockNtpStarted : bool;
  clockNtpCandidate : bool;
  clockNtpCandidateAt : Z;
  clockNtpCandidateEpoch : Z;
  clockNtpLastAcceptedAt : Z;
}.

(** [clockSetShown]: the moment "CLOCK SET" and the screen after it. *)
Class ClockHost (W : Type) {store : RecordStore W} := {
  millis : M W Z;
  removeKey : string -> M W unit;
  setTimeOfDay : Z -> Z -> M W bool;
  meshSetEpoch : Z -> M W bool;
  wifiConnected : M W bool;
  sntpStop : M W unit;
  configTime : M W unit;
  systemTime : M W Z;
  sntpCompleted : M W bool;
  clockSetShown : Z -> M W unit;
  foregroundTransitionBlocked : M W bool;
  enterClockScreen : M W unit;
}.

Section ClockStore.
Context {W : Type} `{ClockHost W}.

Definition K : Type -> Type := M (ClockMain * W).
Definition global {A} (f : ClockMain -> A) : K A := gets (fun s => f (fst s)).
Definition assign (f : ClockMain -> ClockMain) : K unit := modify (fun s => (f (fst s), snd s)).
Definition host {A} (m : M W A) : K A := fun s => let '(a, w) := m (snd s) in (a, (fst s, w)).

Definition set_clock (c : Clock) (g : ClockMain) : ClockMain :=
  mkMain (storageReady g) (clockStateReady g) c (clockSnapshotGeneration g) (clockSnapshotSlot g) (clockEditor g)
    (clockNtpStarted g) (clockNtpCandidate g) (clockNtpCandidateAt g) (clockNtpCandidateEpoch g)
    (clockNtpLastAcceptedAt g).
Definition set_snapshot (generation slot : Z) (g : ClockMain) : ClockMain :=
  mkMain (storageReady g) (clockStateReady g) (kitsuClock g) generation slot (clockEditor g)
    (clockNtpStarted g) (clockNtpCandidate g) (clockNtpCandidateAt g) (clockNtpCandidateEpoch g)
    (clockNtpLastAcceptedAt g).
Definition set_stateReady (b : bool) (g : ClockMain) : ClockMain :=
  mkMain (storageReady g) b (kitsuClock g) (clockSnapshotGeneration g) (clockSnapshotSlot g) (clockEditor g)
    (clockNtpStarted g) (clockNtpCandidate g) (clockNtpCandidateAt g) (clockNtpCandidateEpoch g)
    (clockNtpLastAcceptedAt g).
Definition set_editor (v : ClockEditorView) (g : ClockMain) : ClockMain :=
  mkMain (storageReady g) (clockStateReady g) (kitsuClock g) (clockSnapshotGeneration g) (clockSnapshotSlot g) v
    (clockNtpStarted g) (clockNtpCandidate g) (clockNtpCandidateAt g) (clockNtpCandidateEpoch g)
    (clockNtpLastAcceptedAt g).
Definition set_ntpStarted (b : bool) (g : ClockMain) : ClockMain :=
  mkMain (storageReady g) (clockStateReady g) (kitsuClock g) (clockSnapshotGeneration g) (clockSnapshotSlot g)
    (clockEditor g) b (clockNtpCandidate g) (clockNtpCandidateAt g) (clockNtpCandidateEpoch g)
    (clockNtpLastAcceptedAt g).
Definition set_candidate (b : bool) (g : ClockMain) : ClockMain :=
  mkMain (storageReady g) (clockStateReady g) (kitsuClock g) (clockSnapshotGeneration g) (clockSnapshotSlot g)
    (clockEditor g) (clockNtpStarted g) b (clockNtpCandidateAt g) (clockNtpCandidateEpoch g)
    (clockNtpLastAcceptedAt g).
Definition set_candidateAt (at_ epoch : Z) (g : ClockMain) : ClockMain :=
  mkMain (storageReady g) (clockStateReady g) (kitsuClock g) (clockSnapshotGeneration g) (clockSnapshotSlot g)
    (clockEditor g) (clockNtpStarted g) (clockNtpCandidate g) at_ epoch (clockNtpLastAcceptedAt g).
Definition set_acceptedAt (at_ : Z) (g : ClockMain) : ClockMain :=
  mkMain (storageReady g) (clockStateReady g) (kitsuClock g) (clockSnapshotGeneration g) (clockSnapshotSlot g)
    (clockEditor g) (clockNtpStarted g) (clockNtpCandidate g) (clockNtpCandidateAt g) (clockNtpCandidateEpoch g) at_.

(** A call of a member of [kitsuClock], of [clockEditor]. *)
Definition onClock {A} (m : M Clock A) : K A := fun s =>
  let '(a, c) := m (kitsuClock (fst s)) in (a, (set_clock c (fst s), snd s)).
Definition onEditor {A} (m : M ClockEditorView A) : K A := fun s =>
  let '(a, v) := m (clockEditor (fst s)) in (a, (set_editor v (fst s), snd s)).

Definition isOk (r : ClockResult) : bool := bool_decide (r = ClockOk).

(** The reading is the output parameter, whatever the result. *)
Definition clockReading (now : Z) (requireTrusted : bool) : K (bool * ClockReading) :=
  r <- onClock (read now) ;;
  let '(result, output) := r in
  ret (isOk result && (negb requireTrusted || (r_trust output =? Trusted)), output).

Definition applyClockToRuntime (now : Z) : K bool :=
  r <- clockReading now true ;;
  let '(ok, reading) := r in
  if negb ok || (UINT32_MAX <? r_unixSeconds reading) then ret false
  else
    applied <- host (setTimeOfDay (r_unixSeconds reading) (r_millisecond reading)) ;;
    if negb applied then ret false
    else host (meshSetEpoch (u32 (r_unixSeconds reading))).

Definition slotKey (slot : Z) : string := if slot =? 0 then "clock_a" else "clock_b".

Definition persistClockState : K bool :=
  storage <- global storageReady ;;
  ready <- global clockStateReady ;;
  clock <- global kitsuClock ;;
  if negb storage || negb ready || negb (isSet clock) then ret false
  else
    current <- global clockSnapshotGeneration ;;
    let generation := u32 (current + 1) in
    let generation := if generation =? 0 then 1 else generation in
    now <- host millis ;;
    made <- onClock (makeSnapshot now generation) ;;
    let '(result, snapshot) := made in
    match snapshot with
    | None => ret false
    | Some snapshot =>
        if negb (isOk result) then ret false
        else
          slot <- global clockSnapshotSlot ;;
          let nextSlot := u8 (Z.lxor slot 1) in
          written <- host (writePreferenceRecord storage (slotKey nextSlot) (snapshotBytes snapshot)) ;;
          if negb written then ret false
          else assign (set_snapshot generation nextSlot) ;;; ret true
    end.

(** The clock, generation and slot before a mutation. *)
Record Before := mkBefore { b_clock : Clock; b_generation : Z; b_slot : Z }.
Definition current : K Before :=
  global (fun g => mkBefore (kitsuClock g) (clockSnapshotGeneration g) (clockSnapshotSlot g)).
Definition takeBack (before : Before) : K unit :=
  assign (set_clock (b_clock before)) ;;; assign (set_snapshot (b_generation before) (b_slot before)).

(** The error text; [None] when the mutation stands. *)
Definition commitClockMutation (before : Before) (now : Z) (applyRuntime : bool) : K (option string) :=
  ready <- global clockStateReady ;;
  clock <- global kitsuClock ;;
  stored <- (if ready && isSet clock then persistClockState else ret true) ;;
  if negb stored then takeBack before ;;; ret (Some "clock_storage_failed"%string)
  else
    applied <- (if negb applyRuntime then ret true else applyClockToRuntime now) ;;
    if applied then ret None
    else
      takeBack before ;;;
      ready <- global clockStateReady ;;
      when ready
        (if isSet (b_clock before) then persistClockState ;;; ret tt
         else
           host (removeKey "clock_a") ;;;
           host (removeKey "clock_b") ;;;
           assign (set_snapshot 0 0)) ;;;
      when (trusted (b_clock before)) (applyClockToRuntime now ;;; ret tt) ;;;
      ret (Some "clock_runtime_failed"%string).

Definition readSlot (key : string) : K (option ClockSnapshot) :=
  storage <- global storageReady ;;
  bytes <- host (readPreferenceRecord storage key (Z.to_nat kClockSnapshotBytes)) ;;
  ret (match bytes with
       | Some bytes => let s := snapshotOf bytes in if isOk (validateSnapshot s) then Some s else None
       | None => None
       end).

Definition loadClockState : K unit :=
  onClock reset ;;;
  storage <- global storageReady ;;
  assign (set_stateReady storage) ;;;
  assign (set_snapshot 0 0) ;;;
  if negb storage then ret tt
  else
    first <- readSlot "clock_a" ;;
    second <- readSlot "clock_b" ;;
    match (match first, second with
           | None, None => None
           | Some first, None => Some (first, 0)
           | None, Some second => Some (second, 1)
           | Some first, Some second =>
               if generationAfter (s_generation second) (s_generation first) then Some (second, 1) else Some (first, 0)
           end) with
    | None => ret tt
    | Some (selected, slot) =>
        now <- host millis ;;
        result <- onClock (restore selected now) ;;
        if negb (isOk result) then onClock reset
        else assign (set_snapshot (s_generation selected) slot)
    end.

(** ** Who sets the clock *)

Definition clockError (error : string) : list Z :=
  js "{'ok':false,'error':'" ++ js error ++ js "'}".

Definition syncClock (payload : option (list Z)) : K (option (list Z)) :=
  match parseClockSync payload with
  | None => ret None
  | Some epoch =>
      now <- host millis ;;
      before <- current ;;
      reading_ <- clockReading now true ;;
      let '(currentTrusted, reading) := reading_ in
      let delta := if currentTrusted then Z.abs (r_unixSeconds reading - epoch) else 2 ^ 64 - 1 in
      offset <- global (fun g => utcOffsetMinutes_ (kitsuClock g)) ;;
      setResult <- onClock (setFromUnixSeconds epoch 0 AuthenticatedApp offset now) ;;
      if negb (isOk setResult) then
        assign (set_clock (b_clock before)) ;;; ret (Some (clockError "clock_value_rejected"))
      else
        let ok := js "{'schema':'kitsu.clock.v1','epoch':" ++ formatDecimal epoch ++ [125] in
        if delta <=? CLOCK_SYNC_TOLERANCE_SECONDS then
          applied <- applyClockToRuntime now ;;
          if applied then ret (Some ok)
          else
            assign (set_clock (b_clock before)) ;;;
            when (trusted (b_clock before)) (applyClockToRuntime now ;;; ret tt) ;;;
            ret (Some (clockError "clock_runtime_failed"))
        else
          ready <- global clockStateReady ;;
          if negb ready then
            assign (set_clock (b_clock before)) ;;; ret (Some (clockError "clock_storage_failed"))
          else
            error <- commitClockMutation before now true ;;
            ret (Some (match error with Some error => clockError error | None => ok end))
  end.

(** [true] when a sample was accepted. *)
Definition serviceClockNetworkTime (now : Z) : K bool :=
  connected <- host wifiConnected ;;
  if negb connected then
    started <- global clockNtpStarted ;;
    when started (host sntpStop) ;;;
    assign (set_ntpStarted false) ;;;
    assign (set_candidate false) ;;;
    ret false
  else
    last <- global clockNtpLastAcceptedAt ;;
    if negb (last =? 0) && (u32 (now - last) <? CLOCK_NTP_RESYNC_MS) then ret false
    else
      started <- global clockNtpStarted ;;
      when (negb started) (host configTime ;;; assign (set_ntpStarted true) ;;; assign (set_candidate false)) ;;;
      epoch <- host systemTime ;;
      completed <- host sntpCompleted ;;
      if negb completed || (epoch <? kMinimumClockUnixSeconds) || (kMaximumClockUnixSeconds <? epoch)
      then assign (set_candidate false) ;;; ret false
      else
        candidate <- global clockNtpCandidate ;;
        if negb candidate then
          assign (set_candidate true) ;;; assign (set_candidateAt now epoch) ;;; ret false
        else
          candidateAt <- global clockNtpCandidateAt ;;
          candidateEpoch <- global clockNtpCandidateEpoch ;;
          if u32 (now - candidateAt) <? CLOCK_NTP_STABILITY_MS then ret false
          else if (epoch <? candidateEpoch) || (candidateEpoch + 30 <? epoch)
          then assign (set_candidate false) ;;; ret false
          else
            before <- current ;;
            result <- onClock (acceptNtp (mkSample epoch 0 true) now) ;;
            stands <- (if negb (isOk result) then ret false
                       else error <- commitClockMutation before now true ;; ret (bool_decide (error = None))) ;;
            if negb stands then assign (set_candidate false) ;;; ret false
            else
              assign (set_acceptedAt (if now =? 0 then 1 else now)) ;;;
              assign (set_candidate false) ;;;
              ret true.

(** Of [printClockStatus]: the reading it prints. *)
Definition printClockStatus : K unit :=
  now <- host millis ;;
  onClock (read now) ;;;
  ret tt.

Definition commitClockEditor : K bool :=
  chosen <- global (fun g => value (clockEditor g)) ;;
  match chosen with
  | None => ret false
  | Some (epoch, offset) =>
      now <- host millis ;;
      before <- current ;;
      result <- onClock (setFromUnixSeconds epoch 0 ManualDevice offset now) ;;
      stands <- (if negb (isOk result) then ret false
                 else error <- commitClockMutation before now true ;; ret (bool_decide (error = None))) ;;
      if negb stands then ret false
      else
        onEditor cancel ;;;
        host (clockSetShown now) ;;;
        printClockStatus ;;;
        ret true
  end.

Definition beginClockEditor : K unit :=
  blocked <- host foregroundTransitionBlocked ;;
  if blocked then ret tt
  else
    offset <- global (fun g => utcOffsetMinutes_ (kitsuClock g)) ;;
    now <- host millis ;;
    r <- clockReading now false ;;
    let '(ok, reading) := r in
    let '(seed, offset) :=
      if ok then (r_unixSeconds reading, r_utcOffsetMinutes reading) else (kMinimumClockUnixSeconds, offset) in
    result <- onEditor (editorBegin seed offset) ;;
    if negb (isOk result) then ret tt
    else host enterClockScreen.
End ClockStore.
