(* ===== verification/ClockStoreFacts.v ===== *)
(** * The wall clock survives restarts

    The two snapshots of [ClockStore]: which one a restart loads, and what a mutation
    that stood, or that was taken back, leaves for it. *)

From S2P Require Import Prelude Crc CompanionText Clock ClockCalendar MainJson ClockStore.

Open Scope Z_scope.
Open Scope kitsu_scope.

(** ** The record *)

Record SnapWidths (s : ClockSnapshot) : Prop := {
  sw_magic : 0 <= s_magic s < 2 ^ 32;
  sw_bytes : isByte (s_schemaVersion s) /\ isByte (s_bytes s) /\ isByte (s_source s) /\ isByte (s_savedTrust s);
  sw_generation : 0 <= s_generation s < 2 ^ 32;
  sw_millisecond : 0 <= s_millisecond s < 65536;
  sw_offset : - 2 ^ 15 <= s_utcOffsetMinutes s < 2 ^ 15;
  sw_unix : 0 <= s_unixSeconds s < 2 ^ 64;
  sw_reserved : s_reserved s = [0; 0; 0; 0];
  sw_crc : 0 <= s_crc32 s < 2 ^ 32;
}.

Lemma s16_u16 v : - 2 ^ 15 <= v < 2 ^ 15 -> s16 (u16 v) = v.
Proof.
  intros Hv. unfold s16, u16. destruct (Z.ltb_spec (v mod 2 ^ 16) (2 ^ 15)) as [H|H].
  - destruct (Z.lt_ge_cases v 0); [|by rewrite Z.mod_small in * by lia].
    rewrite <- (Z.mod_add v 1), Z.mod_small in H by lia. lia.
  - destruct (Z.lt_ge_cases v 0); [|rewrite Z.mod_small in H by lia; lia].
    rewrite <- (Z.mod_add v 1), Z.mod_small by lia. lia.
Qed.
Lemma put32_low v : put32 (v mod 2 ^ 32) = put32 v.
Proof.
  unfold put32, u8. f_equal; [|f_equal; [|f_equal; [|f_equal]]]; rewrite ?Z.shiftr_div_pow2 by lia.
  - rewrite Z.mod_mod_divide; [done|]. by exists (2 ^ 24).
  - rewrite (Z.mod_eq v (2 ^ 32)) by lia. replace (v - 2 ^ 32 * (v / 2 ^ 32)) with (v + - (v / 2 ^ 32) * 2 ^ 24 * 2 ^ 8) by lia.
    rewrite Z.div_add by lia. replace (- (v / 2 ^ 32) * 2 ^ 24) with (- (v / 2 ^ 32) * 2 ^ 16 * 2 ^ 8) by lia.
    by rewrite Z.mod_add by lia.
  - rewrite (Z.mod_eq v (2 ^ 32)) by lia. replace (v - 2 ^ 32 * (v / 2 ^ 32)) with (v + - (v / 2 ^ 32) * 2 ^ 16 * 2 ^ 16) by lia.
    rewrite Z.div_add by lia. replace (- (v / 2 ^ 32) * 2 ^ 16) with (- (v / 2 ^ 32) * 2 ^ 8 * 2 ^ 8) by lia.
    by rewrite Z.mod_add by lia.
  - rewrite (Z.mod_eq v (2 ^ 32)) by lia. replace (v - 2 ^ 32 * (v / 2 ^ 32)) with (v + - (v / 2 ^ 32) * 2 ^ 8 * 2 ^ 24) by lia.
    rewrite Z.div_add by lia. by rewrite Z.mod_add by lia.
Qed.
(** A 64-bit value written as two words. *)
Lemma get64_put v rest : 0 <= v < 2 ^ 64 ->
  get32 (put32 v ++ put32 (Z.shiftr v 32) ++ rest) + 2 ^ 32 * get32 (put32 (Z.shiftr v 32) ++ rest) = v.
Proof.
  intros Hv. rewrite <- (put32_low v). rewrite Z.shiftr_div_pow2 by lia.
  rewrite !get32_put32; [|apply Z.div_lt_upper_bound || idtac..].
  - pose proof (Z.div_mod v (2 ^ 32) ltac:(lia)). lia.
  - split; [apply Z.div_pos; lia|apply Z.div_lt_upper_bound; lia].
  - apply Z.mod_pos_bound. lia.
Qed.

Lemma snapshotOf_bytes s : SnapWidths s -> snapshotOf (snapshotBytes s) = s.
Proof.
  intros [Hm Hb Hg Hms Ho Hu Hr Hc]. destruct s as [m v b sr st g ms o u r c].
  cbn in Hm, Hb, Hg, Hms, Ho, Hu, Hr, Hc. subst r.
  unfold snapshotOf, snapshotBytes, snapshotPrefix. cbn [s_magic s_schemaVersion s_bytes s_source s_savedTrust s_generation
    s_millisecond s_utcOffsetMinutes s_unixSeconds s_reserved s_crc32].
  rewrite <- !app_assoc. f_equal.
  - apply (get32_put32 m). lia.
  - apply (get32_put32 g). lia.
  - apply (get16_put16 ms). lia.
  - rewrite <- (s16_u16 o) at 2 by done. f_equal. apply (get16_put16 (u16 o)). apply u16_range.
  - apply (get64_put u ([0; 0; 0; 0] ++ put32 c)). done.
  - apply (get32_put32 c []). lia.
Qed.
Lemma snapshotBytes_length s : s_reserved s = [0; 0; 0; 0] -> length (snapshotBytes s) = 32%nat.
Proof. intros Hr. unfold snapshotBytes, snapshotPrefix. by rewrite Hr. Qed.

(** ** The clock *)

Definition ClockSound (c : Clock) : Prop :=
  0 <= millisecond_ c /\ validOffset (utcOffsetMinutes_ c) = true /\
  (trust_ c = Unset \/
   (trust_ c = RestoredStale \/ trust_ c = Trusted) /\ validSource (source_ c) = true /\
   validInstant (unixSeconds_ c) (millisecond_ c) = true).
Definition keeps {A} (m : M Clock A) : Prop := forall c, ClockSound c -> ClockSound (snd (m c)).

Lemma keeps_report r : keeps (report r).
Proof. intros c Hc. exact Hc. Qed.
Lemma keeps_bind {A B} (m : M Clock A) (k : A -> M Clock B) : keeps m -> (forall a, keeps (k a)) -> keeps (bind m k).
Proof. intros Hm Hk c Hc. unfold bind. specialize (Hm c Hc). destruct (m c) as [a c']. by apply Hk. Qed.
Lemma keeps_ret {A} (a : A) : keeps (ret a).
Proof. intros c Hc. exact Hc. Qed.
Lemma keeps_gets {A} (f : Clock -> A) : keeps (gets f).
Proof. intros c Hc. exact Hc. Qed.
Lemma keeps_setAnchor s ms src o now : 0 <= ms -> keeps (setAnchor s ms src o now).
Proof.
  intros Hms c Hc. unfold setAnchor. destruct (validDirectSource src) eqn:Es; [|done]. cbn [negb].
  destruct (validOffset o) eqn:Eo; [|done]. cbn [negb]. destruct (validInstant s ms) eqn:Ei; [|done]. cbn.
  split; [done|]. split; [done|]. right. split; [by right|]. split; [|done].
  unfold validDirectSource, validSource in *. rewrite !orb_true_iff, !Z.eqb_eq in Es. cbn.
  unfold ManualSerial, ManualDevice, AuthenticatedApp in *. destruct Es as [[-> | ->]| ->]; done.
Qed.
Lemma keeps_acceptNtp sample now : 0 <= n_millisecond sample -> keeps (acceptNtp sample now).
Proof.
  intros Hms c Hc. unfold acceptNtp. destruct (n_synchronized sample); [|done]. cbn [negb].
  destruct (validInstant _ _) eqn:Ei; [|done]. destruct Hc as (_ & Ho & _). cbn. split; [done|]. split; [done|].
  right. split; [by right|]. done.
Qed.
Lemma keeps_setUtcOffset o : keeps (setUtcOffsetMinutes o).
Proof. intros c Hc. unfold setUtcOffsetMinutes. destruct (validOffset o) eqn:E; [|done]. destruct Hc as (? & _ & ?). by split_and!. Qed.
Lemma keeps_reset : keeps reset.
Proof. intros c _. split; [done|]. split; [done|]. by left. Qed.

Lemma advance_seconds c now : validInstant (unixSeconds_ c) (millisecond_ c) = true -> 0 <= millisecond_ c ->
  let delta := u32 (now - lastMillis_ c) in
  let total := u64 (millisecond_ c + delta) in
  (u64 (kMaximumClockUnixSeconds - unixSeconds_ c) <? total / 1000) ||
  ((u64 (unixSeconds_ c + total / 1000) =? kMaximumClockUnixSeconds) && negb (u16 (total mod 1000) =? 0)) = false ->
  u64 (unixSeconds_ c + total / 1000) = unixSeconds_ c + total / 1000 /\ total = millisecond_ c + delta /\
  u16 (total mod 1000) = total mod 1000 /\
  validInstant (unixSeconds_ c + total / 1000) (total mod 1000) = true.
Proof.
  intros Hi Hms. cbv zeta. apply validInstant_iff in Hi; [|done]. unfold kMinimumClockUnixSeconds, kMaximumClockUnixSeconds in *.
  pose proof (u32_range (now - lastMillis_ c)). rewrite (u64_id (millisecond_ c + _)) by lia. set (total := millisecond_ c + _).
  pose proof (Z.mod_pos_bound total 1000 ltac:(lia)). assert (0 <= total / 1000 < 10000000) by (Z.to_euclidean_division_equations; lia).
  rewrite (u16_id (total mod 1000)), !u64_id by lia. rewrite orb_false_iff, Z.ltb_ge, andb_false_iff, negb_false_iff, Z.eqb_neq, Z.eqb_eq.
  intros Hb. split; [done|]. split; [done|]. split; [done|]. apply validInstant_iff; [lia|].
  unfold kMinimumClockUnixSeconds, kMaximumClockUnixSeconds. lia.
Qed.
Lemma keeps_advance now : keeps (advance now).
Proof.
  intros c Hc. unfold advance, bind at 1, gets at 1. unfold id. destruct (isSet c) eqn:Eset; cbn [negb]; [|done].
  destruct Hc as (Hms & Ho & [Hu|(Ht & Hs & Hi)]); [by unfold isSet in Eset; rewrite Hu in Eset|]. cbv zeta.
  destruct (INT32_MAX <? _); [by split_and!; [| |right; split_and!; [left| |]]|].
  destruct (_ || _) eqn:Eb.
  - split; [done|]. split; [done|]. right. split; [by left|]. split; [done|]. done.
  - destruct (advance_seconds c now Hi Hms Eb) as (Heq & Htot & Hmod & Hv). cbn. rewrite Heq, Hmod.
    split; [apply Z.mod_pos_bound; lia|]. split; [done|]. by right.
Qed.
Lemma keeps_read now : keeps (read now).
Proof. unfold read. apply keeps_bind; [apply keeps_advance|]. intros r.
  apply keeps_bind; [apply keeps_gets|]. intros reading_. apply keeps_ret.
Qed.
Lemma keeps_makeSnapshot now generation : keeps (makeSnapshot now generation).
Proof.
  unfold makeSnapshot. apply keeps_bind; [apply keeps_advance|]. intros r. destruct (negb _); [apply keeps_ret|].
  apply keeps_bind; [apply keeps_gets|]. intros s. apply keeps_bind; [apply keeps_report|]. intros r'. apply keeps_ret.
Qed.

(** ** Snapshots *)

Lemma validate_facts s : validateSnapshot s = ClockOk ->
  validSource (s_source s) = true /\ (s_savedTrust s = Trusted \/ s_savedTrust s = RestoredStale) /\
  validInstant (s_unixSeconds s) (s_millisecond s) = true /\ validOffset (s_utcOffsetMinutes s) = true.
Proof.
  unfold validateSnapshot. destruct (negb (s_magic s =? _)); [done|]. destruct (negb _ || negb _); [done|].
  destruct (negb (s_crc32 s =? _)); [done|]. destruct (_ || _) eqn:E; [done|]. intros _.
  rewrite !orb_false_iff, !negb_false_iff in E. destruct E as ((((Hs & Ht) & Hi) & Ho) & _).
  split; [done|]. split; [|done]. rewrite andb_false_iff, !negb_false_iff, !Z.eqb_eq in Ht. done.
Qed.
Lemma keeps_restore s now : 0 <= s_millisecond s -> keeps (restore s now).
Proof.
  intros Hms c Hc. unfold restore. destruct (bool_decide_reflect (validateSnapshot s = ClockOk)) as [Hv|]; cbn [negb]; [|done].
  destruct (validate_facts s Hv) as (Hs & _ & Hi & Ho). cbn. split; [done|]. split; [done|]. right. split; [by left|]. done.
Qed.

Lemma validOffset_range o : validOffset o = true -> -840 <= o <= 840.
Proof. intros H%validOffset_iff. exact H. Qed.
Lemma snapshotAt_widths generation c : ClockSound c -> isSet c = true -> 0 <= generation < 2 ^ 32 ->
  SnapWidths (snapshotAt generation c).
Proof.
  intros (Hms & Ho%validOffset_range & [Hu|(Ht & Hs & Hi)]) Hset Hg; [by unfold isSet in Hset; rewrite Hu in Hset|].
  apply validInstant_iff in Hi; [|done]. unfold kMinimumClockUnixSeconds, kMaximumClockUnixSeconds in Hi.
  unfold validSource, ManualSerial, AuthenticatedApp in Hs. rewrite andb_true_iff, !Z.leb_le in Hs.
  unfold RestoredStale, Trusted in Ht. unfold snapshotAt. cbv zeta.
  assert (Hbytes : isByte (source_ c) /\ isByte (trust_ c)) by (unfold isByte; lia).
  set (s0 := mkSnapshot _ _ _ _ _ _ _ _ _ _ 0).
  assert (Hcrc : 0 <= snapshotCrc s0 < 2 ^ 32).
  { apply crc32_range. unfold snapshotPrefix, s0, put32, put16. cbn [app s_magic s_schemaVersion s_bytes s_source s_savedTrust
      s_generation s_millisecond s_utcOffsetMinutes s_unixSeconds s_reserved].
    repeat first [apply Forall_nil_2 | apply Forall_cons_2; [first [apply u8_range |
      unfold isByte, kClockSnapshotSchemaVersion, kClockSnapshotBytes in *; lia]|]]. }
  clearbody s0. revert Hcrc. generalize (snapshotCrc s0). intros crc Hcrc. clear s0.
  unfold isByte, kSnapshotMagic, kClockSnapshotSchemaVersion, kClockSnapshotBytes in *.
  constructor; cbn; unfold isByte; try lia. done.
Qed.
Lemma validate_intro s : s_magic s = kSnapshotMagic -> s_schemaVersion s = kClockSnapshotSchemaVersion ->
  s_bytes s = kClockSnapshotBytes -> s_crc32 s = snapshotCrc s -> validSource (s_source s) = true ->
  (s_savedTrust s = RestoredStale \/ s_savedTrust s = Trusted) ->
  validInstant (s_unixSeconds s) (s_millisecond s) = true -> validOffset (s_utcOffsetMinutes s) = true ->
  s_reserved s = [0; 0; 0; 0] -> validateSnapshot s = ClockOk.
Proof.
  intros Hm Hv Hb Hc Hs Ht Hi Ho Hr. unfold validateSnapshot. rewrite <- Hc, Hm, Hv, Hb, Hs, Hi, Ho, Hr. generalize (s_crc32 s).
  intros c. rewrite !Z.eqb_refl. by destruct Ht as [-> | ->].
Qed.
Lemma snapshotAt_crc generation c : s_crc32 (snapshotAt generation c) = snapshotCrc (snapshotAt generation c).
Proof. unfold snapshotAt. cbv zeta. cbn [s_crc32]. apply (f_equal crc32). reflexivity. Qed.
Lemma snapshotAt_valid generation c : ClockSound c -> isSet c = true -> validateSnapshot (snapshotAt generation c) = ClockOk.
Proof.
  intros (Hms & Ho & [Hu|(Ht & Hs & Hi)]) Hset; [by unfold isSet in Hset; rewrite Hu in Hset|].
  pose proof (snapshotAt_crc generation c). apply validate_intro; [reflexivity|reflexivity|reflexivity|assumption|..];
    [exact Hs|exact Ht|exact Hi|exact Ho|reflexivity].
Qed.

(** ** Slots *)

Section Slots.
Context {W : Type} `{TruthfulStore W} {hostW : ClockHost W}.

(** What loads from a slot. *)
Definition slotOf (w : W) (slot : Z) : option ClockSnapshot :=
  bytes ← stored w (slotKey slot);
  if (length bytes =? 32)%nat
  then let s := snapshotOf bytes in if isOk (validateSnapshot s) then Some s else None
  else None.
(** What a restart loads, and from which slot. *)
Definition newest (w : W) : option (ClockSnapshot * Z) :=
  match slotOf w 0, slotOf w 1 with
  | None, None => None
  | Some first, None => Some (first, 0)
  | None, Some second => Some (second, 1)
  | Some first, Some second =>
      if generationAfter (s_generation second) (s_generation first) then Some (second, 1) else Some (first, 0)
  end.

Lemma readSlot_run key slot g w : storageReady g = true -> key = slotKey slot ->
  readSlot key (g, w) = (slotOf w slot, (g, w)).
Proof.
  intros Hg ->. unfold readSlot. unfold bind at 1, global, gets at 1. cbn [fst]. rewrite Hg. unfold bind at 1, host. cbn [fst snd].
  change (Z.to_nat kClockSnapshotBytes) with 32%nat. rewrite read_record. unfold ret. f_equal. unfold slotOf.
  destruct (stored w (slotKey slot)) as [bytes|]; [|done]. cbn. by destruct (length bytes =? 32)%nat.
Qed.

(** The globals before [setup], NVS open. *)
Definition main0 : ClockMain := mkMain true false clock0 0 0 view0 false false 0 0 0.
Definition restarted (w : W) : ClockMain := fst (snd (loadClockState (main0, w))).

(** A clock that shows the instant of another, no longer trusted. *)
Definition showsSnapshot (s : ClockSnapshot) (c : Clock) : Prop :=
  unixSeconds_ c = s_unixSeconds s /\ millisecond_ c = s_millisecond s /\ utcOffsetMinutes_ c = s_utcOffsetMinutes s /\
  source_ c = s_source s /\ trust_ c = RestoredStale.

Lemma slotOf_ok w slot s : slotOf w slot = Some s -> 0 <= s_millisecond s < 65536 /\ 0 <= s_generation s < 2 ^ 32.
Proof.
  unfold slotOf. destruct (stored w _) as [bytes|]; [|done]. cbn. destruct (length bytes =? 32)%nat; [|done].
  destruct (isOk _); [|done]. intros [= <-]. split; [apply u16_range|apply u32_range].
Qed.
Lemma slotOf_valid w slot s : slotOf w slot = Some s -> validateSnapshot s = ClockOk.
Proof.
  unfold slotOf. destruct (stored w _) as [bytes|]; [|done]. cbn. destruct (_ =? _)%nat; [|done].
  unfold isOk. destruct (bool_decide_reflect (validateSnapshot (snapshotOf bytes) = ClockOk)); [|done]. by intros [= <-].
Qed.
Lemma newest_slot w s slot : newest w = Some (s, slot) -> slotOf w slot = Some s /\ (slot = 0 \/ slot = 1).
Proof.
  unfold newest. destruct (slotOf w 0) as [s0|] eqn:E0, (slotOf w 1) as [s1|] eqn:E1; [| | |done].
  - destruct (generationAfter _ _); intros [= <- <-]; split; auto.
  - intros [= <- <-]; auto.
  - intros [= <- <-]; auto.
Qed.

(** ** The host *)

(** What the host calls do to the store: nothing, but for [removeKey]. *)
Class QuietHost := {
  millis_stored w key : stored (snd (millis w)) key = stored w key;
  time_stored s ms w key : stored (snd (setTimeOfDay s ms w)) key = stored w key;
  mesh_stored e w key : stored (snd (meshSetEpoch e w)) key = stored w key;
  remove_stored key w : stored (snd (removeKey key w)) key = None \/ stored (snd (removeKey key w)) key = stored w key;
  remove_other key w key' : key' <> key -> stored (snd (removeKey key w)) key' = stored w key';
}.
Context {quiet : QuietHost}.

Lemma slotOf_ext w w' slot : stored w' (slotKey slot) = stored w (slotKey slot) -> slotOf w' slot = slotOf w slot.
Proof. unfold slotOf. by intros ->. Qed.
Lemma newest_ext w w' : slotOf w' 0 = slotOf w 0 -> slotOf w' 1 = slotOf w 1 -> newest w' = newest w.
Proof. unfold newest. by intros -> ->. Qed.

Lemma load_run g w : storageReady g = true -> exists g' w', loadClockState (g, w) = (tt, (g', w')) /\
  storageReady g' = true /\ clockStateReady g' = true /\ (forall key, stored w' key = stored w key) /\
  match newest w with
  | Some (s, slot) =>
      showsSnapshot s (kitsuClock g') /\ clockSnapshotGeneration g' = s_generation s /\ clockSnapshotSlot g' = slot
  | None => kitsuClock g' = clock0 /\ clockSnapshotGeneration g' = 0 /\ clockSnapshotSlot g' = 0
  end.
Proof.
  intros Hg. unfold loadClockState. unfold bind at 1, onClock at 1. cbn [fst snd].
  change (reset (kitsuClock g)) with (tt, clock0). cbv beta iota. unfold bind at 1, global, gets at 1. cbn [fst set_clock storageReady]. rewrite Hg.
  unfold bind at 1, assign, modify at 1. cbn [fst snd]. unfold bind at 1, assign, modify at 1. cbn [fst snd negb].
  set (g1 := set_snapshot 0 0 _). assert (Hg1 : storageReady g1 = true) by exact Hg.
  unfold bind at 1. rewrite (readSlot_run _ 0) by done. unfold bind at 1. rewrite (readSlot_run _ 1) by done.
  fold (newest w). destruct (newest w) as [[s slot]|] eqn:En.
  - destruct (newest_slot _ _ _ En) as [Hs Hslot]. pose proof (slotOf_valid _ _ _ Hs) as Hv. pose proof (millis_stored w) as Hw.
    unfold bind at 1, host at 1. cbn [fst snd]. destruct (millis w) as [now w']. cbn [fst snd] in *.
    unfold bind at 1, onClock at 1. cbn [fst snd]. unfold restore. rewrite Hv. rewrite bool_decide_eq_true_2 by done. cbn [negb].
    eexists _, w'. split; [reflexivity|]. split; [exact Hg1|]. split; [reflexivity|]. split; [exact Hw|]. done.
  - eexists _, w. split; [reflexivity|]. done.
Qed.

(** ** A snapshot is stored *)

Definition nextGeneration (g : Z) : Z := if u32 (g + 1) =? 0 then 1 else u32 (g + 1).
Definition otherSlot (slot : Z) : Z := 1 - slot.

(** The clock when it is looked at. *)
Definition looked (now : Z) (c : Clock) : ClockResult * Clock := advance now c.

Lemma makeSnapshot_run now generation c : makeSnapshot now generation c =
  let '(r, c') := advance now c in
  if isOk r then ((ClockOk, Some (snapshotAt generation c')), snd (report ClockOk c')) else ((r, None), c').
Proof.
  unfold makeSnapshot, bind, isOk. destruct (advance now c) as [r c']. by destruct (bool_decide (r = ClockOk)).
Qed.
Lemma snapshotAt_report generation c r : snapshotAt generation (snd (report r c)) = snapshotAt generation c.
Proof. reflexivity. Qed.
(** A successful look leaves what is set set. *)
Lemma advance_isSet now c r c' : advance now c = (r, c') -> isSet c' = isSet c.
Proof.
  unfold advance, bind at 1, gets at 1. unfold id. destruct (isSet c) eqn:E; cbn [negb]; [|by intros [= <- <-]].
  cbv zeta. destruct (INT32_MAX <? _); [by intros [= <- <-]|]. destruct (_ || _); [by intros [= <- <-]|].
  intros [= <- <-]. exact E.
Qed.

Definition inSlot (slot : Z) : Prop := slot = 0 \/ slot = 1.
Lemma slot_other slot : inSlot slot -> u8 (Z.lxor slot 1) = otherSlot slot /\ inSlot (otherSlot slot) /\
  slotKey (otherSlot slot) <> slotKey slot.
Proof. unfold inSlot, otherSlot. intros [-> | ->]; cbn; auto. Qed.
Lemma other_other slot : otherSlot (otherSlot slot) = slot.
Proof. unfold otherSlot. lia. Qed.

Lemma persist_eq g w : storageReady g = true -> clockStateReady g = true -> isSet (kitsuClock g) = true ->
  inSlot (clockSnapshotSlot g) ->
  persistClockState (g, w) =
  let '(m, w1) := millis w in
  let '(r, c1) := advance m (kitsuClock g) in
  if isOk r then
    let gen := nextGeneration (clockSnapshotGeneration g) in
    let '(ok, w') := writePreferenceRecord true (slotKey (otherSlot (clockSnapshotSlot g)))
                       (snapshotBytes (snapshotAt gen c1)) w1 in
    let g1 := set_clock (snd (report ClockOk c1)) g in
    (ok, (if ok then set_snapshot gen (otherSlot (clockSnapshotSlot g)) g1 else g1, w'))
  else (false, (set_clock c1 g, w1)).
Proof.
  intros Hst Hr Hset Hslot. destruct (slot_other _ Hslot) as (Hx & _).
  unfold persistClockState. unfold bind at 1, global at 1, gets at 1. cbn [fst]. unfold bind at 1, global at 1, gets at 1. cbn [fst].
  unfold bind at 1, global at 1, gets at 1. cbn [fst]. rewrite Hst, Hr, Hset. cbn [negb orb].
  unfold bind at 1, global at 1, gets at 1. cbn [fst]. cbv zeta. fold (nextGeneration (clockSnapshotGeneration g)).
  unfold bind at 1, host at 1. cbn [fst snd]. destruct (millis w) as [m w1]. cbn [fst snd] in *.
  unfold bind at 1, onClock at 1. cbn [fst snd]. rewrite makeSnapshot_run. destruct (advance m (kitsuClock g)) as [r c1].
  destruct (isOk r); [|done]. change (isOk ClockOk) with true. cbn [negb].
  unfold bind at 1, global at 1, gets at 1. cbn [fst set_clock clockSnapshotSlot].
  rewrite Hx. unfold bind at 1, host at 1. cbn [fst snd]. destruct (writePreferenceRecord _ _ _ w1) as [ok w']. by destruct ok.
Qed.
(** What reading a clock turns it into. *)
Inductive observed (c : Clock) : Clock -> Prop :=
| obs_here : observed c c
| obs_advance now c' : observed c c' -> observed c (snd (advance now c'))
| obs_report r c' : observed c c' -> observed c (snd (report r c')).

Lemma observed_sound c c' : observed c c' -> ClockSound c -> ClockSound c'.
Proof. intros Ho Hc. induction Ho; [done|by apply keeps_advance|by apply keeps_report]. Qed.
Lemma observed_set c c' : observed c c' -> isSet c' = isSet c.
Proof.
  intros Ho. induction Ho as [|now c' Ho IH|r c' Ho IH]; [done| |done]. rewrite <- IH.
  destruct (advance now c') as [r c1] eqn:E. exact (advance_isSet _ _ _ _ E).
Qed.
Lemma observed_trans c c1 c2 : observed c c1 -> observed c1 c2 -> observed c c2.
Proof. intros H1 H2. induction H2; [done|by constructor|by constructor]. Qed.

(** What [persistClockState] leaves: the looked-at clock, and either a new snapshot of
    it in the other slot or the store as it was. *)
Lemma persist_run g w : ClockSound (kitsuClock g) -> inSlot (clockSnapshotSlot g) ->
  0 <= clockSnapshotGeneration g < 2 ^ 32 -> storageReady g = true -> clockStateReady g = true ->
  isSet (kitsuClock g) = true ->
  let m := fst (millis w) in
  let '(r, c1) := advance m (kitsuClock g) in
  exists w' c2, observed (kitsuClock g) c2 /\ snd (report ClockOk c1) = snd (report ClockOk c2) /\
  (forall key, key <> slotKey (otherSlot (clockSnapshotSlot g)) -> stored w' key = stored w key) /\
  (persistClockState (g, w) = (false, (set_clock c2 g, w')) /\ (forall key, stored w' key = stored w key) \/
   persistClockState (g, w) = (true, (set_snapshot (nextGeneration (clockSnapshotGeneration g))
      (otherSlot (clockSnapshotSlot g)) (set_clock c2 g), w')) /\ r = ClockOk /\
   slotOf w' (otherSlot (clockSnapshotSlot g)) = Some (snapshotAt (nextGeneration (clockSnapshotGeneration g)) c1)).
Proof.
  intros Hc Hslot Hgen Hst Hr Hset. cbv zeta. destruct (slot_other _ Hslot) as (Hx & Hin & Hne).
  pose proof (millis_stored w) as Hw. pose proof (keeps_advance (fst (millis w)) _ Hc) as Hc1.
  pose proof (obs_advance _ (fst (millis w)) _ (obs_here (kitsuClock g))) as Ho1.
  destruct (advance (fst (millis w)) (kitsuClock g)) as [r c1] eqn:Ea. cbn [snd] in Hc1, Ho1.
  pose proof (advance_isSet _ _ _ _ Ea) as Hset1. rewrite Hset in Hset1.
  rewrite (persist_eq g w Hst Hr Hset Hslot). set (gen := nextGeneration _) in *. cbv zeta.
  destruct (millis w) as [m w1]. cbn [fst snd] in *. rewrite Ea. unfold isOk.
  destruct (bool_decide_reflect (r = ClockOk)) as [->|Hr1].
  - destruct (write_record true (slotKey (otherSlot (clockSnapshotSlot g))) (snapshotBytes (snapshotAt gen c1)) w1)
      as (w' & ok & -> & Hs & Hother & _).
    assert (Hgr : 0 <= gen < 2 ^ 32).
    { unfold gen, nextGeneration. pose proof (u32_range (clockSnapshotGeneration g + 1)). destruct (_ =? 0); lia. }
    exists w', (snd (report ClockOk c1)). split; [by apply obs_report|]. split; [reflexivity|].
    split; [intros key Hkey; by rewrite Hother, Hw|]. destruct ok.
    + right. split; [reflexivity|]. split; [done|]. unfold slotOf. rewrite Hs. cbn [mbind option_bind].
      pose proof (snapshotAt_widths gen c1 Hc1 Hset1 Hgr) as Hwid. rewrite (snapshotBytes_length _ (sw_reserved _ Hwid)).
      cbn [Nat.eqb]. rewrite (snapshotOf_bytes _ Hwid). unfold isOk. by rewrite (snapshotAt_valid gen c1 Hc1 Hset1).
    + left. split; [reflexivity|]. intros key. destruct (decide (key = slotKey (otherSlot (clockSnapshotSlot g)))) as [->|Hkey];
        [by rewrite Hs, Hw|by rewrite Hother, Hw].
  - exists w1, c1. split; [exact Ho1|]. split; [reflexivity|]. split; [by intros key _; rewrite Hw|]. left. split; [reflexivity|exact Hw].
Qed.

(** ** The running program and the store *)

(** The slot the program counts from holds its generation, and is what a restart loads,
    unless a mutation that could not be taken back is in the other slot. *)
Definition mine (g : ClockMain) (w : W) : Prop :=
  match slotOf w (clockSnapshotSlot g) with
  | Some s => s_generation s = clockSnapshotGeneration g
  | None => clockSnapshotGeneration g = 0 /\ clockSnapshotSlot g = 0
  end.
Definition loadsMine (g : ClockMain) (w : W) : Prop :=
  newest w = (fun s => (s, clockSnapshotSlot g)) <$> slotOf w (clockSnapshotSlot g).
Definition leftOver (g : ClockMain) (w : W) : Prop :=
  exists o, slotOf w (otherSlot (clockSnapshotSlot g)) = Some o /\ s_generation o = nextGeneration (clockSnapshotGeneration g).

Record StoreOk (g : ClockMain) (w : W) : Prop := {
  so_clock : ClockSound (kitsuClock g);
  so_slot : inSlot (clockSnapshotSlot g);
  so_generation : 0 <= clockSnapshotGeneration g < 2 ^ 32;
  so_storage : storageReady g = true;
  so_ready : clockStateReady g = true;
  so_mine : mine g w;
  so_loads : loadsMine g w \/ leftOver g w;
  so_unset : isSet (kitsuClock g) = false -> slotOf w (clockSnapshotSlot g) = None;
}.

Lemma nextGeneration_after g : 0 <= g < 2 ^ 32 ->
  generationAfter (nextGeneration g) g = true /\ generationAfter g (nextGeneration g) = false /\
  0 <= nextGeneration g < 2 ^ 32.
Proof.
  intros Hg. unfold nextGeneration. unfold generationAfter.
  destruct (Z.eq_dec g (2 ^ 32 - 1)) as [->|Hne].
  - vm_compute. repeat split; discriminate.
  - rewrite (u32_id (g + 1)) by lia. rewrite (proj2 (Z.eqb_neq (g + 1) 0)) by lia.
    replace (g + 1 - g) with 1 by lia. replace (g - (g + 1)) with (-1) by lia. split; [done|]. split; [done|lia].
Qed.
Lemma newest_next w slot s : inSlot slot -> slotOf w (otherSlot slot) = Some s ->
  (match slotOf w slot with
   | Some o => generationAfter (s_generation s) (s_generation o) = true /\ generationAfter (s_generation o) (s_generation s) = false
   | None => True end) ->
  newest w = Some (s, otherSlot slot).
Proof.
  unfold newest. intros [-> | ->]; unfold otherSlot; cbn [Z.sub Z.opp Z.add Z.pos_sub Pos.pred_double]; change (1 - 0) with 1; change (1 - 1) with 0;
    intros ->; destruct (slotOf w _); try done; intros [H1 H2]; by rewrite ?H1, ?H2.
Qed.
Lemma slotOf_key w w' slot : (forall key, key = slotKey slot -> stored w' key = stored w key) -> slotOf w' slot = slotOf w slot.
Proof. intros Hk. apply slotOf_ext. by apply Hk. Qed.

(** A restart finds this clock, generation and slot. *)
Definition wakesTo (w : W) (c : Clock) (generation slot : Z) : Prop :=
  let g := restarted w in
  unixSeconds_ (kitsuClock g) = unixSeconds_ c /\ millisecond_ (kitsuClock g) = millisecond_ c /\
  utcOffsetMinutes_ (kitsuClock g) = utcOffsetMinutes_ c /\ source_ (kitsuClock g) = source_ c /\
  trust_ (kitsuClock g) = RestoredStale /\ clockSnapshotGeneration g = generation /\ clockSnapshotSlot g = slot.
Lemma newest_wakes w c generation slot : newest w = Some (snapshotAt generation c, slot) -> wakesTo w c generation slot.
Proof.
  intros Hn. unfold wakesTo, restarted. destruct (load_run main0 w eq_refl) as (g' & w' & -> & _ & _ & _ & Hl). rewrite Hn in Hl.
  cbn [fst snd]. destruct Hl as ((H1 & H2 & H3 & H4 & H5) & Hgen & Hslot). cbv zeta. rewrite H1, H2, H3, H4, H5, Hgen, Hslot.
  unfold snapshotAt. cbv zeta. cbn [s_unixSeconds s_millisecond s_utcOffsetMinutes s_source s_generation]. by split_and!.
Qed.
Lemma wakes_ext w w' c generation slot : (forall key, stored w' key = stored w key) ->
  wakesTo w c generation slot -> wakesTo w' c generation slot.
Proof.
  intros Hw. unfold wakesTo, restarted.
  destruct (load_run main0 w eq_refl) as (x & y & -> & _ & _ & _ & Hl).
  destruct (load_run main0 w' eq_refl) as (x' & y' & -> & _ & _ & _ & Hl').
  rewrite (newest_ext w w') in Hl' by (by apply slotOf_ext). cbn [fst snd]. cbv zeta.
  destruct (newest w) as [[s slot0]|].
  - destruct Hl as ((-> & -> & -> & -> & ->) & -> & ->). destruct Hl' as ((-> & -> & -> & -> & ->) & -> & ->). done.
  - destruct Hl as (-> & -> & ->). destruct Hl' as (-> & -> & ->). done.
Qed.
Lemma wakes_shown w c c' generation slot : snd (report ClockOk c) = snd (report ClockOk c') ->
  wakesTo w c generation slot -> wakesTo w c' generation slot.
Proof.
  intros Hrep. assert (Hf : forall A (f : Clock -> A), f (snd (report ClockOk c')) = f (snd (report ClockOk c))) by (intros; by rewrite Hrep).
  unfold wakesTo. cbv zeta. pose proof (Hf _ unixSeconds_) as H1. pose proof (Hf _ millisecond_) as H2.
  pose proof (Hf _ utcOffsetMinutes_) as H3. pose proof (Hf _ source_) as H4. cbn in H1, H2, H3, H4. by rewrite H1, H2, H3, H4.
Qed.

(** Storing keeps the two in step. *)
Definition numbered (ok : bool) (g : ClockMain) : ClockMain :=
  if ok then set_snapshot (nextGeneration (clockSnapshotGeneration g)) (otherSlot (clockSnapshotSlot g)) g else g.
Lemma persist_ok g w : mine g w -> (loadsMine g w \/ leftOver g w) -> ClockSound (kitsuClock g) ->
  inSlot (clockSnapshotSlot g) -> 0 <= clockSnapshotGeneration g < 2 ^ 32 -> storageReady g = true ->
  clockStateReady g = true -> isSet (kitsuClock g) = true ->
  exists ok c w', persistClockState (g, w) = (ok, (numbered ok (set_clock c g), w')) /\
  StoreOk (numbered ok (set_clock c g)) w' /\ observed (kitsuClock g) c /\
  snd (report ClockOk c) = snd (report ClockOk (snd (advance (fst (millis w)) (kitsuClock g)))) /\
  (ok = true -> fst (advance (fst (millis w)) (kitsuClock g)) = ClockOk) /\
  (forall key, key <> slotKey (otherSlot (clockSnapshotSlot g)) -> stored w' key = stored w key) /\
  if ok then
    wakesTo w' c (nextGeneration (clockSnapshotGeneration g)) (otherSlot (clockSnapshotSlot g)) /\ leftOver g w'
  else forall key, stored w' key = stored w key.
Proof.
  intros Hm Hl Hc Hslot Hgen Hst Hr Hset. pose proof (persist_run g w Hc Hslot Hgen Hst Hr Hset) as Hrun. cbv zeta in Hrun.
  destruct (advance (fst (millis w)) (kitsuClock g)) as [r c1] eqn:Ea. cbn [fst snd].
  destruct Hrun as (w' & c2 & Ho & Hrep & Hother & Hcase). destruct (slot_other _ Hslot) as (_ & Hin & Hne).
  destruct (nextGeneration_after _ Hgen) as (Hga & Hgb & Hgr).
  pose proof (observed_set _ _ Ho) as Hs2. rewrite Hset in Hs2. pose proof (observed_sound _ _ Ho Hc) as Hc2.
  assert (Hkeep : slotOf w' (clockSnapshotSlot g) = slotOf w (clockSnapshotSlot g)).
  { apply slotOf_ext, Hother. congruence. }
  destruct Hcase as [[Hrun Hsame]|(Hrun & -> & Hnew)].
  - exists false, c2, w'. split; [done|]. unfold numbered.
    assert (Hall : forall slot, slotOf w' slot = slotOf w slot) by (intros; by apply slotOf_ext).
    split; [|by split_and!].
    constructor; try done.
    + unfold mine. cbn. by rewrite Hall.
    + unfold loadsMine, leftOver in *. cbn. rewrite !Hall, (newest_ext w w') by done. exact Hl.
    + cbn. by rewrite Hs2.
  - set (gen := nextGeneration (clockSnapshotGeneration g)) in *. set (slot := otherSlot (clockSnapshotSlot g)) in *.
    assert (Hnewest : newest w' = Some (snapshotAt gen c1, slot)).
    { apply newest_next; [done|exact Hnew|]. rewrite Hkeep. unfold mine in Hm. destruct (slotOf w (clockSnapshotSlot g)); [|done].
      by rewrite Hm. }
    exists true, c2, w'. split; [done|]. split.
    { constructor; try done.
      - unfold mine, numbered. cbn. fold gen slot. by rewrite Hnew.
      - left. unfold loadsMine, numbered. cbn. fold slot. by rewrite Hnew, Hnewest.
      - cbn. by rewrite Hs2. }
    split; [done|]. split; [done|]. split; [done|]. split; [done|]. split.
    + apply (wakes_shown _ c1); [done|]. by apply newest_wakes.
    + exists (snapshotAt gen c1). done.
Qed.

(** ** A mutation *)

Lemma apply_run now g w : exists (ok : bool) w',
  applyClockToRuntime now (g, w) = (ok, (set_clock (snd (advance now (kitsuClock g))) g, w')) /\
  (forall key, stored w' key = stored w key) /\
  (ok = true -> fst (advance now (kitsuClock g)) = ClockOk).
Proof.
  unfold applyClockToRuntime. unfold bind at 1. unfold clockReading. unfold bind at 1, onClock at 1. cbn [fst snd].
  unfold read. unfold bind at 1, gets. unfold bind, ret. destruct (advance now (kitsuClock g)) as [r c] eqn:Ea.
  cbn [fst snd]. unfold isOk. destruct (bool_decide_reflect (r = ClockOk)) as [->|Hr]; cbn [andb negb orb].
  2: { exists false, w. by split_and!. }
  destruct (negb _ || _); [by exists false, w; split_and!|].
  unfold host at 1. cbn [fst snd]. pose proof (time_stored (r_unixSeconds (reading c)) (r_millisecond (reading c)) w) as Ht.
  destruct (setTimeOfDay _ _ w) as [set w1]. cbn [fst snd] in *. destruct set; cbn [negb]; [|by exists false, w1; split_and!].
  unfold host. cbn [fst snd]. pose proof (mesh_stored (u32 (r_unixSeconds (reading c))) w1) as Hm.
  destruct (meshSetEpoch _ w1) as [ok w2]. cbn [fst snd] in *. exists ok, w2. split; [done|]. split; [|done].
  intros key. by rewrite Hm, Ht.
Qed.

Definition beforeOf (g : ClockMain) : Before := mkBefore (kitsuClock g) (clockSnapshotGeneration g) (clockSnapshotSlot g).

(** The clock of [g] replaced by what reading it turns it into, the store unchanged. *)
Lemma ok_observed g w c w' : StoreOk g w -> observed (kitsuClock g) c -> (forall key, stored w' key = stored w key) ->
  StoreOk (set_clock c g) w'.
Proof.
  intros [Hc Hs Hg Hst Hr Hm Hl Hu] Ho Hw.
  assert (Hall : forall slot, slotOf w' slot = slotOf w slot) by (intros; by apply slotOf_ext).
  constructor; try done.
  - by apply (observed_sound (kitsuClock g)).
  - unfold mine. cbn. by rewrite Hall.
  - unfold loadsMine, leftOver in *. cbn. rewrite !Hall, (newest_ext w w') by done. exact Hl.
  - cbn. rewrite (observed_set _ _ Ho), Hall. exact Hu.
Qed.
Lemma takeBack_run g c ok w : takeBack (W := W) (beforeOf g) (numbered ok (set_clock c g), w) = (tt, (g, w)).
Proof. destruct g, ok; reflexivity. Qed.
Lemma takeBack_seq {A} g c ok w (k : K (W := W) A) :
  (takeBack (W := W) (beforeOf g) ;;; k) (numbered ok (set_clock c g), w) = k (g, w).
Proof. unfold bind at 1. by rewrite takeBack_run. Qed.

(** The end of a mutation that could not be applied: the old clock is stored again. *)
Lemma flush_run g w : isSet (kitsuClock g) = true -> StoreOk g w ->
  exists ok c w', persistClockState (g, w) = (ok, (numbered ok (set_clock c g), w')) /\
  StoreOk (numbered ok (set_clock c g)) w' /\ observed (kitsuClock g) c /\
  (ok = true -> wakesTo w' c (nextGeneration (clockSnapshotGeneration g)) (otherSlot (clockSnapshotSlot g))).
Proof.
  intros Hset [].
  destruct (persist_ok g w) as (ok & c & w' & Hp & Hs & Ho & _ & _ & _ & Hw); [done..|].
  exists ok, c, w'. split; [done|]. split; [done|]. split; [done|]. by intros ->; destruct Hw.
Qed.
Lemma takenBack_ok g w w' : StoreOk g w -> slotOf w' (clockSnapshotSlot g) = slotOf w (clockSnapshotSlot g) ->
  leftOver g w' -> StoreOk g w'.
Proof.
  intros [] Hkeep Hl. constructor; try done; [unfold mine; by rewrite Hkeep|by right|by rewrite Hkeep].
Qed.
(** Nothing was stored before: both keys are removed, or the other one stays. *)
Lemma removed_ok g w w1 : StoreOk g w -> isSet (kitsuClock g) = false ->
  slotOf w1 (clockSnapshotSlot g) = slotOf w (clockSnapshotSlot g) -> leftOver g w1 ->
  let w3 := snd (removeKey "clock_b" (snd (removeKey "clock_a" w1))) in
  set_snapshot 0 0 g = g /\ StoreOk g w3.
Proof.
  intros Hok Hset Hkeep (o & Ho & Hgen). pose proof (so_unset _ _ Hok Hset) as Hnone. pose proof (so_mine _ _ Hok) as Hm.
  unfold mine in Hm. rewrite Hnone in Hm. destruct Hm as [Hg0 Hs0]. cbv zeta.
  assert (Heta : set_snapshot 0 0 g = g) by (destruct g; cbn in *; by subst). split; [done|].
  rewrite Hs0 in *. rewrite Hnone in Hkeep. unfold otherSlot in Ho. cbn in Ho.
  set (w3 := snd _).
  assert (H0 : slotOf w3 0 = None).
  { unfold slotOf. change (slotKey 0) with "clock_a"%string. unfold w3. rewrite remove_other by done.
    destruct (remove_stored "clock_a" w1) as [-> | ->]; [done|exact Hkeep]. }
  assert (H1 : slotOf w3 1 = None \/ slotOf w3 1 = Some o).
  { unfold slotOf at 1 2. change (slotKey 1) with "clock_b"%string. unfold w3.
    destruct (remove_stored "clock_b" (snd (removeKey "clock_a" w1))) as [-> | ->]; [by left|]. rewrite remove_other by done.
    right. exact Ho. }
  destruct Hok. constructor; try done.
  - unfold mine. by rewrite Hs0, H0.
  - unfold loadsMine, leftOver. rewrite Hs0, H0. unfold otherSlot. cbn. unfold newest. rewrite H0.
    destruct H1 as [H1 | H1]; rewrite H1; [by left|right]. exists o. by change (1 - 0) with 1.
  - by rewrite Hs0.
Qed.

(** The clock reads the old time again, and whatever a restart would find is either it,
    stored anew, or numbered as before the mutation. *)
Definition TakenBack (g g' : ClockMain) (w' : W) : Prop :=
  observed (kitsuClock g) (kitsuClock g') /\ StoreOk g' w' /\
  ((clockSnapshotGeneration g', clockSnapshotSlot g') = (clockSnapshotGeneration g, clockSnapshotSlot g) \/
   (clockSnapshotGeneration g', clockSnapshotSlot g') =
     (nextGeneration (clockSnapshotGeneration g), otherSlot (clockSnapshotSlot g)) /\
   exists c, observed (kitsuClock g) c /\ observed c (kitsuClock g') /\
     wakesTo w' c (clockSnapshotGeneration g') (clockSnapshotSlot g')).

Lemma restored_ok (g g' : ClockMain) w now : TakenBack g g' w ->
  exists g'' w'', (when (trusted (kitsuClock g)) (applyClockToRuntime now ;;; ret tt) ;;;
    ret (Some "clock_runtime_failed"%string)) (g', w) = (Some "clock_runtime_failed"%string, (g'', w'')) /\ TakenBack g g'' w''.
Proof.
  intros (Ho & Hok & Hn). destruct (trusted (kitsuClock g)); cbn [when]; [|by exists g', w].
  unfold bind at 1 2. destruct (apply_run now g' w) as (ok & w' & -> & Hw & _). unfold ret.
  eexists _, w'. split; [reflexivity|]. pose proof (obs_advance _ now _ (obs_here (kitsuClock g'))) as Ha. split; [|split].
  - by apply (observed_trans _ (kitsuClock g')).
  - by apply (ok_observed _ w).
  - destruct Hn as [Hn|(Hn & c & Hc & Hc' & Hwake)]; [by left|]. right. split; [exact Hn|]. exists c. split; [done|].
    split; [by apply (observed_trans _ (kitsuClock g'))|]. by apply (wakes_ext w).
Qed.

(** The first half of the mutation. *)
Lemma commit_head g w c now apply_ : storageReady g = true -> clockStateReady g = true -> isSet c = true ->
  commitClockMutation (beforeOf g) now apply_ (set_clock c g, w) =
  (let '(stored_, s) := persistClockState (set_clock c g, w) in
   (if negb stored_ then takeBack (beforeOf g) ;;; ret (Some "clock_storage_failed"%string)
    else
      applied <- (if negb apply_ then ret true else applyClockToRuntime now) ;;
      if applied then ret None
      else
        takeBack (beforeOf g) ;;;
        ready <- global clockStateReady ;;
        when ready
          (if isSet (b_clock (beforeOf g)) then persistClockState ;;; ret tt
           else host (removeKey "clock_a") ;;; host (removeKey "clock_b") ;;; assign (set_snapshot 0 0)) ;;;
        when (trusted (b_clock (beforeOf g))) (applyClockToRuntime now ;;; ret tt) ;;;
        ret (Some "clock_runtime_failed"%string)) s).
Proof.
  intros Hst Hr Hset. unfold commitClockMutation. unfold bind at 1, global at 1, gets at 1. cbn [fst].
  unfold bind at 1, global at 1, gets at 1. cbn [fst]. change (clockStateReady (set_clock c g)) with (clockStateReady g).
  change (kitsuClock (set_clock c g)) with c. rewrite Hr, Hset. cbn [andb]. unfold bind at 1. by destruct (persistClockState _).
Qed.

(** The second half of it, when the runtime refused: [w1] holds the snapshot. *)
Lemma rollback_run g w c now w1 : StoreOk g w -> slotOf w1 (clockSnapshotSlot g) = slotOf w (clockSnapshotSlot g) ->
  leftOver g w1 -> exists g' w',
  (takeBack (beforeOf g) ;;;
   ready <- global clockStateReady ;;
   when ready
     (if isSet (b_clock (beforeOf g)) then persistClockState ;;; ret tt
      else host (removeKey "clock_a") ;;; host (removeKey "clock_b") ;;; assign (set_snapshot 0 0)) ;;;
   when (trusted (b_clock (beforeOf g))) (applyClockToRuntime now ;;; ret tt) ;;;
   ret (Some "clock_runtime_failed"%string)) (numbered true (set_clock c g), w1)
  = (Some "clock_runtime_failed"%string, (g', w')) /\ TakenBack g g' w'.
Proof.
  intros Hok Hkeep Hl. rewrite takeBack_seq. unfold bind at 1, global at 1, gets at 1. cbn [fst]. rewrite (so_ready _ _ Hok).
  cbn [when beforeOf b_clock]. destruct (isSet (kitsuClock g)) eqn:Hset.
  - destruct (flush_run g w1 Hset (takenBack_ok _ _ _ Hok Hkeep Hl)) as (ok & c2 & w2 & Hp & Hok2 & Ho & Hw).
    unfold bind at 1 2. rewrite Hp. unfold ret at 1. apply restored_ok.
    assert (Hc : kitsuClock (numbered ok (set_clock c2 g)) = c2) by (by destruct ok). unfold TakenBack. rewrite Hc.
    split; [exact Ho|]. split; [exact Hok2|]. destruct ok; [right|by left]. split; [done|]. exists c2.
    split; [done|]. split; [constructor|]. by apply Hw.
  - destruct (removed_ok _ _ _ Hok Hset Hkeep Hl) as [Heta Hok3]. unfold bind at 1. unfold bind at 1.
    unfold host at 1. cbn [fst snd]. destruct (removeKey "clock_a" w1) as [u1 w2]. cbn [fst snd] in *. unfold bind at 1.
    unfold host at 1. cbn [fst snd]. destruct (removeKey "clock_b" w2) as [u2 w3]. cbn [fst snd] in *.
    unfold assign at 1, modify. cbn [fst snd]. rewrite Heta. apply restored_ok. split; [constructor|]. split; [done|]. by left.
Qed.


(** ** What a restart leaves *)

Lemma clock_load_ok w : exists g' w', loadClockState (main0, w) = (tt, (g', w')) /\ StoreOk g' w'.
Proof.
  destruct (load_run main0 w eq_refl) as (g' & w' & Hrun & Hst & Hr & Hw & Hl). exists g', w'. split; [exact Hrun|].
  assert (Hall : forall slot, slotOf w' slot = slotOf w slot) by (intros; by apply slotOf_ext).
  assert (Hc : ClockSound (kitsuClock g')).
  { assert (Heq : kitsuClock g' = kitsuClock (restarted w)) by (unfold restarted; by rewrite Hrun). rewrite Heq.
    clear -H hostW quiet. unfold restarted, loadClockState. unfold bind at 1, onClock at 1. cbn [fst snd].
    change (reset (kitsuClock main0)) with (tt, clock0). cbv beta iota. unfold bind at 1, global at 1, gets at 1. cbn [fst].
    unfold bind at 1, assign at 1, modify at 1. cbn [fst snd]. unfold bind at 1, assign at 1, modify at 1. cbn [fst snd].
    change (storageReady _) with true. cbn [negb]. set (g1 := set_snapshot 0 0 _). assert (Hg1 : storageReady g1 = true) by done.
    assert (H0 : ClockSound (kitsuClock g1)) by (split; [done|split; [done|by left]]).
    unfold bind at 1. rewrite (readSlot_run _ 0) by done. unfold bind at 1. rewrite (readSlot_run _ 1) by done. fold (newest w).
    destruct (newest w) as [[s slot]|] eqn:En; [|exact H0]. destruct (newest_slot _ _ _ En) as [Hs _].
    unfold bind at 1, host at 1. cbn [fst snd]. destruct (millis w) as [now w1]. unfold bind at 1, onClock at 1. cbn [fst snd].
    pose proof (keeps_restore s now (proj1 (proj1 (slotOf_ok _ _ _ Hs))) _ H0) as Hres.
    destruct (restore s now (kitsuClock g1)) as [r c]. cbn [snd] in Hres. unfold isOk. destruct (bool_decide_reflect (r = ClockOk)); cbn [negb].
    - exact Hres.
    - unfold onClock. cbn. split; [done|]. split; [done|by left]. }
  destruct (newest w) as [[s slot]|] eqn:En.
  - destruct (newest_slot _ _ _ En) as [Hs Hin]. destruct Hl as ((_ & _ & _ & _ & Ht) & Hgen & Hslot).
    constructor; try done.
    + by rewrite Hslot.
    + rewrite Hgen. by destruct (slotOf_ok _ _ _ Hs).
    + unfold mine. by rewrite Hslot, Hall, Hs, Hgen.
    + left. unfold loadsMine. by rewrite Hslot, (newest_ext w), Hall, Hs, En.
    + unfold isSet. by rewrite Ht.
  - destruct Hl as (_ & Hgen & Hslot). assert (Hn : slotOf w 0 = None /\ slotOf w 1 = None).
    { unfold newest in En. destruct (slotOf w 0), (slotOf w 1); try done. by destruct (generationAfter _ _). }
    destruct Hn as [H0 H1]. constructor; try done; rewrite ?Hgen, ?Hslot; try done.
    + by left.
    + unfold mine. rewrite Hslot, Hall, H0. by rewrite Hgen.
    + left. unfold loadsMine. by rewrite Hslot, (newest_ext w), Hall, H0, En.
    + by rewrite Hall.
Qed.

(** The world after a restart. *)
Definition booted (w : W) : W := snd (snd (loadClockState (main0, w))).
Lemma restarted_ok w : StoreOk (restarted w) (booted w).
Proof. unfold restarted, booted. by destruct (clock_load_ok w) as (g' & w' & -> & Hok). Qed.

Lemma advance_last now c c' : advance now c = (ClockOk, c') -> lastMillis_ c' = now.
Proof.
  unfold advance, bind at 1, gets at 1. unfold id. destruct (isSet c); cbn [negb]; [|by intros [=]]. cbv zeta.
  destruct (INT32_MAX <? _); [by intros [=]|]. destruct (_ || _); [by intros [=]|]. by intros [= <-].
Qed.
Lemma advance_backwards now c : isSet c = true -> INT32_MAX < u32 (now - lastMillis_ c) ->
  advance now c = (MonotonicDiscontinuity,
    snd (report MonotonicDiscontinuity (distrust (set_time (unixSeconds_ c) (millisecond_ c) now c)))).
Proof.
  intros Hset Hd. unfold advance, bind at 1, gets at 1. unfold id. rewrite Hset. cbn [negb]. cbv zeta.
  apply Z.ltb_lt in Hd. by rewrite Hd.
Qed.
Lemma u32_back a b : 0 < u32 (a - b) <= INT32_MAX -> INT32_MAX < u32 (b - a).
Proof.
  unfold INT32_MAX. intros H'. replace (b - a) with (- (a - b)) by lia. unfold u32 in *.
  rewrite Z_mod_nz_opp_full by lia. lia.
Qed.

(** C30: a mutation looks at the counter twice: the caller's [now] anchors it, and
    [persistClockState] reads the counter again for the snapshot.  When a millisecond
    passed between the two, applying the mutation at [now] sees a counter that went
    backwards, and a mutation that was stored is refused. *)
Theorem late_clock_refused g w c now : StoreOk g w -> ClockSound c -> isSet c = true ->
  0 < u32 (fst (millis w) - now) <= INT32_MAX ->
  exists error g' w', commitClockMutation (beforeOf g) now true (set_clock c g, w) = (Some error, (g', w')) /\
  StoreOk g' w' /\ (error = "clock_runtime_failed"%string -> TakenBack g g' w').
Proof.
  intros Hok Hc Hset Hlate. pose proof Hok as [_ Hslot Hgen Hst Hr Hm Hl _]. rewrite (commit_head g w c now true Hst Hr Hset).
  destruct (persist_ok (set_clock c g) w) as (ok & c1 & w1 & Hp & Hok1 & Ho & Hrep & Hadv & Hother & Hcase); [done..|].
  rewrite Hp. cbv beta iota. change (set_clock c1 (set_clock c g)) with (set_clock c1 g) in *. destruct ok; cbn [negb].
  2: { unfold bind at 1. rewrite takeBack_run. unfold ret. eexists _, g, w1. split; [reflexivity|]. split; [|done].
    pose proof (ok_observed g w (kitsuClock g) w1 Hok (obs_here _) Hcase) as Hg. by destruct g. }
  destruct Hcase as [Hwake Hleft]. destruct (slot_other _ Hslot) as (_ & _ & Hne).
  assert (Hlast : lastMillis_ c1 = fst (millis w)).
  { change (kitsuClock (set_clock c g)) with c in Hrep, Hadv. destruct (advance (fst (millis w)) c) as [r c2] eqn:Ea.
    specialize (Hadv eq_refl). cbn [fst snd] in Hadv, Hrep. subst r. apply (f_equal lastMillis_) in Hrep.
    rewrite <- (advance_last _ _ _ Ea). exact Hrep. }
  destruct (apply_run now (numbered true (set_clock c1 g)) w1) as (applied & w2 & Ha & Hw2 & Hres).
  unfold bind at 1. rewrite Ha. destruct applied.
  - specialize (Hres eq_refl). change (kitsuClock (numbered true (set_clock c1 g))) with c1 in Hres.
    rewrite advance_backwards in Hres; [done|by rewrite (observed_set _ _ Ho)|by rewrite Hlast; apply u32_back].
  - set (c3 := snd (advance now _)) in *.
    change (set_clock c3 (numbered true (set_clock c1 g))) with (numbered true (set_clock c3 g)).
    destruct (rollback_run g w c3 now w2 Hok) as (g' & w' & Hrun & Htb).
    + transitivity (slotOf w1 (clockSnapshotSlot g)); [by apply slotOf_ext|]. apply slotOf_ext, Hother. cbn. congruence.
    + destruct Hleft as (o & Hos & Hog). exists o. split; [|exact Hog]. rewrite <- Hos. by apply slotOf_ext.
    + rewrite Hrun. eexists _, g', w'. split; [reflexivity|]. split; [apply Htb|]. by intros _.
Qed.
End Slots.

(** ** A host *)

(** NVS in memory; [sim_now] is what [millis] returns. *)
Record Sim := mkSim { sim_store : string -> option (list Z); sim_now : Z }.
#[export] Instance sim_records : RecordStore Sim := {
  putBytes key value := fun w =>
    (Z.of_nat (length value),
     mkSim (fun k => if String.eqb k key then Some value else sim_store w k) (sim_now w));
  getBytesLength key := fun w => (Z.of_nat (length (default [] (sim_store w key))), w);
  getBytes key := fun w => (default [] (sim_store w key), w);
}.
#[export] Program Instance sim_truthful : TruthfulStore Sim := { stored := sim_store }.
Next Obligation. done. Qed.
Next Obligation. done. Qed.
Next Obligation.
  intros w key value. eexists. split.
  - left. split; [reflexivity|]. cbn. by rewrite String.eqb_refl.
  - intros key' Hne. cbn. by apply String.eqb_neq in Hne as ->.
Qed.
#[export] Instance sim_host : ClockHost Sim := {
  millis := fun w => (sim_now w, w);
  removeKey key := fun w => (tt, mkSim (fun k => if String.eqb k key then None else sim_store w k) (sim_now w));
  setTimeOfDay _ _ := ret true;
  meshSetEpoch _ := ret true;
  wifiConnected := ret true;
  sntpStop := ret tt;
  configTime := ret tt;
  systemTime := ret 0;
  sntpCompleted := ret false;
  clockSetShown _ := ret tt;
  foregroundTransitionBlocked := ret false;
  enterClockScreen := ret tt;
}.
#[export] Program Instance sim_quiet : QuietHost (W := Sim).
Next Obligation. done. Qed.
Next Obligation. done. Qed.
Next Obligation. done. Qed.
Next Obligation. intros key w. left. cbn. by rewrite String.eqb_refl. Qed.
Next Obligation. intros key w key' Hne. cbn. by apply String.eqb_neq in Hne as ->. Qed.

(** An empty store at 1001 milliseconds, and a time the phone set at 1000 or 1001. *)
Definition fresh : Sim := mkSim (fun _ => None) 1001.
Definition phoneClock (now : Z) : Clock :=
  snd (setFromUnixSeconds 1800000000 0 AuthenticatedApp 60 now clock0).
Lemma phoneClock_ok now : ClockSound (phoneClock now) /\ isSet (phoneClock now) = true.
Proof. split; [|reflexivity]. apply keeps_setAnchor; [done|]. split; [done|]. split; [done|by left]. Qed.


Lemma late_clock_refused_witness :
  fst (commitClockMutation (beforeOf (restarted fresh)) 1000 true
         (set_clock (phoneClock 1000) (restarted fresh), booted fresh)) = Some "clock_runtime_failed"%string /\
  exists error g' w',
    commitClockMutation (beforeOf (restarted fresh)) 1000 true
      (set_clock (phoneClock 1000) (restarted fresh), booted fresh) = (Some error, (g', w')) /\ StoreOk g' w'.
Proof.
  split; [vm_compute; reflexivity|].
  destruct (late_clock_refused (restarted fresh) (booted fresh) (phoneClock 1000) 1000 (restarted_ok fresh)
    (proj1 (phoneClock_ok 1000)) (proj2 (phoneClock_ok 1000))) as (error & g' & w' & Hrun & Hok & _).
  - vm_compute. split; [reflexivity|discriminate].
  - exists error, g', w'. split; [exact Hrun|exact Hok].
Defined.
